(* ===== verification/_CoqProject ===== *)
-Q . S2P
Prelude.v
Uri.v
Base64.v
HttpCn.v
Convert.v
Dict.v
AudioInfo.v
Errors.v
Refbuf.v
Acl.v
Http.v
Answers.v
Xslt.v
Stats.v
StatsFacts.v
Mounts.v
MountsFacts.v
Md5.v
Md5Facts.v
Matchfile.v
Htpasswd.v
AuthUrl.v
Xml.v
Playlist.v
Event.v
EventFacts.v
Yp.v
YpFacts.v
Auth.v
AuthFacts.v
Slave.v
SlaveFacts.v
SlaveThreads.v
Connection.v
ConnectionFacts.v
Config.v
ConfigFacts.v
ConfigRoles.v
Startup.v
Fserve.v
FserveFacts.v
FallbackFile.v
Admin.v
AdminFacts.v
StatsDoc.v
FormatMp3.v
FormatMp3Facts.v
FormatMp3Write.v
FormatMp3Headers.v
StreamHeaders.v
Ebml.v
EbmlFacts.v
Ogg.v
OggExample.v
OggVorbis.v
OggPlugin.v
OggStore.v
OggFacts.v
OggOpus.v
OggLoops.v
OggClient.v
AvlTree.v
Source.v
SourceInv.v
SourceClient.v
SourceLoop.v
SourceSpec.v
SourceRun.v
SourceRead.v
Main.v
Counted.v
AuthStack.v
Tls.v
Sockets.v
FserveThread.v
Logging.v
