(* ===== verification/Prelude.v ===== *)
(** * The Icecast streaming server

    A model of the server in [src/src], with the theorems that make it
    correct.  Sources send streams to mounts, listeners ask for mounts and are
    fed from a queue of buffers, and around that core there are
    authentication, relays, statistics, directories, events, the serving of
    files, administration and the configuration file.

    ** Conventions

    A C function is a Gallina function on explicit state.  [option] stands for
    undefined behaviour: [None] is a pointer to freed or missing memory that is
    followed, a write outside of a buffer, or a loop that does not end; the
    theorems say where that cannot happen, or exactly when it does.  Errors the
    code handles are values.  Integers are [Z], wrapped where the code relies
    on their width ([u8], [u32], [i32], ... below); texts are [string] and
    buffers lists of [ascii].  Threads are interleaved: a step is what a
    thread does between two places where another can come in, mostly a
    critical section.  Third-party code (libxml2, libcurl, fnmatch, the
    submodules [common/httpp], [common/avl], [common/thread] and [common/net])
    and the outside world (sockets, the disk, time) are arguments of the
    definitions, with what is relied on as hypotheses where a theorem needs
    any.

    ** Files, components and sources

    Shared ground:
    - [Prelude.v] (this file): machine integers, characters, C strings,
      numbers as text, the tactics and generic lemmas.
    - [Uri.v], [Base64.v], [HttpCn.v], [Convert.v], [Dict.v]: [util.c], that is
      percent-encoding and the check of request paths, base64, content
      negotiation, conversions, dictionaries.
    - [Errors.v]: [errors.c]. [Md5.v], [Md5Facts.v]: [md5.c].
    - [Refbuf.v]: [refbuf.c], buffers with counts of references on a heap.
    - [AvlTree.v]: the interface (a class with its laws) of the ordered trees
      the source keeps its listeners in.
    - [Xml.v]: the nodes of a document, as the code asks for them.

    The streaming core:
    - [Source.v]: the loop of [source_main], the queue with its burst, the
      buffer checks of [format.c] and [send_to_listener].  The proofs are in
      [SourceInv.v] (the invariant and what the operations of a client do to
      it), [SourceClient.v], [SourceLoop.v], [SourceSpec.v] (one turn) and
      [SourceRun.v] (any run of connections, deliveries and turns).
    - [FormatMp3.v], [FormatMp3Facts.v], [FormatMp3Write.v],
      [FormatMp3Headers.v]: [format_mp3.c], inline metadata on both sides.
    - [Ebml.v], [EbmlFacts.v]: [format_ebml.c], the parser of WebM.
    - [Ogg.v], [OggVorbis.v], [OggPlugin.v]: [format_ogg.c] and the codecs,
      [format_midi.c], [format_flac.c], [format_speex.c], [format_kate.c],
      [format_skeleton.c], [format_opus.c], [format_theora.c] and
      [format_vorbis.c].  libogg and the codecs' libraries are classes, with a
      concrete instance in [OggExample.v].  What is done to buffers is a list
      of actions; [OggStore.v] refines the heap they are done on to copies,
      [OggFacts.v] shows the plugin's actions in order, [OggLoops.v] that its
      loops end, [OggOpus.v] is about the headers of Opus and [OggClient.v]
      about what a listener is sent.
    - [Mounts.v], [MountsFacts.v]: the mounts and their settings ([cfgfile.c],
      [source.c]), fallbacks, the moving and the admission of listeners
      ([connection.c]).
    - [Startup.v]: how a source client starts ([connection.c], [source.c]).
      [SourceRead.v]: the wait of [source_main] for data with its timeout, and
      the loop around it.  [AudioInfo.v]: the parameters of the stream and the
      name of the dump file.  [FallbackFile.v]: the thread that plays a file in
      place of a source.  [Playlist.v]: [playlist.c], the history of a mount.
    - [StreamHeaders.v]: the headers a listener is answered with ([format.c]).

    Requests:
    - [Connection.v], [ConnectionFacts.v]: the intake of [connection.c].
    - [Acl.v], [Htpasswd.v], [AuthUrl.v], [Auth.v], [AuthFacts.v]: access
      control ([acl.c]), the authenticators ([auth*.c]) with their queues and
      threads, and the way of a request through them.  [Matchfile.v]:
      [matchfile.c].
    - [Counted.v]: objects with counts of references, as a class with its law,
      and when counts are right.  [AuthStack.v]: the stacks of authenticators in
      memory ([auth.c], [acl.c]), which refine the lists of [Auth.v].
    - [Sockets.v]: the sockets listened on, and those of connections with their
      TLS sessions ([connection.c], [client.c]).  [Tls.v]: [tls.c].
    - [Http.v]: the header of an answer ([util.c]).  [Answers.v]: the answers to
      errors and upgrades ([client.c]).  [Fserve.v], [FserveFacts.v]: [fserve.c];
      [FserveThread.v]: the start and the end of its thread.  [Admin.v],
      [AdminFacts.v]: [admin.c].  [Xslt.v]: [xslt.c].

    Around it:
    - [Main.v]: the start and the end of the process, [main.c] and
      [sighandler.c].  [Logging.v]: [logging.c].
    - [Stats.v], [StatsFacts.v], [StatsDoc.v]: [stats.c].  [Yp.v], [YpFacts.v]:
      [yp.c].
    - [Slave.v], [SlaveFacts.v], [SlaveThreads.v]: relays, [slave.c].
    - [Event.v], [EventFacts.v]: [event.c] and its three backends.
    - [Config.v], [ConfigFacts.v], [ConfigRoles.v]: [cfgfile.c].

    How they meet: [Connection.v] hands a client to [Auth.v], whose outcome is
    a handler of [Mounts.v] (a listener), [Startup.v] (a source), [Admin.v],
    [Fserve.v] or [Stats.v].  [Startup.v] and [Slave.v] complete a source with
    the settings of [Mounts.v]; [Config.v] makes those settings, and the
    authenticators of [Auth.v], the registrations of [Event.v] and the entries
    of [Slave.v] and [Yp.v].  [Source.v] works on the heap of [Refbuf.v] and
    only asks a format plugin for the next buffer and for the writing to a
    client, which the format files define.

    ** What the theorems show

    - Invariants and safety of reachable states: [SourceRun.v] (no sequence of
      steps follows a dangling pointer, and the counts are exact),
      [Refbuf.v], [MountsFacts.v] (each listener is in one place),
      [AuthFacts.v] (nobody is served unauthenticated), [OggFacts.v] (no buffer
      of the Ogg plugin is misused or lost), [SlaveThreads.v] (no
      relay is run twice or freed while it runs), [ConnectionFacts.v],
      [YpFacts.v], [AdminFacts.v], [AuthStack.v] (the counts of stacks,
      authenticators and their lists), [Sockets.v] (each open socket has one
      holder), [FserveThread.v] (no client is lost or served twice), [Main.v]
      (nobody serves as root, and all that is started is shut down).
    - Refinement and equivalence: [EventFacts.v] (the queue with its heap
      against copies of the configuration), [OggStore.v] (buffers that share
      header pages against copies), [AuthStack.v] (stacks in memory against
      lists), [HttpCn.v], [Md5Facts.v] (RFC 1321), [StatsFacts.v] (replicas),
      [Xslt.v] (the cache against the files), [FormatMp3Facts.v].
    - Functional behaviour on every branch, errors included: [Startup.v],
      [FserveFacts.v], [SlaveFacts.v], [ConfigFacts.v] (which documents crash
      the reader, and the shape of every configuration), [ConfigRoles.v] (what
      each role may do), [EventFacts.v], [YpFacts.v], [Htpasswd.v], [Answers.v],
      [StatsDoc.v], [Playlist.v], [Logging.v].
    - Round trips, bounds and termination: [HttpCn.v], [FormatMp3Write.v],
      [AuthUrl.v], [EbmlFacts.v], [MountsFacts.v], [OggOpus.v], [OggLoops.v],
      [StreamHeaders.v], [AudioInfo.v], [SourceRead.v], [FserveThread.v].
    Theorems that show where the code does not do what it means to stand
    beside these, mostly as examples of concrete runs.

    ** Fuel

    Loops that are not structural get fuel computed from their input: the
    length of what is left to read, or the size of the heap or of a list of
    mounts.  Where it could run out the result is [None], and the theorems
    state [Some]: [Refbuf.release_fuel] by the size of the heap (a chain of
    distinct buffers is no longer), [HttpCn.v] by the length of the header,
    [Ebml.v] by the bytes of the input buffer, [Source.v] by the length of the
    queue, [Mounts.v] by the code's own bound on fallbacks, [OggVorbis.v] by
    the packets that wait in a stream.  [ogg_get_buffer] reads as long as data
    comes; [OggLoops.v] shows that some fuel is enough.

    ** Not modelled

    The submodules under [common/], which are not in the repository; [curl.c]
    (settings of libcurl handles), [global.c] (a lock) and [configtest.c] (a
    program that prints a configuration); the freeing of the configuration and
    of the plugins' structures; the start and the end of the threads of
    statistics, directories and relays; the variants for systems without
    [poll] or for Windows, but for the time in [logging.c].  Locks are
    modelled where their order matters ([SlaveThreads.v], [Event.v]); log
    messages are left out. *)

From Stdlib Require Export ZArith Lia Ascii.
From Stdlib Require Import DecimalString.
From stdpp Require Export base list strings gmap.

(** The scope of the development's own notations. *)
Declare Scope ice_scope.
Delimit Scope ice_scope with ice.

(** ** Tactics *)

(** One bind of the option monad, and nothing else, is reduced. *)
Ltac run_bind := cbn [mbind option_bind fst snd].

(** Case analysis on the head of the goal or of a hypothesis, one match at
    a time, keeping the equations. *)
Ltac break_match :=
  match goal with
  | |- context [match ?x with _ => _ end] => destruct x eqn:?
  | H : context [match ?x with _ => _ end] |- _ => destruct x eqn:?
  end.

Ltac break_match_goal :=
  match goal with
  | |- context [match ?x with _ => _ end] => destruct x eqn:?
  end.

Ltac break_match_hyp H :=
  match type of H with
  | context [match ?x with _ => _ end] => destruct x eqn:?
  end.

(** Closes the closed, computable side conditions of the witnesses. *)
Ltac vm_decide := vm_compute; first [reflexivity | discriminate | tauto].

(** ** Machine integers *)

Section integers.
Local Open Scope Z_scope.

(** The value of [z] in an unsigned and in a two's complement [w]-bit
      integer. *)
Definition wrap (w z : Z) : Z := z mod 2 ^ w.
Definition swrap (w z : Z) : Z := (z + 2 ^ (w - 1)) mod 2 ^ w - 2 ^ (w - 1).

Lemma wrap_range w z : 0 <= w -> 0 <= wrap w z < 2 ^ w.
Proof. intros. apply Z.mod_pos_bound. apply Z.pow_pos_nonneg; lia. Qed.

Lemma wrap_small w z : 0 <= z < 2 ^ w -> wrap w z = z.
Proof. intros. by apply Z.mod_small. Qed.

Lemma swrap_range w z :
    1 <= w -> - 2 ^ (w - 1) <= swrap w z < 2 ^ (w - 1).
Proof.
    intros Hw. unfold swrap.
    assert (2 ^ w = 2 * 2 ^ (w - 1)) as E.
    { rewrite <- Z.pow_succ_r by lia. f_equal. lia. }
    pose proof (Z.mod_pos_bound (z + 2 ^ (w - 1)) (2 ^ w)) as B.
    assert (0 < 2 ^ w) by (apply Z.pow_pos_nonneg; lia). lia.
Qed.

Lemma swrap_small w z :
    1 <= w -> - 2 ^ (w - 1) <= z < 2 ^ (w - 1) -> swrap w z = z.
Proof.
    intros Hw Hz. unfold swrap.
    assert (2 ^ w = 2 * 2 ^ (w - 1)) as E.
    { rewrite <- Z.pow_succ_r by lia. f_equal. lia. }
    rewrite Z.mod_small; lia.
Qed.
End integers.

Abbreviation u8 := (wrap 8).
Abbreviation u32 := (wrap 32).
Abbreviation u64 := (wrap 64).
Abbreviation i8 := (swrap 8).
Abbreviation i32 := (swrap 32).
Abbreviation i64 := (swrap 64).

(** ** Characters *)

Definition NUL : ascii := Ascii.zero.

(** The byte a [char] holds, read as [unsigned char] and as the signed
    [char] of the supported platforms. *)
Definition code (c : ascii) : Z := Z.of_N (N_of_ascii c).
Definition scode (c : ascii) : Z := i8 (code c).

(** The [char] that storing the integer [z] leaves. *)
Definition chr (z : Z) : ascii := ascii_of_N (Z.to_N (u8 z)).

Lemma code_range c : (0 <= code c < 256)%Z.
Proof. unfold code. pose proof (N_ascii_bounded c). lia. Qed.

Lemma chr_code c : chr (code c) = c.
Proof.
  unfold chr. rewrite wrap_small by apply code_range.
  unfold code. by rewrite N2Z.id, ascii_N_embedding.
Qed.

Lemma code_chr z : code (chr z) = u8 z.
Proof.
  unfold code, chr.
  assert (0 <= u8 z < 2 ^ 8)%Z by (apply wrap_range; lia).
  rewrite N_ascii_embedding by lia. lia.
Qed.

Lemma code_inj c d : code c = code d -> c = d.
Proof. intros E. by rewrite <- (chr_code c), <- (chr_code d), E. Qed.

Definition in_range (lo hi c : ascii) : bool :=
  (code lo <=? code c)%Z && (code c <=? code hi)%Z.
Definition is_digit : ascii -> bool := in_range "0" "9".
Definition is_lower : ascii -> bool := in_range "a" "z".
Definition is_upper : ascii -> bool := in_range "A" "Z".
Definition tolower (c : ascii) : ascii :=
  if is_upper c then chr (code c + 32) else c.
(** [isspace] of the C locale. *)
Definition isspace (c : ascii) : bool :=
  (code c =? 32)%Z || ((9 <=? code c)%Z && (code c <=? 13)%Z).

Notation "c =c d" := (Ascii.eqb c d) (at level 70) : ice_scope.

(** ** C strings

    A [char *] argument is the [string] of the bytes before its terminator.
    A buffer a routine has filled is the [string] of the bytes written; what
    a reader of the buffer sees is its [cstr]. *)

Fixpoint cstr (s : string) : string :=
  match s with
  | EmptyString => EmptyString
  | String c r => if Ascii.eqb c NUL then EmptyString else String c (cstr r)
  end.

Fixpoint string_forall (P : ascii -> bool) (s : string) : bool :=
  match s with
  | EmptyString => true
  | String c r => P c && string_forall P r
  end.

Definition nul_free (s : string) : bool :=
  string_forall (fun c => negb (Ascii.eqb c NUL)) s.

Definition strlen (s : string) : Z := Z.of_nat (String.length s).

(** The end of a line of a header. *)
Definition crlf : string := String (chr 13) (String (chr 10) EmptyString).

Definition streq (a b : string) : bool := String.eqb a b.
Arguments streq : simpl never.

Fixpoint string_lower (s : string) : string :=
  match s with
  | EmptyString => EmptyString
  | String c r => String (tolower c) (string_lower r)
  end.

(** [strcasecmp (a, b) == 0]. *)
Definition strcaseeq (a b : string) : bool :=
  String.eqb (string_lower a) (string_lower b).

(** [strncmp (s, p, strlen (p)) == 0]. *)
Fixpoint starts_with (p s : string) : bool :=
  match p, s with
  | EmptyString, _ => true
  | String a p', String b s' => Ascii.eqb a b && starts_with p' s'
  | String _ _, EmptyString => false
  end.

(** [strchr]: the text before and after the first [c]. *)
Fixpoint strchr (c : ascii) (s : string) : option (string * string) :=
  match s with
  | EmptyString => None
  | String d r =>
      if Ascii.eqb d c then Some (EmptyString, r)
      else match strchr c r with
           | Some (a, b) => Some (String d a, b)
           | None => None
           end
  end.

(** [strrchr]: the text after the last [c]. *)
Fixpoint strrchr (c : ascii) (s : string) : option string :=
  match s with
  | EmptyString => None
  | String d r =>
      match strrchr c r with
      | Some t => Some t
      | None => if Ascii.eqb d c then Some r else None
      end
  end.

Fixpoint string_take (n : nat) (s : string) : string :=
  match n, s with
  | S n', String c r => String c (string_take n' r)
  | _, _ => EmptyString
  end.

Fixpoint string_drop (n : nat) (s : string) : string :=
  match n, s with
  | S n', String _ r => string_drop n' r
  | _, _ => s
  end.

Fixpoint strspn (P : ascii -> bool) (s : string) : string * string :=
  match s with
  | EmptyString => (EmptyString, EmptyString)
  | String c r =>
      if P c then let '(a, b) := strspn P r in (String c a, b)
      else (EmptyString, s)
  end.

(** [snprintf (buf, size, "%s", s)] with [size > 0]: the text the buffer is
    left with and the value returned. *)
Definition snprintf (size : nat) (s : string) : string * Z :=
  (string_take (size - 1) s, strlen s).

(** The text of a [%d] or [%lu] conversion. *)
Definition dec (z : Z) : string := NilZero.string_of_int (Z.to_int z).

(** [strtol (s, &rem, 10)] with a 64-bit [long]: the value, saturated, and
    the text left over. *)
Fixpoint digits_value (acc : Z) (s : string) : Z * string :=
  match s with
  | String c r =>
      if is_digit c then digits_value (10 * acc + (code c - 48))%Z r
      else (acc, s)
  | EmptyString => (acc, EmptyString)
  end.

Definition LONG_MAX : Z := (2 ^ 63 - 1)%Z.
Definition LONG_MIN : Z := (- 2 ^ 63)%Z.

Definition strtol (s : string) : Z * string :=
  let t := snd (strspn isspace s) in
  let '(neg, u) :=
    match t with
    | String c r =>
        if Ascii.eqb c "-" then (true, r)
        else if Ascii.eqb c "+" then (false, r) else (false, t)
    | EmptyString => (false, t)
    end in
  match u with
  | String c _ =>
      if is_digit c then
        let '(v, rest) := digits_value 0 u in
        ((if neg then Z.max LONG_MIN (- v) else Z.min LONG_MAX v)%Z, rest)
      else (0%Z, s)
  | EmptyString => (0%Z, s)
  end.

(** [atoi] is the [int] value of [strtol]. *)
Definition atoi (s : string) : Z := i32 (fst (strtol s)).

(** *** Exhaustive checks over bytes *)

Definition all_chars : list ascii := map ascii_of_nat (seq 0 256).

Lemma all_chars_in c : In c all_chars.
Proof.
  unfold all_chars. rewrite <- (ascii_nat_embedding c). apply in_map, in_seq.
  pose proof (nat_ascii_bounded c). lia.
Qed.

Lemma forall_chars (P : ascii -> bool) :
  forallb P all_chars = true -> forall c, P c = true.
Proof. rewrite forallb_forall. auto using all_chars_in. Qed.

Lemma forall_chars2 (P : ascii -> ascii -> bool) :
  forallb (fun a => forallb (P a) all_chars) all_chars = true ->
  forall a b, P a b = true.
Proof.
  intros H a. apply forall_chars.
  revert a. apply (forall_chars (fun a => forallb (P a) all_chars)), H.
Qed.

(** *** Lemmas on strings *)

Lemma string_app_nil_r s : s +:+ EmptyString = s.
Proof. induction s as [|c s IH]; [done|]. by rewrite <- IH at 2. Qed.

Lemma string_app_cons c s t : String c s +:+ t = String c (s +:+ t).
Proof. done. Qed.

Lemma string_app_assoc s t u : (s +:+ t) +:+ u = s +:+ t +:+ u.
Proof. induction s as [|c s IH]; [done|]. by rewrite !string_app_cons, IH. Qed.

Lemma string_length_app s t :
  String.length (s +:+ t) = (String.length s + String.length t)%nat.
Proof. induction s as [|c s IH]; [done|]. simpl. by rewrite <- IH. Qed.

Lemma string_forall_app P s t :
  string_forall P (s +:+ t) = string_forall P s && string_forall P t.
Proof. induction s as [|c s IH]; [done|]. simpl. by rewrite IH, andb_assoc. Qed.

Lemma cstr_nul_free s : nul_free s = true -> cstr s = s.
Proof.
  induction s as [|c s IH]; [done|]. unfold nul_free. simpl.
  destruct (Ascii.eqb c NUL); simpl; [done|]. intros. by rewrite IH.
Qed.

Lemma nul_free_cstr s : nul_free (cstr s) = true.
Proof.
  induction s as [|c s IH]; [done|]. simpl.
  destruct (Ascii.eqb c NUL) eqn:E; [done|]. unfold nul_free. simpl. by rewrite E.
Qed.

Lemma nul_free_cons c s :
  nul_free (String c s) = negb (Ascii.eqb c NUL) && nul_free s.
Proof. done. Qed.

Lemma streq_eq a b : streq a b = true <-> a = b.
Proof. apply String.eqb_eq. Qed.

Lemma streq_refl a : streq a a = true.
Proof. apply String.eqb_refl. Qed.

Lemma streq_comm a b : streq a b = streq b a.
Proof. apply String.eqb_sym. Qed.

Lemma string_take_all n s : (String.length s <= n)%nat -> string_take n s = s.
Proof.
  revert s. induction n as [|n IH]; intros [|c s] H; cbn in *; try done; try lia. by rewrite IH by lia.
Qed.

Lemma string_take_drop n s : (string_take n s +:+ string_drop n s)%string = s.
Proof. revert s. induction n as [|n IH]; intros [|c s]; cbn [string_take string_drop]; try done. by rewrite string_app_cons, IH. Qed.

Lemma string_drop_drop n m s : string_drop m (string_drop n s) = string_drop (n + m) s.
Proof. revert s. induction n as [|n IH]; intros [|c s]; cbn; try done. by destruct m. Qed.

Lemma string_length_drop n s : String.length (string_drop n s) = (String.length s - n)%nat.
Proof. revert s. induction n as [|n IH]; intros [|c s]; cbn; try done. Qed.

Lemma string_length_take n s : String.length (string_take n s) = Nat.min n (String.length s).
Proof. revert s. induction n as [|n IH]; intros [|c s]; cbn; try done. by rewrite IH. Qed.

Lemma string_drop_length s : string_drop (String.length s) s = EmptyString.
Proof. by induction s. Qed.

Lemma string_take_app s t : string_take (String.length s) (s +:+ t) = s.
Proof. induction s as [|c s IH]; [by destruct t|]. rewrite string_app_cons. simpl. by rewrite IH. Qed.

Lemma string_drop_app a b : string_drop (String.length a) (a +:+ b) = b.
Proof. by induction a. Qed.

Lemma starts_with_app a b : starts_with a (a +:+ b) = true.
Proof. induction a as [|c a IH]; [by destruct b|]. rewrite string_app_cons. cbn. by rewrite Ascii.eqb_refl. Qed.

Lemma strchr_app c a b :
  string_forall (fun d => negb (Ascii.eqb d c)) a = true ->
  strchr c (a +:+ String c b) = Some (a, b).
Proof.
  induction a as [|d a IH]; intros H.
  - simpl. by rewrite Ascii.eqb_refl.
  - rewrite string_app_cons. simpl in *. destruct (Ascii.eqb d c); [done|].
    by rewrite IH.
Qed.

Lemma strchr_inv c s a b :
  strchr c s = Some (a, b) ->
  s = a +:+ String c b /\ string_forall (fun d => negb (Ascii.eqb d c)) a = true.
Proof.
  revert a. induction s as [|d s IH]; intros a H; simpl in *; [done|].
  destruct (Ascii.eqb d c) eqn:E.
  - apply Ascii.eqb_eq in E as ->. injection H as <- <-. done.
  - destruct (strchr c s) as [[a' b']|]; [|done]. injection H as <- <-.
    destruct (IH a' eq_refl) as [-> ?]. simpl. by rewrite E.
Qed.

(** ** Automation

    [ice] holds the bounds and the trivial facts that close side conditions;
    its rewrite rules bring the length, the parts and the concatenation of
    strings to a normal form. *)

Create HintDb ice discriminated.
Create Rewrite HintDb ice.
#[export] Hint Resolve wrap_range swrap_range code_range streq_refl nul_free_cstr starts_with_app : ice.
#[export] Hint Rewrite string_length_app string_length_take string_length_drop string_take_app string_drop_app
  string_drop_length string_take_drop string_app_nil_r streq_refl : ice.

(** Lengths of strings, by arithmetic. *)
Ltac strlen_lia := unfold strlen in *; autorewrite with ice in *; lia.
