(* ===== verification/Uri.v ===== *)
(** URI and path handling of [util.c]: percent-encoding, the check of
    request paths against escapes from the web root, file name extensions
    and hexadecimal output. *)

From S2P Require Import Prelude.
Local Open Scope Z_scope.

(** ** Definitions *)

(** [hexchars]. *)
Definition hexchars : string := "0123456789abcdef".

Definition hexchar (n : Z) : ascii :=
  default NUL (String.get (Z.to_nat n) hexchars).

(** [safechars]: one entry per [unsigned char]. *)
Definition safechars : list Z :=
  [0;0;0;0;0;0;0;0;0;0;0;0;0;0;0;0;
   0;0;0;0;0;0;0;0;0;0;0;0;0;0;0;0;
   0;0;0;0;0;0;0;0;0;0;0;0;0;0;0;0;
   1;1;1;1;1;1;1;1;1;1;0;0;0;0;0;0;
   0;1;1;1;1;1;1;1;1;1;1;1;1;1;1;1;
   1;1;1;1;1;1;1;1;1;1;1;0;0;0;0;0;
   0;1;1;1;1;1;1;1;1;1;1;1;1;1;1;1;
   1;1;1;1;1;1;1;1;1;1;1;0;0;0;0;0;
   0;0;0;0;0;0;0;0;0;0;0;0;0;0;0;0;
   0;0;0;0;0;0;0;0;0;0;0;0;0;0;0;0;
   0;0;0;0;0;0;0;0;0;0;0;0;0;0;0;0;
   0;0;0;0;0;0;0;0;0;0;0;0;0;0;0;0;
   0;0;0;0;0;0;0;0;0;0;0;0;0;0;0;0;
   0;0;0;0;0;0;0;0;0;0;0;0;0;0;0;0;
   0;0;0;0;0;0;0;0;0;0;0;0;0;0;0;0;
   0;0;0;0;0;0;0;0;0;0;0;0;0;0;0;0].

Definition is_safechar (c : ascii) : bool :=
  negb (nth (Z.to_nat (code c)) safechars 0 =? 0).

(** [hex]: the value of a hexadecimal digit, -1 for any other character. *)
Definition hex (c : ascii) : Z :=
  if in_range "0" "9" c then code c - code "0"
  else if in_range "A" "F" c then code c - code "A" + 10
  else if in_range "a" "f" c then code c - code "a" + 10
  else -1.

Fixpoint url_escape_loop (source : string) : string :=
  match source with
  | EmptyString => EmptyString
  | String c r =>
      if is_safechar c then String c (url_escape_loop r)
      else String "%"
             (String (hexchar (Z.land (Z.shiftr (code c) 4) 15))
                (String (hexchar (Z.land (code c) 15)) (url_escape_loop r)))
  end.

(** A null pointer is [None]. *)
Definition util_url_escape (src : option string) : option string :=
  match src with
  | None => None
  | Some s => Some (url_escape_loop s)
  end.

(** The bytes the loop of [util_url_unescape] stores, [None] when it gives
    up. *)
Fixpoint url_unescape_loop (src : string) : option string :=
  match src with
  | EmptyString => Some EmptyString
  | String c r =>
      if Ascii.eqb c "%" then
        match r with
        | String h (String l r') =>
            if (hex h =? -1) || (hex l =? -1) then None
            else fmap (String (chr (hex h * 16 + hex l))) (url_unescape_loop r')
        | _ => None
        end
      else if Ascii.eqb c "#" then Some EmptyString
      else if Ascii.eqb c NUL then None
      else fmap (String c) (url_unescape_loop r)
  end.

(** The buffer is read as a C string, so an escaped zero byte ends it. *)
Definition util_url_unescape (src : string) : option string :=
  cstr <$> url_unescape_loop src.

Definition is_sep (c : ascii) : bool := Ascii.eqb c "/" || Ascii.eqb c "\".

Fixpoint verify_path_loop (dir indotseq : bool) (path : string) : bool :=
  match path with
  | EmptyString => true
  | String c r =>
      if is_sep c then
        if indotseq then false
        else if dir then false
        else verify_path_loop true indotseq r
      else
        let indotseq' :=
          if dir || indotseq then Ascii.eqb c "." else indotseq in
        verify_path_loop false indotseq' r
  end.

Definition verify_path (path : string) : bool :=
  verify_path_loop false false path.

(** The body for systems other than Windows. *)
Definition util_normalise_uri (uri : string) : option string :=
  match uri with
  | String c _ =>
      if negb (Ascii.eqb c "/") then None
      else match util_url_unescape uri with
           | None => None
           | Some path => if verify_path path then Some path else None
           end
  | EmptyString => None
  end.

Definition util_get_path_from_normalised_uri (webroot uri : string) : string :=
  webroot +:+ uri.

Definition util_get_path_from_uri (webroot uri : string) : option string :=
  match util_normalise_uri uri with
  | None => None
  | Some path => Some (util_get_path_from_normalised_uri webroot path)
  end.

Definition util_get_extension (path : string) : string :=
  match strrchr "." path with
  | None => EmptyString
  | Some ext => ext
  end.

Inductive content_kind := UNKNOWN_CONTENT | XSLT_CONTENT | HTML_CONTENT.

Definition util_check_valid_extension (uri : option string) : content_kind :=
  match uri with
  | None => UNKNOWN_CONTENT
  | Some u =>
      match strrchr "." u with
      | None => UNKNOWN_CONTENT
      | Some p2 =>
          if streq p2 "xsl" || streq p2 "xslt" then XSLT_CONTENT
          else if streq p2 "htm" || streq p2 "html" then HTML_CONTENT
          else UNKNOWN_CONTENT
      end
  end.

(** The [len] bytes of [data] are the string given. *)
Fixpoint util_bin_to_hex (data : string) : string :=
  match data with
  | EmptyString => EmptyString
  | String c r =>
      String (hexchar (Z.shiftr (Z.land (code c) 240) 4))
        (String (hexchar (Z.land (code c) 15)) (util_bin_to_hex r))
  end.

(** ** Reference definitions *)

(** The components of a path, cut at both kinds of separator. *)
Fixpoint components (path : string) : list string :=
  match path with
  | EmptyString => [EmptyString]
  | String c r =>
      if is_sep c then EmptyString :: components r
      else match components r with
           | x :: l => String c x :: l
           | [] => [String c EmptyString]
           end
  end.

Definition all_dots (s : string) : bool :=
  string_forall (fun c => Ascii.eqb c ".") s.

(** A component that may be followed by a separator. *)
Definition good_dir (s : string) : bool :=
  negb (streq s EmptyString) && negb (all_dots s).

(** Following the components from depth [d] below the web root: [None] once
    the walk leaves it. *)
Fixpoint walk (d : nat) (l : list string) : option nat :=
  match l with
  | [] => Some d
  | s :: r =>
      if streq s ".." then
        match d with O => None | S d' => walk d' r end
      else if streq s "." || streq s EmptyString then walk d r
      else walk (S d) r
  end.

(** Reading pairs of hexadecimal digits back. *)
Fixpoint of_hex (s : string) : option string :=
  match s with
  | EmptyString => Some EmptyString
  | String h (String l r) =>
      if (hex h =? -1) || (hex l =? -1) then None
      else fmap (String (chr (hex h * 16 + hex l))) (of_hex r)
  | _ => None
  end.

(** ** Percent-encoding *)

Lemma safechar_plain c :
  is_safechar c = true ->
  Ascii.eqb c "%" = false /\ Ascii.eqb c "#" = false /\ Ascii.eqb c NUL = false.
Proof. destruct c as [[] [] [] [] [] [] [] []]; vm_compute; auto. Qed.

(** The two digits written for a byte read back as the byte. *)
Lemma hexchar_pair c :
  (hex (hexchar (Z.land (Z.shiftr (code c) 4) 15)) =? -1) = false /\
  (hex (hexchar (Z.land (code c) 15)) =? -1) = false /\
  chr (hex (hexchar (Z.land (Z.shiftr (code c) 4) 15)) * 16 +
       hex (hexchar (Z.land (code c) 15))) = c.
Proof. destruct c as [[] [] [] [] [] [] [] []]; vm_compute; auto. Qed.

Lemma hexchar_pair' c :
  hexchar (Z.shiftr (Z.land (code c) 240) 4) =
  hexchar (Z.land (Z.shiftr (code c) 4) 15).
Proof. destruct c as [[] [] [] [] [] [] [] []]; reflexivity. Qed.

Definition escaped_char (c : ascii) : bool :=
  is_safechar c || Ascii.eqb c "%".

Lemma hexchar_escaped n : escaped_char (hexchar (Z.land n 15)) = true.
Proof.
  assert (0 <= Z.land n 15 < 16) as B.
  { change 15 with (Z.ones 4). rewrite Z.land_ones by lia.
    apply Z.mod_pos_bound. lia. }
  revert B. generalize (Z.land n 15) as m. intros m B.
  assert (Z.to_nat m < 16)%nat as B' by lia. unfold hexchar.
  revert B'. generalize (Z.to_nat m) as k. intros k B'.
  do 16 (destruct k as [|k]; [reflexivity|]). lia.
Qed.

Lemma url_unescape_escape_loop s :
  url_unescape_loop (url_escape_loop s) = Some s.
Proof.
  induction s as [|c s IH]; [done|]. simpl.
  destruct (is_safechar c) eqn:S; cbn [url_unescape_loop].
  - apply safechar_plain in S as (-> & -> & ->). by rewrite IH.
  - destruct (hexchar_pair c) as (E1 & E2 & E3).
    cbn [Ascii.eqb Bool.eqb]. by rewrite E1, E2, E3, IH.
Qed.

(** Escaping yields only unreserved characters and percent signs, within
    the [3 * len] bytes allocated for it, and unescaping it gives the text
    back. *)
Theorem url_escape_roundtrip s :
  nul_free s = true ->
  exists t, util_url_escape (Some s) = Some t /\
    util_url_unescape t = Some s /\
    string_forall escaped_char t = true /\
    strlen t <= 3 * strlen s.
Proof.
  intros Hs. eexists. split; [reflexivity|]. unfold util_url_unescape.
  rewrite url_unescape_escape_loop. simpl. rewrite cstr_nul_free by done.
  split; [done|]. clear Hs. unfold strlen.
  induction s as [|c s [IH1 IH2]]; [done|]. simpl.
  destruct (is_safechar c) eqn:S; cbn [string_forall String.length].
  - unfold escaped_char at 1. rewrite S. split; [done|lia].
  - rewrite !hexchar_escaped. simpl. split; [done|lia].
Qed.

Lemma url_escape_roundtrip_witness :
  nul_free "a b/%#" = true /\
  exists t, util_url_escape (Some "a b/%#") = Some t /\
    util_url_unescape t = Some "a b/%#" /\
    string_forall escaped_char t = true /\ strlen t <= 3 * strlen "a b/%#".
Proof. split; [reflexivity|]. apply (url_escape_roundtrip "a b/%#"). reflexivity. Defined.

Lemma of_hex_bin_to_hex s : of_hex (util_bin_to_hex s) = Some s.
Proof.
  induction s as [|c s IH]; [done|]. cbn [util_bin_to_hex of_hex].
  rewrite hexchar_pair'. destruct (hexchar_pair c) as (-> & -> & ->).
  by rewrite IH.
Qed.

(** ** The path check *)

Lemma components_cons path : exists x l, components path = x :: l.
Proof.
  destruct path as [|c r]; simpl; eauto. destruct (is_sep c); eauto.
  destruct (components r); eauto.
Qed.

Definition dirs_good (l : list string) : bool := forallb good_dir (removelast l).

Lemma good_dir_dot s : good_dir (String "." s) = negb (all_dots s).
Proof. done. Qed.

Lemma good_dir_other c s :
  Ascii.eqb c "." = false -> good_dir (String c s) = true.
Proof. intros E. unfold good_dir, all_dots. simpl. by rewrite E. Qed.

Lemma all_dots_cons c s : all_dots (String c s) = Ascii.eqb c "." && all_dots s.
Proof. done. Qed.

(** The three kinds of state the loop can be in: inside a component it has
    already accepted, at the start of a component, inside a component of
    dots only. *)
Lemma verify_path_loop_spec path :
  verify_path_loop false false path = dirs_good (tl (components path)) /\
  verify_path_loop true false path = dirs_good (components path) /\
  verify_path_loop false true path =
    match components path with
    | x :: (_ :: _) as l => negb (all_dots x) && dirs_good l
    | _ => true
    end.
Proof.
  induction path as [|c r (IH1 & IH2 & IH3)]; [done|].
  cbn [verify_path_loop components].
  destruct (components_cons r) as (x & l & E).
  destruct (is_sep c) eqn:S.
  - rewrite E in *. repeat split; auto.
  - cbn [orb]. rewrite E in *. cbn [tl] in *. rewrite IH1. split; [done|].
    destruct (Ascii.eqb c ".") eqn:D.
    + apply Ascii.eqb_eq in D as ->. rewrite IH3.
      destruct l as [|y l]; [done|]. rewrite all_dots_cons. split; [|done].
      unfold dirs_good. cbn [removelast forallb tail].
      by rewrite good_dir_dot.
    + rewrite IH1. destruct l as [|y l]; [done|].
      rewrite all_dots_cons, D. split; [|done].
      unfold dirs_good. cbn [removelast forallb tail].
      by rewrite good_dir_other.
Qed.

(** [verify_path] accepts exactly the paths in which every component between
    two separators is neither empty nor made of dots only. *)
Theorem verify_path_spec path :
  verify_path path = forallb good_dir (removelast (tl (components path))).
Proof. apply verify_path_loop_spec. Qed.

Lemma good_dir_step s :
  good_dir s = true ->
  streq s ".." = false /\ streq s "." || streq s EmptyString = false.
Proof.
  unfold good_dir, streq.
  destruct (String.eqb_spec s ".."), (String.eqb_spec s "."),
    (String.eqb_spec s EmptyString); subst; auto; discriminate.
Qed.

Lemma walk_good_app l m d :
  forallb good_dir l = true -> walk d (l ++ m) = walk (d + length l) m.
Proof.
  revert d. induction l as [|s l IH]; intros d H; simpl in *.
  { f_equal. lia. }
  apply andb_prop in H as [(-> & ->)%good_dir_step H2].
  rewrite IH by done. f_equal. lia.
Qed.

Lemma walk_last d z : z <> ".." -> exists d', walk d [z] = Some d'.
Proof.
  intros L. simpl. unfold streq at 1. destruct (String.eqb_spec z ".."); [done|].
  destruct (_ || _); eauto.
Qed.

Lemma cstr_cons c s : Ascii.eqb c NUL = false -> cstr (String c s) = String c (cstr s).
Proof. intros E. simpl. by rewrite E. Qed.

Lemma normalise_uri_inv uri p :
  util_normalise_uri uri = Some p ->
  exists r, p = String "/" r /\ nul_free p = true /\ verify_path p = true.
Proof.
  unfold util_normalise_uri. destruct uri as [|c r]; [done|].
  destruct (Ascii.eqb c "/") eqn:E; [|done]. apply Ascii.eqb_eq in E as ->.
  unfold util_url_unescape. cbn.
  destruct (url_unescape_loop r) as [t|]; cbn; [|done].
  destruct (verify_path_loop _ _ _) eqn:V; [|done]. intros [= <-].
  exists (cstr t). split; [done|]. split; [|done].
  unfold nul_free. simpl. apply nul_free_cstr.
Qed.

(** C1: A request path that is accepted starts with a slash, holds no zero byte,
    and names a directory below the web root at every point of the walk
    except possibly its last component: every directory component steps one
    level down. *)
Theorem normalise_uri_confined uri p :
  util_normalise_uri uri = Some p ->
  exists dirs last,
    components p = EmptyString :: dirs ++ [last] /\
    nul_free p = true /\
    walk 0 dirs = Some (length dirs) /\
    (last <> ".." -> exists d, walk 0 (components p) = Some d).
Proof.
  intros (r & -> & N & V)%normalise_uri_inv.
  rewrite verify_path_spec in V. cbn [components is_sep] in *.
  change (is_sep "/") with true in *. cbn [tl] in V.
  destruct (components_cons r) as (x & l & E).
  assert (components r <> []) as NE by (rewrite E; done).
  exists (removelast (components r)), (List.last (components r) EmptyString).
  rewrite <- app_removelast_last by done. split; [done|]. split; [done|].
  split.
  - rewrite <- (app_nil_r (removelast _)), walk_good_app by done.
    by rewrite app_nil_r.
  - intros L. simpl. rewrite (app_removelast_last EmptyString NE).
    rewrite walk_good_app by done. by apply walk_last.
Qed.

Lemma normalise_uri_confined_witness :
  util_normalise_uri "/a%2Fb/c.ogg" = Some "/a/b/c.ogg" /\
  exists dirs last,
    components "/a/b/c.ogg" = EmptyString :: dirs ++ [last] /\
    nul_free "/a/b/c.ogg" = true /\
    walk 0 dirs = Some (length dirs) /\
    (last <> ".." -> exists d, walk 0 (components "/a/b/c.ogg") = Some d).
Proof.
  split; [reflexivity|]. apply (normalise_uri_confined "/a%2Fb/c.ogg"). reflexivity.
Defined.

(** The last component is not looked at: a path whose last component is the
    parent directory is accepted. *)
Example normalise_uri_trailing_parent : util_normalise_uri "/.." = Some "/..".
Proof. reflexivity. Qed.
