(* ===== verification/Base64.v ===== *)
(** The base64 routines of [util.c], which carry the credentials of basic
    authentication. *)

From S2P Require Import Prelude.
Local Open Scope Z_scope.

(** ** Definitions *)

Definition base64table : string :=
  "ABCDEFGHIJKLMNOPQRSTUVWXYZabcdefghijklmnopqrstuvwxyz0123456789+/".

Definition base64char (n : Z) : ascii :=
  default NUL (String.get (Z.to_nat n) base64table).

(** [base64decode]: one entry per [unsigned char]. *)
Definition base64decode_table : list Z :=
  [-2;-2;-2;-2;-2;-2;-2;-2;-2;-2;-2;-2;-2;-2;-2;-2;
   -2;-2;-2;-2;-2;-2;-2;-2;-2;-2;-2;-2;-2;-2;-2;-2;
   -2;-2;-2;-2;-2;-2;-2;-2;-2;-2;-2;62;-2;-2;-2;63;
   52;53;54;55;56;57;58;59;60;61;-2;-2;-2;-1;-2;-2;
   -2; 0; 1; 2; 3; 4; 5; 6; 7; 8; 9;10;11;12;13;14;
   15;16;17;18;19;20;21;22;23;24;25;-2;-2;-2;-2;-2;
   -2;26;27;28;29;30;31;32;33;34;35;36;37;38;39;40;
   41;42;43;44;45;46;47;48;49;50;51;-2;-2;-2;-2;-2;
   -2;-2;-2;-2;-2;-2;-2;-2;-2;-2;-2;-2;-2;-2;-2;-2;
   -2;-2;-2;-2;-2;-2;-2;-2;-2;-2;-2;-2;-2;-2;-2;-2;
   -2;-2;-2;-2;-2;-2;-2;-2;-2;-2;-2;-2;-2;-2;-2;-2;
   -2;-2;-2;-2;-2;-2;-2;-2;-2;-2;-2;-2;-2;-2;-2;-2;
   -2;-2;-2;-2;-2;-2;-2;-2;-2;-2;-2;-2;-2;-2;-2;-2;
   -2;-2;-2;-2;-2;-2;-2;-2;-2;-2;-2;-2;-2;-2;-2;-2;
   -2;-2;-2;-2;-2;-2;-2;-2;-2;-2;-2;-2;-2;-2;-2;-2;
   -2;-2;-2;-2;-2;-2;-2;-2;-2;-2;-2;-2;-2;-2;-2;-2].

Definition base64decode (c : ascii) : Z :=
  nth (Z.to_nat (code c)) base64decode_table (-2).

(** The four six-bit groups of three bytes. *)
Definition sextet1 (a : ascii) : Z := Z.shiftr (Z.land (code a) 252) 2.
Definition sextet2 (a b : ascii) : Z :=
  Z.lor (Z.shiftl (Z.land (code a) 3) 4) (Z.shiftr (Z.land (code b) 240) 4).
Definition sextet3 (b c : ascii) : Z :=
  Z.lor (Z.shiftl (Z.land (code b) 15) 2) (Z.shiftr (Z.land (code c) 192) 6).
Definition sextet4 (c : ascii) : Z := Z.land (code c) 63.

(** [buf] is the memory [data] points to, at least [len] bytes of it.  A last
    chunk of one byte reads the byte that follows the data as well; the result
    is [None] when a read leaves [buf]. *)
Fixpoint util_base64_encode (buf : string) (len : nat) {struct len} : option string :=
  match len with
  | O => Some EmptyString
  | S O =>
      match buf with
      | String a (String b _) =>
          Some (String (base64char (sextet1 a))
                  (String (base64char (sextet2 a b)) "=="))
      | _ => None
      end
  | S (S O) =>
      match buf with
      | String a (String b _) =>
          Some (String (base64char (sextet1 a))
                  (String (base64char (sextet2 a b))
                     (String (base64char (Z.shiftl (Z.land (code b) 15) 2)) "=")))
      | _ => None
      end
  | S (S (S len')) =>
      match buf with
      | String a (String b (String c r)) =>
          match util_base64_encode r len' with
          | Some t =>
              Some (String (base64char (sextet1 a))
                      (String (base64char (sextet2 a b))
                         (String (base64char (sextet3 b c))
                            (String (base64char (sextet4 c)) t))))
          | None => None
          end
      | _ => None
      end
  end.

(** The bytes stored in the output buffer; [None] for the null pointer. *)
Fixpoint util_base64_decode (data : string) : option string :=
  match data with
  | EmptyString => Some EmptyString
  | String a (String b (String c (String d r))) =>
      let v0 := base64decode a in
      let v1 := base64decode b in
      let v2 := base64decode c in
      let v3 := base64decode d in
      if (v0 <? 0) || (v1 <? 0) || (v2 <? -1) || (v3 <? -1) then
        util_base64_decode r
      else
        match util_base64_decode r with
        | Some t =>
            Some (String (chr (Z.lor (Z.shiftl v0 2) (Z.shiftr v1 4)))
                    (String (if v2 >=? 0
                             then chr (Z.lor (Z.shiftl (Z.land v1 15) 4) (Z.shiftr v2 2))
                             else chr 0)
                       (String (if v3 >=? 0
                                then chr (Z.lor (Z.shiftl (Z.land v2 3) 6) v3)
                                else chr 0) t)))
        | None => None
        end
  | _ => None
  end.

(** ** Round trip *)

Lemma base64_table_inv n : 0 <= n < 64 -> base64decode (base64char n) = n.
Proof.
  intros B. rewrite <- (Z2Nat.id n) by lia.
  assert (Z.to_nat n < 64)%nat as B' by lia. revert B'.
  generalize (Z.to_nat n) as k. clear. intros k B.
  do 64 (destruct k as [|k]; [reflexivity|]). lia.
Qed.

(** The sextets of any bytes are table indices, and the byte expressions of
    the decoder invert them. *)
Definition in_table (n : Z) : bool := (0 <=? n) && (n <? 64).

Definition sextets12_ok (a b : ascii) : bool :=
  in_table (sextet1 a) && in_table (sextet2 a b) &&
  Ascii.eqb (chr (Z.lor (Z.shiftl (sextet1 a) 2) (Z.shiftr (sextet2 a b) 4))) a.

Definition sextets34_ok (b c : ascii) : bool :=
  in_table (sextet3 b c) && in_table (sextet4 c) &&
  Ascii.eqb (chr (Z.lor (Z.shiftl (Z.land (sextet3 b c) 3) 6) (sextet4 c))) c &&
  (Z.shiftr (sextet3 b c) 2 =? Z.land (code b) 15) &&
  (sextet3 b NUL =? Z.shiftl (Z.land (code b) 15) 2).

Definition sextets2_ok (a b : ascii) : bool :=
  Ascii.eqb (chr (Z.lor (Z.shiftl (Z.land (sextet2 a b) 15) 4) (Z.land (code b) 15))) b.

Lemma sextets12 a b : sextets12_ok a b = true.
Proof. apply (forall_chars2 sextets12_ok). vm_compute. reflexivity. Qed.

Lemma sextets34 b c : sextets34_ok b c = true.
Proof. apply (forall_chars2 sextets34_ok). vm_compute. reflexivity. Qed.

Lemma sextets2 a b : sextets2_ok a b = true.
Proof. apply (forall_chars2 sextets2_ok). vm_compute. reflexivity. Qed.

Lemma base64_table_char n : in_table n = true -> base64decode (base64char n) = n.
Proof. unfold in_table. intros. apply base64_table_inv. lia. Qed.

Lemma in_table_range n : in_table n = true -> 0 <= n < 64.
Proof. unfold in_table. lia. Qed.

(** One group of the decoder, on the characters of four table indices. *)
Lemma decode_group a b c d r t :
  in_table a = true -> in_table b = true -> in_table c = true -> in_table d = true ->
  util_base64_decode r = Some t ->
  util_base64_decode
    (String (base64char a) (String (base64char b)
       (String (base64char c) (String (base64char d) r)))) =
  Some (String (chr (Z.lor (Z.shiftl a 2) (Z.shiftr b 4)))
          (String (chr (Z.lor (Z.shiftl (Z.land b 15) 4) (Z.shiftr c 2)))
             (String (chr (Z.lor (Z.shiftl (Z.land c 3) 6) d)) t))).
Proof.
  intros A B C D R. cbn [util_base64_decode].
  rewrite !base64_table_char by done. rewrite R.
  apply in_table_range in A, B, C, D.
  repeat (case_match; try lia). done.
Qed.

(** The last group of the decoder, with one and with two pad characters. *)
Lemma decode_group_pad1 a b c :
  in_table a = true -> in_table b = true -> in_table c = true ->
  util_base64_decode
    (String (base64char a) (String (base64char b) (String (base64char c) "="))) =
  Some (String (chr (Z.lor (Z.shiftl a 2) (Z.shiftr b 4)))
          (String (chr (Z.lor (Z.shiftl (Z.land b 15) 4) (Z.shiftr c 2)))
             (String NUL EmptyString))).
Proof.
  intros A B C. cbn [util_base64_decode].
  rewrite !base64_table_char by done. change (base64decode "=") with (-1).
  apply in_table_range in A, B, C.
  repeat (case_match; try lia). done.
Qed.

Lemma decode_group_pad2 a b :
  in_table a = true -> in_table b = true ->
  util_base64_decode (String (base64char a) (String (base64char b) "==")) =
  Some (String (chr (Z.lor (Z.shiftl a 2) (Z.shiftr b 4)))
          (String NUL (String NUL EmptyString))).
Proof.
  intros A B. cbn [util_base64_decode].
  rewrite !base64_table_char by done. change (base64decode "=") with (-1).
  apply in_table_range in A, B.
  repeat (case_match; try lia). done.
Qed.

Ltac sextet_facts a b c :=
  pose proof (sextets12 a b); pose proof (sextets2 a b);
  pose proof (sextets34 b c);
  unfold sextets12_ok, sextets2_ok, sextets34_ok in *;
  repeat match goal with
    | H : _ && _ = true |- _ => apply andb_prop in H as [? ?]
    | H : Ascii.eqb _ _ = true |- _ => apply Ascii.eqb_eq in H
    | H : Z.eqb _ _ = true |- _ => apply Z.eqb_eq in H
    end.

(** What the two routines guarantee for [n] bytes of a buffer [buf]: the
    encoder's text [t] and the decoder's bytes [u]. *)
Definition codec_ok (buf : string) (n : nat) (t u : string) : Prop :=
  util_base64_encode buf n = Some t /\
  util_base64_decode t = Some u /\
  (exists z, u = string_take n buf +:+ z /\
     string_forall (fun c => Ascii.eqb c NUL) z = true) /\
  strlen t = 4 * ((Z.of_nat n + 2) / 3) /\
  strlen u = 3 * ((Z.of_nat n + 2) / 3).

Lemma codec_ok_step a b c r n t u :
  codec_ok r n t u -> exists t' u', codec_ok (String a (String b (String c r))) (3 + n) t' u'.
Proof.
  intros (E & D & (z & -> & Z) & L1 & L2). sextet_facts a b c.
  eexists _, _. split; [|split; [|split; [|split]]].
  - simpl. rewrite E. reflexivity.
  - apply decode_group; eauto.
  - eexists. split; [|exact Z]. simpl.
    change (Pos.to_nat _) with 3%nat. rewrite !string_app_cons.
    f_equal; [congruence|]. f_equal; [|by f_equal; congruence].
    congruence.
  - unfold strlen in *. cbn [String.length].
    replace (Z.of_nat (3 + n) + 2) with (1 * 3 + (Z.of_nat n + 2)) by lia.
    rewrite Z.div_add_l by lia. lia.
  - unfold strlen in *. cbn [String.length].
    replace (Z.of_nat (3 + n) + 2) with (1 * 3 + (Z.of_nat n + 2)) by lia.
    rewrite Z.div_add_l by lia. lia.
Qed.

Lemma codec_ok_all n buf :
  (n < String.length buf)%nat -> exists t u, codec_ok buf n t u.
Proof.
  revert buf. induction n as [n IH] using lt_wf_ind. intros buf H.
  destruct n as [|[|[|n]]].
  - exists EmptyString, EmptyString. split; [done|]. split; [done|].
    split; [by exists EmptyString|done].
  - destruct buf as [|a [|b r]]; simpl in H; try lia. sextet_facts a b NUL.
    eexists _, _. split; [reflexivity|]. split; [by apply decode_group_pad2|].
    split; [|done]. exists (String NUL (String NUL EmptyString)).
    split; [|done]. simpl. rewrite string_app_cons. f_equal. congruence.
  - destruct buf as [|a [|b r]]; simpl in H; try lia. sextet_facts a b NUL.
    eexists _, _. split; [reflexivity|].
    assert (sextet3 b NUL = Z.shiftl (Z.land (code b) 15) 2) as E by done.
    rewrite <- E. split; [by apply decode_group_pad1|].
    split; [|done]. exists (String NUL EmptyString).
    split; [|done]. simpl. rewrite !string_app_cons.
    f_equal; [congruence|]. f_equal. congruence.
  - destruct buf as [|a [|b [|c r]]]; simpl in H; try lia.
    destruct (IH n ltac:(lia) r ltac:(lia)) as (t & u & C).
    by apply codec_ok_step with (1 := C).
Qed.

Lemma cstr_app_nuls s z :
  nul_free s = true -> string_forall (fun c => Ascii.eqb c NUL) z = true ->
  cstr (s +:+ z) = s.
Proof.
  intros S Z. induction s as [|c s IH].
  - destruct z as [|c z]; [done|]. simpl in *. by destruct (Ascii.eqb c NUL).
  - rewrite nul_free_cons in S. apply andb_prop in S as [S1 S2].
    rewrite string_app_cons. simpl. apply negb_true_iff in S1. rewrite S1.
    by rewrite IH.
Qed.

(** Encoding the characters of a C string and decoding the result gives a
    buffer that reads back as the string, and neither routine writes more
    bytes, its terminator included, than it has allocated. *)
Theorem base64_roundtrip s :
  nul_free s = true ->
  let len := String.length s in
  exists t u,
    util_base64_encode (s +:+ String NUL EmptyString) len = Some t /\
    util_base64_decode t = Some u /\
    cstr u = s /\
    strlen t + 1 <= strlen s * 4 / 3 + 4 /\
    strlen u + 1 <= strlen t * 3 / 4 + 5.
Proof.
  intros S len.
  destruct (codec_ok_all len (s +:+ String NUL EmptyString)) as (t & u & E & D & (z & -> & Z) & L1 & L2).
  { rewrite string_length_app. simpl. lia. }
  exists t, (s +:+ z). split; [done|]. unfold len in *. rewrite string_take_app in *.
  split; [done|]. split; [by apply cstr_app_nuls|]. rewrite L1, L2.
  fold (strlen s). generalize (strlen s) as n. intros n.
  Z.to_euclidean_division_equations. lia.
Qed.

Lemma base64_roundtrip_witness :
  nul_free "source:hackme" = true /\
  exists t u,
    util_base64_encode ("source:hackme" +:+ String NUL EmptyString) 13 = Some t /\
    util_base64_decode t = Some u /\ cstr u = "source:hackme" /\
    strlen t + 1 <= strlen "source:hackme" * 4 / 3 + 4 /\
    strlen u + 1 <= strlen t * 3 / 4 + 5.
Proof. split; [reflexivity|]. apply (base64_roundtrip "source:hackme"). reflexivity. Defined.
