(* ===== verification/HttpCn.v ===== *)
(** Content negotiation of [util.c]: the tokenizer and parser of header
    values of the form [type;key=value, type;key=value], and the choice of
    the best of several content types for an [Accept] header. *)

From S2P Require Import Prelude.

(** ** The tokenizer *)

(** [__skip_space]. *)
Definition skip_space (p : string) : string :=
  snd (strspn (fun c => Ascii.eqb c " ") p).

(** [__is_token]. *)
Definition is_token (p : ascii) : bool :=
  in_range "a" "z" p || in_range "A" "Z" p || in_range "0" "9" p ||
  Ascii.eqb p "!" || Ascii.eqb p "#" || Ascii.eqb p "$" || Ascii.eqb p "%" ||
  Ascii.eqb p "&" || Ascii.eqb p "'" || Ascii.eqb p "*" || Ascii.eqb p "+" ||
  Ascii.eqb p "-" || Ascii.eqb p "." || Ascii.eqb p "^" || Ascii.eqb p "_" ||
  Ascii.eqb p "|" || Ascii.eqb p "~" || Ascii.eqb p "/".

(** [enum __tokenizer_result]. *)
Inductive tokenizer_result :=
| TOKENIZER_RESULT_COMMA
| TOKENIZER_RESULT_EQ
| TOKENIZER_RESULT_SEMICOLON
| TOKENIZER_RESULT_ILSEQ
| TOKENIZER_RESULT_EOS.

Definition tokenizer_res_from_char (p : ascii) : tokenizer_result :=
  if Ascii.eqb p NUL then TOKENIZER_RESULT_EOS
  else if Ascii.eqb p "," then TOKENIZER_RESULT_COMMA
  else if Ascii.eqb p "=" then TOKENIZER_RESULT_EQ
  else if Ascii.eqb p ";" then TOKENIZER_RESULT_SEMICOLON
  else TOKENIZER_RESULT_ILSEQ.

(** What a call leaves behind: the result, [*out], [*in], and whether the
    call read beyond the terminator of its input. *)
Record token := Token {
  tk_res : tokenizer_result;
  tk_out : option string;
  tk_in : string;
  tk_overread : bool
}.

(** The characters [__tokenizer_str] copies; [c] is a signed [char], so the
    test for the range 0x80 to 0xFF never holds. *)
Definition qdtext (c : ascii) : bool :=
  let v := scode c in
  ((v =? 9) || (v =? 32) || (v =? 33) || ((35 <=? v) && (v <=? 91)) ||
   ((93 <=? v) && (v <=? 126)) || ((128 <=? v) && (v <=? 255)))%Z.

(** The loop of [__tokenizer_str]: the text unquoted in place and what
    follows the closing quote. *)
Fixpoint quoted_loop (p : string) : option (string * string) :=
  match p with
  | EmptyString => None
  | String c r =>
      if qdtext c then
        match quoted_loop r with Some (t, u) => Some (String c t, u) | None => None end
      else if Ascii.eqb c "\" then
        match r with
        | EmptyString => None
        | String d r' =>
            match quoted_loop r' with Some (t, u) => Some (String d t, u) | None => None end
        end
      else if Ascii.eqb c "034" then Some (EmptyString, r)
      else None
  end.

(** The unquoted text stays in the buffer: [*out] is not assigned. *)
Definition tokenizer_str (p : string) : token :=
  match skip_space p with
  | String q r =>
      if negb (Ascii.eqb q "034") then Token TOKENIZER_RESULT_ILSEQ None p false
      else match quoted_loop r with
           | None => Token TOKENIZER_RESULT_ILSEQ None p false
           | Some (_, EmptyString) => Token TOKENIZER_RESULT_EOS None EmptyString true
           | Some (_, String c u) =>
               Token (tokenizer_res_from_char c) None (skip_space u) false
           end
  | EmptyString => Token TOKENIZER_RESULT_ILSEQ None p false
  end.

Definition tokenizer (input : string) : token :=
  let p := skip_space input in
  match p with
  | EmptyString => Token TOKENIZER_RESULT_EOS None p false
  | String c _ =>
      if Ascii.eqb c "=" || Ascii.eqb c "," || Ascii.eqb c ";" then
        Token TOKENIZER_RESULT_ILSEQ None p false
      else if Ascii.eqb c "034" then tokenizer_str p
      else
        let '(out, q) := strspn is_token p in
        match skip_space q with
        | EmptyString => Token TOKENIZER_RESULT_EOS (Some out) EmptyString false
        | String d r => Token (tokenizer_res_from_char d) (Some out) r false
        end
  end.

(** ** The parser *)

(** [icecast_kv_t]. *)
Definition kv_pair : Type := option string * option string.
Definition kv_blank : kv_pair := (None, None).

(** [icecast_kva_t]: the arrays with their allocated lengths. *)
Record kva := Kva {
  kvlen : nat;
  indexlen : nat;
  index : list nat;
  kv : list kv_pair
}.

Definition HTTP_CN_INDEX_INCREMENT : nat := 8.
Definition HTTP_CN_KV_INCREMENT : nat := 8.

(** [__resize_array]: room for the element after the first [revlen]. *)
Definition resize_array {A} (zero : A) (array : list A) (revlen inc : nat) : list A :=
  if revlen <? length array then array else array ++ repeat zero inc.

Inductive cn_result :=
| CnOk (k : kva)
| CnNull
| CnOutOfBounds
| CnOutOfFuel.

(** The slot [kv[kvlen - 1]] after the token has been stored in it; [None]
    when key and value are both taken. *)
Definition kv_store (e : kv_pair) (out : option string) : option kv_pair :=
  match e with
  | (None, v) => Some (out, v)
  | (Some k, None) => Some (Some k, out)
  | (Some _, Some _) => None
  end.

Fixpoint parse_http_cn_loop (fuel : nat) (input : string) (ret : kva) : cn_result :=
  match fuel with
  | O => CnOutOfFuel
  | S fuel' =>
      let t := tokenizer input in
      match tk_res t with
      | TOKENIZER_RESULT_ILSEQ => CnNull
      | res =>
          let kvs := resize_array kv_blank (kv ret) (kvlen ret) HTTP_CN_KV_INCREMENT in
          let idx := resize_array 0 (index ret) (indexlen ret) HTTP_CN_INDEX_INCREMENT in
          match kvs !! (kvlen ret - 1) with
          | None => CnOutOfBounds
          | Some e =>
              match kv_store e (tk_out t) with
              | None => CnNull
              | Some e' =>
                  let kvs' := <[kvlen ret - 1 := e']> kvs in
                  match res with
                  | TOKENIZER_RESULT_EOS => CnOk (Kva (kvlen ret) (indexlen ret) idx kvs')
                  | TOKENIZER_RESULT_COMMA =>
                      match idx !! indexlen ret with
                      | None => CnOutOfBounds
                      | Some _ =>
                          parse_http_cn_loop fuel' (tk_in t)
                            (Kva (S (kvlen ret)) (S (indexlen ret))
                               (<[indexlen ret := kvlen ret]> idx) kvs')
                      end
                  | TOKENIZER_RESULT_EQ =>
                      parse_http_cn_loop fuel' (tk_in t)
                        (Kva (kvlen ret) (indexlen ret) idx kvs')
                  | TOKENIZER_RESULT_SEMICOLON =>
                      parse_http_cn_loop fuel' (tk_in t)
                        (Kva (S (kvlen ret)) (indexlen ret) idx kvs')
                  | TOKENIZER_RESULT_ILSEQ => CnNull
                  end
              end
          end
      end
  end.

Definition kva_initial : kva :=
  Kva 1 1 (repeat 0 HTTP_CN_INDEX_INCREMENT) (repeat kv_blank HTTP_CN_KV_INCREMENT).

(** A null pointer is [None]. *)
Definition util_parse_http_cn (cnstr : option string) : cn_result :=
  match cnstr with
  | None | Some EmptyString => CnNull
  | Some s => parse_http_cn_loop (S (String.length s)) s kva_initial
  end.

(** ** The choice *)

(** [__parse_q]: thousandths, -1 for malformed text. *)
Fixpoint parse_q_loop (ret mul : Z) (str : string) : Z :=
  match str with
  | EmptyString => ret
  | String c r =>
      if is_digit c then parse_q_loop (ret + mul * (code c - 48)) (mul / 10) r
      else if Ascii.eqb c "." then parse_q_loop ret 100 r
      else (-1)%Z
  end.

Definition parse_q (str : string) : Z := parse_q_loop 0 1000 str.

(** [None] is the crash of reading through a null pointer. *)
Fixpoint find_q_from (l : list kv_pair) : option Z :=
  match l with
  | [] => Some 1000%Z
  | (Some k, v) :: r =>
      if strcaseeq k "q" then
        match v with Some s => Some (parse_q s) | None => None end
      else find_q_from r
  | (None, _) :: r => find_q_from r
  end.

Definition find_q_in_index (k : kva) (idx : nat) : option Z :=
  let i := nth idx (index k) 0 + 1 in
  let last :=
    if indexlen k <=? idx + 1 then kvlen k - 1 else nth (idx + 1) (index k) 0 - 1 in
  find_q_from (take (last + 1 - i) (drop i (kv k))).

(** [struct __args]. *)
Record arg := Arg {
  a_comp : string;
  a_group : string;
  best_comp : Z;
  best_group : Z
}.

(** [__fill_arg]. *)
Definition fill_arg (str : string) : arg :=
  Arg str
    (match strchr "/" str with Some (t, _) => t +:+ "/*" | None => str end) 0 0.

(** One entry of the header against one argument. *)
Definition match_entry (p : string) (q : Z) (a : arg) : arg :=
  let a :=
    if strcaseeq p (a_comp a) && (best_comp a <? q)%Z
    then Arg (a_comp a) (a_group a) q (best_group a) else a in
  if strcaseeq p (a_group a) && (best_group a <? q)%Z
  then Arg (a_comp a) (a_group a) (best_comp a) q else a.

(** The inner loop over the entries [i ..], for one argument. *)
Fixpoint match_entries (k : kva) (l : list nat) (best_q : Z) (a : arg) : option (Z * arg) :=
  match l with
  | [] => Some (best_q, a)
  | i :: r =>
      match fst (nth (nth i (index k) 0) (kv k) kv_blank) with
      | None => match_entries k r best_q a
      | Some p =>
          match find_q_in_index k i with
          | None => None
          | Some q => match_entries k r (Z.max best_q q) (match_entry p q a)
          end
      end
  end.

Fixpoint match_args (k : kva) (best_q : Z) (args : list arg) : option (Z * list arg) :=
  match args with
  | [] => Some (best_q, [])
  | a :: r =>
      match match_entries k (seq 0 (indexlen k)) best_q a with
      | None => None
      | Some (bq, a') =>
          match match_args k bq r with
          | None => None
          | Some (bq', r') => Some (bq', a' :: r')
          end
      end
  end.

Definition SELECT_BEST_MAX_ARGS : nat := 8.

Definition find_arg (P : arg -> bool) (args : list arg) : option string :=
  match List.find P args with Some a => Some (a_comp a) | None => None end.

(** [None] is the crash; running out of the parser's fuel is shown not to
    happen. *)
Definition util_http_select_best (input : option string) (first : string)
    (others : list string) : option string :=
  let args := map fill_arg (take SELECT_BEST_MAX_ARGS (first :: others)) in
  match util_parse_http_cn input with
  | CnNull => Some first
  | CnOutOfBounds | CnOutOfFuel => None
  | CnOk k =>
      match match_args k 0 args with
      | None => None
      | Some (best_q, args') =>
          match find_arg (fun a => best_comp a =? best_q)%Z args' with
          | Some p => Some p
          | None =>
              match find_arg (fun a => best_group a =? best_q)%Z args' with
              | Some p => Some p
              | None => Some first
              end
          end
      end
  end.

(** ** Termination and bounds of the parser *)

Lemma strspn_length P s :
  (String.length (snd (strspn P s)) <= String.length s)%nat.
Proof.
  induction s as [|c s IH]; [done|]. simpl. destruct (P c); [|simpl; lia].
  destruct (strspn P s) as [a b]. simpl in *. lia.
Qed.

Lemma quoted_loop_length p t r :
  quoted_loop p = Some (t, r) -> (String.length r < String.length p)%nat.
Proof.
  revert t r. induction p as [p IH] using (induction_ltof1 _ String.length).
  intros t r. destruct p as [|c p]; [done|]. cbn [quoted_loop].
  destruct (qdtext c).
  - destruct (quoted_loop p) as [[t' u]|] eqn:E; [|done]. intros [= <- <-].
    apply IH in E; [simpl; lia|unfold ltof; simpl; lia].
  - destruct (Ascii.eqb c "\").
    + destruct p as [|d p]; [done|].
      destruct (quoted_loop p) as [[t' u]|] eqn:E; [|done]. intros [= <- <-].
      apply IH in E; [simpl; lia|unfold ltof; simpl; lia].
    + destruct (Ascii.eqb c "034"); [|done]. intros [= <- <-]. simpl. lia.
Qed.

Definition ends (r : tokenizer_result) : bool :=
  match r with TOKENIZER_RESULT_ILSEQ | TOKENIZER_RESULT_EOS => true | _ => false end.

Lemma skip_space_length s :
  (String.length (skip_space s) <= String.length s)%nat.
Proof. apply strspn_length. Qed.

(** Unless it ends the parse, a token uses up some of the input. *)
Lemma tokenizer_progress s :
  ends (tk_res (tokenizer s)) = false ->
  (String.length (tk_in (tokenizer s)) < String.length s)%nat.
Proof.
  unfold tokenizer. pose proof (skip_space_length s) as L0.
  destruct (skip_space s) as [|c p] eqn:E; [done|].
  destruct (_ || _); [done|]. destruct (Ascii.eqb c "034").
  - unfold tokenizer_str. pose proof (skip_space_length (String c p)) as L1.
    destruct (skip_space (String c p)) as [|q r]; [done|].
    destruct (negb _); [done|].
    destruct (quoted_loop r) as [[t [|d u]]|] eqn:Q; [done| |done].
    apply quoted_loop_length in Q. pose proof (skip_space_length u). simpl in *. lia.
  - pose proof (strspn_length is_token (String c p)) as L1.
    destruct (strspn is_token (String c p)) as [out q]. simpl in L1.
    pose proof (skip_space_length q).
    destruct (skip_space q) as [|d r]; [done|]. simpl in *. lia.
Qed.

(** *** The parser without its arrays *)

(** Pairs completed, the pair being filled, and the start of each entry. *)
Fixpoint parse_abs (fuel : nat) (input : string) (done : list kv_pair) (cur : kv_pair)
    (idxs : list nat) : option (list kv_pair * list nat) :=
  match fuel with
  | O => None
  | S fuel' =>
      let t := tokenizer input in
      match tk_res t, kv_store cur (tk_out t) with
      | TOKENIZER_RESULT_ILSEQ, _ | _, None => None
      | TOKENIZER_RESULT_EOS, Some e => Some (done ++ [e], idxs)
      | TOKENIZER_RESULT_COMMA, Some e =>
          parse_abs fuel' (tk_in t) (done ++ [e]) kv_blank (idxs ++ [S (length done)])
      | TOKENIZER_RESULT_EQ, Some e => parse_abs fuel' (tk_in t) done e idxs
      | TOKENIZER_RESULT_SEMICOLON, Some e =>
          parse_abs fuel' (tk_in t) (done ++ [e]) kv_blank idxs
      end
  end.

(** The arrays hold the abstract lists, followed by unused zeroed slots. *)
Definition kva_rep (k : kva) (kvs : list kv_pair) (idxs : list nat) : Prop :=
  kvlen k = length kvs /\ indexlen k = length idxs /\
  (exists m, kv k = kvs ++ repeat kv_blank m) /\
  (exists m, index k = idxs ++ repeat 0 m).

Lemma resize_array_room {A} (z : A) (l : list A) m inc :
  0 < inc ->
  exists m', resize_array z (l ++ repeat z m) (length l) inc = l ++ repeat z (S m').
Proof.
  intros Hi. unfold resize_array. rewrite length_app, repeat_length.
  destruct (length l <? length l + m) eqn:E.
  - apply Nat.ltb_lt in E. destruct m as [|m]; [lia|]. eauto.
  - apply Nat.ltb_ge in E. assert (m = 0) as -> by lia. destruct inc; [lia|].
    exists inc. by rewrite app_nil_r.
Qed.

Lemma array_set_snoc {A} (z : A) (l : list A) m x :
  <[length l := x]> (l ++ repeat z (S m)) = (l ++ [x]) ++ repeat z m.
Proof.
  rewrite <- (Nat.add_0_r (length l)), insert_app_r. by rewrite <- app_assoc.
Qed.

Lemma blank_slot {A} (z : A) (l : list A) m :
  l ++ repeat z (S m) = (l ++ [z]) ++ repeat z m.
Proof. by rewrite <- app_assoc. Qed.

Definition cn_refines (a : option (list kv_pair * list nat)) (c : cn_result) : Prop :=
  match a, c with
  | Some (kvs, idxs), CnOk k => kva_rep k kvs idxs
  | None, CnNull => True
  | _, _ => False
  end.

Lemma parse_loop_refines fuel input ret done cur idxs :
  (String.length input < fuel)%nat ->
  kva_rep ret (done ++ [cur]) idxs ->
  cn_refines (parse_abs fuel input done cur idxs) (parse_http_cn_loop fuel input ret).
Proof.
  revert input ret done cur idxs. induction fuel as [|fuel IH]; [lia|].
  intros input [kl il ix kvs] done cur idxs L (R1 & R2 & (m1 & R3) & (m2 & R4)).
  cbn [kvlen indexlen index kv] in *. rewrite length_app in R1. simpl in R1.
  rewrite Nat.add_1_r in R1. subst kl il ix kvs.
  pose proof (tokenizer_progress input) as P.
  assert (length (done ++ [cur]) = S (length done)) as Hl by (rewrite length_app; simpl; lia).
  destruct (resize_array_room kv_blank (done ++ [cur]) m1 HTTP_CN_KV_INCREMENT) as (n1 & E1);
    [unfold HTTP_CN_KV_INCREMENT; lia|].
  destruct (resize_array_room 0 idxs m2 HTTP_CN_INDEX_INCREMENT) as (n2 & E2);
    [unfold HTTP_CN_INDEX_INCREMENT; lia|].
  cbn [parse_abs parse_http_cn_loop kvlen indexlen index kv].
  rewrite Hl in E1. rewrite E1, E2.
  replace (S (length done) - 1) with (length done) by lia.
  assert (((done ++ [cur]) ++ repeat kv_blank (S n1)) !! length done = Some cur) as ->.
  { rewrite <- app_assoc. cbn [app repeat]. by rewrite list_lookup_middle. }
  assert (forall e, <[length done:=e]> ((done ++ [cur]) ++ repeat kv_blank (S n1)) =
                    (done ++ [e]) ++ repeat kv_blank (S n1)) as I1.
  { intros e. rewrite <- !app_assoc, <- (Nat.add_0_r (length done)). by rewrite insert_app_r. }
  assert ((idxs ++ repeat 0 (S n2)) !! length idxs = Some 0) as I2
    by (cbn [repeat]; by rewrite list_lookup_middle).
  destruct (tk_res (tokenizer input)) eqn:T, (kv_store cur (tk_out (tokenizer input))) as [e|];
    try exact I; rewrite ?I2, ?array_set_snoc, ?I1.
  all: try (apply IH; [specialize (P eq_refl); lia|]).
  all: repeat split; cbn; rewrite ?length_app; simpl; try lia.
  all: first [by exists n2 | by exists (S n2) | by exists (S n1)
             | exists n1; apply (blank_slot kv_blank)].
Qed.

Definition parse_http_cn_spec (cnstr : option string) : option (list kv_pair * list nat) :=
  match cnstr with
  | None | Some EmptyString => None
  | Some s => parse_abs (S (String.length s)) s [] kv_blank [0]
  end.

Lemma util_parse_http_cn_refines cnstr :
  cn_refines (parse_http_cn_spec cnstr) (util_parse_http_cn cnstr).
Proof.
  destruct cnstr as [[|c s]|]; [exact I| |exact I].
  unfold parse_http_cn_spec, util_parse_http_cn.
  apply (parse_loop_refines _ _ _ [] kv_blank [0]); [lia|].
  split; [done|]. split; [done|]. split; by exists 7.
Qed.

(** For every header value the parser ends, without an access outside its
    arrays, in the null pointer or in arrays that hold the pairs and entry
    starts of the array-free parser. *)
Theorem parse_http_cn_refines cnstr :
  (util_parse_http_cn cnstr = CnNull /\ parse_http_cn_spec cnstr = None) \/
  (exists k kvs idxs, util_parse_http_cn cnstr = CnOk k /\
     parse_http_cn_spec cnstr = Some (kvs, idxs) /\ kva_rep k kvs idxs).
Proof.
  pose proof (util_parse_http_cn_refines cnstr) as R. unfold cn_refines in R.
  destruct (parse_http_cn_spec cnstr) as [[kvs idxs]|], (util_parse_http_cn cnstr);
    try done; eauto 10.
Qed.

(** ** Printing and parsing *)

(** A pair as a client writes it: a key, and a value after an equals sign. *)
Definition pair_ok (p : string * option string) : bool :=
  let tok s := negb (streq s EmptyString) && string_forall is_token s in
  tok (fst p) && match snd p with Some v => tok v | None => true end.

Definition to_kv (p : string * option string) : kv_pair := (Some (fst p), snd p).

Definition render_pair (p : string * option string) : string :=
  match snd p with
  | Some v => fst p +:+ String "=" v
  | None => fst p
  end.

Fixpoint render_entry (e : list (string * option string)) : string :=
  match e with
  | [] => EmptyString
  | [p] => render_pair p
  | p :: r => render_pair p +:+ String ";" (render_entry r)
  end.

Fixpoint render (es : list (list (string * option string))) : string :=
  match es with
  | [] => EmptyString
  | [e] => render_entry e
  | e :: r => render_entry e +:+ String "," (render r)
  end.

(** The position of the first pair of each entry. *)
Fixpoint starts {A} (n : nat) (es : list (list A)) : list nat :=
  match es with [] => [] | e :: r => n :: starts (n + length e) r end.

Lemma token_char_plain c :
  is_token c = true ->
  Ascii.eqb c " " = false /\ (Ascii.eqb c "=" || Ascii.eqb c "," || Ascii.eqb c ";") = false /\
  Ascii.eqb c "034" = false.
Proof. destruct c as [[] [] [] [] [] [] [] []]; vm_compute; auto. Qed.

Lemma strspn_app P s t :
  string_forall P s = true ->
  strspn P (s +:+ t) = let '(a, b) := strspn P t in (s +:+ a, b).
Proof.
  induction s as [|c s IH]; intros H.
  { change (EmptyString +:+ t) with t. by destruct (strspn P t). }
  rewrite string_app_cons. simpl in *. apply andb_prop in H as [-> H].
  rewrite IH by done. by destruct (strspn P t).
Qed.

Definition delimiter (d : ascii) : bool :=
  Ascii.eqb d "," || Ascii.eqb d "=" || Ascii.eqb d ";".

Lemma delimiter_plain d :
  delimiter d = true -> is_token d = false /\ Ascii.eqb d " " = false.
Proof. destruct d as [[] [] [] [] [] [] [] []]; vm_compute; auto. Qed.

(** What the tokenizer makes of a token and what follows it. *)
Lemma tokenizer_token s rest :
  negb (streq s EmptyString) = true -> string_forall is_token s = true ->
  match rest with EmptyString => True | String d _ => delimiter d = true end ->
  tokenizer (s +:+ rest) =
    match rest with
    | EmptyString => Token TOKENIZER_RESULT_EOS (Some s) EmptyString false
    | String d r => Token (tokenizer_res_from_char d) (Some s) r false
    end.
Proof.
  intros N H D. destruct s as [|c s]; [done|].
  assert (is_token c = true) as Hc by (simpl in H; by apply andb_prop in H as []).
  destruct (token_char_plain c Hc) as (C1 & C2 & C3).
  assert (skip_space (String c s +:+ rest) = String c s +:+ rest) as E.
  { rewrite string_app_cons. unfold skip_space. simpl. by rewrite C1. }
  unfold tokenizer. rewrite E, string_app_cons, C2, C3.
  rewrite <- string_app_cons, strspn_app by done.
  destruct rest as [|d r]; [simpl; by rewrite string_app_nil_r|].
  destruct (delimiter_plain d D) as [D1 D2]. simpl. rewrite D1.
  unfold skip_space. simpl. by rewrite D2, string_app_nil_r.
Qed.

Definition next_delimiter (rest : string) : bool :=
  match rest with
  | EmptyString => true
  | String d _ => Ascii.eqb d "," || Ascii.eqb d ";"
  end.

(** One pair, up to the delimiter that follows it. *)
Lemma parse_abs_pair p rest fuel done idxs :
  pair_ok p = true -> next_delimiter rest = true ->
  (String.length (render_pair p +:+ rest) < fuel)%nat ->
  exists fuel', (String.length rest < S fuel')%nat /\
    parse_abs fuel (render_pair p +:+ rest) done kv_blank idxs =
    match rest with
    | EmptyString => Some (done ++ [to_kv p], idxs)
    | String d r =>
        if Ascii.eqb d "," then
          parse_abs fuel' r (done ++ [to_kv p]) kv_blank (idxs ++ [S (length done)])
        else parse_abs fuel' r (done ++ [to_kv p]) kv_blank idxs
    end.
Proof.
  destruct p as [k [v|]]; unfold pair_ok, render_pair; cbn [fst snd]; intros Hp Hr L;
    repeat (apply andb_prop in Hp as [Hp ?]).
  - apply andb_prop in H as [V1 V2].
    rewrite string_app_assoc, string_app_cons, !string_length_app in *. simpl in L.
    rewrite string_length_app in L.
    destruct fuel as [|[|fuel]]; [lia|lia|]. exists fuel. split; [lia|].
    cbn [parse_abs]. rewrite tokenizer_token by done. cbn.
    rewrite tokenizer_token; [|done|done|].
    + destruct rest as [|d r]; [done|]. cbn in Hr. unfold tokenizer_res_from_char.
      destruct (Ascii.eqb d ",") eqn:E1; [apply Ascii.eqb_eq in E1 as ->; done|].
      destruct (Ascii.eqb d ";") eqn:E2; [apply Ascii.eqb_eq in E2 as ->; done|done].
    + destruct rest as [|d r]; [done|]. unfold delimiter. cbn in Hr.
      by destruct (Ascii.eqb d ","), (Ascii.eqb d ";"), (Ascii.eqb d "=").
  - rewrite string_length_app in L.
    destruct fuel as [|fuel]; [lia|]. exists fuel. split; [lia|].
    cbn [parse_abs]. rewrite tokenizer_token; [|done|done|].
    + destruct rest as [|d r]; [done|]. cbn in Hr. unfold tokenizer_res_from_char.
      destruct (Ascii.eqb d ",") eqn:E1; [apply Ascii.eqb_eq in E1 as ->; done|].
      destruct (Ascii.eqb d ";") eqn:E2; [apply Ascii.eqb_eq in E2 as ->; done|done].
    + destruct rest as [|d r]; [done|]. unfold delimiter. cbn in Hr.
      by destruct (Ascii.eqb d ","), (Ascii.eqb d ";"), (Ascii.eqb d "=").
Qed.

Definition entry_end (rest : string) : bool :=
  match rest with EmptyString => true | String d _ => Ascii.eqb d "," end.

Lemma entry_end_delimiter rest : entry_end rest = true -> next_delimiter rest = true.
Proof. destruct rest; [done|]. simpl. by intros ->. Qed.

Lemma render_entry_cons p p' e :
  render_entry (p :: p' :: e) = render_pair p +:+ String ";" (render_entry (p' :: e)).
Proof. done. Qed.

Lemma render_cons e e' es :
  render (e :: e' :: es) = render_entry e +:+ String "," (render (e' :: es)).
Proof. done. Qed.

Lemma parse_abs_entry e rest fuel done idxs :
  e <> [] -> forallb pair_ok e = true -> entry_end rest = true ->
  (String.length (render_entry e +:+ rest) < fuel)%nat ->
  exists fuel', (String.length rest < S fuel')%nat /\
    parse_abs fuel (render_entry e +:+ rest) done kv_blank idxs =
    match rest with
    | EmptyString => Some (done ++ map to_kv e, idxs)
    | String _ r =>
        parse_abs fuel' r (done ++ map to_kv e) kv_blank
          (idxs ++ [length done + length e])
    end.
Proof.
  revert fuel done. induction e as [|p e IH]; [done|]. intros fuel done _ H R L.
  simpl in H. apply andb_prop in H as [Hp He]. destruct e as [|p' e].
  - destruct (parse_abs_pair p rest fuel done idxs Hp (entry_end_delimiter _ R) L)
      as (fuel' & L' & E).
    exists fuel'. split; [done|]. cbn [render_entry map length]. rewrite E.
    destruct rest as [|d r]; [done|]. simpl in R. by rewrite R, Nat.add_1_r.
  - rewrite render_entry_cons in *. rewrite string_app_assoc, string_app_cons in *.
    destruct (parse_abs_pair p (String ";" (render_entry (p' :: e) +:+ rest)) fuel done idxs
                Hp eq_refl L) as (f1 & L1 & E1).
    rewrite E1. cbn [Ascii.eqb Bool.eqb]. cbn [String.length] in L1.
    destruct (IH f1 (done ++ [to_kv p]) ltac:(done) He R ltac:(lia)) as (f2 & L2 & E2).
    exists f2. split; [done|]. rewrite E2.
    change (map to_kv (p :: p' :: e)) with ([to_kv p] ++ map to_kv (p' :: e)).
    rewrite app_assoc, length_app. cbn [length]. by rewrite <- Nat.add_assoc.
Qed.

Lemma parse_abs_render es fuel done idxs :
  es <> [] -> Forall (fun e => e <> [] /\ forallb pair_ok e = true) es ->
  (String.length (render es) < fuel)%nat ->
  parse_abs fuel (render es) done kv_blank (idxs ++ [length done]) =
  Some (done ++ map to_kv (concat es), idxs ++ starts (length done) es).
Proof.
  revert fuel done idxs. induction es as [|e es IH]; [done|].
  intros fuel done idxs _ [[Ne He] Hes]%Forall_cons L. destruct es as [|e' es].
  - cbn [render concat starts] in *. rewrite app_nil_r.
    destruct (parse_abs_entry e EmptyString fuel done (idxs ++ [length done]))
      as (f & _ & E); try done.
    { by rewrite string_app_nil_r. }
    by rewrite string_app_nil_r in E.
  - rewrite render_cons in *.
    destruct (parse_abs_entry e (String "," (render (e' :: es))) fuel done
                (idxs ++ [length done])) as (f & Lf & ->); try done.
    change (concat (e :: e' :: es)) with (e ++ concat (e' :: es)).
    change (starts (length done) (e :: e' :: es))
      with ([length done] ++ starts (length done + length e) (e' :: es)).
    rewrite map_app, !app_assoc.
    assert (length done + length e = length (done ++ map to_kv e))%nat as EL
      by by rewrite length_app, length_map.
    cbn [String.length] in Lf. rewrite EL, IH; [done|done|done|lia].
Qed.

(** A header value written from entries of key-value pairs of tokens parses,
    and the arrays hold exactly those pairs, with the index of the first pair
    of each entry. *)
Theorem parse_http_cn_roundtrip es :
  es <> [] -> Forall (fun e => e <> [] /\ forallb pair_ok e = true) es ->
  exists k, util_parse_http_cn (Some (render es)) = CnOk k /\
    kva_rep k (map to_kv (concat es)) (starts 0 es).
Proof.
  intros N H.
  pose proof (parse_abs_render es (S (String.length (render es))) [] [] N H ltac:(lia)) as E.
  pose proof (util_parse_http_cn_refines (Some (render es))) as R.
  assert (parse_http_cn_spec (Some (render es)) = Some (map to_kv (concat es), starts 0 es)) as S.
  { unfold parse_http_cn_spec. destruct (render es) as [|c0 s0]; [|exact E].
    cbn in E. destruct (map to_kv (concat es)) as [|[k v] l] eqn:M; [done|].
    destruct (concat es) as [|[k' v'] l']; [done|]. injection M as <- <- <-. done. }
  rewrite S in R. destruct (util_parse_http_cn _) as [k| | |]; try done. eauto.
Qed.

Lemma parse_http_cn_roundtrip_witness :
  let es := [[("text/html", None); ("q", Some "0.5")]; [("text/*", None)]] in
  (es <> [] /\ Forall (fun e => e <> [] /\ forallb pair_ok e = true) es) /\
  exists k, util_parse_http_cn (Some (render es)) = CnOk k /\
    kva_rep k (map to_kv (concat es)) (starts 0 es).
Proof.
  intros es. assert (es <> [] /\ Forall (fun e => e <> [] /\ forallb pair_ok e = true) es) as [A B].
  { split; [done|]. repeat constructor; done. }
  split; [done|]. by apply (parse_http_cn_roundtrip es).
Defined.

(** ** The choice among several types *)

(** The media ranges of the header with their qualities; [None] when the
    value of a quality parameter is a null pointer. *)
Fixpoint header_entries (k : kva) (l : list nat) : option (list (string * Z)) :=
  match l with
  | [] => Some []
  | i :: r =>
      match fst (nth (nth i (index k) 0) (kv k) kv_blank) with
      | None => header_entries k r
      | Some p =>
          match find_q_in_index k i, header_entries k r with
          | Some q, Some es => Some ((p, q) :: es)
          | _, _ => None
          end
      end
  end.

(** The best quality of the entries that equal [s]; zero when there is none. *)
Definition quality_of (es : list (string * Z)) (s : string) : Z :=
  fold_right (fun e m => if strcaseeq (fst e) s then Z.max m (snd e) else m) 0%Z es.

Definition best_quality (es : list (string * Z)) : Z :=
  fold_right (fun e m => Z.max m (snd e)) 0%Z es.

Definition group_of (s : string) : string := a_group (fill_arg s).

(** The offer preferred: the first one listed with the best quality by name,
    else by its group, else the first. *)
Definition select_spec (es : list (string * Z)) (first : string) (others : list string) : string :=
  let offers := take SELECT_BEST_MAX_ARGS (first :: others) in
  match List.find (fun s => quality_of es s =? best_quality es)%Z offers with
  | Some s => s
  | None =>
      match List.find (fun s => quality_of es (group_of s) =? best_quality es)%Z offers with
      | Some s => s
      | None => first
      end
  end.

Definition upd (m : Z) (b : bool) (q : Z) : Z := if b && (m <? q)%Z then q else m.

Lemma match_entry_upd p q a :
  match_entry p q a =
  Arg (a_comp a) (a_group a) (upd (best_comp a) (strcaseeq p (a_comp a)) q)
    (upd (best_group a) (strcaseeq p (a_group a)) q).
Proof.
  destruct a as [c g bc bg]. unfold match_entry, upd. simpl.
  destruct (strcaseeq p c && (bc <? q)%Z); simpl;
    by destruct (strcaseeq p g && (bg <? q)%Z).
Qed.

Lemma quality_of_nonneg es s : (0 <= quality_of es s)%Z.
Proof.
  induction es as [|e es IH]; [done|]. simpl.
  destruct (strcaseeq (fst e) s); lia.
Qed.

Lemma upd_max m b q : upd m b q = if b then Z.max m q else m.
Proof. unfold upd. destruct b; simpl; [|done]. destruct (Z.ltb_spec m q); lia. Qed.

(** The inner loop takes the maxima over the entries. *)
Lemma match_entries_spec k l bq a :
  match header_entries k l with
  | None => match_entries k l bq a = None
  | Some es =>
      match_entries k l bq a =
      Some (fold_left (fun m e => Z.max m (snd e)) es bq,
            Arg (a_comp a) (a_group a)
              (fold_left (fun m e => upd m (strcaseeq (fst e) (a_comp a)) (snd e)) es (best_comp a))
              (fold_left (fun m e => upd m (strcaseeq (fst e) (a_group a)) (snd e)) es (best_group a)))
  end.
Proof.
  revert bq a. induction l as [|i l IH]; intros bq a; [by destruct a|].
  cbn [header_entries match_entries].
  destruct (fst _) as [p|]; [|apply IH].
  destruct (find_q_in_index k i) as [q|]; [|done].
  specialize (IH (Z.max bq q) (match_entry p q a)).
  destruct (header_entries k l) as [es|]; [|done].
  rewrite IH, match_entry_upd. done.
Qed.

(** A running maximum over the elements selected by [b]. *)
Definition max_if {A} (b : A -> bool) (g : A -> Z) (m : Z) (e : A) : Z :=
  if b e then Z.max m (g e) else m.

Lemma fold_max_if_right {A} (b : A -> bool) g es m :
  (0 <= m)%Z ->
  fold_left (max_if b g) es m =
  Z.max m (fold_right (fun e x => max_if b g x e) 0%Z es).
Proof.
  revert m. induction es as [|e es IH]; intros m Hm; simpl; [lia|].
  rewrite IH by (unfold max_if; destruct (b e); lia).
  unfold max_if at 1 3. destruct (b e); lia.
Qed.

Lemma quality_of_fold es s m :
  (0 <= m)%Z ->
  fold_left (fun x e => upd x (strcaseeq (fst e) s) (snd e)) es m = Z.max m (quality_of es s).
Proof.
  intros Hm. pose proof (fold_max_if_right (fun e => strcaseeq (fst e) s) snd es m Hm) as E.
  unfold quality_of. fold (max_if (fun e : string * Z => strcaseeq (fst e) s) snd) in *.
  unfold max_if in *. rewrite <- E. clear E Hm.
  revert m. induction es as [|e es IH]; intros m; simpl; [done|]. by rewrite upd_max, IH.
Qed.

Lemma best_quality_fold es m :
  (0 <= m)%Z ->
  fold_left (fun x e => Z.max x (snd e)) es m = Z.max m (best_quality es).
Proof.
  intros Hm. exact (fold_max_if_right (fun _ => true) (snd : string * Z -> Z) es m Hm).
Qed.

Lemma best_quality_nonneg es : (0 <= best_quality es)%Z.
Proof. induction es as [|e es IH]; simpl; [done|]. lia. Qed.

Definition scored (es : list (string * Z)) (s : string) : arg :=
  Arg s (group_of s) (quality_of es s) (quality_of es (group_of s)).

Lemma match_args_spec k es offers bq :
  header_entries k (seq 0 (indexlen k)) = Some es ->
  (bq = 0 \/ bq = best_quality es)%Z ->
  exists bq', match_args k bq (map fill_arg offers) = Some (bq', map (scored es) offers) /\
    (bq' = best_quality es \/ offers = [] /\ bq' = bq).
Proof.
  intros E. revert bq. induction offers as [|s offers IH]; intros bq Hb; [eauto|].
  cbn [map match_args].
  pose proof (match_entries_spec k (seq 0 (indexlen k)) bq (fill_arg s)) as M.
  rewrite E in M. rewrite M, best_quality_fold, !quality_of_fold; cycle 1.
  { done. } { done. } { pose proof (best_quality_nonneg es). lia. }
  pose proof (best_quality_nonneg es).
  assert (Z.max bq (best_quality es) = best_quality es) as -> by lia.
  destruct (IH (best_quality es)) as (bq' & -> & B); [by right|].
  exists bq'. split; [|left; destruct B as [|[_ ->]]; done].
  do 3 f_equal. unfold scored, group_of. simpl.
  rewrite !Z.max_r by apply quality_of_nonneg. done.
Qed.

Lemma find_arg_scored P es offers :
  find_arg P (map (scored es) offers) = List.find (fun s => P (scored es s)) offers.
Proof.
  unfold find_arg. induction offers as [|s l IH]; [done|]. simpl.
  by destruct (P (scored es s)).
Qed.

Lemma find_in_take {A} (P : A -> bool) n l x : List.find P (take n l) = Some x -> In x l.
Proof.
  intros [H _]%find_some. rewrite <- (take_drop n l). apply in_or_app. by left.
Qed.

(** For a header that parses, the choice is an offer: the first one of best
    quality by name, else by group, else the first; when the header carries a
    quality parameter without a value that the search reaches, the call reads
    through a null pointer. *)
Theorem select_best_spec input k first others :
  util_parse_http_cn input = CnOk k ->
  match header_entries k (seq 0 (indexlen k)) with
  | Some es =>
      util_http_select_best input first others = Some (select_spec es first others) /\
      In (select_spec es first others) (first :: others)
  | None => util_http_select_best input first others = None
  end.
Proof.
  intros P. unfold util_http_select_best. rewrite P.
  destruct (header_entries k (seq 0 (indexlen k))) as [es|] eqn:E.
  - destruct (match_args_spec k es (take SELECT_BEST_MAX_ARGS (first :: others)) 0 E)
      as (bq & -> & [->|[H _]]); [by left| |done].
    rewrite !find_arg_scored. unfold select_spec. cbn [best_comp best_group scored].
    destruct (List.find _ (take _ _)) as [s|] eqn:F1;
      [split; [done|by apply find_in_take in F1]|clear F1].
    destruct (List.find _ (take _ _)) as [s|] eqn:F2;
      [split; [done|by apply find_in_take in F2]|].
    split; [done|by left].
  - cbn [take map match_args SELECT_BEST_MAX_ARGS].
    pose proof (match_entries_spec k (seq 0 (indexlen k)) 0 (fill_arg first)) as M.
    rewrite E in M. by rewrite M.
Qed.

Definition accept_example : string := "text/html;q=0.5, text/*;q=0.7".

Lemma select_best_spec_witness :
  exists k, util_parse_http_cn (Some accept_example) = CnOk k /\
  match header_entries k (seq 0 (indexlen k)) with
  | Some es =>
      util_http_select_best (Some accept_example) "text/plain" ["text/html"] =
        Some (select_spec es "text/plain" ["text/html"]) /\
      In (select_spec es "text/plain" ["text/html"]) ["text/plain"; "text/html"]
  | None => util_http_select_best (Some accept_example) "text/plain" ["text/html"] = None
  end.
Proof. eexists. split; [vm_compute; reflexivity|]. apply select_best_spec. vm_compute. reflexivity. Defined.

(** A quality parameter without a value crashes the choice made for every
    error answer. *)
Example select_best_crash :
  util_http_select_best (Some "text/html;q") "text/plain" ["text/html"] = None.
Proof. reflexivity. Qed.

(** A quoted value is not stored, and a quote that ends the header makes the
    tokenizer read beyond the terminator. *)
Example quoted_value_lost :
  tokenizer (String "034" (String "1" (String "034" EmptyString))) =
  Token TOKENIZER_RESULT_EOS None EmptyString true.
Proof. reflexivity. Qed.
