(* ===== verification/Convert.v ===== *)
(** The conversions of [util.c]: host names, booleans, log levels and
    numbers as the configuration spells them. *)

From Stdlib Require Import DecimalPos DecimalString.
From S2P Require Import Prelude.
Local Open Scope Z_scope.

(** ** Definitions *)

(** [util_hostcheck_type]. *)
Inductive util_hostcheck_type :=
| HOSTCHECK_ERROR
| HOSTCHECK_SANE
| HOSTCHECK_NOT_FQDN
| HOSTCHECK_IS_LOCALHOST
| HOSTCHECK_IS_IPV4
| HOSTCHECK_IS_IPV6
| HOSTCHECK_BADCHAR.

Definition ipv4_char (c : ascii) : bool := is_digit c || Ascii.eqb c ".".
Definition ipv6_char (c : ascii) : bool := in_range "a" "f" c || is_digit c || Ascii.eqb c ":".
Definition host_char (c : ascii) : bool :=
  is_lower c || is_digit c || Ascii.eqb c "." || Ascii.eqb c "-".

Definition has_char (d : ascii) (s : string) : bool :=
  match strchr d s with Some _ => true | None => false end.

(** A null pointer is [None]. *)
Definition util_hostcheck (hostname : option string) : util_hostcheck_type :=
  match hostname with
  | None => HOSTCHECK_ERROR
  | Some h =>
      if streq h "localhost" || streq h "localhost.localdomain" || streq h "localhost.localnet"
      then HOSTCHECK_IS_LOCALHOST
      else if string_forall ipv4_char h then HOSTCHECK_IS_IPV4
      else if string_forall ipv6_char h && has_char ":" h then HOSTCHECK_IS_IPV6
      else if negb (string_forall host_char h) then HOSTCHECK_BADCHAR
      else if negb (has_char "." h) then HOSTCHECK_NOT_FQDN
      else HOSTCHECK_SANE
  end.

Definition util_str_to_bool (str : option string) : bool :=
  match str with
  | None | Some EmptyString => false
  | Some s =>
      strcaseeq s "true" || strcaseeq s "yes" || strcaseeq s "on" || negb (atoi s =? 0)
  end.

Definition ICECAST_LOGLEVEL_ERROR : Z := 1.
Definition ICECAST_LOGLEVEL_WARN : Z := 2.
Definition ICECAST_LOGLEVEL_INFO : Z := 3.
Definition ICECAST_LOGLEVEL_DEBUG : Z := 4.

Definition util_str_to_loglevel (str : string) : Z :=
  if strcaseeq str "debug" || strcaseeq str "DBUG" then ICECAST_LOGLEVEL_DEBUG
  else if strcaseeq str "information" || strcaseeq str "INFO" then ICECAST_LOGLEVEL_INFO
  else if strcaseeq str "warning" || strcaseeq str "WARN" then ICECAST_LOGLEVEL_WARN
  else if strcaseeq str "error" || strcaseeq str "EROR" then ICECAST_LOGLEVEL_ERROR
  else atoi str.

Definition util_str_to_int (str : option string) (default_value : Z) : Z :=
  match str with
  | None | Some EmptyString => default_value
  | Some s => atoi s
  end.

Definition util_str_to_unsigned_int (str : option string) (default_value : Z) : Z :=
  match str with
  | None | Some EmptyString => default_value
  | Some s =>
      let '(val, rem) := strtol s in
      match rem with
      | String _ _ => default_value
      | EmptyString => if val <? 0 then default_value else u32 (u64 val)
      end
  end.

(** [sscanf (s, "%u", &n)]: the end of the text, no number, or a number. *)
Inductive scanned := ScanEnd | ScanNone | ScanValue (n : Z).
Definition sscanf_unsigned (s : string) : scanned :=
  let t := snd (strspn isspace s) in
  let '(neg, u) :=
    match t with
    | String c r => if Ascii.eqb c "-" then (true, r) else if Ascii.eqb c "+" then (false, r) else (false, t)
    | EmptyString => (false, t)
    end in
  match t, u with
  | EmptyString, _ => ScanEnd
  | _, String c _ =>
      if is_digit c then
        let v := fst (digits_value 0 u) in
        ScanValue (u32 (if 2 ^ 64 <=? v then 2 ^ 64 - 1 else if neg then - v else v))
      else ScanNone
  | _, EmptyString => ScanNone
  end.


(** ** Decimal numbers *)

Fixpoint uint_value (acc : Z) (d : Decimal.uint) : Z :=
  match d with
  | Decimal.Nil => acc
  | Decimal.D0 d => uint_value (10 * acc) d
  | Decimal.D1 d => uint_value (10 * acc + 1) d
  | Decimal.D2 d => uint_value (10 * acc + 2) d
  | Decimal.D3 d => uint_value (10 * acc + 3) d
  | Decimal.D4 d => uint_value (10 * acc + 4) d
  | Decimal.D5 d => uint_value (10 * acc + 5) d
  | Decimal.D6 d => uint_value (10 * acc + 6) d
  | Decimal.D7 d => uint_value (10 * acc + 7) d
  | Decimal.D8 d => uint_value (10 * acc + 8) d
  | Decimal.D9 d => uint_value (10 * acc + 9) d
  end.

(** The reader of digits follows the digits of the printer. *)
Lemma digits_value_uint d acc :
  digits_value acc (DecimalString.NilEmpty.string_of_uint d) = (uint_value acc d, EmptyString).
Proof.
  revert acc. induction d as [|d IH|d IH|d IH|d IH|d IH|d IH|d IH|d IH|d IH|d IH]; intros acc; [done|..];
    cbn [DecimalString.NilEmpty.string_of_uint digits_value uint_value];
    match goal with |- context [is_digit ?c] => change (is_digit c) with true end; cbv iota;
    rewrite IH; f_equal; f_equal;
    match goal with |- context [code ?c] => let v := eval vm_compute in (code c) in change (code c) with v end;
    lia.
Qed.

Lemma uint_value_pos d p : uint_value (Z.pos p) d = Z.pos (Pos.of_uint_acc d p).
Proof.
  revert p. induction d as [|d IH|d IH|d IH|d IH|d IH|d IH|d IH|d IH|d IH|d IH]; intros p; [done|..];
    cbn [uint_value Pos.of_uint_acc]; rewrite <- IH; f_equal; lia.
Qed.

Lemma uint_value_of_uint d : uint_value 0 d = Z.of_N (Pos.of_uint d).
Proof.
  induction d as [|d IH|d IH|d IH|d IH|d IH|d IH|d IH|d IH|d IH|d IH]; [done|exact IH|..];
    cbn [uint_value Pos.of_uint Z.of_N]; rewrite <- uint_value_pos; f_equal.
Qed.

Lemma uint_value_pos_to_uint p : uint_value 0 (Pos.to_uint p) = Z.pos p.
Proof. rewrite uint_value_of_uint. by rewrite DecimalPos.Unsigned.of_to. Qed.

(** The text of a non-negative number starts with a digit and reads back. *)
Lemma digits_value_dec n :
  0 <= n -> exists c r, dec n = String c r /\ is_digit c = true /\ digits_value 0 (dec n) = (n, EmptyString).
Proof.
  intros Hn. unfold dec. destruct n as [|p|p]; [|clear Hn|lia].
  - cbn. by eexists _, _.
  - cbn [Z.to_int DecimalString.NilZero.string_of_int].
    assert (Pos.to_uint p <> Decimal.Nil) as N by apply DecimalPos.Unsigned.to_uint_nonnil.
    assert (DecimalString.NilZero.string_of_uint (Pos.to_uint p) =
            DecimalString.NilEmpty.string_of_uint (Pos.to_uint p)) as -> by by destruct (Pos.to_uint p).
    rewrite digits_value_uint, uint_value_pos_to_uint.
    destruct (Pos.to_uint p); [done|..]; by eexists _, _.
Qed.

Lemma digit_not_space c : is_digit c = true -> isspace c = false /\ Ascii.eqb c "-" = false /\ Ascii.eqb c "+" = false.
Proof.
  revert c. assert (forall c, implb (is_digit c)
    (negb (isspace c) && negb (Ascii.eqb c "-") && negb (Ascii.eqb c "+")) = true) as K.
  { apply forall_chars. vm_compute. reflexivity. }
  intros c D. specialize (K c). rewrite D in K. cbn in K.
  apply andb_true_iff in K as [[K1 K2]%andb_true_iff K3].
  by rewrite <- !negb_true_iff.
Qed.

Lemma strtol_dec n : 0 <= n <= LONG_MAX -> strtol (dec n) = (n, EmptyString).
Proof.
  intros [H0 H1]. destruct (digits_value_dec n H0) as (c & r & E & D & V). rewrite E in *.
  destruct (digit_not_space c D) as (Sp & Mi & Pl). unfold strtol.
  cbn [strspn]. rewrite Sp. cbn [snd]. rewrite Mi, Pl, D, V. f_equal. lia.
Qed.

(** ** Theorems *)

(** A number written in decimal is read back; one that does not fit an
    [unsigned int] is reduced modulo 2^32, it does not give the default. *)
Theorem unsigned_int_roundtrip n d :
  0 <= n <= LONG_MAX ->
  util_str_to_unsigned_int (Some (dec n)) d = u32 n /\
  (n < 2 ^ 31 -> util_str_to_int (Some (dec n)) d = n).
Proof.
  intros Hn. destruct (digits_value_dec n (proj1 Hn)) as (c & r & E & _).
  pose proof (strtol_dec n Hn) as S. unfold util_str_to_unsigned_int, util_str_to_int, atoi.
  rewrite E in *. rewrite S. cbn [fst]. assert ((n <? 0) = false) as -> by (apply Z.ltb_ge; lia).
  split.
  - unfold u32, u64, wrap. rewrite (Z.mod_small n (2 ^ 64)); [done|]. unfold LONG_MAX in Hn. lia.
  - intros H31. unfold i32. apply swrap_small; lia.
Qed.

Lemma unsigned_int_roundtrip_witness :
  util_str_to_unsigned_int (Some "4294967297") 7 = 1 /\
  (4294967297 < 2 ^ 31 -> util_str_to_int (Some "4294967297") 7 = 4294967297).
Proof.
  assert (dec 4294967297 = "4294967297") as E by (vm_compute; reflexivity).
  pose proof (unsigned_int_roundtrip 4294967297 7) as K. rewrite E in K.
  destruct K as [K1 K2]; [vm_compute; split; discriminate|]. split; [|exact K2].
  rewrite K1. vm_compute. reflexivity.
Defined.

Example hostcheck_examples :
  map (fun h => util_hostcheck (Some h))
    ["localhost"; "10.0.0.1"; "::1"; "radio"; "Radio.example.org"; "radio.example.org"] =
  [HOSTCHECK_IS_LOCALHOST; HOSTCHECK_IS_IPV4; HOSTCHECK_IS_IPV6; HOSTCHECK_NOT_FQDN;
   HOSTCHECK_BADCHAR; HOSTCHECK_SANE].
Proof. vm_compute. reflexivity. Qed.

Lemma has_char_spec c s : has_char c s = true <-> exists a b, s = a +:+ String c b.
Proof.
  unfold has_char. split.
  - destruct (strchr c s) as [[a b]|] eqn:E; [|done]. intros _. exists a, b. by apply strchr_inv in E as [-> _].
  - intros (a & b & ->). induction a as [|d a IH].
    + change (EmptyString +:+ String c b) with (String c b). cbn [strchr]. by rewrite Ascii.eqb_refl.
    + rewrite string_app_cons. cbn [strchr]. destruct (Ascii.eqb d c); [done|].
      destruct (strchr c (a +:+ String c b)) as [[x y]|]; done.
Qed.

Lemma host_no_colon h : string_forall host_char h = true -> has_char ":" h = false.
Proof.
  unfold has_char. induction h as [|c h IH]; [done|]. cbn [string_forall strchr].
  intros [E1 E2]%andb_true_iff. destruct (Ascii.eqb_spec c ":") as [->|_]; [discriminate|].
  specialize (IH E2). destruct (strchr ":" h) as [[x y]|]; done.
Qed.

(** The names the check calls sane are exactly the host names in lower case
    that have a dot, are no address and are not the local host. *)
Theorem hostcheck_sane h :
  util_hostcheck (Some h) = HOSTCHECK_SANE <->
  string_forall host_char h = true /\ (exists a b, h = a +:+ String "." b) /\
  string_forall ipv4_char h = false /\ streq h "localhost.localdomain" = false /\
  streq h "localhost.localnet" = false.
Proof.
  unfold util_hostcheck. rewrite <- has_char_spec. split.
  - destruct (streq h "localhost" || _ || _) eqn:E1; [done|].
    apply orb_false_iff in E1 as [[_ E1]%orb_false_iff E2].
    destruct (string_forall ipv4_char h); [done|].
    destruct (_ && has_char ":" h); [done|].
    destruct (string_forall host_char h); [|done].
    destruct (has_char "." h); done.
  - intros (H1 & H2 & H3 & H4 & H5). rewrite H1, H2, H3, H4, H5, (host_no_colon h H1), andb_false_r.
    destruct (streq h "localhost") eqn:E; [|done]. apply streq_eq in E as ->. discriminate.
Qed.

(** ** The length of a number as text *)

Lemma dec_neg p : dec (Z.neg p) = String "-" (dec (Z.pos p)).
Proof. done. Qed.

Lemma strtol_dec_Z n : - 2 ^ 62 <= n <= 2 ^ 62 -> strtol (dec n) = (n, EmptyString).
Proof.
  intros Hn. destruct (Z.le_gt_cases 0 n); [apply strtol_dec; unfold LONG_MAX; lia|].
  destruct n as [|p|p]; [lia|lia|]. rewrite dec_neg.
  destruct (digits_value_dec (Z.pos p)) as (c & r & E & D & V); [lia|]. rewrite E in *. unfold strtol.
  cbn [strspn isspace]. change (isspace "-") with false. cbv iota. cbn [snd].
  change (Ascii.eqb "-" "-") with true. cbv iota. rewrite D, V. f_equal. unfold LONG_MIN. lia.
Qed.

Lemma atoi_dec n : - 2 ^ 31 <= n < 2 ^ 31 -> atoi (dec n) = n.
Proof. intros Hn. unfold atoi. rewrite strtol_dec_Z by lia. by apply (swrap_small 32). Qed.

Lemma uint_value_lower d acc : 0 <= acc -> acc * 10 ^ Z.of_nat (Decimal.nb_digits d) <= uint_value acc d.
Proof.
  revert acc. induction d as [|d IH|d IH|d IH|d IH|d IH|d IH|d IH|d IH|d IH|d IH]; intros acc Ha;
    cbn [uint_value Decimal.nb_digits]; [lia|..];
    rewrite Nat2Z.inj_succ, Z.pow_succ_r by lia;
    (etrans; [|apply IH; lia]);
    pose proof (Z.pow_nonneg 10 (Z.of_nat (Decimal.nb_digits d)) ltac:(lia)); nia.
Qed.

Lemma string_of_uint_len d : String.length (DecimalString.NilEmpty.string_of_uint d) = Decimal.nb_digits d.
Proof. induction d as [|d IH|d IH|d IH|d IH|d IH|d IH|d IH|d IH|d IH|d IH]; [done|..]; cbn; by rewrite IH. Qed.

Lemma nzhead_no_D0 d e : Decimal.nzhead d <> Decimal.D0 e.
Proof. induction d; cbn; congruence. Qed.

(** A number without leading zeros is at least the power of ten its length
    tells. *)
Lemma dec_pos_len p : 10 ^ (strlen (dec (Z.pos p)) - 1) <= Z.pos p.
Proof.
  unfold dec. cbn [Z.to_int DecimalString.NilZero.string_of_int].
  assert (Pos.to_uint p <> Decimal.Nil) as N by apply DecimalPos.Unsigned.to_uint_nonnil.
  assert (DecimalString.NilZero.string_of_uint (Pos.to_uint p) =
          DecimalString.NilEmpty.string_of_uint (Pos.to_uint p)) as -> by by destruct (Pos.to_uint p).
  unfold strlen. rewrite string_of_uint_len.
  assert (Decimal.nzhead (Pos.to_uint p) = Pos.to_uint p) as Hh.
  { pose proof (DecimalPos.Unsigned.to_of (Pos.to_uint p)) as E. rewrite DecimalPos.Unsigned.of_to in E.
    cbn [N.to_uint] in E. unfold Decimal.unorm in E. destruct (Decimal.nzhead (Pos.to_uint p)) eqn:Eh; try done.
    exfalso. pose proof (uint_value_pos_to_uint p) as V. rewrite E in V. done. }
  pose proof (uint_value_pos_to_uint p) as V.
  destruct (Pos.to_uint p) as [|d|d|d|d|d|d|d|d|d|d]; [done|by apply nzhead_no_D0 in Hh|..]; rewrite <- V;
    cbn [uint_value Decimal.nb_digits]; rewrite Nat2Z.inj_succ;
    (etrans; [|apply uint_value_lower; lia]);
    match goal with |- 10 ^ ?x <= _ => replace x with (Z.of_nat (Decimal.nb_digits d)) by lia end;
    pose proof (Z.pow_nonneg 10 (Z.of_nat (Decimal.nb_digits d)) ltac:(lia)); nia.
Qed.

Lemma dec_length z : 0 <= z < 2 ^ 63 -> (String.length (dec z) <= 20)%nat.
Proof.
  intros H. destruct z as [|p|p]; [cbn; lia| |lia].
  pose proof (dec_pos_len p) as L. destruct (Nat.le_gt_cases (String.length (dec (Z.pos p))) 20) as [|G]; [done|].
  assert (10 ^ 20 <= 10 ^ (strlen (dec (Z.pos p)) - 1)) by (apply Z.pow_le_mono_r; unfold strlen; lia). lia.
Qed.
