(* ===== verification/Dict.v ===== *)
(** The string dictionaries of [util.c]: a list of cells in the order of
    insertion, whose first cell has no key until something is stored in it,
    and its form in URLs. *)

From S2P Require Import Prelude Uri.

(** ** Definitions *)

(** [util_dict]; the list is the chain through [next], a null pointer is the
    empty list. *)
Record cell := Cell { d_key : option string; d_val : option string }.
Definition util_dict : Type := list cell.

Definition util_dict_new : util_dict := [Cell None None].

Fixpoint util_dict_get (dict : util_dict) (key : string) : option string :=
  match dict with
  | [] => None
  | c :: r =>
      match d_key c with
      | Some k => if streq key k then d_val c else util_dict_get r key
      | None => util_dict_get r key
      end
  end.

(** The walk of [util_dict_set] to the first free or matching cell. *)
Fixpoint dict_store (dict : util_dict) (key val : string) : util_dict :=
  match dict with
  | [] => [Cell (Some key) (Some val)]
  | c :: r =>
      match d_key c with
      | None => Cell (Some key) (Some val) :: r
      | Some k => if streq k key then Cell (Some k) (Some val) :: r
                  else c :: dict_store r key val
      end
  end.

(** The result and the dictionary; a null dictionary is an error. *)
Definition util_dict_set (dict : util_dict) (key : option string) (val : string) : Z * util_dict :=
  match dict, key with
  | _ :: _, Some k => (1%Z, dict_store dict k val)
  | _, _ => (0%Z, dict)
  end.

Fixpoint urlencode_loop (dict : util_dict) (delim : ascii) (res : option string) : option string :=
  match dict with
  | [] => res
  | c :: r =>
      match d_key c with
      | None => urlencode_loop r delim res
      | Some k =>
          let res := match res with
                     | None => k
                     | Some s => s +:+ String delim k
                     end in
          let res := match util_url_escape (d_val c) with
                     | None => res
                     | Some enc => res +:+ String "=" enc
                     end in
          urlencode_loop r delim (Some res)
      end
  end.

Definition util_dict_urlencode (dict : util_dict) (delim : ascii) : option string :=
  urlencode_loop dict delim None.

(** ** Reference definitions *)

(** What a dictionary holds, in order. *)
Definition dict_entries (dict : util_dict) : list (string * option string) :=
  omap (fun c => k ← d_key c; Some (k, d_val c)) dict.

(** A dictionary as the operations make it. *)
Inductive dict_reachable : util_dict -> Prop :=
| dict_reach_new : dict_reachable util_dict_new
| dict_reach_set d k v : dict_reachable d -> dict_reachable (snd (util_dict_set d (Some k) v)).

(** Reading an encoded dictionary back. *)
Fixpoint split_on (d : ascii) (s : string) : list string :=
  match s with
  | EmptyString => [EmptyString]
  | String c r =>
      if Ascii.eqb c d then EmptyString :: split_on d r
      else match split_on d r with
           | x :: l => String c x :: l
           | [] => [String c EmptyString]
           end
  end.

Definition decode_entry (s : string) : string * option string :=
  match strchr "=" s with
  | Some (k, v) => (k, util_url_unescape v)
  | None => (s, None)
  end.

(** ** Storing and looking up *)

(** A dictionary that holds something. *)
Definition filled (d : util_dict) : Prop :=
  exists l : list (string * string), l <> [] /\ NoDup l.*1 /\
    d = (fun kv => Cell (Some kv.1) (Some kv.2)) <$> l.

Definition assoc_store (l : list (string * string)) (k v : string) : list (string * string) :=
  if decide (k ∈ l.*1) then (fun kv => if streq kv.1 k then (k, v) else kv) <$> l else l ++ [(k, v)].

Lemma kv_store_keys l k v :
  (assoc_store l k v).*1 = if decide (k ∈ l.*1) then l.*1 else l.*1 ++ [k].
Proof.
  unfold assoc_store. case_decide as I; [|by rewrite fmap_app]. clear I.
  induction l as [|[x y] l IH]; [done|]. cbn. rewrite IH. destruct (streq x k) eqn:E; [|done].
  by apply streq_eq in E as ->.
Qed.

Lemma fmap_other l k v :
  k ∉ l.*1 -> (fun kv : string * string => if streq kv.1 k then (k, v) else kv) <$> l = l.
Proof.
  induction l as [|[x y] l IH]; [done|]. cbn. intros [N1 N2]%not_elem_of_cons.
  rewrite IH by done. destruct (streq x k) eqn:E; [|done]. apply streq_eq in E. congruence.
Qed.

Lemma dict_store_filled l k v :
  NoDup l.*1 ->
  dict_store ((fun kv => Cell (Some kv.1) (Some kv.2)) <$> l) k v =
  (fun kv => Cell (Some kv.1) (Some kv.2)) <$> assoc_store l k v.
Proof.
  unfold assoc_store. induction l as [|[x y] l IH]; intros ND; [done|].
  cbn in ND. inversion ND as [|? ? N ND']; subst.
  cbn [fmap list_fmap dict_store d_key fst snd]. destruct (streq x k) eqn:E.
  - pose proof E as E'. apply streq_eq in E' as ->. rewrite decide_True by left.
    cbn. f_equal. symmetry. by rewrite fmap_other.
  - rewrite IH by done. assert (x <> k) as Nx by (intros ->; by rewrite streq_refl in E).
    destruct (decide (k ∈ l.*1)) as [I|I].
    + rewrite decide_True by by right. cbn. by destruct (streq x k).
    + rewrite decide_False; [done|]. intros [?|?]%elem_of_cons; [congruence|done].
Qed.

Lemma kv_store_NoDup l k v : NoDup l.*1 -> NoDup (assoc_store l k v).*1.
Proof.
  intros ND. rewrite kv_store_keys. case_decide as I; [done|].
  apply NoDup_app. split_and!; [done| |apply NoDup_singleton].
  intros x Ix ->%list_elem_of_singleton. done.
Qed.

Lemma filled_set d k v : filled d -> filled (dict_store d k v).
Proof.
  intros (l & N & ND & ->). exists (assoc_store l k v). split_and!.
  - unfold assoc_store. case_decide; [by destruct l|by destruct l].
  - by apply kv_store_NoDup.
  - by apply dict_store_filled.
Qed.

Lemma reachable_shape d : dict_reachable d -> d = util_dict_new \/ filled d.
Proof.
  induction 1 as [|d k v R [->|F]]; [by left| |]; right.
  - exists [(k, v)]. split_and!; [done|apply NoDup_singleton|done].
  - destruct F as (l & N & ND & E). assert (filled d) as F by by exists l.
    destruct d as [|c d]; [by destruct l|]. cbn [util_dict_set snd]. by apply filled_set.
Qed.

Lemma get_store_same d k v : util_dict_get (dict_store d k v) k = Some v.
Proof.
  induction d as [|c d IH]; cbn; [by rewrite streq_refl|].
  destruct (d_key c) as [x|] eqn:E; cbn; [|by rewrite streq_refl].
  destruct (streq x k) eqn:E'; cbn [util_dict_get d_key d_val]; [by rewrite streq_comm, E'|].
  by rewrite E, streq_comm, E'.
Qed.

Lemma get_store_other d k k' v :
  k' <> k -> d = util_dict_new \/ filled d ->
  util_dict_get (dict_store d k v) k' = util_dict_get d k'.
Proof.
  intros N H. assert (streq k' k = false) as Nk.
  { destruct (streq k' k) eqn:E; [|done]. apply streq_eq in E. congruence. }
  destruct H as [->|(l & _ & _ & ->)]; [cbn; by rewrite Nk|].
  induction l as [|[x y] l IH]; cbn; [by rewrite Nk|].
  destruct (streq x k) eqn:E; cbn.
  - apply streq_eq in E as ->. by rewrite Nk.
  - by destruct (streq k' x).
Qed.

(** Setting a key makes it the value found under that key and changes no
    other; a new key goes to the end and no key is held twice. *)
Theorem dict_set_get d k v :
  dict_reachable d ->
  let d' := snd (util_dict_set d (Some k) v) in
  fst (util_dict_set d (Some k) v) = 1%Z /\
  util_dict_get d' k = Some v /\
  (forall k', k' <> k -> util_dict_get d' k' = util_dict_get d k') /\
  NoDup (dict_entries d').*1 /\
  (dict_entries d').*1 =
    if decide (k ∈ (dict_entries d).*1) then (dict_entries d).*1 else (dict_entries d).*1 ++ [k].
Proof.
  intros R%reachable_shape. assert (exists c r, d = c :: r) as (c & r & E).
  { destruct R as [->|(l & N & _ & ->)]; [by eexists _, _|]. destruct l; [done|]. by eexists _, _. }
  assert (util_dict_set d (Some k) v = (1%Z, dict_store d k v)) as -> by by rewrite E. cbn [fst snd].
  clear c r E. split; [done|]. split; [apply get_store_same|].
  split; [intros k' N; by apply get_store_other|].
  assert (forall l : list (string * string),
    (dict_entries ((fun kv => Cell (Some kv.1) (Some kv.2)) <$> l)).*1 = l.*1) as Ee.
  { induction l as [|[x y] l IH]; [done|].
    cbn [fmap list_fmap dict_entries omap list_omap mbind option_bind d_key d_val fst snd].
    f_equal. exact IH. }
  destruct R as [->|(l & N & ND & ->)].
  - split; [apply NoDup_singleton|done].
  - rewrite dict_store_filled by done. rewrite !Ee, kv_store_keys. split; [|done].
    rewrite <- (kv_store_keys l k v). by apply kv_store_NoDup.
Qed.

Lemma dict_set_get_witness :
  let d := snd (util_dict_set util_dict_new (Some "artist") "a b") in
  util_dict_get (snd (util_dict_set d (Some "title") "t&u")) "artist" = Some "a b".
Proof.
  cbv zeta. rewrite (proj1 (proj2 (proj2 (dict_set_get _ "title" "t&u"
    (dict_reach_set _ "artist" "a b" dict_reach_new))))); [vm_compute; reflexivity|discriminate].
Defined.

(** ** The encoded form *)

Lemma split_on_app d a b :
  string_forall (fun c => negb (Ascii.eqb c d)) a = true ->
  split_on d (a +:+ String d b) = a :: split_on d b.
Proof.
  induction a as [|c a IH]; cbn [string_forall].
  - intros _. change (EmptyString +:+ String d b) with (String d b).
    cbn [split_on]. by rewrite Ascii.eqb_refl.
  - intros [E1 E2]%andb_true_iff. rewrite string_app_cons. cbn [split_on].
    apply negb_true_iff in E1. by rewrite E1, IH.
Qed.

Lemma split_on_single d a :
  string_forall (fun c => negb (Ascii.eqb c d)) a = true -> split_on d a = [a].
Proof.
  induction a as [|c a IH]; cbn [string_forall split_on]; [done|].
  intros [E1 E2]%andb_true_iff. apply negb_true_iff in E1. by rewrite E1, IH.
Qed.

Definition entry_text (kv : string * string) : string := kv.1 +:+ String "=" (url_escape_loop kv.2).

Fixpoint entries_text (delim : ascii) (l : list (string * string)) : string :=
  match l with
  | [] => EmptyString
  | [kv] => entry_text kv
  | kv :: l' => entry_text kv +:+ String delim (entries_text delim l')
  end.

(** The loop appends the entries that are left. *)
Lemma urlencode_loop_entries l delim res :
  urlencode_loop ((fun kv => Cell (Some kv.1) (Some kv.2)) <$> l) delim (Some res) =
  Some (match l with [] => res | _ => res +:+ String delim (entries_text delim l) end).
Proof.
  revert res. induction l as [|[k v] l IH]; intros res; [done|].
  cbn [fmap list_fmap urlencode_loop d_key d_val util_url_escape fst snd]. rewrite IH.
  destruct l as [|kv l]; cbn [entries_text]; unfold entry_text; cbn [fst snd];
    by rewrite ?string_app_cons, ?string_app_assoc, ?string_app_cons, ?string_app_assoc.
Qed.

(** No entry text holds the delimiter. *)
Definition delim_ok (delim : ascii) : Prop :=
  escaped_char delim = false /\ Ascii.eqb "=" delim = false.

Definition key_ok (delim : ascii) (k : string) : Prop :=
  string_forall (fun c => negb (Ascii.eqb c delim)) k = true /\
  string_forall (fun c => negb (Ascii.eqb c "=")) k = true.

Lemma escape_no_delim delim v :
  delim_ok delim -> string_forall (fun c => negb (Ascii.eqb c delim)) (url_escape_loop v) = true.
Proof.
  intros [D _]. assert (forall c, escaped_char c = true -> negb (Ascii.eqb c delim) = true) as K.
  { intros c Hc. destruct (Ascii.eqb_spec c delim); [congruence|done]. }
  induction v as [|c v IH]; [done|]. cbn [url_escape_loop].
  destruct (is_safechar c) eqn:S; cbn [string_forall]; rewrite IH.
  - rewrite K; [done|]. unfold escaped_char. by rewrite S.
  - rewrite !K; [done|apply hexchar_escaped|apply hexchar_escaped|done].
Qed.

Lemma entry_no_delim delim kv :
  delim_ok delim -> key_ok delim kv.1 ->
  string_forall (fun c => negb (Ascii.eqb c delim)) (entry_text kv) = true.
Proof.
  intros D [K _]. unfold entry_text. rewrite string_forall_app, K. cbn [string_forall].
  rewrite escape_no_delim by done. destruct D as [_ E]. by rewrite E.
Qed.

Lemma decode_entry_text delim kv :
  key_ok delim kv.1 -> nul_free kv.2 = true -> decode_entry (entry_text kv) = (kv.1, Some kv.2).
Proof.
  intros [_ K] N. unfold decode_entry, entry_text. rewrite strchr_app by done.
  unfold util_url_unescape. rewrite url_unescape_escape_loop. cbn. by rewrite cstr_nul_free.
Qed.

Lemma entries_text_split delim l :
  l <> [] -> delim_ok delim -> (forall kv, kv ∈ l -> key_ok delim kv.1) ->
  split_on delim (entries_text delim l) = entry_text <$> l.
Proof.
  intros N D K. induction l as [|kv l IH]; [done|].
  assert (string_forall (fun c => negb (Ascii.eqb c delim)) (entry_text kv) = true) as E.
  { apply entry_no_delim; [done|]. apply K. left. }
  destruct l as [|kv' l]; cbn [entries_text].
  - by rewrite split_on_single.
  - rewrite split_on_app by done. cbn [fmap list_fmap]. f_equal. apply IH; [done|].
    intros x I. apply K. by right.
Qed.

(** A dictionary is read back from its URL form, whatever its values: they
    are escaped, so neither the delimiter nor the equals sign can occur in
    them. *)
Theorem dict_urlencode_roundtrip d delim :
  dict_reachable d -> d <> util_dict_new -> delim_ok delim ->
  (forall k v, (k, v) ∈ dict_entries d ->
     key_ok delim k /\ (forall s, v = Some s -> nul_free s = true)) ->
  exists t, util_dict_urlencode d delim = Some t /\
    decode_entry <$> split_on delim t = dict_entries d.
Proof.
  intros R N D K. destruct (reachable_shape d R) as [|(l & Nl & _ & ->)]; [done|].
  assert (dict_entries ((fun kv => Cell (Some kv.1) (Some kv.2)) <$> l) =
          (fun kv => (kv.1, Some kv.2)) <$> l) as Ee.
  { clear. induction l as [|[x y] l IH]; [done|].
    cbn [fmap list_fmap dict_entries omap list_omap mbind option_bind d_key d_val fst snd].
    f_equal. exact IH. }
  rewrite Ee in *. exists (entries_text delim l). split.
  - destruct l as [|[k v] l]; [done|]. unfold util_dict_urlencode.
    cbn [fmap list_fmap urlencode_loop d_key d_val util_url_escape fst snd].
    rewrite urlencode_loop_entries. destruct l; cbn [entries_text]; done.
  - assert (forall kv, kv ∈ l -> key_ok delim kv.1 /\ nul_free kv.2 = true) as Kl.
    { intros [k v] I. destruct (K k (Some v)) as [K1 K2]; [|by auto].
      apply list_elem_of_fmap. by exists (k, v). }
    rewrite entries_text_split by (done || (intros kv I; by apply Kl)).
    rewrite <- list_fmap_compose. apply list_fmap_ext. intros i kv Hkv.
    apply list_elem_of_lookup_2 in Hkv. cbn. eapply decode_entry_text; by apply Kl.
Qed.

Lemma dict_urlencode_roundtrip_witness :
  let d := snd (util_dict_set (snd (util_dict_set util_dict_new (Some "artist") "a&b=c"))
    (Some "title") "50%") in
  exists t, util_dict_urlencode d "&" = Some t /\ decode_entry <$> split_on "&" t = dict_entries d.
Proof.
  cbv zeta. apply dict_urlencode_roundtrip.
  - apply (dict_reach_set _ "title"), (dict_reach_set _ "artist"), dict_reach_new.
  - vm_compute. discriminate.
  - split; reflexivity.
  - intros k v I. assert ((k, v) = ("artist", Some "a&b=c") \/ (k, v) = ("title", Some "50%")) as E.
    { apply elem_of_cons in I as [I|[I|I%not_elem_of_nil]%elem_of_cons]; [by left|by right|done]. }
    destruct E as [[= -> ->]|[= -> ->]]; (split; [split; reflexivity|intros s [= <-]; reflexivity]).
Defined.
