(* ===== verification/AudioInfo.v ===== *)
(** The audio information of a source, [_parse_audio_info] of [source.c], and
    the name of its dump file. *)

From S2P Require Import Prelude Uri Dict.
Local Open Scope Z_scope.

(** At most [n] characters of a kind, and the rest: a [%n\[...\]] of [sscanf]. *)
Fixpoint span_max (n : nat) (P : ascii -> bool) (s : string) : string * string :=
  match n, s with
  | S n', String c r => if P c then let '(a, b) := span_max n' P r in (String c a, b) else (EmptyString, s)
  | _, _ => (EmptyString, s)
  end.

Definition not_equals (c : ascii) : bool := negb (Ascii.eqb c "=").
Definition value_char (c : ascii) : bool := negb (Ascii.eqb c ";" || Ascii.eqb c (chr 13) || Ascii.eqb c (chr 10)).

(** [sscanf (start, "%99\[^=\]=%199\[^;\r\n\]", name, value)], where both are
    found. *)
Definition scan_field (start : string) : option (string * string) :=
  let '(name, rest) := span_max 99 not_equals start in
  match name, rest with
  | String _ _, String "=" rest =>
      match fst (span_max 199 value_char rest) with
      | EmptyString => None
      | value => Some (name, value)
      end
  | _, _ => None
  end.

(** [_parse_audio_info]: the parameters in order; [None] where a value is read
    that was not written. *)
Fixpoint parse_audio_loop (fuel : nat) (start : string) : option (list (string * string)) :=
  match fuel, start with
  | _, EmptyString => Some []
  | O, _ => None
  | S fuel', _ =>
      let '(len, next) := match strchr ";" start with Some (a, s) => (strlen a, s) | None => (strlen start, EmptyString) end in
      if len =? 0 then parse_audio_loop fuel' next
      else
        '(name, value) ← scan_field start;
        l ← parse_audio_loop fuel' next;
        Some (match util_url_unescape value with Some esc => (name, esc) :: l | None => l end)
  end.
Definition parse_audio_info (s : string) : option (list (string * string)) := parse_audio_loop (S (String.length s)) s.

(** What it does to the dictionary of the source, with the events for the
    statistics. *)
Definition set_audio_info (s : string) (d : util_dict) : option (util_dict * list (string * string)) :=
  l ← parse_audio_info s;
  Some (fold_left (fun d p => snd (util_dict_set d (Some p.1) p.2)) l d, l).

(** [source_open_dumpfile]: the file that is opened, where [strftime] has room
    for its name. *)
Definition PATH_MAX : Z := 4096.
Definition source_open_dumpfile (strftime : string -> string) (filename : string) : option string :=
  if strlen (strftime filename) <? PATH_MAX then Some (strftime filename) else None.

(** ** Reading what is written *)

Lemma span_max_all n P s rest :
  (String.length s <= n)%nat -> string_forall P s = true ->
  match rest with EmptyString => true | String c _ => negb (P c) end = true ->
  span_max n P (s +:+ rest) = (s, rest).
Proof.
  revert n. induction s as [|c s IH]; intros n L F R.
  - destruct n, rest; try done. cbn. apply negb_true_iff in R. change (EmptyString +:+ String a rest)%string with (String a rest).
    cbn [span_max]. by rewrite R.
  - destruct n as [|n]; [cbn in L; lia|]. cbn [string_forall String.length] in *. apply andb_true_iff in F as [Fc F].
    rewrite string_app_cons. cbn [span_max]. rewrite Fc, IH; [done|lia|done|done].
Qed.

(** A parameter as a source writes it: [name=value], the value escaped. *)
Definition field_text (p : string * string) : string := (p.1 +:+ "=" +:+ default EmptyString (util_url_escape (Some p.2)))%string.
Fixpoint info_text (l : list (string * string)) : string :=
  match l with
  | [] => EmptyString
  | [p] => field_text p
  | p :: r => (field_text p +:+ ";" +:+ info_text r)%string
  end.

Definition name_char (c : ascii) : bool := negb (Ascii.eqb c "=") && negb (Ascii.eqb c ";").
Definition field_ok (p : string * string) : bool :=
  string_forall name_char p.1 && (0 <? strlen p.1) && (strlen p.1 <=? 99) && nul_free p.2 && (0 <? strlen p.2) && (strlen p.2 <=? 66).

Lemma escaped_value s :
  nul_free s = true -> exists t, util_url_escape (Some s) = Some t /\ util_url_unescape t = Some s /\
    string_forall value_char t = true /\ strlen t <= 3 * strlen s /\ (0 < strlen s -> 0 < strlen t).
Proof.
  intros N. destruct (url_escape_roundtrip s N) as (t & E & U & F & L). exists t. split_and!; try done.
  - clear -F. induction t as [|c t IH]; [done|]. cbn [string_forall] in *. apply andb_true_iff in F as [Fc F]. rewrite (IH F), andb_true_r.
    assert (forallb (fun c => negb (escaped_char c) || value_char c) all_chars = true) as K by (vm_compute; reflexivity).
    rewrite forallb_forall in K. specialize (K c (all_chars_in c)). by rewrite Fc in K.
  - intros P. destruct t; [|unfold strlen; cbn [String.length]; lia]. cbn in U. injection U as <-. done.
Qed.

Lemma forall_chars_imp (P Q : ascii -> bool) s :
  forallb (fun c => negb (P c) || Q c) all_chars = true -> string_forall P s = true -> string_forall Q s = true.
Proof.
  intros K. rewrite forallb_forall in K. induction s as [|c s IH]; [done|]. cbn [string_forall]. intros [Pc F]%andb_true_iff.
  rewrite IH, andb_true_r by done. specialize (K c (all_chars_in c)). by rewrite Pc in K.
Qed.

(** One parameter, at the end or before another. *)
Lemma scan_field_text p rest :
  field_ok p = true -> match rest with EmptyString => true | String c _ => Ascii.eqb c ";" end = true ->
  exists t, scan_field (field_text p +:+ rest) = Some (p.1, t) /\ util_url_unescape t = Some p.2 /\
    string_forall (fun d => negb (Ascii.eqb d ";")) (field_text p) = true /\ 0 < strlen (field_text p).
Proof.
  destruct p as [n v]. unfold field_ok. cbn [fst snd]. rewrite !andb_true_iff. intros [[[[[Fn N1] N2] Nv] V1] V2] R.
  destruct (escaped_value v Nv) as (t & E & U & F & L & P). specialize (P ltac:(lia)). exists t. unfold field_text. cbn [fst snd]. rewrite E.
  change (default EmptyString (Some t)) with t. assert (string_forall (fun d => negb (Ascii.eqb d ";")) n = true) as Sn.
  { eapply forall_chars_imp; [|exact Fn]. by vm_compute. }
  assert (string_forall not_equals n = true) as En.
  { eapply forall_chars_imp; [|exact Fn]. by vm_compute. }
  assert (string_forall (fun d => negb (Ascii.eqb d ";")) t = true) as St.
  { eapply forall_chars_imp; [|exact F]. by vm_compute. }
  split_and!; [|done| |].
  - unfold scan_field. rewrite string_app_assoc. rewrite span_max_all; [|unfold strlen in *; lia|done|done].
    destruct n as [|c n]; [done|]. change (("=" +:+ t) +:+ rest)%string with (String "=" (t +:+ rest)). cbv iota.
    rewrite span_max_all; [|unfold strlen in *; lia|done|].
    + cbn [fst]. destruct t; [done|done].
    + destruct rest as [|d rest]; [done|]. apply Ascii.eqb_eq in R as ->. done.
  - rewrite !string_forall_app, Sn, St. done.
  - unfold strlen in *. rewrite string_length_app. lia.
Qed.

Lemma strchr_absent c s : string_forall (fun d => negb (Ascii.eqb d c)) s = true -> strchr c s = None.
Proof.
  induction s as [|d s IH]; [done|]. cbn [string_forall strchr]. intros [E F]%andb_true_iff. apply negb_true_iff in E.
  by rewrite E, IH.
Qed.

(** the audio information of a source.  Parameters written as [name=value]
    with semicolons between them and the values escaped are read back exactly,
    in order, the values unescaped, for names up to 99 bytes and values up to
    66, whose escaped form is sure to fit the 199 bytes there are. *)
Theorem audio_info_roundtrip l :
  forallb field_ok l = true -> parse_audio_info (info_text l) = Some l.
Proof.
  intros F. unfold parse_audio_info.
  assert (forall fuel, (length l < fuel)%nat -> parse_audio_loop fuel (info_text l) = Some l) as K.
  2: { apply K. clear K. induction l as [|p [|q r] IH]; [cbn; lia| |].
       - cbn [forallb] in F. rewrite andb_true_r in F. destruct (scan_field_text p EmptyString F eq_refl) as (_ & _ & _ & _ & P).
         cbn [info_text length]. unfold strlen in P. lia.
       - cbn [forallb] in F. apply andb_true_iff in F as [Fp F]. specialize (IH F).
         change (info_text (p :: q :: r)) with (field_text p +:+ ";" +:+ info_text (q :: r))%string.
         rewrite !string_length_app. cbn [length String.length] in *. lia. }
  induction l as [|p r IH]; intros fuel L; [by destruct fuel|]. destruct fuel as [|fuel]; [cbn in L; lia|].
  cbn [forallb length] in *. apply andb_true_iff in F as [Fp F].
  assert (forall rest next, info_text (p :: r) = (field_text p +:+ rest)%string ->
    match rest with EmptyString => true | String c _ => Ascii.eqb c ";" end = true ->
    (match strchr ";" (field_text p +:+ rest) with Some (a, s) => (strlen a, s) | None => (strlen (field_text p +:+ rest), EmptyString) end) =
      (strlen (field_text p), next) ->
    parse_audio_loop fuel next = Some r -> parse_audio_loop (S fuel) (info_text (p :: r)) = Some (p :: r)) as Step.
  { intros rest next -> R Ch Nx. destruct (scan_field_text p rest Fp R) as (t & E & U & _ & P).
    destruct (field_text p +:+ rest)%string as [|c s] eqn:Ef.
    { apply (f_equal String.length) in Ef. rewrite string_length_app in Ef. unfold strlen in P. cbn in Ef. lia. }
    cbn [parse_audio_loop]. rewrite Ch. destruct (Z.eqb_spec (strlen (field_text p)) 0); [lia|]. rewrite E. run_bind.
    rewrite Nx. run_bind. rewrite U. by destruct p. }
  destruct r as [|q r].
  - destruct (scan_field_text p EmptyString Fp eq_refl) as (_ & _ & _ & S & _).
    apply (Step EmptyString EmptyString); [by rewrite string_app_nil_r|done| |by destruct fuel].
    by rewrite string_app_nil_r, strchr_absent.
  - destruct (scan_field_text p (String ";" (info_text (q :: r))) Fp eq_refl) as (_ & _ & _ & S & _).
    apply (Step (String ";" (info_text (q :: r))) (info_text (q :: r))); [done|done| |apply IH; [done|lia]].
    by rewrite strchr_app.
Qed.

Lemma audio_info_roundtrip_witness :
  parse_audio_info "ice-bitrate=128;ice-quality=5%2e0;ice-name=a%3b%20b" =
    Some [("ice-bitrate", "128"); ("ice-quality", "5.0"); ("ice-name", "a; b")]%string /\
  parse_audio_info (info_text [("ice-bitrate", "128"); ("ice-name", "a; b")]%string) =
    Some [("ice-bitrate", "128"); ("ice-name", "a; b")]%string.
Proof.
  split; [vm_compute; reflexivity|]. apply (audio_info_roundtrip [("ice-bitrate", "128"); ("ice-name", "a; b")]%string).
  vm_compute. reflexivity.
Defined.

(** A parameter without a value is read together with the next one, and the
    last one makes the server use memory that was not written. *)
Lemma audio_info_no_value :
  parse_audio_info "a;b=c" = Some [("a;b", "c"); ("b", "c")]%string /\ parse_audio_info "a" = None.
Proof. split; reflexivity. Qed.
