(* ===== verification/Errors.v ===== *)
(** The table of errors of [errors.c] and the numbers [errors.h] gives them. *)

From S2P Require Import Prelude.
Local Open Scope Z_scope.

(** ** The numbers *)

Definition ICECAST_ERROR_ADMIN_DEST_NOT_RUNNING : Z := 1.
Definition ICECAST_ERROR_ADMIN_METADAT_BADCALL : Z := 2.
Definition ICECAST_ERROR_ADMIN_METADAT_NO_SUCH_ACTION : Z := 3.
Definition ICECAST_ERROR_ADMIN_MISSING_PARAMETER : Z := 4.
Definition ICECAST_ERROR_ADMIN_missing_parameter : Z := 5.
Definition ICECAST_ERROR_ADMIN_MOUNT_NOT_ACCEPT_URL_UPDATES : Z := 6.
Definition ICECAST_ERROR_ADMIN_NO_SUCH_DESTINATION : Z := 7.
Definition ICECAST_ERROR_ADMIN_ROLEMGN_ADD_NOSYS : Z := 8.
Definition ICECAST_ERROR_ADMIN_ROLEMGN_DELETE_NOSYS : Z := 9.
Definition ICECAST_ERROR_ADMIN_ROLEMGN_ROLE_NOT_FOUND : Z := 10.
Definition ICECAST_ERROR_ADMIN_SOURCE_DOES_NOT_EXIST : Z := 11.
Definition ICECAST_ERROR_ADMIN_SOURCE_IS_NOT_AVAILABLE : Z := 12.
Definition ICECAST_ERROR_ADMIN_SUPPLIED_MOUNTPOINTS_ARE_IDENTICAL : Z := 13.
Definition ICECAST_ERROR_ADMIN_UNRECOGNISED_COMMAND : Z := 14.
Definition ICECAST_ERROR_AUTH_BUSY : Z := 15.
Definition ICECAST_ERROR_CON_CONTENT_TYPE_NOSYS : Z := 16.
Definition ICECAST_ERROR_CON_INTERNAL_FORMAT_ALLOC_ERROR : Z := 17.
Definition ICECAST_ERROR_CON_MISSING_PASS_PARAMETER : Z := 18.
Definition ICECAST_ERROR_CON_MOUNT_IN_USE : Z := 19.
Definition ICECAST_ERROR_CON_MOUNTPOINT_NOT_STARTING_WITH_SLASH : Z := 20.
Definition ICECAST_ERROR_CON_NO_CONTENT_TYPE_GIVEN : Z := 21.
Definition ICECAST_ERROR_CON_PER_CRED_CLIENT_LIMIT : Z := 22.
Definition ICECAST_ERROR_CON_rejecting_client_for_whatever_reason : Z := 23.
Definition ICECAST_ERROR_CON_SOURCE_CLIENT_LIMIT : Z := 24.
Definition ICECAST_ERROR_CON_UNIMPLEMENTED : Z := 25.
Definition ICECAST_ERROR_CON_UNKNOWN_REQUEST : Z := 26.
Definition ICECAST_ERROR_CON_UPGRADE_ERROR : Z := 27.
Definition ICECAST_ERROR_FSERV_FILE_NOT_FOUND : Z := 28.
Definition ICECAST_ERROR_FSERV_FILE_NOT_READABLE : Z := 29.
Definition ICECAST_ERROR_FSERV_REQUEST_RANGE_NOT_SATISFIABLE : Z := 30.
Definition ICECAST_ERROR_GEN_BUFFER_REALLOC : Z := 31.
Definition ICECAST_ERROR_GEN_CLIENT_LIMIT : Z := 32.
Definition ICECAST_ERROR_GEN_CLIENT_NEEDS_TO_AUTHENTICATE : Z := 33.
Definition ICECAST_ERROR_GEN_HEADER_GEN_FAILED : Z := 34.
Definition ICECAST_ERROR_GEN_MEMORY_EXHAUSTED : Z := 35.
Definition ICECAST_ERROR_SOURCE_MOUNT_UNAVAILABLE : Z := 36.
Definition ICECAST_ERROR_SOURCE_STREAM_PREPARATION_ERROR : Z := 37.
Definition ICECAST_ERROR_XSLT_PARSE : Z := 38.
Definition ICECAST_ERROR_XSLT_problem : Z := 39.

(** ** The table *)

Record icecast_error := IcecastError {
  e_id : Z;
  e_http_status : Z;
  e_uuid : string;
  e_message : string
}.

Definition errors : list icecast_error := [
  IcecastError ICECAST_ERROR_ADMIN_DEST_NOT_RUNNING 400
    "52735a81-16fe-4d7e-9984-5aed8a941055"
    "Destination not running";
  IcecastError ICECAST_ERROR_ADMIN_METADAT_BADCALL 400
    "85d33e67-5c4e-4511-b4fa-3ca69ccd03de"
    "illegal metadata call";
  IcecastError ICECAST_ERROR_ADMIN_METADAT_NO_SUCH_ACTION 501
    "14f4d814-98d9-468c-8a0b-ba5e74c9d771"
    "No such action";
  IcecastError ICECAST_ERROR_ADMIN_MISSING_PARAMETER 400
    "cb11dc71-6149-454c-8d4e-47a3af26b03a"
    "Missing parameter";
  IcecastError ICECAST_ERROR_ADMIN_missing_parameter 400
    "8be9ef0a-2b32-450c-aec9-a414ca0c074c"
    "missing parameter";
  IcecastError ICECAST_ERROR_ADMIN_MOUNT_NOT_ACCEPT_URL_UPDATES 501
    "3bed51bb-a10f-4af3-9965-4e67181de7d6"
    "mountpoint will not accept URL updates";
  IcecastError ICECAST_ERROR_ADMIN_NO_SUCH_DESTINATION 404
    "c5f1ee06-46a0-4697-9f01-6e9fc333d555"
    "No such destination";
  IcecastError ICECAST_ERROR_ADMIN_ROLEMGN_ADD_NOSYS 501
    "7e1a8426-2ae1-4a6b-bfd9-59d8f8153021"
    "Adding users to role not supported by role";
  IcecastError ICECAST_ERROR_ADMIN_ROLEMGN_DELETE_NOSYS 501
    "367fbad1-389e-4292-bba8-c97984e616cc"
    "Deleting users from role not supported by role";
  IcecastError ICECAST_ERROR_ADMIN_ROLEMGN_ROLE_NOT_FOUND 404
    "59fe9c81-8c34-49ff-800f-7ec42ea498be"
    "Role not found";
  IcecastError ICECAST_ERROR_ADMIN_SOURCE_DOES_NOT_EXIST 404
    "2f51a026-02e4-4fe4-bf9d-cc16557b3b65"
    "Source does not exist";
  IcecastError ICECAST_ERROR_ADMIN_SOURCE_IS_NOT_AVAILABLE 400
    "00b9d977-f41d-455f-820f-6d457dffb246"
    "Source is not available";
  IcecastError ICECAST_ERROR_ADMIN_SUPPLIED_MOUNTPOINTS_ARE_IDENTICAL 400
    "4be9a010-7a3f-44e4-b74d-3c6d9c4f7236"
    "supplied mountpoints are identical";
  IcecastError ICECAST_ERROR_ADMIN_UNRECOGNISED_COMMAND 400
    "811bddac-5be5-4580-9cde-7b849e66dfe5"
    "unrecognised command";
  IcecastError ICECAST_ERROR_AUTH_BUSY 503
    "26708754-8f98-4191-81d1-7fb7246200d6"
    "busy, please try again later";
  IcecastError ICECAST_ERROR_CON_CONTENT_TYPE_NOSYS 415
    "f684ad3c-513b-4d87-9a66-424788bc6adb"
    "Content-type not supported";
  IcecastError ICECAST_ERROR_CON_INTERNAL_FORMAT_ALLOC_ERROR 500
    "47a4b11b-5d2a-46e2-8948-942e7b0af3e6"
    "internal format allocation problem";
  IcecastError ICECAST_ERROR_CON_MISSING_PASS_PARAMETER 400
    "b59c3a05-e2b1-4a14-8798-bbe1ae46603b"
    "missing pass parameter";
  IcecastError ICECAST_ERROR_CON_MOUNT_IN_USE 409
    "c5724467-5f85-48c7-b45a-915c3150c292"
    "Mountpoint in use";
  IcecastError ICECAST_ERROR_CON_MOUNTPOINT_NOT_STARTING_WITH_SLASH 400
    "1ae45ead-40fc-4de2-b56f-e54d3247f2ee"
    "source mountpoint not starting with /";
  IcecastError ICECAST_ERROR_CON_NO_CONTENT_TYPE_GIVEN 400
    "2cd86778-ac30-49e7-a108-26d627a7923b"
    "No Content-type given";
  IcecastError ICECAST_ERROR_CON_PER_CRED_CLIENT_LIMIT 429
    "9c72c1ec-f638-4d33-a077-6acbbff25317"
    "Reached limit of concurrent connections on those credentials";
  IcecastError ICECAST_ERROR_CON_rejecting_client_for_whatever_reason 403
    "534ee9af-8be5-4645-a839-501d22d541bd"
    "Rejecting client for whatever reason";
  IcecastError ICECAST_ERROR_CON_SOURCE_CLIENT_LIMIT 503
    "c770182d-c854-422a-a8e5-7142689234a3"
    "too many sources connected";
  IcecastError ICECAST_ERROR_CON_UNIMPLEMENTED 501
    "58ce6cb4-72b4-49da-8ad2-feaf775bc61e"
    "Unimplemented";
  IcecastError ICECAST_ERROR_CON_UNKNOWN_REQUEST 405
    "78f590cc-8812-40d5-a4ef-17344ab75b35"
    "unknown request";
  IcecastError ICECAST_ERROR_CON_UPGRADE_ERROR 400
    "ec16f654-f262-415f-ab91-95703ae33704"
    "Can not upgrade protocol";
  IcecastError ICECAST_ERROR_FSERV_FILE_NOT_FOUND 404
    "18c32b43-0d8e-469d-b434-10133cdd06ad"
    "The file you requested could not be found";
  IcecastError ICECAST_ERROR_FSERV_FILE_NOT_READABLE 404
    "c883d55d-fb41-4f4c-8800-563f5542f51d"
    "File not readable";
  IcecastError ICECAST_ERROR_FSERV_REQUEST_RANGE_NOT_SATISFIABLE 416
    "5874cc51-770b-42b5-82d2-737b2b406b30"
    "Request Range Not Satisfiable";
  IcecastError ICECAST_ERROR_GEN_BUFFER_REALLOC 500
    "cda8203e-f237-4090-8d43-544efdd6295c"
    "Buffer reallocation failed.";
  IcecastError ICECAST_ERROR_GEN_CLIENT_LIMIT 503
    "87fd3e61-6702-4473-b506-f616d27a142f"
    "Icecast connection limit reached";
  IcecastError ICECAST_ERROR_GEN_CLIENT_NEEDS_TO_AUTHENTICATE 401
    "25387198-0643-4577-9139-7c4f24f59d4a"
    "You need to authenticate";
  IcecastError ICECAST_ERROR_GEN_HEADER_GEN_FAILED 500
    "a8b3c3fe-cb87-45fe-9a9d-ee4c2075d43a"
    "Header generation failed.";
  IcecastError ICECAST_ERROR_GEN_MEMORY_EXHAUSTED 503
    "18411e73-713e-4910-b7e4-52a2e324b4e0"
    "memory exhausted";
  IcecastError ICECAST_ERROR_SOURCE_MOUNT_UNAVAILABLE 404
    "88d06875-fcf2-4417-84af-05866c97745c"
    "Mount unavailable";
  IcecastError ICECAST_ERROR_SOURCE_STREAM_PREPARATION_ERROR 500
    "9e50d94d-f03d-4515-8216-577bf8e9f70d"
    "Stream preparation error";
  IcecastError ICECAST_ERROR_XSLT_PARSE 404
    "f86b5b28-c1f8-49f6-a4cd-a18e2a6a44fd"
    "Could not parse XSLT file";
  IcecastError ICECAST_ERROR_XSLT_problem 500
    "d3c6e4b3-7d6e-4191-a81b-970273067ae3"
    "XSLT problem"
].

Fixpoint error_search (l : list icecast_error) (id : Z) : option icecast_error :=
  match l with
  | [] => None
  | e :: r => if e_id e =? id then Some e else error_search r id
  end.

Definition error_get_by_id (id : Z) : option icecast_error := error_search errors id.

(** ** Theorems *)

Lemma error_search_spec l id e :
  NoDup (e_id <$> l) -> error_search l id = Some e <-> e ∈ l /\ e_id e = id.
Proof.
  induction l as [|x l IH]; intros ND; cbn.
  { split; [done|]. by intros [?%not_elem_of_nil _]. }
  cbn in ND. inversion ND as [|? ? N ND']; subst. rewrite elem_of_cons.
  destruct (Z.eqb_spec (e_id x) id) as [E|E].
  - split; [intros [= ->]; by split; [left|]|]. intros [[->|I] Ei]; [done|].
    exfalso. apply N. rewrite E, <- Ei. by apply list_elem_of_fmap_2.
  - rewrite IH by done. split; [intros []; split; [by right|done]|].
    intros [[->|I] Ei]; [congruence|done].
Qed.

Lemma error_ids : NoDup (e_id <$> errors) /\ NoDup (e_uuid <$> errors).
Proof. split; apply (bool_decide_unpack _); vm_compute; exact I. Qed.

(** Every number has exactly one entry, found by the search; its status is
    that of an HTTP error and no two entries share their number or their
    identifier; other numbers have no entry. *)
Theorem error_table id :
  (1 <= id <= 39 <-> exists e, error_get_by_id id = Some e) /\
  (forall e, error_get_by_id id = Some e -> e_id e = id /\ 400 <= e_http_status e <= 599) /\
  (forall e e', e ∈ errors -> e' ∈ errors -> e_uuid e = e_uuid e' -> e = e').
Proof.
  destruct error_ids as [N1 N2]. unfold error_get_by_id.
  assert (forallb (fun e => (1 <=? e_id e) && (e_id e <=? 39) && (400 <=? e_http_status e) &&
    (e_http_status e <=? 599)) errors = true) as K by (vm_compute; reflexivity).
  rewrite forallb_forall in K.
  assert (forall e, e ∈ errors -> 1 <= e_id e <= 39 /\ 400 <= e_http_status e <= 599) as K'.
  { intros e I%list_elem_of_In. specialize (K e I). lia. }
  split_and!.
  - split.
    + intros Hid. assert (exists n, (n < 39)%nat /\ id = Z.of_nat (S n)) as (n & Hn & ->).
      { exists (Z.to_nat (id - 1)). lia. }
      do 39 (destruct n as [|n]; [by eexists|]). lia.
    + intros [e E%error_search_spec]; [|done]. destruct E as [I <-]. by apply K'.
  - intros e E%error_search_spec; [|done]. destruct E as [I Ei]. split; [done|]. by apply K'.
  - intros e e' I I' E. clear -N2 I I' E. induction errors as [|x l IH]; [by apply not_elem_of_nil in I|].
    cbn in N2. inversion N2 as [|? ? N ND]; subst.
    apply elem_of_cons in I as [->|I], I' as [->|I']; [done|..|by apply IH].
    + exfalso. apply N. rewrite E. by apply list_elem_of_fmap_2.
    + exfalso. apply N. rewrite <- E. by apply list_elem_of_fmap_2.
Qed.
