(* ===== verification/Refbuf.v ===== *)
(** The reference-counted buffers of [refbuf.c].

    Buffers live in a heap of records reached through pointers, so that
    sharing, chains through [next] and [associated], and the moment a buffer
    is freed are those of the code.  Following a pointer to freed memory, or
    running out of the recursion fuel, is [None]; the allocation itself aborts
    the program on failure and is taken to succeed.  Counts are not wrapped at
    32 bits: every reference is a live object of the process. *)

From S2P Require Import Prelude.
Local Open Scope Z_scope.

(** ** Definitions *)

Abbreviation ptr := positive.

(** [refbuf_t], without the bytes [data] points to. *)
Record refbuf := Refbuf {
  rb_len : Z;
  rb_count : Z;
  rb_assoc : option ptr;
  rb_next : option ptr;
  rb_sync : bool
}.

Abbreviation heap := (gmap ptr refbuf).

Definition PER_CLIENT_REFBUF_SIZE : Z := 4096.

Definition set_len (n : Z) (r : refbuf) : refbuf :=
  Refbuf n (rb_count r) (rb_assoc r) (rb_next r) (rb_sync r).
Definition set_count (n : Z) (r : refbuf) : refbuf :=
  Refbuf (rb_len r) n (rb_assoc r) (rb_next r) (rb_sync r).
Definition set_next (n : option ptr) (r : refbuf) : refbuf :=
  Refbuf (rb_len r) (rb_count r) (rb_assoc r) n (rb_sync r).
Definition set_assoc (a : option ptr) (r : refbuf) : refbuf :=
  Refbuf (rb_len r) (rb_count r) a (rb_next r) (rb_sync r).

(** Writing through a pointer. *)
Definition upd_ptr (p : ptr) (f : refbuf -> refbuf) (h : heap) : option heap :=
  match h !! p with Some r => Some (<[p := f r]> h) | None => None end.

Definition refbuf_new (size : Z) (h : heap) : ptr * heap :=
  let p := fresh (dom h) in (p, <[p := Refbuf size 1 None None false]> h).

Definition refbuf_addref (self : ptr) (h : heap) : option heap :=
  match h !! self with
  | Some r => Some (<[self := set_count (rb_count r + 1) r]> h)
  | None => None
  end.

Fixpoint refbuf_release_fuel (fuel : nat) (self : option ptr) (h : heap) : option heap :=
  match fuel, self with
  | O, _ => None
  | _, None => Some h
  | S fuel', Some p =>
      match h !! p with
      | None => None
      | Some r =>
          let n := rb_count r - 1 in
          let h := <[p := set_count n r]> h in
          if n =? 0 then
            match refbuf_release_associated fuel' (rb_assoc r) h with
            | Some h => Some (delete p h)
            | None => None
            end
          else Some h
      end
  end
with refbuf_release_associated (fuel : nat) (ref : option ptr) (h : heap) : option heap :=
  match fuel, ref with
  | O, _ => None
  | _, None => Some h
  | S fuel', Some to_go =>
      match h !! to_go with
      | None => None
      | Some r =>
          let ref := rb_next r in
          let h := if rb_count r =? 1 then <[to_go := set_next None r]> h else h in
          match refbuf_release_fuel fuel' (Some to_go) h with
          | Some h => refbuf_release_associated fuel' ref h
          | None => None
          end
      end
  end.

(** Enough for a buffer and everything associated with it. *)
Definition release_fuel (h : heap) : nat := 4 + size h.

Definition refbuf_release (self : option ptr) (h : heap) : option heap :=
  refbuf_release_fuel (release_fuel h) self h.
Arguments refbuf_release : simpl never.

(** The walk by which a format plugin references every buffer of the list it
    associates with a new stream buffer. *)
Fixpoint addref_chain (fuel : nat) (ref : option ptr) (h : heap) : option heap :=
  match fuel, ref with
  | _, None => Some h
  | O, Some _ => None
  | S fuel', Some p =>
      match refbuf_addref p h with
      | None => None
      | Some h => match h !! p with
                  | Some r => addref_chain fuel' (rb_next r) h
                  | None => None
                  end
      end
  end.

(** ** Counting references *)

(** A chain of distinct live buffers through [next]. *)
Inductive chain (h : heap) : option ptr -> list ptr -> Prop :=
| chain_nil : chain h None []
| chain_cons p r l :
    h !! p = Some r -> chain h (rb_next r) l -> p ∉ l -> chain h (Some p) (p :: l).

Definition occ (x : ptr) (l : list ptr) : nat := length (filter (fun y => y = x) l).

(** The references to [x] held by the associated lists of the live buffers. *)
Definition owned (h : heap) (own : ptr -> list ptr) (x : ptr) : nat :=
  sum_list_with (fun p => occ x (own p)) (elements (dom h)).

(** The heap [h] is sound when every count is the number of references: [ext]
    counts those held outside the heap, [own p] is the list associated with
    the buffer [p], whose members have no associated list themselves. *)
Record refs_ok (h : heap) (own : ptr -> list ptr) (ext : ptr -> nat) : Prop := {
  ro_live : forall p r, h !! p = Some r ->
    rb_count r = Z.of_nat (ext p + owned h own p) /\ 0 < rb_count r;
  ro_dead : forall p, h !! p = None -> (ext p + owned h own p = 0)%nat /\ own p = [];
  ro_chain : forall p r, h !! p = Some r -> chain h (rb_assoc r) (own p);
  ro_leaf : forall p x, x ∈ own p -> own x = []
}.

(** *** Occurrences and sums *)

Lemma occ_cons x y l : occ x (y :: l) = ((if decide (y = x) then 1 else 0) + occ x l)%nat.
Proof. unfold occ. rewrite filter_cons. case_decide; done. Qed.

Lemma occ_nil x : occ x [] = 0%nat.
Proof. done. Qed.

Lemma occ_not_in x l : x ∉ l -> occ x l = 0%nat.
Proof.
  induction l as [|y l IH]; [done|]. intros [N1 N2]%not_elem_of_cons.
  rewrite occ_cons, IH by done. rewrite decide_False by congruence. done.
Qed.

Lemma occ_in x l : x ∈ l -> (1 <= occ x l)%nat.
Proof.
  induction l as [|y l IH]; [by intros []%not_elem_of_nil|].
  intros [->|I]%elem_of_cons; rewrite occ_cons.
  - rewrite decide_True by done. lia.
  - apply IH in I. lia.
Qed.

Lemma occ_app x l k : occ x (l ++ k) = (occ x l + occ x k)%nat.
Proof. unfold occ. by rewrite filter_app, length_app. Qed.

Lemma sum_list_with_0 {A} (f : A -> nat) l :
  sum_list_with f l = 0%nat <-> forall x, x ∈ l -> f x = 0%nat.
Proof.
  induction l as [|y l IH]; simpl.
  - split; [|done]. by intros _ x []%not_elem_of_nil.
  - split.
    + intros H x [->|I]%elem_of_cons; [lia|]. apply IH; [lia|done].
    + intros H. rewrite (H y) by left. apply IH. intros x I. apply H. by right.
Qed.

Lemma sum_list_with_ext {A} (f g : A -> nat) l :
  (forall x, x ∈ l -> f x = g x) -> sum_list_with f l = sum_list_with g l.
Proof.
  induction l as [|y l IH]; intros H; simpl; [done|].
  rewrite (H y) by left. rewrite IH; [done|]. intros x I. apply H. by right.
Qed.

Lemma sum_list_with_Permutation {A} (f : A -> nat) l k :
  l ≡ₚ k -> sum_list_with f l = sum_list_with f k.
Proof. induction 1; simpl; lia. Qed.

Lemma sum_dom_insert (f : ptr -> nat) (h : heap) p r :
  h !! p = None ->
  sum_list_with f (elements (dom (<[p := r]> h))) =
  (f p + sum_list_with f (elements (dom h)))%nat.
Proof.
  intros H. rewrite dom_insert_L.
  assert (p ∉ dom h) as N by by apply not_elem_of_dom.
  apply (sum_list_with_Permutation f _ (p :: elements (dom h))).
  by apply elements_union_singleton.
Qed.

Lemma dom_insert_same (h : heap) p r r' :
  h !! p = Some r -> dom (<[p := r']> h) = dom h.
Proof. intros H. apply dom_insert_lookup_L. eauto. Qed.

Lemma owned_same (h : heap) p r r' own x :
  h !! p = Some r -> owned (<[p := r']> h) own x = owned h own x.
Proof. intros H. unfold owned. by rewrite (dom_insert_same h p r). Qed.

Lemma owned_pos (h : heap) own p r x :
  h !! p = Some r -> x ∈ own p -> (1 <= owned h own x)%nat.
Proof.
  intros H I. unfold owned.
  assert (p ∈ elements (dom h)) as E
    by (apply elem_of_elements, elem_of_dom; eauto).
  revert E. generalize (elements (dom h)) as l. induction l as [|q l IH]; simpl.
  { by intros []%not_elem_of_nil. }
  intros [->|E]%elem_of_cons; [apply occ_in in I; lia|]. specialize (IH E). lia.
Qed.

Lemma owned_mono h h' own x :
  dom h' ⊆ dom h -> (owned h' own x <= owned h own x)%nat.
Proof.
  intros S%elements_submseteq. unfold owned. induction S; simpl; lia.
Qed.

(** *** Chains *)

Lemma chain_lookup h a l x : chain h a l -> x ∈ l -> is_Some (h !! x).
Proof.
  induction 1 as [|p r l H C IH N]; [by intros []%not_elem_of_nil|].
  intros [->|I]%elem_of_cons; eauto.
Qed.

Lemma chain_NoDup h a l : chain h a l -> NoDup l.
Proof. induction 1; constructor; auto. Qed.

(** A chain only depends on the [next] fields of its members. *)
Lemma chain_ext h h' a l :
  (forall x r, x ∈ l -> h !! x = Some r -> exists r', h' !! x = Some r' /\ rb_next r' = rb_next r) ->
  chain h a l -> chain h' a l.
Proof.
  intros E C. induction C as [|p r l H C IH N]; [constructor|].
  destruct (E p r ltac:(left) H) as (r' & H' & Hn). econstructor; [done| |done].
  rewrite Hn. apply IH. intros x r0 I. apply E. by right.
Qed.

Lemma chain_unique h a l l' : chain h a l -> chain h a l' -> l = l'.
Proof.
  intros C. revert l'.
  induction C as [|p r l H C IH N]; intros l' C'; inversion C'; subst; [done|].
  simplify_eq. f_equal. auto.
Qed.

Lemma chain_insert h a l p r r' :
  h !! p = Some r -> p ∉ l \/ rb_next r' = rb_next r ->
  chain h a l -> chain (<[p := r']> h) a l.
Proof.
  intros H N. apply chain_ext. intros x s I Hx.
  destruct (decide (p = x)) as [->|D].
  - rewrite lookup_insert_eq. destruct N as [N|N]; [done|]. simplify_eq. eauto.
  - rewrite lookup_insert_ne by done. eauto.
Qed.

(** *** Sound heaps and their updates *)

Definition fupd {A} (p : ptr) (v : A) (f : ptr -> A) (q : ptr) : A :=
  if decide (q = p) then v else f q.

Definition ext_add (p : ptr) (ext : ptr -> nat) : ptr -> nat := fupd p (S (ext p)) ext.
Definition ext_del (p : ptr) (ext : ptr -> nat) : ptr -> nat := fupd p (ext p - 1)%nat ext.

Lemma fupd_eq {A} p (v : A) f : fupd p v f p = v.
Proof. unfold fupd. by rewrite decide_True. Qed.

Lemma fupd_ne {A} p q (v : A) f : q <> p -> fupd p v f q = f q.
Proof. intros. unfold fupd. by rewrite decide_False. Qed.

Lemma owned_ext h own own' x :
  (forall p, own p = own' p) -> owned h own x = owned h own' x.
Proof. intros E. unfold owned. apply sum_list_with_ext. intros p _. by rewrite E. Qed.

Lemma refs_ok_ext h own own' ext ext' :
  (forall p, own p = own' p) -> (forall p, ext p = ext' p) ->
  refs_ok h own ext -> refs_ok h own' ext'.
Proof.
  intros Eo Ee [L D C F]. split.
  - intros p r H. rewrite <- Ee, <- (owned_ext _ own) by done. eauto.
  - intros p H. rewrite <- Ee, <- Eo, <- (owned_ext _ own) by done. eauto.
  - intros p r H. rewrite <- Eo. eauto.
  - intros p x I. rewrite <- Eo in *. eauto.
Qed.

(** Writing to a buffer: the count follows [ext], the associated list stays,
    and [next] may change unless the buffer is in an associated list. *)
Lemma refs_ok_update h own ext ext' p r r' :
  refs_ok h own ext -> h !! p = Some r ->
  rb_assoc r' = rb_assoc r ->
  (owned h own p = 0%nat \/ rb_next r' = rb_next r) ->
  rb_count r' - rb_count r = Z.of_nat (ext' p) - Z.of_nat (ext p) ->
  0 < rb_count r' ->
  (forall q, q <> p -> ext' q = ext q) ->
  refs_ok (<[p := r']> h) own ext'.
Proof.
  intros [L D C F] Hp Ha Hn Hc Hpos Hext. destruct (L p r Hp) as [Lc _]. split.
  - intros q s. rewrite (owned_same h p r) by done.
    destruct (decide (p = q)) as [<-|N].
    + rewrite lookup_insert_eq. intros [= <-]. lia.
    + rewrite lookup_insert_ne by done. intros Hq. rewrite Hext by done. eauto.
  - intros q. rewrite (owned_same h p r) by done.
    destruct (decide (p = q)) as [<-|N].
    + by rewrite lookup_insert_eq.
    + rewrite lookup_insert_ne by done. rewrite Hext by done. eauto.
  - intros q s Hq. assert (exists s', h !! q = Some s' /\ rb_assoc s' = rb_assoc s) as (s' & Hs & Es).
    { destruct (decide (p = q)) as [<-|N].
      - rewrite lookup_insert_eq in Hq. injection Hq as <-. eauto.
      - rewrite lookup_insert_ne in Hq by done. eauto. }
    rewrite <- Es. apply (chain_insert h _ _ p r r' Hp); [|by eapply C].
    destruct Hn as [Hn|Hn]; [left|by right]. intros I.
    pose proof (owned_pos h own q s' p Hs I). lia.
  - done.
Qed.

Lemma owned_delete h own p r x :
  h !! p = Some r ->
  owned h own x = (occ x (own p) + owned (delete p h) own x)%nat.
Proof.
  intros H. rewrite <- (insert_delete_id h p r H) at 1. unfold owned.
  rewrite (sum_dom_insert _ (delete p h)) by apply lookup_delete_eq. done.
Qed.

Lemma owned_fupd_dead h own p v x :
  h !! p = None -> owned h (fupd p v own) x = owned h own x.
Proof.
  intros H. unfold owned. apply sum_list_with_ext. intros q I.
  rewrite fupd_ne; [done|]. intros ->.
  apply elem_of_elements, elem_of_dom in I as [? ?]. congruence.
Qed.

(** Freeing a buffer that nothing else refers to passes the references its
    associated list held on to its caller. *)
Lemma refs_ok_delete h own ext p r :
  refs_ok h own ext -> h !! p = Some r -> ext p = 1%nat -> owned h own p = 0%nat ->
  refs_ok (delete p h) (fupd p [] own) (fun q => ext_del p ext q + occ q (own p))%nat.
Proof.
  intros [L D C F] Hp He Ho.
  assert (p ∉ own p) as Np.
  { intros I. pose proof (owned_pos h own p r p Hp I). lia. }
  assert (forall q, owned (delete p h) (fupd p [] own) q = owned (delete p h) own q) as E.
  { intros q. apply owned_fupd_dead, lookup_delete_eq. }
  split.
  - intros q s Hq. rewrite E. assert (q <> p) as N by (intros ->; by rewrite lookup_delete_eq in Hq).
    rewrite lookup_delete_ne in Hq by done. destruct (L q s Hq) as [Lq Lp].
    unfold ext_del. rewrite fupd_ne by done. rewrite (owned_delete h own p r) in Lq by done. lia.
  - intros q Hq. rewrite E. unfold ext_del.
    pose proof (owned_delete h own p r q Hp) as Eq.
    destruct (decide (q = p)) as [->|N].
    + rewrite !fupd_eq, occ_not_in by done. split; [lia|done].
    + rewrite lookup_delete_ne in Hq by done. rewrite !fupd_ne by done.
      destruct (D q Hq). split; [lia|done].
  - intros q s Hq. assert (q <> p) as N by (intros ->; by rewrite lookup_delete_eq in Hq).
    rewrite lookup_delete_ne in Hq by done. rewrite fupd_ne by done.
    eapply chain_ext; [|by eapply C]. intros x t I Hx.
    rewrite lookup_delete_ne; [eauto|]. intros ->.
    pose proof (owned_pos h own q s x Hq I). lia.
  - intros q x I. destruct (decide (q = p)) as [->|N].
    { rewrite fupd_eq in I. by apply not_elem_of_nil in I. }
    rewrite fupd_ne in I by done. apply F in I. unfold fupd. by case_decide.
Qed.

(** *** Releasing *)

Lemma leaf_assoc h own ext p r :
  refs_ok h own ext -> h !! p = Some r -> own p = [] -> rb_assoc r = None.
Proof.
  intros R H E. pose proof (ro_chain _ _ _ R p r H) as C. rewrite E in C. by inversion C.
Qed.

Lemma ext_del_occ p q l (ext : ptr -> nat) :
  p ∉ l -> ext_del p (fun q => ext q + occ q (p :: l))%nat q = (ext q + occ q l)%nat.
Proof.
  intros N. unfold ext_del, fupd. destruct (decide (q = p)) as [->|D]; rewrite occ_cons.
  - rewrite decide_True by done. lia.
  - rewrite decide_False by done. lia.
Qed.

(** One buffer without associated list, in a heap that also holds the
    buffer [p] whose list is being released. *)
Lemma release_leaf fuel h own ext x r p s :
  refs_ok h own ext -> h !! x = Some r -> own x = [] -> (1 <= ext x)%nat -> h !! p = None ->
  exists h', refbuf_release_fuel (S (S fuel)) (Some x) (<[p := s]> h) = Some (<[p := s]> h') /\
    h' !! p = None /\ refs_ok h' own (ext_del x ext) /\
    (forall q, q <> x -> h' !! q = h !! q).
Proof.
  intros R Hx Ox He Hp. assert (p <> x) as N by congruence.
  destruct (ro_live _ _ _ R x r Hx) as [Lc _].
  simpl. rewrite lookup_insert_ne, Hx by done. rewrite (leaf_assoc _ _ _ _ _ R Hx Ox).
  destruct (rb_count r - 1 =? 0) eqn:E.
  - exists (delete x h). rewrite delete_insert_eq, delete_insert_ne by done.
    split; [done|]. split; [by rewrite lookup_delete_ne|].
    split; [|intros; by rewrite lookup_delete_ne].
    eapply refs_ok_ext; [| |apply (refs_ok_delete h own ext x r R Hx); lia].
    + intros q. unfold fupd. case_decide; congruence.
    + intros q. rewrite Ox, occ_nil. lia.
  - exists (<[x := set_count (rb_count r - 1) r]> h). rewrite insert_insert_ne by done.
    split; [done|]. split; [by rewrite lookup_insert_ne|].
    split; [|intros; by rewrite lookup_insert_ne].
    apply (refs_ok_update h own ext _ x r); try done; cbn.
    + by right.
    + unfold ext_del. rewrite fupd_eq. lia.
    + lia.
    + intros q Nq. unfold ext_del. by rewrite fupd_ne.
Qed.

(** [refbuf_release_associated] gives back one reference of every member of
    the list. *)
Lemma release_associated_ok l fuel ref h own ext p s :
  refs_ok h own (fun q => ext q + occ q l)%nat ->
  chain h ref l -> (forall x, x ∈ l -> own x = []) -> h !! p = None ->
  (3 + length l <= fuel)%nat ->
  exists h', refbuf_release_associated fuel ref (<[p := s]> h) = Some (<[p := s]> h') /\
    h' !! p = None /\ refs_ok h' own ext /\
    (forall q, q ∉ l -> h' !! q = h !! q).
Proof.
  revert fuel ref h. induction l as [|x l IH]; intros fuel ref h R C O Hp Hf;
    inversion C as [|x' r l' Hx Hn N]; subst; clear C.
  - destruct fuel; [lia|]. exists h. split; [done|]. split; [done|].
    split; [|done]. eapply refs_ok_ext; [done| |exact R]. intros q. cbn. lia.
  - destruct fuel as [|[|[|fuel]]]; simpl in Hf; try lia.
    assert (p <> x) as Npx by congruence.
    cbn [refbuf_release_associated]. rewrite lookup_insert_ne, Hx by done.
    set (r' := if rb_count r =? 1 then set_next None r else r).
    assert ((if rb_count r =? 1 then <[x := set_next None r]> (<[p := s]> h) else <[p := s]> h) =
            <[p := s]> (<[x := r']> h)) as ->.
    { unfold r'. destruct (rb_count r =? 1).
      - apply insert_insert_ne; congruence.
      - by rewrite (insert_id h x r Hx). }
    set (ext1 := fun q => (ext q + occ q (x :: l))%nat) in *.
    assert (1 <= ext1 x)%nat as He.
    { unfold ext1. rewrite occ_cons, decide_True by done. lia. }
    destruct (ro_live _ _ _ R x r Hx) as [Lc _].
    assert (refs_ok (<[x := r']> h) own ext1) as R1.
    { unfold r'. destruct (rb_count r =? 1) eqn:E1; [|by rewrite insert_id].
      apply (refs_ok_update h own ext1 _ x r); cbn; try done; lia. }
    destruct (release_leaf fuel (<[x := r']> h) own ext1 x r' p s)
      as (h' & E & H1 & R' & H2); try done.
    { apply lookup_insert_eq. } { apply O. left. } { by rewrite lookup_insert_ne. }
    rewrite E.
    destruct (IH (S (S fuel)) (rb_next r) h') as (h2 & E2 & H3 & R2 & H4).
    + eapply refs_ok_ext; [done| |exact R']. intros q. by apply ext_del_occ.
    + eapply chain_ext; [|exact Hn]. intros y t I Hy.
      assert (y <> x) by (intros ->; done).
      rewrite H2, lookup_insert_ne by done. eauto.
    + intros y I. apply O. by right.
    + done.
    + lia.
    + exists h2. split; [done|]. split; [done|]. split; [done|].
      intros q [Nq I]%not_elem_of_cons. rewrite H4, H2, lookup_insert_ne by done. done.
Qed.

Lemma chain_size h a l : chain h a l -> (length l <= size h)%nat.
Proof.
  intros C. rewrite <- (size_dom (D := gset ptr) h).
  rewrite <- (size_list_to_set (C := gset ptr) l) by by eapply chain_NoDup.
  apply subseteq_size. intros x I%elem_of_list_to_set.
  apply elem_of_dom. by eapply chain_lookup.
Qed.

(** What a release does to the heap, seen by the holders of the other
    references. *)
Record released (h h' : heap) (own own' : ptr -> list ptr) (p : ptr) : Prop := {
  rel_other : forall q, q <> p -> owned h own q = 0%nat -> h' !! q = h !! q;
  rel_self : forall r, h !! p = Some r -> owned h own p = 0%nat ->
    h' !! p = if rb_count r =? 1 then None else Some (set_count (rb_count r - 1) r);
  rel_owned : forall q, (owned h' own' q <= owned h own q)%nat
}.

Lemma refbuf_release_ok h own ext p :
  refs_ok h own ext -> (1 <= ext p)%nat ->
  exists h' own', refbuf_release (Some p) h = Some h' /\
    refs_ok h' own' (ext_del p ext) /\ released h h' own own' p.
Proof.
  intros R He. destruct (h !! p) as [r|] eqn:Hp.
  2: { destruct (ro_dead _ _ _ R p Hp). lia. }
  destruct (ro_live _ _ _ R p r Hp) as [Lc Lp].
  unfold refbuf_release, release_fuel. cbn [Nat.add refbuf_release_fuel].
  rewrite Hp. destruct (rb_count r - 1 =? 0) eqn:E.
  - pose proof (refs_ok_delete h own ext p r R Hp ltac:(lia) ltac:(lia)) as R1.
    pose proof (ro_chain _ _ _ R p r Hp) as C.
    assert (p ∉ own p) as N.
    { intros I. pose proof (owned_pos h own p r p Hp I). lia. }
    destruct (release_associated_ok (own p) (3 + size h) (rb_assoc r) (delete p h)
                (fupd p [] own) (ext_del p ext) p (set_count (rb_count r - 1) r))
      as (h' & E' & H1 & R2 & H2); try done.
    + eapply chain_ext; [|exact C]. intros x t I Hx.
      rewrite lookup_delete_ne by (intros ->; done). eauto.
    + intros x I. unfold fupd. case_decide; [done|]. by eapply (ro_leaf _ _ _ R).
    + apply lookup_delete_eq.
    + pose proof (chain_size _ _ _ C). lia.
    + rewrite insert_delete_eq in E'. cbn [Nat.add] in E'. rewrite E'.
      exists h', (fupd p [] own).
      rewrite delete_insert_id by done. split; [done|]. split; [done|].
      split.
      * intros q Nq Ho. rewrite H2; [by rewrite lookup_delete_ne|].
        intros I. pose proof (owned_pos h own p r q Hp I). lia.
      * intros r' Hr' _. simplify_eq. rewrite H1. by case_match; [|lia].
      * intros q. rewrite owned_fupd_dead by done. apply owned_mono.
        intros x. rewrite !elem_of_dom. intros [t Ht].
        destruct (decide (x ∈ own p)) as [I|I]; [by eapply chain_lookup|].
        rewrite H2 in Ht by done. by apply lookup_delete_Some in Ht as [_ ?].
  - exists (<[p := set_count (rb_count r - 1) r]> h), own.
    split; [done|]. split.
    + apply (refs_ok_update h own ext _ p r); cbn; try done; try lia; [by right| |].
      * unfold ext_del. rewrite fupd_eq. lia.
      * intros q Nq. unfold ext_del. by rewrite fupd_ne.
    + split.
      * intros q Nq _. by rewrite lookup_insert_ne.
      * intros r' Hr' _. simplify_eq. rewrite lookup_insert_eq. by case_match; [lia|].
      * intros q. by rewrite (owned_same h p r).
Qed.

(** *** Allocation, references and links *)

Lemma fresh_dead (h : heap) : h !! (fresh (dom h)) = None.
Proof. apply not_elem_of_dom, is_fresh. Qed.

Lemma refbuf_addref_ok h own ext p r :
  refs_ok h own ext -> h !! p = Some r ->
  refbuf_addref p h = Some (<[p := set_count (rb_count r + 1) r]> h) /\
  refs_ok (<[p := set_count (rb_count r + 1) r]> h) own (ext_add p ext).
Proof.
  intros R Hp. unfold refbuf_addref. rewrite Hp. split; [done|].
  destruct (ro_live _ _ _ R p r Hp).
  apply (refs_ok_update h own ext _ p r); cbn; try done; try lia; [by right| |].
  - unfold ext_add. rewrite fupd_eq. lia.
  - intros q N. unfold ext_add. by rewrite fupd_ne.
Qed.

(** A new buffer takes one reference over the members of the list it is
    given. *)
Lemma refs_ok_new h own ext p l r :
  refs_ok h own (fun q => ext q + occ q l)%nat -> h !! p = None ->
  chain h (rb_assoc r) l -> (forall x, x ∈ l -> own x = []) -> rb_count r = 1 ->
  refs_ok (<[p := r]> h) (fupd p l own) (ext_add p ext).
Proof.
  intros R Hp C O Hr. pose proof R as [L D Ch F].
  destruct (D p Hp) as [Dp Op].
  assert (p ∉ l) as N by (intros I; destruct (chain_lookup _ _ _ _ C I); congruence).
  assert (forall q, owned (<[p := r]> h) (fupd p l own) q = (occ q l + owned h own q)%nat) as E.
  { intros q. unfold owned. rewrite sum_dom_insert, fupd_eq by done. f_equal.
    by apply owned_fupd_dead. }
  split.
  - intros q s Hq. rewrite E. unfold ext_add. destruct (decide (p = q)) as [<-|Nq].
    + rewrite lookup_insert_eq in Hq. injection Hq as <-.
      rewrite fupd_eq, occ_not_in by done. lia.
    + rewrite lookup_insert_ne in Hq by done. rewrite fupd_ne by done.
      destruct (L q s Hq). lia.
  - intros q Hq. rewrite E. unfold ext_add.
    destruct (decide (p = q)) as [<-|Nq]; [by rewrite lookup_insert_eq in Hq|].
    rewrite lookup_insert_ne in Hq by done. rewrite !fupd_ne by done.
    destruct (D q Hq). split; [lia|done].
  - intros q s Hq. destruct (decide (p = q)) as [<-|Nq].
    + rewrite lookup_insert_eq in Hq. injection Hq as <-. rewrite fupd_eq.
      eapply chain_ext; [|exact C]. intros x t I Hx.
      rewrite lookup_insert_ne by congruence. eauto.
    + rewrite lookup_insert_ne in Hq by done. rewrite fupd_ne by done.
      eapply chain_ext; [|by eapply Ch]. intros x t I Hx.
      rewrite lookup_insert_ne by congruence. eauto.
  - intros q x I. destruct (decide (q = p)) as [->|Nq].
    + rewrite fupd_eq in I. unfold fupd. case_decide; [by subst|eauto].
    + rewrite fupd_ne in I by done. rewrite fupd_ne; [by eapply F|]. intros ->.
      destruct (h !! q) as [s|] eqn:Hq.
      * destruct (chain_lookup _ _ _ _ (Ch q s Hq) I). congruence.
      * destruct (D q Hq) as [_ Eq]. rewrite Eq in I. by apply not_elem_of_nil in I.
Qed.

Lemma addref_chain_ok l fuel ref h own ext :
  refs_ok h own ext -> chain h ref l -> (length l <= fuel)%nat ->
  exists h', addref_chain fuel ref h = Some h' /\
    refs_ok h' own (fun q => ext q + occ q l)%nat /\
    (forall q, q ∉ l -> h' !! q = h !! q) /\
    (forall q, owned h' own q = owned h own q) /\ dom h' = dom h /\
    (forall q r, h !! q = Some r ->
       exists r', h' !! q = Some r' /\ rb_next r' = rb_next r /\ rb_assoc r' = rb_assoc r).
Proof.
  revert fuel ref h ext. induction l as [|x l IH]; intros fuel ref h ext R C Hf;
    inversion C as [|x' r l' Hx Hn N]; subst; clear C.
  - exists h. split; [by destruct fuel|]. split; [|split_and!; eauto].
    eapply refs_ok_ext; [done| |exact R]. intros q. cbn. lia.
  - destruct fuel as [|fuel]; simpl in Hf; [lia|]. simpl.
    destruct (refbuf_addref_ok h own ext x r R Hx) as [-> R1].
    rewrite lookup_insert_eq. cbn [rb_next set_count].
    destruct (IH fuel (rb_next r) (<[x := set_count (rb_count r + 1) r]> h) (ext_add x ext))
      as (h' & E & R2 & H1 & H2 & H3 & H4); [done| |lia|].
    { eapply chain_insert; [exact Hx|by left|done]. }
    exists h'. split; [done|]. split; [|split_and!].
    + eapply refs_ok_ext; [done| |exact R2]. intros q. rewrite occ_cons.
      unfold ext_add, fupd. repeat case_decide; subst; try done; lia.
    + intros q [Nq I]%not_elem_of_cons. by rewrite H1, lookup_insert_ne by done.
    + intros q. by rewrite H2, (owned_same h x r).
    + by rewrite H3, (dom_insert_same h x r).
    + intros q s Hq. destruct (decide (x = q)) as [<-|Nq].
      * simplify_eq. destruct (H4 x _ (lookup_insert_eq _ _ _)) as (t & Ht). eauto.
      * apply H4. by rewrite lookup_insert_ne.
Qed.

(** A stream buffer as a format plugin delivers it: with a reference on every
    member of the list [a] associated with it. *)
Definition refbuf_attach (len : Z) (sync : bool) (a : option ptr) (h : heap) :
    option (ptr * heap) :=
  match addref_chain (size h) a h with
  | None => None
  | Some h =>
      let '(p, h) := refbuf_new len h in
      match upd_ptr p (fun r => Refbuf len (rb_count r) a None sync) h with
      | Some h => Some (p, h)
      | None => None
      end
  end.

(** A list a plugin may associate with buffers: live buffers that have no
    list of their own. *)
Definition attachable (h : heap) (own : ptr -> list ptr) (a : option ptr) : Prop :=
  exists l, chain h a l /\ forall x, x ∈ l -> own x = [].

Lemma refbuf_attach_ok len sync a h own ext :
  refs_ok h own ext -> attachable h own a ->
  exists p h' own', refbuf_attach len sync a h = Some (p, h') /\
    h !! p = None /\
    h' !! p = Some (Refbuf len 1 a None sync) /\
    refs_ok h' own' (ext_add p ext) /\
    owned h' own' p = 0%nat /\
    (forall q r l, h !! q = Some r -> chain h a l -> q ∉ l ->
       h' !! q = h !! q /\ owned h' own' q = owned h own q).
Proof.
  intros R (l & C & O). unfold refbuf_attach.
  destruct (addref_chain_ok l (size h) a h own ext R C) as (h1 & E & R1 & H1 & H2 & H3 & H4).
  { pose proof (chain_size _ _ _ C). lia. }
  rewrite E. unfold refbuf_new, upd_ptr. set (p := fresh (dom h1)).
  rewrite lookup_insert_eq, insert_insert_eq. cbn [rb_count].
  assert (h1 !! p = None) as Hp by apply fresh_dead.
  assert (h !! p = None) as Hp0.
  { apply not_elem_of_dom. rewrite <- H3. by apply not_elem_of_dom. }
  assert (chain h1 a l) as C1.
  { eapply chain_ext; [|exact C]. intros x r _ Hx. destruct (H4 x r Hx) as (t & ? & ? & _). eauto. }
  set (r := Refbuf len 1 a None sync).
  exists p, (<[p := r]> h1), (fupd p l own).
  split; [done|]. split; [done|]. split; [by rewrite lookup_insert_eq|].
  split; [by apply refs_ok_new|].
  assert (forall q, owned (<[p := r]> h1) (fupd p l own) q = (occ q l + owned h own q)%nat) as Eo.
  { intros q. rewrite <- H2. unfold owned. rewrite sum_dom_insert, fupd_eq by done. f_equal.
    by apply owned_fupd_dead. }
  split.
  - rewrite Eo, occ_not_in.
    + destruct (ro_dead _ _ _ R p Hp0). lia.
    + intros I. destruct (chain_lookup _ _ _ _ C1 I). congruence.
  - intros q s l' Hq C' N. rewrite (chain_unique _ _ _ _ C' C) in N.
    rewrite Eo, occ_not_in by done. split; [|done].
    rewrite lookup_insert_ne by congruence. by apply H1.
Qed.

(** ** Sound use of the buffers *)

(** The operations of the holders of references, with the table of the
    references held outside the heap. *)
Inductive heap_op :=
| OpNew (size : Z)
| OpAttach (size : Z) (sync : bool) (a : option ptr)
| OpAddref (p : ptr)
| OpRelease (p : ptr)
| OpLink (p : ptr) (n : option ptr).

Abbreviation hstate := (heap * (ptr -> nat))%type.

Definition heap_exec (op : heap_op) (s : hstate) : option hstate :=
  let '(h, ext) := s in
  match op with
  | OpNew size => let '(p, h') := refbuf_new size h in Some (h', ext_add p ext)
  | OpAttach size sync a =>
      match refbuf_attach size sync a h with
      | Some (p, h') => Some (h', ext_add p ext)
      | None => None
      end
  | OpAddref p =>
      match refbuf_addref p h with Some h' => Some (h', ext_add p ext) | None => None end
  | OpRelease p =>
      match refbuf_release (Some p) h with Some h' => Some (h', ext_del p ext) | None => None end
  | OpLink p n =>
      match upd_ptr p (set_next n) h with Some h' => Some (h', ext) | None => None end
  end.

(** [a] heads a list of live buffers without associated lists. *)
Definition leaf_list (h : heap) (a : option ptr) : Prop :=
  exists l, chain h a l /\
    forall x r, x ∈ l -> h !! x = Some r -> rb_assoc r = None.

(** The discipline of the callers: a buffer is referenced while it is live,
    released by a holder, and relinked only while it is in no associated
    list. *)
Definition heap_legal (op : heap_op) (s : hstate) : Prop :=
  let '(h, ext) := s in
  match op with
  | OpNew _ => True
  | OpAttach _ _ a => leaf_list h a
  | OpAddref p => is_Some (h !! p)
  | OpRelease p => (1 <= ext p)%nat
  | OpLink p _ =>
      is_Some (h !! p) /\
      forall q r l, h !! q = Some r -> chain h (rb_assoc r) l -> p ∉ l
  end.

Inductive heap_run : list heap_op -> hstate -> Prop :=
| run_start : heap_run [] (∅, fun _ => 0%nat)
| run_step ops op s s' :
    heap_run ops s -> heap_legal op s -> heap_exec op s = Some s' ->
    heap_run (ops ++ [op]) s'.

Lemma refs_ok_empty : refs_ok ∅ (fun _ => []) (fun _ => 0%nat).
Proof.
  split; intros p; intros; try by rewrite lookup_empty in *. done.
Qed.

Lemma leaf_list_attachable h own ext a :
  refs_ok h own ext -> leaf_list h a -> attachable h own a.
Proof.
  intros R (l & C & L). exists l. split; [done|]. intros x I.
  destruct (chain_lookup _ _ _ _ C I) as [r Hx].
  pose proof (ro_chain _ _ _ R x r Hx) as Cx. rewrite (L x r I Hx) in Cx. by inversion Cx.
Qed.

Lemma owned_zero h own p :
  (forall q r, h !! q = Some r -> p ∉ own q) -> owned h own p = 0%nat.
Proof.
  intros H. apply sum_list_with_0. intros q I%elem_of_elements%elem_of_dom.
  destruct I as [r Hq]. by eapply occ_not_in, H.
Qed.

Lemma heap_exec_ok op h own ext :
  refs_ok h own ext -> heap_legal op (h, ext) ->
  exists h' own' ext', heap_exec op (h, ext) = Some (h', ext') /\ refs_ok h' own' ext'.
Proof.
  intros R L. destruct op as [size|size sync a|p|p|p n]; cbn [heap_exec heap_legal] in *.
  - pose proof (fresh_dead h) as F. unfold refbuf_new. cbn zeta.
    revert F. generalize (fresh (dom h)) as p. intros p F.
    eexists _, (fupd p [] own), _. split; [done|].
    apply refs_ok_new; try done; [|constructor|by intros x []%not_elem_of_nil].
    eapply refs_ok_ext; [done| |exact R]. intros q. cbn. lia.
  - apply leaf_list_attachable with (1 := R) in L.
    destruct (refbuf_attach_ok size sync a h own ext R L) as (p & h' & own' & -> & _ & _ & R' & _).
    eauto 10.
  - destruct L as [r Hp]. destruct (refbuf_addref_ok h own ext p r R Hp) as [-> R']. eauto 10.
  - destruct (refbuf_release_ok h own ext p R L) as (h' & own' & -> & R' & _). eauto 10.
  - destruct L as [[r Hp] L]. unfold upd_ptr. rewrite Hp. eexists _, own, ext. split; [done|].
    destruct (ro_live _ _ _ R p r Hp).
    apply (refs_ok_update h own ext ext p r); cbn; try done; try lia. left.
    apply owned_zero. intros q s Hq. eapply L; [done|]. by eapply ro_chain.
Qed.

Lemma heap_run_ok ops s : heap_run ops s -> exists own, refs_ok (fst s) own (snd s).
Proof.
  induction 1 as [|ops op [h ext] s' _ [own R] L E]; [eauto using refs_ok_empty|].
  destruct (heap_exec_ok op h own ext R L) as (h' & own' & ext' & E' & R').
  rewrite E in E'. injection E' as ->. eauto.
Qed.

Lemma refs_ok_drained h own ext :
  refs_ok h own ext -> (forall p, ext p = 0%nat) -> h = ∅.
Proof.
  intros R Z. apply map_eq. intros p. rewrite lookup_empty.
  destruct (h !! p) as [r|] eqn:Hp; [|done]. exfalso.
  assert (forall q s, h !! q = Some s -> exists t, t ∈ elements (dom h) /\ q ∈ own t) as A.
  { intros q s Hq. destruct (ro_live _ _ _ R q s Hq) as [Lc Lp]. rewrite Z in Lc.
    destruct (decide (Exists (fun t => q ∈ own t) (elements (dom h)))) as [E|N].
    { by apply Exists_exists in E. }
    assert (owned h own q = 0)%nat; [|lia].
    apply sum_list_with_0. intros t I. apply occ_not_in. intros I'.
    apply N, Exists_exists. eauto. }
  destruct (A p r Hp) as (t & T%elem_of_elements%elem_of_dom & I). destruct T as [s Ht].
  destruct (A t s Ht) as (u & _ & I'). pose proof (ro_leaf _ _ _ R u t I') as E.
  rewrite E in I. by apply not_elem_of_nil in I.
Qed.


(** One header page, a stream buffer that carries it, and both given back. *)
Definition example_ops : list heap_op :=
  [OpNew 58; OpAttach 1400 true (Some 1%positive)].

Lemma example_run : heap_run example_ops
  (<[2%positive := Refbuf 1400 1 (Some 1%positive) None true]>
     {[1%positive := Refbuf 58 2 None None false]},
   ext_add 2%positive (ext_add 1%positive (fun _ => 0%nat))).
Proof.
  change example_ops with (([] ++ [OpNew 58]) ++ [OpAttach 1400 true (Some 1%positive)]).
  eapply run_step; [eapply run_step; [constructor|done|reflexivity]| |reflexivity].
  exists [1%positive]. split.
  - econstructor; [reflexivity|constructor|apply not_elem_of_nil].
  - intros x r ->%list_elem_of_singleton Hx. vm_compute in Hx. by simplify_eq.
Qed.

