(* ===== verification/Acl.v ===== *)
(** Access control: the policies of [acl.c], the command table of [admin.c]
    and the decision [admin_handle_request] takes with them.

    The method numbers and their names belong to the [common/httpp]
    submodule, which is not part of the repository: they are parameters of
    the model. *)

From S2P Require Import Prelude Convert Errors.
Local Open Scope Z_scope.

(** ** The admin commands *)

Inductive admintype := ADMINTYPE_ERROR | ADMINTYPE_GENERAL | ADMINTYPE_MOUNT | ADMINTYPE_HYBRID.
Inductive admin_format := RAW | TRANSFORMED | PLAINTEXT.

(** The functions of the table, by name. *)
Inductive request_function :=
| command_fallback | command_metadata | command_shoutcast_metadata | command_show_listeners
| command_stats | command_queue_reload | command_list_mounts | command_move_clients
| command_kill_client | command_kill_source | command_manageauth | command_updatemetadata
| command_buildm3u.

#[export] Instance request_function_eq_dec : EqDecision request_function.
Proof. solve_decision. Defined.
#[export] Instance admintype_eq_dec : EqDecision admintype.
Proof. solve_decision. Defined.
#[export] Instance admin_format_eq_dec : EqDecision admin_format.
Proof. solve_decision. Defined.

Record admin_command_handler := Handler {
  h_route : string;
  h_type : admintype;
  h_format : admin_format;
  h_function : option request_function
}.

Definition ADMIN_COMMAND_ERROR : Z := -1.
Definition ADMIN_COMMAND_ANY : Z := 0.

Definition handlers : list admin_command_handler := [
  Handler "*" ADMINTYPE_GENERAL TRANSFORMED None;
  Handler "fallbacks" ADMINTYPE_MOUNT RAW (Some command_fallback);
  Handler "fallbacks.xsl" ADMINTYPE_MOUNT TRANSFORMED (Some command_fallback);
  Handler "metadata" ADMINTYPE_MOUNT RAW (Some command_metadata);
  Handler "metadata.xsl" ADMINTYPE_MOUNT TRANSFORMED (Some command_metadata);
  Handler "admin.cgi" ADMINTYPE_MOUNT TRANSFORMED (Some command_shoutcast_metadata);
  Handler "listclients" ADMINTYPE_MOUNT RAW (Some command_show_listeners);
  Handler "listclients.xsl" ADMINTYPE_MOUNT TRANSFORMED (Some command_show_listeners);
  Handler "stats" ADMINTYPE_HYBRID RAW (Some command_stats);
  Handler "stats.xsl" ADMINTYPE_HYBRID TRANSFORMED (Some command_stats);
  Handler "stats.xml" ADMINTYPE_HYBRID RAW (Some command_stats);
  Handler "reloadconfig" ADMINTYPE_GENERAL RAW (Some command_queue_reload);
  Handler "reloadconfig.xsl" ADMINTYPE_GENERAL TRANSFORMED (Some command_queue_reload);
  Handler "listmounts" ADMINTYPE_GENERAL RAW (Some command_list_mounts);
  Handler "listmounts.xsl" ADMINTYPE_GENERAL TRANSFORMED (Some command_list_mounts);
  Handler "streamlist" ADMINTYPE_GENERAL RAW (Some command_list_mounts);
  Handler "streamlist.txt" ADMINTYPE_GENERAL PLAINTEXT (Some command_list_mounts);
  Handler "streamlist.xsl" ADMINTYPE_GENERAL TRANSFORMED (Some command_list_mounts);
  Handler "moveclients" ADMINTYPE_MOUNT RAW (Some command_move_clients);
  Handler "moveclients.xsl" ADMINTYPE_HYBRID TRANSFORMED (Some command_move_clients);
  Handler "killclient" ADMINTYPE_MOUNT RAW (Some command_kill_client);
  Handler "killclient.xsl" ADMINTYPE_MOUNT TRANSFORMED (Some command_kill_client);
  Handler "killsource" ADMINTYPE_MOUNT RAW (Some command_kill_source);
  Handler "killsource.xsl" ADMINTYPE_MOUNT TRANSFORMED (Some command_kill_source);
  Handler "manageauth" ADMINTYPE_GENERAL RAW (Some command_manageauth);
  Handler "manageauth.xsl" ADMINTYPE_GENERAL TRANSFORMED (Some command_manageauth);
  Handler "updatemetadata" ADMINTYPE_MOUNT RAW (Some command_updatemetadata);
  Handler "updatemetadata.xsl" ADMINTYPE_MOUNT TRANSFORMED (Some command_updatemetadata);
  Handler "buildm3u" ADMINTYPE_MOUNT RAW (Some command_buildm3u);
  Handler EmptyString ADMINTYPE_HYBRID TRANSFORMED (Some command_stats);
  Handler EmptyString ADMINTYPE_HYBRID TRANSFORMED (Some command_stats)
].

Fixpoint get_command_from (i : Z) (l : list admin_command_handler) (command : string) : Z :=
  match l with
  | [] => ADMIN_COMMAND_ERROR
  | h :: r => if streq (h_route h) command then i else get_command_from (i + 1) r command
  end.

Definition admin_get_command (command : string) : Z := get_command_from 0 handlers command.
Arguments admin_get_command : simpl never.

Definition admin_get_handler (command : Z) : option admin_command_handler :=
  if (0 <? command) && (command <? Z.of_nat (length handlers))
  then handlers !! Z.to_nat command else None.

Definition admin_get_command_type (command : Z) : admintype :=
  match admin_get_handler command with
  | Some h => h_type h
  | None => ADMINTYPE_ERROR
  end.

(** ** The policies *)

Inductive acl_policy := ACL_POLICY_ERROR | ACL_POLICY_ALLOW | ACL_POLICY_DENY.

#[export] Instance acl_policy_eq_dec : EqDecision acl_policy.
Proof. solve_decision. Defined.

Definition MAX_ADMIN_COMMANDS : nat := 32.

(** [acl_t]: [method] is the array indexed by method number, [admin] the used
    part of [admin_commands]. *)
Record acl := Acl {
  a_refcount : Z;
  a_method : list acl_policy;
  a_admin : list (Z * acl_policy);
  a_admin_policy : acl_policy;
  a_web : acl_policy;
  a_duration : Z;
  a_connections : Z
}.

Definition a_set_method (m : list acl_policy) (a : acl) : acl :=
  Acl (a_refcount a) m (a_admin a) (a_admin_policy a) (a_web a) (a_duration a) (a_connections a).
Definition a_set_admin (l : list (Z * acl_policy)) (a : acl) : acl :=
  Acl (a_refcount a) (a_method a) l (a_admin_policy a) (a_web a) (a_duration a) (a_connections a).
Definition a_set_admin_policy (p : acl_policy) (a : acl) : acl :=
  Acl (a_refcount a) (a_method a) (a_admin a) p (a_web a) (a_duration a) (a_connections a).
Definition a_set_web (p : acl_policy) (a : acl) : acl :=
  Acl (a_refcount a) (a_method a) (a_admin a) (a_admin_policy a) p (a_duration a) (a_connections a).
Definition a_set_duration (d : Z) (a : acl) : acl :=
  Acl (a_refcount a) (a_method a) (a_admin a) (a_admin_policy a) (a_web a) d (a_connections a).
Definition a_set_connections (n : Z) (a : acl) : acl :=
  Acl (a_refcount a) (a_method a) (a_admin a) (a_admin_policy a) (a_web a) (a_duration a) n.

Definition valid_policy (p : acl_policy) : bool :=
  match p with ACL_POLICY_ERROR => false | _ => true end.

Section acl.
(** The method numbers, of which [httpp_req_unknown] is the greatest and
    [httpp_req_none] the least, and the reader of method names. *)
Variables (httpp_req_none httpp_req_source httpp_req_put httpp_req_unknown : Z).
Variable httpp_str_to_method : string -> Z.

Definition method_count : nat := Z.to_nat (httpp_req_unknown + 1).

Definition acl_set_method_str__callback (a : acl) (policy : acl_policy) (str : string) : Z * acl :=
  if streq str "*" then (0, a_set_method (replicate (length (a_method a)) policy) a)
  else
    let method := httpp_str_to_method str in
    if method =? httpp_req_unknown then (-1, a)
    else (0, a_set_method (<[Z.to_nat method := policy]> (a_method a)) a).

Definition acl_test_method (a : option acl) (method : Z) : acl_policy :=
  match a with
  | None => ACL_POLICY_ERROR
  | Some a =>
      if (method <? httpp_req_none) || (httpp_req_unknown <? method) then ACL_POLICY_ERROR
      else default ACL_POLICY_ERROR (a_method a !! Z.to_nat method)
  end.

Definition acl_set_admin_str__callbck (a : acl) (policy : acl_policy) (str : string) : Z * acl :=
  let command := admin_get_command str in
  if command =? ADMIN_COMMAND_ERROR then (-1, a)
  else if command =? ADMIN_COMMAND_ANY then
    (0, a_set_admin (filter (fun e => e.2 <> policy) (a_admin a)) (a_set_admin_policy policy a))
  else if (length (a_admin a) =? MAX_ADMIN_COMMANDS)%nat then (-1, a)
  else (0, a_set_admin (a_admin a ++ [(command, policy)]) a).

Definition acl_test_admin (a : option acl) (command : Z) : acl_policy :=
  match a with
  | None => ACL_POLICY_ERROR
  | Some a =>
      match list_find (fun e => e.1 = command) (a_admin a) with
      | Some (_, e) => e.2
      | None => a_admin_policy a
      end
  end.

Definition skip_spaces (s : string) : string := snd (strspn (fun c => Ascii.eqb c " ") s).

(** The loop of [acl_set_ANY_str], one turn per item of the list. *)
Fixpoint set_any_loop (fuel : nat) (callback : acl -> acl_policy -> string -> Z * acl)
    (policy : acl_policy) (str : string) (a : acl) : option (Z * acl) :=
  match fuel with
  | O => None
  | S fuel' =>
      let str := skip_spaces str in
      let '(item, rest) :=
        match strchr "," str with
        | Some (item, r) => (item, Some r)
        | None => (str, None)
        end in
      if 63 <? strlen item then Some (-1, a)
      else
        let '(ret, a) := callback a policy item in
        if negb (ret =? 0) then Some (ret, a)
        else match rest with
             | Some r => set_any_loop fuel' callback policy r a
             | None => Some (0, a)
             end
  end.

Definition acl_set_ANY_str (callback : acl -> acl_policy -> string -> Z * acl)
    (policy : acl_policy) (str : option string) (a : acl) : option (Z * acl) :=
  match str with
  | None => Some (-1, a)
  | Some s =>
      if valid_policy policy then set_any_loop (S (String.length s)) callback policy s a
      else Some (-1, a)
  end.

Definition acl_set_method_str := acl_set_ANY_str acl_set_method_str__callback.
Definition acl_set_admin_str := acl_set_ANY_str acl_set_admin_str__callbck.

(** The callers ignore the result. *)
Definition acl_set_method_str_ policy str a : option acl :=
  '(_, a) ← acl_set_method_str policy (Some str) a; Some a.
Definition acl_set_admin_str_ policy str a : option acl :=
  '(_, a) ← acl_set_admin_str policy (Some str) a; Some a.

Definition acl_set_web_policy (policy : acl_policy) (a : acl) : Z * acl :=
  if valid_policy policy then (0, a_set_web policy a) else (-1, a).

Definition acl_test_web (a : option acl) : acl_policy :=
  match a with Some a => a_web a | None => ACL_POLICY_ERROR end.

Definition acl_set_max_connection_duration (d : Z) (a : acl) : acl := a_set_duration d a.
Definition acl_get_max_connection_duration (a : option acl) : Z :=
  match a with Some a => a_duration a | None => -1 end.
(** The limit is a [size_t], read back as a [ssize_t]. *)
Definition acl_set_max_connections_per_user (n : Z) (a : acl) : acl := a_set_connections (u64 n) a.
Definition acl_get_max_connections_per_user (a : option acl) : Z :=
  match a with Some a => i64 (a_connections a) | None => -1 end.

(** What [calloc] leaves: every policy is [ACL_POLICY_ALLOW]. *)
Definition acl_zero : acl :=
  Acl 1 (replicate method_count ACL_POLICY_ALLOW) [] ACL_POLICY_ALLOW ACL_POLICY_ALLOW 0 0.

Definition acl_new : option acl :=
  a ← acl_set_method_str_ ACL_POLICY_DENY "*" acl_zero;
  a ← acl_set_method_str_ ACL_POLICY_ALLOW "get" a;
  a ← acl_set_admin_str_ ACL_POLICY_DENY "*" a;
  a ← acl_set_admin_str_ ACL_POLICY_ALLOW "buildm3u" a;
  let a := snd (acl_set_web_policy ACL_POLICY_ALLOW a) in
  let a := acl_set_max_connection_duration (-1) a in
  Some (acl_set_max_connections_per_user 0 a).
(** *** From the configuration *)

Definition truthy (v : string) : bool := has_char "*" v || util_str_to_bool (Some v).

Definition set_all (policy : acl_policy) (a : acl) : option acl :=
  a ← acl_set_method_str_ policy "*" a;
  a ← acl_set_admin_str_ policy "*" a;
  Some (snd (acl_set_web_policy policy a)).

Definition unlimited (v : string) : bool := streq v "*" || streq v "unlimited".

(** One attribute, by its name and value. *)
Definition acl_attribute (name tmp : string) (a : acl) : option acl :=
  if streq name "allow-method" then acl_set_method_str_ ACL_POLICY_ALLOW tmp a
  else if streq name "deny-method" then acl_set_method_str_ ACL_POLICY_DENY tmp a
  else if streq name "allow-admin" then acl_set_admin_str_ ACL_POLICY_ALLOW tmp a
  else if streq name "deny-admin" then acl_set_admin_str_ ACL_POLICY_DENY tmp a
  else if streq name "allow-web" then
    Some (snd (acl_set_web_policy (if truthy tmp then ACL_POLICY_ALLOW else ACL_POLICY_DENY) a))
  else if streq name "deny-web" then
    Some (snd (acl_set_web_policy (if truthy tmp then ACL_POLICY_DENY else ACL_POLICY_ALLOW) a))
  else if streq name "allow-all" then
    set_all (if truthy tmp then ACL_POLICY_ALLOW else ACL_POLICY_DENY) a
  else if streq name "deny-all" then
    set_all (if truthy tmp then ACL_POLICY_DENY else ACL_POLICY_ALLOW) a
  else if streq name "connections-per-user" then
    Some (acl_set_max_connections_per_user (if unlimited tmp then 0 else atoi tmp) a)
  else if streq name "connection-duration" then
    Some (acl_set_max_connection_duration (if unlimited tmp then 0 else atoi tmp) a)
  else Some a.

(** The attributes of the node, in order. *)
Fixpoint acl_attributes (props : list (string * string)) (a : acl) : option acl :=
  match props with
  | [] => Some a
  | (name, tmp) :: r => a ← acl_attribute name tmp a; acl_attributes r a
  end.

Definition acl_new_from_xml_node (props : list (string * string)) : option acl :=
  a ← acl_new; acl_attributes props a.

(** ** Admin requests *)

(** An error by its number, or the handler that is called, its format and
    the mount it is called on. *)
Inductive admin_outcome :=
| AdminError (id : Z)
| AdminRun (f : request_function) (response : admin_format) (source : option string).

(** [running] tells whether a mount is in the source tree, and then whether
    it is running or on demand.  [None] is a null handler being called. *)
Definition admin_handle_request (running : string -> option bool) (a : option acl) (command : Z)
    (mount : option string) : option admin_outcome :=
  match admin_get_handler command with
  | None => Some (AdminError ICECAST_ERROR_ADMIN_UNRECOGNISED_COMMAND)
  | Some handler =>
      let allowed := bool_decide (acl_test_admin a command = ACL_POLICY_ALLOW) in
      let exception :=
        bool_decide (h_function handler = Some command_metadata) &&
        bool_decide (h_format handler = RAW) &&
        (bool_decide (acl_test_method a httpp_req_source = ACL_POLICY_ALLOW) ||
         bool_decide (acl_test_method a httpp_req_put = ACL_POLICY_ALLOW)) in
      if negb allowed && negb exception then
        Some (AdminError ICECAST_ERROR_GEN_CLIENT_NEEDS_TO_AUTHENTICATE)
      else
        let run source :=
          if bool_decide (h_type handler = ADMINTYPE_MOUNT) && bool_decide (source = None)
          then Some (AdminError ICECAST_ERROR_ADMIN_MISSING_PARAMETER)
          else f ← h_function handler; Some (AdminRun f (h_format handler) source) in
        match mount with
        | None => run None
        | Some m =>
            match running m with
            | None => Some (AdminError ICECAST_ERROR_ADMIN_SOURCE_DOES_NOT_EXIST)
            | Some false => Some (AdminError ICECAST_ERROR_ADMIN_SOURCE_IS_NOT_AVAILABLE)
            | Some true => run (Some m)
            end
        end
  end.

(** ** Lists of methods and commands *)

(** The effect of one item after the other, up to the first that fails. *)
Fixpoint set_items (callback : acl -> acl_policy -> string -> Z * acl) (policy : acl_policy)
    (items : list string) (a : acl) : Z * acl :=
  match items with
  | [] => (0, a)
  | x :: r =>
      let '(ret, a) := callback a policy x in
      if ret =? 0 then set_items callback policy r a else (ret, a)
  end.

Fixpoint spaces (n : nat) : string :=
  match n with O => EmptyString | S n' => String " " (spaces n') end.

(** Items with spaces before them, separated by commas. *)
Fixpoint join_items (l : list (nat * string)) : string :=
  match l with
  | [] => EmptyString
  | [(n, x)] => spaces n +:+ x
  | (n, x) :: r => spaces n +:+ x +:+ String "," (join_items r)
  end.

Definition item_ok (x : string) : Prop :=
  string_forall (fun c => negb (Ascii.eqb c ",")) x = true /\ skip_spaces x = x /\ strlen x <= 63.

Lemma skip_spaces_app n s : skip_spaces (spaces n +:+ s) = skip_spaces s.
Proof.
  induction n as [|n IH]; [done|]. cbn [spaces]. rewrite string_app_cons, <- IH.
  unfold skip_spaces. cbn [strspn Ascii.eqb]. by destruct (strspn _ (spaces n +:+ s)).
Qed.

Lemma skip_spaces_head x r : skip_spaces x = x -> skip_spaces (x +:+ String "," r) = x +:+ String "," r.
Proof.
  destruct x as [|c x]; [done|]. rewrite string_app_cons. unfold skip_spaces. cbn [strspn].
  destruct (Ascii.eqb c " "); [|done]. intros E. exfalso.
  assert (forall s, String.length (snd (strspn (fun c => Ascii.eqb c " ") s)) <= String.length s)%nat as K.
  { induction s as [|d s IH]; [done|]. cbn [strspn]. destruct (Ascii.eqb d " "); [|done].
    destruct (strspn _ s). cbn in *. lia. }
  specialize (K x). destruct (strspn _ x). cbn [snd] in *. rewrite E in K. cbn in K. lia.
Qed.

Lemma strchr_none c x : string_forall (fun d => negb (Ascii.eqb d c)) x = true -> strchr c x = None.
Proof.
  induction x as [|d x IH]; [done|]. cbn [string_forall strchr]. intros [E1 E2]%andb_true_iff.
  apply negb_true_iff in E1. by rewrite E1, IH.
Qed.

Lemma set_any_loop_items callback policy l fuel a :
  l <> [] -> (forall n x, (n, x) ∈ l -> item_ok x) -> (String.length (join_items l) < fuel)%nat ->
  set_any_loop fuel callback policy (join_items l) a = Some (set_items callback policy l.*2 a).
Proof.
  revert fuel a. induction l as [|[n x] l IH]; intros fuel a N K Hf; [done|].
  destruct fuel as [|fuel]; [lia|]. destruct (K n x ltac:(left)) as (K1 & K2 & K3).
  cbn [set_any_loop fmap list_fmap set_items snd].
  assert ((63 <? strlen x) = false) as El by by apply Z.ltb_ge.
  destruct l as [|[m y] l].
  - cbn [join_items] in *. rewrite skip_spaces_app, K2, strchr_none, El by done.
    destruct (callback a policy x) as [ret a']. cbn [set_items fmap list_fmap].
    by destruct (Z.eqb_spec ret 0) as [->|].
  - set (r := (m, y) :: l) in *. change (join_items ((n, x) :: r)) with
      (spaces n +:+ x +:+ String "," (join_items r)) in *.
    rewrite skip_spaces_app, skip_spaces_head, strchr_app, El by done.
    destruct (callback a policy x) as [ret a']. destruct (ret =? 0); [|done]. cbn [negb].
    apply IH; [done| |].
    + intros k z I. apply (K k). by right.
    + rewrite !string_length_app in Hf. cbn [String.length] in Hf. lia.
Qed.

(** The loop always comes to an end. *)
Lemma skip_spaces_length s : (String.length (skip_spaces s) <= String.length s)%nat.
Proof.
  unfold skip_spaces. induction s as [|d s IH]; [done|]. cbn [strspn]. destruct (Ascii.eqb d " "); [|done].
  destruct (strspn _ s). cbn in *. lia.
Qed.

(** ** Well-formed lists *)

(** The methods the reader knows are indices of the array. *)
Definition methods_in_range : Prop :=
  0 <= httpp_req_none <= httpp_req_unknown /\
  forall s, httpp_req_none <= httpp_str_to_method s <= httpp_req_unknown.

Record acl_ok (a : acl) : Prop := {
  ao_method : length (a_method a) = method_count;
  ao_policies : Forall (fun p => p <> ACL_POLICY_ERROR) (a_method a);
  ao_admin : (length (a_admin a) <= MAX_ADMIN_COMMANDS)%nat;
  ao_commands : Forall (fun e => 0 < e.1 < Z.of_nat (length handlers) /\ e.2 <> ACL_POLICY_ERROR) (a_admin a);
  ao_default : a_admin_policy a <> ACL_POLICY_ERROR;
  ao_web : a_web a <> ACL_POLICY_ERROR
}.

Lemma get_command_range command :
  let c := admin_get_command command in c = ADMIN_COMMAND_ERROR \/ 0 <= c < Z.of_nat (length handlers).
Proof.
  unfold admin_get_command, ADMIN_COMMAND_ERROR.
  assert (forall l i, let c := get_command_from i l command in
    c = -1 \/ i <= c < i + Z.of_nat (length l)) as K.
  { induction l as [|h l IH]; intros i; cbn [get_command_from]; [by left|].
    destruct (streq (h_route h) command); [right; cbn [length]; lia|].
    specialize (IH (i + 1)). cbn [length]. cbv zeta in *. lia. }
  apply (K handlers 0).
Qed.

Lemma callback_method_ok policy s a :
  valid_policy policy = true -> acl_ok a -> acl_ok (snd (acl_set_method_str__callback a policy s)).
Proof.
  intros V [M P A C D W]. assert (policy <> ACL_POLICY_ERROR) as V' by by destruct policy.
  unfold acl_set_method_str__callback. destruct (streq s "*"); [|case_match]; cbn; split; cbn; try done.
  - by rewrite length_replicate.
  - by apply Forall_replicate.
  - by rewrite length_insert.
  - by apply Forall_insert.
Qed.

Lemma callback_admin_ok policy s a :
  valid_policy policy = true -> acl_ok a -> acl_ok (snd (acl_set_admin_str__callbck a policy s)).
Proof.
  intros V [M P A C D W]. assert (policy <> ACL_POLICY_ERROR) as V' by by destruct policy.
  unfold acl_set_admin_str__callbck. pose proof (get_command_range s) as R. cbv zeta in R |- *.
  revert R. generalize (admin_get_command s) as c. intros c R. destruct (Z.eqb_spec c ADMIN_COMMAND_ERROR) as [|N1]; [done|].
  destruct (Z.eqb_spec c ADMIN_COMMAND_ANY) as [|N2].
  - split; cbn; try done.
    + etrans; [apply length_filter|done].
    + apply Forall_forall. intros x [_ I]%list_elem_of_filter. by eapply Forall_forall in C.
  - destruct (Nat.eqb_spec (length (a_admin a)) MAX_ADMIN_COMMANDS) as [|N3]; [done|].
    split; cbn; try done.
    + rewrite length_app. cbn. lia.
    + apply Forall_app. split; [done|]. constructor; [|constructor]. cbn [fst snd].
      unfold ADMIN_COMMAND_ANY in N2. split; [|done].
      change (length handlers) with 31%nat in *. destruct R as [?|?]; [done|lia].
Qed.

Lemma set_any_ok (callback : acl -> acl_policy -> string -> Z * acl) policy str a :
  (forall a s, acl_ok a -> acl_ok (snd (callback a policy s))) -> acl_ok a ->
  exists ret a', acl_set_ANY_str callback policy str a = Some (ret, a') /\ acl_ok a'.
Proof.
  intros K. unfold acl_set_ANY_str. destruct str as [s|]; [|by eexists _, _].
  destruct (valid_policy policy); [|by eexists _, _].
  assert (String.length s < S (String.length s))%nat as Hf by lia. revert Hf.
  generalize (S (String.length s)) as fuel. intros fuel. revert s a.
  induction fuel as [|fuel IH]; intros s a Hf Ha; [lia|]. cbn [set_any_loop].
  pose proof (skip_spaces_length s) as Hs. destruct (strchr "," (skip_spaces s)) as [[x r]|] eqn:E.
  - apply strchr_inv in E as [E _]. rewrite E, string_length_app in Hs. cbn [String.length] in Hs.
    destruct (63 <? strlen x); [by eexists _, _|]. specialize (K a x Ha) as K'.
    destruct (callback a policy x) as [ret a']. cbn [snd] in K'.
    destruct (negb (ret =? 0)); [by eexists _, _|]. apply IH; [lia|done].
  - destruct (63 <? strlen _); [by eexists _, _|]. specialize (K a (skip_spaces s) Ha) as K'.
    destruct (callback a policy _) as [ret a']. cbn [snd] in K'.
    destruct (negb (ret =? 0)); by eexists _, _.
Qed.
Lemma set_method_ok policy str a :
  acl_ok a -> exists a', acl_set_method_str_ policy str a = Some a' /\ acl_ok a'.
Proof.
  intros Ha. unfold acl_set_method_str_, acl_set_method_str.
  destruct (valid_policy policy) eqn:V.
  - destruct (set_any_ok acl_set_method_str__callback policy (Some str) a) as (ret & a' & -> & Ha'); [|done|].
    + intros b s Hb. by apply callback_method_ok.
    + by exists a'.
  - unfold acl_set_ANY_str. rewrite V. by exists a.
Qed.

Lemma set_admin_ok policy str a :
  acl_ok a -> exists a', acl_set_admin_str_ policy str a = Some a' /\ acl_ok a'.
Proof.
  intros Ha. unfold acl_set_admin_str_, acl_set_admin_str.
  destruct (valid_policy policy) eqn:V.
  - destruct (set_any_ok acl_set_admin_str__callbck policy (Some str) a) as (ret & a' & -> & Ha'); [|done|].
    + intros b s Hb. by apply callback_admin_ok.
    + by exists a'.
  - unfold acl_set_ANY_str. rewrite V. by exists a.
Qed.

Lemma set_web_ok policy a : acl_ok a -> acl_ok (snd (acl_set_web_policy policy a)).
Proof. intros []. destruct policy; by split. Qed.

Lemma acl_zero_ok : acl_ok acl_zero.
Proof.
  split; cbn; first [done | by rewrite length_replicate | by apply Forall_replicate | lia | idtac].
Qed.

Lemma acl_new_ok : exists a, acl_new = Some a /\ acl_ok a.
Proof.
  unfold acl_new.
  destruct (set_method_ok ACL_POLICY_DENY "*" _ acl_zero_ok) as (a1 & -> & H1). run_bind.
  destruct (set_method_ok ACL_POLICY_ALLOW "get" _ H1) as (a2 & -> & H2). run_bind.
  destruct (set_admin_ok ACL_POLICY_DENY "*" _ H2) as (a3 & -> & H3). run_bind.
  destruct (set_admin_ok ACL_POLICY_ALLOW "buildm3u" _ H3) as (a4 & -> & H4). run_bind.
  eexists. split; [done|]. by apply (set_web_ok ACL_POLICY_ALLOW) in H4 as [].
Qed.

Lemma set_all_ok policy a : acl_ok a -> exists a', set_all policy a = Some a' /\ acl_ok a'.
Proof.
  intros Ha. unfold set_all.
  destruct (set_method_ok policy "*" _ Ha) as (a1 & -> & H1). run_bind.
  destruct (set_admin_ok policy "*" _ H1) as (a2 & -> & H2). run_bind.
  eexists. split; [done|]. by apply set_web_ok.
Qed.

Lemma acl_attribute_ok name tmp a : acl_ok a -> exists a', acl_attribute name tmp a = Some a' /\ acl_ok a'.
Proof.
  intros Ha. unfold acl_attribute.
  repeat (case_match; [solve [by apply set_method_ok | by apply set_admin_ok | by apply set_all_ok
    | eexists; split; [done|by apply set_web_ok] | eexists; split; [done|]; by destruct Ha]|]).
  by exists a.
Qed.

Lemma acl_attributes_ok props a : acl_ok a -> exists a', acl_attributes props a = Some a' /\ acl_ok a'.
Proof.
  revert a. induction props as [|[n v] props IH]; intros a Ha; [by exists a|].
  cbn [acl_attributes]. destruct (acl_attribute_ok n v a Ha) as (a1 & -> & H1). run_bind. by apply IH.
Qed.

(** ** Looking up *)

Lemma test_method_ok a m :
  methods_in_range -> acl_ok a -> httpp_req_none <= m <= httpp_req_unknown ->
  acl_test_method (Some a) m <> ACL_POLICY_ERROR.
Proof.
  intros [R _] [M P _ _ _ _] Hm. cbn [acl_test_method].
  replace ((m <? httpp_req_none) || (httpp_req_unknown <? m)) with false by (symmetry; lia).
  destruct (lookup_lt_is_Some_2 (a_method a) (Z.to_nat m)) as [p Ep].
  { rewrite M. unfold method_count. lia. }
  rewrite Ep. cbn. by eapply Forall_lookup_1 in P.
Qed.

Lemma test_admin_ok a c : acl_ok a -> acl_test_admin (Some a) c <> ACL_POLICY_ERROR.
Proof.
  intros [_ _ _ C D _]. cbn [acl_test_admin].
  destruct (list_find _ (a_admin a)) as [[i e]|] eqn:E; [|done].
  apply list_find_Some in E as (E & _). eapply Forall_lookup_1 in C; [|exact E]. apply C.
Qed.

(** ** The order of admin entries *)

(** The list starts with the entry that allows [buildm3u]. *)
Definition buildm3u_first (a : acl) : Prop :=
  exists l, a_admin a = (admin_get_command "buildm3u", ACL_POLICY_ALLOW) :: l.

Lemma callback_buildm3u s a :
  buildm3u_first a -> buildm3u_first (snd (acl_set_admin_str__callbck a ACL_POLICY_DENY s)).
Proof.
  intros [l E]. unfold acl_set_admin_str__callbck.
  repeat case_match; cbn [snd a_admin a_set_admin]; try by exists l.
  - unfold buildm3u_first. cbn. rewrite E, filter_cons_True by done. by eexists.
  - unfold buildm3u_first. cbn. rewrite E. by eexists.
Qed.

Lemma set_any_inv (P : acl -> Prop) callback policy str a ret a' :
  (forall a s, P a -> P (snd (callback a policy s))) -> P a ->
  acl_set_ANY_str callback policy str a = Some (ret, a') -> P a'.
Proof.
  intros K Ha. unfold acl_set_ANY_str. destruct str as [s|]; [|by intros [= _ <-]].
  destruct (valid_policy policy); [|by intros [= _ <-]].
  generalize (S (String.length s)) as fuel. intros fuel. revert s a Ha.
  induction fuel as [|fuel IH]; intros s a Ha; [done|]. cbn [set_any_loop].
  destruct (strchr "," (skip_spaces s)) as [[x r]|];
    (destruct (63 <? strlen _); [by intros [= _ <-]|]);
    match goal with |- context [callback a policy ?y] => specialize (K a y Ha) as K' end;
    destruct (callback a policy _) as [rt b]; cbn [snd] in K';
    (destruct (negb (rt =? 0)); [by intros [= _ <-]|]).
  - by apply IH.
  - by intros [= _ <-].
Qed.

Lemma set_admin_buildm3u s a a' :
  buildm3u_first a -> acl_set_admin_str_ ACL_POLICY_DENY s a = Some a' -> buildm3u_first a'.
Proof.
  intros H. unfold acl_set_admin_str_, acl_set_admin_str.
  destruct (acl_set_ANY_str _ _ _ a) as [[ret b]|] eqn:E; [|done]. run_bind. intros [= <-].
  by eapply (set_any_inv buildm3u_first) in E; [| |done]; [|intros; apply callback_buildm3u].
Qed.

Lemma set_method_admin policy s a a' :
  acl_set_method_str_ policy s a = Some a' -> a_admin a' = a_admin a.
Proof.
  unfold acl_set_method_str_, acl_set_method_str.
  destruct (acl_set_ANY_str _ _ _ a) as [[ret b]|] eqn:E; [|done]. run_bind. intros [= <-].
  eapply (set_any_inv (fun b => a_admin b = a_admin a)) in E; [done| |done].
  intros y x Hb. unfold acl_set_method_str__callback. by repeat case_match.
Qed.

Lemma acl_new_buildm3u a : acl_new = Some a -> buildm3u_first a.
Proof.
  unfold acl_new. destruct (set_method_ok ACL_POLICY_DENY "*" _ acl_zero_ok) as (a1 & E1 & H1).
  rewrite E1. run_bind. destruct (set_method_ok ACL_POLICY_ALLOW "get" _ H1) as (a2 & E2 & H2).
  rewrite E2. run_bind. intros E. apply set_method_admin in E1, E2. rewrite E1 in E2.
  change (a_admin acl_zero) with (@nil (Z * acl_policy)) in E2. clear - E2 E.
  destruct a2 as [r m l p w d c]. cbn in E2. subst l. vm_compute in E. injection E as <-. by eexists.
Qed.

(** ** Theorems *)

(** A list of methods or of commands is read as its items, spaces before
    them apart: the items take effect from left to right up to the first that
    is not known. *)
Theorem acl_list_items callback policy l a :
  valid_policy policy = true -> l <> [] -> (forall n x, (n, x) ∈ l -> item_ok x) ->
  acl_set_ANY_str callback policy (Some (join_items l)) a = Some (set_items callback policy l.*2 a).
Proof.
  intros V N K. unfold acl_set_ANY_str. rewrite V. apply set_any_loop_items; [done|done|lia].
Qed.

(** C5: Whatever its attributes, a list read from the configuration answers every
    known method, every command and the web interface with a policy, and the
    array of commands is not overrun. *)
Theorem acl_from_xml_total props :
  methods_in_range ->
  exists a, acl_new_from_xml_node props = Some a /\
    (forall m, httpp_req_none <= m <= httpp_req_unknown -> acl_test_method (Some a) m <> ACL_POLICY_ERROR) /\
    (forall c, acl_test_admin (Some a) c <> ACL_POLICY_ERROR) /\
    acl_test_web (Some a) <> ACL_POLICY_ERROR /\
    (length (a_admin a) <= MAX_ADMIN_COMMANDS)%nat /\ length (a_method a) = method_count.
Proof.
  intros R. unfold acl_new_from_xml_node. destruct acl_new_ok as (a0 & -> & H0). run_bind.
  destruct (acl_attributes_ok props a0 H0) as (a & -> & Ha). exists a. split_and!; [done|..].
  - intros m. by apply test_method_ok.
  - intros c. by apply test_admin_ok.
  - apply Ha.
  - apply Ha.
  - apply Ha.
Qed.

(** An attribute [deny-admin] cannot withdraw what every list starts with,
    the right to use [buildm3u]: of the entries for a command the first
    decides, while of the items for a method the last does. *)
Theorem deny_admin_keeps_buildm3u v :
  exists a, acl_new_from_xml_node [("deny-admin", v)] = Some a /\
    acl_test_admin (Some a) (admin_get_command "buildm3u") = ACL_POLICY_ALLOW.
Proof.
  unfold acl_new_from_xml_node. destruct acl_new_ok as (a0 & E0 & H0). rewrite E0. run_bind.
  apply acl_new_buildm3u in E0. destruct (set_admin_ok ACL_POLICY_DENY v a0 H0) as (a & E & _).
  exists a. split.
  - cbn [acl_attributes]. change (acl_attribute "deny-admin" v a0) with (acl_set_admin_str_ ACL_POLICY_DENY v a0).
    rewrite E. by run_bind.
  - apply set_admin_buildm3u in E; [|done]. destruct E as [l E]. cbn [acl_test_admin]. by rewrite E.
Qed.

(** What a request that is answered by an error may be told. *)
Definition admin_errors : list Z := [
  ICECAST_ERROR_ADMIN_UNRECOGNISED_COMMAND; ICECAST_ERROR_GEN_CLIENT_NEEDS_TO_AUTHENTICATE;
  ICECAST_ERROR_ADMIN_MISSING_PARAMETER; ICECAST_ERROR_ADMIN_SOURCE_DOES_NOT_EXIST;
  ICECAST_ERROR_ADMIN_SOURCE_IS_NOT_AVAILABLE].

Lemma admin_handler_function command h :
  admin_get_handler command = Some h -> exists f, h_function h = Some f.
Proof.
  unfold admin_get_handler. destruct (0 <? command) eqn:E1; [|done].
  destruct (command <? Z.of_nat (length handlers)) eqn:E2; [|done]. cbn [andb]. intros E.
  assert (forallb (fun h => bool_decide (h_function h <> None)) (drop 1 handlers) = true) as K
    by (vm_compute; reflexivity).
  rewrite forallb_forall in K.
  assert (In h (drop 1 handlers)) as I.
  { apply list_elem_of_In, (list_elem_of_lookup_2 _ (Z.to_nat command - 1)).
    rewrite lookup_drop, <- E. f_equal. lia. }
  specialize (K _ I). apply bool_decide_eq_true in K. destruct (h_function h) as [f|]; [by exists f|done].
Qed.

(** Every admin request is answered: with one of five errors, each in the
    table, or by the handler of a known command.  A handler runs only for a
    client whose list allows the command, or allows [SOURCE] or [PUT] when it
    is the raw metadata update; it gets the source of the mount named, one
    that runs or is on demand, and a mount command always gets one. *)
Theorem admin_request_authorized running a command mount :
  exists o, admin_handle_request running a command mount = Some o /\
  match o with
  | AdminError id => id ∈ admin_errors /\ exists e, error_get_by_id id = Some e
  | AdminRun f fmt source =>
      exists h, admin_get_handler command = Some h /\ h_function h = Some f /\ h_format h = fmt /\
        source = mount /\ (forall m, mount = Some m -> running m = Some true) /\
        (h_type h = ADMINTYPE_MOUNT -> mount <> None) /\
        (acl_test_admin a command = ACL_POLICY_ALLOW \/
         (f = command_metadata /\ fmt = RAW /\
          (acl_test_method a httpp_req_source = ACL_POLICY_ALLOW \/
           acl_test_method a httpp_req_put = ACL_POLICY_ALLOW)))
  end.
Proof.
  assert (forall id, id ∈ admin_errors -> id ∈ admin_errors /\ exists e, error_get_by_id id = Some e) as KE.
  { intros id I. split; [done|]. revert I. unfold admin_errors.
    rewrite !elem_of_cons, elem_of_nil.
    intros [->|[->|[->|[->|[->|[]]]]]]; vm_compute; by eexists. }
  unfold admin_handle_request. destruct (admin_get_handler command) as [h|] eqn:Eh.
  2: { eexists. split; [done|]. apply KE. vm_compute. by left. }
  destruct (admin_handler_function _ _ Eh) as [f Ef]. cbv zeta. rewrite !Ef.
  match goal with |- context [negb ?x && negb ?y] => destruct (negb x && negb y) eqn:EA end.
  { eexists. split; [done|]. apply KE. by right; left. }
  apply andb_false_iff in EA. rewrite !negb_false_iff, !andb_true_iff, orb_true_iff, !bool_decide_eq_true in EA.
  assert (acl_test_admin a command = ACL_POLICY_ALLOW \/
         (f = command_metadata /\ h_format h = RAW /\
          (acl_test_method a httpp_req_source = ACL_POLICY_ALLOW \/
           acl_test_method a httpp_req_put = ACL_POLICY_ALLOW))) as EA'.
  { destruct EA as [?|[[[= E1] E2] E3]]; [by left|by right]. }
  clear EA. destruct mount as [m|].
  - destruct (running m) as [[|]|] eqn:Er.
    + rewrite (bool_decide_eq_false_2 (Some m = None)), andb_false_r by done.
      eexists. split; [done|]. exists h. split_and!; try done. by intros m' [= <-].
    + eexists. split; [done|]. apply KE. by do 4 right; left.
    + eexists. split; [done|]. apply KE. by do 3 right; left.
  - destruct (bool_decide_reflect (h_type h = ADMINTYPE_MOUNT)) as [Et|Et].
    + eexists. split; [done|]. apply KE. by do 2 right; left.
    + eexists. split; [done|]. exists h. by split_and!.
Qed.

(** The styled variant of a mount command can run without a mount: its
    handler then reads the mount name of no source. *)
Lemma moveclients_without_mount running a :
  acl_test_admin a (admin_get_command "moveclients.xsl") = ACL_POLICY_ALLOW ->
  admin_handle_request running a (admin_get_command "moveclients.xsl") None =
    Some (AdminRun command_move_clients TRANSFORMED None).
Proof.
  intros E. unfold admin_handle_request. change (admin_get_handler _) with
    (Some (Handler "moveclients.xsl" ADMINTYPE_HYBRID TRANSFORMED (Some command_move_clients))).
  cbv iota beta zeta. by rewrite E.
Qed.
End acl.

(** ** Witnesses *)

(** A method table: none is 0, get 3, source 4, put 5, unknown the last. *)
Definition demo_method (s : string) : Z :=
  if streq s "get" then 3 else if streq s "source" then 4 else if streq s "put" then 5 else 9.

Example acl_list_items_witness :
  (valid_policy ACL_POLICY_ALLOW = true /\
   (forall n x, (n, x) ∈ [(0%nat, "get"); (2%nat, "put"); (0%nat, "nosuch")] -> item_ok x)) /\
  acl_set_ANY_str (acl_set_method_str__callback 9 demo_method) ACL_POLICY_ALLOW
    (Some "get,  put,nosuch") (acl_zero 9) =
    Some (set_items (acl_set_method_str__callback 9 demo_method) ACL_POLICY_ALLOW
      ["get"; "put"; "nosuch"] (acl_zero 9)).
Proof.
  assert (forall n x, (n, x) ∈ [(0%nat, "get"); (2%nat, "put"); (0%nat, "nosuch")] -> item_ok x) as K.
  { intros n x. rewrite !elem_of_cons, elem_of_nil.
    by intros [[= _ ->]|[[= _ ->]|[[= _ ->]|[]]]]. }
  split; [by split|].
  apply (acl_list_items _ ACL_POLICY_ALLOW [(0%nat, "get"); (2%nat, "put"); (0%nat, "nosuch")] _);
    [reflexivity|discriminate|exact K].
Defined.

Lemma demo_methods_in_range : methods_in_range 0 9 demo_method.
Proof.
  split; [lia|]. intros s. unfold demo_method. repeat case_match; lia.
Qed.

Example acl_from_xml_total_witness :
  methods_in_range 0 9 demo_method /\
  exists a, acl_new_from_xml_node 9 demo_method [("deny-all", "*"); ("allow-method", "get,put")] = Some a /\
    (forall m, 0 <= m <= 9 -> acl_test_method 0 9 (Some a) m <> ACL_POLICY_ERROR) /\
    (forall c, acl_test_admin (Some a) c <> ACL_POLICY_ERROR) /\
    acl_test_web (Some a) <> ACL_POLICY_ERROR /\
    (length (a_admin a) <= MAX_ADMIN_COMMANDS)%nat /\ length (a_method a) = method_count 9.
Proof.
  split; [exact demo_methods_in_range|].
  apply (acl_from_xml_total 0 9 demo_method [("deny-all", "*"); ("allow-method", "get,put")]).
  exact demo_methods_in_range.
Defined.
