(* ===== verification/Http.v ===== *)
(** The header of an answer, as [util_http_build_header] of [util.c] writes it
    into a buffer.

    The text [strftime] makes of the date is an argument, as are the
    additional headers of the configuration and of the source's mount. *)

From S2P Require Import Prelude Convert.
Local Open Scope Z_scope.

(** [ice_config_http_header_t]. *)
Record http_header := HttpHeader {
  hh_name : option string;
  hh_value : option string;
  hh_status : Z
}.

(** [_build_headers_loop] for a list of headers. *)
Fixpoint build_headers_loop (ret : string) (headers : list http_header) (status : Z) : string :=
  match headers with
  | [] => ret
  | h :: r =>
      if negb (hh_status h =? 0) && negb (hh_status h =? status) then build_headers_loop ret r status
      else
        match hh_name h, hh_value h with
        | Some n, Some v => build_headers_loop (ret +:+ n +:+ ": " +:+ v +:+ crlf)%string r status
        | _, _ => build_headers_loop ret r status
        end
  end.

(** [_build_headers]: those of the server, then those of the mount of the
    source, where there is one. *)
Definition build_headers (status : Z) (config : list http_header) (mount : option (list http_header)) : string :=
  let ret := build_headers_loop EmptyString config status in
  match mount with Some l => build_headers_loop ret l status | None => ret end.

Inductive reuse := REUSE_CLOSE | REUSE_KEEPALIVE | REUSE_UPGRADETLS.

(** What matters of the client. *)
Record http_client := HttpClient {
  hc_tls : bool;                (** its [tlsmode] is not [DISABLED] *)
  hc_reuse : reuse;
  hc_admin_command : Z
}.

Definition connection_header (c : option http_client) : string :=
  match c with
  | Some c => match hc_reuse c with REUSE_CLOSE => "Close" | REUSE_KEEPALIVE => "Keep-Alive" | REUSE_UPGRADETLS => "Upgrade" end
  | None => "Close"
  end.

Definition upgrade_header (c : option http_client) : string :=
  match c with
  | Some c =>
      match hc_reuse c with
      | REUSE_UPGRADETLS => EmptyString
      | _ => if hc_tls c then "Upgrade: TLS/1.0" +:+ crlf else EmptyString
      end
  | None => EmptyString
  end%string.

(** The message of a status, and the version of HTTP it goes with. *)
Definition status_message (status : Z) : string * string :=
  if status =? 100 then ("Continue", "1.1")
  else if status =? 101 then ("Switching Protocols", "1.1")
  else if status =? 200 then ("OK", "1.0")
  else if status =? 206 then ("Partial Content", "1.1")
  else if status =? 400 then ("Bad Request", "1.0")
  else if status =? 401 then ("Authentication Required", "1.0")
  else if status =? 403 then ("Forbidden", "1.0")
  else if status =? 404 then ("File Not Found", "1.0")
  else if status =? 405 then ("Method Not Allowed", "1.0")
  else if status =? 409 then ("Conflict", "1.0")
  else if status =? 415 then ("Unsupported Media Type", "1.0")
  else if status =? 416 then ("Request Range Not Satisfiable", "1.0")
  else if status =? 426 then ("Upgrade Required", "1.1")
  else if status =? 429 then ("Too Many Requests", "1.0")
  else if status =? 501 then ("Unimplemented", "1.0")
  else if status =? 503 then ("Service Unavailable", "1.0")
  else ("(unknown status code)", "1.0").

(** The first line, and the one with the type. *)
Definition status_line (status : Z) (statusmsg : option string) : string :=
  let '(msg, version) := match statusmsg with Some m => (m, "1.0"%string) | None => status_message status end in
  ("HTTP/" +:+ version +:+ " " +:+ dec status +:+ " " +:+ msg)%string.

Definition contenttype_line (contenttype : string) (charset : option string) : string :=
  match charset with
  | Some c => "Content-Type: " +:+ contenttype +:+ "; charset=" +:+ c
  | None => "Content-Type: " +:+ contenttype
  end%string.

(** The buffers of eighty bytes for the first line and for the type. *)
Definition status_buffer (status : Z) (statusmsg : option string) : string :=
  if status =? -1 then EmptyString else fst (snprintf 80 (status_line status statusmsg +:+ crlf)).
Definition contenttype_buffer (contenttype charset : option string) : string :=
  match contenttype with
  | Some t => fst (snprintf 80 (contenttype_line t charset +:+ crlf))
  | None => EmptyString
  end.

Definition quote : string := String (chr 34) EmptyString.

Definition authenticate_header (status : Z) : string :=
  if status =? 401 then ("WWW-Authenticate: Basic realm=" +:+ quote +:+ "Icecast2 Server" +:+ quote +:+ crlf)%string else EmptyString.

Definition cache_headers (cache : bool) : string :=
  if cache then EmptyString
  else ("Cache-Control: no-cache" +:+ crlf +:+ "Expires: Mon, 26 Jul 1997 05:00:00 GMT" +:+ crlf +:+ "Pragma: no-cache" +:+ crlf)%string.

(** What the server adds of its own. *)
Record http_context := HttpContext {
  hx_server_id : string;
  hx_date : string;               (** what [strftime] makes of the time *)
  hx_headers : list http_header;
  hx_mount : option (list http_header)
}.

Definition header_text (x : http_context) (cache : bool) (status : Z) (statusmsg contenttype charset datablock : option string)
    (client : option http_client) : string :=
  (status_buffer status statusmsg +:+
   "Server: " +:+ hx_server_id x +:+ crlf +:+
   "Connection: " +:+ connection_header client +:+ crlf +:+
   "Accept-Encoding: identity" +:+ crlf +:+
   "Allow: " +:+ (match client with
                  | Some c => if (hc_admin_command c =? -1)%Z then "GET, SOURCE" else "GET"
                  | None => "GET"
                  end) +:+ crlf +:+
   upgrade_header client +:+ hx_date x +:+ contenttype_buffer contenttype charset +:+ authenticate_header status +:+
   cache_headers cache +:+ build_headers status (hx_headers x) (hx_mount x) +:+
   match datablock with Some d => crlf +:+ d | None => EmptyString end)%string.

(** [util_http_build_header] into a buffer of [len] bytes with text in it:
    the buffer's text after it and the number of bytes the header has. *)
Definition util_http_build_header (out : string) (len : Z) (offset : Z) (x : http_context) (cache : bool) (status : Z)
    (statusmsg contenttype charset datablock : option string) (client : option http_client) : string * Z :=
  let offset := if offset =? -1 then strlen out else offset in
  let '(text, n) := snprintf (Z.to_nat (len - offset)) (header_text x cache status statusmsg contenttype charset datablock client) in
  (string_take (Z.to_nat offset) out +:+ text, n).

(** The length of a body and the body behind a header of [ret] bytes, in a
    buffer of [full_len] bytes. *)
Definition print_body (full_len : Z) (head : string) (ret : Z) (body : string) : string :=
  (head +:+ fst (snprintf (Z.to_nat (full_len - ret)) ("Content-Length: " +:+ dec (strlen body) +:+ crlf +:+ crlf +:+ body)))%string.

(** With 64 bytes more than the header and the body need, both are whole. *)
Lemma print_body_whole full_len header body :
  strlen body < 2 ^ 31 -> strlen header + strlen body + 64 <= full_len ->
  let text := print_body full_len (fst (snprintf (Z.to_nat full_len) header)) (strlen header) body in
  text = (header +:+ "Content-Length: " +:+ dec (strlen body) +:+ crlf +:+ crlf +:+ body)%string /\ strlen text < full_len.
Proof.
  intros B M text. assert (0 <= strlen body) as P by (unfold strlen; lia).
  pose proof (dec_length (strlen body) ltac:(lia)) as D. subst text. unfold print_body, snprintf. cbn [fst].
  set (tail := ("Content-Length: " +:+ _)%string).
  assert (strlen tail <= strlen body + 40) as T.
  { subst tail. unfold strlen in *. rewrite !string_length_app. change (String.length "Content-Length: ") with 16%nat.
    change (String.length crlf) with 2%nat. lia. }
  rewrite (string_take_all (Z.to_nat full_len - 1) header) by (unfold strlen in *; lia).
  rewrite string_take_all by (unfold strlen in *; lia).
  split; [done|]. unfold strlen in *. rewrite string_length_app. lia.
Qed.

(** ** Reading a header back *)

(** The lines of a text, each up to a carriage return and a newline, and what
    is left without one. *)
Fixpoint crlf_lines (fuel : nat) (s : string) : list string * string :=
  match fuel with
  | O => ([], s)
  | S fuel' =>
      match strchr (chr 13) s with
      | Some (l, String c r) =>
          if Ascii.eqb c (chr 10) then let '(ls, e) := crlf_lines fuel' r in (l :: ls, e) else ([], s)
      | _ => ([], s)
      end
  end.

Definition text_of (ls : list string) : string := foldr (fun l t => l +:+ crlf +:+ t)%string EmptyString ls.
Definition no_cr (s : string) : bool := string_forall (fun c => negb (Ascii.eqb c (chr 13))) s.

Lemma crlf_lines_text ls : forall fuel rest, forallb no_cr ls = true -> (length ls < fuel)%nat -> no_cr rest = true ->
  crlf_lines fuel (text_of ls +:+ rest) = (ls, rest).
Proof.
  induction ls as [|l ls IH]; intros [|fuel] rest N L R; cbn [length] in L; try lia.
  - cbn [text_of foldr crlf_lines]. change (EmptyString +:+ rest) with rest.
    destruct (strchr (chr 13) rest) as [[a b]|] eqn:E; [|done]. apply strchr_inv in E as [-> _]. unfold no_cr in R.
    rewrite string_forall_app in R. apply andb_true_iff in R as [_ R]. cbn [string_forall] in R. by rewrite Ascii.eqb_refl in R.
  - cbn [forallb] in N. apply andb_true_iff in N as [N1 N2]. cbn [text_of foldr]. fold (text_of ls).
    unfold crlf. rewrite !string_app_assoc. cbn [crlf_lines].
    change (String (chr 13) (String (chr 10) EmptyString) +:+ (text_of ls +:+ rest))
      with (String (chr 13) (String (chr 10) (text_of ls +:+ rest))).
    rewrite strchr_app by done. rewrite Ascii.eqb_refl, IH by (done || lia). done.
Qed.

Lemma text_of_app a b : text_of (a ++ b) = text_of a +:+ text_of b.
Proof.
  induction a as [|l a IH]; [done|]. cbn [app text_of foldr]. fold (text_of (a ++ b)). fold (text_of a).
  by rewrite IH, !string_app_assoc.
Qed.

(** The additional headers that go with a status. *)
Definition header_line (status : Z) (h : http_header) : option string :=
  if negb (hh_status h =? 0) && negb (hh_status h =? status) then None
  else n ← hh_name h; v ← hh_value h; Some (n +:+ ": " +:+ v)%string.

Lemma headers_loop_lines status headers : forall ret,
  build_headers_loop ret headers status = (ret +:+ text_of (omap (header_line status) headers)).
Proof.
  induction headers as [|h r IH]; intros ret; cbn [build_headers_loop omap list_omap].
  { cbn. by rewrite string_app_nil_r. }
  unfold header_line at 1. destruct (negb _ && negb _); [apply IH|]. destruct (hh_name h) as [n|], (hh_value h) as [v|];
    run_bind; rewrite IH; try done. cbn [text_of foldr]. fold (text_of (omap (header_line status) r)). by rewrite !string_app_assoc.
Qed.

(** The lines of an answer. *)
Definition answer_lines (x : http_context) (cache : bool) (status : Z) (statusmsg contenttype charset : option string)
    (client : option http_client) (date : string) : list string :=
  (if status =? -1 then [] else [status_line status statusmsg]) ++
  ["Server: " +:+ hx_server_id x; "Connection: " +:+ connection_header client; "Accept-Encoding: identity";
   "Allow: " +:+ match client with
                 | Some c => if (hc_admin_command c =? -1)%Z then "GET, SOURCE" else "GET"
                 | None => "GET"
                 end]%string ++
  match client with
  | Some c =>
      match hc_reuse c with REUSE_UPGRADETLS => [] | _ => if hc_tls c then ["Upgrade: TLS/1.0"%string] else [] end
  | None => []
  end ++
  [date] ++
  match contenttype with Some t => [contenttype_line t charset] | None => [] end ++
  (if status =? 401 then ["WWW-Authenticate: Basic realm=" +:+ quote +:+ "Icecast2 Server" +:+ quote]%string else []) ++
  (if cache then []
   else ["Cache-Control: no-cache"; "Expires: Mon, 26 Jul 1997 05:00:00 GMT"; "Pragma: no-cache"]%string) ++
  omap (header_line status) (hx_headers x) ++ omap (header_line status) (default [] (hx_mount x)).

Lemma build_headers_lines status l m :
  build_headers status l m = text_of (omap (header_line status) l ++ omap (header_line status) (default [] m)).
Proof.
  unfold build_headers. rewrite headers_loop_lines, text_of_app. change (EmptyString +:+ ?x) with x.
  destruct m; [by rewrite headers_loop_lines|by rewrite string_app_nil_r].
Qed.

Lemma header_text_lines x cache status statusmsg contenttype charset datablock client date :
  hx_date x = (date +:+ crlf) -> (status <> -1 -> strlen (status_line status statusmsg) < 78) ->
  (forall t, contenttype = Some t -> strlen (contenttype_line t charset) < 78) ->
  header_text x cache status statusmsg contenttype charset datablock client =
  text_of (answer_lines x cache status statusmsg contenttype charset client date) +:+
  match datablock with Some d => (crlf +:+ d)%string | None => EmptyString end.
Proof.
  intros D Sl Cl. unfold header_text, answer_lines. rewrite build_headers_lines, D.
  assert (status_buffer status statusmsg = text_of (if status =? -1 then [] else [status_line status statusmsg])) as ->.
  { unfold status_buffer. destruct (Z.eqb_spec status (-1)) as [|N]; [done|]. unfold snprintf. cbn [fst text_of foldr].
    rewrite string_take_all; [by rewrite string_app_nil_r|]. specialize (Sl N). rewrite string_length_app. unfold strlen in Sl. cbn. lia. }
  assert (contenttype_buffer contenttype charset =
    text_of match contenttype with Some t => [contenttype_line t charset] | None => [] end) as ->.
  { unfold contenttype_buffer. destruct contenttype as [t|]; [|done]. unfold snprintf. cbn [fst text_of foldr].
    rewrite string_take_all; [by rewrite string_app_nil_r|]. specialize (Cl t eq_refl). rewrite string_length_app. unfold strlen in Cl.
    cbn. lia. }
  rewrite !text_of_app. cbn [text_of foldr]. rewrite !string_app_nil_r, !string_app_assoc.
  assert (upgrade_header client = text_of match client with
    | Some c => match hc_reuse c with REUSE_UPGRADETLS => [] | _ => if hc_tls c then ["Upgrade: TLS/1.0"%string] else [] end
    | None => [] end) as -> by (by destruct client as [[[] [] ?]|]).
  unfold authenticate_header, cache_headers. destruct (status =? 401), cache; cbn [text_of foldr];
    rewrite ?string_app_nil_r, ?string_app_assoc; reflexivity.
Qed.

(** What is written for an answer is, line by line, the status, the fields of
    the server, of the connection and of the content, the additional fields
    of the configuration and of the mount, and after an empty line the data,
    where the two buffers for the status and the type are long enough; a
    reader of the lines gets exactly these. *)
Theorem http_header_lines x cache status statusmsg contenttype charset client date fuel :
  hx_date x = (date +:+ crlf) -> (status <> -1 -> strlen (status_line status statusmsg) < 78) ->
  (forall t, contenttype = Some t -> strlen (contenttype_line t charset) < 78) ->
  forallb no_cr (answer_lines x cache status statusmsg contenttype charset client date) = true ->
  (length (answer_lines x cache status statusmsg contenttype charset client date) + 1 < fuel)%nat ->
  let text := header_text x cache status statusmsg contenttype charset (Some EmptyString) client in
  crlf_lines fuel text = (answer_lines x cache status statusmsg contenttype charset client date ++ [EmptyString], EmptyString) /\
  forall out len, strlen text < len ->
    util_http_build_header out len 0 x cache status statusmsg contenttype charset (Some EmptyString) client = (text, strlen text).
Proof.
  intros D Sl Cl N L text. split.
  - unfold text. rewrite (header_text_lines _ _ _ _ _ _ _ _ date) by done. set (ls := answer_lines _ _ _ _ _ _ _ _) in *.
    change (crlf +:+ EmptyString)%string with crlf. assert (text_of ls +:+ crlf = text_of (ls ++ [EmptyString]) +:+ EmptyString) as ->.
    { rewrite text_of_app, string_app_nil_r. done. }
    apply crlf_lines_text; [by rewrite forallb_app, N|rewrite length_app; cbn; lia|done].
  - intros out len Ll. unfold util_http_build_header. cbn [Z.eqb]. rewrite Z.sub_0_r. fold text. unfold snprintf.
    change (string_take (Z.to_nat 0) out) with EmptyString. rewrite string_take_all; [done|]. unfold strlen in Ll. lia.
Qed.

(** A type too long for its buffer is cut off with the end of its line, which
    so runs on into the next field. *)
Theorem long_content_type t charset :
  80 <= strlen (contenttype_line t charset) ->
  contenttype_buffer (Some t) charset = string_take 79 (contenttype_line t charset).
Proof.
  intros L. unfold contenttype_buffer, snprintf. cbn [fst]. change (80 - 1)%nat with 79%nat.
  revert L. generalize (contenttype_line t charset) as s. intros s L. unfold strlen in L.
  assert (forall n s, (n <= String.length s)%nat -> string_take n (s +:+ crlf) = string_take n s) as H.
  { induction n as [|n IH]; intros [|c r] Lr; cbn in Lr; try done; [lia|]. rewrite string_app_cons. cbn [string_take]. by rewrite IH by lia. }
  apply H. lia.
Qed.

(** ** Witnesses *)

Definition demo_context : http_context :=
  HttpContext "Icecast 2.5" ("Date: Thu, 01 Jan 1970 00:00:00 GMT" +:+ crlf)
    [HttpHeader (Some "Access-Control-Allow-Origin"%string) (Some "*"%string) 0; HttpHeader (Some "X-Gone"%string) (Some "1"%string) 404]
    None.

Example http_header_lines_witness :
  let lines := ["HTTP/1.0 200 OK"; "Server: Icecast 2.5"; "Connection: Close"; "Accept-Encoding: identity"; "Allow: GET";
    "Date: Thu, 01 Jan 1970 00:00:00 GMT"; "Content-Type: audio/mpeg"; "Cache-Control: no-cache";
    "Expires: Mon, 26 Jul 1997 05:00:00 GMT"; "Pragma: no-cache"; "Access-Control-Allow-Origin: *"]%string in
  answer_lines demo_context false 200 None (Some "audio/mpeg"%string) None None "Date: Thu, 01 Jan 1970 00:00:00 GMT" = lines /\
  crlf_lines 20 (header_text demo_context false 200 None (Some "audio/mpeg"%string) None (Some EmptyString) None) =
    (lines ++ [EmptyString], EmptyString).
Proof.
  split; [reflexivity|].
  apply (http_header_lines demo_context false 200 None (Some "audio/mpeg"%string) None None "Date: Thu, 01 Jan 1970 00:00:00 GMT" 20).
  - reflexivity.
  - intros _. by vm_compute.
  - intros t [= <-]. by vm_compute.
  - by vm_compute.
  - by vm_compute; lia.
Defined.

Example long_content_type_witness :
  80 <= strlen (contenttype_line (string_take 90 (Nat.iter 90 (String "a") EmptyString)) None) /\
  contenttype_buffer (Some (string_take 90 (Nat.iter 90 (String "a") EmptyString))) None =
    string_take 79 (contenttype_line (string_take 90 (Nat.iter 90 (String "a") EmptyString)) None).
Proof. split; [by vm_compute|]. apply long_content_type. by vm_compute. Defined.
