(* ===== verification/Answers.v ===== *)
(** The answers of [client.c] to clients that get no stream: errors, upgrades
    of the protocol, and the answer of last resort. *)

From S2P Require Import Prelude HttpCn Errors Http.
Local Open Scope Z_scope.

(** [PER_CLIENT_REFBUF_SIZE]. *)
Definition ANSWER_BUFFER : Z := 4096.

(** What becomes of a client: it is handed to the file server with the text of
    its buffer and of the one behind it, or it has been sent some bytes and is
    destroyed. *)
Inductive answered_client :=
| Handed (head : string) (body : option string) (respcode : Z) (r : reuse)
| Ended (sent : string).

Section answers.
Variable x : http_context.
(** How many bytes the connection takes of those it is given, call by call. *)
Variable takes : list Z.

(** [client_send_bytes] of some text, with the calls to come. *)
Definition send_text (s : string) (takes : list Z) : Z * string * list Z :=
  match takes with
  | [] => (-1, EmptyString, [])
  | n :: r => if n <? 0 then (-1, EmptyString, r) else (Z.min n (strlen s), string_take (Z.to_nat n) s, r)
  end.

(** [client_send_500]. *)
Definition header_500 : string :=
  ("HTTP/1.0 500 Internal Server Error" +:+ crlf +:+ "Content-Type: text/plain; charset=utf-8" +:+ crlf +:+ crlf +:+
   "500 - Internal Server Error" +:+ String (chr 10) EmptyString +:+ "---------------------------" +:+ String (chr 10) EmptyString)%string.
Definition client_send_500 (message : string) : answered_client :=
  let '(ret, sent, takes) := send_text header_500 takes in
  if ret =? strlen header_500 then let '(_, more, _) := send_text message takes in Ended (sent +:+ more)%string
  else Ended sent.

(** The page of an error. *)
Definition error_page (plain : bool) (e : icecast_error) : string :=
  (if plain
   then "Error " +:+ dec (e_http_status e) +:+ crlf +:+ "---------" +:+ crlf +:+ crlf +:+ "Message: " +:+ e_message e +:+ crlf +:+ crlf +:+
        "Error code: " +:+ e_uuid e +:+ crlf
   else "<html><head><title>Error " +:+ dec (e_http_status e) +:+ "</title></head><body><h1>Error " +:+ dec (e_http_status e) +:+
        "</h1><hr><p><b>" +:+ e_message e +:+ "</b></p><p>Error code: " +:+ e_uuid e +:+ "</p></body></html>" +:+ crlf)%string.

Definition with_reuse (r : reuse) (c : http_client) : http_client := HttpClient (hc_tls c) r (hc_admin_command c).

(** A text behind a header of [ret] bytes in a buffer of [ANSWER_BUFFER] bytes;
    [None]: it is written outside of the buffer. *)
Definition append_at (head : string) (ret : Z) (s : string) : option string :=
  if ANSWER_BUFFER <? ret then None
  else if ret =? ANSWER_BUFFER then Some head
  else Some (head +:+ fst (snprintf (Z.to_nat (ANSWER_BUFFER - ret)) s))%string.

(** [_client_send_error]. *)
Definition send_error (c : http_client) (plain : bool) (e : icecast_error) : option answered_client :=
  if e_http_status e =? 500 then Some (client_send_500 (e_message e))
  else
    let c := with_reuse REUSE_KEEPALIVE c in
    let '(head, ret) := util_http_build_header EmptyString ANSWER_BUFFER 0 x false (e_http_status e) None
                          (Some (if plain then "text/plain" else "text/html")%string) (Some "utf-8"%string) None (Some c) in
    if (ret =? -1) || (ANSWER_BUFFER <=? ret) then Some (client_send_500 "Header generation failed.")
    else
      let body := fst (snprintf (Z.to_nat ANSWER_BUFFER) (error_page plain e)) in
      head ← append_at head ret ("Content-Length: " +:+ dec (strlen body) +:+ crlf +:+ crlf)%string;
      Some (Handed head (Some body) (e_http_status e) REUSE_KEEPALIVE).

(** [client_send_error_by_id], with the [Accept] header of the request. *)
Definition client_send_error_by_id (c : http_client) (accept : option string) (id : Z) : option answered_client :=
  match error_get_by_id id with
  | None => Some (client_send_500 "Unknown error ID")
  | Some e =>
      pref ← util_http_select_best accept "text/plain" ["text/html"%string];
      send_error c (streq pref "text/plain" || negb (streq pref "text/html")) e
  end.

(** [client_send_101] and [client_send_426]. *)
Definition upgrade_text : string := ("Content-Length: 0" +:+ crlf +:+ "Upgrade: TLS/1.0, HTTP/1.0" +:+ crlf +:+ crlf)%string.
Definition send_upgrade (status : Z) (after : reuse -> reuse) (c : http_client) (r : reuse) : option answered_client :=
  match r with
  | REUSE_UPGRADETLS =>
      let '(head, ret) := util_http_build_header EmptyString ANSWER_BUFFER 0 x false status None (Some "text/plain"%string)
                            (Some "utf-8"%string) None (Some (with_reuse r c)) in
      head ← append_at head ret upgrade_text; Some (Handed head None status (after r))
  | _ => Some (client_send_500 "Bad reuse parameter")
  end.
Definition client_send_101 (c : http_client) (r : reuse) : option answered_client := send_upgrade 101 (fun r => r) c r.
Definition client_send_426 (c : http_client) (r : reuse) : option answered_client := send_upgrade 426 (fun _ => REUSE_KEEPALIVE) c r.

(** ** What is answered *)

Definition error_header (c : http_client) (plain : bool) (status : Z) : string :=
  header_text x false status None (Some (if plain then "text/plain" else "text/html")%string) (Some "utf-8"%string) None
    (Some (with_reuse REUSE_KEEPALIVE c)).

Lemma error_pages_short e plain : e ∈ errors -> strlen (error_page plain e) < 1024.
Proof.
  assert (forallb (fun e => (strlen (error_page true e) <? 1024) && (strlen (error_page false e) <? 1024)) errors = true) as K
    by (vm_compute; reflexivity).
  rewrite forallb_forall in K. intros I%list_elem_of_In. specialize (K e I). apply andb_true_iff in K as [K1 K2]. destruct plain; lia.
Qed.

Lemma error_found id e : error_get_by_id id = Some e -> e ∈ errors.
Proof.
  unfold error_get_by_id. destruct error_ids as [N _]. intros H. by apply (error_search_spec _ _ _ N) in H as [? _].
Qed.

Lemma content_length_short n : 0 <= n < 1024 -> strlen ("Content-Length: " +:+ dec n +:+ crlf +:+ crlf)%string <= 24.
Proof.
  intros H. assert (forallb (fun k => strlen (dec (Z.of_nat k)) <=? 4) (seq 0 1024) = true) as K by (vm_compute; reflexivity).
  rewrite forallb_forall in K. specialize (K (Z.to_nat n)). rewrite in_seq in K. specialize (K ltac:(lia)). rewrite Z2Nat.id in K by lia.
  unfold strlen in *. rewrite !string_length_app. cbn. lia.
Qed.

Lemma snprintf_all n s : strlen s < Z.of_nat n -> fst (snprintf n s) = s.
Proof. intros H. unfold snprintf. cbn [fst]. apply string_take_all. unfold strlen in H. lia. Qed.

(** The fields of an error's answer. *)
Definition error_lines (c : http_client) (plain : bool) (e : icecast_error) (date : string) : list string :=
  answer_lines x false (e_http_status e) None (Some (if plain then "text/plain" else "text/html")%string) (Some "utf-8"%string)
    (Some (with_reuse REUSE_KEEPALIVE c)) date ++
  [("Content-Length: " +:+ dec (strlen (error_page plain e)))%string].

Lemma error_header_lines c plain e date :
  e ∈ errors -> hx_date x = (date +:+ crlf)%string ->
  (error_header c plain (e_http_status e) +:+ "Content-Length: " +:+ dec (strlen (error_page plain e)) +:+ crlf +:+ crlf)%string =
  text_of (error_lines c plain e date ++ [EmptyString]).
Proof.
  intros I D. unfold error_header. rewrite (header_text_lines _ _ _ _ _ _ _ _ date); [|done| |].
  - unfold error_lines. rewrite !text_of_app. cbn [text_of foldr]. by rewrite !string_app_nil_r, !string_app_assoc.
  - intros _. assert (forallb (fun e => strlen (status_line (e_http_status e) None) <? 78) errors = true) as K by (vm_compute; reflexivity).
    rewrite forallb_forall in K. apply list_elem_of_In in I. specialize (K e I). lia.
  - intros t [= <-]. by destruct plain.
Qed.

(** the answer to a client for an error.  Every error of the table is
    answered with its own status, in the form the client prefers: where the
    header of the answer fits the client's buffer with 24 bytes to spare, a
    reader of its lines finds exactly the fields of the answer, the length of
    the page that follows as [Content-Length], and an empty line, and the page
    with the error's message and code follows whole; the connection is kept.
    An error of the server itself is told by the answer of last resort. *)
Theorem error_answers c accept id e pref date fuel :
  error_get_by_id id = Some e -> util_http_select_best accept "text/plain" ["text/html"%string] = Some pref ->
  let plain := negb (streq pref "text/html") in
  hx_date x = (date +:+ crlf)%string -> strlen (error_header c plain (e_http_status e)) + 24 < ANSWER_BUFFER ->
  if e_http_status e =? 500 then client_send_error_by_id c accept id = Some (client_send_500 (e_message e))
  else exists head,
    client_send_error_by_id c accept id = Some (Handed head (Some (error_page plain e)) (e_http_status e) REUSE_KEEPALIVE) /\
    (forallb no_cr (error_lines c plain e date) = true -> (length (error_lines c plain e date) + 1 < fuel)%nat ->
     crlf_lines fuel head = (error_lines c plain e date ++ [EmptyString], EmptyString)).
Proof.
  intros F P plain D L. pose proof (error_found id e F) as I. unfold client_send_error_by_id. rewrite F, P. cbn [mbind option_bind].
  replace (streq pref "text/plain" || negb (streq pref "text/html")) with plain.
  2: { unfold plain. destruct (streq pref "text/plain") eqn:E; [|done]. apply streq_eq in E. by subst. }
  unfold send_error. destruct (e_http_status e =? 500); [done|]. unfold util_http_build_header.
  change (0 =? -1) with false. cbn iota. fold (error_header c plain (e_http_status e)). set (h := error_header c plain _) in *.
  assert (snprintf (Z.to_nat (ANSWER_BUFFER - 0)) h = (h, strlen h)) as ->.
  { unfold snprintf. f_equal. apply string_take_all. unfold ANSWER_BUFFER, strlen in *. lia. }
  assert (0 <= strlen h) by (unfold strlen; lia). change (string_take (Z.to_nat 0) EmptyString +:+ h)%string with h.
  destruct (Z.eqb_spec (strlen h) (-1)); [lia|]. destruct (Z.leb_spec ANSWER_BUFFER (strlen h)); [lia|]. cbn [orb].
  pose proof (error_pages_short e plain I) as Sp. assert (0 <= strlen (error_page plain e)) by (unfold strlen; lia).
  rewrite (snprintf_all _ (error_page plain e)) by (unfold ANSWER_BUFFER; lia).
  unfold append_at. destruct (Z.ltb_spec ANSWER_BUFFER (strlen h)); [lia|]. destruct (Z.eqb_spec (strlen h) ANSWER_BUFFER); [lia|].
  rewrite snprintf_all by (pose proof (content_length_short (strlen (error_page plain e)) ltac:(lia)); lia).
  run_bind. eexists. split; [done|]. intros N Fu. unfold h. rewrite (error_header_lines c plain e date I D).
  rewrite <- (string_app_nil_r (text_of _)). apply crlf_lines_text; [by rewrite forallb_app, N|rewrite length_app; cbn; lia|done].
Qed.
End answers.

Lemma error_answers_witness :
  let date := "Date: Thu, 01 Jan 1970 00:00:00 GMT"%string in
  let lines := ["HTTP/1.0 404 File Not Found"; "Server: Icecast 2.5"; "Connection: Keep-Alive"; "Accept-Encoding: identity"; "Allow: GET";
     "Date: Thu, 01 Jan 1970 00:00:00 GMT"; "Content-Type: text/html; charset=utf-8"; "Cache-Control: no-cache";
     "Expires: Mon, 26 Jul 1997 05:00:00 GMT"; "Pragma: no-cache"; "Access-Control-Allow-Origin: *"; "X-Gone: 1";
     "Content-Length: 197"]%string in
  exists head, client_send_error_by_id demo_context [] (HttpClient false REUSE_CLOSE 0) (Some "text/html"%string) ICECAST_ERROR_FSERV_FILE_NOT_FOUND =
    Some (Handed head (Some (error_page false (IcecastError ICECAST_ERROR_FSERV_FILE_NOT_FOUND 404 "18c32b43-0d8e-469d-b434-10133cdd06ad" "The file you requested could not be found"))) 404 REUSE_KEEPALIVE) /\
    crlf_lines 20 head = (lines ++ [EmptyString], EmptyString).
Proof.
  intros date lines.
  destruct (error_answers demo_context [] (HttpClient false REUSE_CLOSE 0) (Some "text/html"%string) ICECAST_ERROR_FSERV_FILE_NOT_FOUND
              (IcecastError ICECAST_ERROR_FSERV_FILE_NOT_FOUND 404 "18c32b43-0d8e-469d-b434-10133cdd06ad" "The file you requested could not be found")
              "text/html" date 20) as (head & E & L); [vm_compute; reflexivity|vm_compute; reflexivity|reflexivity|vm_compute; reflexivity|].
  exists head. split; [exact E|]. exact (L ltac:(vm_compute; reflexivity) ltac:(vm_compute; lia)).
Defined.
