(* ===== verification/Xslt.v ===== *)
(** Stylesheets, as [xslt.c] keeps, finds and applies them.

    libxslt and the disk are parameters: what [xsltParseStylesheetFile] makes
    of a file, whether a path is there, how addresses are put together, and
    what a stylesheet makes of a document.  The sheets that are in memory are a
    map; freeing one that is not there is an error of the model. *)

From S2P Require Import Prelude Uri Errors Http Answers.
From stdpp Require Import gmap sorting.
Local Open Scope Z_scope.

Definition CACHESIZE : nat := 3.

(** ** The cache *)

Section cache.
Context {sheet : Type}.

(** [stylesheet_cache_t]; the sheet by its address. *)
Record stylesheet_cache := StylesheetCache {
  sc_filename : option string;
  sc_last_modified : Z;
  sc_cache_age : Z;
  sc_stylesheet : option nat
}.

(** The table, and the sheets in memory. *)
Record cache_state := CacheState {
  cs_cache : list stylesheet_cache;
  cs_sheets : gmap nat sheet;
  cs_next : nat
}.

(** [xslt_initialize]. *)
Definition xslt_initialize : cache_state :=
  CacheState (replicate CACHESIZE (StylesheetCache None 0 0 None)) ∅ 0.

Definition xsltFreeStylesheet (p : option nat) (st : cache_state) : option cache_state :=
  match p with
  | None => Some st
  | Some i => _ ← cs_sheets st !! i; Some (CacheState (cs_cache st) (delete i (cs_sheets st)) (cs_next st))
  end.
Definition xsltParseStylesheetFile (parsed : option sheet) (st : cache_state) : option nat * cache_state :=
  match parsed with
  | None => (None, st)
  | Some s => (Some (cs_next st), CacheState (cs_cache st) (<[cs_next st := s]> (cs_sheets st)) (S (cs_next st)))
  end.
Definition set_entry (i : nat) (e : stylesheet_cache) (st : cache_state) : cache_state :=
  CacheState (<[i := e]> (cs_cache st)) (cs_sheets st) (cs_next st).

(** [xslt_shutdown]. *)
Fixpoint free_entries (l : list stylesheet_cache) (st : cache_state) : option cache_state :=
  match l with
  | [] => Some st
  | e :: l => st ← xsltFreeStylesheet (sc_stylesheet e) st; free_entries l st
  end.
Definition xslt_shutdown (st : cache_state) : option cache_state := free_entries (cs_cache st) st.

(** [evict_cache_entry]: the entry it empties. *)
Fixpoint oldest_entry (l : list stylesheet_cache) (i : nat) (age : Z) (oldest : nat) : nat :=
  match l with
  | [] => oldest
  | e :: l => if age <? sc_cache_age e then oldest_entry l (S i) (i32 (sc_cache_age e)) i else oldest_entry l (S i) age oldest
  end.
Definition evict_cache_entry (st : cache_state) : option (nat * cache_state) :=
  let oldest := oldest_entry (cs_cache st) 0 0 0 in
  e ← cs_cache st !! oldest; st ← xsltFreeStylesheet (sc_stylesheet e) st; Some (oldest, st).

(** The search of [xslt_get_stylesheet]: the entry of a file, or else the last
    entry that is not used. *)
Fixpoint find_entry (fn : string) (l : list stylesheet_cache) (i : nat) (empty : option nat) : nat + option nat :=
  match l with
  | [] => inr empty
  | e :: l =>
      match sc_filename e with
      | Some f => if streq fn f then inl i else find_entry fn l (S i) empty
      | None => find_entry fn l (S i) (Some i)
      end
  end.

(** [xslt_get_stylesheet], for a file with a time of its last change, if it is
    there, and a sheet, if it is one. *)
Definition xslt_get_stylesheet (fn : string) (file : option Z) (parsed : option sheet) (now : Z) (st : cache_state)
    : option (option nat * cache_state) :=
  match file with
  | None => Some (None, st)
  | Some mtime =>
      match find_entry fn (cs_cache st) 0 None with
      | inl i =>
          e ← cs_cache st !! i;
          if sc_last_modified e <? mtime then
            st ← xsltFreeStylesheet (sc_stylesheet e) st;
            let '(p, st) := xsltParseStylesheetFile parsed st in
            Some (p, set_entry i (StylesheetCache (sc_filename e) mtime now p) st)
          else Some (sc_stylesheet e, st)
      | inr empty =>
          '(i, st) ← match empty with Some i => Some (i, st) | None => evict_cache_entry st end;
          let '(p, st) := xsltParseStylesheetFile parsed st in
          Some (p, set_entry i (StylesheetCache (Some fn) mtime now p) st)
      end
  end.

(** ** What the cache holds *)

Definition sheets_of (l : list stylesheet_cache) : list nat := omap sc_stylesheet l.
Definition files_of (l : list stylesheet_cache) : list string := omap sc_filename l.

(** Every file has one entry, every sheet in memory belongs to one entry. *)
Record cache_ok (st : cache_state) : Prop := {
  co_length : length (cs_cache st) = CACHESIZE;
  co_files : NoDup (files_of (cs_cache st));
  co_sheets : NoDup (sheets_of (cs_cache st));
  co_memory : forall i, is_Some (cs_sheets st !! i) <-> i ∈ sheets_of (cs_cache st);
  co_next : forall i, i ∈ sheets_of (cs_cache st) -> (i < cs_next st)%nat;
  co_unused : forall e, e ∈ cs_cache st -> sc_filename e = None -> sc_stylesheet e = None
}.

Lemma omap_middle {A B} (f : A -> option B) l1 e l2 : omap f (l1 ++ e :: l2) = omap f l1 ++ option_list (f e) ++ omap f l2.
Proof. rewrite omap_app. cbn. by destruct (f e). Qed.

Lemma middle_perm {A B} (f : A -> option B) l1 e l2 : omap f (l1 ++ e :: l2) ≡ₚ option_list (f e) ++ omap f (l1 ++ l2).
Proof. rewrite omap_middle, omap_app. solve_Permutation. Qed.

Lemma elem_of_option_list {A} (o : option A) x : x ∈ option_list o <-> o = Some x.
Proof. destruct o; cbn; rewrite ?list_elem_of_singleton, ?elem_of_nil; naive_solver. Qed.

Lemma free_live st e : cache_ok st -> e ∈ cs_cache st -> exists st1, xsltFreeStylesheet (sc_stylesheet e) st = Some st1.
Proof.
  intros [_ _ _ M _ _] I. unfold xsltFreeStylesheet. destruct (sc_stylesheet e) as [i|] eqn:E; [|by eexists].
  destruct (proj2 (M i)) as [s ->]; [|by eexists]. apply list_elem_of_omap. by exists e.
Qed.

(** An entry is emptied and filled: everything else stays as it is, and the
    table still owns exactly what is in memory. *)
Lemma replace_entry (st st1 st2 : cache_state) (l1 l2 : list stylesheet_cache) e f mtime now parsed p :
  cache_ok st -> cs_cache st = l1 ++ e :: l2 -> f ∉ files_of (l1 ++ l2) ->
  xsltFreeStylesheet (sc_stylesheet e) st = Some st1 -> xsltParseStylesheetFile parsed st1 = (p, st2) ->
  let e' := StylesheetCache (Some f) mtime now p in
  let st' := set_entry (length l1) e' st2 in
  cache_ok st' /\ cs_cache st' = l1 ++ e' :: l2 /\ p ≫= (cs_sheets st' !!.) = parsed /\
  forall i, i ∈ sheets_of (l1 ++ l2) -> cs_sheets st' !! i = cs_sheets st !! i.
Proof.
  intros [L F Sh M N U] C Nf Fr P e' st'.
  assert (cs_cache st1 = cs_cache st /\ cs_next st1 = cs_next st /\
          forall i, cs_sheets st1 !! i = if decide (sc_stylesheet e = Some i) then None else cs_sheets st !! i) as (C1 & N1 & S1).
  { unfold xsltFreeStylesheet in Fr. destruct (sc_stylesheet e) as [j|]; [|injection Fr as <-; split_and!; try done; intros; by case_decide].
    destruct (cs_sheets st !! j); [|done]. injection Fr as <-. split_and!; try done. intros i. cbn [cs_sheets].
    destruct (decide (Some j = Some i)) as [[= ->]|Ne]; [apply lookup_delete_eq|apply lookup_delete_ne; congruence]. }
  assert (cs_cache st2 = cs_cache st /\ (cs_next st <= cs_next st2)%nat /\
          (forall i, cs_sheets st2 !! i = if decide (p = Some i) then parsed else cs_sheets st1 !! i) /\
          (forall i, p = Some i -> i = cs_next st /\ (i < cs_next st2)%nat /\ is_Some parsed) /\ (p = None -> parsed = None)) as (C2 & N2 & S2 & P2 & P3).
  { destruct parsed as [s|]; injection P as <- <-; rewrite ?N1, ?C1; split_and!; try done; try apply Nat.le_succ_diag_r; cbn [cs_sheets cs_next].
    - intros i. destruct (decide (Some (cs_next st) = Some i)) as [[= ->]|Ne]; [apply lookup_insert_eq|apply lookup_insert_ne; congruence].
    - intros i [= <-]. split_and!; [done|apply Nat.lt_succ_diag_r|done]. }
  assert (cs_cache st' = l1 ++ e' :: l2) as C'.
  { unfold st'. cbn [set_entry cs_cache]. rewrite C2, C. by rewrite insert_app_r_alt, Nat.sub_diag by lia. }
  rewrite C in *. unfold files_of, sheets_of in *. rewrite middle_perm in F. rewrite middle_perm in Sh.
  assert (forall i, i ∈ omap sc_stylesheet (l1 ++ l2) -> sc_stylesheet e <> Some i /\ (i < cs_next st)%nat /\ is_Some (cs_sheets st !! i)) as Old.
  { intros i I. assert (i ∈ omap sc_stylesheet (l1 ++ e :: l2)) as I' by (rewrite middle_perm; apply elem_of_app; by right).
    split_and!; [|by apply N|by apply M]. intros E. rewrite E in Sh. apply NoDup_app in Sh as (_ & D & _).
    apply (D i); [by apply elem_of_option_list|done]. }
  assert (forall i, i ∈ omap sc_stylesheet (l1 ++ l2) -> cs_sheets st' !! i = cs_sheets st !! i) as Keep.
  { intros i I. destruct (Old i I) as (O1 & O2 & O3). cbn [st' set_entry cs_sheets]. rewrite S2.
    rewrite decide_False by (intros E; destruct (P2 i E); lia). rewrite S1. by rewrite decide_False. }
  assert (p ≫= (cs_sheets st' !!.) = parsed) as Ep.
  { destruct p as [i|]; [|by rewrite P3]. cbn [mbind option_bind st' set_entry cs_sheets]. rewrite S2. by rewrite decide_True. }
  split; [|by split_and!]. split; rewrite C'; cbn [sc_filename sc_stylesheet].
  - rewrite <- L, !length_app. done.
  - unfold files_of. rewrite middle_perm. cbn. apply NoDup_cons. split; [done|]. by apply NoDup_app in F as (_ & _ & F).
  - unfold sheets_of. rewrite middle_perm. cbn. apply NoDup_app in Sh as (_ & _ & Sh). destruct p as [i|]; [|done].
    apply NoDup_cons. split; [|done]. intros I. destruct (P2 i eq_refl), (Old i I) as (_ & ? & _). lia.
  - intros i. unfold sheets_of. rewrite middle_perm. cbn [e' sc_stylesheet]. rewrite elem_of_app. split.
    + intros [s E]. cbn [st' set_entry cs_sheets] in E. rewrite S2 in E. case_decide as D; [left; by apply elem_of_option_list|].
      rewrite S1 in E. case_decide as D2; [done|]. assert (i ∈ omap sc_stylesheet (l1 ++ e :: l2)) as I by (apply M; eauto).
      rewrite middle_perm, elem_of_app in I. destruct I as [I|I]; [|by right]. by apply elem_of_option_list in I.
    + intros [I|I]; [|rewrite Keep by done; by apply Old].
      apply elem_of_option_list in I. cbn [st' set_entry cs_sheets]. rewrite S2, decide_True by done. by apply (P2 i).
  - intros i. unfold sheets_of. rewrite middle_perm. cbn [e' sc_stylesheet st' set_entry cs_next]. rewrite elem_of_app. intros [I|I].
    + apply elem_of_option_list in I. by apply (P2 i).
    + destruct (Old i I) as (_ & ? & _). lia.
  - intros e0 I. rewrite elem_of_app, elem_of_cons in I. destruct I as [I|[->|I]]; [|done|]; apply U; rewrite elem_of_app, elem_of_cons; tauto.
Qed.

(** ** The search *)

Lemma find_entry_spec fn l : forall i empty,
  match find_entry fn l i empty with
  | inl j => exists l1 e l2, l = l1 ++ e :: l2 /\ j = (i + length l1)%nat /\ sc_filename e = Some fn
  | inr r => (fn ∉ files_of l) /\
      (r = empty \/ exists l1 e l2 k, l = l1 ++ e :: l2 /\ r = Some k /\ k = (i + length l1)%nat /\ sc_filename e = None)
  end.
Proof.
  induction l as [|e l IH]; intros i empty; cbn [find_entry]; [split; [apply not_elem_of_nil|by left]|].
  destruct (sc_filename e) as [f|] eqn:Ef.
  - destruct (streq fn f) eqn:E; [apply streq_eq in E as <-; exists [], e, l; cbn; split_and!; done || lia|].
    specialize (IH (S i) empty). destruct (find_entry fn l (S i) empty) as [j|r].
    + destruct IH as (l1 & e1 & l2 & -> & -> & E1). exists (e :: l1), e1, l2. cbn. split_and!; done || lia.
    + destruct IH as [N IH]. split.
      { unfold files_of. cbn. rewrite Ef. apply not_elem_of_cons. split; [|done]. intros ->. by rewrite streq_refl in E. }
      destruct IH as [->|(l1 & e1 & l2 & k & -> & -> & -> & E1)]; [by left|right]. exists (e :: l1), e1, l2. eexists. cbn. split_and!; done || lia.
  - specialize (IH (S i) (Some i)). destruct (find_entry fn l (S i) (Some i)) as [j|r].
    + destruct IH as (l1 & e1 & l2 & -> & -> & E1). exists (e :: l1), e1, l2. cbn. split_and!; done || lia.
    + destruct IH as [N IH]. split; [unfold files_of; cbn; by rewrite Ef|]. right.
      destruct IH as [->|(l1 & e1 & l2 & k & -> & -> & -> & E1)].
      * exists [], e, l, i. cbn. split_and!; done || lia.
      * exists (e :: l1), e1, l2. eexists. cbn. split_and!; done || lia.
Qed.

Lemma oldest_entry_range l : forall i age oldest, (oldest < i + length l)%nat -> (oldest_entry l i age oldest < i + length l)%nat.
Proof.
  induction l as [|e l IH]; intros i age oldest H; cbn [oldest_entry length] in *; [done|].
  rewrite Nat.add_succ_r, <- Nat.add_succ_l. destruct (_ <? _); apply IH; lia.
Qed.

Lemma split_at (l : list stylesheet_cache) i : (i < length l)%nat -> exists l1 e l2, l = l1 ++ e :: l2 /\ length l1 = i /\ l !! i = Some e.
Proof.
  intros H. destruct (lookup_lt_is_Some_2 l i H) as [e E]. exists (take i l), e, (drop (S i) l).
  rewrite take_drop_middle by done. rewrite length_take. split_and!; done || lia.
Qed.

(** ** Answers from the cache *)

(** The sheet a file is, with each time of its change. *)
Variable contents : string -> Z -> option sheet.

(** A request for a file, at a state of the disk and a time. *)
Record request := Request { rq_file : string; rq_disk : string -> option Z; rq_now : Z }.

Definition uncached (r : request) : option sheet := mtime ← rq_disk r (rq_file r); contents (rq_file r) mtime.

Definition serve (r : request) (st : cache_state) : option (option sheet * cache_state) :=
  '(p, st) ← xslt_get_stylesheet (rq_file r) (rq_disk r (rq_file r)) (uncached r) (rq_now r) st;
  match p with
  | None => Some (None, st)
  | Some i => s ← cs_sheets st !! i; Some (Some s, st)
  end.

Fixpoint serve_all (rs : list request) (st : cache_state) : option (list (option sheet) * cache_state) :=
  match rs with
  | [] => Some ([], st)
  | r :: rs => '(s, st) ← serve r st; '(l, st) ← serve_all rs st; Some (s :: l, st)
  end.

(** No file changes to an older time. *)
Definition not_older (r r' : request) : Prop :=
  forall f m m', rq_disk r f = Some m -> rq_disk r' f = Some m' -> m <= m'.

(** An entry holds what its file was at its time, and the file is not to get
    older than that. *)
Definition entry_fresh (st : cache_state) (future : list request) (e : stylesheet_cache) : Prop :=
  forall f, sc_filename e = Some f ->
    sc_stylesheet e ≫= (cs_sheets st !!.) = contents f (sc_last_modified e) /\
    forall r m, r ∈ future -> rq_disk r f = Some m -> sc_last_modified e <= m.
Definition cache_fresh (st : cache_state) (future : list request) : Prop := Forall (entry_fresh st future) (cs_cache st).

Lemma entry_fresh_later st st' r rs e :
  (forall i, sc_stylesheet e = Some i -> cs_sheets st' !! i = cs_sheets st !! i) ->
  entry_fresh st (r :: rs) e -> entry_fresh st' rs e.
Proof.
  intros K F f Ef. destruct (F f Ef) as [Fs Fm]. split; [|intros r' m I; apply Fm; by right].
  rewrite <- Fs. destruct (sc_stylesheet e) as [i|]; [|done]. exact (K i eq_refl).
Qed.

(** A slot is filled for a request: with what the file is now. *)
Lemma refill_serves st st1 st2 l1 e l2 r rs mtime p :
  cache_ok st -> cache_fresh st (r :: rs) -> Forall (not_older r) rs -> rq_disk r (rq_file r) = Some mtime ->
  cs_cache st = l1 ++ e :: l2 -> rq_file r ∉ files_of (l1 ++ l2) ->
  xsltFreeStylesheet (sc_stylesheet e) st = Some st1 -> xsltParseStylesheetFile (uncached r) st1 = (p, st2) ->
  let st' := set_entry (length l1) (StylesheetCache (Some (rq_file r)) mtime (rq_now r) p) st2 in
  cache_ok st' /\ cache_fresh st' rs /\ p ≫= (cs_sheets st' !!.) = uncached r.
Proof.
  intros O F S D C N Fr P st'. destruct (replace_entry st st1 st2 l1 l2 e (rq_file r) mtime (rq_now r) (uncached r) p O C N Fr P)
    as (O' & C' & E & K). fold st' in O', C', E, K. split; [done|]. split; [|done]. unfold cache_fresh in *. rewrite C', C in *.
  apply Forall_app in F as [F1 F2]. apply Forall_cons in F2 as [_ F2].
  assert (forall e0, e0 ∈ l1 ++ l2 -> entry_fresh st (r :: rs) e0 -> entry_fresh st' rs e0) as Later.
  { intros e0 I. apply entry_fresh_later. intros i Ei. apply K. apply list_elem_of_omap. by exists e0. }
  apply Forall_app. split; [|apply Forall_cons; split].
  - rewrite Forall_forall in *. intros e0 I. apply Later; [apply elem_of_app; by left|by apply F1].
  - intros f [= <-]. split; [cbn [sc_stylesheet sc_last_modified]; rewrite E; unfold uncached; by rewrite D|].
    intros r' m I Dm. rewrite Forall_forall in S. exact (S r' I _ _ _ D Dm).
  - rewrite Forall_forall in *. intros e0 I. apply Later; [apply elem_of_app; by right|by apply F2].
Qed.

Lemma refill_total st r rs mtime l1 e l2 :
  cache_ok st -> cache_fresh st (r :: rs) -> Forall (not_older r) rs -> rq_disk r (rq_file r) = Some mtime ->
  cs_cache st = l1 ++ e :: l2 -> rq_file r ∉ files_of (l1 ++ l2) ->
  exists st1, xsltFreeStylesheet (sc_stylesheet e) st = Some st1 /\ exists p st2,
    xsltParseStylesheetFile (uncached r) st1 = (p, st2) /\
    let st' := set_entry (length l1) (StylesheetCache (Some (rq_file r)) mtime (rq_now r) p) st2 in
    match p with None => Some (None, st') | Some i => s ← cs_sheets st' !! i; Some (Some s, st') end = Some (uncached r, st') /\
    cache_ok st' /\ cache_fresh st' rs.
Proof.
  intros O F S D C N. destruct (free_live st e O) as [st1 Fr]; [rewrite C; apply elem_of_app; right; by left|].
  exists st1. split; [done|]. destruct (xsltParseStylesheetFile (uncached r) st1) as [p st2] eqn:P. exists p, st2. split; [done|].
  destruct (refill_serves st st1 st2 l1 e l2 r rs mtime p O F S D C N Fr P) as (O' & F' & E). split; [|done].
  rewrite <- E. destruct p as [i|]; [|done]. cbn [mbind option_bind] in E |- *. rewrite E.
  destruct (uncached r) as [s|]; [done|]. discriminate P.
Qed.

Lemma serve_step r rs st :
  cache_ok st -> cache_fresh st (r :: rs) -> Forall (not_older r) rs ->
  exists st', serve r st = Some (uncached r, st') /\ cache_ok st' /\ cache_fresh st' rs.
Proof.
  intros O F S. unfold serve, xslt_get_stylesheet. destruct (rq_disk r (rq_file r)) as [mtime|] eqn:D.
  2: { run_bind. exists st. unfold uncached. rewrite D. split_and!; try done.
       eapply Forall_impl; [exact F|]. intros e. by apply entry_fresh_later. }
  pose proof (fun l1 e l2 => refill_total st r rs mtime l1 e l2 O F S D) as Refill.
  pose proof (find_entry_spec (rq_file r) (cs_cache st) 0 None) as Find.
  destruct (find_entry (rq_file r) (cs_cache st) 0 None) as [j|empty].
  - destruct Find as (l1 & e & l2 & C & -> & Ef). cbn [Nat.add].
    assert (cs_cache st !! length l1 = Some e) as -> by (rewrite C; by apply list_lookup_middle). run_bind.
    assert (rq_file r ∉ files_of (l1 ++ l2)) as N.
    { destruct O as [_ Fl _ _ _ _]. rewrite C in Fl. unfold files_of in *. rewrite middle_perm, Ef in Fl. by apply NoDup_cons in Fl as [? _]. }
    destruct (Z.ltb_spec (sc_last_modified e) mtime).
    + destruct (Refill l1 e l2 C N) as (st1 & -> & p & st2 & P & R). run_bind. rewrite P, Ef. eexists. exact R.
    + exists st. unfold cache_fresh in F. rewrite C in F. pose proof F as F0. apply Forall_app in F as [_ [Fe _]%Forall_cons].
      destruct (Fe _ Ef) as [E M]. specialize (M r mtime (list_elem_of_here _ _) D).
      assert (uncached r = contents (rq_file r) (sc_last_modified e)) as U by (unfold uncached; rewrite D; cbn; f_equal; lia).
      rewrite <- E in U. split.
      * rewrite U. destruct (sc_stylesheet e) as [i|] eqn:Ei; [|done]. cbn [mbind option_bind].
        destruct O as [_ _ _ Mm _ _]. destruct (proj2 (Mm i)) as [s ->]; [|done]. rewrite C. apply list_elem_of_omap. exists e. split; [apply elem_of_app; right; by left|done].
      * split; [done|]. unfold cache_fresh. rewrite C. eapply Forall_impl; [exact F0|]. intros e0. by apply entry_fresh_later.
  - destruct Find as [N Find]. destruct empty as [k|].
    + destruct Find as [?|(l1 & e & l2 & k' & C & [= ->] & -> & Ef)]; [done|]. run_bind. cbn [Nat.add].
      assert (rq_file r ∉ files_of (l1 ++ l2)) as N' by (rewrite C in N; unfold files_of in *; by rewrite middle_perm, Ef in N).
      destruct (Refill l1 e l2 C N') as (st1 & Fr & p & st2 & P & R).
      assert (sc_stylesheet e = None) as U by (apply (co_unused st O); [rewrite C; apply elem_of_app; right; by left|done]).
      rewrite U in Fr. injection Fr as <-. rewrite P. eexists. exact R.
    + run_bind. unfold evict_cache_entry. set (o := oldest_entry _ _ _ _).
      assert (o < length (cs_cache st))%nat as Lo.
      { pose proof (oldest_entry_range (cs_cache st) 0 0 0) as H. rewrite (co_length st O) in *. apply H. unfold CACHESIZE. lia. }
      destruct (split_at _ _ Lo) as (l1 & e & l2 & C & Ll & ->). run_bind.
      assert (rq_file r ∉ files_of (l1 ++ l2)) as N'.
      { intros I. apply N. rewrite C. unfold files_of in *. rewrite middle_perm. apply elem_of_app. by right. }
      destruct (Refill l1 e l2 C N') as (st1 & -> & p & st2 & P & R). run_bind. rewrite P, <- Ll. eexists. exact R.
Qed.

Lemma serve_all_fresh rs : forall st,
  cache_ok st -> cache_fresh st rs -> StronglySorted not_older rs ->
  exists st', serve_all rs st = Some (map uncached rs, st') /\ cache_ok st'.
Proof.
  induction rs as [|r rs IH]; intros st O F S; [by exists st|]. apply StronglySorted_inv in S as [S1 S2].
  destruct (serve_step r rs st O F S2) as (st1 & E & O1 & F1). destruct (IH st1 O1 F1 S1) as (st' & E' & O').
  exists st'. split; [|done]. cbn [serve_all]. rewrite E. run_bind. rewrite E'. done.
Qed.

Lemma initialize_ok : cache_ok xslt_initialize.
Proof.
  split; cbn; try apply NoDup_nil_2; try done.
  - intros i. rewrite lookup_empty. split; [by intros []|by intros ?%not_elem_of_nil].
  - by intros i ?%not_elem_of_nil.
  - intros e I _. by apply (elem_of_replicate_inv _ CACHESIZE) in I as ->.
Qed.

Lemma free_entries_all l : forall st,
  NoDup (sheets_of l) -> (forall i, is_Some (cs_sheets st !! i) <-> i ∈ sheets_of l) ->
  exists st', free_entries l st = Some st' /\ cs_sheets st' = ∅.
Proof.
  induction l as [|e l IH]; intros st N M; cbn [free_entries].
  - exists st. split; [done|]. apply map_eq. intros i. rewrite lookup_empty. apply eq_None_not_Some. intros H. by apply M, not_elem_of_nil in H.
  - unfold xsltFreeStylesheet. unfold sheets_of in *. cbn in N, M. destruct (sc_stylesheet e) as [j|]; [|run_bind; by apply IH].
    destruct (proj2 (M j)) as [s ->]; [by left|]. run_bind. apply NoDup_cons in N as [Nj N]. apply IH; [done|].
    intros i. cbn [cs_sheets]. destruct (decide (i = j)) as [->|Ne].
    + rewrite lookup_delete_eq. split; [by intros []|done].
    + rewrite lookup_delete_ne, M, elem_of_cons by done. tauto.
Qed.

Lemma cache_small st : cache_ok st -> (size (cs_sheets st) <= CACHESIZE)%nat.
Proof.
  intros [L _ N M _ _]. rewrite <- size_dom. replace (dom (cs_sheets st)) with (list_to_set (C := gset nat) (sheets_of (cs_cache st))).
  - rewrite size_list_to_set, <- L by done. unfold sheets_of. clear. induction (cs_cache st) as [|e l IH]; [done|].
    cbn. destruct (sc_stylesheet e); cbn; lia.
  - apply set_eq. intros i. rewrite elem_of_list_to_set, elem_of_dom. by rewrite M.
Qed.


(** What is emptied for another file is the entry loaded last, although it is
    meant to be the oldest. *)
Lemma oldest_entry_last l : forall i age oldest,
  0 <= age -> Forall (fun e => 0 <= sc_cache_age e < 2 ^ 31) l ->
  (oldest_entry l i age oldest = oldest /\ Forall (fun e => sc_cache_age e <= age) l) \/
  exists j e, oldest_entry l i age oldest = (i + j)%nat /\ l !! j = Some e /\ Forall (fun e' => sc_cache_age e' <= sc_cache_age e) l /\
    age < sc_cache_age e.
Proof.
  induction l as [|e l IH]; intros i age oldest A R; cbn [oldest_entry]; [by left|]. apply Forall_cons in R as [Re R].
  destruct (Z.ltb_spec age (sc_cache_age e)).
  - rewrite (swrap_small 32) by lia. right.
    destruct (IH (S i) (sc_cache_age e) i ltac:(lia) R) as [[-> F]|(j & e1 & -> & L & F & G)].
    + exists 0%nat, e. split_and!; [lia|done| |lia]. constructor; [lia|done].
    + exists (S j), e1. split_and!; [lia|done| |lia]. constructor; [lia|done].
  - destruct (IH (S i) age oldest A R) as [[-> F]|(j & e1 & -> & L & F & G)].
    + left. split; [done|]. constructor; [lia|done].
    + right. exists (S j), e1. split_and!; [lia|done| |lia]. constructor; [lia|done].
Qed.
End cache.

(** ** The addresses of sheets *)

Inductive load_type := XSLT_LOAD_START | XSLT_LOAD_STYLESHEET | XSLT_LOAD_OTHER.

(** [admin_path], and how often the configuration is held. *)
Record loader_state := LoaderState { ls_admin_path : option string; ls_config_held : Z }.

Section loader.
(** Whether a path is there; how libxml2 puts addresses together; whether there
    is memory. *)
Variable access : string -> bool.
Variable xmlBuildRelativeURI xmlBuildURI : string -> string -> option string.
Variable memory : bool.

(** Where an include is looked for: an address, or nothing; [None] where an
    address is freed twice. *)
Definition include_address (admin_path : option string) (URI doc_URL : string) : option (option string) :=
  match xmlBuildRelativeURI URI doc_URL, admin_path with
  | Some rel_path, Some admin_path =>
      match xmlBuildURI rel_path admin_path with Some fn => Some (Some fn) | None => None end
  | _, _ => Some None
  end.

(** [custom_loader] up to the call of the loader of libxslt: the address that
    is loaded, if one is.  [url]: the address of the sheet that includes. *)
Definition custom_loader (adminroot_dir : string) (URI : string) (url : option string) (type : load_type) (st : loader_state)
    : option (option string * loader_state) :=
  match type with
  | XSLT_LOAD_STYLESHEET =>
      match util_url_unescape URI with
      | None => Some (None, st)
      | Some path_URI =>
          if access path_URI then Some (Some URI, st)
          else
            match url with
            | None => Some (Some URI, st)
            | Some u => final ← include_address (ls_admin_path st) URI u; Some (final, st)
            end
      end
  | XSLT_LOAD_START =>
      let held := ls_config_held st + 1 in
      let admin_path := p ← ls_admin_path st; if negb (streq adminroot_dir p) then None else Some p in
      match admin_path with
      | Some p => Some (Some URI, LoaderState (Some p) (held - 1))
      | None =>
          if memory then Some (Some URI, LoaderState (Some (adminroot_dir +:+ "/")%string) (held - 1))
          else Some (None, LoaderState None held)
      end
  | XSLT_LOAD_OTHER => Some (Some URI, st)
  end.
End loader.

(** ** Applying a sheet *)

(** What matters of [xsltStylesheet]. *)
Record xslt_sheet := XsltSheet {
  xs_encoding : option string;
  xs_mediaType : option string;
  xs_method : option string
}.

Definition sheet_mediatype (s : xslt_sheet) : string :=
  match xs_mediaType s with
  | Some m => m
  | None =>
      match xs_method s with
      | Some m => if streq m "html" then "text/html" else if streq m "text" then "text/plain" else "text/xml"
      | None => "text/xml"
      end
  end.

Inductive transformed := TransformError (id : Z) | Transformed (text : string).

Section transform.
Variable x : http_context.
Variable c : http_client.
(** What [xsltApplyStylesheet] makes of the document, if anything, as
    [xsltSaveResultToString] writes it: not at all, or a text, or no text. *)
Variable result : xslt_sheet -> option (option (option string)).
(** Whether [realloc] succeeds. *)
Variable memory : bool.

Definition transform_header (s : xslt_sheet) : string :=
  header_text x false 200 None (Some (sheet_mediatype s)) (xs_encoding s) None (Some c).

(** The size of the answer's buffer, and after the header is known. *)
Definition transform_buffer (s : xslt_sheet) (len : Z) : Z := Z.max 4096 (strlen (sheet_mediatype s) + len + 1024).

(** [xslt_transform], with the sheet that was found. *)
Definition xslt_transform (cur : option xslt_sheet) : transformed :=
  match cur with
  | None => TransformError ICECAST_ERROR_XSLT_PARSE
  | Some s =>
      match result s with
      | None | Some None => TransformError ICECAST_ERROR_XSLT_problem
      | Some (Some string) =>
          let string := default EmptyString string in
          let len := strlen string in
          let build full_len := util_http_build_header EmptyString full_len 0 x false 200 None (Some (sheet_mediatype s)) (xs_encoding s) None (Some c) in
          let full_len := transform_buffer s len in
          let '(head, ret) := build full_len in
          if ret =? -1 then TransformError ICECAST_ERROR_GEN_HEADER_GEN_FAILED
          else
            let print full_len '(head, ret) := Transformed (print_body full_len head ret string) in
            if full_len <? ret + len + 64 then
              if memory then print (ret + len + 64) (build (ret + len + 64))
              else TransformError ICECAST_ERROR_GEN_BUFFER_REALLOC
            else print full_len (head, ret)
      end
  end.
End transform.

(** What a stylesheet makes of a document reaches the client whole: the header
    with the type and the coding the sheet asks for, the length, and the text;
    nothing is cut off, however long it is. *)
Theorem xslt_transform_whole x c result memory s text :
  result s = Some (Some (Some text)) -> strlen text < 2 ^ 31 ->
  let header := transform_header x c s in
  if memory || (strlen header + strlen text + 64 <=? transform_buffer s (strlen text))
  then xslt_transform x c result memory (Some s) =
         Transformed (header +:+ "Content-Length: " +:+ dec (strlen text) +:+ crlf +:+ crlf +:+ text)%string
  else xslt_transform x c result memory (Some s) = TransformError ICECAST_ERROR_GEN_BUFFER_REALLOC.
Proof.
  intros R B header. assert (0 <= strlen header /\ 0 <= strlen text) as [P1 P2] by (unfold strlen; lia).
  unfold xslt_transform. rewrite R. change (default EmptyString (Some text)) with text.
  assert (forall n, util_http_build_header EmptyString n 0 x false 200 None (Some (sheet_mediatype s)) (xs_encoding s) None (Some c) =
            (fst (snprintf (Z.to_nat n) header), strlen header)) as E.
  { intros n. unfold util_http_build_header, snprintf. cbn [Z.eqb fst]. by rewrite Z.sub_0_r. }
  rewrite !E. destruct (Z.eqb_spec (strlen header) (-1)); [lia|]. set (k := transform_buffer s (strlen text)). cbv zeta.
  destruct (Z.ltb_spec k (strlen header + strlen text + 64)) as [L|L].
  - destruct (Z.leb_spec (strlen header + strlen text + 64) k); [lia|]. rewrite orb_false_r. destruct memory; [|done].
    f_equal. by apply print_body_whole.
  - destruct (Z.leb_spec (strlen header + strlen text + 64) k); [|lia]. rewrite orb_true_r. f_equal. by apply print_body_whole.
Qed.

(** ** Runs *)

(** Each file's sheet is known by its name and its time. *)
Definition demo_contents (f : string) (mtime : Z) : option (string * Z) := if streq f "bad.xsl" then None else Some (f, mtime).
Definition demo_time (mtime : Z) (f : string) : option Z := if streq f "gone.xsl" then None else Some mtime.
Definition demo_requests : list request :=
  [Request "a.xsl" (demo_time 5) 10; Request "b.xsl" (demo_time 5) 11; Request "bad.xsl" (demo_time 5) 12; Request "gone.xsl" (demo_time 5) 13;
   Request "d.xsl" (demo_time 5) 14; Request "a.xsl" (demo_time 7) 15; Request "bad.xsl" (demo_time 7) 16]%string.


(** Of three sheets loaded at 10, 11 and 12 the one of 12 goes for a fourth. *)
Lemma xslt_newest_evicted :
  (files_of ∘ cs_cache ∘ snd) <$> serve_all demo_contents
    [Request "a.xsl" (demo_time 5) 10; Request "b.xsl" (demo_time 5) 11; Request "c.xsl" (demo_time 5) 12; Request "d.xsl" (demo_time 5) 13]
    xslt_initialize = Some ["d.xsl"; "b.xsl"; "a.xsl"]%string.
Proof. reflexivity. Qed.

(** A file put back as it was before is not noticed. *)
Lemma xslt_older_unnoticed :
  fst <$> serve_all demo_contents [Request "a.xsl" (demo_time 5) 10; Request "a.xsl" (demo_time 4) 11] xslt_initialize =
    Some [Some ("a.xsl", 5); Some ("a.xsl", 5)]%string.
Proof. reflexivity. Qed.

(** Where no address can be made of the path of the administration, the path of
    the include is freed twice. *)
Lemma include_double_free access relative st :
  access "/a/b.xsl"%string = false -> relative "/a/b.xsl"%string "/a/c.xsl"%string = Some "b.xsl"%string ->
  custom_loader access relative (fun _ _ => None) true "/admin" "/a/b.xsl" (Some "/a/c.xsl"%string) XSLT_LOAD_STYLESHEET
    (LoaderState (Some "/admin/"%string) st) = None.
Proof.
  intros A R. unfold custom_loader. change (util_url_unescape "/a/b.xsl") with (Some "/a/b.xsl"%string). cbv iota. rewrite A.
  cbn [ls_admin_path]. unfold include_address. by rewrite R.
Qed.
