(* ===== verification/Stats.v ===== *)
(** The statistics of [stats.c]: the events other parts queue, the thread that
    works them into the trees of values, the clients that get a copy of every
    event, and the list of streams for relays.

    A tree ordered by name is the map of its nodes; the queues are the lists
    of their events, oldest first.  [None] is a null pointer that is read. *)

From S2P Require Import Prelude.
From stdpp Require Import sorting.
Local Open Scope Z_scope.

(** ** Events *)

Inductive stats_action :=
| STATS_EVENT_SET | STATS_EVENT_INC | STATS_EVENT_DEC | STATS_EVENT_ADD | STATS_EVENT_SUB
| STATS_EVENT_REMOVE | STATS_EVENT_HIDDEN.

#[export] Instance stats_action_eq_dec : EqDecision stats_action.
Proof. solve_decision. Defined.

Record stats_event := StatsEvent {
  e_source : option string;
  e_name : option string;
  e_value : option string;
  e_hidden : bool;
  e_action : stats_action
}.

#[export] Instance stats_event_eq_dec : EqDecision stats_event.
Proof. solve_decision. Defined.

Definition build_event (source name value : option string) : stats_event :=
  StatsEvent source name value false
    (match value with Some _ => STATS_EVENT_SET | None => STATS_EVENT_REMOVE end).

Definition set_action (a : stats_action) (e : stats_event) : stats_event :=
  StatsEvent (e_source e) (e_name e) (e_value e) (e_hidden e) a.
Definition set_value (v : option string) (e : stats_event) : stats_event :=
  StatsEvent (e_source e) (e_name e) v (e_hidden e) (e_action e).

(** [snprintf] into the 16 bytes of a value. *)
Definition value16 (z : Z) : string := fst (snprintf 16 (dec z)).

Section calls.
(** [xmlCheckUTF8], of libxml. *)
Variable xmlCheckUTF8 : string -> bool.

(** The calls append to the queue. *)
Definition stats_event_call (source name value : option string) (q : list stats_event) : list stats_event :=
  match value with
  | Some v => if xmlCheckUTF8 v then q ++ [build_event source name value] else q
  | None => q ++ [build_event source name value]
  end.

(** [stats_event_args], with the text its format gives. *)
Definition stats_event_args (source name : option string) (text : string) (q : list stats_event) :
    list stats_event :=
  match name with
  | None => q
  | Some _ => if 1024 <=? strlen text then q else stats_event_call source name (Some text) q
  end.
End calls.

Definition stats_event_hidden (source name : option string) (hidden : bool) (q : list stats_event) :
    list stats_event :=
  q ++ [set_action STATS_EVENT_HIDDEN (build_event source name (if hidden then Some EmptyString else None))].

Definition stats_event_inc (source : option string) (name : string) (q : list stats_event) : list stats_event :=
  q ++ [set_action STATS_EVENT_INC (build_event source (Some name) None)].
Definition stats_event_dec (source : option string) (name : string) (q : list stats_event) : list stats_event :=
  q ++ [set_action STATS_EVENT_DEC (build_event source (Some name) None)].
Definition stats_event_add (source : option string) (name : string) (value : Z) (q : list stats_event) :
    list stats_event :=
  q ++ [set_action STATS_EVENT_ADD (set_value (Some (value16 value)) (build_event source (Some name) None))].
Definition stats_event_sub (source : option string) (name : string) (value : Z) (q : list stats_event) :
    list stats_event :=
  q ++ [set_action STATS_EVENT_SUB (set_value (Some (value16 value)) (build_event source (Some name) None))].

(** ** The trees *)

Record stats_node := StatsNode { n_value : string; n_hidden : bool }.
Record stats_source := StatsSource { s_hidden : bool; s_tree : gmap string stats_node }.

Record stats := Stats {
  st_global : gmap string stats_node;
  st_sources : gmap string stats_source
}.

Definition set_global (m : gmap string stats_node) (s : stats) : stats := Stats m (st_sources s).
Definition set_sources (m : gmap string stats_source) (s : stats) : stats := Stats (st_global s) m.

(** [atoll]. *)
Definition atoll (s : string) : Z := fst (strtol s).

(** [modify_node_event]: the node changed, and the event, which is given the
    new value where it had none. *)
Definition modify_node_event (node : stats_node) (e : stats_event) : option (stats_node * stats_event) :=
  match e_action e with
  | STATS_EVENT_HIDDEN =>
      Some (StatsNode (n_value node) (match e_value e with Some _ => true | None => false end), e)
  | STATS_EVENT_SET => v ← e_value e; Some (StatsNode v (n_hidden node), e)
  | a =>
      value ← match a with
              | STATS_EVENT_INC => Some (i32 (atoi (n_value node) + 1))
              | STATS_EVENT_DEC => Some (i32 (atoi (n_value node) - 1))
              | STATS_EVENT_ADD => v ← e_value e; Some (i32 (atoi (n_value node) + atoi v))
              | STATS_EVENT_SUB => v ← e_value e; Some (i64 (atoll (n_value node) - atoll v))
              | _ => Some 0
              end;
      let str := value16 value in
      Some (StatsNode str (n_hidden node),
            match e_value e with Some _ => e | None => set_value (Some str) e end)
  end.

Definition process_global_event (e : stats_event) (s : stats) : option (stats_event * stats) :=
  name ← e_name e;
  match e_action e with
  | STATS_EVENT_REMOVE => Some (e, set_global (delete name (st_global s)) s)
  | _ =>
      match st_global s !! name with
      | Some node =>
          '(node, e) ← modify_node_event node e;
          Some (e, set_global (<[name := node]> (st_global s)) s)
      | None =>
          v ← e_value e;
          Some (e, set_global (<[name := StatsNode v false]> (st_global s)) s)
      end
  end.

Definition process_source_event (source : string) (e : stats_event) (s : stats) : option (stats_event * stats) :=
  let remove := bool_decide (e_action e = STATS_EVENT_REMOVE) in
  let hide := bool_decide (e_action e = STATS_EVENT_HIDDEN) in
  match (match st_sources s !! source with
         | Some snode => Some snode
         | None => if remove then None else Some (StatsSource hide ∅)
         end) with
  | None => Some (e, s)
  | Some snode =>
      let put snode := set_sources (<[source := snode]> (st_sources s)) s in
      match e_name e with
      | Some name =>
          match s_tree snode !! name with
          | None =>
              if remove then Some (e, put snode)
              else
                match e_value e with
                | Some v => Some (e, put (StatsSource (s_hidden snode)
                                            (<[name := StatsNode v (s_hidden snode)]> (s_tree snode))))
                | None => Some (e, put snode)
                end
          | Some node =>
              if remove then Some (e, put (StatsSource (s_hidden snode) (delete name (s_tree snode))))
              else
                '(node, e) ← modify_node_event node e;
                Some (e, put (StatsSource (s_hidden snode) (<[name := node]> (s_tree snode))))
          end
      | None =>
          if hide then
            let h := match e_value e with Some _ => true | None => false end in
            Some (e, put (StatsSource h ((fun n => StatsNode (n_value n) h) <$> s_tree snode)))
          else if remove then Some (e, set_sources (delete source (st_sources s)) s)
          else Some (e, put snode)
      end
  end.

Definition process_event (e : stats_event) (s : stats) : option (stats_event * stats) :=
  match e_source e with
  | None => process_global_event e s
  | Some source => process_source_event source e s
  end.

(** ** The thread and its clients *)

(** A copy has no action: it is [STATS_EVENT_SET] whatever the event was. *)
Definition copy_event (e : stats_event) : stats_event :=
  StatsEvent (e_source e) (e_name e) (e_value e) (e_hidden e) STATS_EVENT_SET.

Record stats_thread := StatsThread {
  t_queue : list stats_event;
  t_stats : stats;
  t_listeners : list (list stats_event)
}.

Definition t_set_queue (q : list stats_event) (t : stats_thread) : stats_thread :=
  StatsThread q (t_stats t) (t_listeners t).

(** One turn of [_stats_thread]. *)
Definition stats_step (t : stats_thread) : option stats_thread :=
  match t_queue t with
  | [] => Some t
  | e :: q =>
      '(e, s) ← process_event e (t_stats t);
      Some (StatsThread q s ((fun l => l ++ [copy_event e]) <$> t_listeners t))
  end.

(** The events the thread starts with. *)
Definition zero_names : list string := [
  "clients"; "connections"; "sources"; "stats"; "listeners"; "client_connections";
  "source_client_connections"; "source_relay_connections"; "source_total_connections";
  "stats_connections"; "listener_connections"]%string.

Definition make_event_from_node (source : option string) (name : string) (node : stats_node) : stats_event :=
  StatsEvent source (Some name) (Some (n_value node)) (n_hidden node) STATS_EVENT_SET.

(** The keys of a tree in the order it is walked. *)
Definition name_le (a b : string) : Prop := String.leb a b = true.
#[export] Instance name_le_dec a b : Decision (name_le a b) := decide (String.leb a b = true).

Definition tree_names {A} (m : gmap string A) : list string := merge_sort name_le (elements (dom m)).

Definition node_events (source : option string) (m : gmap string stats_node) : list stats_event :=
  name ← tree_names m;
  match m !! name with Some node => [make_event_from_node source name node] | None => [] end.

(** [_register_listener]: the queue of a new listener. *)
Definition register_queue (s : stats) : list stats_event :=
  node_events None (st_global s) ++
  (source ← tree_names (st_sources s);
   match st_sources s !! source with Some snode => node_events (Some source) (s_tree snode) | None => [] end).

Definition register_listener (t : stats_thread) : stats_thread :=
  StatsThread (t_queue t) (t_stats t) (register_queue (t_stats t) :: t_listeners t).

(** The line [_send_event_to_client] sends; none when it does not fit. *)
Definition event_line (e : stats_event) : option string :=
  let line := ("EVENT " +:+ default "global" (e_source e) +:+ " " +:+ default "null" (e_name e) +:+ " " +:+
    default "null" (e_value e))%string +:+ String (chr 10) EmptyString in
  if strlen line <? 200 then Some line else None.

(** ** The list of streams *)

Definition STREAMLIST_BLKSIZE : Z := 4096.

(** The blocks filled so far, each with its length, the last block with the
    space left in it. *)
Definition put_stream (name : string) (b : list (string * Z) * string * Z) : list (string * Z) * string * Z :=
  let '(full, cur, remaining) := b in
  let '(full, cur, remaining) :=
    if remaining <=? strlen name + 3
    then (full ++ [(cur, u32 (STREAMLIST_BLKSIZE - remaining))], EmptyString, STREAMLIST_BLKSIZE)
    else (full, cur, remaining) in
  let line := name +:+ String (chr 13) (String (chr 10) EmptyString) in
  (full, cur +:+ fst (snprintf (Z.to_nat remaining) line), u32 (remaining - strlen line)).

Definition visible_streams (s : stats) : list string :=
  name ← tree_names (st_sources s);
  match st_sources s !! name with
  | Some snode => if s_hidden snode then [] else [name]
  | None => []
  end.

Definition stats_get_streams (s : stats) : list (string * Z) :=
  let '(full, cur, remaining) :=
    foldl (fun b n => put_stream n b) ([], EmptyString, STREAMLIST_BLKSIZE) (visible_streams s) in
  full ++ [(cur, u32 (STREAMLIST_BLKSIZE - remaining))].

(** [stats_clear_virtual_mounts]: [exists_mount] tells whether a source is
    reserved for a mount. *)
Definition stats_clear_virtual_mounts (exists_mount : string -> bool) (s : stats) : stats :=
  set_sources (filter (fun p => exists_mount p.1 = true) (st_sources s)) s.
