(* ===== verification/StatsFacts.v ===== *)
(** Theorems on [Stats.v]: counters count, a client that applies the copies
    of the events holds the server's statistics, and the list of streams is
    whole. *)

From S2P Require Import Prelude Convert Stats.
From stdpp Require Import sorting.
Local Open Scope Z_scope.

(** ** Numbers as text *)

(** A number of fewer than fifteen digits fits the space of a value. *)
Lemma value16_dec n : - 10 ^ 14 < n < 10 ^ 14 -> value16 n = dec n.
Proof.
  intros Hn. assert (strlen (dec n) <= 15) as L.
  { assert (forall p, Z.pos p < 10 ^ 14 -> strlen (dec (Z.pos p)) <= 14) as K.
    { intros p Hp. pose proof (dec_pos_len p). destruct (Z.le_gt_cases (strlen (dec (Z.pos p))) 14); [done|].
      assert (10 ^ 14 <= 10 ^ (strlen (dec (Z.pos p)) - 1)) by (apply Z.pow_le_mono_r; lia). lia. }
    destruct n as [|p|p]; [done| |].
    - specialize (K p). lia.
    - rewrite dec_neg. specialize (K p). unfold strlen in *. cbn [String.length]. lia. }
  unfold value16, snprintf. cbn [fst]. apply string_take_all. unfold strlen in L. lia.
Qed.

(** ** Runs *)

Fixpoint run_events (es : list stats_event) (s : stats) : option (list stats_event * stats) :=
  match es with
  | [] => Some ([], s)
  | e :: r =>
      '(e, s) ← process_event e s;
      '(r, s) ← run_events r s;
      Some (e :: r, s)
  end.

(** Events as the calls make them, when the global values of [base] are
    there. *)
Record event_ok (base : gset string) (e : stats_event) : Prop := {
  ok_value :
    match e_action e with
    | STATS_EVENT_SET | STATS_EVENT_ADD | STATS_EVENT_SUB => is_Some (e_value e)
    | STATS_EVENT_INC | STATS_EVENT_DEC | STATS_EVENT_REMOVE => e_value e = None
    | STATS_EVENT_HIDDEN => True
    end;
  ok_global : e_source e = None ->
    exists name, e_name e = Some name /\
      match e_action e with
      | STATS_EVENT_REMOVE => name ∉ base
      | STATS_EVENT_INC | STATS_EVENT_DEC | STATS_EVENT_HIDDEN => name ∈ base
      | _ => True
      end;
  ok_name :
    match e_action e with STATS_EVENT_INC | STATS_EVENT_DEC => is_Some (e_name e) | _ => True end
}.

Definition has_base (base : gset string) (s : stats) : Prop := forall n, n ∈ base -> is_Some (st_global s !! n).

Lemma modify_node_ok node base e :
  event_ok base e -> e_action e <> STATS_EVENT_REMOVE -> exists n e', modify_node_event node e = Some (n, e').
Proof.
  intros [V _ _] N. unfold modify_node_event. destruct (e_value e) as [v|]; destruct (e_action e); run_bind; eauto;
    by destruct V.
Qed.

Lemma has_base_insert base name node s :
  has_base base s -> has_base base (set_global (<[name := node]> (st_global s)) s).
Proof. intros H n Hn. cbn. destruct (decide (n = name)) as [->|]; [rewrite lookup_insert_eq; eauto|]. rewrite lookup_insert_ne by done. by apply H. Qed.

Lemma process_event_ok base e s :
  event_ok base e -> has_base base s -> exists e' s', process_event e s = Some (e', s') /\ has_base base s'.
Proof.
  intros O B. pose proof O as [V G _]. unfold process_event. destruct (e_source e) as [source|].
  - unfold process_source_event.
    destruct (match st_sources s !! source with Some _ => _ | None => _ end) as [snode|] eqn:Es; [|by eexists _, _].
    assert (forall (e' : stats_event) m, exists e2 s', Some (e', set_sources m s) = Some (e2, s') /\ has_base base s') as K by eauto.
    destruct (e_name e) as [name|].
    + destruct (s_tree snode !! name) as [node|].
      * case_bool_decide as Hr; [apply K|].
        destruct (modify_node_ok node base e O Hr) as (n & e' & ->). run_bind. apply K.
      * case_bool_decide; [apply K|]. destruct (e_value e); apply K.
    + repeat case_bool_decide; apply K.
  - destruct (G eq_refl) as (name & En & Hn). unfold process_global_event. rewrite En. run_bind.
    destruct (decide (e_action e = STATS_EVENT_REMOVE)) as [Er|Nr].
    + rewrite Er in *. eexists _, _. split; [done|]. intros n I. cbn. rewrite lookup_delete_ne by congruence. by apply B.
    + assert (match st_global s !! name with
        | Some node => '(node, e) ← modify_node_event node e; Some (e, set_global (<[name := node]> (st_global s)) s)
        | None => v ← e_value e; Some (e, set_global (<[name := StatsNode v false]> (st_global s)) s)
        end = (match e_action e with STATS_EVENT_REMOVE => Some (e, set_global (delete name (st_global s)) s)
          | _ => match st_global s !! name with
        | Some node => '(node, e) ← modify_node_event node e; Some (e, set_global (<[name := node]> (st_global s)) s)
        | None => v ← e_value e; Some (e, set_global (<[name := StatsNode v false]> (st_global s)) s)
        end end)) as <- by by destruct (e_action e).
      destruct (st_global s !! name) as [node|] eqn:E.
      * destruct (modify_node_ok node base e O Nr) as (n & e' & ->). run_bind.
        eexists _, _. split; [done|]. by apply has_base_insert.
      * assert (name ∉ base) as Nb by (intros I; apply B in I as [? ?]; congruence).
        assert (is_Some (e_value e)) as [v ->] by (destruct (e_action e); done).
        run_bind. eexists _, _. split; [done|]. by apply has_base_insert.
Qed.

Lemma run_events_ok base es s :
  Forall (event_ok base) es -> has_base base s -> exists es' s', run_events es s = Some (es', s') /\ has_base base s'.
Proof.
  intros F. revert s. induction F as [|e es O _ IH]; intros s B; cbn [run_events]; [by eexists _, _|].
  destruct (process_event_ok base e s O B) as (e' & s' & -> & B'). run_bind.
  destruct (IH s' B') as (es' & s2 & -> & B2). run_bind. by eexists _, _.
Qed.

(** ** Counters *)

(** What an event adds to a global counter. *)
Definition event_delta (e : stats_event) : Z :=
  match e_action e with STATS_EVENT_INC => 1 | STATS_EVENT_DEC => -1 | _ => 0 end.

Definition concerns (name : string) (e : stats_event) : bool :=
  bool_decide (e_source e = None) && bool_decide (e_name e = Some name).

Definition counter_delta (name : string) (es : list stats_event) : Z :=
  foldr (fun e z => (if concerns name e then event_delta e else 0) + z) 0 es.

Lemma process_other name e s e' s' :
  process_event e s = Some (e', s') -> concerns name e = false -> st_global s' !! name = st_global s !! name.
Proof.
  unfold process_event, concerns. destruct (e_source e) as [source|].
  - intros H _. unfold process_source_event in H.
    destruct (match st_sources s !! source with Some _ => _ | None => _ end) as [snode|]; [|by injection H as _ <-].
    destruct (e_name e) as [nm|].
    + destruct (s_tree snode !! nm) as [node|].
      * destruct (bool_decide _); [by injection H as _ <-|].
        destruct (modify_node_event node e) as [[n e2]|]; [|done]. revert H. run_bind. by intros [= _ <-].
      * destruct (bool_decide _); [by injection H as _ <-|]. destruct (e_value e); by injection H as _ <-.
    + destruct (bool_decide _); [by injection H as _ <-|]. destruct (bool_decide _); by injection H as _ <-.
  - intros H N. unfold process_global_event in H. destruct (e_name e) as [nm|] eqn:En; [|done].
    assert (nm <> name) as Nn by (intros ->; by rewrite !bool_decide_eq_true_2 in N).
    revert H. run_bind.
    destruct (e_action e); try (intros [= _ <-]; cbn; by apply lookup_delete_ne);
      (destruct (st_global s !! nm) as [node|];
        [destruct (modify_node_event node e) as [[n e2]|]; [|done]|destruct (e_value e); [|done]]);
      run_bind; intros [= _ <-]; cbn; by apply lookup_insert_ne.
Qed.

(** A global counter is the number of increments less the number of
    decrements, whatever else happens in between; no event is lost or stops
    the thread. *)
Theorem stats_counter base name es s n h :
  Forall (event_ok base) es -> has_base base s ->
  Forall (fun e => concerns name e = true -> e_action e = STATS_EVENT_INC \/ e_action e = STATS_EVENT_DEC) es ->
  st_global s !! name = Some (StatsNode (dec n) h) -> Z.abs n + Z.of_nat (length es) < 2 ^ 31 ->
  exists es' s', run_events es s = Some (es', s') /\
    st_global s' !! name = Some (StatsNode (dec (n + counter_delta name es)) h).
Proof.
  intros F. revert s n. induction F as [|e es O F IH]; intros s n B C E Hn.
  { eexists _, _. split; [done|]. cbn. by rewrite Z.add_0_r. }
  apply Forall_cons in C as [C1 C2]. cbn [length] in Hn. rewrite Nat2Z.inj_succ in Hn.
  destruct (process_event_ok base e s O B) as (e' & s1 & Ep & B1). cbn [run_events]. rewrite Ep. run_bind.
  assert (exists k, st_global s1 !! name = Some (StatsNode (dec (n + k)) h) /\ Z.abs k <= 1 /\
    k = if concerns name e then event_delta e else 0) as (k & Ek & Hk & Dk).
  { destruct (concerns name e) eqn:Ec.
    2: { exists 0. rewrite Z.add_0_r. by rewrite (process_other _ _ _ _ _ Ep Ec). }
    specialize (C1 eq_refl). unfold concerns in Ec. apply andb_true_iff in Ec as [E1 E2].
    apply bool_decide_eq_true in E1, E2. exists (event_delta e).
    unfold process_event, process_global_event, modify_node_event in Ep. rewrite E1, E2 in Ep. revert Ep. run_bind.
    rewrite E. cbn [n_value n_hidden]. unfold event_delta.
    destruct C1 as [-> | ->]; run_bind; intros [= _ <-]; cbn [st_global set_global];
      rewrite lookup_insert_eq, atoi_dec by lia; (split; [|lia]); do 2 f_equal;
      rewrite swrap_small by lia; rewrite value16_dec by lia; f_equal; lia. }
  destruct (IH s1 (n + k) B1 C2 Ek ltac:(lia)) as (es' & s2 & -> & E2). run_bind.
  eexists _, _. split; [done|]. cbn [counter_delta foldr]. rewrite E2. unfold counter_delta. rewrite <- Dk.
  do 2 f_equal. f_equal. lia.
Qed.

(** ** Replicas *)

(** What a stats client makes of the lines it gets. *)
Definition replay_event (v : gmap (option string * string) string) (e : stats_event) :
    gmap (option string * string) string :=
  match e_name e, e_value e with
  | Some n, Some x => <[(e_source e, n) := x]> v
  | Some n, None => delete (e_source e, n) v
  | None, None => filter (fun p => p.1.1 <> e_source e) v
  | None, Some _ => v
  end.

Definition replay (es : list stats_event) : gmap (option string * string) string := foldl replay_event ∅ es.

(** The value of a statistic. *)
Definition value_of (s : stats) (source : option string) (name : string) : option string :=
  match source with
  | None => n_value <$> st_global s !! name
  | Some m => snode ← st_sources s !! m; n_value <$> s_tree snode !! name
  end.

Definition agrees (v : gmap (option string * string) string) (s : stats) : Prop :=
  forall source name, v !! (source, name) = value_of s source name.

Fixpoint stats_steps (n : nat) (t : stats_thread) : option stats_thread :=
  match n with O => Some t | S n => t ← stats_step t; stats_steps n t end.

Lemma elem_of_tree_names {A} (m : gmap string A) n : n ∈ tree_names m <-> is_Some (m !! n).
Proof. unfold tree_names. rewrite merge_sort_Permutation, elem_of_elements. apply elem_of_dom. Qed.

Lemma replay_names source (m : gmap string stats_node) l v src n :
  (forall x, x ∈ l -> is_Some (m !! x)) ->
  foldl replay_event v (name ← l; match m !! name with
    | Some node => [make_event_from_node source name node] | None => [] end) !! (src, n) =
  if bool_decide (src = source /\ n ∈ l) then n_value <$> m !! n else v !! (src, n).
Proof.
  revert v. induction l as [|x l IH]; intros v H.
  { cbn. rewrite bool_decide_eq_false_2; [done|]. by intros [_ ?%not_elem_of_nil]. }
  destruct (H x ltac:(left)) as [node En]. cbn [mbind list_bind]. rewrite En. cbn [app foldl].
  rewrite IH by (intros; apply H; by right). cbn [replay_event make_event_from_node e_name e_value e_source].
  destruct (decide (src = source)) as [->|N].
  - destruct (decide (n = x)) as [->|Nx].
    + rewrite (bool_decide_eq_true_2 (_ /\ x ∈ x :: l)) by (split; [done|left]).
      case_bool_decide; [done|]. by rewrite lookup_insert_eq, En.
    + rewrite lookup_insert_ne by congruence.
      destruct (decide (n ∈ l)).
      * rewrite !bool_decide_eq_true_2; [done|split; [done|by right]|done].
      * rewrite !bool_decide_eq_false_2; [done| |]; [intros [_ [?|?]%elem_of_cons]; congruence|by intros [_ ?]].
  - rewrite !bool_decide_eq_false_2; [|by intros [? _]|by intros [? _]]. by rewrite lookup_insert_ne by congruence.
Qed.

Lemma replay_node_events source (m : gmap string stats_node) v src n :
  foldl replay_event v (node_events source m) !! (src, n) =
  if bool_decide (src = source /\ is_Some (m !! n)) then n_value <$> m !! n else v !! (src, n).
Proof.
  unfold node_events. rewrite replay_names by (intros x; apply elem_of_tree_names).
  erewrite bool_decide_ext; [reflexivity|]. by rewrite elem_of_tree_names.
Qed.

Lemma replay_sources (m : gmap string stats_source) l v src n :
  NoDup l ->
  foldl replay_event v (source ← l; match m !! source with
    | Some snode => node_events (Some source) (s_tree snode) | None => [] end) !! (src, n) =
  match src with
  | Some x =>
      if bool_decide (x ∈ l) then
        match m !! x with
        | Some snode => match s_tree snode !! n with Some node => Some (n_value node) | None => v !! (src, n) end
        | None => v !! (src, n)
        end
      else v !! (src, n)
  | None => v !! (src, n)
  end.
Proof.
  revert v. induction l as [|y l IH]; intros v ND; [by destruct src|]. apply NoDup_cons in ND as [Ny ND].
  cbn [mbind list_bind]. rewrite foldl_app, IH by done.
  assert (forall x, foldl replay_event v (match m !! y with
    | Some snode => node_events (Some y) (s_tree snode) | None => [] end) !! (x, n) =
    if bool_decide (x = Some y) then
      match m !! y with
      | Some snode => match s_tree snode !! n with Some node => Some (n_value node) | None => v !! (x, n) end
      | None => v !! (x, n)
      end
    else v !! (x, n)) as K.
  { intros x. destruct (m !! y) as [snode|]; [|by case_bool_decide]. rewrite replay_node_events.
    destruct (decide (x = Some y)) as [->|N]; [|by rewrite !bool_decide_eq_false_2 by (intros ?; destruct_and?; congruence)].
    rewrite (bool_decide_eq_true_2 (Some y = Some y)) by done. destruct (s_tree snode !! n) as [node|].
    - by rewrite bool_decide_eq_true_2 by (split; [done|eauto]).
    - by rewrite bool_decide_eq_false_2 by (intros [_ [? ?]]; done). }
  destruct src as [x|]; rewrite !K; [|done].
  destruct (decide (x = y)) as [->|Nx].
  - rewrite (bool_decide_eq_false_2 (y ∈ l)), (bool_decide_eq_true_2 (y ∈ y :: l)) by (done || left).
    by rewrite bool_decide_eq_true_2.
  - rewrite (bool_decide_eq_false_2 (Some x = Some y)) by congruence.
    erewrite (bool_decide_ext (x ∈ y :: l)); [reflexivity|]. rewrite elem_of_cons. tauto.
Qed.

(** The queue a listener starts with holds the statistics. *)
Lemma register_agrees s : agrees (replay (register_queue s)) s.
Proof.
  intros source name. unfold replay, register_queue. rewrite foldl_app, replay_sources.
  2: { unfold tree_names. rewrite merge_sort_Permutation. apply NoDup_elements. }
  assert (forall x, foldl replay_event ∅ (node_events None (st_global s)) !! (x, name) =
    if bool_decide (x = None) then n_value <$> st_global s !! name else None) as K.
  { intros x. rewrite replay_node_events, lookup_empty.
    destruct (decide (x = None)) as [->|N]; [|by rewrite !bool_decide_eq_false_2 by (intros ?; destruct_and?; congruence)].
    rewrite (bool_decide_eq_true_2 (None = None)) by done. destruct (st_global s !! name) as [node|].
    - by rewrite bool_decide_eq_true_2 by (split; [done|eauto]).
    - by rewrite bool_decide_eq_false_2 by (intros [_ [? ?]]; done). }
  destruct source as [x|]; rewrite !K; [|by rewrite bool_decide_eq_true_2]. cbn [value_of]. rewrite (bool_decide_eq_false_2 (Some x = None)) by done.
  destruct (st_sources s !! x) as [snode|] eqn:E; [|by destruct (bool_decide (x ∈ _))].
  rewrite bool_decide_eq_true_2 by (apply elem_of_tree_names; eauto). cbn. by destruct (s_tree snode !! name).
Qed.

(** The actions a client can follow: their event carries the new value. *)
Definition followed (e : stats_event) : Prop :=
  match e_action e with
  | STATS_EVENT_ADD | STATS_EVENT_SUB | STATS_EVENT_HIDDEN => False
  | _ => True
  end.

Lemma agrees_insert v s src name x s' :
  agrees v s -> value_of s' src name = Some x ->
  (forall src' n, (src', n) <> (src, name) -> value_of s' src' n = value_of s src' n) ->
  agrees (<[(src, name) := x]> v) s'.
Proof.
  intros A E O src' n. destruct (decide ((src', n) = (src, name))) as [[= -> ->]|N].
  - by rewrite lookup_insert_eq.
  - rewrite lookup_insert_ne by congruence. by rewrite O.
Qed.

Lemma agrees_delete v s src name s' :
  agrees v s -> value_of s' src name = None ->
  (forall src' n, (src', n) <> (src, name) -> value_of s' src' n = value_of s src' n) ->
  agrees (delete (src, name) v) s'.
Proof.
  intros A E O src' n. destruct (decide ((src', n) = (src, name))) as [[= -> ->]|N].
  - by rewrite lookup_delete_eq.
  - rewrite lookup_delete_ne by congruence. by rewrite O.
Qed.

Lemma modify_followed node base e n e' :
  event_ok base e -> followed e -> e_action e <> STATS_EVENT_REMOVE -> modify_node_event node e = Some (n, e') ->
  e_value e' = Some (n_value n) /\ e_name e' = e_name e /\ e_source e' = e_source e.
Proof.
  intros [V _ _] Fo N. unfold modify_node_event, followed in *.
  destruct (e_action e); try done; run_bind;
    [destruct (e_value e) as [v|] eqn:Ev; [|done]; run_bind; by intros [= <- <-]|rewrite V; by intros [= <- <-]..].
Qed.

Lemma process_global_agrees base e v s e' s' :
  event_ok base e -> followed e -> e_source e = None -> agrees v s -> process_global_event e s = Some (e', s') ->
  agrees (replay_event v e') s'.
Proof.
  intros O Fo Es A. destruct (ok_global _ _ O Es) as (name & En & _). unfold process_global_event. rewrite En. run_bind.
  assert (forall m, (forall n, n <> name -> m !! n = st_global s !! n) ->
    forall src' n, (src', n) <> (None, name) -> value_of (set_global m s) src' n = value_of s src' n) as K.
  { intros m Hm [src'|] n N; [done|]. cbn. by rewrite Hm by congruence. }
  assert (forall m, st_global (set_global m s) = m) as Sg by done.
  destruct (decide (e_action e = STATS_EVENT_REMOVE)) as [Er|Nr].
  { rewrite Er. intros [= <- <-]. pose proof (ok_value _ _ O) as V. rewrite Er in V.
    unfold replay_event. rewrite En, V, Es. eapply agrees_delete; [done| |].
    - cbn. by rewrite lookup_delete_eq.
    - apply K. intros n N. by apply lookup_delete_ne. }
  intros H.
  assert (exists node x, e_value e' = Some x /\ n_value node = x /\ e_name e' = Some name /\ e_source e' = None /\
    s' = set_global (<[name := node]> (st_global s)) s) as (node & x & E1 & E2 & E3 & E4 & ->).
  { destruct (st_global s !! name) as [node|] eqn:E.
    - destruct (modify_node_event node e) as [[n e2]|] eqn:Em; [|by destruct (e_action e)].
      destruct (modify_followed _ _ _ _ _ O Fo Nr Em) as (H1 & H2 & H3).
      assert (Some (e2, set_global (<[name := n]> (st_global s)) s) = Some (e', s')) as [= -> <-].
      { destruct (e_action e); try exact H; done. }
      exists n, (n_value n). rewrite H1, H2, H3. by split_and!.
    - destruct (e_value e) as [v0|] eqn:Ev; [|by destruct (e_action e)].
      assert (Some (e, set_global (<[name := StatsNode v0 false]> (st_global s)) s) = Some (e', s')) as [= -> <-].
      { destruct (e_action e); try exact H; done. }
      exists (StatsNode v0 false), v0. by split_and!. }
  unfold replay_event. rewrite E1, E3, E4. eapply agrees_insert; [done| |].
  - cbn. by rewrite lookup_insert_eq, <- E2.
  - apply K. intros n N. by apply lookup_insert_ne.
Qed.

Lemma value_put s source snode src' n :
  value_of (set_sources (<[source := snode]> (st_sources s)) s) src' n =
  if bool_decide (src' = Some source) then n_value <$> s_tree snode !! n else value_of s src' n.
Proof.
  destruct src' as [x|]; cbn [value_of set_sources st_sources st_global]; [|by rewrite bool_decide_eq_false_2].
  destruct (decide (x = source)) as [->|N].
  - rewrite lookup_insert_eq, bool_decide_eq_true_2 by done. done.
  - rewrite lookup_insert_ne, bool_decide_eq_false_2 by congruence. done.
Qed.

Lemma drop_source (v : gmap (option string * string) string) src src' n :
  filter (fun p => p.1.1 <> src) v !! (src', n) = if bool_decide (src' = src) then None else v !! (src', n).
Proof.
  case_bool_decide as H.
  - apply map_lookup_filter_None_2. right. intros x _ N. by apply N.
  - destruct (v !! (src', n)) as [x|] eqn:E; [by apply map_lookup_filter_Some_2|].
    apply map_lookup_filter_None_2. by left.
Qed.

Lemma process_source_agrees base source e v s e' s' :
  event_ok base e -> followed e -> e_source e = Some source -> agrees v s ->
  process_source_event source e s = Some (e', s') -> agrees (replay_event v e') s'.
Proof.
  intros O Fo Es A. unfold process_source_event.
  assert (bool_decide (e_action e = STATS_EVENT_HIDDEN) = false) as ->.
  { apply bool_decide_eq_false_2. intros E. unfold followed in Fo. by rewrite E in Fo. }
  pose proof (ok_value _ _ O) as V.
  set (o := match st_sources s !! source with Some _ => _ | None => _ end).
  assert (forall n, value_of s (Some source) n = snode ← o; n_value <$> s_tree snode !! n) as Ko.
  { intros n. cbn. unfold o. destruct (st_sources s !! source) as [snode|]; [done|].
    case_bool_decide; [done|]. cbn. by rewrite lookup_empty. }
  assert (bool_decide (e_action e = STATS_EVENT_REMOVE) = true -> e_value e = None) as Hr.
  { intros H%bool_decide_eq_true. by rewrite H in V. }
  destruct o as [snode|] eqn:Eo.
  2: { intros [= <- <-]. assert (e_value e = None) as Hv.
    { apply Hr. unfold o in Eo. destruct (st_sources s !! source); [done|]. by destruct (bool_decide _). }
    unfold replay_event. rewrite Hv, Es. destruct (e_name e) as [nm|].
    - eapply agrees_delete; [done|apply Ko|done].
    - intros src' n. rewrite drop_source. destruct (decide (src' = Some source)) as [->|N].
      + by rewrite bool_decide_eq_true_2, Ko.
      + rewrite bool_decide_eq_false_2 by done. apply A. }
  assert (forall snode' src' n, src' <> Some source -> value_of (set_sources (<[source := snode']> (st_sources s)) s) src' n =
    value_of s src' n) as K1 by (intros; rewrite value_put; by rewrite bool_decide_eq_false_2).
  assert (forall snode' n, value_of (set_sources (<[source := snode']> (st_sources s)) s) (Some source) n =
    n_value <$> s_tree snode' !! n) as K2 by (intros; rewrite value_put; by rewrite bool_decide_eq_true_2).
  cbn [mbind option_bind] in Ko.
  assert (forall snode' name, (forall n, n <> name -> s_tree snode' !! n = s_tree snode !! n) -> forall src' n,
    (src', n) <> (Some source, name) -> value_of (set_sources (<[source := snode']> (st_sources s)) s) src' n =
    value_of s src' n) as K3.
  { intros snode' name H src' n N. destruct (decide (src' = Some source)) as [->|]; [|by apply K1].
    rewrite K2, Ko. by rewrite H by congruence. }
  destruct (e_name e) as [name|] eqn:En.
  - destruct (s_tree snode !! name) as [node|] eqn:Et.
    + case_bool_decide as Hb.
      * intros [= <- <-]. unfold replay_event. rewrite En, Hr, Es by done. eapply agrees_delete; [done| |].
        -- rewrite K2. cbn. by rewrite lookup_delete_eq.
        -- apply K3. intros n N. by apply lookup_delete_ne.
      * destruct (modify_node_event node e) as [[n e2]|] eqn:Em; [|done]. run_bind. intros [= <- <-].
        destruct (modify_followed _ _ _ _ _ O Fo Hb Em) as (H1 & H2 & H3).
        unfold replay_event. rewrite H1, H2, H3, En, Es. eapply agrees_insert; [done| |].
        -- rewrite K2. cbn. by rewrite lookup_insert_eq.
        -- apply K3. intros m N. by apply lookup_insert_ne.
    + assert (agrees (delete (Some source, name) v) (set_sources (<[source := snode]> (st_sources s)) s)) as KD.
      { eapply agrees_delete; [done| |]; [by rewrite K2, Et|by apply K3]. }
      case_bool_decide as Hb.
      * intros [= <- <-]. unfold replay_event. by rewrite En, Hr, Es.
      * destruct (e_value e) as [x|] eqn:Ev; intros [= <- <-]; unfold replay_event; rewrite En, Ev, Es; [|done].
        eapply agrees_insert; [done| |].
        -- rewrite K2. cbn. by rewrite lookup_insert_eq.
        -- apply K3. intros m N. by apply lookup_insert_ne.
  - case_bool_decide as Hb.
    + intros [= <- <-]. unfold replay_event. rewrite En, Hr, Es by done. intros src' n. rewrite drop_source.
      case_bool_decide as H; [subst; cbn; by rewrite lookup_delete_eq|]. rewrite A.
      destruct src' as [x|]; [|done]. cbn. by rewrite lookup_delete_ne by congruence.
    + assert (is_Some (e_value e) -> agrees (replay_event v e) (set_sources (<[source := snode]> (st_sources s)) s)) as KA.
      { intros [x Hx]. unfold replay_event. rewrite En, Hx. intros src' n. rewrite value_put, A.
        case_bool_decide as H; [subst; by rewrite Ko|done]. }
      intros [= <- <-]. apply KA. pose proof (ok_name _ _ O) as Nm. rewrite En in Nm.
      unfold followed in Fo. destruct (e_action e); try done; by destruct Nm.
Qed.

Lemma run_events_agrees base es v s es' s' :
  Forall (event_ok base) es -> Forall followed es -> agrees v s -> run_events es s = Some (es', s') ->
  agrees (foldl replay_event v es') s'.
Proof.
  intros F. revert v s es'. induction F as [|e es O F IH]; intros v s es' Fo A; cbn [run_events].
  { by intros [= <- <-]. }
  apply Forall_cons in Fo as [Fe Fo]. destruct (process_event e s) as [[e1 s1]|] eqn:E; [|done]. run_bind.
  destruct (run_events es s1) as [[es1 s2]|] eqn:E2; [|done]. run_bind. intros [= <- <-]. cbn [foldl].
  eapply IH; [done| |done]. unfold process_event in E. destruct (e_source e) as [source|] eqn:Es.
  - by eapply process_source_agrees.
  - by eapply process_global_agrees.
Qed.

Lemma replay_copy es v : foldl replay_event v (copy_event <$> es) = foldl replay_event v es.
Proof. revert v. induction es as [|e es IH]; intros v; [done|]. cbn [fmap list_fmap foldl]. by rewrite IH. Qed.

Lemma stats_steps_run es t s es' :
  t_queue t = es -> run_events es (t_stats t) = Some (es', s) ->
  stats_steps (length es) t = Some (StatsThread [] s ((fun l => l ++ (copy_event <$> es')) <$> t_listeners t)).
Proof.
  revert t es'. induction es as [|e es IH]; intros t es' Eq; cbn [run_events length stats_steps].
  { intros [= <- <-]. destruct t as [q st l]. cbn in *. subst q. do 2 f_equal. symmetry. rewrite <- (list_fmap_id l) at 2.
    apply list_fmap_ext. intros i x _. apply app_nil_r. }
  unfold stats_step. rewrite Eq. destruct (process_event e (t_stats t)) as [[e1 s1]|]; [|done]. run_bind.
  destruct (run_events es s1) as [[es1 s2]|] eqn:E; [|done]. run_bind. intros [= <- <-].
  rewrite (IH (StatsThread es s1 _) es1 eq_refl E). cbn [t_listeners]. do 2 f_equal. rewrite <- list_fmap_compose.
  apply list_fmap_ext. intros i x _. cbn. by rewrite <- app_assoc.
Qed.


(** The others cannot be followed.  The copy of a subtraction tells what is
    subtracted and not the value; the copy that unhides a source is that of
    its removal. *)
Theorem stats_copy_misleads :
  (forall name n k h s, st_global s !! name = Some (StatsNode (dec n) h) ->
     0 <= n < 2 ^ 31 -> 0 <= k < 2 ^ 31 ->
     exists e s', process_event (StatsEvent None (Some name) (Some (value16 k)) false STATS_EVENT_SUB) s = Some (e, s') /\
       value_of s' None name = Some (dec (n - k)) /\ e_value (copy_event e) = Some (dec k)) /\
  (forall source, copy_event <$> stats_event_hidden (Some source) None false [] =
     copy_event <$> [build_event (Some source) None None]).
Proof.
  split; [|done]. intros name n k h s E Hn Hk. rewrite (value16_dec k) by lia. unfold process_event. cbn [e_source].
  unfold process_global_event. cbn [e_name e_action]. run_bind. rewrite E. unfold modify_node_event.
  cbn [e_action e_value n_value n_hidden]. run_bind. eexists _, _. split; [done|]. split; [|done].
  cbn. rewrite lookup_insert_eq. cbn. f_equal. unfold atoll.
  rewrite !strtol_dec_Z by lia. cbn [fst]. rewrite (swrap_small 64) by lia. apply value16_dec. lia.
Qed.

(** ** The list of streams *)

Definition stream_line (name : string) : string := name +:+ String (chr 13) (String (chr 10) EmptyString).

Definition block_fits (b : string * Z) : Prop := b.2 = strlen b.1 /\ b.2 <= STREAMLIST_BLKSIZE.

Definition block_text (bs : list (string * Z)) : string := foldr (fun b t => b.1 +:+ t) EmptyString bs.

Definition lines_text (names : list string) : string := foldr (fun n t => stream_line n +:+ t) EmptyString names.

Lemma block_text_app a b : block_text (a ++ b) = block_text a +:+ block_text b.
Proof. induction a as [|x a IH]; [done|]. cbn [app block_text foldr]. fold (block_text (a ++ b)). rewrite IH. by rewrite string_app_assoc. Qed.

Lemma strlen_app a b : strlen (a +:+ b) = strlen a + strlen b.
Proof. unfold strlen. rewrite string_length_app. lia. Qed.

Lemma put_streams names full cur :
  Forall (fun n => strlen n + 3 < STREAMLIST_BLKSIZE) names ->
  Forall block_fits full -> strlen cur <= STREAMLIST_BLKSIZE ->
  let '(full', cur', remaining) := foldl (fun b n => put_stream n b) (full, cur, STREAMLIST_BLKSIZE - strlen cur) names in
  remaining = STREAMLIST_BLKSIZE - strlen cur' /\ strlen cur' <= STREAMLIST_BLKSIZE /\ Forall block_fits full' /\
  block_text full' +:+ cur' = block_text full +:+ cur +:+ lines_text names.
Proof.
  unfold STREAMLIST_BLKSIZE. intros F. revert full cur. induction F as [|n names Hn _ IH]; intros full cur Ff Hc; cbn [foldl].
  { cbn. by rewrite string_app_nil_r. }
  assert (strlen (stream_line n) = strlen n + 2) as Ll by apply strlen_app.
  assert (0 <= strlen n) by (unfold strlen; lia). assert (0 <= strlen cur) by (unfold strlen; lia).
  assert (forall r, strlen n + 3 <= r -> fst (snprintf (Z.to_nat r) (stream_line n)) = stream_line n) as Ks.
  { intros r Hr. unfold snprintf. cbn [fst]. unfold strlen in *. apply string_take_all. lia. }
  unfold put_stream at 2. unfold STREAMLIST_BLKSIZE. fold (stream_line n).
  destruct (Z.leb_spec (4096 - strlen cur) (strlen n + 3)).
  - rewrite Ks by lia. rewrite (wrap_small 32 (4096 - strlen _)) by lia.
    rewrite (wrap_small 32) by lia.
    specialize (IH (full ++ [(cur, 4096 - (4096 - strlen cur))]) (EmptyString +:+ stream_line n)).
    change (EmptyString +:+ stream_line n) with (stream_line n) in *.
    destruct (foldl _ _ names) as [[full' cur'] rem].
    destruct IH as (I1 & I2 & I3 & I4); [|lia|].
    { apply Forall_app. split; [done|]. apply Forall_singleton. split; cbn [fst snd]; unfold STREAMLIST_BLKSIZE; lia. }
    split_and!; try done. rewrite I4, block_text_app. cbn [block_text foldr fst lines_text].
    by rewrite string_app_nil_r, string_app_assoc.
  - rewrite Ks by lia. rewrite (wrap_small 32) by lia.
    specialize (IH full (cur +:+ stream_line n) Ff). rewrite strlen_app in IH.
    replace (4096 - strlen cur - strlen (stream_line n)) with (4096 - (strlen cur + strlen (stream_line n))) by lia.
    destruct (foldl _ _ names) as [[full' cur'] rem].
    destruct IH as (I1 & I2 & I3 & I4); [lia|]. split_and!; try done. rewrite I4.
    cbn [lines_text foldr]. by rewrite string_app_assoc.
Qed.

(** The blocks of the list of streams hold the names of the sources that are
    not hidden, a line each and in order, none cut, and no block is
    overfull. *)
Theorem stats_streams_whole s :
  Forall (fun n => strlen n + 3 < STREAMLIST_BLKSIZE) (visible_streams s) ->
  block_text (stats_get_streams s) = lines_text (visible_streams s) /\ Forall block_fits (stats_get_streams s).
Proof.
  intros F. unfold stats_get_streams. pose proof (put_streams _ [] EmptyString F (Forall_nil_2 _)) as K.
  change (STREAMLIST_BLKSIZE - strlen EmptyString) with STREAMLIST_BLKSIZE in K.
  destruct (foldl _ _ (visible_streams s)) as [[full cur] rem]. destruct K as (-> & K2 & K3 & K4); [done|].
  rewrite block_text_app. cbn [block_text foldr fst]. rewrite string_app_nil_r. split; [exact K4|].
  apply Forall_app. split; [done|]. apply Forall_singleton. unfold block_fits, STREAMLIST_BLKSIZE in *. cbn [fst snd].
  assert (0 <= strlen cur) by (unfold strlen; lia). rewrite wrap_small by lia. lia.
Qed.

(** ** Witnesses *)

Definition demo_stats : stats :=
  Stats {["listeners"%string := StatsNode "3" false]}
    {["/a"%string := StatsSource false {["listeners"%string := StatsNode "3" false]}]}.

Definition demo_queue : list stats_event :=
  stats_event_inc None "listeners" (stats_event_dec None "listeners"
    (stats_event_inc (Some "/a"%string) "connections" (stats_event_inc None "listeners" []))).

Lemma demo_base : has_base {["listeners"%string]} demo_stats.
Proof. intros n ->%elem_of_singleton. by eexists. Qed.

Lemma demo_queue_ok : Forall (event_ok {["listeners"%string]}) demo_queue.
Proof.
  repeat constructor; cbn; eauto; intros H; try discriminate;
    eexists; (split; [reflexivity|by apply elem_of_singleton]).
Qed.

Example stats_counter_witness :
  (Forall (event_ok {["listeners"%string]}) demo_queue /\ has_base {["listeners"%string]} demo_stats) /\
  exists es' s', run_events demo_queue demo_stats = Some (es', s') /\
    st_global s' !! "listeners"%string = Some (StatsNode (dec 4) false).
Proof.
  split; [split; [exact demo_queue_ok|exact demo_base]|].
  apply (stats_counter {["listeners"%string]} "listeners" demo_queue demo_stats 3 false).
  - exact demo_queue_ok.
  - exact demo_base.
  - repeat constructor; cbn; intros H; try discriminate H; auto.
  - reflexivity.
  - reflexivity.
Defined.


Example stats_streams_whole_witness :
  Forall (fun n => strlen n + 3 < STREAMLIST_BLKSIZE) (visible_streams demo_stats) /\
  block_text (stats_get_streams demo_stats) = String "/" (String "a" (String (chr 13) (String (chr 10) EmptyString))) /\
  Forall block_fits (stats_get_streams demo_stats).
Proof.
  assert (Forall (fun n => strlen n + 3 < STREAMLIST_BLKSIZE) (visible_streams demo_stats)) as F.
  { change (visible_streams demo_stats) with ["/a"%string]. repeat constructor. }
  split; [exact F|]. exact (stats_streams_whole demo_stats F).
Defined.
