(* ===== verification/Mounts.v ===== *)
(** The mounts of a server: the settings of [cfgfile.c] for them and how they
    are found and merged, and in [source.c] and [connection.c] the sources on
    them, the fallback from one to another, the moving of listeners when a
    source comes or goes, and the admission of a listener.

    What a source does with its own listeners is the subject of [Source.v];
    here a source is its settings and its two trees of listeners, by
    connection id.  [fnmatch] of the C library is a parameter. *)

From S2P Require Import Prelude Acl Errors Stats Http.
Local Open Scope Z_scope.

(** ** Settings *)

Inductive mount_type := MOUNT_TYPE_NORMAL | MOUNT_TYPE_DEFAULT.

#[export] Instance mount_type_eq_dec : EqDecision mount_type.
Proof. solve_decision. Defined.

Record mount_proxy := MountProxy {
  mp_mountname : option string;
  mp_mounttype : mount_type;
  mp_dumpfile : option string;
  mp_intro_filename : option string;
  mp_fallback_when_full : bool;
  mp_max_listeners : Z;
  mp_fallback_mount : option string;
  mp_fallback_override : bool;
  mp_no_mount : bool;
  mp_burst_size : Z;
  mp_queue_size_limit : Z;
  mp_hidden : bool;
  mp_source_timeout : Z;
  mp_charset : option string;
  mp_mp3_meta_interval : Z;
  mp_http_headers : list http_header;
  mp_max_history : Z;
  mp_cluster_password : option string;
  mp_max_listener_duration : Z;
  mp_stream_name : option string;
  mp_stream_description : option string;
  mp_stream_url : option string;
  mp_stream_genre : option string;
  mp_bitrate : option string;
  mp_mime_type : option string;
  mp_subtype : option string;
  mp_yp_public : Z
}.

Record ice_config := IceConfig {
  c_mounts : list mount_proxy;
  c_hostname : string;
  c_port : Z;
  c_queue_size_limit : Z;
  c_source_timeout : Z;
  c_burst_size : Z;
  c_webroot_dir : string
}.

(** A text, or where there is none the one of the default. *)
Definition or_text (a b : option string) : option string := match a with Some _ => a | None => b end.

Definition merge_mounts (dst src : mount_proxy) : mount_proxy := MountProxy
  (mp_mountname dst)
  (mp_mounttype dst)
  (or_text (mp_dumpfile dst) (mp_dumpfile src))
  (or_text (mp_intro_filename dst) (mp_intro_filename src))
  (if mp_fallback_when_full dst then true else mp_fallback_when_full src)
  (if mp_max_listeners dst =? -1 then mp_max_listeners src else mp_max_listeners dst)
  (or_text (mp_fallback_mount dst) (mp_fallback_mount src))
  (if mp_fallback_override dst then true else mp_fallback_override src)
  (if mp_no_mount dst then true else mp_no_mount src)
  (if mp_burst_size dst =? -1 then mp_burst_size src else mp_burst_size dst)
  (if mp_queue_size_limit dst =? 0 then mp_queue_size_limit src else mp_queue_size_limit dst)
  (if mp_hidden dst then true else mp_hidden src)
  (if mp_source_timeout dst =? 0 then mp_source_timeout src else mp_source_timeout dst)
  (or_text (mp_charset dst) (mp_charset src))
  (if mp_mp3_meta_interval dst =? -1 then mp_mp3_meta_interval src else mp_mp3_meta_interval dst)
  (mp_http_headers dst ++ mp_http_headers src)
  (if mp_max_history dst =? -1 then mp_max_history src else mp_max_history dst)
  (or_text (mp_cluster_password dst) (mp_cluster_password src))
  (if mp_max_listener_duration dst =? 0 then mp_max_listener_duration src else mp_max_listener_duration dst)
  (or_text (mp_stream_name dst) (mp_stream_name src))
  (or_text (mp_stream_description dst) (mp_stream_description src))
  (or_text (mp_stream_url dst) (mp_stream_url src))
  (or_text (mp_stream_genre dst) (mp_stream_genre src))
  (or_text (mp_bitrate dst) (mp_bitrate src))
  (or_text (mp_mime_type dst) (mp_mime_type src))
  (or_text (mp_subtype dst) (mp_subtype src))
  (if mp_yp_public dst =? -1 then mp_yp_public src else mp_yp_public dst).

Section find.
(** [fnmatch (pattern, name, FNM_PATHNAME) == 0]. *)
Variable fnmatch : string -> string -> bool.

(** Whether the loop of [config_find_mount] stops at an entry. *)
Definition mount_matches (mount : option string) (type : mount_type) (m : mount_proxy) : bool :=
  bool_decide (mp_mounttype m = type) &&
  match mount, mp_mountname m with
  | None, None => true
  | Some n, Some p =>
      match type with MOUNT_TYPE_NORMAL => streq p n | MOUNT_TYPE_DEFAULT => fnmatch p n end
  | _, _ => match type with MOUNT_TYPE_NORMAL => false | MOUNT_TYPE_DEFAULT => true end
  end.

Definition config_find_default (mounts : list mount_proxy) (mount : option string) : option mount_proxy :=
  find (mount_matches mount MOUNT_TYPE_DEFAULT) mounts.

Definition config_find_mount (config : ice_config) (mount : option string) (type : mount_type) :
    option mount_proxy :=
  match type, mount with
  | MOUNT_TYPE_NORMAL, None => None
  | MOUNT_TYPE_DEFAULT, _ => config_find_default (c_mounts config) mount
  | MOUNT_TYPE_NORMAL, Some _ =>
      match find (mount_matches mount MOUNT_TYPE_NORMAL) (c_mounts config) with
      | Some m => Some m
      | None => config_find_default (c_mounts config) mount
      end
  end.

(** [_merge_mounts_all]: only the entries of normal mounts change, so the
    default one of each is looked for in the list as it was. *)
Definition merge_mounts_all (config : ice_config) : ice_config :=
  IceConfig
    ((fun m =>
        match mp_mounttype m with
        | MOUNT_TYPE_NORMAL =>
            match config_find_default (c_mounts config) (mp_mountname m) with
            | Some d => merge_mounts m d
            | None => m
            end
        | MOUNT_TYPE_DEFAULT => m
        end) <$> c_mounts config)
    (c_hostname config) (c_port config) (c_queue_size_limit config) (c_source_timeout config) (c_burst_size config)
    (c_webroot_dir config).

(** ** Sources *)

(** The [check_buffer] of a listener, its buffer, by a number, and what else
    of [client_t] matters here. *)
Inductive check_buffer := format_check_http_buffer | format_check_file_buffer | format_advance_queue.

#[export] Instance check_buffer_eq_dec : EqDecision check_buffer.
Proof. solve_decision. Defined.

Record listener := Listener {
  l_check : check_buffer;
  l_buffer : option Z;
  l_pos : Z;
  l_intro_offset : Z;
  l_respcode : Z;
  l_username : option string;
  l_role : option string;
  l_discon_time : Z
}.

(** A tree of listeners by connection id. *)
Abbreviation listeners_tree := (gmap Z listener).

Record source := Source {
  s_running : bool;
  s_on_demand : bool;
  s_on_demand_req : bool;
  s_format : option Z;          (** the format's type *)
  s_has_con : bool;
  s_has_client : bool;
  s_listeners : Z;
  s_prev_listeners : Z;
  s_peak_listeners : Z;
  s_max_listeners : Z;
  s_fallback_mount : option string;
  s_fallback_override : bool;
  s_fallback_when_full : bool;
  s_hidden : bool;
  s_queue_size_limit : Z;
  s_timeout : Z;
  s_burst_size : Z;
  s_dumpfilename : option string;
  s_intro_file : option string;
  s_yp_public : Z;
  s_max_history : Z;
  s_pending : listeners_tree;
  s_clients : listeners_tree
}.

Definition set_trees (p c : listeners_tree) (s : source) : source :=
  Source (s_running s) (s_on_demand s) (s_on_demand_req s) (s_format s) (s_has_con s) (s_has_client s)
    (s_listeners s) (s_prev_listeners s) (s_peak_listeners s) (s_max_listeners s) (s_fallback_mount s)
    (s_fallback_override s) (s_fallback_when_full s) (s_hidden s) (s_queue_size_limit s) (s_timeout s)
    (s_burst_size s) (s_dumpfilename s) (s_intro_file s) (s_yp_public s) (s_max_history s) p c.
Definition set_listeners (n : Z) (s : source) : source :=
  Source (s_running s) (s_on_demand s) (s_on_demand_req s) (s_format s) (s_has_con s) (s_has_client s)
    n (s_prev_listeners s) (s_peak_listeners s) (s_max_listeners s) (s_fallback_mount s)
    (s_fallback_override s) (s_fallback_when_full s) (s_hidden s) (s_queue_size_limit s) (s_timeout s)
    (s_burst_size s) (s_dumpfilename s) (s_intro_file s) (s_yp_public s) (s_max_history s) (s_pending s) (s_clients s).
Definition set_on_demand_req (b : bool) (s : source) : source :=
  Source (s_running s) (s_on_demand s) b (s_format s) (s_has_con s) (s_has_client s)
    (s_listeners s) (s_prev_listeners s) (s_peak_listeners s) (s_max_listeners s) (s_fallback_mount s)
    (s_fallback_override s) (s_fallback_when_full s) (s_hidden s) (s_queue_size_limit s) (s_timeout s)
    (s_burst_size s) (s_dumpfilename s) (s_intro_file s) (s_yp_public s) (s_max_history s) (s_pending s) (s_clients s).
Definition set_running (b : bool) (s : source) : source :=
  Source b (s_on_demand s) (s_on_demand_req s) (s_format s) (s_has_con s) (s_has_client s)
    (s_listeners s) (s_prev_listeners s) (s_peak_listeners s) (s_max_listeners s) (s_fallback_mount s)
    (s_fallback_override s) (s_fallback_when_full s) (s_hidden s) (s_queue_size_limit s) (s_timeout s)
    (s_burst_size s) (s_dumpfilename s) (s_intro_file s) (s_yp_public s) (s_max_history s) (s_pending s) (s_clients s).

(** What [_free_client] does with a listener. *)
Inductive farewell := SendError (id : Z) | Destroy.

(** The server: the tree of sources by mount, the queue of events,
    [global.sources], the listeners let go, and the calls of [yp_add] and
    [yp_remove]. *)
Record server := Server {
  g_sources : gmap string source;
  g_events : list stats_event;
  g_count : Z;
  g_released : list (Z * farewell);
  g_yp : list (string * bool)
}.

Definition put_source (mount : string) (s : source) (g : server) : server :=
  Server (<[mount := s]> (g_sources g)) (g_events g) (g_count g) (g_released g) (g_yp g).
Definition emit (f : list stats_event -> list stats_event) (g : server) : server :=
  Server (g_sources g) (f (g_events g)) (g_count g) (g_released g) (g_yp g).
Definition set_count (n : Z) (g : server) : server := Server (g_sources g) (g_events g) n (g_released g) (g_yp g).
Definition release (l : list (Z * farewell)) (g : server) : server :=
  Server (g_sources g) (g_events g) (g_count g) (g_released g ++ l) (g_yp g).
Definition yp (mount : string) (add : bool) (g : server) : server :=
  Server (g_sources g) (g_events g) (g_count g) (g_released g) (g_yp g ++ [(mount, add)]).

(** *** Looking up *)

Inductive source_node :=
| SourceLeaf
| SourceNode (left : source_node) (mount : string) (s : source) (right : source_node).

(** The walk of [source_find_mount_raw] through the nodes of the tree. *)
Fixpoint find_mount_node (t : source_node) (mount : string) : option source :=
  match t with
  | SourceLeaf => None
  | SourceNode l m s r =>
      match String.compare mount m with
      | Lt => find_mount_node l mount
      | Gt => find_mount_node r mount
      | Eq => Some s
      end
  end.

Definition source_find_mount_raw (g : server) (mount : string) : option source := g_sources g !! mount.

Definition MAX_FALLBACK_DEPTH : nat := 10.

Definition active (s : source) : bool := s_running s || s_on_demand s.

(** The loop of [source_find_mount]. *)
Fixpoint find_mount_loop (depth : nat) (config : ice_config) (g : server) (mount : option string) :
    option (string * source) :=
  match depth, mount with
  | O, _ | _, None => None
  | S depth', Some m =>
      match (match source_find_mount_raw g m with
             | Some s => if active s then Some (m, s) else None
             | None => None
             end) with
      | Some r => Some r
      | None =>
          match config_find_mount config (Some m) MOUNT_TYPE_NORMAL with
          | None => None
          | Some info => find_mount_loop depth' config g (mp_fallback_mount info)
          end
      end
  end.

Definition source_find_mount (config : ice_config) (g : server) (mount : string) : option (string * source) :=
  find_mount_loop MAX_FALLBACK_DEPTH config g (Some mount).

(** *** Moving listeners *)

(** A listener on its way to another queue: it keeps only its headers. *)
Definition leave_queue (source_con : bool) (l : listener) : listener :=
  if bool_decide (l_check l = format_check_http_buffer) then l
  else Listener format_check_file_buffer None 0 (if source_con then l_intro_offset l else -1)
         (l_respcode l) (l_username l) (l_role l) (l_discon_time l).

(** One tree after the other is emptied into the pending tree of [dest]. *)
Definition move_tree (source_con : bool) (from into : listeners_tree) : listeners_tree :=
  (leave_queue source_con <$> from) ∪ into.

Definition source_move_clients (source dest : string) (g : server) : option server :=
  if streq source dest then Some g
  else
    src ← g_sources g !! source;
    dst ← g_sources g !! dest;
    if negb (s_running dst) && negb (s_on_demand dst) then Some g
    else if negb (s_on_demand src) && bool_decide (s_format src = None) then Some g
    else
      let same := match s_format src, s_format dst with Some a, Some b => a =? b | _, _ => true end in
      if negb same then Some g
      else
        let count := (size (s_pending src) + size (s_clients src))%nat in
        let pending := move_tree (s_has_con src) (s_clients src)
                         (move_tree (s_has_con src) (s_pending src) (s_pending dst)) in
        let wake := negb (s_running dst) && s_on_demand dst && negb (count =? 0)%nat in
        let src := set_listeners 0 (set_trees ∅ ∅ src) in
        let dst := set_trees pending (s_clients dst) dst in
        let dst := if wake then set_on_demand_req true dst else dst in
        Some (emit (fun q => q ++ [build_event (Some source) (Some "listeners"%string) (Some "0"%string)])
                (put_source dest dst (put_source source src g))).

(** *** The life of a source *)

Definition new_source (mount : string) : source :=
  Source false false false None false false 0 0 0 (-1) None false false false 0 0 0 None None 0 4 ∅ ∅.

(** [source_reserve]. *)
Definition source_reserve (mount : string) (g : server) : option server :=
  match source_find_mount_raw g mount with
  | Some _ => None
  | None => Some (put_source mount (new_source mount) g)
  end.

Definition source_find_client (s : source) (id : Z) : option listener := s_clients s !! id.

Definition free_client (l : listener) : farewell :=
  if l_respcode l =? 0 then SendError ICECAST_ERROR_SOURCE_MOUNT_UNAVAILABLE
  else if l_respcode l =? 500 then SendError ICECAST_ERROR_SOURCE_STREAM_PREPARATION_ERROR
  else Destroy.

Definition farewells (t : listeners_tree) : list (Z * farewell) := map_to_list (free_client <$> t).

(** [source_clear_source]. *)
Definition source_clear_source (mount : string) (g : server) : option server :=
  s ← g_sources g !! mount;
  let counted := negb (bool_decide (filter (fun p => l_respcode p.2 = 200) (s_clients s) = ∅)) in
  let g := release (farewells (s_clients s) ++ farewells (s_pending s)) g in
  let g := if counted then emit (stats_event_sub None "listeners" (s_listeners s)) g else g in
  Some (put_source mount
    (Source (s_running s) (s_on_demand s) false None false false 0 0 (s_peak_listeners s) (-1) None
       (s_fallback_override s) (s_fallback_when_full s) false 0 (s_timeout s) 0 None None (s_yp_public s)
       (s_max_history s) ∅ ∅) g).

(** [source_free_source]. *)
Definition source_free_source (mount : string) (g : server) : option server :=
  s ← g_sources g !! mount;
  let g := Server (delete mount (g_sources g)) (g_events g) (g_count g) (g_released g) (g_yp g) in
  Some (yp mount false (release (farewells (s_pending s) ++ farewells (s_clients s)) g)).

(** Listeners go to the fallback where there is one to be found. *)
Definition to_fallback (config : ice_config) (mount : string) (s : source) (g : server) : option server :=
  match s_fallback_mount s with
  | None => Some g
  | Some f =>
      match source_find_mount config g f with
      | Some (fallback, _) => source_move_clients mount fallback g
      | None => Some g
      end
  end.

(** [source_shutdown].  The answer to a source that expected one is left
    out. *)
Definition source_shutdown (config : ice_config) (mount : string) (g : server) : option server :=
  s ← g_sources g !! mount;
  let g := put_source mount (set_running false s) g in
  g ← to_fallback config mount s g;
  let g := emit (fun q => q ++ [build_event (Some mount) None None]) g in
  g ← source_clear_source mount g;
  let g := set_count (g_count g - 1) g in
  Some (emit (fun q => q ++ [build_event None (Some "sources"%string) (Some (dec (g_count g)))]) g).

(** [source_init], without the audio information, the dump file and the
    times it records. *)
Definition source_init (config : ice_config) (mount : string) (g : server) : option server :=
  s ← g_sources g !! mount;
  let s :=
    Source true (s_on_demand s) (s_on_demand_req s) (s_format s) (s_has_con s) (s_has_client s)
      0 (u64 (-1)) (s_peak_listeners s) (s_max_listeners s) (s_fallback_mount s)
      (s_fallback_override s) (s_fallback_when_full s) (s_hidden s) (s_queue_size_limit s) (s_timeout s)
      (s_burst_size s) (s_dumpfilename s) (s_intro_file s) (s_yp_public s) (s_max_history s) (s_pending s) (s_clients s) in
  let g := put_source mount s g in
  let g := emit (stats_event_inc None "source_total_connections") g in
  let g := emit (fun q => q ++ [build_event (Some mount) (Some "slow_listeners"%string) (Some "0"%string);
                                build_event (Some mount) (Some "listeners"%string) (Some "0"%string);
                                build_event (Some mount) (Some "listener_peak"%string) (Some (dec (s_peak_listeners s)))]) g in
  match s_fallback_override s, s_fallback_mount s with
  | true, Some f =>
      match source_find_mount config g f with
      | Some (fallback, _) => source_move_clients fallback mount g
      | None => Some g
      end
  | _, _ => Some g
  end.

(** *** Settings of a source *)

(** What comes from elsewhere: the headers of the source, [xmlCheckUTF8], the
    conversion from the character set of its format and the content type of
    it, the rights of anonymous listeners ([auth.c]), and whether a file can
    be opened. *)
Record surroundings := Surroundings {
  x_var : string -> option string;
  x_utf8 : string -> bool;
  x_conv : string -> string;
  x_contenttype : string;
  x_anonymous : option acl;
  x_file : string -> bool
}.

Definition first_var (x : surroundings) (names : list string) : option string :=
  foldr (fun n r => or_text (x_var x n) r) None names.

Definition stat (x : surroundings) (mount name : string) (value : option string) (g : server) : server :=
  emit (stats_event_call (x_utf8 x) (Some mount) (Some name) value) g.

(** A text of the mount's settings, or of a header, or the default. *)
Definition stat_text (x : surroundings) (mount name : string) (setting : option string) (names : list string)
    (text : option string) (has_format : bool) (g : server) : server :=
  match setting with
  | Some v => stat x mount name (Some v) g
  | None =>
      match or_text (first_var x names) text with
      | Some v => if has_format then stat x mount name (Some (x_conv x v)) g else g
      | None => g
      end
  end.

Definition public_value (x : surroundings) (info : option mount_proxy) : Z :=
  let header := atoi (default "0"%string (first_var x ["ice-public"; "icy-pub"; "x-audiocast-public"; "icy-public"]%string)) in
  match info with
  | Some i => if 0 <=? mp_yp_public i then mp_yp_public i else header
  | None => header
  end.

(** The texts and numbers [source_apply_mount] tells the statistics. *)
Definition apply_stats (x : surroundings) (mount : string) (s : source) (info : option mount_proxy) (g : server) : server :=
  let has_format := bool_decide (s_format s <> None) in
  let setting (f : mount_proxy -> option string) := i ← info; f i in
  let g := stat_text x mount "server_name" (setting mp_stream_name)
             ["ice-name"; "icy-name"; "x-audiocast-name"]%string (Some "Unspecified name"%string) has_format g in
  let g := stat_text x mount "server_description" (setting mp_stream_description)
             ["ice-description"; "icy-description"; "x-audiocast-description"]%string
             (Some "Unspecified description"%string) has_format g in
  let g := stat_text x mount "server_url" (setting mp_stream_url)
             ["ice-url"; "icy-url"; "x-audiocast-url"]%string None has_format g in
  let g := stat_text x mount "genre" (setting mp_stream_genre)
             ["ice-genre"; "icy-genre"; "x-audiocast-genre"]%string (Some "various"%string) has_format g in
  let g := stat x mount "bitrate" (or_text (setting mp_bitrate)
             (first_var x ["ice-bitrate"; "icy-br"; "x-audiocast-bitrate"]%string)) g in
  let g := match setting mp_mime_type with
           | Some t => stat x mount "server_type" (Some t) g
           | None => if has_format then stat x mount "server_type" (Some (x_contenttype x)) g else g
           end in
  let g := match setting mp_subtype with Some t => stat x mount "subtype" (Some t) g | None => g end in
  stat x mount "authenticator"
    (match x_anonymous x with
     | Some a => if bool_decide (acl_test_web (Some a) = ACL_POLICY_DENY) then Some "(dummy)"%string else None
     | None => None
     end) g.

(** The fields [source_apply_mount] sets: what the mount does not say stays
    as it is, but for the fallback, the dump file and the intro. *)
Definition apply_fields (x : surroundings) (config : ice_config) (public : Z) (info : option mount_proxy) (s : source) : source :=
  let num (f : mount_proxy -> Z) (old : Z) := match info with Some i => f i | None => old end in
  let flag (f : mount_proxy -> bool) (old : bool) := match info with Some i => f i | None => old end in
  Source (s_running s) (s_on_demand s) (s_on_demand_req s) (s_format s) (s_has_con s) (s_has_client s)
    (s_listeners s) (s_prev_listeners s) (s_peak_listeners s)
    (num mp_max_listeners (s_max_listeners s))
    (i ← info; mp_fallback_mount i)
    (flag mp_fallback_override (s_fallback_override s))
    (match info with Some i => mp_fallback_when_full i || s_fallback_when_full s | None => s_fallback_when_full s end)
    (flag mp_hidden (s_hidden s))
    (num (fun i => if mp_queue_size_limit i =? 0 then s_queue_size_limit s else mp_queue_size_limit i) (s_queue_size_limit s))
    (num (fun i => if mp_source_timeout i =? 0 then s_timeout s else mp_source_timeout i) (s_timeout s))
    (num (fun i => if 0 <=? mp_burst_size i then u32 (mp_burst_size i) else s_burst_size s) (s_burst_size s))
    (i ← info; mp_dumpfile i)
    (i ← info; f ← mp_intro_filename i;
     let path := (c_webroot_dir config +:+ "/" +:+ f)%string in
     if x_file x path then Some path else None)
    public
    (num (fun i => if 0 <? mp_max_history i then mp_max_history i else s_max_history s) (s_max_history s))
    (s_pending s) (s_clients s).

Definition source_apply_mount (x : surroundings) (config : ice_config) (mount : string) (s : source)
    (info : option mount_proxy) (g : server) : server :=
  let g := stat x mount "listener_peak" (Some (dec (s_peak_listeners s))) g in
  let val := public_value x info in
  let g := stat x mount "public" (Some (dec val)) g in
  let g := if s_yp_public s =? val then g else yp mount (negb (val =? 0)) g in
  let g := apply_stats x mount s info g in
  put_source mount (apply_fields x config val info s) g.

Definition listenurl (config : ice_config) (mount : string) : string :=
  ("http://" +:+ c_hostname config +:+ ":" +:+ dec (c_port config) +:+ mount)%string.

(** [source_update_settings]. *)
Definition source_update_settings (x : surroundings) (config : ice_config) (mount : string)
    (info : option mount_proxy) (g : server) : option server :=
  s ← g_sources g !! mount;
  if s_running s && negb (s_has_client s) then
    Some (emit (stats_event_hidden (Some mount) None true) g)
  else
    let s := Source (s_running s) (s_on_demand s) (s_on_demand_req s) (s_format s) (s_has_con s) (s_has_client s)
      (s_listeners s) (s_prev_listeners s) (s_peak_listeners s) (s_max_listeners s) (s_fallback_mount s)
      (s_fallback_override s) (s_fallback_when_full s) (s_hidden s) (c_queue_size_limit config)
      (c_source_timeout config) (c_burst_size config) (s_dumpfilename s) (s_intro_file s) (s_yp_public s)
      (s_max_history s) (s_pending s) (s_clients s) in
    let g := emit (stats_event_args (x_utf8 x) (Some mount) (Some "listenurl"%string) (listenurl config mount)) g in
    let g := source_apply_mount x config mount s info g in
    s ← g_sources g !! mount;
    let g :=
      if s_on_demand s then
        stat x mount "listeners" (Some (dec (i64 (s_listeners s)))) (stat x mount "on_demand" (Some "1"%string) g)
      else stat x mount "on_demand" None g in
    let g := emit (stats_event_hidden (Some mount) None (s_hidden s)) g in
    Some (stat x mount "max_listeners"
      (Some (if s_max_listeners s =? -1 then "unlimited"%string else fst (snprintf 10 (dec (s_max_listeners s))))) g).

(** One mount of [source_recheck_mounts]: the server and the file a fallback
    thread is started for. *)
Definition recheck_mount (x : surroundings) (update_all running : bool) (config : ice_config) (m : mount_proxy)
    (g : server) : option (server * option string) :=
  match mp_mounttype m, mp_mountname m with
  | MOUNT_TYPE_DEFAULT, _ => Some (g, None)
  | MOUNT_TYPE_NORMAL, None => None
  | MOUNT_TYPE_NORMAL, Some mount =>
      g ← match source_find_mount config g mount with
          | Some _ =>
              match source_find_mount_raw g mount with
              | Some _ =>
                  source_update_settings x config mount (config_find_mount config (Some mount) MOUNT_TYPE_NORMAL) g
              | None =>
                  if update_all then
                    let g := emit (stats_event_hidden (Some mount) None (mp_hidden m)) g in
                    let g := emit (stats_event_args (x_utf8 x) (Some mount) (Some "listenurl"%string) (listenurl config mount)) g in
                    let g := stat x mount "listeners" (Some "0"%string) g in
                    Some (stat x mount "max_listeners"
                            (Some (if mp_max_listeners m <? 0 then "unlimited"%string else dec (mp_max_listeners m))) g)
                  else Some g
              end
          | None => Some (emit (fun q => q ++ [build_event (Some mount) None None]) g)
          end;
      Some (g, match mp_fallback_mount m with
               | Some f => if running && bool_decide (source_find_mount config g f = None) then Some f else None
               | None => None
               end)
  end.

(** The mounts of the list, in order; the files to fall back to. *)
Fixpoint recheck_mounts (x : surroundings) (update_all running : bool) (config : ice_config) (l : list mount_proxy)
    (g : server) : option (server * list string) :=
  match l with
  | [] => Some (g, [])
  | m :: r =>
      '(g, f) ← recheck_mount x update_all running config m g;
      '(g, fs) ← recheck_mounts x update_all running config r g;
      Some (g, option_list f ++ fs)
  end.

(** *** Admission *)

(** The buffer a listener starts with. *)
Definition accepted (l : listener) : listener :=
  Listener format_check_http_buffer (l_buffer l) (l_pos l) (l_intro_offset l) (l_respcode l) (l_username l)
    (l_role l) (l_discon_time l).

Definition has_room (s : source) : bool := (s_max_listeners s =? -1) || (s_listeners s <? u64 (s_max_listeners s)).

(** The loop of [__add_listener_to_source]: the source that takes the
    listener. *)
Fixpoint find_room (loop : nat) (config : ice_config) (g : server) (mount : string) (s : source) :
    option (string * source) :=
  if has_room s then Some (mount, s)
  else
    match loop with
    | O => None
    | S loop' =>
        if s_fallback_when_full s then
          match s_fallback_mount s with
          | Some f =>
              match source_find_mount config g f with
              | Some (mount, s) => find_room loop' config g mount s
              | None => None
              end
          | None => None
          end
        else None
    end.

(** [__add_listener_to_source]; [None] is the result [-1]. *)
Definition add_listener_to_source (config : ice_config) (mount : string) (s : source) (id : Z) (l : listener)
    (g : server) : option server :=
  match find_room 10 config g mount s with
  | None => None
  | Some (mount, s) =>
      let s' := set_trees (<[id := accepted l]> (s_pending s)) (s_clients s) s in
      let s' := if negb (s_running s) && s_on_demand s then set_on_demand_req true s' else s' in
      Some (put_source mount s' g)
  end.

(** [__count_user_role_on_mount]. *)
Definition same_user (l : listener) (x : listener) : bool :=
  match l_username x, l_username l with Some a, Some b => streq a b | _, _ => false end &&
  match l_role x, l_role l with Some a, Some b => streq a b | _, _ => false end.

Definition count_user_role_on_mount (s : source) (l : listener) : Z :=
  Z.of_nat (size (filter (fun p => same_user l p.2 = true) (s_clients s)) +
            size (filter (fun p => same_user l p.2 = true) (s_pending s)))%nat.

(** The time a listener is cut off, where it has none yet. *)
Definition discon_time (config : ice_config) (mount : string) (a : option acl) (now : Z) (l : listener) : Z :=
  if l_discon_time l =? 0 then
    let d := acl_get_max_connection_duration a in
    let d :=
      if d =? -1 then
        match config_find_mount config (Some mount) MOUNT_TYPE_NORMAL with
        | Some m => if mp_max_listener_duration m =? 0 then d else mp_max_listener_duration m
        | None => d
        end
      else d in
    if 0 <? d then d + now else 0
  else l_discon_time l.

Definition set_discon (t : Z) (l : listener) : listener :=
  Listener (l_check l) (l_buffer l) (l_pos l) (l_intro_offset l) (l_respcode l) (l_username l) (l_role l) t.

(** What a [GET] request comes to. *)
Inductive get_outcome :=
| GetAdmin (command : string)
| GetDenied (shoutcast : bool)
| GetXslt
| GetListener (g : server)
| GetError (id : Z)
| GetFile.

(** [_handle_get_request], the number of user logins checked with the
    listener's list of rights. *)
Definition handle_get_request (config : ice_config) (a : option acl) (shoutcast xslt : bool) (now : Z)
    (uri : string) (id : Z) (l : listener) (g : server) : get_outcome :=
  if streq uri "/admin.cgi" then GetAdmin (string_drop 1 uri)
  else if starts_with "/admin/" uri then GetAdmin (string_drop 7 uri)
  else if negb (bool_decide (acl_test_web a = ACL_POLICY_ALLOW)) then GetDenied shoutcast
  else if xslt then GetXslt
  else
    match source_find_mount config g uri with
    | None => GetFile
    | Some (mount, s) =>
        let limit := acl_get_max_connections_per_user a in
        if (0 <? limit) && (limit <=? count_user_role_on_mount s l)
        then GetError ICECAST_ERROR_CON_PER_CRED_CLIENT_LIMIT
        else
          match add_listener_to_source config mount s id (set_discon (discon_time config mount a now l) l) g with
          | Some g => GetListener g
          | None => GetError ICECAST_ERROR_CON_rejecting_client_for_whatever_reason
          end
    end.
End find.
