(* ===== verification/MountsFacts.v ===== *)
(** Theorems on [Mounts.v]: the walk along the fallbacks, where the listeners
    of a server are, what becomes of them when a source ends, and who is let
    in. *)

From S2P Require Import Prelude Acl Errors Stats Mounts.
From Stdlib Require Import Sorted.
Local Open Scope Z_scope.

(** ** The tree of sources *)

Fixpoint inorder (t : source_node) : list (string * source) :=
  match t with
  | SourceLeaf => []
  | SourceNode l m s r => inorder l ++ (m, s) :: inorder r
  end.

Definition ordered (l : list (string * source)) : Prop :=
  StronglySorted (fun a b => String.compare a.1 b.1 = Lt) l.

Lemma ordered_app l1 x l2 :
  ordered (l1 ++ x :: l2) ->
  ordered l1 /\ ordered l2 /\ Forall (fun a => String.compare a.1 x.1 = Lt) l1 /\
  Forall (fun b => String.compare x.1 b.1 = Lt) l2.
Proof.
  unfold ordered. induction l1 as [|y l1 IH]; cbn [app]; intros S.
  - apply StronglySorted_inv in S as [S F]. repeat split; done || constructor.
  - apply StronglySorted_inv in S as [S F]. apply Forall_app in F as [F1 F2]. apply Forall_cons in F2 as [F2 _].
    destruct (IH S) as (S1 & S2 & G1 & G2). repeat split; [|done| |done]; by constructor.
Qed.

Lemma compare_refl a : String.compare a a = Eq.
Proof. pose proof (String.compare_antisym a a). by destruct (String.compare a a). Qed.

(** The walk through the nodes is the lookup of a finite map. *)
Lemma find_mount_node_spec t mount :
  ordered (inorder t) -> find_mount_node t mount = (list_to_map (inorder t) : gmap string source) !! mount.
Proof.
  assert (forall l, Forall (fun a : string * source => String.compare a.1 mount <> Eq) l ->
    (list_to_map l : gmap string source) !! mount = None) as Out.
  { intros l F. apply not_elem_of_list_to_map_1. intros ([a s] & -> & I)%list_elem_of_fmap.
    rewrite Forall_forall in F. apply (F _ I). cbn. apply compare_refl. }
  induction t as [|l IHl m s r IHr]; [done|]. cbn [inorder find_mount_node]. intros O.
  destruct (ordered_app _ _ _ O) as (Ol & Or & Fl & Fr). cbn [fst] in *. rewrite list_to_map_app, list_to_map_cons.
  destruct (String.compare mount m) eqn:C.
  - apply String.compare_eq_iff in C as ->. symmetry. rewrite lookup_union_r, lookup_insert_eq; [done|].
    apply Out. eapply Forall_impl; [exact Fl|]. intros a E. cbn in E. by rewrite E.
  - rewrite IHl by done. assert (mount <> m) by (intros ->; by rewrite compare_refl in C).
    destruct (list_to_map (inorder l) !! mount) as [x|] eqn:E; [by rewrite (lookup_union_Some_l _ _ _ x)|].
    rewrite lookup_union_r, lookup_insert_ne by done. symmetry. apply Out. eapply Forall_impl; [exact Fr|].
    intros a F N. apply String.compare_eq_iff in N. cbn in F. rewrite N, String.compare_antisym, C in F. done.
  - rewrite IHr by done. assert (mount <> m) by (intros ->; by rewrite compare_refl in C).
    rewrite lookup_union_r, lookup_insert_ne; [done..|]. apply Out. eapply Forall_impl; [exact Fl|].
    intros a F N. apply String.compare_eq_iff in N. cbn in F. rewrite N, C in F. done.
Qed.

(** ** Fallbacks *)

Section facts.
Variable fnmatch : string -> string -> bool.
Abbreviation config_find_mount := (config_find_mount fnmatch).
Abbreviation source_find_mount := (source_find_mount fnmatch).
Abbreviation source_shutdown := (source_shutdown fnmatch).
Abbreviation source_init := (source_init fnmatch).

(** The mount [k] fallbacks after [mount], as the settings have it. *)
Fixpoint fallback (config : ice_config) (mount : string) (k : nat) : option string :=
  match k with
  | O => Some mount
  | S k' => m ← fallback config mount k'; i ← config_find_mount config (Some m) MOUNT_TYPE_NORMAL; mp_fallback_mount i
  end.

(** The source on a mount that can have listeners. *)
Definition playing (g : server) (m : string) (s : source) : Prop := g_sources g !! m = Some s /\ active s = true.

Lemma fallback_shift config mount k :
  fallback config mount (S k) =
  (i ← config_find_mount config (Some mount) MOUNT_TYPE_NORMAL; m ← mp_fallback_mount i; fallback config m k).
Proof.
  induction k as [|k IH].
  - cbn [fallback]. run_bind. destruct (config_find_mount _ _ _) as [i|]; [|done]. run_bind.
    by destruct (mp_fallback_mount i).
  - cbn [fallback] in *. rewrite IH. destruct (config_find_mount _ _ _) as [i|]; [|done]. run_bind.
    by destruct (mp_fallback_mount i).
Qed.

Lemma playing_dec g m :
  (exists s, playing g m s /\ (match source_find_mount_raw g m with
     | Some s => if active s then Some (m, s) else None | None => None end) = Some (m, s)) \/
  (forall s, ~ playing g m s) /\ (match source_find_mount_raw g m with
     | Some s => if active s then Some (m, s) else None | None => None end) = None.
Proof.
  unfold playing, source_find_mount_raw. destruct (g_sources g !! m) as [s|].
  - destruct (active s) eqn:A; [left; by exists s|]. right. split; [|done]. intros s' [[= ->] A']. congruence.
  - right. split; [|done]. by intros s' [? _].
Qed.

Lemma find_mount_loop_spec config g depth : forall mount,
  match find_mount_loop fnmatch depth config g (Some mount) with
  | Some (m, s) => exists k, (k < depth)%nat /\ fallback config mount k = Some m /\ playing g m s /\
      forall j m' s', (j < k)%nat -> fallback config mount j = Some m' -> ~ playing g m' s'
  | None => forall k m s, (k < depth)%nat -> fallback config mount k = Some m -> ~ playing g m s
  end.
Proof.
  induction depth as [|d IH]; intros mount; cbn [find_mount_loop]; [intros; lia|].
  destruct (playing_dec g mount) as [(s & P & E)|[N E]]; rewrite E.
  - exists 0%nat. split_and!; [lia|done|done|]. intros; lia.
  - assert (forall k m s, (k < S d)%nat -> fallback config mount k = Some m -> playing g m s ->
      exists i f k', config_find_mount config (Some mount) MOUNT_TYPE_NORMAL = Some i /\
        mp_fallback_mount i = Some f /\ k = S k' /\ fallback config f k' = Some m) as Hop.
    { intros k m s L F P. destruct k as [|k]; [injection F as ->; by destruct (N s)|].
      rewrite fallback_shift in F. destruct (config_find_mount _ _ _) as [i|]; [|done]. cbn in F.
      destruct (mp_fallback_mount i) as [f|] eqn:M; [|done]. eauto 10. }
    destruct (config_find_mount _ _ _) as [i|] eqn:C.
    2:{ intros k m s L F P. destruct (Hop k m s L F P) as (? & ? & ? & [=] & _). }
    destruct (mp_fallback_mount i) as [f|] eqn:M.
    2:{ destruct d; cbn; intros k m s L F P; destruct (Hop k m s L F P) as (? & ? & ? & [= <-] & ? & _); congruence. }
    specialize (IH f). destruct (find_mount_loop _ _ _ _ _) as [[m s]|].
    + destruct IH as (k & L & F & P & B). exists (S k). split_and!; [lia| |done|].
      * rewrite fallback_shift, C. run_bind. by rewrite M.
      * intros j m' s' Lj Fj Pj. destruct (Hop j m' s') as (? & ? & k' & [= <-] & M' & -> & F'); [lia|done|done|].
        rewrite M in M'. injection M' as <-. apply (B k' m' s'); [lia|done|done].
    + intros k m s L F P. destruct (Hop k m s L F P) as (? & ? & k' & [= <-] & M' & -> & F').
      rewrite M in M'. injection M' as <-. apply (IH k' m s); [lia|done|done].
Qed.

(** [source_find_mount] ends however the fallbacks of the settings are
    chained, in a circle too: it finds the first mount along fewer than ten
    fallbacks whose source runs or is on demand, and finds none only where
    there is none among them. *)
Theorem source_find_mount_spec config g mount :
  match source_find_mount config g mount with
  | Some (m, s) => exists k, (k < 10)%nat /\ fallback config mount k = Some m /\ playing g m s /\
      forall j m' s', (j < k)%nat -> fallback config mount j = Some m' -> ~ playing g m' s'
  | None => forall k m s, (k < 10)%nat -> fallback config mount k = Some m -> ~ playing g m s
  end.
Proof. apply find_mount_loop_spec. Qed.

(** ** Where the listeners are *)

Definition tree_ids {A} (t : gmap Z A) : list Z := (map_to_list t).*1.
Definition source_ids (s : source) : list Z := tree_ids (s_pending s) ++ tree_ids (s_clients s).
Definition held (m : gmap string source) : list Z := concat (source_ids <$> (map_to_list m).*2).
Definition released_ids (g : server) : list Z := (g_released g).*1.

Lemma tree_ids_empty {A} : tree_ids (∅ : gmap Z A) = [].
Proof. unfold tree_ids. by rewrite map_to_list_empty. Qed.

Lemma elem_of_tree_ids {A} (t : gmap Z A) i : i ∈ tree_ids t <-> is_Some (t !! i).
Proof.
  unfold tree_ids. rewrite list_elem_of_fmap. split.
  - intros ([j x] & -> & I%elem_of_map_to_list). by exists x.
  - intros [x E]. exists (i, x). by rewrite elem_of_map_to_list.
Qed.

Lemma tree_ids_NoDup {A} (t : gmap Z A) : NoDup (tree_ids t).
Proof. apply NoDup_fst_map_to_list. Qed.

Lemma tree_ids_insert {A} (t : gmap Z A) i x : t !! i = None -> tree_ids (<[i := x]> t) ≡ₚ i :: tree_ids t.
Proof. intros N. unfold tree_ids. by rewrite (map_to_list_insert t i x N). Qed.

Lemma tree_ids_same {A B} (t : gmap Z A) (u : gmap Z B) :
  (forall i, is_Some (t !! i) <-> is_Some (u !! i)) -> tree_ids t ≡ₚ tree_ids u.
Proof.
  intros E. apply NoDup_Permutation; [apply tree_ids_NoDup..|]. intros i. by rewrite !elem_of_tree_ids.
Qed.

Lemma tree_ids_fmap {A B} (f : A -> B) (t : gmap Z A) : tree_ids (f <$> t) ≡ₚ tree_ids t.
Proof. apply tree_ids_same. intros i. rewrite lookup_fmap. destruct (t !! i); cbn; split; by intros [? ?]. Qed.

Lemma tree_ids_union {A} (t u : gmap Z A) :
  NoDup (tree_ids t ++ tree_ids u) -> tree_ids (t ∪ u) ≡ₚ tree_ids t ++ tree_ids u.
Proof.
  intros N. apply NoDup_Permutation; [apply tree_ids_NoDup|done|].
  intros i. rewrite elem_of_app, !elem_of_tree_ids, lookup_union_is_Some. done.
Qed.

Lemma move_tree_ids b from into :
  NoDup (tree_ids from ++ tree_ids into) -> tree_ids (move_tree b from into) ≡ₚ tree_ids from ++ tree_ids into.
Proof. intros N. unfold move_tree. rewrite tree_ids_union; rewrite tree_ids_fmap; done. Qed.

Lemma farewells_ids t : (farewells t).*1 ≡ₚ tree_ids t.
Proof. apply (tree_ids_fmap free_client t). Qed.

Lemma held_lookup m k s : m !! k = Some s -> held m ≡ₚ source_ids s ++ held (delete k m).
Proof.
  intros E. unfold held. rewrite <- (map_to_list_delete m k s E). by rewrite !fmap_cons.
Qed.

Lemma held_new m k s : m !! k = None -> held (<[k := s]> m) ≡ₚ source_ids s ++ held m.
Proof.
  intros E. unfold held. rewrite (map_to_list_insert m k s E). by rewrite !fmap_cons.
Qed.

Lemma held_put m k s : held (<[k := s]> m) ≡ₚ source_ids s ++ held (delete k m).
Proof. rewrite (held_lookup _ k s (lookup_insert_eq m k s)), delete_insert_eq. done. Qed.

(** Every listener a server has had is in one tree of one source, or was let
    go once. *)
Definition accounted (l : list Z) (g : server) : Prop := NoDup l /\ held (g_sources g) ++ released_ids g ≡ₚ l.


Lemma accounted_put l g k s s' out :
  g_sources g !! k = Some s -> source_ids s ≡ₚ source_ids s' ++ out.*1 -> accounted l g ->
  accounted l (release out (put_source k s' g)).
Proof.
  intros E P [N A]. split; [done|]. rewrite <- A. unfold released_ids. cbn. rewrite fmap_app, held_put, (held_lookup _ k s E), P.
  solve_Permutation.
Qed.

Lemma put_lookup m s g : g_sources (put_source m s g) !! m = Some s.
Proof. apply lookup_insert_eq. Qed.

Lemma release_nil g : release [] g = g.
Proof. destruct g. unfold release. cbn. by rewrite app_nil_r. Qed.

Lemma accounted_keep l g k s s' :
  g_sources g !! k = Some s -> source_ids s' = source_ids s -> accounted l g -> accounted l (put_source k s' g).
Proof.
  intros E P A. rewrite <- (release_nil (put_source k s' g)). apply (accounted_put l g k s); [done| |done].
  by rewrite P, app_nil_r.
Qed.

(** Servers with the same sources and the same listeners let go. *)
Definition same_places (g g' : server) : Prop := g_sources g' = g_sources g /\ g_released g' = g_released g.

Lemma accounted_same l g g' : same_places g g' -> accounted l g -> accounted l g'.
Proof. intros [E1 E2] [N A]. split; [done|]. unfold released_ids in *. by rewrite E1, E2. Qed.

Lemma same_refl g : same_places g g.
Proof. done. Qed.

Lemma same_stat x m n v g g' : same_places g g' -> same_places g (stat x m n v g').
Proof. done. Qed.

Lemma same_stat_text x m n a b c d g g' : same_places g g' -> same_places g (stat_text x m n a b c d g').
Proof. unfold stat_text. intros S. destruct a; [done|]. by destruct (or_text (first_var x b) c), d. Qed.

Lemma same_apply_stats x m s i g : same_places g (apply_stats x m s i g).
Proof.
  unfold apply_stats. apply same_stat. set (a := (i ≫= mp_subtype)). set (b := (i ≫= mp_mime_type)).
  set (h := bool_decide _). destruct a, b; repeat apply same_stat; try (destruct h; [apply same_stat|]);
    repeat first [apply same_stat_text|apply same_stat|apply same_refl].
Qed.

Lemma apply_mount_places x config m s i g :
  exists g', same_places g g' /\ source_apply_mount x config m s i g = put_source m (apply_fields x config (public_value x i) i s) g'.
Proof.
  eexists. split; [|reflexivity].
  match goal with |- same_places _ (apply_stats _ _ _ _ ?h) => assert (same_places g h) as [S1 S2] end.
  { by destruct (_ =? _). }
  edestruct same_apply_stats as [T1 T2]. split; [rewrite T1|rewrite T2]; done.
Qed.

Lemma settings_accounted x config m i g g' l :
  source_update_settings x config m i g = Some g' -> accounted l g -> accounted l g'.
Proof.
  unfold source_update_settings. intros E A. destruct (g_sources g !! m) as [s|] eqn:L; [|done]. cbn [mbind option_bind] in E.
  destruct (s_running s && negb (s_has_client s)).
  { injection E as <-. eapply accounted_same; [|exact A]. done. }
  match type of E with context [source_apply_mount x config m ?s1 i ?g1] =>
    set (s1' := s1) in E; set (g1' := g1) in E; destruct (apply_mount_places x config m s1' i g1') as (g2 & [P1 P2] & Q) end.
  rewrite Q in E. rewrite put_lookup in E. cbn [mbind option_bind] in E.
  injection E as <-. assert (accounted l (put_source m (apply_fields x config (public_value x i) i s1') g2)) as A2.
  { apply (accounted_keep l g2 m s); [by rewrite P1|done|]. eapply accounted_same; [|exact A]. by split. }
  eapply accounted_same; [|exact A2]. by destruct (s_on_demand _).
Qed.


(** Whether [source_move_clients] moves the listeners of one source to
    another. *)
Definition moves (src dst : source) : bool :=
  (s_running dst || s_on_demand dst) && (s_on_demand src || bool_decide (s_format src <> None)) &&
  match s_format src, s_format dst with Some a, Some b => a =? b | _, _ => true end.

(** The source the listeners come from, and the one they go to. *)
Definition emptied (src : source) : source := set_listeners 0 (set_trees ∅ ∅ src).
Definition joined (src dst : source) : source :=
  let dst' := set_trees (move_tree (s_has_con src) (s_clients src)
                (move_tree (s_has_con src) (s_pending src) (s_pending dst))) (s_clients dst) dst in
  if negb (s_running dst) && s_on_demand dst && negb (size (s_pending src) + size (s_clients src) =? 0)%nat
  then set_on_demand_req true dst' else dst'.

Lemma move_clients_eq a b g src dst :
  a <> b -> g_sources g !! a = Some src -> g_sources g !! b = Some dst ->
  source_move_clients a b g =
    Some (if moves src dst then
            emit (fun q => q ++ [build_event (Some a) (Some "listeners"%string) (Some "0"%string)])
              (put_source b (joined src dst) (put_source a (emptied src) g))
          else g).
Proof.
  intros N A B. unfold source_move_clients, moves, joined, emptied. unfold streq. apply String.eqb_neq in N. rewrite N, A, B.
  cbn [mbind option_bind]. destruct (s_running dst) eqn:R, (s_on_demand dst) eqn:D, (s_on_demand src) eqn:O;
    cbn [negb andb orb]; try done; destruct (s_format src) as [x|]; cbn; try done; destruct (s_format dst) as [y|]; cbn;
    try done; try (destruct (x =? y); done).
Qed.

Lemma joined_ids src dst :
  NoDup (source_ids src ++ source_ids dst) -> source_ids (joined src dst) ≡ₚ source_ids src ++ source_ids dst.
Proof.
  intros N. assert (source_ids (joined src dst) =
    tree_ids (move_tree (s_has_con src) (s_clients src) (move_tree (s_has_con src) (s_pending src) (s_pending dst)))
    ++ tree_ids (s_clients dst)) as ->. { unfold joined. by destruct (_ && _). }
  unfold source_ids in *.
  assert (NoDup (tree_ids (s_pending src) ++ tree_ids (s_pending dst))) as N1.
  { eapply sublist_NoDup; [exact N|]. rewrite <- !app_assoc. apply sublist_app; [done|].
    apply sublist_inserts_l. apply sublist_inserts_r. done. }
  pose proof (move_tree_ids (s_has_con src) _ _ N1) as P1.
  rewrite move_tree_ids, P1; [solve_Permutation|]. rewrite P1. eapply sublist_NoDup; [|apply sublist_inserts_r; reflexivity].
  instantiate (1 := tree_ids (s_clients dst)). revert N. apply NoDup_Permutation_proper. solve_Permutation.
Qed.

Lemma move_accounted a b g g' l : source_move_clients a b g = Some g' -> accounted l g -> accounted l g'.
Proof.
  intros E A. destruct (decide (a = b)) as [->|N].
  { unfold source_move_clients, streq in E. rewrite String.eqb_refl in E. by injection E as <-. }
  destruct (g_sources g !! a) as [src|] eqn:Sa.
  2:{ unfold source_move_clients, streq in E. apply String.eqb_neq in N. by rewrite N, Sa in E. }
  destruct (g_sources g !! b) as [dst|] eqn:Sb.
  2:{ unfold source_move_clients, streq in E. apply String.eqb_neq in N. by rewrite N, Sa, Sb in E. }
  rewrite (move_clients_eq a b g src dst N Sa Sb) in E. injection E as <-. destruct (moves src dst); [|done].
  apply (accounted_same _ (put_source b (joined src dst) (put_source a (emptied src) g))); [done|].
  destruct A as [Nl P]. split; [done|]. rewrite <- P. unfold released_ids. cbn [g_sources put_source g_released].
  rewrite held_put, (held_lookup _ a src Sa), delete_insert_ne by congruence.
  rewrite (held_lookup (delete a (g_sources g)) b dst) by (by rewrite lookup_delete_ne).
  rewrite held_put, (delete_delete (g_sources g) b a), joined_ids.
  2:{ rewrite <- P, (held_lookup _ a src Sa), (held_lookup (delete a (g_sources g)) b dst) in Nl by (by rewrite lookup_delete_ne).
      rewrite !app_assoc in Nl. apply NoDup_app in Nl as [Nl _]. apply NoDup_app in Nl as [Nl _]. done. }
  assert (source_ids (emptied src) = []) as -> by (unfold source_ids, emptied; cbn; by rewrite (tree_ids_empty (A:=listener))). solve_Permutation.
Qed.

Lemma clear_accounted m g g' l : source_clear_source m g = Some g' -> accounted l g -> accounted l g'.
Proof.
  unfold source_clear_source. intros E A. destruct (g_sources g !! m) as [s|] eqn:S; [|done]. cbn [mbind option_bind] in E.
  injection E as <-.
  set (s' := Source _ _ _ _ _ _ _ _ _ _ _ _ _ _ _ _ _ _ _ _ _ _ _). set (out := farewells (s_clients s) ++ farewells (s_pending s)).
  apply (accounted_same _ (release out (put_source m s' g))); [by destruct (bool_decide _)|].
  apply (accounted_put l g m s); [done| |done]. unfold source_ids, s'. cbn [s_pending s_clients]. rewrite (tree_ids_empty (A:=listener)). unfold out.
  rewrite fmap_app, !farewells_ids. solve_Permutation.
Qed.

Lemma fallback_accounted config m s g g' l : to_fallback fnmatch config m s g = Some g' -> accounted l g -> accounted l g'.
Proof.
  unfold to_fallback. intros E A. destruct (s_fallback_mount s) as [f|]; [|by injection E as <-].
  destruct (Mounts.source_find_mount fnmatch config g f) as [[f' ?]|]; [|by injection E as <-]. by eapply move_accounted.
Qed.

Lemma shutdown_accounted config m g g' l : source_shutdown config m g = Some g' -> accounted l g -> accounted l g'.
Proof.
  unfold Mounts.source_shutdown. intros E A. destruct (g_sources g !! m) as [s|] eqn:S; [|done]. cbn [mbind option_bind] in E.
  destruct (to_fallback _ _ _ _ _) as [g1|] eqn:F; [|done]. cbn [mbind option_bind] in E.
  destruct (source_clear_source _ _) as [g2|] eqn:C; [|done]. cbn [mbind option_bind] in E. injection E as <-.
  eapply (accounted_same _ g2); [done|]. eapply clear_accounted; [exact C|].
  eapply (accounted_same _ g1); [done|]. eapply fallback_accounted; [exact F|]. by eapply accounted_keep.
Qed.

Lemma init_accounted config m g g' l : source_init config m g = Some g' -> accounted l g -> accounted l g'.
Proof.
  unfold Mounts.source_init. intros E A. destruct (g_sources g !! m) as [s|] eqn:S; [|done]. cbn [mbind option_bind] in E.
  match type of E with context [put_source m ?s1 g] => set (s' := s1) in E end.
  match type of E with context [emit ?f (emit ?h (put_source m s' g))] => set (g1' := emit f (emit h (put_source m s' g))) in E end.
  assert (accounted l g1') as A1.
  { eapply (accounted_same _ (put_source m s' g)); [done|]. by apply (accounted_keep l g m s). }
  destruct (s_fallback_override s'); [|by injection E as <-]. destruct (s_fallback_mount s') as [f|]; [|by injection E as <-].
  destruct (Mounts.source_find_mount fnmatch config g1' f) as [[f' ?]|]; [|by injection E as <-]. by eapply move_accounted.
Qed.

Lemma free_accounted m g g' l : source_free_source m g = Some g' -> accounted l g -> accounted l g'.
Proof.
  unfold source_free_source. intros E [N P]. destruct (g_sources g !! m) as [s|] eqn:S; [|done]. cbn [mbind option_bind] in E.
  injection E as <-. split; [done|]. rewrite <- P. unfold released_ids. cbn. rewrite !fmap_app, !farewells_ids, (held_lookup _ m s S).
  unfold source_ids. solve_Permutation.
Qed.


Lemma join_accounted config m s i li g g' l :
  i ∉ l -> g_sources g !! m = Some s -> add_listener_to_source fnmatch config m s i li g = Some g' ->
  accounted l g -> accounted (i :: l) g'.
Proof.
  unfold add_listener_to_source. intros I L E A. destruct (find_room fnmatch 10 config g m s) as [[m' s']|] eqn:R; [|done].
  assert (g_sources g !! m' = Some s') as L'.
  { clear E. revert m s L R. generalize 10%nat. intros n. induction n as [|n IH]; intros m s L; cbn [find_room];
      (destruct (has_room s); [by intros [= <- <-]|]); [done|].
    destruct (s_fallback_when_full s); [|done]. destruct (s_fallback_mount s) as [f|]; [|done].
    pose proof (find_mount_loop_spec config g MAX_FALLBACK_DEPTH f) as H. unfold Mounts.source_find_mount.
    destruct (find_mount_loop _ _ _ _ _) as [[m1 s1]|]; [|done]. destruct H as (k & _ & _ & [H _] & _). by apply IH. }
  injection E as <-. destruct A as [N P].
  match goal with |- accounted _ (put_source _ ?x _) => assert (source_ids x ≡ₚ i :: source_ids s') as Q end.
  { assert (s_pending s' !! i = None) as F.
    { destruct (s_pending s' !! i) eqn:F; [|done]. destruct I. rewrite <- P, (held_lookup _ m' s' L'). unfold source_ids.
      rewrite !elem_of_app. left; left; left. apply elem_of_tree_ids. by rewrite F. }
    unfold source_ids. destruct (negb (s_running s') && s_on_demand s'); cbn; by rewrite tree_ids_insert. }
  split; [by constructor|]. rewrite <- P. unfold released_ids. cbn [g_sources put_source g_released].
  rewrite held_put, Q, (held_lookup _ m' s' L'). solve_Permutation.
Qed.

(** The steps of a server, with the listeners let in so far.  The settings
    may change from one to the next.  [reach_serve] is a turn of the thread
    of a source: listeners go from one of its trees to the other, or are let
    go. *)
Inductive reach : list Z -> server -> Prop :=
| reach_start ev n y : reach [] (Server ∅ ev n [] y)
| reach_reserve l g m g' : reach l g -> source_reserve m g = Some g' -> reach l g'
| reach_settings l g x config m info g' :
    reach l g -> source_update_settings x config m info g = Some g' -> reach l g'
| reach_init l g config m g' : reach l g -> source_init config m g = Some g' -> reach l g'
| reach_join l g config m m' s i li g' :
    reach l g -> i ∉ l -> source_find_mount config g m = Some (m', s) ->
    add_listener_to_source fnmatch config m' s i li g = Some g' -> reach (i :: l) g'
| reach_serve l g m s s' out :
    reach l g -> g_sources g !! m = Some s -> source_ids s ≡ₚ source_ids s' ++ out.*1 ->
    reach l (release out (put_source m s' g))
| reach_move l g a b g' : reach l g -> source_move_clients a b g = Some g' -> reach l g'
| reach_shutdown l g config m g' : reach l g -> source_shutdown config m g = Some g' -> reach l g'
| reach_free l g m g' : reach l g -> source_free_source m g = Some g' -> reach l g'.

Lemma reserve_accounted m g g' l : source_reserve m g = Some g' -> accounted l g -> accounted l g'.
Proof.
  unfold source_reserve, source_find_mount_raw. intros E [N P]. destruct (g_sources g !! m) eqn:S; [done|]. injection E as <-.
  split; [done|]. rewrite <- P. cbn. rewrite held_new by done. unfold source_ids. cbn.
  by rewrite (tree_ids_empty (A:=listener)).
Qed.



(** ** The end of a source *)

(** Where the listeners of a source that ends go. *)
Definition shutdown_target (config : ice_config) (m : string) (s : source) (g : server) : option (string * source) :=
  f ← s_fallback_mount s;
  '(m', d) ← source_find_mount config (put_source m (set_running false s) g) f;
  if bool_decide (m' <> m) && moves s d then Some (m', d) else None.

Lemma clear_eq m g s :
  g_sources g !! m = Some s ->
  exists g' s', source_clear_source m g = Some g' /\ g_sources g' = <[m := s']> (g_sources g) /\
    s_running s' = s_running s /\ s_pending s' = ∅ /\ s_clients s' = ∅ /\
    g_released g' = g_released g ++ farewells (s_clients s) ++ farewells (s_pending s).
Proof.
  intros E. unfold source_clear_source. rewrite E. run_bind. eexists _, _. split; [reflexivity|].
  destruct (bool_decide _); cbn; split_and!; reflexivity.
Qed.

Lemma find_mount_playing config g f m s : source_find_mount config g f = Some (m, s) -> playing g m s.
Proof.
  intros E. pose proof (find_mount_loop_spec config g MAX_FALLBACK_DEPTH f) as H. unfold Mounts.source_find_mount in E.
  rewrite E in H. by destruct H as (_ & _ & _ & H & _).
Qed.

Lemma to_fallback_eq config m s g :
  let g0 := put_source m (set_running false s) g in
  to_fallback fnmatch config m s g0 = Some
    match shutdown_target config m s g with
    | Some (m', d) =>
        emit (fun q => q ++ [build_event (Some m) (Some "listeners"%string) (Some "0"%string)])
          (put_source m' (joined (set_running false s) d) (put_source m (emptied (set_running false s)) g0))
    | None => g0
    end.
Proof.
  intros g0. unfold to_fallback, shutdown_target. fold g0. destruct (s_fallback_mount s) as [f|]; [|done]. run_bind.
  destruct (source_find_mount config g0 f) as [[m' d]|] eqn:F; [|done]. run_bind.
  destruct (find_mount_playing _ _ _ _ _ F) as [D _]. destruct (decide (m' = m)) as [->|N].
  - rewrite bool_decide_eq_false_2 by tauto. cbn. unfold source_move_clients, streq. by rewrite String.eqb_refl.
  - rewrite bool_decide_eq_true_2 by done.
    rewrite (move_clients_eq m m' g0 (set_running false s) d) by (done || apply put_lookup).
    change (moves (set_running false s) d) with (moves s d). cbn [andb]. by destruct (moves s d).
Qed.

Lemma joined_pending src dst i l :
  (s_clients src ∪ s_pending src) !! i = Some l -> s_pending (joined src dst) !! i = Some (leave_queue (s_has_con src) l).
Proof.
  intros E. assert (s_pending (joined src dst) = move_tree (s_has_con src) (s_clients src)
    (move_tree (s_has_con src) (s_pending src) (s_pending dst))) as -> by (unfold joined; by destruct (_ && _)).
  unfold move_tree. apply lookup_union_Some_raw in E as [E|[E1 E2]].
  - apply lookup_union_Some_l. by rewrite lookup_fmap, E.
  - rewrite lookup_union_r by (by rewrite lookup_fmap, E1). apply lookup_union_Some_l. by rewrite lookup_fmap, E2.
Qed.

(** When a source ends, its mount stays without listeners and is not
    running.  Where its fallback leads to another mount that runs or is on
    demand and has the same format, every listener is waiting on that mount
    and nobody is let go, and an on-demand relay there is asked to start;
    otherwise every listener is let go: those that have had no response get
    an error, one that depends on what happened to them. *)
Theorem shutdown_listeners config m g s :
  g_sources g !! m = Some s ->
  exists g' s', source_shutdown config m g = Some g' /\ g_sources g' !! m = Some s' /\
    s_running s' = false /\ source_ids s' = [] /\
    match shutdown_target config m s g with
    | Some (m', d) =>
        g_released g' = g_released g /\
        exists d', g_sources g' !! m' = Some d' /\ s_clients d' = s_clients d /\
          (forall i l, (s_clients s ∪ s_pending s) !! i = Some l ->
             s_pending d' !! i = Some (leave_queue (s_has_con s) l)) /\
          (s_running d = false -> source_ids s <> [] -> s_on_demand_req d' = true)
    | None => g_released g' = g_released g ++ farewells (s_clients s) ++ farewells (s_pending s)
    end.
Proof.
  intros E. unfold Mounts.source_shutdown. rewrite E. run_bind. rewrite to_fallback_eq. run_bind.
  destruct (shutdown_target config m s g) as [[m' d]|] eqn:T.
  - assert (m' <> m /\ active d = true) as [N Ad].
    { unfold shutdown_target in T. destruct (s_fallback_mount s); [|done]. cbn [mbind option_bind] in T.
      destruct (source_find_mount _ _ _) as [[m1 d1]|] eqn:F; [|done]. cbn [mbind option_bind] in T.
      destruct (decide (m1 = m)) as [->|N]; [by rewrite bool_decide_eq_false_2 in T by tauto|].
      destruct (bool_decide _ && _); [|done]. injection T as <- <-. split; [done|].
      by destruct (find_mount_playing _ _ _ _ _ F). }
    match goal with |- context [source_clear_source m ?h] => edestruct (clear_eq m h) as (g' & s' & C & S' & R & P' & C' & Q) end.
    { cbn. rewrite lookup_insert_ne by done. apply lookup_insert_eq. }
    rewrite C. run_bind. eexists _, s'. split; [reflexivity|]. cbn [g_sources emit set_count g_released].
    split_and!; [rewrite S'; apply lookup_insert_eq|done|by unfold source_ids; rewrite P', C', (tree_ids_empty (A:=listener))| |].
    + rewrite Q. cbn. by rewrite app_nil_r.
    + exists (joined (set_running false s) d). rewrite S', lookup_insert_ne by done. split_and!; [apply lookup_insert_eq| | |].
      * unfold joined. by destruct (_ && _).
      * intros i l I. by apply (joined_pending (set_running false s)).
      * intros Rd Ne. unfold joined. rewrite Rd. unfold active in Ad. rewrite Rd in Ad. cbn in Ad. rewrite Ad. cbn [negb andb].
        destruct (size _ + size _ =? 0)%nat eqn:Z0; [|done]. apply Nat.eqb_eq, Nat.eq_add_0 in Z0 as [Z1 Z2]. cbn in Z1, Z2.
        apply map_size_empty_inv in Z1, Z2. destruct Ne. unfold source_ids. by rewrite Z1, Z2, (tree_ids_empty (A:=listener)).
  - match goal with |- context [source_clear_source m ?h] => edestruct (clear_eq m h) as (g' & s' & C & S' & R & P' & C' & Q) end.
    { apply put_lookup. }
    rewrite C. run_bind. eexists _, s'. split; [reflexivity|]. cbn [g_sources emit set_count g_released].
    split_and!; [rewrite S'; apply lookup_insert_eq|done|by unfold source_ids; rewrite P', C', (tree_ids_empty (A:=listener))|by rewrite Q].
Qed.


(** ** Admission *)

(** From a full mount to the one it falls back to when full, [n] times. *)
Inductive overflows (config : ice_config) (g : server) : nat -> string * source -> string * source -> Prop :=
| overflow_here a : overflows config g 0 a a
| overflow_next n m s f b c :
    has_room s = false -> s_fallback_when_full s = true -> s_fallback_mount s = Some f ->
    source_find_mount config g f = Some b -> overflows config g n b c -> overflows config g (S n) (m, s) c.

Lemma find_room_spec config g n : forall m s,
  match find_room fnmatch n config g m s with
  | Some (m', s') => has_room s' = true /\ exists k, (k <= n)%nat /\ overflows config g k (m, s) (m', s')
  | None => forall k m' s', (k <= n)%nat -> overflows config g k (m, s) (m', s') -> has_room s' = false
  end.
Proof.
  assert (forall n m s, has_room s = false ->
    (forall f b, s_fallback_when_full s = true -> s_fallback_mount s = Some f -> source_find_mount config g f = Some b ->
      forall k m' s', (S k <= n)%nat -> overflows config g k b (m', s') -> has_room s' = false) ->
    forall k m' s', (k <= n)%nat -> overflows config g k (m, s) (m', s') -> has_room s' = false) as Full.
  { intros n' m s R H k m' s' L O. inversion O; subst; [done|]. eapply H; done. }
  induction n as [|n IH]; intros m s; cbn [find_room]; (destruct (has_room s) eqn:R;
    [split; [done|]; exists 0%nat; split; [lia|constructor]|]); [apply Full; [done|]; intros; lia|].
  destruct (s_fallback_when_full s) eqn:W; [|apply Full; [done|]; congruence].
  destruct (s_fallback_mount s) as [f|] eqn:F; [|apply Full; [done|]; congruence].
  destruct (source_find_mount config g f) as [[m1 s1]|] eqn:FS; [|apply Full; [done|]; congruence].
  specialize (IH m1 s1). destruct (find_room _ _ _ _ _ _) as [[m' s']|].
  - destruct IH as (R' & k & L & O). split; [done|]. exists (S k). split; [lia|]. by econstructor.
  - apply Full; [done|]. intros f' b _ F' S' k m' s' L. rewrite F in F'. injection F' as <-. rewrite FS in S'. injection S' as <-.
    apply IH. lia.
Qed.

(** C26: A [GET] request makes a listener only with the right to, below the
    number of connections its role allows a user on the mount, and on a mount
    with room: the one the address leads to, or one reached from it by at
    most ten fallbacks of mounts that are full.  It waits there for its
    headers; no other listener and no other mount changes.  A request is
    turned away for the lack of room only where none of those has any. *)
Theorem get_request_admits config a shoutcast xslt now uri i l g :
  match handle_get_request fnmatch config a shoutcast xslt now uri i l g with
  | GetListener g' =>
      acl_test_web a = ACL_POLICY_ALLOW /\
      exists m s k m' s' s'',
        source_find_mount config g uri = Some (m, s) /\
        (0 < acl_get_max_connections_per_user a -> count_user_role_on_mount s l < acl_get_max_connections_per_user a) /\
        (k <= 10)%nat /\ overflows config g k (m, s) (m', s') /\ has_room s' = true /\
        g' = put_source m' s'' g /\
        s_pending s'' = <[i := accepted (set_discon (discon_time fnmatch config m a now l) l)]> (s_pending s') /\
        s_clients s'' = s_clients s' /\ (active s' = true -> s_running s'' = true \/ s_on_demand_req s'' = true)
  | GetError e =>
      exists m s, source_find_mount config g uri = Some (m, s) /\
        if e =? ICECAST_ERROR_CON_PER_CRED_CLIENT_LIMIT
        then 0 < acl_get_max_connections_per_user a <= count_user_role_on_mount s l
        else forall k m' s', (k <= 10)%nat -> overflows config g k (m, s) (m', s') -> has_room s' = false
  | GetDenied _ => acl_test_web a <> ACL_POLICY_ALLOW
  | GetFile => source_find_mount config g uri = None
  | GetAdmin _ | GetXslt => True
  end.
Proof.
  unfold handle_get_request. destruct (streq uri "/admin.cgi"); [done|]. destruct (starts_with "/admin/" uri); [done|].
  destruct (decide (acl_test_web a = ACL_POLICY_ALLOW)) as [W|W]; [|by rewrite bool_decide_eq_false_2 by done].
  rewrite bool_decide_eq_true_2 by done. cbn [negb]. destruct xslt; [done|].
  destruct (source_find_mount config g uri) as [[m s]|] eqn:F; [|done].
  destruct ((0 <? acl_get_max_connections_per_user a) && (acl_get_max_connections_per_user a <=? count_user_role_on_mount s l)) eqn:C.
  { apply andb_true_iff in C as [C1 C2]. exists m, s. split; [done|]. rewrite Z.eqb_refl. lia. }
  set (l' := set_discon _ l). unfold add_listener_to_source. pose proof (find_room_spec config g 10 m s) as R.
  destruct (find_room fnmatch 10 config g m s) as [[m' s']|]; [|by exists m, s].
  destruct R as (R & k & L & O). split; [done|]. eexists m, s, k, m', s', _. split_and!; try done.
  - intros P. apply andb_false_iff in C as [C|C]; lia.
  - by destruct (negb (s_running s') && s_on_demand s').
  - by destruct (negb (s_running s') && s_on_demand s').
  - unfold active. destruct (s_running s') eqn:Q; [intros _; left|intros P; cbn in P; right; by rewrite P].
    by destruct (negb _ && _).
Qed.

(** Listeners one after the other. *)
Fixpoint join_all (config : ice_config) (mount : string) (ls : list (Z * listener)) (g : server) : option server :=
  match ls with
  | [] => Some g
  | (i, l) :: r =>
      '(m, s) ← source_find_mount config g mount;
      g ← add_listener_to_source fnmatch config m s i l g;
      join_all config mount r g
  end.

(** The limit on the listeners of a mount is compared with the number the
    thread of the source has counted, and a listener that waits is not
    counted: however low the limit, a mount with room for one takes any
    number between two turns of that thread. *)
Theorem limit_overrun config m ls : forall g s,
  g_sources g !! m = Some s -> active s = true -> has_room s = true ->
  exists g' s', join_all config m ls g = Some g' /\ g_sources g' !! m = Some s' /\
    s_max_listeners s' = s_max_listeners s /\ forall i, i ∈ ls.*1 -> is_Some (s_pending s' !! i).
Proof.
  assert (forall g s, g_sources g !! m = Some s -> active s = true -> has_room s = true ->
    exists g' s', join_all config m ls g = Some g' /\ g_sources g' !! m = Some s' /\
      s_max_listeners s' = s_max_listeners s /\ (forall i, i ∈ ls.*1 -> is_Some (s_pending s' !! i)) /\
      (forall i, is_Some (s_pending s !! i) -> is_Some (s_pending s' !! i))) as H.
  { induction ls as [|[i l] r IH]; intros g s E A R.
    { exists g, s. split_and!; try done. intros i []%elem_of_nil. }
    assert (source_find_mount config g m = Some (m, s)) as F.
    { unfold Mounts.source_find_mount, MAX_FALLBACK_DEPTH. cbn [find_mount_loop]. unfold source_find_mount_raw. by rewrite E, A. }
    cbn [join_all]. rewrite F. run_bind. unfold add_listener_to_source. cbn [find_room]. rewrite R. run_bind.
    match goal with |- context [put_source m ?x g] => set (s1 := x) end.
    assert (s_pending s1 = <[i := accepted l]> (s_pending s) /\ s_max_listeners s1 = s_max_listeners s /\
      active s1 = true /\ has_room s1 = true) as (P1 & M1 & A1 & R1).
    { unfold s1, active, has_room in *. by destruct (negb _ && _). }
    destruct (IH (put_source m s1 g) s1) as (g' & s' & J & L & M & P & Q); [apply put_lookup|done..|].
    rewrite M1 in M. rewrite P1 in Q. exists g', s'. split_and!; try done.
    - intros j. cbn [fmap list_fmap fst]. rewrite elem_of_cons. intros [->|I]; [|by apply P]. apply Q. by rewrite lookup_insert_eq.
    - intros j I. apply Q. destruct (decide (i = j)) as [->|]; [by rewrite lookup_insert_eq|by rewrite lookup_insert_ne]. }
  intros g s E A R. destruct (H g s E A R) as (g' & s' & J & L & M & P & _). eauto 10.
Qed.

(** Once a mount has been told to pass listeners on when it is full, no later
    settings stop it: the flag is only ever set. *)
Theorem fallback_when_full_sticks x config m info g s :
  g_sources g !! m = Some s -> s_fallback_when_full s = true ->
  exists g' s', source_update_settings x config m info g = Some g' /\ g_sources g' !! m = Some s' /\
    s_fallback_when_full s' = true.
Proof.
  intros E W. unfold source_update_settings. rewrite E. run_bind. destruct (s_running s && negb (s_has_client s)).
  { by eexists _, s. }
  match goal with |- context [source_apply_mount x config m ?s1 info ?g1] =>
    destruct (apply_mount_places x config m s1 info g1) as (g2 & _ & Q) end.
  rewrite Q, put_lookup. run_bind. eexists _, _. split; [reflexivity|].
  match goal with |- context [apply_fields ?a ?b ?c ?d ?e] => set (s2 := apply_fields a b c d e) end.
  assert (s_fallback_when_full s2 = true) as W2.
  { unfold s2, apply_fields. cbn. rewrite W. destruct info; [apply orb_true_r|done]. }
  destruct (s_on_demand s2); (split; [apply (put_lookup m s2 g2)|done]).
Qed.

End facts.

(** ** Witnesses *)

Definition demo_listener : listener := Listener format_advance_queue (Some 7) 3 (-1) 200 None None 0.

Definition demo_mount : mount_proxy :=
  MountProxy (Some "/a"%string) MOUNT_TYPE_NORMAL None None true 1 (Some "/b"%string) false false (-1) 0 false 0 None (-1)
    [] (-1) None 0 None None None None None None None (-1).

Definition demo_config : ice_config := IceConfig [demo_mount] "localhost" 8000 0 0 0 "/web".

(** A running source with a format, a fallback and room for one listener. *)
Definition demo_source (clients : gmap Z listener) : source :=
  Source true false false (Some 0) true true 0 0 0 1 (Some "/b"%string) false true false 0 0 0 None None 0 4 ∅ clients.

Definition demo_server (clients : gmap Z listener) : server :=
  Server (<["/a"%string := demo_source clients]> {["/b"%string := demo_source ∅]}) [] 2 [] [].

Definition demo_surroundings : surroundings :=
  Surroundings (fun _ => None) (fun _ => true) (fun s => s) "audio/mpeg" None (fun _ => false).

Definition demo_then (f : server -> option server) (g : server) : server := default g (f g).
Definition demo_1 : server := demo_then (source_reserve "/a") (Server ∅ [] 0 [] []).
Definition demo_2 : server := demo_then (source_reserve "/b") demo_1.
Definition demo_3 : server := put_source "/b" (demo_source ∅) (put_source "/a" (demo_source ∅) demo_2).
Definition demo_4 : server := demo_then (add_listener_to_source streq demo_config "/a" (demo_source ∅) 1 demo_listener) demo_3.
Definition demo_5 : server := demo_then (source_shutdown streq demo_config "/a") demo_4.

Lemma demo_reach_3 : reach streq [] demo_3.
Proof.
  assert (reach streq [] demo_2) as R.
  { apply (reach_reserve streq [] demo_1 "/b"); [|by vm_compute].
    apply (reach_reserve streq [] (Server ∅ [] 0 [] []) "/a"); [apply reach_start|by vm_compute]. }
  unfold demo_3. rewrite <- (release_nil (put_source "/b" _ _)).
  apply (reach_serve streq [] _ "/b" (new_source "/b")); [|by vm_compute|by vm_compute].
  rewrite <- (release_nil (put_source "/a" _ _)).
  apply (reach_serve streq [] _ "/a" (new_source "/a")); [done|by vm_compute|by vm_compute].
Qed.

Lemma demo_reach_5 : reach streq [1] demo_5.
Proof.
  apply (reach_shutdown streq [1] demo_4 demo_config "/a"); [|by vm_compute].
  apply (reach_join streq [] demo_3 demo_config "/a" "/a" (demo_source ∅) 1 demo_listener);
    [apply demo_reach_3|set_solver|by vm_compute|by vm_compute].
Qed.


Example shutdown_listeners_witness :
  g_sources (demo_server {[1 := demo_listener]}) !! "/a"%string = Some (demo_source {[1 := demo_listener]}) /\
  exists g' s', source_shutdown streq demo_config "/a" (demo_server {[1 := demo_listener]}) = Some g' /\
    g_sources g' !! "/a"%string = Some s' /\ s_running s' = false /\ source_ids s' = [].
Proof.
  assert (g_sources (demo_server {[1 := demo_listener]}) !! "/a"%string = Some (demo_source {[1 := demo_listener]})) as E
    by reflexivity.
  split; [exact E|]. destruct (shutdown_listeners streq demo_config _ _ _ E) as (g' & s' & H1 & H2 & H3 & H4 & _). eauto 10.
Defined.

Example limit_overrun_witness :
  has_room (demo_source ∅) = true /\
  exists g' s', join_all streq demo_config "/a" [(1, demo_listener); (2, demo_listener); (3, demo_listener)] (demo_server ∅) = Some g' /\
    g_sources g' !! "/a"%string = Some s' /\ s_max_listeners s' = 1 /\
    forall i, i ∈ [1; 2; 3] -> is_Some (s_pending s' !! i).
Proof.
  split; [reflexivity|].
  exact (limit_overrun streq demo_config "/a" [(1, demo_listener); (2, demo_listener); (3, demo_listener)] (demo_server ∅)
    (demo_source ∅) eq_refl eq_refl eq_refl).
Defined.

Example fallback_when_full_sticks_witness :
  s_fallback_when_full (demo_source ∅) = true /\
  exists g' s', source_update_settings demo_surroundings demo_config "/a" None (demo_server ∅) = Some g' /\
    g_sources g' !! "/a"%string = Some s' /\ s_fallback_when_full s' = true.
Proof.
  split; [reflexivity|].
  exact (fallback_when_full_sticks demo_surroundings demo_config "/a" None (demo_server ∅) (demo_source ∅) eq_refl eq_refl).
Defined.
