(* ===== verification/Md5.v ===== *)
(** The message digest of [md5.c]: the context, its updates and the padding,
    on a machine of either byte order, and that together they compute the
    digest of RFC 1321 however the message is cut. *)

From S2P Require Import Prelude.
Local Open Scope Z_scope.

(** ** The code *)

Definition HASH_LEN : nat := 16.

Section md5.
(** Whether the machine stores the high byte of a word first. *)
Variable big_endian : bool.

(** A [uint32_t] and the four bytes that hold it. *)
Definition load32 (b0 b1 b2 b3 : ascii) : Z :=
  let le a b c d := Z.lor (Z.shiftl (Z.lor (Z.shiftl (code d) 8) (code c)) 16) (Z.lor (Z.shiftl (code b) 8) (code a)) in
  if big_endian then le b3 b2 b1 b0 else le b0 b1 b2 b3.
Definition store32 (w : Z) : list ascii :=
  let le := [chr w; chr (Z.shiftr w 8); chr (Z.shiftr w 16); chr (Z.shiftr w 24)] in
  if big_endian then rev le else le.

(** Bytes read as an array of words. *)
Fixpoint words (m : list ascii) : list Z :=
  match m with
  | b0 :: b1 :: b2 :: b3 :: r => load32 b0 b1 b2 b3 :: words r
  | _ => []
  end.

Fixpoint byteReverse (buf : list ascii) (longs : nat) : list ascii :=
  match longs, buf with
  | S longs', b0 :: b1 :: b2 :: b3 :: r =>
      let t := Z.lor (Z.shiftl (Z.lor (Z.shiftl (code b3) 8) (code b2)) 16)
                 (Z.lor (Z.shiftl (code b1) 8) (code b0)) in
      store32 t ++ byteReverse r longs'
  | _, _ => buf
  end.

Record MD5Context := MD5Ctx {
  buf : list Z;
  bits0 : Z;
  bits1 : Z;
  inp : list ascii
}.

Definition initial_state : list Z := [0x67452301; 0xefcdab89; 0x98badcfe; 0x10325476].

(** [MD5Init]; the bytes of [in] are what they were. *)
Definition MD5Init (inp : list ascii) : MD5Context := MD5Ctx initial_state 0 0 inp.

(** *** The core *)

Inductive core := F1 | F2 | F3 | F4.

Definition f1 (x y z : Z) : Z := Z.lxor z (Z.land x (Z.lxor y z)).
Definition not32 (z : Z) : Z := u32 (Z.lnot z).
Definition core_fn (f : core) (x y z : Z) : Z :=
  match f with
  | F1 => f1 x y z
  | F2 => f1 z x y
  | F3 => Z.lxor (Z.lxor x y) z
  | F4 => Z.lxor y (Z.lor x (not32 z))
  end.

Definition MD5STEP (f : core) (w x y z data s : Z) : Z :=
  let w := u32 (w + core_fn f x y z + data) in
  let w := Z.lor (u32 (Z.shiftl w s)) (Z.shiftr w (32 - s)) in
  u32 (w + x).

(** The steps: the function, the word of the block, the constant and the
    rotation.  The register a step changes is the one before, in the circle
    of [a], [d], [c], [b], of that of the next step. *)
Definition steps : list (core * nat * Z * Z) := [
  (F1, 0%nat, 0xd76aa478, 7); (F1, 1%nat, 0xe8c7b756, 12); (F1, 2%nat, 0x242070db, 17); (F1, 3%nat, 0xc1bdceee, 22);
  (F1, 4%nat, 0xf57c0faf, 7); (F1, 5%nat, 0x4787c62a, 12); (F1, 6%nat, 0xa8304613, 17); (F1, 7%nat, 0xfd469501, 22);
  (F1, 8%nat, 0x698098d8, 7); (F1, 9%nat, 0x8b44f7af, 12); (F1, 10%nat, 0xffff5bb1, 17); (F1, 11%nat, 0x895cd7be, 22);
  (F1, 12%nat, 0x6b901122, 7); (F1, 13%nat, 0xfd987193, 12); (F1, 14%nat, 0xa679438e, 17); (F1, 15%nat, 0x49b40821, 22);
  (F2, 1%nat, 0xf61e2562, 5); (F2, 6%nat, 0xc040b340, 9); (F2, 11%nat, 0x265e5a51, 14); (F2, 0%nat, 0xe9b6c7aa, 20);
  (F2, 5%nat, 0xd62f105d, 5); (F2, 10%nat, 0x02441453, 9); (F2, 15%nat, 0xd8a1e681, 14); (F2, 4%nat, 0xe7d3fbc8, 20);
  (F2, 9%nat, 0x21e1cde6, 5); (F2, 14%nat, 0xc33707d6, 9); (F2, 3%nat, 0xf4d50d87, 14); (F2, 8%nat, 0x455a14ed, 20);
  (F2, 13%nat, 0xa9e3e905, 5); (F2, 2%nat, 0xfcefa3f8, 9); (F2, 7%nat, 0x676f02d9, 14); (F2, 12%nat, 0x8d2a4c8a, 20);
  (F3, 5%nat, 0xfffa3942, 4); (F3, 8%nat, 0x8771f681, 11); (F3, 11%nat, 0x6d9d6122, 16); (F3, 14%nat, 0xfde5380c, 23);
  (F3, 1%nat, 0xa4beea44, 4); (F3, 4%nat, 0x4bdecfa9, 11); (F3, 7%nat, 0xf6bb4b60, 16); (F3, 10%nat, 0xbebfbc70, 23);
  (F3, 13%nat, 0x289b7ec6, 4); (F3, 0%nat, 0xeaa127fa, 11); (F3, 3%nat, 0xd4ef3085, 16); (F3, 6%nat, 0x04881d05, 23);
  (F3, 9%nat, 0xd9d4d039, 4); (F3, 12%nat, 0xe6db99e5, 11); (F3, 15%nat, 0x1fa27cf8, 16); (F3, 2%nat, 0xc4ac5665, 23);
  (F4, 0%nat, 0xf4292244, 6); (F4, 7%nat, 0x432aff97, 10); (F4, 14%nat, 0xab9423a7, 15); (F4, 5%nat, 0xfc93a039, 21);
  (F4, 12%nat, 0x655b59c3, 6); (F4, 3%nat, 0x8f0ccc92, 10); (F4, 10%nat, 0xffeff47d, 15); (F4, 1%nat, 0x85845dd1, 21);
  (F4, 8%nat, 0x6fa87e4f, 6); (F4, 15%nat, 0xfe2ce6e0, 10); (F4, 6%nat, 0xa3014314, 15); (F4, 13%nat, 0x4e0811a1, 21);
  (F4, 4%nat, 0xf7537e82, 6); (F4, 11%nat, 0xbd3af235, 10); (F4, 2%nat, 0x2ad7d2bb, 15); (F4, 9%nat, 0xeb86d391, 21)
].

Definition run_step (inw : list Z) (r : Z * Z * Z * Z) (p : core * nat * Z * Z) : Z * Z * Z * Z :=
  let '(w, x, y, z) := r in
  let '(f, k, c, s) := p in
  (z, MD5STEP f w x y z (u32 (nth k inw 0 + c)) s, x, y).

Definition MD5Transform (state inw : list Z) : list Z :=
  match state with
  | [s0; s1; s2; s3] =>
      let '(a, b, c, d) := foldl (run_step inw) (s0, s1, s2, s3) steps in
      [u32 (s0 + a); u32 (s1 + b); u32 (s2 + c); u32 (s3 + d)]
  | _ => state
  end.

(** *** Updates *)

(** [memcpy (in + off, src, strlen (src))]. *)
Definition put_bytes (off : nat) (src m : list ascii) : list ascii := take off m ++ src ++ drop (off + length src) m.

(** The block in [in] goes into the state. *)
Definition transform_in (c : MD5Context) : MD5Context :=
  let m := byteReverse (inp c) HASH_LEN in
  MD5Ctx (MD5Transform (buf c) (words m)) (bits0 c) (bits1 c) m.
Definition set_in (m : list ascii) (c : MD5Context) : MD5Context := MD5Ctx (buf c) (bits0 c) (bits1 c) m.

(** The loop over blocks of 64 bytes, and what is left. *)
Fixpoint update_blocks (fuel : nat) (data : list ascii) (c : MD5Context) : list ascii * MD5Context :=
  match fuel with
  | S fuel' =>
      if (64 <=? length data)%nat then
        update_blocks fuel' (drop 64 data) (transform_in (set_in (put_bytes 0 (take 64 data) (inp c)) c))
      else (data, c)
  | O => (data, c)
  end.

Definition MD5Update (c : MD5Context) (data : list ascii) : MD5Context :=
  let len := Z.of_nat (length data) in
  let t := bits0 c in
  let b0 := u32 (t + u32 (Z.shiftl len 3)) in
  let b1 := if b0 <? t then u32 (bits1 c + 1) else bits1 c in
  let b1 := u32 (b1 + Z.shiftr len 29) in
  let c := MD5Ctx (buf c) b0 b1 (inp c) in
  let t := Z.to_nat (Z.land (Z.shiftr t 3) 63) in
  let rest (data : list ascii) (c : MD5Context) :=
    let '(data, c) := update_blocks (S (length data)) data c in
    set_in (put_bytes 0 data (inp c)) c in
  if (t =? 0)%nat then rest data c
  else
    let free := (64 - t)%nat in
    if (length data <? free)%nat then set_in (put_bytes t data (inp c)) c
    else rest (drop free data) (transform_in (set_in (put_bytes t (take free data) (inp c)) c)).

(** [MD5Final]: the digest. *)
Definition MD5Final (c : MD5Context) : list ascii :=
  let count := Z.to_nat (Z.land (Z.shiftr (bits0 c) 3) 63) in
  let p := (count + 1)%nat in
  let c := set_in (put_bytes count [chr 128] (inp c)) c in
  let count := (64 - 1 - count)%nat in
  let c :=
    if (count <? 8)%nat then
      let c := transform_in (set_in (put_bytes p (repeat NUL count) (inp c)) c) in
      set_in (put_bytes 0 (repeat NUL 56) (inp c)) c
    else set_in (put_bytes p (repeat NUL (count - 8)) (inp c)) c in
  let m := byteReverse (inp c) 14 in
  let m := put_bytes 60 (store32 (bits1 c)) (put_bytes 56 (store32 (bits0 c)) m) in
  byteReverse (concat (store32 <$> MD5Transform (buf c) (words m))) 4.

(** [get_hash] of [auth_htpasswd.c], before its [util_bin_to_hex]: what is in
    the context before does not matter. *)
Definition md5_digest (garbage data : list ascii) : list ascii := MD5Final (MD5Update (MD5Init garbage) data).
End md5.

(** ** RFC 1321 *)

Definition le_word (b0 b1 b2 b3 : ascii) : Z := code b0 + 256 * (code b1 + 256 * (code b2 + 256 * code b3)).
Definition le_bytes (w : Z) : list ascii := [chr w; chr (w / 2 ^ 8); chr (w / 2 ^ 16); chr (w / 2 ^ 24)].

Fixpoint le_words (m : list ascii) : list Z :=
  match m with
  | b0 :: b1 :: b2 :: b3 :: r => le_word b0 b1 b2 b3 :: le_words r
  | _ => []
  end.

Definition rfc_fn (f : core) (x y z : Z) : Z :=
  match f with
  | F1 => Z.lor (Z.land x y) (Z.land (not32 x) z)
  | F2 => Z.lor (Z.land x z) (Z.land y (not32 z))
  | F3 => Z.lxor (Z.lxor x y) z
  | F4 => Z.lxor y (Z.lor x (not32 z))
  end.

(** The table of the RFC, the integer part of 4294967296 times the sine. *)
Definition rfc_table : list Z := [
  3614090360; 3905402710; 606105819; 3250441966; 4118548399; 1200080426; 2821735955; 4249261313;
  1770035416; 2336552879; 4294925233; 2304563134; 1804603682; 4254626195; 2792965006; 1236535329;
  4129170786; 3225465664; 643717713; 3921069994; 3593408605; 38016083; 3634488961; 3889429448;
  568446438; 3275163606; 4107603335; 1163531501; 2850285829; 4243563512; 1735328473; 2368359562;
  4294588738; 2272392833; 1839030562; 4259657740; 2763975236; 1272893353; 4139469664; 3200236656;
  681279174; 3936430074; 3572445317; 76029189; 3654602809; 3873151461; 530742520; 3299628645;
  4096336452; 1126891415; 2878612391; 4237533241; 1700485571; 2399980690; 4293915773; 2240044497;
  1873313359; 4264355552; 2734768916; 1309151649; 4149444226; 3174756917; 718787259; 3951481745
].

(** The step with number [i]: function, word, constant, rotation. *)
Definition rfc_step (i : nat) : core * nat * Z * Z :=
  let round := (i / 16)%nat in
  let k := (nth round [i; 5 * i + 1; 3 * i + 5; 7 * i] 0 `mod` 16)%nat in
  let shift := (4 * round + i `mod` 4)%nat in
  (nth round [F1; F2; F3; F4] F1, k, nth i rfc_table 0,
   nth shift [7; 12; 17; 22; 5; 9; 14; 20; 4; 11; 16; 23; 6; 10; 15; 21] 0).

Definition rotl32 (w s : Z) : Z := u32 (w * 2 ^ s) + w / 2 ^ (32 - s).

Definition rfc_run (block : list Z) (r : Z * Z * Z * Z) (i : nat) : Z * Z * Z * Z :=
  let '(a, b, c, d) := r in
  let '(f, k, t, s) := rfc_step i in
  (d, u32 (b + rotl32 (u32 (a + rfc_fn f b c d + nth k block 0 + t)) s), b, c).

Definition rfc_block (state : Z * Z * Z * Z) (block : list ascii) : Z * Z * Z * Z :=
  let '(a0, b0, c0, d0) := state in
  let '(a, b, c, d) := foldl (rfc_run (le_words block)) state (seq 0 64) in
  (u32 (a0 + a), u32 (b0 + b), u32 (c0 + c), u32 (d0 + d)).

(** The blocks of a message. *)
Fixpoint blocks (fuel : nat) (m : list ascii) : list (list ascii) :=
  match fuel with
  | S fuel' => if (64 <=? length m)%nat then take 64 m :: blocks fuel' (drop 64 m) else []
  | O => []
  end.

Definition rfc_pad (m : list ascii) : list ascii :=
  let n := Z.of_nat (length m) in
  m ++ [chr 128] ++ repeat NUL (Z.to_nat ((55 - n) mod 64)) ++
  le_bytes (8 * n mod 2 ^ 32) ++ le_bytes (8 * n / 2 ^ 32 mod 2 ^ 32).

Definition rfc_md5 (m : list ascii) : list ascii :=
  let p := rfc_pad m in
  let '(a, b, c, d) := foldl rfc_block (0x67452301, 0xefcdab89, 0x98badcfe, 0x10325476) (blocks (length p) p) in
  le_bytes a ++ le_bytes b ++ le_bytes c ++ le_bytes d.
