(* ===== verification/Md5Facts.v ===== *)
(** The digest of [md5.c] is that of RFC 1321: the byte order of the machine
    and the cuts between the updates do not show. *)

From S2P Require Import Prelude Md5.
Local Open Scope Z_scope.

(** ** Words and bytes *)

Lemma lor_shiftl a b n : 0 <= n -> 0 <= b < 2 ^ n -> Z.lor (Z.shiftl a n) b = a * 2 ^ n + b.
Proof.
  intros Hn Hb. assert (Z.land (Z.shiftl a n) b = 0) as L.
  { apply Z.bits_inj'. intros i Hi. rewrite Z.land_spec, Z.bits_0. destruct (Z.lt_ge_cases i n).
    - by rewrite Z.shiftl_spec_low.
    - rewrite <- (Z.mod_small b (2 ^ n)), Z.mod_pow2_bits_high by lia. apply andb_false_r. }
  rewrite <- Z.lxor_lor, <- Z.add_nocarry_lxor, Z.shiftl_mul_pow2 by done. done.
Qed.

(** The word the code makes of four bytes. *)
Definition leW (b0 b1 b2 b3 : ascii) : Z :=
  Z.lor (Z.shiftl (Z.lor (Z.shiftl (code b3) 8) (code b2)) 16) (Z.lor (Z.shiftl (code b1) 8) (code b0)).

Lemma leW_eq a b c d : leW a b c d = le_word a b c d.
Proof.
  unfold leW, le_word. pose proof (code_range a). pose proof (code_range b). pose proof (code_range c). pose proof (code_range d).
  rewrite (lor_shiftl (code d)), (lor_shiftl (code b)) by lia. rewrite lor_shiftl by lia. lia.
Qed.

Lemma le_word_range a b c d : 0 <= le_word a b c d < 2 ^ 32.
Proof.
  unfold le_word. pose proof (code_range a). pose proof (code_range b). pose proof (code_range c). pose proof (code_range d). lia.
Qed.

(** Division by the powers of two that occur. *)
Ltac div_lia :=
  change (2 ^ 3) with 8 in *; change (2 ^ 8) with 256 in *; change (2 ^ 16) with 65536 in *; change (2 ^ 24) with 16777216 in *;
  change (2 ^ 29) with 536870912 in *; change (2 ^ 32) with 4294967296 in *; Z.to_euclidean_division_equations; lia.

Lemma u8_code z c : z mod 2 ^ 8 = code c -> chr z = c.
Proof. intros E. apply code_inj. by rewrite code_chr. Qed.

Lemma le_bytes_word a b c d : le_bytes (le_word a b c d) = [a; b; c; d].
Proof.
  unfold le_bytes, le_word. pose proof (code_range a). pose proof (code_range b). pose proof (code_range c). pose proof (code_range d).
  f_equal; [apply u8_code; div_lia|]. f_equal; [apply u8_code; div_lia|]. f_equal; [apply u8_code; div_lia|].
  f_equal. apply u8_code. div_lia.
Qed.

Lemma le_word_bytes w : 0 <= w < 2 ^ 32 ->
  le_word (chr w) (chr (w / 2 ^ 8)) (chr (w / 2 ^ 16)) (chr (w / 2 ^ 24)) = w.
Proof. intros H. unfold le_word. rewrite !code_chr. unfold wrap. div_lia. Qed.

Section facts.
Variable big : bool.

Lemma store32_eq w : store32 big w = if big then rev (le_bytes w) else le_bytes w.
Proof. unfold store32, le_bytes. rewrite !Z.shiftr_div_pow2 by lia. done. Qed.

Lemma store32_length w : length (store32 big w) = 4%nat.
Proof. rewrite store32_eq. by destruct big. Qed.

Lemma words_store w r : 0 <= w < 2 ^ 32 -> words big (store32 big w ++ r) = w :: words big r.
Proof.
  intros H. rewrite store32_eq. unfold le_bytes. destruct big; cbn [rev app words]; f_equal; unfold load32;
    fold (leW (chr w) (chr (w / 2 ^ 8)) (chr (w / 2 ^ 16)) (chr (w / 2 ^ 24))); by rewrite leW_eq, le_word_bytes.
Qed.

Lemma reverse_cons a b c d r n :
  byteReverse big (a :: b :: c :: d :: r) (S n) =
  (if big then [d; c; b; a] else [a; b; c; d]) ++ byteReverse big r n.
Proof.
  cbn [byteReverse]. f_equal. fold (leW a b c d). rewrite store32_eq, leW_eq, le_bytes_word. by destruct big.
Qed.

(** Four bytes at a time. *)
Lemma four_ind (P : nat -> list ascii -> Prop) :
  P 0%nat [] -> (forall a b c d r n, length r = (4 * n)%nat -> P n r -> P (S n) (a :: b :: c :: d :: r)) ->
  forall n m, length m = (4 * n)%nat -> P n m.
Proof.
  intros H0 HS n. induction n as [|n IH]; intros m L; [by destruct m|].
  destruct m as [|a [|b [|c [|d r]]]]; cbn in L; try lia. apply HS; [lia|]. apply IH. lia.
Qed.

Lemma words_reverse : forall n m, length m = (4 * n)%nat -> forall r, words big (byteReverse big m n ++ r) = le_words m ++ words big r.
Proof.
  apply (four_ind (fun n m => forall r, words big (byteReverse big m n ++ r) = le_words m ++ words big r)); [done|].
  intros a b c d r n L IH s. rewrite reverse_cons. destruct big; cbn [app words le_words]; f_equal; try apply IH;
    unfold load32; fold (leW a b c d); by rewrite leW_eq.
Qed.

Lemma reverse_length : forall n m, length m = (4 * n)%nat -> length (byteReverse big m n) = length m.
Proof.
  apply (four_ind (fun n m => length (byteReverse big m n) = length m)); [done|].
  intros a b c d r n L IH. rewrite reverse_cons, length_app. destruct big; cbn; by rewrite IH.
Qed.

Lemma reverse_app : forall n m, length m = (4 * n)%nat -> forall r, byteReverse big (m ++ r) n = byteReverse big m n ++ r.
Proof.
  apply (four_ind (fun n m => forall r, byteReverse big (m ++ r) n = byteReverse big m n ++ r)); [intros r; by destruct r|].
  intros a b c d r n L IH s. cbn [app]. rewrite !reverse_cons, IH. by rewrite app_assoc.
Qed.

Lemma reverse_store w r n : 0 <= w < 2 ^ 32 -> byteReverse big (store32 big w ++ r) (S n) = le_bytes w ++ byteReverse big r n.
Proof.
  intros H.
  assert (exists a b c d, store32 big w = [a; b; c; d] /\ (if big then [d; c; b; a] else [a; b; c; d]) = le_bytes w)
    as (a & b & c & d & -> & <-) by (rewrite store32_eq; unfold le_bytes; destruct big; cbn; eauto 10).
  cbn [app]. apply reverse_cons.
Qed.

Lemma le_words_app : forall n m, length m = (4 * n)%nat -> forall r, le_words (m ++ r) = le_words m ++ le_words r.
Proof.
  apply (four_ind (fun n m => forall r, le_words (m ++ r) = le_words m ++ le_words r)); [done|].
  intros a b c d r n L IH s. cbn [app le_words]. by rewrite IH.
Qed.

(** ** The core *)

Lemma bit32 z i : 0 <= z < 2 ^ 32 -> 32 <= i -> Z.testbit z i = false.
Proof. intros H I. rewrite <- (Z.mod_small z (2 ^ 32)) by done. apply Z.mod_pow2_bits_high. lia. Qed.

Lemma not32_bit z i : 0 <= i -> Z.testbit (not32 z) i = (i <? 32) && negb (Z.testbit z i).
Proof.
  intros I. unfold not32, wrap. destruct (Z.ltb_spec i 32).
  - rewrite Z.mod_pow2_bits_low, Z.lnot_spec by lia. done.
  - by rewrite Z.mod_pow2_bits_high by lia.
Qed.

Lemma f1_eq x y z : 0 <= z < 2 ^ 32 -> f1 x y z = Z.lor (Z.land x y) (Z.land (not32 x) z).
Proof.
  intros H. apply Z.bits_inj'. intros i I. unfold f1.
  rewrite Z.lxor_spec, Z.land_spec, Z.lxor_spec, Z.lor_spec, !Z.land_spec, not32_bit by done.
  destruct (Z.ltb_spec i 32) as [L|L]; [|rewrite (bit32 z i H L)]; by destruct (Z.testbit x i), (Z.testbit y i), (Z.testbit z i).
Qed.

Lemma core_eq f x y z : 0 <= y < 2 ^ 32 -> 0 <= z < 2 ^ 32 -> core_fn f x y z = rfc_fn f x y z.
Proof.
  intros Hy Hz. destruct f; cbn; [by apply f1_eq| |done..]. rewrite f1_eq by done.
  rewrite (Z.land_comm z x). f_equal. by rewrite Z.land_comm.
Qed.

Lemma rotate_eq w s : 0 <= w < 2 ^ 32 -> 0 < s < 32 -> Z.lor (u32 (Z.shiftl w s)) (Z.shiftr w (32 - s)) = rotl32 w s.
Proof.
  intros Hw Hs. unfold rotl32, wrap. rewrite Z.shiftl_mul_pow2, Z.shiftr_div_pow2 by lia.
  assert (2 ^ 32 = 2 ^ (32 - s) * 2 ^ s) as E by (rewrite <- Z.pow_add_r by lia; f_equal; lia).
  assert (0 < 2 ^ s /\ 0 < 2 ^ (32 - s)) by (split; apply Z.pow_pos_nonneg; lia).
  rewrite E at 1 2. rewrite Z.mul_mod_distr_r by lia.
  rewrite <- (Z.shiftl_mul_pow2 (w mod _)) at 1 by lia. apply lor_shiftl; [lia|].
  split; [apply Z.div_pos; lia|]. apply Z.div_lt_upper_bound; lia.
Qed.

Definition word (z : Z) : Prop := 0 <= z < 2 ^ 32.
Definition words4 (r : Z * Z * Z * Z) : Prop := let '(a, b, c, d) := r in word a /\ word b /\ word c /\ word d.

Lemma word_u32 z : word (u32 z).
Proof. apply wrap_range. lia. Qed.

Lemma steps_rfc : steps = rfc_step <$> seq 0 64.
Proof. vm_compute. reflexivity. Qed.

Lemma step_eq inw r p :
  words4 r -> 0 < p.2 < 32 ->
  run_step inw r p = (let '(a, b, c, d) := r in let '(f, k, t, s) := p in
    (d, u32 (b + rotl32 (u32 (a + rfc_fn f b c d + nth k inw 0 + t)) s), b, c)) /\ words4 (run_step inw r p).
Proof.
  destruct r as [[[a b] c] d], p as [[[f k] t] s]. intros (Wa & Wb & Wc & Wd) Hs. cbn [snd] in Hs. unfold run_step, MD5STEP.
  rewrite core_eq, rotate_eq by (done || apply word_u32).
  assert (u32 (a + rfc_fn f b c d + u32 (nth k inw 0 + t)) = u32 (a + rfc_fn f b c d + nth k inw 0 + t)) as ->.
  { unfold wrap. rewrite Zplus_mod_idemp_r. f_equal. lia. }
  rewrite (Z.add_comm (rotl32 _ _)). split; [done|]. split_and!; done || apply word_u32.
Qed.

Lemma rounds_eq inw : forall l r, Forall (fun i => 0 < (rfc_step i).2 < 32) l -> words4 r ->
  foldl (run_step inw) r (rfc_step <$> l) = foldl (rfc_run inw) r l.
Proof.
  induction l as [|i l IH]; intros r F W; [done|]. cbn [fmap list_fmap foldl]. apply Forall_cons in F as [Fi F].
  destruct (step_eq inw r (rfc_step i) W Fi) as [E W']. rewrite E in W' |- *. rewrite IH by done.
  f_equal.
Qed.

Definition regs (r : Z * Z * Z * Z) : list Z := let '(a, b, c, d) := r in [a; b; c; d].

Lemma transform_eq r block : words4 r -> MD5Transform (regs r) (le_words block) = regs (rfc_block r block).
Proof.
  intros W. destruct r as [[[a b] c] d]. unfold regs at 1, MD5Transform. rewrite steps_rfc, rounds_eq; [|by repeat constructor|done].
  unfold rfc_block. by destruct (foldl _ _ (seq 0 64)) as [[[? ?] ?] ?].
Qed.

Lemma rfc_block_words r block : words4 (rfc_block r block).
Proof.
  destruct r as [[[a b] c] d]. unfold rfc_block. destruct (foldl _ _ _) as [[[? ?] ?] ?]. split_and!; apply word_u32.
Qed.
End facts.

(** ** Blocks *)

Definition bl (m : list ascii) : list (list ascii) := blocks (length m) m.

Lemma blocks_fuel : forall fuel fuel' m, (length m <= 64 * fuel)%nat -> (length m <= 64 * fuel')%nat -> blocks fuel m = blocks fuel' m.
Proof.
  induction fuel as [|fuel IH]; intros [|fuel'] m L L'; cbn [blocks]; try done; destruct (Nat.leb_spec 64 (length m)); try lia; try done.
  f_equal. apply IH; rewrite length_drop; lia.
Qed.

Lemma bl_small m : (length m < 64)%nat -> bl m = [].
Proof. intros L. unfold bl. rewrite (blocks_fuel _ 1) by lia. cbn [blocks]. by rewrite (proj2 (Nat.leb_gt _ _)) by lia. Qed.

Lemma bl_block x m : length x = 64%nat -> bl (x ++ m) = x :: bl m.
Proof.
  intros L. unfold bl. rewrite (blocks_fuel _ (S (length m))) by (rewrite ?length_app; lia). cbn [blocks].
  rewrite (proj2 (Nat.leb_le _ _)) by (rewrite length_app; lia). rewrite <- L, take_app_length, drop_app_length. done.
Qed.

Lemma bl_app : forall k a m, length a = (64 * k)%nat -> bl (a ++ m) = bl a ++ bl m.
Proof.
  induction k as [|k IH]; intros a m L; [by destruct a|].
  rewrite <- (take_drop 64 a), <- app_assoc. assert (length (take 64 a) = 64%nat) by (rewrite length_take; lia).
  rewrite !(bl_block (take 64 a)), IH by (done || (rewrite length_drop; lia)). done.
Qed.

Definition rfc_init : Z * Z * Z * Z := (0x67452301, 0xefcdab89, 0x98badcfe, 0x10325476).
Definition rfc_state (m : list ascii) : Z * Z * Z * Z := foldl rfc_block rfc_init (bl m).

Lemma foldl_words4 l : forall r, words4 r -> words4 (foldl rfc_block r l).
Proof. induction l as [|x l IH]; intros r W; [done|]. apply IH, rfc_block_words. Qed.

Lemma rfc_state_words m : words4 (rfc_state m).
Proof. apply foldl_words4. by vm_compute. Qed.

Lemma rfc_state_block a x k : length a = (64 * k)%nat -> length x = 64%nat -> rfc_state (a ++ x) = rfc_block (rfc_state a) x.
Proof.
  intros La Lx. unfold rfc_state. rewrite (bl_app k) by done. rewrite foldl_app. rewrite <- (app_nil_r x) at 1.
  by rewrite bl_block.
Qed.

(** ** The context after a message *)

Section stream.
Variable big : bool.

Definition low (n : nat) : Z := 8 * Z.of_nat n mod 2 ^ 32.
Definition high (n : nat) : Z := 8 * Z.of_nat n / 2 ^ 32 mod 2 ^ 32.

(** Whole blocks are in the state, the rest is at the start of [in]. *)
Definition holds (c : MD5Context) (a rest : list ascii) : Prop :=
  (exists k, length a = (64 * k)%nat) /\ (length rest < 64)%nat /\ length (inp c) = 64%nat /\
  buf c = regs (rfc_state a) /\ take (length rest) (inp c) = rest.

Lemma put_length off src m : (off + length src <= length m)%nat -> length (put_bytes off src m) = length m.
Proof. intros L. unfold put_bytes. rewrite !length_app, length_take, length_drop. lia. Qed.

Lemma put_split a b c src : length b = length src -> put_bytes (length a) src (a ++ b ++ c) = a ++ src ++ c.
Proof.
  intros L. unfold put_bytes. rewrite take_app_length, <- L, <- length_app, (app_assoc a b c), drop_app_length. done.
Qed.

(** A block that is complete. *)
Lemma transform_holds c a k : length a = (64 * k)%nat -> buf c = regs (rfc_state a) -> length (inp c) = 64%nat ->
  buf (transform_in big c) = regs (rfc_state (a ++ inp c)) /\ length (inp (transform_in big c)) = 64%nat /\
  bits0 (transform_in big c) = bits0 c /\ bits1 (transform_in big c) = bits1 c.
Proof.
  intros La B L. unfold transform_in. cbn. split_and!; try done; [|by rewrite (reverse_length big 16)].
  rewrite <- (app_nil_r (byteReverse _ _ _)), (words_reverse big 16) by done. cbn [words]. rewrite app_nil_r, B, transform_eq.
  - by rewrite (rfc_state_block a (inp c) k).
  - apply rfc_state_words.
Qed.

Lemma update_blocks_ok : forall fuel data c a k,
  (length data < 64 * fuel)%nat -> length a = (64 * k)%nat -> buf c = regs (rfc_state a) -> length (inp c) = 64%nat ->
  let '(rest, c') := update_blocks big fuel data c in
  exists d k', data = d ++ rest /\ (length rest < 64)%nat /\ length (a ++ d) = (64 * k')%nat /\ buf c' = regs (rfc_state (a ++ d)) /\
    length (inp c') = 64%nat /\ bits0 c' = bits0 c /\ bits1 c' = bits1 c.
Proof.
  induction fuel as [|fuel IH]; intros data c a k F La B L; cbn [update_blocks]; [lia|].
  destruct (Nat.leb_spec 64 (length data)) as [G|G].
  - set (x := take 64 data). assert (length x = 64%nat) as Lx by (unfold x; rewrite length_take; lia).
    assert (put_bytes 0 x (inp c) = x) as Px.
    { unfold put_bytes. rewrite take_0, drop_ge by lia. by rewrite app_nil_r. }
    rewrite Px. destruct (transform_holds (set_in x c) a k La B Lx) as (B' & L' & E0 & E1). cbn [inp set_in] in *.
    specialize (IH (drop 64 data) (transform_in big (set_in x c)) (a ++ x) (S k)).
    destruct (update_blocks _ _ _ _) as [rest c']. destruct IH as (d & k' & D & R & K & S & T & U & V).
    { rewrite length_drop. lia. } { rewrite length_app. lia. } { done. } { done. }
    exists (x ++ d), k'. rewrite app_assoc. split_and!; try done; [|congruence..].
    rewrite <- app_assoc, <- D. unfold x. by rewrite take_drop.
  - exists [], k. rewrite !app_nil_r. split_and!; done || lia.
Qed.

Lemma update_rest_ok data c a k :
  length a = (64 * k)%nat -> buf c = regs (rfc_state a) -> length (inp c) = 64%nat ->
  let '(rest, c') := update_blocks big (S (length data)) data c in
  exists d, data = d ++ rest /\ holds (set_in (put_bytes 0 rest (inp c')) c') (a ++ d) rest /\
    bits0 c' = bits0 c /\ bits1 c' = bits1 c.
Proof.
  intros La B L. pose proof (update_blocks_ok (S (length data)) data c a k) as H.
  destruct (update_blocks _ _ _ _) as [rest c']. destruct H as (d & k' & D & R & K & S & T & U & V); [lia|done..|].
  exists d. split_and!; try done. unfold holds. cbn. split_and!; [by exists k'|done| |done|].
  - rewrite put_length; [done|lia].
  - unfold put_bytes. rewrite take_0. cbn [app]. apply take_app_length.
Qed.

Lemma low_spec n : Z.to_nat (Z.land (Z.shiftr (low n) 3) 63) = (n mod 64)%nat.
Proof.
  change 63 with (Z.ones 6). rewrite Z.land_ones, Z.shiftr_div_pow2 by lia. unfold low.
  apply Nat2Z.inj. rewrite Z2Nat.id, Nat2Z.inj_mod by (apply Z.mod_pos_bound; lia). change (2 ^ 6) with 64.
  change (Z.of_nat 64) with 64. generalize (Z.of_nat n). intros z. div_lia.
Qed.

Lemma bits_spec n len :
  let b0 := u32 (low n + u32 (Z.shiftl (Z.of_nat len) 3)) in
  b0 = low (n + len) /\
  u32 ((if b0 <? low n then u32 (high n + 1) else high n) + Z.shiftr (Z.of_nat len) 29) = high (n + len).
Proof.
  intros b0. unfold b0, low, high, wrap. rewrite Z.shiftl_mul_pow2, Z.shiftr_div_pow2, Nat2Z.inj_add by lia.
  generalize (Nat2Z.is_nonneg n), (Nat2Z.is_nonneg len). generalize (Z.of_nat n), (Z.of_nat len). intros x y Hx Hy.
  split; [div_lia|]. destruct (Z.ltb_spec ((8 * x mod 2 ^ 32 + (y * 2 ^ 3) mod 2 ^ 32) mod 2 ^ 32) (8 * x mod 2 ^ 32)); div_lia.
Qed.

(** The context after the message [m], whatever the cuts. *)
Definition after (c : MD5Context) (m : list ascii) : Prop :=
  exists a rest, m = a ++ rest /\ holds c a rest /\ bits0 c = low (length m) /\ bits1 c = high (length m).

Lemma holds_length c a rest : holds c a rest -> (length (a ++ rest) mod 64)%nat = length rest.
Proof.
  intros ((k & K) & R & _). rewrite length_app, K, Nat.add_comm, Nat.mul_comm, Nat.Div0.mod_add. by apply Nat.mod_small.
Qed.

Lemma in_split c a rest : holds c a rest -> exists tl, inp c = rest ++ tl /\ length tl = (64 - length rest)%nat.
Proof.
  intros (_ & R & L & _ & T). exists (drop (length rest) (inp c)). split; [by rewrite <- T at 1; rewrite take_drop|].
  rewrite length_drop. lia.
Qed.

Lemma put_over r src tl : (length src <= length tl)%nat ->
  put_bytes (length r) src (r ++ tl) = r ++ src ++ drop (length src) tl.
Proof.
  intros L. rewrite <- (take_drop (length src) tl) at 1. apply put_split. rewrite length_take. lia.
Qed.

Lemma update_after c m data : after c m -> after (MD5Update big c data) (m ++ data).
Proof.
  intros (a & rest & -> & H & B0 & B1). pose proof (holds_length _ _ _ H) as M. pose proof (in_split _ _ _ H) as (tl & T & Lt).
  destruct H as ((k & K) & R & L & S & _). unfold MD5Update. rewrite B0, B1.
  destruct (bits_spec (length (a ++ rest)) (length data)) as [C0 C1]. cbv zeta in C0, C1. rewrite C1, C0, low_spec, M.
  rewrite <- length_app. set (c1 := MD5Ctx _ _ _ _).
  assert (forall a' k' data' c', length a' = (64 * k')%nat -> buf c' = regs (rfc_state a') -> length (inp c') = 64%nat ->
    bits0 c' = bits0 c1 -> bits1 c' = bits1 c1 -> a' ++ data' = (a ++ rest) ++ data ->
    after (let '(data, c) := update_blocks big (Datatypes.S (length data')) data' c' in set_in (put_bytes 0 data (inp c)) c)
      ((a ++ rest) ++ data)) as Rest.
  { intros a' k' data' c' La B I E0 E1 E. pose proof (update_rest_ok data' c' a' k' La B I) as U.
    destruct (update_blocks _ _ _ _) as [r c2]. destruct U as (d & -> & H & U0 & U1). exists (a' ++ d), r.
    rewrite <- E. split_and!; [by rewrite app_assoc|done| |]; cbn; rewrite ?U0, ?U1, ?E0, ?E1, E; done. }
  destruct (Nat.eqb_spec (length rest) 0) as [Z0|Z0].
  { apply nil_length_inv in Z0 as ->. apply (Rest a k); try done. by rewrite app_nil_r. }
  destruct (Nat.ltb_spec (length data) (64 - length rest)) as [Sh|Sh].
  { exists a, (rest ++ data). split_and!; [by rewrite app_assoc| |done|done]. unfold holds. cbn. rewrite T, put_over by lia.
    split_and!; [by exists k|rewrite length_app; lia| |done|].
    - rewrite !length_app, length_drop. lia.
    - rewrite app_assoc. apply take_app_length. }
  set (x := take (64 - length rest) data). assert (length x = 64 - length rest)%nat as Lx by (unfold x; rewrite length_take; lia).
  assert (put_bytes (length rest) x (inp c1) = rest ++ x) as P.
  { change (inp c1) with (inp c). rewrite T, put_over, drop_ge, app_nil_r by lia. done. }
  rewrite P. destruct (transform_holds (set_in (rest ++ x) c1) a k K S) as (B' & L' & E0 & E1); [cbn; rewrite length_app; lia|].
  cbn [inp set_in] in B'. apply (Rest (a ++ rest ++ x) (Datatypes.S k)); try done.
  - rewrite !length_app. lia.
  - rewrite <- !app_assoc. unfold x. by rewrite take_drop.
Qed.

Lemma digest_eq r : words4 r -> byteReverse big (concat (store32 big <$> regs r)) 4 = concat (le_bytes <$> regs r).
Proof.
  destruct r as [[[a b] c] d]. intros (Wa & Wb & Wc & Wd). cbn [regs fmap list_fmap concat].
  rewrite !reverse_store by done. done.
Qed.

(** The last block, its first 56 bytes and the count of bits. *)
Lemma last_block a k x y w0 w1 :
  length a = (64 * k)%nat -> length x = 56%nat -> length y = 8%nat -> word w0 -> word w1 ->
  let m := put_bytes 60 (store32 big w1) (put_bytes 56 (store32 big w0) (byteReverse big (x ++ y) 14)) in
  MD5Transform (regs (rfc_state a)) (words big m) = regs (rfc_state (a ++ x ++ le_bytes w0 ++ le_bytes w1)).
Proof.
  intros La Lx Ly W0 W1 m. pose proof (reverse_length big 14 x Lx) as Lr. rewrite Lx in Lr.
  assert (m = byteReverse big x 14 ++ store32 big w0 ++ store32 big w1) as ->.
  { unfold m. rewrite (reverse_app big 14) by done.
    pose proof (put_split (byteReverse big x 14) (take 4 y) (drop 4 y) (store32 big w0)) as P0. rewrite Lr, take_drop in P0.
    rewrite P0 by (by rewrite store32_length, length_take, Ly).
    pose proof (put_split (byteReverse big x 14 ++ store32 big w0) (drop 4 y) [] (store32 big w1)) as P1.
    rewrite length_app, !store32_length, Lr, !app_nil_r, <- !app_assoc in P1. apply P1.
    by rewrite length_drop, Ly. }
  rewrite (words_reverse big 14) by done. rewrite <- (app_nil_r (store32 big w1)), !words_store by done. cbn [words].
  rewrite (rfc_state_block a _ k La) by (by rewrite length_app, Lx). rewrite <- (transform_eq _ _ (rfc_state_words a)). f_equal.
  rewrite (le_words_app 14) by done. cbn [app le_bytes le_words]. by rewrite !le_word_bytes.
Qed.

Lemma final_ok c m : after c m -> MD5Final big c = rfc_md5 m.
Proof.
  intros (a & rest & -> & H & B0 & B1). pose proof (holds_length _ _ _ H) as M. pose proof (in_split _ _ _ H) as (tl & T & Lt).
  destruct H as ((k & K) & R & L & S & _). set (n := length (a ++ rest)) in *.
  assert (word (low n) /\ word (high n)) as [W0 W1] by (split; apply Z.mod_pos_bound; lia).
  unfold MD5Final. rewrite B0, low_spec, M. cbn [bits0 bits1 inp buf set_in]. rewrite T, (put_over rest [chr 128]) by (cbn; lia).
  cbn [length app]. change (rest ++ chr 128 :: drop 1 tl) with (rest ++ [chr 128] ++ drop 1 tl). rewrite (app_assoc rest).
  assert (length (rest ++ [chr 128]) = length rest + 1)%nat as Lp by (by rewrite length_app). rewrite <- Lp.
  assert (rfc_md5 (a ++ rest) = concat (le_bytes <$> regs (rfc_state (rfc_pad (a ++ rest))))) as ->.
  { unfold rfc_md5, rfc_state, bl, rfc_init. destruct (foldl _ _ _) as [[[? ?] ?] ?]. reflexivity. }
  unfold rfc_pad. fold n. change (8 * Z.of_nat n mod 2 ^ 32) with (low n). change (8 * Z.of_nat n / 2 ^ 32 mod 2 ^ 32) with (high n).
  assert (forall j, (j < 64)%nat -> (j + length rest = 55 \/ j + length rest = 119)%nat -> Z.to_nat ((55 - Z.of_nat n) mod 64) = j) as N.
  { intros j J D. assert (n = 64 * (n / 64) + length rest)%nat as E by (rewrite <- M; apply Nat.div_mod; lia).
    revert E. generalize (n / 64)%nat. intros q E. apply (f_equal Z.of_nat) in E. rewrite Nat2Z.inj_add, Nat2Z.inj_mul in E.
    apply Nat2Z.inj. rewrite Z2Nat.id by (apply Z.mod_pos_bound; lia). clear M; div_lia. }
  destruct (Nat.ltb_spec (64 - 1 - length rest) 8) as [Few|Many].
  - rewrite put_over by (rewrite repeat_length, length_drop; lia). rewrite (drop_ge _ (length (repeat NUL _))) by
      (rewrite repeat_length, length_drop; lia). rewrite app_nil_r.
    set (x := (rest ++ [chr 128]) ++ repeat NUL (64 - 1 - length rest)).
    assert (length x = 64%nat) as Lx by (unfold x; rewrite length_app, Lp, repeat_length; lia).
    match goal with |- context [transform_in big ?z] => set (c1 := z) end. destruct (transform_holds c1 a k K S Lx) as (B' & L' & E0 & E1).
    change (inp c1) with x in B'. cbn [bits0 bits1 buf inp set_in]. unfold put_bytes at 3. rewrite take_0, repeat_length. cbn [app Nat.add].
    rewrite B', E0, E1. change (bits0 c1) with (bits0 c). change (bits1 c1) with (bits1 c). rewrite B0, B1.
    rewrite (last_block (a ++ x) (k + 1)), digest_eq; [|apply rfc_state_words|rewrite length_app; lia|by rewrite repeat_length|
      rewrite length_drop; lia|done|done].
    do 3 f_equal. rewrite <- !app_assoc. do 2 f_equal. unfold x. rewrite <- !app_assoc. do 2 f_equal.
    rewrite (app_assoc (repeat _ _)), <- repeat_app. do 2 f_equal. symmetry; apply N; lia.
  - rewrite put_over by (rewrite repeat_length, length_drop; lia).
    set (y := drop _ (drop 1 tl)). cbn [bits0 bits1 buf inp set_in]. rewrite B0, B1, S, app_assoc.
    rewrite (last_block a k), digest_eq; [|apply rfc_state_words|done|rewrite length_app, Lp, repeat_length; lia|
      unfold y; rewrite !length_drop, repeat_length; lia|done|done].
    do 3 f_equal. rewrite <- !app_assoc. do 3 f_equal. do 2 f_equal. f_equal. symmetry; apply N; lia.
Qed.

Lemma init_after garbage : length garbage = 64%nat -> after (MD5Init garbage) [].
Proof.
  intros L. exists [], []. split; [done|]. split; [|done]. unfold holds. cbn. split_and!; try done; [by exists 0%nat|lia].
Qed.

Lemma updates_after l : forall c m, after c m -> after (foldl (MD5Update big) c l) (m ++ concat l).
Proof.
  induction l as [|d l IH]; intros c m A; cbn [foldl concat]; [by rewrite app_nil_r|].
  rewrite app_assoc. apply IH. by apply update_after.
Qed.
End stream.

(** C15: The digest of a message is that of RFC 1321, on a machine of either byte
    order, whatever the context held before and however the message is cut
    into the arguments of the updates. *)
Theorem md5_is_rfc1321 big garbage chunks :
  length garbage = 64%nat ->
  MD5Final big (foldl (MD5Update big) (MD5Init garbage) chunks) = rfc_md5 (concat chunks).
Proof. intros L. apply final_ok. apply (updates_after big chunks _ []). by apply init_after. Qed.

(** A digest has [HASH_LEN] bytes. *)
Lemma md5_digest_length big garbage data : length garbage = 64%nat -> length (md5_digest big garbage data) = HASH_LEN.
Proof.
  intros L. unfold md5_digest. rewrite (final_ok big _ data) by (apply (update_after big _ []); by apply init_after).
  unfold rfc_md5. by destruct (foldl _ _ _) as [[[? ?] ?] ?].
Qed.

Definition chars : string -> list ascii := String.list_ascii_of_string.

(** The digests the appendix of RFC 1321 lists, as [util_bin_to_hex] shows
    them. *)
Definition rfc_suite : list (string * list Z) := [
  ("a"%string, [0x0c; 0xc1; 0x75; 0xb9; 0xc0; 0xf1; 0xb6; 0xa8; 0x31; 0xc3; 0x99; 0xe2; 0x69; 0x77; 0x26; 0x61]);
  ("abc"%string, [0x90; 0x01; 0x50; 0x98; 0x3c; 0xd2; 0x4f; 0xb0; 0xd6; 0x96; 0x3f; 0x7d; 0x28; 0xe1; 0x7f; 0x72]);
  ("message digest"%string, [0xf9; 0x6b; 0x69; 0x7d; 0x7c; 0xb7; 0x93; 0x8d; 0x52; 0x5a; 0x2f; 0x31; 0xaa; 0xf1; 0x61; 0xd0]);
  ("12345678901234567890123456789012345678901234567890123456789012345678901234567890"%string,
   [0x57; 0xed; 0xf4; 0xa2; 0x2b; 0xe3; 0xc9; 0x55; 0xac; 0x49; 0xda; 0x2e; 0x21; 0x07; 0xb6; 0x7a])].

Lemma rfc_suite_ok :
  Forall (fun p => code <$> md5_digest false (repeat NUL 64) (chars p.1) = p.2) rfc_suite.
Proof. repeat constructor; vm_compute; reflexivity. Qed.

Example md5_is_rfc1321_witness :
  length (repeat NUL 64) = 64%nat /\
  MD5Final true (foldl (MD5Update true) (MD5Init (repeat NUL 64)) [chars "message "; chars "digest"]) = rfc_md5 (chars "message digest").
Proof.
  split; [reflexivity|]. exact (md5_is_rfc1321 true (repeat NUL 64) [chars "message "; chars "digest"] eq_refl).
Defined.
