(* ===== verification/Matchfile.v ===== *)
(** Text files read by lines ([get_line] of [util.c]) and the lists of
    addresses kept in such files ([matchfile.c]): what is on a list, when it
    is read again, and which addresses may connect ([_accept_connection] of
    [connection.c]). *)

From S2P Require Import Prelude.
Local Open Scope Z_scope.

Definition MAX_LINE_LEN : nat := 512.

Definition LF : ascii := chr 10.
Definition CR : ascii := chr 13.

(** [fgets] of [n + 1] bytes: the line, with its newline, and the rest. *)
Fixpoint fgets (n : nat) (s : string) : string * string :=
  match n, s with
  | S n', String c r =>
      if Ascii.eqb c LF then (String c EmptyString, r)
      else let '(a, b) := fgets n' r in (String c a, b)
  | _, _ => (EmptyString, s)
  end.

(** A text without its last character, where that is [c]. *)
Fixpoint chop (c : ascii) (s : string) : option string :=
  match s with
  | EmptyString => None
  | String d EmptyString => if Ascii.eqb d c then Some EmptyString else None
  | String d r => String d <$> chop c r
  end.

Definition get_line (siz : nat) (file : string) : option (string * string) :=
  match file with
  | EmptyString => None
  | _ =>
      let '(buf, rest) := fgets (siz - 1) file in
      let buf := cstr buf in
      Some (match chop LF buf with
            | Some buf => default buf (chop CR buf)
            | None => buf
            end, rest)
  end.

(** The loops [while (get_line (file, line, MAX_LINE_LEN))]: each reads at
    least a byte. *)
Fixpoint lines_loop (fuel : nat) (file : string) : list string :=
  match fuel with
  | O => []
  | S fuel' =>
      match get_line MAX_LINE_LEN file with
      | Some (l, rest) => l :: lines_loop fuel' rest
      | None => []
      end
  end.

Definition file_lines (file : string) : list string := lines_loop (String.length file) file.

(** The lines such loops pass over. *)
Definition skipped (l : string) : bool :=
  match l with
  | EmptyString => true
  | String c _ => Ascii.eqb c "#"
  end.

(** A file: when it was changed, and its bytes where it can be opened. *)
Record text_file := TextFile { tf_mtime : Z; tf_content : option string }.

(** ** [matchfile.c] *)

Record matchfile := Matchfile {
  refcount : Z;
  file_recheck : Z;
  file_mtime : Z;
  contents : option (gset string)
}.

(** [__func_recheck], with the state of the file, which is not there where
    [stat] fails. *)
Definition func_recheck (now : Z) (disk : option text_file) (f : matchfile) : matchfile :=
  if now <? file_recheck f then f
  else
    let f := Matchfile (refcount f) (now + 10) (file_mtime f) (contents f) in
    match disk with
    | None => f
    | Some t =>
        if tf_mtime t =? file_mtime f then f
        else
          let f := Matchfile (refcount f) (file_recheck f) (tf_mtime t) (contents f) in
          match tf_content t with
          | None => f
          | Some text =>
              Matchfile (refcount f) (file_recheck f) (file_mtime f)
                (Some (list_to_set (List.filter (fun l => negb (skipped l)) (file_lines text))))
          end
    end.

Definition matchfile_new (now : Z) (filename : option string) (disk : option text_file) : option matchfile :=
  match filename with
  | None => None
  | Some _ => Some (func_recheck now disk (Matchfile 1 0 0 None))
  end.

Definition matchfile_addref (f : option matchfile) : Z * option matchfile :=
  match f with
  | None => (-1, None)
  | Some f => (0, Some (Matchfile (refcount f + 1) (file_recheck f) (file_mtime f) (contents f)))
  end.

(** [None] once it is freed. *)
Definition matchfile_release (f : option matchfile) : Z * option matchfile :=
  match f with
  | None => (-1, None)
  | Some f =>
      let f := Matchfile (refcount f - 1) (file_recheck f) (file_mtime f) (contents f) in
      (0, if refcount f =? 0 then None else Some f)
  end.

Definition matchfile_match (now : Z) (disk : option text_file) (f : option matchfile) (key : string) :
    Z * option matchfile :=
  match f with
  | None => (-1, None)
  | Some f =>
      let f := func_recheck now disk f in
      (match contents f with
       | None => 0
       | Some m => if bool_decide (key ∈ m) then 1 else 0
       end, Some f)
  end.

(** [matchfile_match_allow_deny] with the lists after it. *)
Definition matchfile_match_allow_deny (now : Z) (da dd : option text_file) (allow deny : option matchfile)
    (key : option string) : bool * option matchfile * option matchfile :=
  match allow, deny with
  | None, None => (true, None, None)
  | _, _ =>
      match key with
      | None => (false, allow, deny)
      | Some key =>
          let '(r, deny) := matchfile_match now dd deny key in
          if 0 <? r then (false, allow, deny)
          else
            let '(r, allow) := matchfile_match now da allow key in
            if 0 <? r then (true, allow, deny)
            else match allow with
                 | Some _ => (false, allow, deny)
                 | None => (true, allow, deny)
                 end
      end
  end.

(** [_accept_connection]: an IPv4 address in the form of IPv6 is looked for as
    IPv4. *)
Definition plain_address (ip : string) : string := if starts_with "::ffff:" ip then string_drop 7 ip else ip.

Definition accept_connection (now : Z) (da dd : option text_file) (allowed_ip banned_ip : option matchfile) (ip : string) :
    bool * option matchfile * option matchfile :=
  matchfile_match_allow_deny now da dd allowed_ip banned_ip (Some (plain_address ip)).

(** ** Theorems *)

Lemma fgets_split n s : let '(a, b) := fgets n s in a +:+ b = s.
Proof.
  revert s. induction n as [|n IH]; intros [|c r]; cbn [fgets]; try done. destruct (Ascii.eqb c LF); [done|].
  specialize (IH r). destruct (fgets n r) as [a b]. by rewrite string_app_cons, IH.
Qed.

Lemma fgets_progress n c r : let '(a, b) := fgets (S n) (String c r) in (String.length b <= String.length r)%nat.
Proof.
  cbn [fgets]. destruct (Ascii.eqb c LF); [done|]. pose proof (fgets_split n r) as E. destruct (fgets n r) as [a b].
  rewrite <- E, string_length_app. lia.
Qed.

Lemma lines_fuel : forall fuel fuel' s, (String.length s <= fuel)%nat -> (String.length s <= fuel')%nat -> lines_loop fuel s = lines_loop fuel' s.
Proof.
  assert (forall n s, (String.length s <= n)%nat -> lines_loop n s = lines_loop (String.length s) s) as H.
  { induction n as [n IH] using lt_wf_ind. intros s L. destruct s as [|c r]; [by destruct n|].
    destruct n as [|n]; [cbn in L; lia|]. cbn [lines_loop String.length get_line].
    pose proof (fgets_progress 510 c r) as P. change (MAX_LINE_LEN - 1)%nat with 511%nat. destruct (fgets 511 (String c r)) as [a b].
    f_equal. cbn in L. rewrite (IH n), (IH (String.length r)); done || lia. }
  intros. rewrite H, (H fuel'); done.
Qed.

(** The text of a line as the file has it. *)
Definition plain_line (l : string) : bool :=
  string_forall (fun c => negb (Ascii.eqb c LF) && negb (Ascii.eqb c CR) && negb (Ascii.eqb c NUL)) l &&
  (String.length l <? 511)%nat.

Lemma fgets_line n l r : (String.length l < n)%nat -> string_forall (fun c => negb (Ascii.eqb c LF)) l = true ->
  fgets n (l +:+ String LF r) = (l +:+ String LF EmptyString, r).
Proof.
  revert l. induction n as [|n IH]; intros [|c l] L F; cbn [String.length] in L; try lia.
  - reflexivity.
  - cbn [string_forall] in F. apply andb_true_iff in F as [F1 F2]. apply negb_true_iff in F1. rewrite !string_app_cons.
    cbn [fgets]. rewrite F1, IH by (done || lia). done.
Qed.

Lemma chop_snoc c l : chop c (l +:+ String c EmptyString) = Some l.
Proof.
  induction l as [|d l IH]; [change (EmptyString +:+ String c EmptyString) with (String c EmptyString); cbn [chop]; by rewrite Ascii.eqb_refl|]. rewrite string_app_cons. cbn [chop].
  destruct (l +:+ String c EmptyString) eqn:E; [by destruct l|]. by rewrite IH.
Qed.

Lemma chop_none c l : string_forall (fun d => negb (Ascii.eqb d c)) l = true -> chop c l = None.
Proof.
  induction l as [|d l IH]; intros F; [done|]. cbn [string_forall] in F. apply andb_true_iff in F as [F1 F2].
  apply negb_true_iff in F1. cbn [chop]. destruct l; [by rewrite F1|by rewrite IH].
Qed.

Lemma forall_weaken (P Q : ascii -> bool) l : (forall c, P c = true -> Q c = true) -> string_forall P l = true -> string_forall Q l = true.
Proof.
  intros H. induction l as [|c l IH]; [done|]. cbn. intros [F1 F2]%andb_true_iff. by rewrite H, IH.
Qed.

Lemma plain_line_spec l : plain_line l = true ->
  string_forall (fun c => negb (Ascii.eqb c LF)) l = true /\ string_forall (fun c => negb (Ascii.eqb c CR)) l = true /\
  nul_free l = true /\ (String.length l < 511)%nat.
Proof.
  unfold plain_line, nul_free. intros [F L]%andb_true_iff. apply Nat.ltb_lt in L.
  split_and!; try done; eapply forall_weaken; try exact F; intros c [[? ?]%andb_true_iff ?]%andb_true_iff; done.
Qed.

(** A line that ends where the file has a newline. *)
Lemma get_line_plain l r : plain_line l = true -> get_line MAX_LINE_LEN (l +:+ String LF r) = Some (l, r).
Proof.
  intros (F & G & N & L)%plain_line_spec. unfold get_line. destruct (l +:+ String LF r) eqn:E; [by destruct l|]. rewrite <- E.
  change (MAX_LINE_LEN - 1)%nat with 511%nat. rewrite fgets_line by done.
  rewrite cstr_nul_free by (unfold nul_free in *; by rewrite string_forall_app, N). rewrite chop_snoc, (chop_none CR) by done. done.
Qed.

Lemma file_lines_cons l r : plain_line l = true -> file_lines (l +:+ String LF r) = l :: file_lines r.
Proof.
  intros P. unfold file_lines. destruct (String.length (l +:+ String LF r)) as [|n] eqn:E.
  { rewrite string_length_app in E. cbn in E. lia. }
  cbn [lines_loop]. rewrite get_line_plain by done. f_equal. apply lines_fuel; [|done].
  rewrite string_length_app in E. cbn in E. lia.
Qed.

(** The text of lines. *)
Definition lines_text (ls : list string) : string := foldr (fun l t => l +:+ String LF t) EmptyString ls.

Lemma file_lines_text ls r : forallb plain_line ls = true -> file_lines (lines_text ls +:+ r) = ls ++ file_lines r.
Proof.
  induction ls as [|l ls IH]; intros P; [done|]. cbn [forallb] in P. apply andb_true_iff in P as [P1 P2].
  cbn [lines_text foldr]. change (foldr _ EmptyString ls) with (lines_text ls).
  rewrite string_app_assoc, string_app_cons, file_lines_cons by done. cbn [app]. by rewrite IH.
Qed.

(** What an address list holds for the server. *)
Definition listed (f : option matchfile) (key : string) : Prop := exists g m, f = Some g /\ contents g = Some m /\ key ∈ m.

Lemma match_spec now disk f key : 0 < (matchfile_match now disk f key).1 <-> listed (matchfile_match now disk f key).2 key.
Proof.
  unfold matchfile_match, listed. destruct f as [f|]; cbn; [|split; [lia|by intros (? & ? & [=] & _)]].
  destruct (contents (func_recheck now disk f)) as [m|] eqn:E; cbn.
  - destruct (decide (key ∈ m)) as [I|I].
    + rewrite bool_decide_eq_true_2 by done. split; [|lia]. intros _. eauto.
    + rewrite bool_decide_eq_false_2 by done. split; [lia|]. intros (? & ? & [= <-] & ? & ?). congruence.
  - split; [lia|]. intros (? & ? & [= <-] & ? & ?). congruence.
Qed.

(** Whether an address is let in, the lists being those after they have been
    looked at again. *)
Lemma allow_deny_spec now da dd allow deny key :
  let '(ok, allow', deny') := matchfile_match_allow_deny now da dd allow deny key in
  (is_Some allow' <-> is_Some allow) /\ (is_Some deny' <-> is_Some deny) /\
  (ok = true <->
     (allow = None /\ deny = None) \/
     exists k, key = Some k /\ ~ listed deny' k /\ (allow = None \/ listed allow' k)).
Proof.
  unfold matchfile_match_allow_deny. destruct (decide (allow = None /\ deny = None)) as [[-> ->]|N].
  { split_and!; try done. split; [tauto|done]. }
  assert (forall (a b : bool * option matchfile * option matchfile),
    (match allow, deny with None, None => a | _, _ => b end) = b) as Both by (intros; destruct allow, deny; tauto).
  rewrite Both. clear Both. destruct key as [k|]; [|split_and!; try done; split; [done|intros [?|(? & ? & _)]; done]].
  pose proof (match_spec now dd deny k) as D. assert (is_Some (matchfile_match now dd deny k).2 <-> is_Some deny) as SD
    by (unfold matchfile_match; destruct deny; cbn; split; intros [? ?]; eauto; done).
  destruct (matchfile_match now dd deny k) as [r deny']. cbn [fst snd] in *. destruct (Z.ltb_spec 0 r) as [R|R].
  { split_and!; try done. split; [done|]. intros [?|(k' & [= <-] & ND & _)]; [tauto|]. destruct ND. tauto. }
  assert (~ listed deny' k) as ND by (rewrite <- D; lia).
  pose proof (match_spec now da allow k) as A. assert (is_Some (matchfile_match now da allow k).2 <-> is_Some allow) as SA
    by (unfold matchfile_match; destruct allow; cbn; split; intros [? ?]; eauto; done).
  destruct (matchfile_match now da allow k) as [r' allow']. cbn [fst snd] in *. destruct (Z.ltb_spec 0 r') as [R'|R'].
  { split_and!; try done. split; [|done]. intros _. right. exists k. split_and!; try done. right. tauto. }
  assert (~ listed allow' k) as NA by (rewrite <- A; lia).
  destruct allow' as [a'|]; (split_and!; [done|done|]); split; try done.
  - intros [?|(k' & [= <-] & _ & [->|?])]; [tauto| |done]. destruct SA as [[? [=]] _]. by eexists.
  - intros _. right. exists k. split_and!; try done. left. destruct allow; [|done]. destruct SA as [_ [? [=]]]. by eexists.
Qed.

(** A connection from an address on the list of those denied is never let in,
    and where there is a list of those allowed only the addresses on it are,
    whatever is on the files; an address of IPv4 is the same in the form of
    IPv6.  The lists are those after they have been looked at again. *)
Theorem accept_connection_spec now da dd allow deny ip :
  let '(ok, allow', deny') := accept_connection now da dd allow deny ip in
  (is_Some allow' <-> is_Some allow) /\ (is_Some deny' <-> is_Some deny) /\
  (ok = true <-> ~ listed deny' (plain_address ip) /\ (allow = None \/ listed allow' (plain_address ip))).
Proof.
  unfold accept_connection. pose proof (allow_deny_spec now da dd allow deny (Some (plain_address ip))) as H.
  destruct (matchfile_match_allow_deny _ _ _ _ _ _) as [[ok allow'] deny'] eqn:E. destruct H as (HA & HD & H).
  split_and!; [done..|]. rewrite H. split.
  - intros [[-> ->]|(k & [= <-] & K)]; [|done]. split; [|by left]. intros (g & ? & -> & _). destruct HD as [[? [=]] _]. by eexists.
  - intros K. right. by exists (plain_address ip).
Qed.
