(* ===== verification/Htpasswd.v ===== *)
(** The user files of [auth_htpasswd.c]: how one is read, who may log in with
    it, and how users are added to it and removed from it. *)

From S2P Require Import Prelude Uri Md5 Md5Facts Matchfile.
Local Open Scope Z_scope.

(** The hash as text.  The bytes the context holds before and the byte order
    of the machine do not matter ([Md5Facts.v]). *)
Definition get_hash (data : string) : string :=
  util_bin_to_hex (String.string_of_list_ascii
    (md5_digest false (repeat NUL 64) (String.list_ascii_of_string data))).

Inductive auth_result :=
| AUTH_UNDEFINED | AUTH_OK | AUTH_FAILED | AUTH_RELEASED | AUTH_FORBIDDEN | AUTH_NOMATCH
| AUTH_USERADDED | AUTH_USEREXISTS | AUTH_USERDELETED.

#[export] Instance auth_result_eq_dec : EqDecision auth_result.
Proof. solve_decision. Defined.

(** The texts before and after the last [c]. *)
Fixpoint split_last (c : ascii) (s : string) : option (string * string) :=
  match s with
  | EmptyString => None
  | String d r =>
      match split_last c r with
      | Some (a, b) => Some (String d a, b)
      | None => if Ascii.eqb d c then Some (EmptyString, r) else None
      end
  end.

(** [htpasswd_user]: a name and a password's hash. *)
Abbreviation htpasswd_user := (string * string)%type.

Record htpasswd_auth_state := Htpasswd {
  hp_filename : option string;
  hp_users : option (list htpasswd_user);   (** in the order they were put in the tree *)
  hp_mtime : Z
}.

(** The disk, as far as the file and its temporary copy go: the file, where
    it is there, whether it can be written, whether there is a copy and one
    can be made, and whether [remove] and [rename] succeed. *)
Record disk := Disk {
  d_file : option text_file;
  d_writable : bool;
  d_tmp : bool;
  d_tmp_writable : bool;
  d_remove : bool;
  d_rename : bool
}.

Definition set_file (f : option text_file) (tmp : bool) (d : disk) : disk :=
  Disk f (d_writable d) tmp (d_tmp_writable d) (d_remove d) (d_rename d).

(** A line as a user. *)
Definition read_user (line : string) : option htpasswd_user :=
  if skipped line then None else split_last ":" line.

Definition read_users (text : string) : list htpasswd_user := omap read_user (file_lines text).

Definition htpasswd_recheckfile (d : disk) (st : htpasswd_auth_state) : htpasswd_auth_state :=
  match hp_filename st with
  | None => st
  | Some _ =>
      match d_file d with
      | None => Htpasswd (hp_filename st) (Some (default [] (hp_users st))) (hp_mtime st)
      | Some f =>
          if tf_mtime f =? hp_mtime st then st
          else
            match tf_content f with
            | None => st
            | Some text => Htpasswd (hp_filename st) (Some (read_users text)) (tf_mtime f)
            end
      end
  end.

Section avl.
(** [avl_get_by_key] on a tree that may hold a name twice. *)
Variable avl_get_by_key : list htpasswd_user -> string -> option string.

(** [htpasswd_auth]; [None] where it reads through a null pointer, which is
    what it does with a tree that was never made. *)
Definition htpasswd_auth (d : disk) (username password : option string) (st : htpasswd_auth_state) :
    option (auth_result * htpasswd_auth_state) :=
  match username, password with
  | Some username, Some password =>
      match hp_filename st with
      | None => Some (AUTH_NOMATCH, st)
      | Some _ =>
          let st := htpasswd_recheckfile d st in
          users ← hp_users st;
          match avl_get_by_key users username with
          | Some pass => Some (if streq pass (get_hash password) then AUTH_OK else AUTH_FAILED, st)
          | None => Some (AUTH_NOMATCH, st)
          end
      end
  | _, _ => Some (AUTH_NOMATCH, st)
  end.

Definition htpasswd_new (d : disk) (filename : option string) : htpasswd_auth_state :=
  htpasswd_recheckfile d (Htpasswd filename None 0).

(** [htpasswd_adduser]. *)
Definition htpasswd_adduser (now : Z) (username password : string) (d : disk) (st : htpasswd_auth_state) :
    option (auth_result * disk * htpasswd_auth_state) :=
  let st := htpasswd_recheckfile d st in
  users ← hp_users st;
  match avl_get_by_key users username with
  | Some _ => Some (AUTH_USEREXISTS, d, st)
  | None =>
      if d_writable d then
        let old := match d_file d with Some f => default EmptyString (tf_content f) | None => EmptyString end in
        let line := (username +:+ ":" +:+ get_hash password +:+ String LF EmptyString)%string in
        Some (AUTH_USERADDED, set_file (Some (TextFile now (Some (old +:+ line)))) (d_tmp d) d, st)
      else Some (AUTH_FAILED, d, st)
  end.

(** The lines that are kept when a user is removed. *)
Definition keeps (username line : string) : bool :=
  negb (skipped line) &&
  match strchr ":" line with
  | Some (name, _) => negb (streq username name)
  | None => false
  end.

Definition kept_text (username text : string) : string := lines_text (List.filter (keeps username) (file_lines text)).

(** [htpasswd_deleteuser]. *)
Definition htpasswd_deleteuser (now : Z) (username : string) (d : disk) (st : htpasswd_auth_state) :
    auth_result * disk * htpasswd_auth_state :=
  match d_file d with
  | Some (TextFile mtime (Some text)) =>
      if d_tmp d then (AUTH_FAILED, d, st)
      else if d_tmp_writable d then
        let d :=
          if d_remove d then
            if d_rename d then set_file (Some (TextFile now (Some (kept_text username text)))) false d
            else set_file None true d
          else set_file (d_file d) true d in
        (AUTH_USERDELETED, d, htpasswd_recheckfile d st)
      else (AUTH_FAILED, d, st)
  | _ => (AUTH_FAILED, d, st)
  end.

(** [htpasswd_userlist]: the names, in the tree's order. *)
Definition htpasswd_userlist (avl_names : list htpasswd_user -> list string) (d : disk) (st : htpasswd_auth_state) :
    option (list string * htpasswd_auth_state) :=
  let st := htpasswd_recheckfile d st in
  users ← hp_users st;
  Some (avl_names users, st).

(** ** Theorems *)

(** What is documented of the tree: it finds an entry with the name, where
    there is one. *)
Definition get_by_key_ok : Prop := forall users name,
  match avl_get_by_key users name with
  | Some pass => (name, pass) ∈ users
  | None => forall pass, (name, pass) ∉ users
  end.

Lemma split_last_app a b : string_forall (fun c => negb (Ascii.eqb c ":")) b = true ->
  split_last ":" (a +:+ ":" +:+ b)%string = Some (a, b).
Proof.
  intros F. assert (split_last ":" b = None) as N.
  { induction b as [|c b IH]; [done|]. cbn [string_forall] in F. apply andb_true_iff in F as [F1 F2]. apply negb_true_iff in F1.
    cbn [split_last]. by rewrite IH, F1. }
  induction a as [|c a IH].
  - change (EmptyString +:+ ":" +:+ b)%string with (String ":" b). cbn [split_last]. by rewrite N.
  - rewrite string_app_cons. cbn [split_last]. by rewrite IH.
Qed.

Lemma bin_to_hex_plain s : string_forall (fun c => negb (Ascii.eqb c ":") && negb (Ascii.eqb c LF) && negb (Ascii.eqb c CR) &&
  negb (Ascii.eqb c NUL)) (util_bin_to_hex s) = true /\ String.length (util_bin_to_hex s) = (2 * String.length s)%nat.
Proof.
  induction s as [|c s [IH1 IH2]]; [done|]. cbn [util_bin_to_hex string_forall String.length]. rewrite IH1, IH2. split; [|lia].
  destruct c as [[] [] [] [] [] [] [] []]; vm_compute; reflexivity.
Qed.

Lemma string_of_chars_length l : String.length (String.string_of_list_ascii l) = length l.
Proof. induction l as [|c l IH]; [done|]. cbn. by rewrite IH. Qed.

Lemma get_hash_plain p : string_forall (fun c => negb (Ascii.eqb c ":") && negb (Ascii.eqb c LF) && negb (Ascii.eqb c CR) &&
  negb (Ascii.eqb c NUL)) (get_hash p) = true /\ String.length (get_hash p) = 32%nat.
Proof.
  unfold get_hash. match goal with |- context [util_bin_to_hex ?x] => destruct (bin_to_hex_plain x) as [H1 H2]; set (s := x) in * end.
  split; [done|]. rewrite H2. unfold s. by rewrite string_of_chars_length, md5_digest_length.
Qed.

Lemma split_last_inv s a b : split_last ":" s = Some (a, b) ->
  s = (a +:+ ":" +:+ b)%string /\ string_forall (fun c => negb (Ascii.eqb c ":")) b = true.
Proof.
  assert (forall s, split_last ":" s = None -> string_forall (fun c => negb (Ascii.eqb c ":")) s = true) as N.
  { induction s0 as [|c r IH]; [done|]. cbn [split_last string_forall]. destruct (split_last ":" r) as [[? ?]|]; [done|].
    rewrite IH by done. by destruct (Ascii.eqb c ":"). }
  revert a. induction s as [|c r IH]; intros a E; [done|]. cbn [split_last] in E. destruct (split_last ":" r) as [[a' b']|] eqn:S.
  - injection E as <- <-. destruct (IH a' eq_refl) as [-> F]. by rewrite string_app_cons.
  - destruct (Ascii.eqb_spec c ":") as [->|]; [|done]. injection E as <- <-. split; [done|]. by apply N.
Qed.

(** The part of a name before its first colon. *)
Definition first_part (name : string) : string :=
  match strchr ":" name with Some (a, _) => a | None => name end.

Lemma strchr_app_last a b : strchr ":" (a +:+ String ":" b) = Some (first_part a, default b ((fun p => p.2 +:+ String ":" b) <$> strchr ":" a)).
Proof.
  unfold first_part. induction a as [|c a IH].
  - reflexivity.
  - rewrite string_app_cons. cbn [strchr]. destruct (Ascii.eqb c ":"); [done|]. rewrite IH. by destruct (strchr ":" a) as [[? ?]|].
Qed.

(** A line is kept where the user it is read as has another name before its
    first colon. *)
Lemma keeps_user username l :
  match read_user l with
  | Some u => keeps username l = negb (streq username (first_part u.1))
  | None => keeps username l = false \/ read_user l = None
  end.
Proof.
  unfold read_user, keeps. destruct (skipped l); [tauto|]. destruct (split_last ":" l) as [[a b]|] eqn:S; [|tauto].
  destruct (split_last_inv _ _ _ S) as [-> _]. change (":" +:+ b)%string with (String ":" b). by rewrite strchr_app_last.
Qed.

Lemma users_kept username ls :
  omap read_user (List.filter (keeps username) ls) = List.filter (fun u => negb (streq username (first_part u.1))) (omap read_user ls).
Proof.
  induction ls as [|l ls IH]; [done|]. cbn [List.filter omap list_omap]. pose proof (keeps_user username l) as K.
  destruct (read_user l) as [u|] eqn:R; cbn [List.filter].
  - rewrite K. destruct (negb (streq _ _)); cbn [omap list_omap]; [by rewrite R, IH|done].
  - destruct (keeps username l); cbn [omap list_omap]; [by rewrite R|done].
Qed.

Lemma filter_plain (P : string -> bool) ls : forallb plain_line ls = true -> forallb plain_line (List.filter P ls) = true.
Proof.
  intros F. apply forallb_forall. intros l [I _]%filter_In. rewrite forallb_forall in F. by apply F.
Qed.

Lemma read_users_text ls : forallb plain_line ls = true -> read_users (lines_text ls) = omap read_user ls.
Proof.
  intros P. unfold read_users. rewrite <- (string_app_nil_r (lines_text ls)), file_lines_text by done. cbn [file_lines lines_loop String.length].
  by rewrite app_nil_r.
Qed.

Lemma lines_text_snoc ls l : lines_text (ls ++ [l]) = lines_text ls +:+ l +:+ String LF EmptyString.
Proof.
  induction ls as [|x ls IH]; [done|]. cbn [app lines_text foldr]. change (foldr _ EmptyString) with lines_text.
  rewrite IH, string_app_assoc, string_app_cons. done.
Qed.

(** C16: A user that was added logs in with the password given, and with no other
    that has another hash, as soon as the file is read again; nobody else's
    entry changes.  The name must make a line that can be read back, the file
    must end with its last line's newline, and its time must change. *)
Theorem adduser_then_auth d st m ls name password other now :
  get_by_key_ok -> is_Some (hp_filename st) -> d_file d = Some (TextFile m (Some (lines_text ls))) -> d_writable d = true ->
  forallb plain_line ls = true -> plain_line (name +:+ ":" +:+ get_hash password)%string = true -> skipped (name +:+ ":")%string = false ->
  hp_users (htpasswd_recheckfile d st) = Some (omap read_user ls) -> (forall p, (name, p) ∉ omap read_user ls) ->
  now <> hp_mtime (htpasswd_recheckfile d st) ->
  exists d' st' st'', htpasswd_adduser now name password d st = Some (AUTH_USERADDED, d', st') /\
    htpasswd_auth d' (Some name) (Some other) st' =
      Some (if streq (get_hash password) (get_hash other) then AUTH_OK else AUTH_FAILED, st'') /\
    hp_users st'' = Some (omap read_user ls ++ [(name, get_hash password)]).
Proof.
  intros G [f Hf] Hd W P Pn Sk U N M. set (st1 := htpasswd_recheckfile d st) in *.
  assert (hp_filename st1 = Some f) as F1.
  { unfold st1, htpasswd_recheckfile. rewrite Hf, Hd. cbn. by destruct (_ =? _). }
  unfold htpasswd_adduser. fold st1. rewrite U. run_bind. pose proof (G (omap read_user ls) name) as K.
  destruct (avl_get_by_key (omap read_user ls) name) as [p|]; [by destruct (N p)|]. rewrite W, Hd. cbn [tf_content default id].
  set (line := (name +:+ ":" +:+ get_hash password)%string) in *.
  assert (lines_text ls +:+ (name +:+ ":" +:+ get_hash password +:+ String LF EmptyString)%string = lines_text (ls ++ [line])) as ->.
  { rewrite lines_text_snoc. unfold line. by rewrite !string_app_assoc. }
  eexists _, st1, _. split; [reflexivity|]. unfold htpasswd_auth. rewrite F1.
  match goal with |- context [htpasswd_recheckfile ?d2 st1] =>
    assert (htpasswd_recheckfile d2 st1 = Htpasswd (Some f) (Some (read_users (lines_text (ls ++ [line])))) now) as -> end.
  { unfold htpasswd_recheckfile. rewrite F1. cbn [d_file set_file tf_mtime tf_content]. by rewrite (proj2 (Z.eqb_neq _ _) M). }
  cbn [hp_users]. run_bind.
  rewrite read_users_text by (by rewrite forallb_app, P; cbn; rewrite Pn). rewrite omap_app. cbn [omap list_omap].
  assert (read_user line = Some (name, get_hash password)) as ->.
  { unfold read_user. destruct (get_hash_plain password) as [Fh _].
    assert (skipped line = false) as -> by (unfold line, skipped in *; by destruct name). apply split_last_app.
    eapply forall_weaken; [|exact Fh]. intros c [[[? ?]%andb_true_iff ?]%andb_true_iff ?]%andb_true_iff. done. }
  run_bind. specialize (G (omap read_user ls ++ [(name, get_hash password)]) name).
  destruct (avl_get_by_key _ name) as [p|].
  - apply elem_of_app in G as [G|G]; [by destruct (N p)|]. apply list_elem_of_singleton in G as [= ->]. done.
  - destruct (G (get_hash password)). apply elem_of_app. right. by apply list_elem_of_singleton.
Qed.

(** Removing a user keeps, in their order, exactly the users whose names are
    not the one given up to their first colon.  So of names without colons it
    removes the one given; a name with a colon is never removed, and goes
    with the name that comes before its colon. *)
Theorem deleteuser_users d st m ls name now :
  is_Some (hp_filename st) -> d_file d = Some (TextFile m (Some (lines_text ls))) -> d_tmp d = false -> d_tmp_writable d = true ->
  d_remove d = true -> d_rename d = true -> forallb plain_line ls = true -> now <> hp_mtime st ->
  exists d' st', htpasswd_deleteuser now name d st = (AUTH_USERDELETED, d', st') /\ d_tmp d' = false /\
    hp_users st' = Some (List.filter (fun u => negb (streq name (first_part u.1))) (omap read_user ls)).
Proof.
  intros [f Hf] Hd T TW Rm Rn P M. unfold htpasswd_deleteuser. rewrite Hd, T, TW, Rm, Rn. eexists _, _. split; [reflexivity|].
  split; [done|]. unfold htpasswd_recheckfile. rewrite Hf. cbn [d_file set_file tf_mtime tf_content].
  rewrite (proj2 (Z.eqb_neq _ _) M). cbn [hp_users]. do 2 f_equal. unfold kept_text.
  assert (file_lines (lines_text ls) = ls) as ->.
  { rewrite <- (string_app_nil_r (lines_text ls)), file_lines_text by done. cbn. by rewrite app_nil_r. }
  rewrite read_users_text by (by apply filter_plain). by rewrite users_kept.
Qed.
End avl.

(** ** Witnesses *)

(** The first entry with a name. *)
Fixpoint first_entry (users : list htpasswd_user) (name : string) : option string :=
  match users with
  | [] => None
  | (n, p) :: r => if streq n name then Some p else first_entry r name
  end.

Lemma first_entry_ok : get_by_key_ok first_entry.
Proof.
  intros users name. induction users as [|[n p] r IH]; cbn [first_entry]; [by intros ? ?%elem_of_nil|].
  destruct (streq n name) eqn:E.
  - apply streq_eq in E as ->. apply elem_of_cons. by left.
  - destruct (first_entry r name).
    + apply elem_of_cons. by right.
    + intros q [[= -> ->]|I]%elem_of_cons; [by rewrite streq_refl in E|by apply (IH q)].
Qed.

Definition demo_lines : list string := ["# users"; "alice:0123"; "carol:d:4567"]%string.
Definition demo_disk : disk := Disk (Some (TextFile 1 (Some (lines_text demo_lines)))) true false true true true.
Definition demo_htpasswd : htpasswd_auth_state := htpasswd_new demo_disk (Some "passwd"%string).

Example adduser_then_auth_witness :
  hp_users demo_htpasswd = Some [("alice", "0123"); ("carol:d", "4567")]%string /\
  exists d' st' st'', htpasswd_adduser first_entry 2 "bob" "secret" demo_disk demo_htpasswd = Some (AUTH_USERADDED, d', st') /\
    htpasswd_auth first_entry d' (Some "bob"%string) (Some "secret"%string) st' = Some (AUTH_OK, st'') /\
    hp_users st'' = Some [("alice", "0123"); ("carol:d", "4567"); ("bob", get_hash "secret")]%string.
Proof.
  split; [by vm_compute|].
  destruct (adduser_then_auth first_entry demo_disk demo_htpasswd 1 demo_lines "bob" "secret" "secret" 2) as (d' & st' & st'' & H1 & H2 & H3).
  - exact first_entry_ok.
  - by eexists.
  - reflexivity.
  - reflexivity.
  - by vm_compute.
  - by vm_compute.
  - reflexivity.
  - by vm_compute.
  - intros p. change (omap read_user demo_lines) with [("alice", "0123"); ("carol:d", "4567")]%string.
    rewrite !elem_of_cons, elem_of_nil. intros [[= ]|[[= ]|[]]].
  - by vm_compute.
  - rewrite streq_refl in H2. exists d', st', st''. split; [exact H1|]. split; [exact H2|exact H3].
Defined.

Example deleteuser_users_witness :
  hp_mtime demo_htpasswd = 1 /\
  (exists d' st', htpasswd_deleteuser 2 "carol" demo_disk demo_htpasswd = (AUTH_USERDELETED, d', st') /\ d_tmp d' = false /\
    hp_users st' = Some [("alice", "0123")]%string) /\
  exists d' st', htpasswd_deleteuser 2 "carol:d" demo_disk demo_htpasswd = (AUTH_USERDELETED, d', st') /\ d_tmp d' = false /\
    hp_users st' = Some [("alice", "0123"); ("carol:d", "4567")]%string.
Proof.
  assert (2 <> hp_mtime demo_htpasswd) as M by (by vm_compute). assert (is_Some (hp_filename demo_htpasswd)) as F by (by eexists).
  split; [by vm_compute|]. split.
  - exact (deleteuser_users demo_disk demo_htpasswd 1 demo_lines "carol" 2 F eq_refl eq_refl eq_refl eq_refl eq_refl eq_refl M).
  - exact (deleteuser_users demo_disk demo_htpasswd 1 demo_lines "carol:d" 2 F eq_refl eq_refl eq_refl eq_refl eq_refl eq_refl M).
Defined.
