(* ===== verification/AuthUrl.v ===== *)
(** The authenticator that asks another server ([auth_url.c]): its settings,
    the form it posts, and what it makes of the answer.  libcurl is a
    parameter. *)

From S2P Require Import Prelude Uri Convert Htpasswd.
Local Open Scope Z_scope.

Record auth_url := AuthUrl {
  u_pass_headers : option string;
  u_prefix_headers : option string;
  u_addurl : option string;
  u_removeurl : option string;
  u_addaction : string;      (** escaped *)
  u_removeaction : string;   (** escaped *)
  u_username : option string;
  u_password : option string;
  u_auth_header : string;
  u_timelimit_header : string
}.

(** An option of [auth_get_url_auth]. *)
Definition url_option (u : auth_url) (o : string * string) : auth_url :=
  let '(name, value) := o in
  let '(AuthUrl ph pr add rem aa ra us pw ah th) := u in
  if streq name "username" then AuthUrl ph pr add rem aa ra (Some value) pw ah th
  else if streq name "password" then AuthUrl ph pr add rem aa ra us (Some value) ah th
  else if streq name "headers" then AuthUrl (Some value) pr add rem aa ra us pw ah th
  else if streq name "header_prefix" then AuthUrl ph (Some value) add rem aa ra us pw ah th
  else if streq name "client_add" then AuthUrl ph pr (Some value) rem aa ra us pw ah th
  else if streq name "client_remove" then AuthUrl ph pr add (Some value) aa ra us pw ah th
  else if streq name "action_add" then AuthUrl ph pr add rem value ra us pw ah th
  else if streq name "action_remove" then AuthUrl ph pr add rem aa value us pw ah th
  else if streq name "auth_header" then AuthUrl ph pr add rem aa ra us pw value th
  else if streq name "timelimit_header" then AuthUrl ph pr add rem aa ra us pw ah value
  else u.

Definition url_defaults : auth_url :=
  AuthUrl None None None None "listener_add" "listener_remove" None None
    ("icecast-auth-user: 1" +:+ crlf)%string "icecast-auth-timelimit:".

(** [util_url_escape] of a text. *)
Definition escape (s : string) : string := default EmptyString (util_url_escape (Some s)).

Definition auth_get_url_auth (options : list (string * string)) : auth_url :=
  let '(AuthUrl ph pr add rem aa ra us pw ah th) := foldl url_option url_defaults options in
  AuthUrl ph pr add rem (escape aa) (escape ra) us pw ah th.

(** What it is told of a client: the headers and request variables by name,
    the connection's number and address, and the raw or plain URI. *)
Record asking := Asking {
  k_var : string -> option string;
  k_id : Z;
  k_ip : string;
  k_uri : string;
  k_username : option string;
  k_password : option string
}.

Definition escaped (s : option string) (none : string) : string :=
  match s with Some s => escape s | None => none end.

(** The fields of the form, before the headers passed on. *)
Definition url_fields (action hostname : string) (port : Z) (k : asking) (duration : option Z) : string :=
  ("action=" +:+ action +:+ "&server=" +:+ escape hostname +:+ "&port=" +:+ dec port +:+
   "&client=" +:+ dec (u64 (k_id k)) +:+ "&mount=" +:+ escape (k_uri k) +:+
   "&user=" +:+ escaped (k_username k) EmptyString +:+ "&pass=" +:+ escaped (k_password k) EmptyString +:+
   match duration with Some d => "&duration=" +:+ dec (u64 d) | None => EmptyString end +:+
   "&ip=" +:+ escape (k_ip k) +:+ "&agent=" +:+ escaped (k_var k "user-agent") "-")%string.

(** The size of the buffer [post]. *)
Definition POST_SIZE : Z := 4096.

(** The names of a list separated by commas. *)
Fixpoint header_names (s : string) : list string :=
  match s with
  | EmptyString => [EmptyString]
  | String c r =>
      match header_names r with
      | n :: l => if Ascii.eqb c "," then EmptyString :: n :: l else String c n :: l
      | [] => []
      end
  end.

(** The text a header adds to the form. *)
Definition header_text (u : auth_url) (k : asking) (name : string) : option string :=
  v ← k_var k name;
  Some ("&" +:+ default EmptyString (u_prefix_headers u) +:+ name +:+ "=" +:+ escape v)%string.

(** [snprintf (post + post_offset, sizeof (post) - post_offset, ...)], the
    difference being unsigned: with the offset behind the buffer the text is
    written there, outside of it, which is [None]. *)
Definition append_post (text : string) (p : string * Z) : option (string * Z) :=
  let '(post, offset) := p in
  let room := u64 (POST_SIZE - offset) in
  if room =? 0 then Some (post, offset + strlen text)
  else if POST_SIZE <? offset then None
  else Some (string_take (Z.to_nat offset) post +:+ string_take (Z.to_nat room - 1) text, offset + strlen text).

Fixpoint append_all (texts : list string) (p : string * Z) : option (string * Z) :=
  match texts with
  | [] => Some p
  | t :: r => p ← append_post t p; append_all r p
  end.

Definition passed_texts (u : auth_url) (k : asking) : list string :=
  match u_pass_headers u with
  | Some names => omap (header_text u k) (header_names names)
  | None => []
  end.

(** The form [url_add_client] posts. *)
Definition add_post (hostname : string) (port : Z) (u : auth_url) (k : asking) : option string :=
  p ← append_all (passed_texts u k) (snprintf (Z.to_nat POST_SIZE) (url_fields (u_addaction u) hostname port k None));
  Some p.1.

Definition remove_post (hostname : string) (port duration : Z) (u : auth_url) (k : asking) : string :=
  fst (snprintf (Z.to_nat POST_SIZE) (url_fields (u_removeaction u) hostname port k (Some duration))).

(** The user and password given to libcurl. *)
Definition url_userpwd (target : string) (u : auth_url) (k : asking) : string :=
  match strchr "@" target with
  | Some _ => EmptyString
  | None =>
      match u_username u, u_password u, k_username k, k_password k with
      | Some a, Some b, _, _ => a +:+ ":" +:+ b
      | _, _, Some a, Some b => a +:+ ":" +:+ b
      | _, _, _, _ => EmptyString
      end
  end%string.

(** [strncasecmp (s, p, strlen (p)) == 0]. *)
Definition starts_with_nocase (p s : string) : bool := starts_with (string_lower p) (string_lower s).

(** A header of the answer: the result and the time the client is cut off. *)
Definition handle_returned_header (now : Z) (u : auth_url) (r : auth_result * Z) (header : string) : auth_result * Z :=
  let '(result, discon) := r in
  (if starts_with_nocase (u_auth_header u) header then AUTH_OK else result,
   if starts_with_nocase (u_timelimit_header u) header
   then now + u32 (fst (strtol (string_drop (String.length (u_timelimit_header u)) header)))
   else discon).

Section curl.
(** [curl_easy_perform]: for the address, the user and password and the form,
    the headers of the answer in order, and whether it failed. *)
Variable curl : string -> string -> string -> list string * bool.

(** [url_add_client]: the result and the client's time limit, and the form
    posted; [None] where it writes outside of its buffer. *)
Definition url_add_client (now : Z) (hostname : string) (port : Z) (u : auth_url) (k : asking) (discon : Z) :
    option (auth_result * Z) :=
  match u_addurl u with
  | None => Some (AUTH_OK, discon)
  | Some url =>
      post ← add_post hostname port u k;
      let '(headers, failed) := curl url (url_userpwd url u k) post in
      let '(result, discon) := foldl (handle_returned_header now u) (AUTH_FAILED, discon) headers in
      Some (if failed then AUTH_FAILED else result, discon)
  end.

(** [url_remove_client]: the request it makes, if any; the answer does not
    matter. *)
Definition url_remove_client (hostname : string) (port duration : Z) (u : auth_url) (k : asking) :
    auth_result * option (string * string * string) :=
  (AUTH_OK,
   url ← u_removeurl u;
   Some (url, url_userpwd url u k, remove_post hostname port duration u k)).

(** ** Theorems *)

Definition texts_length (l : list string) : Z := foldr (fun t n => strlen t + n) 0 l.
Definition texts_concat (l : list string) : string := foldr String.append EmptyString l.

Lemma texts_length_nonneg l : 0 <= texts_length l.
Proof. induction l as [|t l IH]; [done|]. cbn [texts_length foldr]. fold (texts_length l). unfold strlen. lia. Qed.

Lemma append_all_fits l : forall post, strlen post + texts_length l < POST_SIZE ->
  append_all l (post, strlen post) = Some (post +:+ texts_concat l, strlen post + texts_length l).
Proof.
  induction l as [|t l IH]; intros post L; cbn [append_all texts_concat texts_length foldr] in *.
  - by rewrite string_app_nil_r, Z.add_0_r.
  - fold (texts_length l) in *. pose proof (texts_length_nonneg l). unfold append_post.
    assert (0 <= strlen t /\ 0 <= strlen post) by (unfold strlen; lia). unfold POST_SIZE in *.
    rewrite wrap_small by lia. replace (4096 - strlen post =? 0) with false by lia.
    replace (4096 <? strlen post) with false by lia. run_bind.
    rewrite !string_take_all by (unfold strlen in *; lia).
    assert (strlen post + strlen t = strlen (post +:+ t)) as E by (unfold strlen; rewrite string_length_app; lia).
    rewrite E, IH by (rewrite <- E; lia). by rewrite string_app_assoc, <- E, Z.add_assoc.
Qed.

Lemma append_all_overrun l x : forall post off,
  0 <= off <= POST_SIZE -> POST_SIZE < off + texts_length l < 2 ^ 62 -> append_all (l ++ [x]) (post, off) = None.
Proof.
  induction l as [|t l IH]; intros post off B L; cbn [texts_length foldr] in L; [lia|]. fold (texts_length l) in L.
  pose proof (texts_length_nonneg l). assert (0 <= strlen t) by (unfold strlen; lia).
  cbn [app append_all]. unfold append_post at 1. unfold POST_SIZE in *. rewrite wrap_small by lia.
  assert (forall post' r, r <> [] -> 4096 < off + strlen t < 2 ^ 62 -> append_all r (post', off + strlen t) = None) as Out.
  { intros post' [|y r] N Lt; [done|]. cbn [append_all]. unfold append_post, POST_SIZE.
    rewrite (proj2 (Z.eqb_neq _ _)); [by rewrite (proj2 (Z.ltb_lt _ _)) by lia|].
    unfold wrap. intros E. apply Z.mod_divide in E as [q E]; lia. }
  rewrite (proj2 (Z.ltb_ge _ off)) by lia. destruct (_ =? 0); run_bind;
    (destruct (Z.le_gt_cases (off + strlen t) 4096); [apply IH; lia|apply Out; [by destruct l|lia]]).
Qed.

(** The form posted for a client who wants to listen: where the fields and
    the headers passed on are shorter than the buffer it is all of them in
    order; but the lengths are the client's choice, and once a header passed
    on has reached beyond the buffer the next one is written outside of it. *)
Theorem url_add_post hostname port u k :
  let fields := url_fields (u_addaction u) hostname port k None in
  let texts := passed_texts u k in
  (strlen fields + texts_length texts < POST_SIZE ->
   add_post hostname port u k = Some (fields +:+ texts_concat texts)) /\
  (forall l x, texts = l ++ [x] -> strlen fields <= POST_SIZE ->
   POST_SIZE < strlen fields + texts_length l < 2 ^ 62 -> add_post hostname port u k = None).
Proof.
  cbv zeta. unfold add_post. set (fields := url_fields _ _ _ _ _). split.
  - intros L. pose proof (texts_length_nonneg (passed_texts u k)). unfold snprintf, POST_SIZE in *.
    rewrite string_take_all by (unfold strlen in *; lia). by rewrite append_all_fits.
  - intros l x -> F L. unfold snprintf. rewrite append_all_overrun; [done| |done]. unfold strlen in *. lia.
Qed.

(** A client is let in by the other server only where the request succeeded
    and the answer has the header agreed on, in whatever case; without an
    address to ask, everybody is.  The last header with a time limit counts,
    even where the client is not let in. *)
Theorem url_add_result now hostname port u k discon url post :
  u_addurl u = Some url -> add_post hostname port u k = Some post ->
  let answer := curl url (url_userpwd url u k) post in
  exists discon', url_add_client now hostname port u k discon =
      Some (if negb answer.2 && existsb (starts_with_nocase (u_auth_header u)) answer.1 then AUTH_OK else AUTH_FAILED, discon') /\
    discon' = match List.filter (starts_with_nocase (u_timelimit_header u)) (rev answer.1) with
              | [] => discon
              | h :: _ => now + u32 (fst (strtol (string_drop (String.length (u_timelimit_header u)) h)))
              end.
Proof.
  intros A P answer. unfold url_add_client. rewrite A, P. run_bind. fold answer. destruct answer as [headers failed]. cbn [fst snd].
  assert (foldl (handle_returned_header now u) (AUTH_FAILED, discon) headers =
    (if existsb (starts_with_nocase (u_auth_header u)) headers then AUTH_OK else AUTH_FAILED,
     match List.filter (starts_with_nocase (u_timelimit_header u)) (rev headers) with
     | [] => discon
     | h :: _ => now + u32 (fst (strtol (string_drop (String.length (u_timelimit_header u)) h)))
     end)) as ->.
  { induction headers as [|h l IH] using rev_ind; [done|]. rewrite foldl_app, IH, existsb_app, rev_app_distr.
    cbn [foldl handle_returned_header rev app List.filter existsb].
    destruct (existsb _ l), (starts_with_nocase (u_auth_header u) h), (starts_with_nocase (u_timelimit_header u) h); done. }
  eexists. split; [|reflexivity]. by destruct failed.
Qed.
End curl.

(** ** Witnesses *)

(** A text of [n] letters. *)
Definition letters (n : nat) : string := Nat.iter n (String "a") EmptyString.

Definition demo_url : auth_url :=
  auth_get_url_auth [("client_add", "http://auth.example/add"); ("headers", "x-one,x-two")]%string.

Definition demo_asking (value : string) : asking :=
  Asking (fun n => if streq n "x-one" || streq n "x-two" then Some value else None) 7 "192.0.2.1" "/live"
    (Some "bob"%string) (Some "secret"%string).

Definition demo_curl (url userpwd post : string) : list string * bool :=
  (["HTTP/1.1 200 OK" +:+ crlf; "ICECAST-AUTH-USER: 1" +:+ crlf; "icecast-auth-timelimit: 60" +:+ crlf]%string, false).

(** Two headers of a few thousand bytes each. *)
Example url_add_post_witness :
  (exists post, add_post "localhost" 8000 demo_url (demo_asking "v") = Some post) /\
  add_post "localhost" 8000 demo_url (demo_asking (letters 4100)) = None.
Proof.
  destruct (url_add_post "localhost" 8000 demo_url (demo_asking "v")) as [H1 _].
  destruct (url_add_post "localhost" 8000 demo_url (demo_asking (letters 4100))) as [_ H2]. split.
  - eexists. apply H1. by vm_compute.
  - set (t := header_text demo_url (demo_asking (letters 4100))).
    apply (H2 [default EmptyString (t "x-one")] (default EmptyString (t "x-two")))%string; [by vm_compute|by vm_compute|].
    split; by vm_compute.
Defined.

Example url_add_result_witness :
  u_addurl demo_url = Some "http://auth.example/add"%string /\
  exists discon, url_add_client demo_curl 1000 "localhost" 8000 demo_url (demo_asking "v") 0 = Some (AUTH_OK, discon) /\ discon = 1060.
Proof.
  split; [reflexivity|].
  destruct (url_add_result demo_curl 1000 "localhost" 8000 demo_url (demo_asking "v") 0 "http://auth.example/add"
    (default EmptyString (add_post "localhost" 8000 demo_url (demo_asking "v")))) as (d & H & D); [reflexivity|by vm_compute|].
  exists d. split; [exact H|]. rewrite D. by vm_compute.
Defined.
