(* ===== verification/Xml.v ===== *)
(** Nodes of a parsed XML document, as far as the configuration is read from
    them.

    The XML library is not part of the repository: a node is what the code
    asks the library about it. *)

From S2P Require Import Prelude.
Local Set Warnings "-register-all".

(** [text] is what [xmlNodeListGetString] makes of the node's children,
    [blank] whether [xmlIsBlankNode] holds. *)
Inductive xml_node := XmlNode (name : string) (props : list (string * string)) (text : option string)
    (blank : bool) (children : list xml_node).

Definition x_name (n : xml_node) : string := match n with XmlNode a _ _ _ _ => a end.
Definition x_props (n : xml_node) : list (string * string) := match n with XmlNode _ p _ _ _ => p end.
Definition x_text (n : xml_node) : option string := match n with XmlNode _ _ t _ _ => t end.
Definition x_blank (n : xml_node) : bool := match n with XmlNode _ _ _ b _ => b end.
Definition x_children (n : xml_node) : list xml_node := match n with XmlNode _ _ _ _ c => c end.

(** [xmlGetProp] and [xmlSetProp]. *)
Definition get_prop (props : list (string * string)) (name : string) : option string :=
  snd <$> find (fun p => streq p.1 name) props.
Definition xmlGetProp (n : xml_node) (name : string) : option string := get_prop (x_props n) name.
Fixpoint set_prop (props : list (string * string)) (name value : string) : list (string * string) :=
  match props with
  | [] => [(name, value)]
  | (n, v) :: r => if streq n name then (n, value) :: r else (n, v) :: set_prop r name value
  end.

(** A new element with attributes and children. *)
Definition new_node (name : string) (props : list (string * string)) (children : list xml_node) : xml_node :=
  XmlNode name props None false children.

(** [config_options_t]: an option of an authenticator or of an event. *)
Record config_option := ConfigOption { co_type : option string; co_name : option string; co_value : option string }.

(** [config_parse_options], of the children of a node. *)
Definition config_parse_options (children : list xml_node) : list config_option :=
  (fun n =>
     let type := xmlGetProp n "type" in
     ConfigOption (if bool_decide (type = Some "default"%string) then None else type)
       (xmlGetProp n "name") (xmlGetProp n "value")) <$>
  filter (fun n => streq (x_name n) "option" = true) children.

(** The element [__append_option_tag] appends to the options, where there is
    a value. *)
Definition option_tag (name : string) (value : option string) : list xml_node :=
  match value with
  | Some v => [new_node "option" [("name", name); ("value", v)]%string []]
  | None => []
  end.
