(* ===== verification/Playlist.v ===== *)
(** The history of a mount, as [playlist.c] keeps it: the tracks in a bounded
    list with a count of its users.

    [vorbis_comment_query] is a parameter. *)

From S2P Require Import Prelude Xml.
Local Open Scope Z_scope.

(** [playlist_track_tag]. *)
Record playlist_track := PlaylistTrack {
  pt_title : option string;
  pt_creator : option string;
  pt_album : option string;
  pt_trackNum : option string
}.
Definition empty_track : playlist_track := PlaylistTrack None None None None.

(** [playlist_tag], its tracks in order. *)
Record playlist := Playlist { pl_refc : Z; pl_max_tracks : Z; pl_tracks : list playlist_track }.

Definition playlist_new (max_tracks : Z) : playlist := Playlist 1 max_tracks [].

(** [playlist_ref] and [playlist_release]: what is left of it. *)
Definition playlist_ref (p : playlist) : playlist := Playlist (u64 (pl_refc p + 1)) (pl_max_tracks p) (pl_tracks p).
Definition playlist_release (p : playlist) : option playlist :=
  let refc := u64 (pl_refc p - 1) in
  if refc =? 0 then None else Some (Playlist refc (pl_max_tracks p) (pl_tracks p)).

Definition playlist_set_max_tracks (max_tracks : Z) (p : playlist) : playlist := Playlist (pl_refc p) max_tracks (pl_tracks p).

(** The tracks that are too many leave at the front; [None] where there is
    none to free. *)
Fixpoint drop_tracks (max_tracks : Z) (num : nat) (tracks : list playlist_track) : option (list playlist_track) :=
  if (0 <? max_tracks) && (max_tracks <? Z.of_nat num) then
    match num, tracks with
    | S n, _ :: r => drop_tracks max_tracks n r
    | _, _ => None
    end
  else Some tracks.

(** What a comment says of a track: [vorbis_comment_query] with a key. *)
Definition track_of (query : string -> option string) : playlist_track :=
  match query "TITLE"%string, query "ARTIST"%string, query "ALBUM"%string, query "TRACKNUMBER"%string with
  | None, None, None, None => PlaylistTrack (query "X_ICY_TITLE"%string) None None None
  | title, creator, album, num => PlaylistTrack title creator album num
  end.

(** The last track is written to after the others were dropped: it has to be
    there. *)
Fixpoint set_last (t : playlist_track) (tracks : list playlist_track) : option (list playlist_track) :=
  match tracks with
  | [] => None
  | [_] => Some [t]
  | u :: r => r ← set_last t r; Some (u :: r)
  end.

(** [playlist_push_track], with a comment or none. *)
Definition playlist_push_track (vc : option (string -> option string)) (p : playlist) : option playlist :=
  let tracks := pl_tracks p ++ [empty_track] in
  tracks ← drop_tracks (pl_max_tracks p) (length tracks) tracks;
  tracks ← match vc with Some query => set_last (track_of query) tracks | None => Some tracks end;
  Some (Playlist (pl_refc p) (pl_max_tracks p) tracks).

(** [playlist_render_xspf]. *)
Definition text_child (name : string) (o : option string) : list xml_node :=
  match o with Some t => [XmlNode name [] (Some t) false []] | None => [] end.
Definition track_node (t : playlist_track) : xml_node :=
  new_node "track" []
    (text_child "title" (pt_title t) ++ text_child "creator" (pt_creator t) ++ text_child "album" (pt_album t) ++
     text_child "trackNum" (pt_trackNum t)).
Definition playlist_render_xspf (p : playlist) : xml_node :=
  new_node "playlist" [("version", "1"); ("xmlns", "http://xspf.org/ns/0/")]%string
    [new_node "trackList" [] (map track_node (pl_tracks p))].

(** ** The last tracks *)

Definition last_tracks (max_tracks : Z) (tracks : list playlist_track) : list playlist_track :=
  if 0 <? max_tracks then drop (length tracks - Z.to_nat max_tracks) tracks else tracks.

Lemma drop_tracks_last max tracks : drop_tracks max (length tracks) tracks = Some (last_tracks max tracks).
Proof.
  unfold last_tracks. induction tracks as [|t r IH]; cbn [length drop_tracks].
  - destruct (Z.ltb_spec 0 max); [|done]. by destruct (Z.ltb_spec max (Z.of_nat 0)); [lia|].
  - destruct (Z.ltb_spec 0 max); cbn [andb]; [|done]. destruct (Z.ltb_spec max (Z.of_nat (S (length r)))).
    + rewrite IH. by replace (S (length r) - Z.to_nat max)%nat with (S (length r - Z.to_nat max)) by lia.
    + by replace (S (length r) - Z.to_nat max)%nat with 0%nat by lia.
Qed.

Lemma last_tracks_snoc max tracks t : exists r, forall u, last_tracks max (tracks ++ [u]) = r ++ [u] /\
  last_tracks max (tracks ++ [t]) = r ++ [t].
Proof.
  unfold last_tracks. destruct (Z.ltb_spec 0 max); [|by exists tracks].
  exists (drop (S (length tracks) - Z.to_nat max) tracks). intros u. rewrite !length_app. cbn [length]. rewrite Nat.add_1_r, !drop_app.
  replace (S (length tracks) - Z.to_nat max - length tracks)%nat with 0%nat by lia. done.
Qed.

Lemma set_last_snoc t r u : set_last t (r ++ [u]) = Some (r ++ [t]).
Proof. induction r as [|v r IH]; [done|]. cbn [app set_last]. rewrite IH. by destruct r. Qed.

(** What a comment is to the history. *)
Definition pushed (vc : option (string -> option string)) : playlist_track :=
  match vc with Some query => track_of query | None => empty_track end.

Lemma push_track p vc :
  playlist_push_track vc p = Some (Playlist (pl_refc p) (pl_max_tracks p) (last_tracks (pl_max_tracks p) (pl_tracks p ++ [pushed vc]))).
Proof.
  unfold playlist_push_track. rewrite drop_tracks_last. run_bind. destruct vc as [query|]; [|done].
  destruct (last_tracks_snoc (pl_max_tracks p) (pl_tracks p) (track_of query)) as [r E]. destruct (E empty_track) as [-> E'].
  cbn [pushed]. rewrite E', set_last_snoc. done.
Qed.

Lemma last_tracks_app max a b : last_tracks max (last_tracks max a ++ b) = last_tracks max (a ++ b).
Proof.
  unfold last_tracks. destruct (Z.ltb_spec 0 max); [|done]. rewrite !length_app, length_drop, !drop_app, drop_drop, length_drop.
  f_equal; f_equal; lia.
Qed.

Fixpoint push_all (vcs : list (option (string -> option string))) (p : playlist) : option playlist :=
  match vcs with [] => Some p | vc :: r => p ← playlist_push_track vc p; push_all r p end.

(** the history of a mount.  However many tracks are pushed, and with
    whatever comments, the history is at every time the last of them, as many
    as the mount keeps and all where it keeps any number; what is shown is one
    element for each, in order, with the texts its comment has. *)
Theorem playlist_history vcs p :
  pl_tracks p = last_tracks (pl_max_tracks p) (pl_tracks p) ->
  let tracks := last_tracks (pl_max_tracks p) (pl_tracks p ++ map pushed vcs) in
  exists p', push_all vcs p = Some p' /\ pl_tracks p' = tracks /\ pl_refc p' = pl_refc p /\
    (0 < pl_max_tracks p -> Z.of_nat (length tracks) <= pl_max_tracks p) /\
    playlist_render_xspf p' =
      new_node "playlist" [("version", "1"); ("xmlns", "http://xspf.org/ns/0/")]%string [new_node "trackList" [] (map track_node tracks)].
Proof.
  intros N tracks. exists (Playlist (pl_refc p) (pl_max_tracks p) tracks).
  assert (push_all vcs p = Some (Playlist (pl_refc p) (pl_max_tracks p) tracks)) as E.
  { subst tracks. revert p N. induction vcs as [|vc r IH]; intros p N; cbn [push_all map].
    - rewrite app_nil_r, <- N. by destruct p.
    - rewrite push_track. run_bind. rewrite IH; cbn [pl_tracks pl_max_tracks pl_refc].
      + by rewrite last_tracks_app, <- app_assoc.
      + pose proof (last_tracks_app (pl_max_tracks p) (pl_tracks p ++ [pushed vc]) []) as A. by rewrite !app_nil_r in A. }
  split_and!; try done. intros P. subst tracks. unfold last_tracks. destruct (Z.ltb_spec 0 (pl_max_tracks p)); [|lia].
  rewrite length_drop. lia.
Qed.

Definition demo_comment (title : string) (key : string) : option string := if streq key "TITLE" then Some title else None.

Lemma playlist_history_witness :
  [] = last_tracks 2 [] /\
  exists p', push_all [Some (demo_comment "a"); None; Some (demo_comment "b"); Some (fun key => if streq key "X_ICY_TITLE" then Some "c"%string else None)]
      (playlist_new 2) = Some p' /\
    pl_tracks p' = [PlaylistTrack (Some "b"%string) None None None; PlaylistTrack (Some "c"%string) None None None].
Proof.
  split; [reflexivity|].
  destruct (playlist_history [Some (demo_comment "a"); None; Some (demo_comment "b"); Some (fun key => if streq key "X_ICY_TITLE" then Some "c"%string else None)]
    (playlist_new 2) eq_refl) as (p' & E & T & _). exists p'. split; [exact E|exact T].
Defined.

(** The last of its users frees a history, and none before. *)
Fixpoint refs (n : nat) (p : playlist) : playlist := match n with O => p | S n => refs n (playlist_ref p) end.
Fixpoint releases (n : nat) (p : playlist) : option playlist :=
  match n with O => Some p | S n => p ← playlist_release p; releases n p end.

Lemma playlist_counted n max :
  Z.of_nat n + 1 < 2 ^ 64 ->
  releases n (refs n (playlist_new max)) = Some (playlist_new max) /\ releases (S n) (refs n (playlist_new max)) = None.
Proof.
  intros B. assert (forall k c, 0 < c -> c + Z.of_nat k < 2 ^ 64 -> refs k (Playlist c max []) = Playlist (c + Z.of_nat k) max []) as R.
  { induction k as [|k IH]; intros c C1 C2; cbn [refs]; [by rewrite Z.add_0_r|]. unfold playlist_ref. cbn [pl_refc pl_max_tracks pl_tracks].
    rewrite (wrap_small 64) by lia. rewrite IH by lia. f_equal. lia. }
  assert (forall k c, 0 < c -> c + Z.of_nat k < 2 ^ 64 -> releases k (Playlist (c + Z.of_nat k) max []) = Some (Playlist c max [])) as L.
  { induction k as [|k IH]; intros c C1 C2; cbn [releases]; [by rewrite Z.add_0_r|]. unfold playlist_release.
    cbn [pl_refc pl_max_tracks pl_tracks]. rewrite (wrap_small 64) by lia. destruct (Z.eqb_spec (c + Z.of_nat (S k) - 1) 0); [lia|].
    run_bind. replace (c + Z.of_nat (S k) - 1) with (c + Z.of_nat k) by lia. apply IH; lia. }
  unfold playlist_new. rewrite R by lia. split; [by apply L; lia|].
  rewrite <- Nat.add_1_r. assert (forall k j p, releases (k + j) p = p' ← releases k p; releases j p') as A.
  { induction k as [|k IH]; intros j p; [done|]. cbn [releases Nat.add]. destruct (playlist_release p); [|done]. run_bind. apply IH. }
  rewrite A, L by lia. done.
Qed.
