(* ===== verification/Event.v ===== *)
(** Events, [event.c] and its backends [event_log.c], [event_exec.c] and
    [event_url.c]: the registrations of the configuration, the queue, the
    thread that hands events to the registrations, and what a registration
    does with one.

    Registrations live in a heap of records with their counts, since events
    refer to them while the configuration is reread.  An event belongs to the
    queue or to the thread, or else is freed at once; its own count, which
    says as much, is left out.  libcurl, the C library's text for a null
    pointer and [execv] are parameters or the end of the model. *)

From S2P Require Import Prelude Uri Convert Acl Mounts Xml.
Local Open Scope Z_scope.

(** ** Events *)

Record event_data := EventData {
  ev_trigger : string;
  ev_uri : option string;
  ev_connection_id : Z;
  ev_connection_ip : option string;
  ev_connection_time : Z;
  ev_client_role : option string;
  ev_client_username : option string;
  ev_client_useragent : option string;
  ev_client_admin_command : Z
}.

(** ** Backends *)

Record event_log := EventLog { el_prefix : option string; el_level : Z }.

Inductive event_exec_argvtype :=
| ARGVTYPE_NO_DEFAULTS | ARGVTYPE_ONLY_URI | ARGVTYPE_URI_AND_TRIGGER | ARGVTYPE_LEGACY.

(** [argv] with the null pointers in it. *)
Record event_exec := EventExec {
  ee_executable : option string;
  ee_argvtype : event_exec_argvtype;
  ee_argv : list (option string)
}.

(** A pointer to a text: null, to one that is there, or to freed memory. *)
Inductive text_ptr := Null | Live (s : string) | Dangling.

Record event_url := EventUrl { eu_url : text_ptr; eu_action : option string; eu_userpwd : option string }.

Inductive event_backend :=
| LogBackend (l : event_log)
| ExecBackend (x : event_exec)
| UrlBackend (u : event_url).

(** *** [event_log.c] *)

Definition ICECAST_LOGLEVEL_INFO : Z := 3.

Definition log_option (self : event_log) (o : config_option) : event_log :=
  match co_type o, co_name o with
  | None, Some n =>
      if streq n "prefix" then EventLog (co_value o) (el_level self)
      else if streq n "level" then
        EventLog (el_prefix self)
          (match co_value o with Some v => util_str_to_loglevel v | None => ICECAST_LOGLEVEL_INFO end)
      else self
  | _, _ => self
  end.

Definition event_get_log (options : list config_option) : event_log :=
  foldl log_option (EventLog (Some "Event"%string) ICECAST_LOGLEVEL_INFO) options.

Section log.
(** What [%s] makes of a null pointer. *)
Variable null_text : string.

Definition printed (s : option string) : string := default null_text s.

Definition quoted (s : string) : string := String (chr 34) EmptyString +:+ s +:+ String (chr 34) EmptyString.

(** The level and the text of the message. *)
Definition event_log_emit (self : event_log) (e : event_data) : Z * string :=
  (el_level self,
   (match el_prefix self with Some p => p +:+ ": " | None => EmptyString end) +:+
   "trigger=" +:+ quoted (ev_trigger e) +:+ " uri=" +:+ quoted (printed (ev_uri e)) +:+
   " connection_id=" +:+ dec (ev_connection_id e) +:+ " connection_ip=" +:+ quoted (printed (ev_connection_ip e)) +:+
   " connection_time=" +:+ dec (ev_connection_time e) +:+
   " client_role=" +:+ quoted (printed (ev_client_role e)) +:+
   " client_username=" +:+ quoted (printed (ev_client_username e)) +:+
   " client_useragent=" +:+ quoted (printed (ev_client_useragent e)) +:+
   " client_admin_command=" +:+ dec (ev_client_admin_command e))%string.
End log.

(** *** [event_exec.c] *)

Definition argvtype2offset (t : event_exec_argvtype) : nat :=
  match t with
  | ARGVTYPE_NO_DEFAULTS => 1
  | ARGVTYPE_ONLY_URI => 2
  | ARGVTYPE_URI_AND_TRIGGER => 3
  | ARGVTYPE_LEGACY => 2
  end.

Definition str2argvtype (str : option string) : event_exec_argvtype :=
  match str with
  | None => ARGVTYPE_LEGACY
  | Some s =>
      if streq s "default" then ARGVTYPE_LEGACY
      else if streq s "no_defaults" then ARGVTYPE_NO_DEFAULTS
      else if streq s "uri" then ARGVTYPE_ONLY_URI
      else if streq s "uri_and_trigger" then ARGVTYPE_URI_AND_TRIGGER
      else if streq s "legacy" then ARGVTYPE_LEGACY
      else ARGVTYPE_LEGACY
  end.

(** A write to [argv]; [None] is one outside of it. *)
Definition argv_set (argv : list (option string)) (i : nat) (v : option string) : option (list (option string)) :=
  if (i <? length argv)%nat then Some (<[i := v]> argv) else None.

(** What [execv] gets: a pointer into [argv] reaches up to the first null
    pointer; [None] where there is none. *)
Fixpoint argv_texts (argv : list (option string)) : option (list string) :=
  match argv with
  | [] => None
  | None :: _ => Some []
  | Some s :: r => l ← argv_texts r; Some (s :: l)
  end.

(** [__setup_argv]: [argv] and where in it the arguments begin. *)
Definition setup_argv (self : event_exec) (e : event_data) : option (list (option string) * nat) :=
  argv ← argv_set (ee_argv self) 0 (ee_executable self);
  match ee_argvtype self with
  | ARGVTYPE_NO_DEFAULTS => Some (argv, 0%nat)
  | ARGVTYPE_ONLY_URI =>
      argv ← argv_set argv 1 (Some (default EmptyString (ev_uri e))); Some (argv, 0%nat)
  | ARGVTYPE_URI_AND_TRIGGER =>
      argv ← argv_set argv 2 (Some (ev_trigger e));
      argv ← argv_set argv 1 (Some (default EmptyString (ev_uri e))); Some (argv, 0%nat)
  | ARGVTYPE_LEGACY =>
      match ev_uri e with
      | Some u => argv ← argv_set argv 1 (Some u); Some (argv, 0%nat)
      | None => argv ← argv_set argv 1 (ee_executable self); Some (argv, 1%nat)
      end
  end.

(** The arguments of the command that is run, in the child. *)
Definition event_exec_emit (self : event_exec) (e : event_data) : option (list string) :=
  '(argv, from) ← setup_argv self e; argv_texts (drop from argv).

(** [event_exec_free]: [Some] where the loop over [argv] ends in it. *)
Definition event_exec_free (self : event_exec) : option unit :=
  match argv_texts (drop (argvtype2offset (ee_argvtype self)) (ee_argv self)) with
  | Some _ => Some tt
  | None => None
  end.

(** The first loop over the options, and the count of the arguments. *)
Definition exec_option (r : event_exec * nat) (o : config_option) : event_exec * nat :=
  let '(self, extra_argc) := r in
  match co_name o with
  | Some n =>
      if streq n "executable" then (EventExec (co_value o) (ee_argvtype self) (ee_argv self), extra_argc)
      else if streq n "default_arguments" then
        (EventExec (ee_executable self) (str2argvtype (co_value o)) (ee_argv self), extra_argc)
      else r
  | None =>
      match co_type o with
      | Some t => if streq t "argument" then (self, S extra_argc) else r
      | None => r
      end
  end.

(** The second loop, which stores them. *)
Fixpoint exec_arguments (options : list config_option) (i : nat) (argv : list (option string)) :
    option (list (option string)) :=
  match options with
  | [] => Some argv
  | o :: r =>
      match co_type o, co_value o with
      | Some t, Some v =>
          if streq t "argument" then argv ← argv_set argv i (Some v); exec_arguments r (S i) argv
          else exec_arguments r i argv
      | _, _ => exec_arguments r i argv
      end
  end.

(** [event_get_exec]: [None] is a crash, [Some None] a failure. *)
Definition event_get_exec (options : list config_option) : option (option event_exec) :=
  let '(self, extra_argc) := foldl exec_option (EventExec None ARGVTYPE_LEGACY [], 0%nat) options in
  match ee_executable self with
  | None => _ ← event_exec_free self; Some None
  | Some _ =>
      let offset := argvtype2offset (ee_argvtype self) in
      argv ← exec_arguments options offset (replicate (offset + extra_argc + 1) None);
      Some (Some (EventExec (ee_executable self) (ee_argvtype self) argv))
  end.

(** What [__setup_environ] reads of the source of the event's mount. *)
Record event_source := EventSource { es_mount : string; es_yp_public : bool; es_hidden : bool }.

(** [__update_environ]: nothing where there is no value. *)
Definition update_environ (env : list (string * string)) (name : string) (value : option string) : list (string * string) :=
  match value with Some v => set_prop env name v | None => env end.

(** [__setup_environ], of the server's texts, the settings of the mount and
    its source. *)
Definition setup_environ (version : string) (hostname admin log_dir : option string) (mountinfo : option mount_proxy)
    (source : option event_source) (e : event_data) (env : list (string * string)) : list (string * string) :=
  let put env l := foldl (fun env nv => update_environ env nv.1 nv.2) env l in
  let env := put env
    [("ICECAST_VERSION", Some version); ("ICECAST_HOSTNAME", hostname); ("ICECAST_ADMIN", admin);
     ("ICECAST_LOGDIR", log_dir); ("EVENT_URI", ev_uri e); ("EVENT_TRIGGER", Some (ev_trigger e));
     ("SOURCE_ACTION", Some (ev_trigger e)); ("CLIENT_IP", ev_connection_ip e); ("CLIENT_ROLE", ev_client_role e);
     ("CLIENT_USERNAME", ev_client_username e); ("CLIENT_USERAGENT", ev_client_useragent e);
     ("CLIENT_ID", Some (dec (ev_connection_id e))); ("CLIENT_CONNECTION_TIME", Some (dec (ev_connection_time e)));
     ("CLIENT_ADMIN_COMMAND", Some (dec (ev_client_admin_command e)))]%string in
  let env := match mountinfo with
    | Some m => put env [("MOUNT_NAME", mp_stream_name m); ("MOUNT_DESCRIPTION", mp_stream_description m);
                         ("MOUNT_URL", mp_stream_url m); ("MOUNT_GENRE", mp_stream_genre m)]%string
    | None => env
    end in
  match source with
  | Some s => put env [("SOURCE_MOUNTPOINT", Some (es_mount s));
                       ("SOURCE_PUBLIC", Some (if es_yp_public s then "true" else "false"));
                       ("SROUCE_HIDDEN", Some (if es_hidden s then "true" else "false"))]%string
  | None => env
  end.

(** *** [event_url.c] *)

(** [free (p)]: [None] where the memory is not there any more. *)
Definition text_free (p : text_ptr) : option unit := match p with Dangling => None | _ => Some tt end.
Definition text_of (v : option string) : text_ptr := match v with Some s => Live s | None => Null end.

(** One option: the state, the user and the password. *)
Definition url_option (r : event_url * option string * option string) (o : config_option) :
    option (event_url * option string * option string) :=
  let '(self, username, password) := r in
  match co_type o, co_name o with
  | None, Some n =>
      if streq n "url" then
        _ ← text_free (eu_url self);
        Some (EventUrl (text_of (co_value o)) (eu_action self) (eu_userpwd self), username, password)
      else if streq n "username" then Some (self, co_value o, password)
      else if streq n "password" then Some (self, username, co_value o)
      else if streq n "action" then
        _ ← text_free (eu_url self);
        let url := match eu_url self with Null => Null | _ => Dangling end in
        Some (EventUrl url (co_value o) (eu_userpwd self), username, password)
      else Some r
  | _, _ => Some r
  end.

Fixpoint url_options (r : event_url * option string * option string) (options : list config_option) :
    option (event_url * option string * option string) :=
  match options with
  | [] => Some r
  | o :: l => r ← url_option r o; url_options r l
  end.

(** [event_url_free]. *)
Definition event_url_free (self : event_url) : option unit := text_free (eu_url self).

(** [event_get_url], where libcurl can be set up. *)
Definition event_get_url (options : list config_option) : option (option event_url) :=
  '(self, username, password) ← url_options (EventUrl Null None None, None, None) options;
  match eu_url self with
  | Null => _ ← event_url_free self; Some None
  | _ =>
      Some (Some (EventUrl (eu_url self) (eu_action self)
        (match username, password with
         | Some u, Some p => Some (fst (snprintf (String.length u + String.length p + 2) (u +:+ ":" +:+ p)))
         | _, _ => None
         end)))
  end.

(** [__escape]. *)
Definition escape_or (src : option string) (default_value : string) : string :=
  default default_value (util_url_escape src).

(** The request an event makes: its address, the form it posts and the user
    and password; [None] where the address has been freed. *)
Definition event_url_emit (hostname : option string) (port now : Z) (self : event_url) (e : event_data) :
    option (string * string * string) :=
  let action := default EmptyString (util_url_escape (Some (default (ev_trigger e) (eu_action self)))) in
  let duration := if ev_connection_time e =? 0 then 0 else now - ev_connection_time e in
  let post := fst (snprintf 4096
    ("action=" +:+ action +:+ "&mount=" +:+ escape_or (ev_uri e) EmptyString +:+
     "&server=" +:+ escape_or hostname EmptyString +:+ "&port=" +:+ dec port +:+
     "&client=" +:+ dec (ev_connection_id e) +:+ "&role=" +:+ escape_or (ev_client_role e) EmptyString +:+
     "&username=" +:+ escape_or (ev_client_username e) EmptyString +:+
     "&ip=" +:+ escape_or (ev_connection_ip e) EmptyString +:+
     "&agent=" +:+ escape_or (ev_client_useragent e) "-" +:+
     "&duration=" +:+ dec duration +:+ "&admin=" +:+ dec (ev_client_admin_command e))) in
  match eu_url self with
  | Live url =>
      Some (url, post,
        match strchr "@" url, eu_userpwd self with None, Some u => u | _, _ => EmptyString end)
  | _ => None
  end%string.

(** ** Registrations *)

Record registration := Registration { rg_type : string; rg_trigger : string; rg_state : event_backend }.

(** [event_new_from_xml_node], of the attributes and the children of a node:
    [None] is a crash, [Some None] no registration. *)
Definition event_new_from_xml_node (props : list (string * string)) (children : list xml_node) :
    option (option registration) :=
  match get_prop props "type", get_prop props "trigger" with
  | Some type, Some trigger =>
      let options := config_parse_options children in
      let made (b : event_backend) := Registration type trigger b in
      if streq type "log" then Some (Some (made (LogBackend (event_get_log options))))
      else if streq type "exec" then
        match event_get_exec options with None => None | Some r => Some (option_map (fun x => made (ExecBackend x)) r) end
      else if streq type "url" then
        match event_get_url options with None => None | Some r => Some (option_map (fun u => made (UrlBackend u)) r) end
      else Some None
  | _, _ => Some None
  end.

(** A list of registrations as the configuration makes it: null is not
    pushed. *)
Definition registrations_push (l : list registration) (tail : option registration) : list registration :=
  match tail with Some r => l ++ [r] | None => l end.

(** *** The heap *)

Record reg_cell := RegCell { er_refcount : Z; er_next : option positive; er_reg : registration }.

Abbreviation reg_heap := (gmap positive reg_cell).

Definition event_registration_addref (er : option positive) (h : reg_heap) : option reg_heap :=
  match er with
  | None => Some h
  | Some p => c ← h !! p; Some (<[p := RegCell (er_refcount c + 1) (er_next c) (er_reg c)]> h)
  end.

Fixpoint release_fuel (fuel : nat) (er : option positive) (h : reg_heap) : option reg_heap :=
  match fuel, er with
  | O, _ => None
  | _, None => Some h
  | S fuel', Some p =>
      c ← h !! p;
      let n := er_refcount c - 1 in
      let h := <[p := RegCell n (er_next c) (er_reg c)]> h in
      if n =? 0 then h ← release_fuel fuel' (er_next c) h; Some (delete p h) else Some h
  end.

(** The recursion is along the list. *)
Definition event_registration_release (er : option positive) (h : reg_heap) : option reg_heap :=
  release_fuel (S (S (size h))) er h.
Arguments event_registration_release : simpl never.

(** The walk to the last registration; each is held while it is looked at,
    which leaves its count as it was. *)
Fixpoint last_registration (fuel : nat) (cur : positive) (h : reg_heap) : option positive :=
  match fuel with
  | O => None
  | S fuel' =>
      c ← h !! cur;
      match er_next c with Some next => last_registration fuel' next h | None => Some cur end
  end.

(** [event_registration_push]: the head of the list, and the heap. *)
Definition event_registration_push (er tail : option positive) (h : reg_heap) :
    option (option positive * reg_heap) :=
  match tail with
  | None => Some (er, h)
  | Some _ =>
      match er with
      | None => h ← event_registration_addref tail h; Some (tail, h)
      | Some head =>
          p ← last_registration (S (size h)) head h;
          c ← h !! p;
          h ← event_registration_addref tail (<[p := RegCell (er_refcount c) tail (er_reg c)]> h);
          Some (er, h)
      end
  end.

(** What the parser of the configuration does with a new registration: it is
    pushed and then released. *)
Definition push_new (er : option positive) (r : registration) (h : reg_heap) :
    option (option positive * reg_heap) :=
  let p := fresh (dom h) in
  '(er, h) ← event_registration_push er (Some p) (<[p := RegCell 1 None r]> h);
  h ← event_registration_release (Some p) h;
  Some (er, h).

Fixpoint push_all (er : option positive) (l : list registration) (h : reg_heap) :
    option (option positive * reg_heap) :=
  match l with
  | [] => Some (er, h)
  | r :: l => '(er, h) ← push_new er r h; push_all er l h
  end.

(** ** The queue and the thread *)

Definition MAX_REGLISTS_PER_EVENT : nat := 8.
Definition EVENT_QUEUE_SIZE : nat := 128.

(** The lists of an event are the first of its array. *)
Record event := Event { e_data : event_data; e_reglist : list positive }.

Definition event_push_reglist (reglist : option positive) (e : event) (h : reg_heap) : option (event * reg_heap) :=
  match reglist with
  | None => Some (e, h)
  | Some p =>
      if (length (e_reglist e) <? MAX_REGLISTS_PER_EVENT)%nat then
        h ← event_registration_addref (Some p) h; Some (Event (e_data e) (e_reglist e ++ [p]), h)
      else Some (e, h)
  end.

(** [event_release] of an event nothing refers to. *)
Fixpoint release_lists (l : list positive) (h : reg_heap) : option reg_heap :=
  match l with
  | [] => Some h
  | p :: l => h ← event_registration_release (Some p) h; release_lists l h
  end.

(** [event_push]: whether there was room. *)
Definition event_push (queue : list event) (e : event) : list event * bool :=
  if (length queue <? EVENT_QUEUE_SIZE)%nat then (queue ++ [e], true) else (queue, false).

(** The lists of registrations of a configuration: the global one, and those
    of the entries for mounts. *)
Record event_config := EventConfig { ec_global : option positive; ec_mounts : list (mount_proxy * option positive) }.

(** What a client's events say of it. *)
Record event_client := EventClient {
  ec_connection_id : Z;
  ec_connection_time : Z;
  ec_admin_command : Z;
  ec_ip : string;
  ec_role : option string;
  ec_username : option string;
  ec_useragent : option string
}.

(** [event_new], with the data [event_emit_clientevent] fills in later. *)
Definition event_data_of (trigger : string) (c : option event_client) (uri : option string) : event_data :=
  match c with
  | None => EventData trigger uri 0 None 0 None None None ADMIN_COMMAND_ERROR
  | Some c => EventData trigger uri (ec_connection_id c) (Some (ec_ip c)) (ec_connection_time c) (ec_role c)
                (ec_username c) (ec_useragent c) (ec_admin_command c)
  end.

Section events.
(** [fnmatch (pattern, name, FNM_PATHNAME) == 0]. *)
Variable fnmatch : string -> string -> bool.

(** [config_find_mount] for an event: the first entry of the type given, with
    its list. *)
Definition find_mount_events (config : event_config) (uri : option string) (type : mount_type) : option positive :=
  match find (fun m => mount_matches fnmatch uri type m.1) (ec_mounts config) with
  | Some m => m.2
  | None => None
  end.

(** The entry of the mount itself, which [config_find_mount] returns if it is
    a normal one, and then the default one. *)
Definition event_lists (config : event_config) (uri : option string) : list (option positive) :=
  [ec_global config;
   (match uri with Some _ => find_mount_events config uri MOUNT_TYPE_NORMAL | None => None end);
   find_mount_events config uri MOUNT_TYPE_DEFAULT].

Fixpoint push_lists (l : list (option positive)) (e : event) (h : reg_heap) : option (event * reg_heap) :=
  match l with
  | [] => Some (e, h)
  | p :: l => '(e, h) ← event_push_reglist p e h; push_lists l e h
  end.

(** [event_emit_clientevent]: the queue and the heap afterwards. *)
Definition event_emit_clientevent (config : event_config) (trigger : string) (client : option event_client)
    (uri : option string) (queue : list event) (h : reg_heap) : option (list event * reg_heap) :=
  '(e, h) ← push_lists (event_lists config uri) (Event (event_data_of trigger client uri) []) h;
  match e_reglist e with
  | [] => Some (queue, h)
  | _ =>
      let '(queue, pushed) := event_push queue e in
      if pushed then Some (queue, h) else h ← release_lists (e_reglist e) h; Some (queue, h)
  end.
End events.

(** [_try_registrations]: the registrations of a list that the event is given
    to, in their order. *)
Fixpoint try_registrations (fuel : nat) (er : option positive) (e : event_data) (h : reg_heap) :
    option (list registration) :=
  match fuel, er with
  | _, None => Some []
  | O, _ => None
  | S fuel', Some p =>
      c ← h !! p;
      l ← try_registrations fuel' (er_next c) e h;
      Some (if streq (rg_trigger (er_reg c)) (ev_trigger e) then er_reg c :: l else l)
  end.

Fixpoint try_lists (l : list positive) (e : event_data) (h : reg_heap) : option (list registration) :=
  match l with
  | [] => Some []
  | p :: l =>
      a ← try_registrations (S (size h)) (Some p) e h; b ← try_lists l e h; Some (a ++ b)
  end.

(** One turn of [event_run_thread]: what is handed out, the queue and the
    heap. *)
Definition event_run_turn (queue : list event) (h : reg_heap) :
    option (list (event_data * registration) * list event * reg_heap) :=
  match queue with
  | [] => Some ([], [], h)
  | e :: queue =>
      regs ← try_lists (e_reglist e) (e_data e) h;
      h ← release_lists (e_reglist e) h;
      Some (map (pair (e_data e)) regs, queue, h)
  end.

(** The end of [event_shutdown], after the thread: the events that are left
    are dropped. *)
Fixpoint drop_events (queue : list event) (h : reg_heap) : option reg_heap :=
  match queue with
  | [] => Some h
  | e :: queue => h ← release_lists (e_reglist e) h; drop_events queue h
  end.

(** ** The server's events *)

(** The lists of a configuration: the global one, and those of its entries. *)
Record event_settings := EventSettings {
  es_global : list registration;
  es_mounts : list (mount_proxy * list registration)
}.

Fixpoint load_mounts (l : list (mount_proxy * list registration)) (h : reg_heap) :
    option (list (mount_proxy * option positive) * reg_heap) :=
  match l with
  | [] => Some ([], h)
  | (m, regs) :: l =>
      '(er, h) ← push_all None regs h; '(ms, h) ← load_mounts l h; Some ((m, er) :: ms, h)
  end.

Definition load_settings (s : event_settings) (h : reg_heap) : option (event_config * reg_heap) :=
  '(g, h) ← push_all None (es_global s) h; '(ms, h) ← load_mounts (es_mounts s) h; Some (EventConfig g ms, h).

(** The part of [config_clear]. *)
Fixpoint clear_lists (l : list (option positive)) (h : reg_heap) : option reg_heap :=
  match l with
  | [] => Some h
  | er :: l => h ← event_registration_release er h; clear_lists l h
  end.
Definition clear_settings (c : event_config) (h : reg_heap) : option reg_heap :=
  clear_lists (ec_global c :: (snd <$> ec_mounts c)) h.

Record event_state := EventState {
  st_heap : reg_heap;
  st_config : event_config;
  st_queue : list event;
  st_log : list (event_data * registration)
}.

Inductive event_action :=
| Reread (s : event_settings)
| Emit (trigger : string) (client : option event_client) (uri : option string)
| Turn.

Definition event_step (fnmatch : string -> string -> bool) (a : event_action) (s : event_state) : option event_state :=
  match a with
  | Reread new =>
      '(config, h) ← load_settings new (st_heap s);
      h ← clear_settings (st_config s) h;
      Some (EventState h config (st_queue s) (st_log s))
  | Emit trigger client uri =>
      '(queue, h) ← event_emit_clientevent fnmatch (st_config s) trigger client uri (st_queue s) (st_heap s);
      Some (EventState h (st_config s) queue (st_log s))
  | Turn =>
      '(handed, queue, h) ← event_run_turn (st_queue s) (st_heap s);
      Some (EventState h (st_config s) queue (st_log s ++ handed))
  end.

Fixpoint event_run (fnmatch : string -> string -> bool) (l : list event_action) (s : event_state) : option event_state :=
  match l with
  | [] => Some s
  | a :: l => s ← event_step fnmatch a s; event_run fnmatch l s
  end.

Definition event_start : event_state := EventState ∅ (EventConfig None []) [] [].

(** ** Locks *)

(** Where the events thread is with a registration that asks another server:
    it holds the registration's lock, and then the configuration's for
    reading; and where the thread is that rereads the configuration: it holds
    that lock for writing, and then the registration's to release it. *)
Inductive event_stage := EventIdle | RegistrationLocked | ConfigRead.
Inductive reread_stage := RereadIdle | ConfigGrabbed | RegistrationReleased.

Inductive lock_step : event_stage * reread_stage -> event_stage * reread_stage -> Prop :=
| ls_try c : c <> RegistrationReleased -> lock_step (EventIdle, c) (RegistrationLocked, c)
| ls_emit : lock_step (RegistrationLocked, RereadIdle) (ConfigRead, RereadIdle)
| ls_next c : lock_step (ConfigRead, c) (EventIdle, c)
| ls_grab e : e <> ConfigRead -> lock_step (e, RereadIdle) (e, ConfigGrabbed)
| ls_release : lock_step (EventIdle, ConfigGrabbed) (EventIdle, RegistrationReleased)
| ls_done e : lock_step (e, RegistrationReleased) (e, RereadIdle).
