(* ===== verification/EventFacts.v ===== *)
(** What the event system promises: events reach the registrations there were
    when they were emitted, each once and in order, however the configuration
    is reread in between; no registration is used after it was freed, and none
    is kept for good.  And what becomes of registrations whose options are not
    as the backends expect. *)

From S2P Require Import Prelude Uri Convert Acl Mounts Refbuf Xml Event.
Local Set Warnings "-clear-no-such-hyp".
Local Open Scope Z_scope.

(** ** The system without the heap *)

Record spec_state := SpecState {
  sp_settings : event_settings;
  sp_queue : list (event_data * list (list registration));
  sp_log : list (event_data * registration)
}.

Section spec.
Variable fnmatch : string -> string -> bool.

Definition spec_find (s : event_settings) (uri : option string) (type : mount_type) : list registration :=
  match find (fun m => mount_matches fnmatch uri type m.1) (es_mounts s) with Some m => m.2 | None => [] end.

(** The lists an event goes to: those that are not empty. *)
Definition spec_lists (s : event_settings) (uri : option string) : list (list registration) :=
  filter (fun l => l <> [])
    [es_global s; (match uri with Some _ => spec_find s uri MOUNT_TYPE_NORMAL | None => [] end);
     spec_find s uri MOUNT_TYPE_DEFAULT].

Definition spec_step (a : event_action) (s : spec_state) : spec_state :=
  match a with
  | Reread new => SpecState new (sp_queue s) (sp_log s)
  | Emit trigger client uri =>
      match spec_lists (sp_settings s) uri with
      | [] => s
      | ls =>
          if (length (sp_queue s) <? EVENT_QUEUE_SIZE)%nat
          then SpecState (sp_settings s) (sp_queue s ++ [(event_data_of trigger client uri, ls)]) (sp_log s)
          else s
      end
  | Turn =>
      match sp_queue s with
      | [] => s
      | (e, ls) :: q =>
          SpecState (sp_settings s) q
            (sp_log s ++ map (pair e) (filter (fun r => rg_trigger r = ev_trigger e) (concat ls)))
      end
  end.

Definition spec_run (l : list event_action) (s : spec_state) : spec_state := foldl (fun s a => spec_step a s) s l.
End spec.

Definition spec_start : spec_state := SpecState (EventSettings [] []) [] [].

(** ** Lists in the heap *)

Definition head_of (l : list (positive * registration)) : option positive := fst <$> hd_error l.

(** The cells of a list, whose first has the count [n]. *)
Fixpoint cells (h : reg_heap) (n : Z) (l : list (positive * registration)) : Prop :=
  match l with
  | [] => True
  | (p, r) :: l' => h !! p = Some (RegCell n (head_of l') r) /\ cells h 1 l'
  end.

Definition ptrs (lists : list (list (positive * registration))) : list positive := (concat lists).*1.

(** The heap holds the lists and nothing else; only their heads are referred
    to, [ext] times, and each is. *)
Record heap_ok (h : reg_heap) (lists : list (list (positive * registration))) (ext : list positive) : Prop := {
  ho_dom : forall p, is_Some (h !! p) -> p ∈ ptrs lists;
  ho_cells : forall l p, l ∈ lists -> head_of l = Some p -> cells h (Z.of_nat (occ p ext)) l;
  ho_nodup : NoDup (ptrs lists);
  ho_used : forall l, l ∈ lists -> exists p, head_of l = Some p /\ p ∈ ext;
  ho_ext : forall p, p ∈ ext -> exists l, l ∈ lists /\ head_of l = Some p
}.

Lemma cells_frame h h' n l :
  (forall p, p ∈ l.*1 -> h' !! p = h !! p) -> cells h n l -> cells h' n l.
Proof.
  revert n. induction l as [|[p r] l IH]; intros n E; [done|]. intros [H C]. split.
  - rewrite E; [done|]. apply elem_of_cons. by left.
  - apply IH; [|done]. intros q I. apply E. apply elem_of_cons. by right.
Qed.

Lemma in_concat_lists {A} (x : A) ls : x ∈ concat ls <-> exists l, l ∈ ls /\ x ∈ l.
Proof.
  induction ls as [|k ls IH]; cbn.
  - split; [by intros []%not_elem_of_nil|]. by intros (l & []%not_elem_of_nil & _).
  - rewrite elem_of_app, IH. split.
    + intros [I|(l & I & J)]; [exists k|exists l]; (split; [|done]); [left|by right].
    + intros (l & [->|I]%elem_of_cons & J); [by left|right; eauto].
Qed.

Lemma ptrs_in lists l p : l ∈ lists -> p ∈ l.*1 -> p ∈ ptrs lists.
Proof.
  intros I (x & -> & J)%list_elem_of_fmap. apply list_elem_of_fmap. exists x. split; [done|].
  apply in_concat_lists. eauto.
Qed.

Lemma head_in l p : head_of l = Some p -> p ∈ l.*1.
Proof. destruct l as [|[q r] l]; [done|]. intros [= ->]. left. Qed.

(** Two lists that share a pointer are the same. *)
Lemma ptrs_same lists l l' p :
  NoDup (ptrs lists) -> l ∈ lists -> l' ∈ lists -> p ∈ l.*1 -> p ∈ l'.*1 -> l = l'.
Proof.
  unfold ptrs. intros N I. revert I N. induction lists as [|k lists IH]; [by intros []%not_elem_of_nil|].
  cbn. rewrite fmap_app. intros I (N1 & N2 & N3)%NoDup_app I' J J'.
  apply elem_of_cons in I as [->|I], I' as [->|I']; [done| | |by eapply IH].
  - destruct (N2 p J). by eapply ptrs_in.
  - destruct (N2 p J'). by eapply ptrs_in.
Qed.

Lemma nodup_list lists l : NoDup (ptrs lists) -> l ∈ lists -> NoDup l.*1.
Proof.
  unfold ptrs. induction lists as [|k lists IH]; [by intros ? []%not_elem_of_nil|].
  cbn. rewrite fmap_app. intros (N1 & N2 & N3)%NoDup_app [->|I]%elem_of_cons; auto.
Qed.

(** A single step on the count of a head. *)
Lemma cells_count h l p n c m :
  cells h n l -> head_of l = Some p -> h !! p = Some c -> NoDup l.*1 ->
  cells (<[p := RegCell m (er_next c) (er_reg c)]> h) m l.
Proof.
  destruct l as [|[q r] l]; [done|]. intros [H C] [= ->] Hc N. rewrite Hc in H. injection H as ->. cbn.
  rewrite lookup_insert_eq. split; [done|]. apply (cells_frame h); [|done].
  intros q I. apply lookup_insert_ne. intros ->. by apply NoDup_cons in N as [N _].
Qed.

Lemma heap_recount h lists p n c ext ext' :
  heap_ok h lists ext -> h !! p = Some c -> p ∈ ext -> p ∈ ext' -> n = Z.of_nat (occ p ext') ->
  (forall q, q <> p -> occ q ext' = occ q ext) -> (forall q, q ∈ ext <-> q ∈ ext') ->
  heap_ok (<[p := RegCell n (er_next c) (er_reg c)]> h) lists ext'.
Proof.
  intros [D C N U E] Hp I I' -> O Q. split.
  - intros q. destruct (decide (p = q)) as [<-|Nq]; [intros _; apply D; eauto|]. rewrite lookup_insert_ne by done. apply D.
  - intros l q Il Hq. destruct (decide (q = p)) as [->|Nq].
    + eapply cells_count; [by eapply C|done|done|by eapply nodup_list].
    + rewrite (O q Nq). apply (cells_frame h); [|by eapply C]. intros x Ix. apply lookup_insert_ne. intros ->.
      destruct (E x I) as (l' & Il' & Hl'). assert (l = l') as ->.
      { eapply ptrs_same; [done..| |by apply head_in]. done. }
      congruence.
  - done.
  - intros l Il. destruct (U l Il) as (q & ? & ?). exists q. split; [done|]. by apply Q.
  - intros q Iq. apply E. by apply Q.
Qed.

Lemma heap_head h lists ext p :
  heap_ok h lists ext -> p ∈ ext -> exists c, h !! p = Some c /\ er_refcount c = Z.of_nat (occ p ext).
Proof.
  intros [D C N U E] I. destruct (E p I) as (l & Il & Hl). specialize (C l p Il Hl).
  destruct l as [|[q r] l]; [done|]. injection Hl as ->. destruct C as [C _]. rewrite C. eauto.
Qed.

Lemma addref_ok h lists ext p :
  heap_ok h lists ext -> p ∈ ext ->
  exists h', event_registration_addref (Some p) h = Some h' /\ heap_ok h' lists (p :: ext).
Proof.
  intros O I. destruct (heap_head _ _ _ _ O I) as (c & Hc & Ec). cbn. rewrite Hc. run_bind.
  eexists. split; [done|]. eapply heap_recount; [exact O|exact Hc|exact I|left| | |].
  - rewrite occ_cons, decide_True by done. lia.
  - intros q N. rewrite occ_cons, decide_False by done. done.
  - intros q. rewrite elem_of_cons. naive_solver.
Qed.

(** *** Releasing *)

Definition remove (h : reg_heap) (l : list (positive * registration)) : reg_heap :=
  foldr (fun q h => delete q h) h l.*1.

Lemma lookup_remove h l q : remove h l !! q = if decide (q ∈ l.*1) then None else h !! q.
Proof.
  unfold remove. induction l.*1 as [|x k IH]; cbn [foldr].
  { case_decide as D; [by apply not_elem_of_nil in D|done]. }
  destruct (decide (x = q)) as [->|N].
  - rewrite lookup_delete_eq, decide_True by left. done.
  - rewrite lookup_delete_ne, IH by done. repeat case_decide; set_solver.
Qed.

Lemma release_fuel_chain l fuel h :
  cells h 1 l -> NoDup l.*1 -> (length l < fuel)%nat -> release_fuel fuel (head_of l) h = Some (remove h l).
Proof.
  revert fuel h. induction l as [|[p r] l IH]; intros [|fuel] h C N F; cbn in F; try lia; [done|].
  destruct C as [H C]. apply NoDup_cons in N as [Np N]. cbn [head_of hd_error fmap option_fmap option_map fst].
  cbn [release_fuel]. rewrite H. run_bind. cbn [er_refcount er_next er_reg]. change (1 - 1 =? 0) with true. cbn iota.
  rewrite IH; [|apply (cells_frame h); [|done]|done|lia].
  - run_bind. f_equal. apply map_eq. intros q. destruct (decide (p = q)) as [<-|D].
    + rewrite lookup_delete_eq, lookup_remove, decide_True; [done|]. cbn. left.
    + rewrite lookup_delete_ne, !lookup_remove, lookup_insert_ne by done. cbn.
      repeat case_decide; set_solver.
  - intros q I. apply lookup_insert_ne. by intros ->.
Qed.

Lemma cells_alive h n l q : cells h n l -> q ∈ l.*1 -> is_Some (h !! q).
Proof.
  revert n. induction l as [|[x r] l IH]; intros n; cbn; [by intros _ []%not_elem_of_nil|].
  intros [H C] [->|I]%elem_of_cons; eauto.
Qed.

Lemma heap_size h lists ext l : heap_ok h lists ext -> l ∈ lists -> (length l <= size h)%nat.
Proof.
  intros [D C N U E] I. rewrite <- (length_fmap fst), <- size_dom.
  destruct (U l I) as (p & Hp & Ip). specialize (C l p I Hp).
  rewrite <- (size_list_to_set (C := gset positive) l.*1) by by eapply nodup_list.
  apply subseteq_size. intros q Iq%elem_of_list_to_set. apply elem_of_dom. by eapply cells_alive.
Qed.

(** The lists that are left when only [ext] refers to them. *)
Definition held (ext : list positive) (l : list (positive * registration)) : bool :=
  match head_of l with Some p => bool_decide (p ∈ ext) | None => false end.
Definition kept (ext : list positive) (lists : list (list (positive * registration))) :
    list (list (positive * registration)) :=
  filter (fun l => held ext l = true) lists.

Lemma held_spec ext l : held ext l = true <-> exists p, head_of l = Some p /\ p ∈ ext.
Proof. unfold held. destruct (head_of l); [rewrite bool_decide_eq_true|]; naive_solver. Qed.

Lemma elem_of_kept ext lists l : l ∈ kept ext lists <-> held ext l = true /\ l ∈ lists.
Proof. unfold kept. by rewrite list_elem_of_filter. Qed.

Lemma filter_all {A} (P : A -> Prop) `{!forall x, Decision (P x)} (l : list A) :
  (forall x, x ∈ l -> P x) -> filter P l = l.
Proof.
  induction l as [|x l IH]; intros Hl; [done|]. rewrite filter_cons, decide_True by (apply Hl; left).
  rewrite IH; [done|]. intros y I. apply Hl. by right.
Qed.

Lemma kept_all h lists ext : heap_ok h lists ext -> kept ext lists = lists.
Proof.
  intros O. unfold kept. apply filter_all. intros l I. apply held_spec. by apply (ho_used _ _ _ O).
Qed.

Lemma ptrs_filter (P : list (positive * registration) -> Prop) `{!forall l, Decision (P l)} lists :
  NoDup (ptrs lists) -> NoDup (ptrs (filter P lists)).
Proof.
  unfold ptrs. induction lists as [|l lists IH]; [done|]. rewrite filter_cons. cbn [concat]. rewrite fmap_app.
  intros (N1 & N2 & N3)%NoDup_app. case_decide; [|by apply IH].
  cbn. rewrite fmap_app. apply NoDup_app. split_and!; [done| |by apply IH].
  intros x I (y & -> & (k & K & J)%in_concat_lists)%list_elem_of_fmap.
  apply list_elem_of_filter in K as [_ K]. destruct (N2 y.1 I). apply list_elem_of_fmap. exists y.
  split; [done|]. apply in_concat_lists. eauto.
Qed.

Lemma release_ok h lists ext p :
  heap_ok h lists (p :: ext) ->
  exists h', event_registration_release (Some p) h = Some h' /\ heap_ok h' (kept ext lists) ext.
Proof.
  intros O. destruct (heap_head h lists (p :: ext) p O ltac:(left)) as (c & Hc & Ec).
  rewrite occ_cons, decide_True in Ec by done. destruct (decide (p ∈ ext)) as [I|I].
  - unfold event_registration_release. cbn [release_fuel]. rewrite Hc. run_bind.
    pose proof (occ_in p ext I). destruct (Z.eqb_spec (er_refcount c - 1) 0) as [Z0|_]; [lia|].
    eexists. split; [done|]. assert (heap_ok (<[p:=RegCell (er_refcount c - 1) (er_next c) (er_reg c)]> h) lists ext) as O'.
    { eapply heap_recount; [done|done|left|done|lia| |].
      - intros q N. rewrite occ_cons, decide_False by done. done.
      - intros q. rewrite elem_of_cons. naive_solver. }
    by rewrite (kept_all _ _ _ O').
  - rewrite occ_not_in in Ec by done. destruct O as [D C N U E].
    destruct (E p ltac:(left)) as (l & Il & Hl). pose proof (C l p Il Hl) as Cl.
    rewrite occ_cons, decide_True, occ_not_in in Cl by done.
    pose proof (nodup_list lists l N Il) as Nl. exists (remove h l). split.
    { unfold event_registration_release. rewrite <- Hl. apply release_fuel_chain; [done|done|].
      pose proof (heap_size h lists _ l (Build_heap_ok _ _ _ D C N U E) Il). lia. }
    assert (forall l', l' ∈ kept ext lists <-> l' ∈ lists /\ l' <> l) as K.
    { intros l'. rewrite elem_of_kept, held_spec. split.
      - intros [(q & Hq & Iq) Il']. split; [done|]. intros ->. congruence.
      - intros [Il' Nl']. split; [|done]. destruct (U l' Il') as (q & Hq & Iq). exists q. split; [done|].
        apply elem_of_cons in Iq as [->|Iq]; [|done]. destruct Nl'.
        eapply ptrs_same; [done..| |]; by apply head_in. }
    split.
    + intros q. rewrite lookup_remove. case_decide as Dq; [by intros []|]. intros Hq. apply D in Hq.
      apply list_elem_of_fmap in Hq as (x & -> & (k & Ik & Ix)%in_concat_lists). apply (ptrs_in _ k).
      { apply K. split; [done|]. intros ->. destruct Dq. apply list_elem_of_fmap. eauto. }
      apply list_elem_of_fmap. eauto.
    + intros l' q [Il' Nl']%K Hq. apply (cells_frame h).
      * intros x Ix. rewrite lookup_remove, decide_False; [done|]. intros Jx. destruct Nl'. by eapply ptrs_same.
      * specialize (C l' q Il' Hq). rewrite occ_cons in C. case_decide as Dq; [|done]. subst q. destruct Nl'.
        eapply ptrs_same; [done..| |]; by apply head_in.
    + by apply ptrs_filter.
    + intros l' [Hq _]%elem_of_kept. by apply held_spec.
    + intros q Iq. destruct (E q ltac:(by right)) as (k & Ik & Hk). exists k. split; [|done].
      apply K. split; [done|]. intros ->. congruence.
Qed.

(** *** Building a list *)

(** A list that is being built, and the others. *)
Definition with_list (b : list (positive * registration)) (rest : list (list (positive * registration))) :
    list (list (positive * registration)) :=
  match b with [] => rest | _ => b :: rest end.

Lemma last_registration_ok h n b0 x r fuel :
  cells h n (b0 ++ [(x, r)]) -> (length b0 < fuel)%nat ->
  exists p, head_of (b0 ++ [(x, r)]) = Some p /\ last_registration fuel p h = Some x.
Proof.
  revert n fuel. induction b0 as [|[q s] b0 IH]; intros n [|fuel] C F; cbn in F; try lia.
  - exists x. split; [done|]. destruct C as [C _]. cbn. by rewrite C.
  - destruct C as [H C]. exists q. split; [done|]. cbn [last_registration]. rewrite H. run_bind. cbn [er_next].
    destruct (IH 1 fuel C ltac:(lia)) as (p & Hp & L). fold (app b0 [(x, r)]). by rewrite Hp.
Qed.

Lemma cells_snoc h n b0 x r c p r' :
  cells h n (b0 ++ [(x, r)]) -> NoDup ((b0 ++ [(x, r)]).*1) -> p ∉ (b0 ++ [(x, r)]).*1 -> h !! x = Some c ->
  cells (<[p := RegCell 1 None r']> (<[x := RegCell (er_refcount c) (Some p) (er_reg c)]> h)) n
    ((b0 ++ [(x, r)]) ++ [(p, r')]).
Proof.
  revert n. induction b0 as [|[q s] b0 IH]; intros n C N Np Hx.
  - destruct C as [C _]. rewrite C in Hx. injection Hx as <-. cbn in *. apply not_elem_of_cons in Np as [Np _].
    rewrite lookup_insert_ne, !lookup_insert_eq by congruence. done.
  - destruct C as [H C]. cbn in N, Np. apply NoDup_cons in N as [Nq N]. apply not_elem_of_cons in Np as [Npq Np].
    specialize (IH 1 C N Np Hx). split; [|done].
    rewrite !lookup_insert_ne; [by rewrite H; destruct b0| |congruence].
    intros ->. destruct Nq. rewrite fmap_app. apply elem_of_app. right. left.
Qed.

Lemma ptrs_cons b rest : ptrs (b :: rest) = b.*1 ++ ptrs rest.
Proof. unfold ptrs. cbn. by rewrite fmap_app. Qed.

(** A cell that was just made, once it is pushed and released. *)
Lemma release_second h p r :
  event_registration_release (Some p) (<[p := RegCell 2 None r]> h) = Some (<[p := RegCell 1 None r]> h).
Proof.
  unfold event_registration_release. cbn [release_fuel]. rewrite lookup_insert_eq. run_bind. cbn.
  by rewrite insert_insert_eq.
Qed.

Lemma push_new_first h rest ext r p :
  heap_ok h rest ext -> p ∉ dom h -> heap_ok (<[p := RegCell 1 None r]> h) ([(p, r)] :: rest) (p :: ext).
Proof.
  intros O Np. assert (h !! p = None) as Hp by by apply not_elem_of_dom. destruct O as [D C N U E].
  assert (p ∉ ptrs rest) as Npr.
  { intros (x & -> & (k & Ik & Ix)%in_concat_lists)%list_elem_of_fmap. destruct (U k Ik) as (q & Hq & _).
    destruct (cells_alive h _ k x.1 (C k q Ik Hq)) as [? ?]; [|congruence]. apply list_elem_of_fmap. eauto. }
  assert (p ∉ ext) as Npe.
  { intros I. destruct (E p I) as (l & Il & Hl). destruct Npr. eapply ptrs_in; [done|by apply head_in]. }
  split.
  - intros q. rewrite ptrs_cons. destruct (decide (p = q)) as [<-|Nq]; [intros _; left|].
    rewrite lookup_insert_ne by done. intros Hq%D. by right.
  - intros l q [->|Il]%elem_of_cons Hq.
    + injection Hq as <-. rewrite occ_cons, decide_True, occ_not_in by done. cbn. by rewrite lookup_insert_eq.
    + rewrite occ_cons. case_decide as Dq; [subst q; destruct Npr; eapply ptrs_in; [done|by apply head_in]|].
      apply (cells_frame h); [|by apply C]. intros x Ix. apply lookup_insert_ne. intros ->. destruct Npr.
      by eapply ptrs_in.
  - rewrite ptrs_cons. cbn. apply NoDup_cons. done.
  - intros l [->|Il]%elem_of_cons; [exists p; split; [done|left]|]. destruct (U l Il) as (q & ? & ?).
    exists q. split; [done|by right].
  - intros q [->|Iq]%elem_of_cons; [exists [(p, r)]; split; [left|done]|]. destruct (E q Iq) as (l & ? & ?).
    exists l. split; [by right|done].
Qed.

Lemma head_app b k : b <> [] -> head_of (b ++ k) = head_of b.
Proof. by destruct b. Qed.

Lemma push_new_next h rest ext b0 x rx q c r p :
  heap_ok h ((b0 ++ [(x, rx)]) :: rest) (q :: ext) -> head_of (b0 ++ [(x, rx)]) = Some q -> q ∉ ext ->
  h !! x = Some c -> p ∉ dom h ->
  heap_ok (<[p := RegCell 1 None r]> (<[x := RegCell (er_refcount c) (Some p) (er_reg c)]> h))
    (((b0 ++ [(x, rx)]) ++ [(p, r)]) :: rest) (q :: ext).
Proof.
  intros O Hq Nqe Hx Np. assert (h !! p = None) as Hp by by apply not_elem_of_dom. destruct O as [D C N U E].
  set (b := b0 ++ [(x, rx)]) in *.
  assert (b <> []) as Nb by (by destruct b0).
  assert (x ∈ b.*1) as Ix by (unfold b; rewrite fmap_app; apply elem_of_app; right; left).
  assert (forall l y, l ∈ b :: rest -> y ∈ l.*1 -> y <> p) as Al.
  { intros l y Il Iy ->. destruct (U l Il) as (z & Hz & _).
    destruct (cells_alive h _ l p (C l z Il Hz) Iy) as [? ?]. congruence. }
  rewrite ptrs_cons in N. pose proof N as (N1 & N2 & N3)%NoDup_app.
  assert (forall l y, l ∈ rest -> y ∈ l.*1 -> y <> x) as Ar.
  { intros l y Il Iy ->. apply (N2 x Ix). by eapply ptrs_in. }
  split.
  - intros y. rewrite ptrs_cons, fmap_app, !elem_of_app. destruct (decide (p = y)) as [<-|Ny]; [intros _; left; right; left|].
    rewrite lookup_insert_ne by done. intros Hy. assert (is_Some (h !! y)) as Hy'.
    { destruct (decide (x = y)) as [<-|]; [eauto|]. by rewrite lookup_insert_ne in Hy by done. }
    apply D in Hy'. rewrite ptrs_cons, elem_of_app in Hy'. tauto.
  - intros l y [->|Il]%elem_of_cons Hy.
    + rewrite head_app in Hy by done. apply cells_snoc; [|done| |done].
      * apply C; [left|done].
      * intros I. by destruct (Al b p ltac:(left) I).
    + apply (cells_frame h); [|apply C; [by right|done]]. intros z Iz.
      rewrite !lookup_insert_ne; [done| |].
      * intros <-. by destruct (Ar l x Il Iz).
      * intros <-. by destruct (Al l p ltac:(by right) Iz).
  - rewrite ptrs_cons, fmap_app. cbn. rewrite <- app_assoc. cbn. apply NoDup_app. split_and!; [done| |].
    + intros y Iy [->|Jy]%elem_of_cons; [by destruct (Al b p ltac:(left) Iy)|by apply (N2 y)].
    + apply NoDup_cons. split; [|done]. intros (z & -> & (k & Ik & Iz)%in_concat_lists)%list_elem_of_fmap.
      apply (Al k z.1); [by right| |done]. apply list_elem_of_fmap. eauto.
  - intros l [->|Il]%elem_of_cons; [exists q; rewrite head_app by done; split; [done|left]|]. apply U. by right.
  - intros y Iy. destruct (E y Iy) as (l & [->|Il]%elem_of_cons & Hl).
    + exists (b ++ [(p, r)]). rewrite head_app by done. split; [left|done].
    + exists l. split; [by right|done].
Qed.

Lemma push_new_ok h rest ext b r :
  heap_ok h (with_list b rest) (option_list (head_of b) ++ ext) ->
  (forall q, head_of b = Some q -> q ∉ ext) ->
  exists p h', push_new (head_of b) r h = Some (head_of (b ++ [(p, r)]), h') /\ (p ∉ ext) /\
    heap_ok h' (with_list (b ++ [(p, r)]) rest) (option_list (head_of (b ++ [(p, r)])) ++ ext).
Proof.
  intros O Nh. set (p := fresh (dom h)). assert (p ∉ dom h) as Np by apply is_fresh.
  assert (p ∉ ext) as Npe.
  { intros I. destruct (heap_head h _ _ p O) as (c & Hc & _); [apply elem_of_app; by right|].
    apply Np, elem_of_dom. eauto. }
  exists p. unfold push_new. fold p.
  destruct (decide (b = [])) as [->|Nb].
  - cbn [head_of hd_error fmap option_fmap option_map event_registration_push event_registration_addref].
    rewrite lookup_insert_eq. run_bind. cbn [er_refcount er_next er_reg]. rewrite insert_insert_eq.
    change (1 + 1) with 2. rewrite release_second. run_bind. eexists. split; [done|]. split; [done|].
    cbn [app with_list head_of hd_error fmap option_fmap option_map fst option_list]. by apply push_new_first.
  - destruct (exists_last Nb) as (b0 & [x rx] & ->).
    destruct (head_of (b0 ++ [(x, rx)])) as [q|] eqn:Hq; [|by destruct b0].
    assert (with_list (b0 ++ [(x, rx)]) rest = (b0 ++ [(x, rx)]) :: rest) as W by (by destruct b0).
    assert (with_list ((b0 ++ [(x, rx)]) ++ [(p, r)]) rest = ((b0 ++ [(x, rx)]) ++ [(p, r)]) :: rest) as W'
      by (by destruct b0).
    rewrite W in O. cbn [option_list app] in O.
    pose proof (ho_cells _ _ _ O _ q ltac:(left) Hq) as C.
    assert (x ∈ (b0 ++ [(x, rx)]).*1) as Ix by (rewrite fmap_app; apply elem_of_app; right; left).
    destruct (cells_alive _ _ _ _ C Ix) as [c Hc].
    assert (x <> p) as Nxp by (intros ->; apply Np, elem_of_dom; eauto).
    destruct (last_registration_ok (<[p := RegCell 1 None r]> h) (Z.of_nat (occ q (q :: ext))) b0 x rx
                (S (size (<[p := RegCell 1 None r]> h)))) as (q' & Hq' & L).
    { apply (cells_frame h); [|done]. intros y Iy. apply lookup_insert_ne. intros <-.
      apply Np, elem_of_dom. by eapply cells_alive. }
    { rewrite map_size_insert_None by by apply not_elem_of_dom.
      pose proof (heap_size _ _ _ _ O ltac:(left)) as S. rewrite length_app in S. cbn in S. lia. }
    rewrite Hq in Hq'. injection Hq' as <-.
    unfold event_registration_push. rewrite L. run_bind. rewrite lookup_insert_ne, Hc by congruence. run_bind.
    cbn [event_registration_addref]. rewrite lookup_insert_ne, lookup_insert_eq by congruence. run_bind.
    cbn [er_refcount er_next er_reg]. change (1 + 1) with 2. rewrite release_second. run_bind.
    rewrite head_app, Hq by done. eexists. split; [done|]. split; [done|]. rewrite W'. cbn [option_list app].
    rewrite insert_insert_ne by congruence. rewrite insert_insert_eq.
    rewrite insert_insert_ne by congruence. eapply push_new_next; [exact O|done|by apply Nh|done..].
Qed.

(** ** Reading lists *)

(** What a list referred to holds. *)
Definition reads (lists : list (list (positive * registration))) (er : option positive) (regs : list registration) : Prop :=
  match er with
  | None => regs = []
  | Some p => exists l, l ∈ lists /\ head_of l = Some p /\ l.*2 = regs
  end.

Lemma reads_mono lists lists' er regs :
  (forall l, l ∈ lists -> l ∈ lists') -> reads lists er regs -> reads lists' er regs.
Proof. destruct er; [|done]. intros S (l & I & ?). exists l. auto. Qed.

Lemma reads_kept lists ext p regs : p ∈ ext -> reads lists (Some p) regs -> reads (kept ext lists) (Some p) regs.
Proof.
  intros I (l & Il & Hl & R). exists l. split; [|done]. apply elem_of_kept. split; [|done].
  apply held_spec. eauto.
Qed.

Lemma reads_none lists er regs : reads lists er regs -> (er = None <-> regs = []).
Proof. destruct er as [p|]; [|done]. intros ([|[q r] l] & Il & Hl & <-); done. Qed.

Lemma occ_perm x l k : l ≡ₚ k -> occ x l = occ x k.
Proof. unfold occ. intros P. by rewrite P. Qed.

Lemma heap_ok_perm h lists ext ext' : ext ≡ₚ ext' -> heap_ok h lists ext -> heap_ok h lists ext'.
Proof.
  intros P [D C N U E]. split; [done| |done|..].
  - intros l p I Hp. rewrite <- (occ_perm p ext ext' P). auto.
  - intros l I. destruct (U l I) as (p & ? & ?). exists p. by rewrite <- P.
  - intros p. rewrite <- P. apply E.
Qed.

Lemma kept_kept ext ext' lists :
  (forall p, p ∈ ext -> p ∈ ext') -> kept ext (kept ext' lists) = kept ext lists.
Proof.
  intros S. unfold kept. rewrite list_filter_filter_l; [done|]. intros l. rewrite !held_spec.
  intros (p & ? & ?). eauto.
Qed.

Lemma release_lists_ok ps h lists ext :
  heap_ok h lists (ps ++ ext) ->
  exists h', release_lists ps h = Some h' /\ heap_ok h' (kept ext lists) ext.
Proof.
  revert h lists. induction ps as [|p ps IH]; intros h lists O.
  - exists h. split; [done|]. by rewrite (kept_all h lists ext O).
  - destruct (release_ok h lists (ps ++ ext) p O) as (h1 & E1 & O1). cbn [release_lists]. rewrite E1. run_bind.
    destruct (IH _ _ O1) as (h2 & E2 & O2). exists h2. split; [done|].
    rewrite kept_kept in O2; [done|]. intros q I. apply elem_of_app. by right.
Qed.

Definition heads (ers : list (option positive)) : list positive := concat (option_list <$> ers).

Lemma clear_lists_release ers h : clear_lists ers h = release_lists (heads ers) h.
Proof.
  revert h. induction ers as [|[p|] ers IH]; intros h; [done|..]; cbn.
  - destruct (event_registration_release (Some p) h); [apply IH|done].
  - apply IH.
Qed.

Lemma try_registrations_ok l h n fuel e :
  cells h n l -> (length l <= fuel)%nat ->
  try_registrations fuel (head_of l) e h = Some (filter (fun r => rg_trigger r = ev_trigger e) l.*2).
Proof.
  revert n fuel. induction l as [|[p r] l IH]; intros n fuel C F; [by destruct fuel|].
  destruct fuel as [|fuel]; [cbn in F; lia|]. cbn in F. destruct C as [H C].
  cbn [head_of hd_error fmap option_fmap option_map fst try_registrations]. rewrite H. run_bind. cbn [er_next er_reg].
  rewrite (IH 1) by (done || lia). run_bind. f_equal. cbn [fmap list_fmap snd]. rewrite filter_cons.
  destruct (streq (rg_trigger r) (ev_trigger e)) eqn:S.
  - apply streq_eq in S. by rewrite decide_True.
  - rewrite decide_False; [done|]. intros Q. apply streq_eq in Q. congruence.
Qed.

Lemma try_lists_ok ps regss h lists ext e :
  heap_ok h lists ext -> (forall p, p ∈ ps -> p ∈ ext) -> Forall2 (fun p => reads lists (Some p)) ps regss ->
  try_lists ps e h = Some (filter (fun r => rg_trigger r = ev_trigger e) (concat regss)).
Proof.
  intros O. revert regss. induction ps as [|p ps IH]; intros regss I R; apply Forall2_cons_inv_l in R || apply Forall2_nil_inv_l in R.
  - by subst.
  - destruct R as (regs & regss' & (l & Il & Hl & <-) & R & ->). cbn [try_lists].
    rewrite <- Hl, (try_registrations_ok l h (Z.of_nat (occ p ext))); [|by eapply ho_cells|].
    + run_bind. rewrite (IH regss') by (done || (intros q J; apply I; by right)). run_bind.
      cbn. by rewrite filter_app.
    + pose proof (heap_size _ _ _ _ O Il). lia.
Qed.

(** ** Loading a configuration *)

Lemma push_all_ok regs h rest ext b :
  heap_ok h (with_list b rest) (option_list (head_of b) ++ ext) -> (forall q, head_of b = Some q -> q ∉ ext) ->
  exists b' h', push_all (head_of b) regs h = Some (head_of b', h') /\ b'.*2 = b.*2 ++ regs /\
    heap_ok h' (with_list b' rest) (option_list (head_of b') ++ ext).
Proof.
  revert h b. induction regs as [|r regs IH]; intros h b O Nb.
  - exists b, h. by rewrite app_nil_r.
  - destruct (push_new_ok h rest ext b r O Nb) as (p & h1 & E1 & Np & O1). cbn [push_all]. rewrite E1. run_bind.
    destruct (IH h1 (b ++ [(p, r)]) O1) as (b' & h2 & E2 & R2 & O2).
    { intros q. destruct b; [by intros [= <-]|]. apply Nb. }
    exists b', h2. split_and!; [done| |done]. rewrite R2, fmap_app, <- app_assoc. done.
Qed.

Lemma push_all_new regs h lists ext :
  heap_ok h lists ext ->
  exists er h' lists', push_all None regs h = Some (er, h') /\ heap_ok h' lists' (option_list er ++ ext) /\
    reads lists' er regs /\ (forall l, l ∈ lists -> l ∈ lists').
Proof.
  intros O. destruct (push_all_ok regs h lists ext [] O) as (b & h' & E & R & O'); [done|].
  exists (head_of b), h', (with_list b lists). split_and!; [done|done| |].
  - destruct b as [|[p r] b]; [done|]. exists ((p, r) :: b). split; [left|]. split; [done|exact R].
  - intros l I. destruct b; [done|by right].
Qed.

Definition reps (lists : list (list (positive * registration))) (c : event_config) (s : event_settings) : Prop :=
  reads lists (ec_global c) (es_global s) /\
  Forall2 (fun cm sm => cm.1 = sm.1 /\ reads lists cm.2 sm.2) (ec_mounts c) (es_mounts s).

Lemma reps_mono lists lists' c s :
  (forall l, l ∈ lists -> l ∈ lists') -> reps lists c s -> reps lists' c s.
Proof.
  intros S [R1 R2]. split; [by eapply reads_mono|]. eapply Forall2_impl; [done|].
  intros x y [? ?]. split; [done|]. by eapply reads_mono.
Qed.

Lemma load_mounts_ok l h lists ext :
  heap_ok h lists ext ->
  exists ms h' lists', load_mounts l h = Some (ms, h') /\ heap_ok h' lists' (heads (snd <$> ms) ++ ext) /\
    Forall2 (fun cm sm => cm.1 = sm.1 /\ reads lists' cm.2 sm.2) ms l /\ (forall k, k ∈ lists -> k ∈ lists').
Proof.
  revert h lists ext. induction l as [|[m regs] l IH]; intros h lists ext O.
  - exists [], h, lists. done.
  - destruct (push_all_new regs h lists ext O) as (er & h1 & l1 & E1 & O1 & R1 & S1). cbn [load_mounts].
    rewrite E1. run_bind. destruct (IH h1 l1 _ O1) as (ms & h2 & l2 & E2 & O2 & R2 & S2). rewrite E2. run_bind.
    exists ((m, er) :: ms), h2, l2. split_and!; [done| | |auto].
    + eapply heap_ok_perm; [|done]. unfold heads. cbn. rewrite !app_assoc. by rewrite (Permutation_app_comm (option_list er)).
    + constructor; [|done]. split; [done|]. by eapply reads_mono.
Qed.

Definition config_heads (c : event_config) : list positive := heads (ec_global c :: (snd <$> ec_mounts c)).

Lemma load_settings_ok s h lists ext :
  heap_ok h lists ext ->
  exists c h' lists', load_settings s h = Some (c, h') /\ heap_ok h' lists' (config_heads c ++ ext) /\
    reps lists' c s /\ (forall k, k ∈ lists -> k ∈ lists').
Proof.
  intros O. destruct (push_all_new (es_global s) h lists ext O) as (g & h1 & l1 & E1 & O1 & R1 & S1).
  destruct (load_mounts_ok (es_mounts s) h1 l1 _ O1) as (ms & h2 & l2 & E2 & O2 & R2 & S2).
  exists (EventConfig g ms), h2, l2. unfold load_settings. rewrite E1. run_bind. rewrite E2. run_bind.
  split_and!; [done| | |auto].
  - eapply heap_ok_perm; [|done]. unfold config_heads, heads. cbn. rewrite !app_assoc.
    by rewrite (Permutation_app_comm (option_list g)).
  - split; [by eapply reads_mono|done].
Qed.

(** ** The steps *)

Definition queue_heads (q : list event) : list positive := concat (e_reglist <$> q).

(** The state [s] does what [sp] says. *)
Record follows (s : event_state) (sp : spec_state) (lists : list (list (positive * registration))) : Prop := {
  fo_heap : heap_ok (st_heap s) lists (config_heads (st_config s) ++ queue_heads (st_queue s));
  fo_config : reps lists (st_config s) (sp_settings sp);
  fo_queue : Forall2 (fun e q => e_data e = q.1 /\ Forall2 (fun p => reads lists (Some p)) (e_reglist e) q.2)
               (st_queue s) (sp_queue sp);
  fo_log : st_log s = sp_log sp;
  fo_size : (length (st_queue s) <= EVENT_QUEUE_SIZE)%nat
}.

Lemma push_lists_ok ers regss h lists ext e :
  heap_ok h lists ext -> (forall p, p ∈ heads ers -> p ∈ ext) -> Forall2 (reads lists) ers regss ->
  (length (e_reglist e) + length ers <= MAX_REGLISTS_PER_EVENT)%nat ->
  exists ps h', push_lists ers e h = Some (Event (e_data e) (e_reglist e ++ ps), h') /\
    heap_ok h' lists (ps ++ ext) /\ Forall2 (fun p => reads lists (Some p)) ps (filter (fun l => l <> []) regss).
Proof.
  revert regss h ext e. induction ers as [|er ers IH]; intros regss h ext e O I R L.
  - apply Forall2_nil_inv_l in R as ->. exists [], h. rewrite app_nil_r. by destruct e.
  - apply Forall2_cons_inv_l in R as (regs & regss' & R & Rs & ->). rewrite filter_cons. cbn [push_lists].
    pose proof (reads_none _ _ _ R) as Nn. destruct er as [p|].
    + rewrite decide_True by (intros Q; by apply Nn in Q). cbn [event_push_reglist]. cbn [length] in L.
      destruct (Nat.ltb_spec (length (e_reglist e)) MAX_REGLISTS_PER_EVENT) as [_|]; [|lia].
      destruct (addref_ok h lists ext p O) as (h1 & E1 & O1); [apply I; left|]. rewrite E1. run_bind.
      destruct (IH regss' h1 (p :: ext) (Event (e_data e) (e_reglist e ++ [p])) O1) as (ps & h2 & E2 & O2 & R2).
      { intros q J. right. apply I. by right. }
      { done. }
      { cbn. rewrite length_app. cbn. lia. }
      rewrite E2. exists (p :: ps), h2. cbn [e_data e_reglist]. split_and!.
      * by rewrite <- app_assoc.
      * eapply heap_ok_perm; [|done]. cbn. by rewrite Permutation_middle.
      * by constructor.
    + rewrite decide_False by (intros Q; by apply Q, Nn). cbn [event_push_reglist]. run_bind.
      apply IH; [done|done|done|]. cbn in L. lia.
Qed.

Lemma find_reads lists ms l fnmatch uri type :
  Forall2 (fun cm sm => cm.1 = sm.1 /\ reads lists cm.2 sm.2) ms l ->
  reads lists
    (match find (fun m => mount_matches fnmatch uri type m.1) ms with Some m => m.2 | None => None end)
    (match find (fun m => mount_matches fnmatch uri type m.1) l with Some m => m.2 | None => [] end).
Proof.
  induction 1 as [|[m er] [m' regs] ms l [E R] _ IH]; [done|]. cbn in E. subst m'. cbn [find fst].
  destruct (mount_matches fnmatch uri type m); [done|exact IH].
Qed.

Lemma find_head ms fnmatch uri type p :
  match find (fun m => mount_matches fnmatch uri type m.1) ms with Some m => m.2 | None => None end = Some p ->
  p ∈ heads (snd <$> ms : list (option positive)).
Proof.
  induction ms as [|[m er] ms IH]; [done|]. cbn [find fst]. intros H. unfold heads. cbn. apply elem_of_app.
  destruct (mount_matches fnmatch uri type m); [|right; by apply IH]. left. cbn in H. subst er. left.
Qed.

Section step.
Variable fnmatch : string -> string -> bool.

Lemma event_lists_ok lists c s uri :
  reps lists c s ->
  Forall2 (reads lists) (event_lists fnmatch c uri)
    [es_global s; (match uri with Some _ => spec_find fnmatch s uri MOUNT_TYPE_NORMAL | None => [] end);
     spec_find fnmatch s uri MOUNT_TYPE_DEFAULT] /\
  (forall p, p ∈ heads (event_lists fnmatch c uri) -> p ∈ config_heads c).
Proof.
  intros [R1 R2]. split.
  - unfold event_lists. constructor; [done|]. constructor; [|constructor; [|done]].
    + destruct uri; [|done]. by apply find_reads.
    + by apply find_reads.
  - unfold event_lists, config_heads, heads, find_mount_events. cbn. rewrite app_nil_r.
    intros p. rewrite !elem_of_app. intros [I|[I|I]]; [by left|right..].
    + destruct uri; [|by apply not_elem_of_nil in I]. apply (find_head _ fnmatch (Some s0) MOUNT_TYPE_NORMAL).
      destruct (find _ _) as [[m [q|]]|]; try (by apply not_elem_of_nil in I). cbn in *. set_solver.
    + apply (find_head _ fnmatch uri MOUNT_TYPE_DEFAULT).
      destruct (find _ _) as [[m [q|]]|]; try (by apply not_elem_of_nil in I). cbn in *. set_solver.
Qed.

Lemma emit_ok s sp lists trigger client uri :
  follows s sp lists ->
  exists s' lists', event_step fnmatch (Emit trigger client uri) s = Some s' /\
    follows s' (spec_step fnmatch (Emit trigger client uri) sp) lists'.
Proof.
  intros [O C Q L Z]. destruct (event_lists_ok lists _ _ uri C) as [R I].
  destruct (push_lists_ok _ _ (st_heap s) lists _ (Event (event_data_of trigger client uri) []) O
              ltac:(intros p J; apply elem_of_app; left; by apply I) R) as (ps & h1 & E1 & O1 & R1).
  { cbn. unfold MAX_REGLISTS_PER_EVENT. lia. }
  cbn [event_step]. unfold event_emit_clientevent. rewrite E1. run_bind. cbn [e_reglist e_data app].
  cbn [spec_step]. unfold spec_lists. destruct ps as [|p ps].
  - apply Forall2_nil_inv_l in R1. rewrite R1. run_bind. eexists _, lists. split; [done|]. by split.
  - pose proof R1 as (regs & regss & _ & _ & Er)%Forall2_cons_inv_l. rewrite Er in R1 |- *. unfold event_push.
    rewrite <- (Forall2_length _ _ _ Q).
    destruct (Nat.ltb_spec (length (st_queue s)) EVENT_QUEUE_SIZE) as [Lt|_].
    + run_bind. eexists _, lists. split; [done|].
      split; cbn [st_heap st_config st_queue st_log sp_settings sp_queue sp_log]; [|done| |done|].
      * unfold queue_heads. rewrite fmap_app, concat_app. cbn [fmap list_fmap concat e_reglist]. rewrite app_nil_r.
        eapply heap_ok_perm; [|exact O1]. rewrite (app_assoc (config_heads _)). apply Permutation_app_comm.
      * apply Forall2_app; [done|]. by constructor.
      * rewrite length_app. cbn. lia.
    + destruct (release_lists_ok _ _ _ _ O1) as (h2 & E2 & O2). cbn [event_push_reglist] in *. cbn [e_reglist].
      rewrite E2. run_bind. eexists _, lists. split; [done|].
      rewrite (kept_all (st_heap s) lists _ O) in O2. by split.
Qed.

Lemma reps_kept lists c s ext : (forall p, p ∈ config_heads c -> p ∈ ext) -> reps lists c s -> reps (kept ext lists) c s.
Proof.
  unfold config_heads, heads. intros I [R1 R2]. split.
  - destruct (ec_global c) as [p|]; [|done]. apply reads_kept; [|done]. apply I. left.
  - assert (forall p, p ∈ heads (snd <$> ec_mounts c : list (option positive)) -> p ∈ ext) as J.
    { intros p Ip. apply I. cbn. apply elem_of_app. by right. }
    clear I R1. unfold heads in J. induction R2 as [|[m er] [m' regs] ms l [E R] _ IH]; [constructor|].
    constructor.
    + split; [done|]. cbn in *. destruct er as [p|]; [|done]. apply reads_kept; [|done]. apply J. left.
    + apply IH. intros p Ip. apply J. cbn. apply elem_of_app. by right.
Qed.

Lemma queue_kept lists q (sq : list (event_data * list (list registration))) ext :
  (forall p, p ∈ queue_heads q -> p ∈ ext) ->
  Forall2 (fun e q => e_data e = q.1 /\ Forall2 (fun p => reads lists (Some p)) (e_reglist e) q.2) q sq ->
  Forall2 (fun e q => e_data e = q.1 /\ Forall2 (fun p => reads (kept ext lists) (Some p)) (e_reglist e) q.2) q sq.
Proof.
  unfold queue_heads. intros I. induction 1 as [|e x q sq [E R] _ IH]; [constructor|]. constructor.
  - split; [done|]. assert (forall p, p ∈ e_reglist e -> p ∈ ext) as J.
    { intros p Ip. apply I. cbn. apply elem_of_app. by left. }
    clear -R J. induction R; [constructor|]. constructor; [apply reads_kept; [apply J; left|done]|].
    apply IHR. intros p Ip. apply J. by right.
  - apply IH. intros p Ip. apply I. cbn. apply elem_of_app. by right.
Qed.

Lemma turn_ok s sp lists :
  follows s sp lists ->
  exists s' lists', event_step fnmatch Turn s = Some s' /\ follows s' (spec_step fnmatch Turn sp) lists'.
Proof.
  intros [O C Q L Z]. cbn [event_step spec_step]. unfold event_run_turn.
  remember (st_queue s) as q0 eqn:Eq0. remember (sp_queue sp) as sq0 eqn:Es0.
  destruct Q as [|e [d regss] q sq [E R] Q]; [run_bind|].
  { eexists _, lists. split; [done|].
    split; cbn [st_heap st_config st_queue st_log]; [exact O|exact C|by rewrite <- Es0|by rewrite app_nil_r|exact Z]. }
  cbn in E. subst d. change (queue_heads (e :: q)) with (e_reglist e ++ queue_heads q) in O.
  rewrite (try_lists_ok _ _ _ _ _ _ O ltac:(intros p J; rewrite !elem_of_app; by right; left) R). run_bind.
  assert (heap_ok (st_heap s) lists (e_reglist e ++ config_heads (st_config s) ++ queue_heads q)) as O'.
  { eapply heap_ok_perm; [|exact O]. rewrite !app_assoc. by rewrite (Permutation_app_comm (e_reglist e)). }
  destruct (release_lists_ok _ _ _ _ O') as (h' & E1 & O1). rewrite E1. run_bind.
  eexists _, _. split; [done|]. split; cbn [st_heap st_config st_queue st_log sp_settings sp_queue sp_log].
  - exact O1.
  - apply reps_kept; [|done]. intros p I. apply elem_of_app. by left.
  - apply queue_kept; [|done]. intros p I. apply elem_of_app. by right.
  - by rewrite L.
  - cbn in Z. lia.
Qed.

Lemma reread_ok s sp lists new :
  follows s sp lists ->
  exists s' lists', event_step fnmatch (Reread new) s = Some s' /\ follows s' (spec_step fnmatch (Reread new) sp) lists'.
Proof.
  intros [O C Q L Z]. cbn [event_step spec_step].
  destruct (load_settings_ok new _ _ _ O) as (c & h1 & l1 & E1 & O1 & R1 & S1). rewrite E1. run_bind.
  unfold clear_settings. rewrite clear_lists_release. fold (config_heads (st_config s)).
  destruct (release_lists_ok (config_heads (st_config s)) h1 l1 (config_heads c ++ queue_heads (st_queue s)))
    as (h2 & E2 & O2).
  { eapply heap_ok_perm; [|exact O1]. rewrite !app_assoc.
    by rewrite (Permutation_app_comm (config_heads c) (config_heads (st_config s))). }
  rewrite E2. run_bind. eexists _, _. split; [done|].
  split; cbn [st_heap st_config st_queue st_log sp_settings sp_queue sp_log]; [exact O2| | |done|done].
  - apply reps_kept; [|done]. intros p I. apply elem_of_app. by left.
  - apply queue_kept; [intros p I; apply elem_of_app; by right|]. eapply Forall2_impl; [exact Q|].
    intros e x [? R]. split; [done|]. eapply Forall2_impl; [exact R|]. intros p regs. by apply reads_mono.
Qed.

Lemma event_run_ok l s sp lists :
  follows s sp lists ->
  exists s' lists', event_run fnmatch l s = Some s' /\ follows s' (spec_run fnmatch l sp) lists'.
Proof.
  revert s sp lists. induction l as [|a l IH]; intros s sp lists F; [by exists s, lists|].
  assert (exists s' lists', event_step fnmatch a s = Some s' /\ follows s' (spec_step fnmatch a sp) lists')
    as (s1 & l1 & E & F1).
  { destruct a; [eapply reread_ok|eapply emit_ok|eapply turn_ok]; done. }
  cbn [event_run]. rewrite E. run_bind. by apply (IH s1 _ l1).
Qed.
End step.

Lemma start_follows : follows event_start spec_start [].
Proof.
  split; try done; [|cbn; unfold EVENT_QUEUE_SIZE; lia]. split; cbn; try done.
  - intros p. rewrite lookup_empty. by intros [].
  - intros l p I. by apply not_elem_of_nil in I.
  - constructor.
  - intros l I. by apply not_elem_of_nil in I.
  - intros p I. by apply not_elem_of_nil in I.
Qed.

Lemma kept_nothing lists : kept [] lists = [].
Proof.
  unfold kept. induction lists as [|l lists IH]; [done|]. rewrite filter_cons, decide_False; [exact IH|].
  rewrite held_spec. by intros (p & _ & []%not_elem_of_nil).
Qed.

Lemma drop_events_release q h : drop_events q h = release_lists (queue_heads q) h.
Proof.
  revert h. induction q as [|e q IH]; intros h; [done|]. unfold queue_heads. cbn [drop_events fmap list_fmap concat].
  fold (queue_heads q). generalize (e_reglist e) as l. intros l. revert h.
  induction l as [|p l IHl]; intros h; [apply IH|]. cbn [release_lists app].
  destruct (event_registration_release (Some p) h); [apply IHl|done].
Qed.

(** C32: Events are handed out as if the configuration were copied into each:
    in whatever order the configuration is reread, events are emitted and the
    thread turns, no step uses a registration that is gone, each event that
    found room in the queue of 128 goes once and in order to the
    registrations there were for its mount, for its default entry and for all
    when it was emitted, and at the end every registration is freed. *)
Theorem events_refine (fnmatch : string -> string -> bool) (l : list event_action) :
  exists s h,
    event_run fnmatch l event_start = Some s /\
    st_log s = sp_log (spec_run fnmatch l spec_start) /\
    e_data <$> st_queue s = (sp_queue (spec_run fnmatch l spec_start)).*1 /\
    (length (st_queue s) <= EVENT_QUEUE_SIZE)%nat /\
    drop_events (st_queue s) (st_heap s) = Some h /\ clear_settings (st_config s) h = Some ∅.
Proof.
  destruct (event_run_ok fnmatch l _ _ _ start_follows) as (s & lists & E & [O C Q L Z]).
  assert (heap_ok (st_heap s) lists (queue_heads (st_queue s) ++ config_heads (st_config s) ++ [])) as O'.
  { rewrite app_nil_r. eapply heap_ok_perm; [apply Permutation_app_comm|done]. }
  destruct (release_lists_ok _ _ _ _ O') as (h1 & E1 & O1).
  destruct (release_lists_ok _ _ _ _ O1) as (h2 & E2 & O2).
  exists s, h1. split_and!; [done|done| |done|by rewrite drop_events_release|].
  - clear -Q. induction Q as [|e x q sq [R _] _ IH]; [done|]. cbn. congruence.
  - unfold clear_settings. rewrite clear_lists_release. fold (config_heads (st_config s)). rewrite E2. f_equal.
    rewrite kept_nothing in O2. apply map_empty. intros p. destruct (h2 !! p) eqn:Hp; [|done].
    destruct (not_elem_of_nil (A := positive) p). apply (ho_dom _ _ _ O2). eauto.
Qed.

(** The thread looks whether it is to run before it takes an event: what is
    in the queue when the server stops is dropped, but for one event. *)
Example stop_event_dropped :
  let r := Registration "log" "icecast-stop" (LogBackend (event_get_log [])) in
  let settings := EventSettings [r] [] in
  let emit t := Emit t None None in
  exists s h,
    event_run (fun _ _ => false) [Reread settings; emit "a"%string; emit "icecast-stop"%string; Turn] event_start = Some s /\
    st_log s = [] /\ (ev_trigger ∘ e_data) <$> st_queue s = ["icecast-stop"%string] /\
    drop_events (st_queue s) (st_heap s) = Some h.
Proof. eexists _, _. split_and!; vm_compute; reflexivity. Qed.

(** ** Backends *)

(** What the first loop over the options finds. *)
Definition exec_executable (options : list config_option) : option string :=
  default None (last (omap (fun o =>
    match co_name o with Some n => if streq n "executable" then Some (co_value o) else None | None => None end) options)).
Definition exec_argvtype (options : list config_option) : event_exec_argvtype :=
  default ARGVTYPE_LEGACY (last (omap (fun o =>
    match co_name o with
    | Some n => if streq n "default_arguments" then Some (str2argvtype (co_value o)) else None
    | None => None
    end) options)).

(** The values of the arguments, and their number as it is counted. *)
Definition is_argument (o : config_option) : bool :=
  match co_type o with Some t => streq t "argument" | None => false end.
Definition exec_values (options : list config_option) : list string :=
  omap (fun o => if is_argument o then co_value o else None) options.
Definition counted (options : list config_option) : nat :=
  length (filter (fun o => is_argument o = true /\ co_name o = None) options).

(** The arguments an event adds before those of the options. *)
Definition event_arguments (t : event_exec_argvtype) (e : event_data) : list string :=
  match t with
  | ARGVTYPE_NO_DEFAULTS => []
  | ARGVTYPE_ONLY_URI => [default EmptyString (ev_uri e)]
  | ARGVTYPE_URI_AND_TRIGGER => [default EmptyString (ev_uri e); ev_trigger e]
  | ARGVTYPE_LEGACY => match ev_uri e with Some u => [u] | None => [] end
  end.

Lemma argv_texts_all vs k : argv_texts (map Some vs ++ replicate (S k) None) = Some vs.
Proof. induction vs as [|v vs IH]; [done|]. cbn [map app argv_texts]. by rewrite IH. Qed.

Lemma last_default {A} (o : option A) l d :
  default d (last (l ++ option_list o)) = default (default d (last l)) o.
Proof. destruct o; cbn; [by rewrite last_snoc|by rewrite app_nil_r]. Qed.

Lemma exec_options_eq options :
  foldl exec_option (EventExec None ARGVTYPE_LEGACY [], 0%nat) options =
  (EventExec (exec_executable options) (exec_argvtype options) [], counted options).
Proof.
  induction options as [|o options IH] using rev_ind; [done|]. rewrite foldl_app, IH. cbn [foldl].
  unfold exec_executable, exec_argvtype, counted, exec_option. rewrite !omap_app, !filter_app, !length_app.
  cbn [omap list_omap ee_executable ee_argvtype ee_argv filter list_filter]. destruct (co_name o) as [n|] eqn:En.
  - rewrite (decide_False (P := is_argument o = true /\ Some n = None)) by (intros [_ Q]; done).
    cbn [length]. rewrite Nat.add_0_r.
    destruct (streq n "executable") eqn:S1; [|destruct (streq n "default_arguments") eqn:S2].
    + apply streq_eq in S1 as ->. change (streq "executable" "default_arguments") with false. cbn iota.
      by rewrite last_snoc, !app_nil_r.
    + by rewrite last_snoc, !app_nil_r.
    + by rewrite !app_nil_r.
  - rewrite !app_nil_r. unfold is_argument. destruct (co_type o) as [t|]; [|by rewrite decide_False, Nat.add_0_r by (intros [Q _]; done)].
    destruct (streq t "argument"); [rewrite decide_True by done; cbn; by rewrite Nat.add_1_r|].
    by rewrite decide_False, Nat.add_0_r by (intros [Q _]; done).
Qed.

Lemma exec_arguments_eq options pre vs k :
  (length (exec_values options) <= k)%nat ->
  exec_arguments options (length pre + length vs) (pre ++ map Some vs ++ replicate k None) =
  Some (pre ++ map Some (vs ++ exec_values options) ++ replicate (k - length (exec_values options)) None).
Proof.
  revert vs k. induction options as [|o options IH]; intros vs k K.
  - cbn. by rewrite app_nil_r, Nat.sub_0_r.
  - cbn [exec_arguments]. unfold exec_values in *. cbn [omap list_omap] in *. unfold is_argument in *.
    destruct (co_type o) as [t|]; [|by apply IH]. destruct (co_value o) as [v|]; [|destruct (streq t "argument"); by apply IH].
    destruct (streq t "argument"); [|by apply IH]. cbn [length] in K. destruct k as [|k]; [lia|].
    unfold argv_set. rewrite !length_app, length_map, length_replicate.
    destruct (Nat.ltb_spec (length pre + length vs) (length pre + (length vs + S k))) as [_|]; [|lia].
    run_bind. rewrite insert_app_r. rewrite <- (length_map Some vs) at 2.
    rewrite <- (Nat.add_0_r (length (map Some vs))), insert_app_r. cbn [replicate].
    change (<[0%nat := Some v]> (None :: replicate k None)) with (Some v :: replicate k (None : option string)).
    assert (forall r : list (option string), map Some vs ++ Some v :: r = map Some (vs ++ [v]) ++ r) as R
      by (intros r; rewrite map_app, <- app_assoc; done).
    rewrite !R. specialize (IH (vs ++ [v]) k). rewrite length_app in IH. cbn [length] in IH.
    replace (S (length pre + length vs)) with (length pre + (length vs + 1))%nat by lia.
    rewrite IH by lia. by rewrite <- app_assoc.
Qed.

Lemma values_counted options :
  (forall o, o ∈ options -> is_argument o = true -> co_name o = None) ->
  (length (exec_values options) <= counted options)%nat.
Proof.
  induction options as [|o options IH]; intros P; [done|]. unfold exec_values, counted in *.
  cbn [omap list_omap]. rewrite filter_cons. specialize (IH ltac:(intros q I; apply P; by right)).
  pose proof (P o ltac:(left)) as Po. destruct (is_argument o).
  - rewrite decide_True by auto. cbn [length]. destruct (co_value o); cbn [length]; lia.
  - rewrite decide_False by (intros [Q _]; done). done.
Qed.

Lemma emit_texts x t vs k e :
  event_exec_emit (EventExec (Some x) t (replicate (argvtype2offset t) None ++ map Some vs ++ replicate (S k) None)) e =
  Some (x :: event_arguments t e ++ vs).
Proof.
  unfold event_exec_emit, setup_argv, argv_set. cbn [ee_argv ee_argvtype ee_executable].
  pose proof (argv_texts_all vs k) as R. revert R. generalize (map Some vs ++ replicate (S k) None) as rest.
  intros rest R. destruct e as [trigger uri]. destruct t, uri; cbn; by rewrite R.
Qed.

(** A command is run with the arguments of its event and of its options,
    in order and within its array, if no option that is an argument has a
    name; and a command without an executable crashes the server when the
    configuration is read. *)
Theorem exec_commands (options : list config_option) :
  (forall o, o ∈ options -> is_argument o = true -> co_name o = None) ->
  match exec_executable options with
  | None => event_get_exec options = None
  | Some x =>
      exists self, event_get_exec options = Some (Some self) /\ event_exec_free self = Some tt /\
        forall e, event_exec_emit self e = Some (x :: event_arguments (exec_argvtype options) e ++ exec_values options)
  end.
Proof.
  intros P%values_counted. unfold event_get_exec. rewrite exec_options_eq. cbn [ee_executable ee_argvtype].
  destruct (exec_executable options) as [x|].
  - set (t := exec_argvtype options) in *. set (off := argvtype2offset t).
    pose proof (exec_arguments_eq options (replicate off None) [] (counted options + 1) ltac:(lia)) as E.
    rewrite length_replicate in E. cbn [length map app] in E. rewrite Nat.add_0_r, <- replicate_add, Nat.add_assoc in E.
    rewrite E. run_bind. eexists. split; [done|].
    replace (counted options + 1 - length (exec_values options))%nat with (S (counted options - length (exec_values options))) by lia.
    split; [|intros e; apply emit_texts].
    unfold event_exec_free. cbn [ee_argvtype ee_argv]. fold off. rewrite drop_app_length' by (by rewrite length_replicate).
    by rewrite argv_texts_all.
  - unfold event_exec_free. cbn [ee_argvtype ee_argv]. by destruct (argvtype2offset _).
Qed.

Example exec_commands_witness :
  let options := [ConfigOption None (Some "executable") (Some "/bin/say"); ConfigOption None (Some "default_arguments") (Some "uri");
                  ConfigOption (Some "argument") None (Some "-v")]%string in
  exists self, event_get_exec options = Some (Some self) /\ event_exec_free self = Some tt /\
    event_exec_emit self (EventData "source-connect" (Some "/a.ogg"%string) 1 None 0 None None None (-1)) =
      Some ["/bin/say"; "/a.ogg"; "-v"]%string.
Proof.
  destruct (exec_commands
    [ConfigOption None (Some "executable") (Some "/bin/say"); ConfigOption None (Some "default_arguments") (Some "uri");
     ConfigOption (Some "argument") None (Some "-v")]%string) as (self & E & F & R).
  - intros o I. apply elem_of_cons in I as [->|I]; [done|]. apply elem_of_cons in I as [->|I]; [done|].
    apply list_elem_of_singleton in I as ->. done.
  - exists self. split; [exact E|]. split; [exact F|]. apply R.
Defined.

(** An argument with a name is not counted: its place in the array may be
    outside of it. *)
Example named_argument_overruns :
  event_get_exec [ConfigOption None (Some "executable") (Some "/bin/say");
                  ConfigOption (Some "argument") (Some "a") (Some "1");
                  ConfigOption (Some "argument") (Some "b") (Some "2")]%string = None.
Proof. reflexivity. Qed.

(** The option with the action frees the address: the registration is made,
    but to emit an event or to free it uses the address after that. *)
Theorem url_action_dangles u a e hostname port now :
  exists self,
    event_get_url [ConfigOption None (Some "url"%string) (Some u); ConfigOption None (Some "action"%string) (Some a)] =
      Some (Some self) /\
    event_url_emit hostname port now self e = None /\ event_url_free self = None.
Proof. eexists. split_and!; reflexivity. Qed.

(** The thread that hands an event to another server and the thread that
    rereads the configuration can come to wait for each other for good, each
    holding the lock the other asks for; and that is the only way they can. *)
Theorem event_reread_deadlock :
  rtc lock_step (EventIdle, RereadIdle) (RegistrationLocked, ConfigGrabbed) /\
  forall s, (forall s', ~ lock_step s s') <-> s = (RegistrationLocked, ConfigGrabbed).
Proof.
  split.
  - eapply rtc_l; [by apply ls_try|]. apply rtc_once, ls_grab. done.
  - intros [e c]. split; [|intros [= -> ->] s'; by inversion 1].
    intros N. destruct e, c; try done; exfalso.
    + by eapply N, (ls_grab EventIdle).
    + by eapply N, ls_release.
    + by eapply N, ls_done.
    + by eapply N, ls_emit.
    + by eapply N, ls_done.
    + by eapply N, ls_next.
    + by eapply N, ls_next.
    + by eapply N, ls_next.
Qed.
