(* ===== verification/Yp.v ===== *)
(** The directory client, [yp.c]: the entries of the mounts at each directory
    server, the requests that add, touch and remove them, and the thread that
    makes them.

    The directory servers, the statistics and the configuration are
    parameters; the time is the same for all of one pass of the thread. *)

From stdpp Require Import functions.
From S2P Require Import Prelude Uri Convert AuthUrl.
Local Open Scope Z_scope.

(** ** Entries *)

(** What is told about a mount. *)
Inductive yp_info :=
| YP_SERVER_NAME | YP_SERVER_DESC | YP_SERVER_GENRE | YP_SERVER_URL | YP_BITRATE | YP_AUDIO_INFO | YP_SERVER_TYPE
| YP_CURRENT_SONG | YP_CLUSTER_PASSWORD | YP_SUBTYPE.

#[export] Instance yp_info_eq_dec : EqDecision yp_info.
Proof. solve_decision. Defined.

(** The function to be called for an entry. *)
Inductive yp_process := DO_ADD | DO_TOUCH | DO_REMOVE.

#[export] Instance yp_process_eq_dec : EqDecision yp_process.
Proof. solve_decision. Defined.

(** [ypdata_t]. *)
Record ypdata := Ypdata {
  yp_marked : bool;                     (** [remove] *)
  yp_release : bool;
  yp_cmd_ok : bool;
  yp_sid : option string;
  yp_mount : string;
  yp_listen_url : string;
  yp_infos : yp_info -> string;
  yp_next_update : Z;
  yp_touch_interval : Z;
  yp_error_msg : option string;
  yp_proc : yp_process
}.

Definition set_marked (b : bool) (y : ypdata) : ypdata :=
  Ypdata b (yp_release y) (yp_cmd_ok y) (yp_sid y) (yp_mount y) (yp_listen_url y) (yp_infos y) (yp_next_update y)
    (yp_touch_interval y) (yp_error_msg y) (yp_proc y).
Definition set_release (b : bool) (y : ypdata) : ypdata :=
  Ypdata (yp_marked y) b (yp_cmd_ok y) (yp_sid y) (yp_mount y) (yp_listen_url y) (yp_infos y) (yp_next_update y)
    (yp_touch_interval y) (yp_error_msg y) (yp_proc y).
Definition set_cmd_ok (b : bool) (y : ypdata) : ypdata :=
  Ypdata (yp_marked y) (yp_release y) b (yp_sid y) (yp_mount y) (yp_listen_url y) (yp_infos y) (yp_next_update y)
    (yp_touch_interval y) (yp_error_msg y) (yp_proc y).
Definition set_sid (s : option string) (y : ypdata) : ypdata :=
  Ypdata (yp_marked y) (yp_release y) (yp_cmd_ok y) s (yp_mount y) (yp_listen_url y) (yp_infos y) (yp_next_update y)
    (yp_touch_interval y) (yp_error_msg y) (yp_proc y).
Definition set_infos (f : yp_info -> string) (y : ypdata) : ypdata :=
  Ypdata (yp_marked y) (yp_release y) (yp_cmd_ok y) (yp_sid y) (yp_mount y) (yp_listen_url y) f (yp_next_update y)
    (yp_touch_interval y) (yp_error_msg y) (yp_proc y).
Definition set_next_update (t : Z) (y : ypdata) : ypdata :=
  Ypdata (yp_marked y) (yp_release y) (yp_cmd_ok y) (yp_sid y) (yp_mount y) (yp_listen_url y) (yp_infos y) t
    (yp_touch_interval y) (yp_error_msg y) (yp_proc y).
Definition set_touch_interval (t : Z) (y : ypdata) : ypdata :=
  Ypdata (yp_marked y) (yp_release y) (yp_cmd_ok y) (yp_sid y) (yp_mount y) (yp_listen_url y) (yp_infos y) (yp_next_update y)
    t (yp_error_msg y) (yp_proc y).
Definition set_error_msg (m : option string) (y : ypdata) : ypdata :=
  Ypdata (yp_marked y) (yp_release y) (yp_cmd_ok y) (yp_sid y) (yp_mount y) (yp_listen_url y) (yp_infos y) (yp_next_update y)
    (yp_touch_interval y) m (yp_proc y).
Definition set_proc (p : yp_process) (y : ypdata) : ypdata :=
  Ypdata (yp_marked y) (yp_release y) (yp_cmd_ok y) (yp_sid y) (yp_mount y) (yp_listen_url y) (yp_infos y) (yp_next_update y)
    (yp_touch_interval y) (yp_error_msg y) p.

(** [add_yp_info]. *)
Definition add_yp_info (info : option string) (type : yp_info) (y : ypdata) : ypdata :=
  match info with
  | None => y
  | Some _ =>
      match util_url_escape info with
      | None => y
      | Some escaped => set_infos (<[type := escaped]> (yp_infos y)) y
      end
  end.

(** ** Answers *)

(** The number [sscanf] reads, if any. *)
Definition scan_unsigned (s : string) : option Z :=
  match sscanf_unsigned s with ScanValue n => Some n | _ => None end.

(** The text up to the end of the line. *)
Definition line_text (s : string) : string := fst (strspn (fun c => negb (Ascii.eqb c (chr 13) || Ascii.eqb c (chr 10))) s).

(** [handle_returned_header], for a line of the header of an answer. *)
Definition handle_returned_header (y : ypdata) (line : string) : ypdata :=
  let y := if starts_with_nocase "YPResponse: 1" line then set_cmd_ok true y else y in
  let y := if starts_with_nocase "YPMessage: " line then set_error_msg (Some (line_text (string_drop 11 line))) y else y in
  let y :=
    if decide (yp_proc y = DO_ADD) then
      if starts_with_nocase "SID: " line then set_sid (Some (line_text (string_drop 5 line))) y else y
    else y in
  if starts_with_nocase "TouchFreq: " line then
    let secs := default 0 (scan_unsigned (string_drop 11 line)) in
    set_touch_interval (if secs <? 30 then 30 else secs) y
  else y.

(** What comes of a request: the server is not reached, or the lines of the
    header it answers with. *)
Inductive yp_answer := Unreachable | Answered (header : list string).

(** [send_to_yp]: what it returns, and the entry. *)
Definition send_to_yp (now : Z) (answer : yp_answer) (y : ypdata) : Z * ypdata :=
  let y := set_cmd_ok false y in
  match answer with
  | Unreachable => (-2, set_next_update (now + 1200) (set_proc DO_ADD y))
  | Answered header =>
      let y := foldl handle_returned_header y header in
      if yp_cmd_ok y then (0, y)
      else
        let y := match yp_error_msg y with None => set_error_msg (Some "no response from server"%string) y | Some _ => y end in
        let y := if decide (yp_proc y = DO_ADD) then set_next_update (now + 7200) y else y in
        let y :=
          if decide (yp_proc y = DO_TOUCH) then
            set_next_update (if yp_touch_interval y <? 1200 then now + 1200 else now + yp_touch_interval y) y
          else y in
        (-1, set_sid None (set_proc DO_ADD y))
  end.

(** ** Requests *)

(** A function for an entry needs a longer buffer, or is done: what it returns,
    the entry, and the request made, where there was one. *)
Inductive yp_result := Again (len : Z) (y : ypdata) | Did (ret : Z) (y : ypdata) (sent : option string).

(** [snprintf] of a request into [len] bytes, and the sending of it. *)
Definition send_within (now len : Z) (text : string) (answer : yp_answer) (after : Z -> ypdata -> Z * ypdata) (y : ypdata)
    : yp_result :=
  if len <=? strlen text then Again (strlen text + 1) y
  else let '(ret, y) := send_to_yp now answer y in let '(ret, y) := after ret y in Did ret y (Some text).

Section requests.
(** The statistics of a mount, the contact of the administrator, and the
    limit of clients. *)
Variable stats_get_value : string -> string -> option string.
Variable admin : string.
Variable client_limit : Z.
(** The answers of the directory server of the entry. *)
Variable ask : string -> yp_answer.

Definition do_yp_remove (now len : Z) (y : ypdata) : yp_result :=
  let gone ret y := (ret, set_proc DO_ADD (set_marked true y)) in
  match yp_sid y with
  | Some sid =>
      let text := ("action=remove&sid=" +:+ sid)%string in
      send_within now len text (ask text) (fun ret y => gone ret (set_sid None y)) y
  | None => let '(ret, y) := gone 0 y in Did ret y None
  end.

(** The entry with what the statistics say about its mount. *)
Definition refresh (y : ypdata) : ypdata :=
  let v name := stats_get_value (yp_mount y) name in
  let y := add_yp_info (v "server_type"%string) YP_SERVER_TYPE y in
  let y := add_yp_info (v "server_name"%string) YP_SERVER_NAME y in
  let y := add_yp_info (v "server_url"%string) YP_SERVER_URL y in
  let y := add_yp_info (v "genre"%string) YP_SERVER_GENRE y in
  let y := add_yp_info (match v "bitrate"%string with None => v "ice-bitrate"%string | b => b end) YP_BITRATE y in
  let y := add_yp_info (v "server_description"%string) YP_SERVER_DESC y in
  let y := add_yp_info (v "subtype"%string) YP_SUBTYPE y in
  add_yp_info (v "audio_info"%string) YP_AUDIO_INFO y.

Definition add_text (y : ypdata) : string :=
  let i := yp_infos y in
  ("action=add&admin=" +:+ default EmptyString (util_url_escape (Some admin)) +:+ "&sn=" +:+ i YP_SERVER_NAME +:+ "&genre=" +:+
   i YP_SERVER_GENRE +:+ "&cpswd=" +:+ i YP_CLUSTER_PASSWORD +:+ "&desc=" +:+ i YP_SERVER_DESC +:+ "&url=" +:+ i YP_SERVER_URL +:+
   "&listenurl=" +:+ yp_listen_url y +:+ "&type=" +:+ i YP_SERVER_TYPE +:+ "&stype=" +:+ i YP_SUBTYPE +:+ "&b=" +:+ i YP_BITRATE +:+
   "&" +:+ i YP_AUDIO_INFO +:+ crlf)%string.

Definition do_yp_add (now len : Z) (y : ypdata) : yp_result :=
  let y := refresh y in
  let text := add_text y in
  send_within now len text (ask text)
    (fun ret y => (ret, if ret =? 0 then set_next_update (now + 5) (set_proc DO_TOUCH y) else y)) y.

(** The song of a mount, where it has an artist or a title. *)
Definition current_song (mount : string) : option string :=
  match stats_get_value mount "artist", stats_get_value mount "title" with
  | None, None => None
  | Some a, t => Some (a +:+ " - " +:+ default EmptyString t)%string
  | None, Some t => Some t
  end.

Definition touch_text (y : ypdata) : string :=
  let listeners := match stats_get_value (yp_mount y) "listeners" with Some v => u32 (atoi v) | None => 0 end in
  let max_listeners :=
    match stats_get_value (yp_mount y) "max_listeners" with
    | None => client_limit
    | Some v => if streq v "unlimited" || (atoi v <? 0) then client_limit else atoi v
    end in
  let i := yp_infos y in
  ("action=touch&sid=" +:+ default "(null)"%string (yp_sid y) +:+ "&st=" +:+ i YP_CURRENT_SONG +:+ "&listeners=" +:+ dec listeners +:+
   "&max_listeners=" +:+ dec max_listeners +:+ "&stype=" +:+ i YP_SUBTYPE +:+ crlf)%string.

(** The entry with the song and the type of the stream. *)
Definition refresh_song (y : ypdata) : ypdata :=
  add_yp_info (stats_get_value (yp_mount y) "subtype") YP_SUBTYPE (add_yp_info (current_song (yp_mount y)) YP_CURRENT_SONG y).

(** [do_yp_touch]; the event for the song is left out. *)
Definition do_yp_touch (now len : Z) (y : ypdata) : yp_result :=
  let y := refresh_song y in
  let text := touch_text y in
  send_within now len text (ask text)
    (fun ret y => if ret =? 0 then (0, set_next_update (now + yp_touch_interval y) y) else (-1, y)) y.

Definition call_process (now len : Z) (y : ypdata) : yp_result :=
  match yp_proc y with
  | DO_ADD => do_yp_add now len y
  | DO_TOUCH => do_yp_touch now len y
  | DO_REMOVE => do_yp_remove now len y
  end.

(** The loop of [process_ypdata], for buffers that are long enough at last;
    [None] where the fuel does not suffice. *)
Fixpoint process_loop (fuel : nat) (now len : Z) (y : ypdata) : option (Z * ypdata * option string) :=
  match fuel with
  | O => None
  | S fuel' =>
      let y := if yp_release y then set_next_update 0 (set_proc DO_REMOVE y) else y in
      match call_process now len y with
      | Again len y => process_loop fuel' now len y
      | Did ret y sent => Some (ret, y, sent)
      end
  end.

Definition process_ypdata (now : Z) (y : ypdata) : option (Z * ypdata * option string) :=
  if now <? yp_next_update y then Some (0, y, None) else process_loop 2 now 1024 y.

(** ** Servers *)

(** [yp_process_server], from a state of the loop on: the entries after it,
    and the requests made. *)
Fixpoint yp_process_server (now state : Z) (mounts : list ypdata) : option (list ypdata * list string) :=
  match mounts with
  | [] => Some ([], [])
  | y :: r =>
      if state =? -2 then
        '(l, sent) ← yp_process_server now state r;
        Some (set_next_update (yp_next_update y + 900) (set_proc DO_ADD y) :: l, sent)
      else
        '(state, y, s) ← process_ypdata now y;
        '(l, sent) ← yp_process_server now state r;
        Some (y :: l, option_list s ++ sent)
  end.
End requests.

(** [struct yp_server], with the last entry added first. *)
Record yp_server := Yp_server {
  yps_url : string;
  yps_url_timeout : Z;
  yps_touch_interval : Z;
  yps_remove : bool;
  yps_mounts : list ypdata;
  yps_pending : list ypdata
}.

Definition set_mounts (m p : list ypdata) (s : yp_server) : yp_server :=
  Yp_server (yps_url s) (yps_url_timeout s) (yps_touch_interval s) (yps_remove s) m p.
Definition set_remove (b : bool) (s : yp_server) : yp_server :=
  Yp_server (yps_url s) (yps_url_timeout s) (yps_touch_interval s) b (yps_mounts s) (yps_pending s).

(** The lists of servers, the flag that tells the thread to look at them, and
    the limit of clients that is reported. *)
Record yp_state := Yp_state {
  active_yps : list yp_server;
  pending_yps : list yp_server;
  yp_update : bool;
  yp_client_limit : Z
}.

(** [find_yp_server]: the index of the server, and whether it is an active
    one. *)
Definition find_yp_server (url : string) (st : yp_state) : option (bool * nat) :=
  let named l := list_find (fun s => yps_url s = url) l in
  match named (active_yps st) with
  | Some (i, _) => Some (true, i)
  | None => match named (pending_yps st) with Some (i, _) => Some (false, i) | None => None end
  end.

(** The position of the first entry for a mount in a list. *)
Definition find_yp_mount (mounts : list ypdata) (mount : string) : option (nat * ypdata) :=
  list_find (fun y => yp_mount y = mount) mounts.

(** [add_pending_yp]. *)
Definition add_pending_yp (s : yp_server) : yp_server := set_mounts (yps_pending s ++ yps_mounts s) [] s.

(** [delete_marked_yp]. *)
Definition delete_marked_yp (s : yp_server) : yp_server :=
  set_mounts (filter (fun y => yp_marked y = false) (yps_mounts s)) (yps_pending s) s.

(** [destroy_yp_server]: the server as it is when it is freed. *)
Definition destroy_yp_server (s : yp_server) : yp_server :=
  let s := add_pending_yp s in
  delete_marked_yp (set_mounts (set_marked true <$> yps_mounts s) (yps_pending s) s).

(** What the configuration says: the directories with their timeouts and
    intervals, the limit of clients, the name and port of the server, and the
    cluster password of a mount. *)
Record yp_config := Yp_config {
  yc_directories : list (string * Z * Z);
  yc_client_limit : Z;
  yc_hostname : string;
  yc_port : Z;
  yc_cluster_password : string -> option string
}.

(** [create_yp_entry]. *)
Definition create_yp_entry (config : yp_config) (mount : string) : option ypdata :=
  let y := Ypdata false false false None mount EmptyString (fun _ => EmptyString) 0 0 None DO_ADD in
  let url := ("http://" +:+ yc_hostname config +:+ ":" +:+ dec (yc_port config) +:+ mount)%string in
  let y := add_yp_info (yc_cluster_password config mount) YP_CLUSTER_PASSWORD y in
  listen_url ← util_url_escape (Some url);
  Some (Ypdata (yp_marked y) (yp_release y) (yp_cmd_ok y) (yp_sid y) (yp_mount y) listen_url (yp_infos y) (yp_next_update y)
          (yp_touch_interval y) (yp_error_msg y) (yp_proc y)).

(** A server for a directory, from [yp_recheck_config]. *)
Definition new_server (url : string) (timeout interval : Z) : yp_server :=
  let timeout := u32 timeout in let interval := u32 interval in
  Yp_server url (if (10 <? timeout) || (timeout <? 1) then 6 else timeout) (if interval <? 30 then 30 else interval) false [] [].

(** One directory of the configuration. *)
Definition recheck_directory (st : yp_state) (d : string * Z * Z) : yp_state :=
  let '(url, timeout, interval) := d in
  match find_yp_server url st with
  | None => Yp_state (active_yps st) (new_server url timeout interval :: pending_yps st) (yp_update st) (yp_client_limit st)
  | Some (true, i) => Yp_state (alter (set_remove false) i (active_yps st)) (pending_yps st) (yp_update st) (yp_client_limit st)
  | Some (false, i) => Yp_state (active_yps st) (alter (set_remove false) i (pending_yps st)) (yp_update st) (yp_client_limit st)
  end.

(** [yp_recheck_config]. *)
Definition yp_recheck_config (config : yp_config) (st : yp_state) : yp_state :=
  let st := Yp_state (set_remove true <$> active_yps st) (pending_yps st) (yp_update st) (yc_client_limit config) in
  let st := foldl recheck_directory st (yc_directories config) in
  Yp_state (active_yps st) (pending_yps st) true (yp_client_limit st).

(** The entries of a new server for the sources there are, each with whether
    it is public: the one added last comes first. *)
Definition populate (config : yp_config) (sources : list (string * bool)) (s : yp_server) : yp_server :=
  foldl (fun s '(mount, public) =>
    if public : bool then
      match create_yp_entry config mount with
      | Some y => set_mounts (set_touch_interval (yps_touch_interval s) y :: yps_mounts s) (yps_pending s) s
      | None => s
      end
    else s) s sources.

(** [check_servers], the pending servers moved to the front one by one. *)
Definition check_servers (config : yp_config) (sources : list (string * bool)) (st : yp_state) : yp_state :=
  let kept := filter (fun s => yps_remove s = false) (active_yps st) in
  Yp_state (foldl (fun l s => populate config sources s :: l) kept (pending_yps st)) [] (yp_update st) (yp_client_limit st).

(** The part of [yp_update_thread] that brings the lists up to date. *)
Definition update_pass (config : yp_config) (sources : list (string * bool)) (st : yp_state) : yp_state :=
  if yp_update st then
    let st := check_servers config sources st in
    Yp_state ((fun s => delete_marked_yp (add_pending_yp s)) <$> active_yps st) (pending_yps st) false (yp_client_limit st)
  else st.

(** The part that talks to the servers, with the requests made to each. *)
Fixpoint communicate (stats : string -> string -> option string) (admin : string) (limit : Z) (ask : string -> string -> yp_answer)
    (now : Z) (servers : list yp_server) : option (list yp_server * list (string * string)) :=
  match servers with
  | [] => Some ([], [])
  | s :: r =>
      '(mounts, sent) ← yp_process_server stats admin limit (ask (yps_url s)) now 0 (yps_mounts s);
      '(l, more) ← communicate stats admin limit ask now r;
      Some (set_mounts mounts (yps_pending s) s :: l, (pair (yps_url s) <$> sent) ++ more)
  end.

(** A round of the thread: [do_yp_remove] sets [yp_update] for an entry that
    is to be released, and its entry is marked then. *)
Definition yp_round (config : yp_config) (sources : list (string * bool)) (stats : string -> string -> option string)
    (admin : string) (ask : string -> string -> yp_answer) (now : Z) (st : yp_state)
    : option (yp_state * list (string * string)) :=
  '(servers, sent) ← communicate stats admin (yp_client_limit st) ask now (active_yps st);
  let removed := existsb (fun s => existsb yp_marked (yps_mounts s)) servers in
  Some (update_pass config sources (Yp_state servers (pending_yps st) (yp_update st || removed) (yp_client_limit st)), sent).

(** ** Calls of the sources *)

(** [yp_add], at one server, with what becomes of [yp_update]. *)
Definition add_at (config : yp_config) (now : Z) (mount : string) (s : yp_server) : yp_server * bool :=
  match find_yp_mount (yps_mounts s) mount with
  | Some _ => (s, false)
  | None =>
      match create_yp_entry config mount with
      | Some y =>
          (set_mounts (yps_mounts s) (set_next_update (now + 60) (set_touch_interval (yps_touch_interval s) y) :: yps_pending s) s, true)
      | None => (s, false)
      end
  end.

Definition yp_add (config : yp_config) (now : Z) (mount : string) (st : yp_state) : yp_state :=
  let l := add_at config now mount <$> active_yps st in
  Yp_state (fst <$> l) (pending_yps st) (yp_update st || existsb snd l) (yp_client_limit st).

(** The loop of [yp_remove] at one server, from the place [from] on; [None]
    where the fuel does not suffice. *)
Fixpoint release_loop (fuel : nat) (mount : string) (from : nat) (mounts : list ypdata) : option (list ypdata) :=
  match fuel with
  | O => None
  | S fuel' =>
      match find_yp_mount (drop from mounts) mount with
      | None => Some mounts
      | Some (i, y) =>
          if yp_release y || yp_marked y then release_loop fuel' mount (from + i + 1) mounts
          else release_loop fuel' mount from (<[(from + i)%nat := set_next_update 0 (set_release true y)]> mounts)
      end
  end.

Definition release_at (mount : string) (s : yp_server) : option yp_server :=
  l ← release_loop (2 * length (yps_mounts s) + 1) mount 0 (yps_mounts s); Some (set_mounts l (yps_pending s) s).

Definition yp_remove (mount : string) (st : yp_state) : option yp_state :=
  l ← mapM (release_at mount) (active_yps st); Some (Yp_state l (pending_yps st) (yp_update st) (yp_client_limit st)).

(** [yp_touch] at the entries of one server: the first that is neither
    released nor marked. *)
Fixpoint touch_at (now : Z) (mount : string) (mounts : list ypdata) : list ypdata :=
  match mounts with
  | [] => []
  | y :: r =>
      if decide (yp_mount y = mount) then
        if yp_release y || yp_marked y then y :: touch_at now mount r
        else
          (if bool_decide (yp_proc y = DO_TOUCH) && (60 <? now + yp_touch_interval y - yp_next_update y)
           then set_next_update (now + 3) y else y) :: r
      else y :: touch_at now mount r
  end.

Definition yp_touch (now : Z) (mount : string) (st : yp_state) : yp_state :=
  Yp_state ((fun s => set_mounts (touch_at now mount (yps_mounts s)) (yps_pending s) s) <$> active_yps st) (pending_yps st)
    (yp_update st) (yp_client_limit st).
