(* ===== verification/YpFacts.v ===== *)
(** The directory client does what a mount needs: what each answer of a
    directory leads to, the removal of a mount, and the invariant of the
    lists. *)

From stdpp Require Import functions.
From S2P Require Import Prelude Uri AuthUrl Yp.
Local Open Scope Z_scope.

(** ** Answers *)

(** What a header says under a name: the last line that begins with it. *)
Definition announced (prefix : string) (header : list string) : option string :=
  last (string_drop (String.length prefix) <$> filter (fun l => starts_with_nocase prefix l = true) header).

(** The interval an answer asks for, or the one there was. *)
Definition asked_interval (header : list string) (before : Z) : Z :=
  match announced "TouchFreq: " header with
  | None => before
  | Some t => Z.max 30 (default 0 (scan_unsigned t))
  end.

Lemma default_twice {A} (x : A) v : default (default x v) v = default x v.
Proof. by destruct v. Qed.

Lemma announced_nil p : announced p [] = None.
Proof. done. Qed.

Lemma announced_snoc p h l :
  announced p (h ++ [l]) =
  if starts_with_nocase p l then Some (string_drop (String.length p) l) else announced p h.
Proof.
  unfold announced. rewrite filter_app, fmap_app, last_app, filter_cons, filter_nil.
  destruct (starts_with_nocase p l); [by rewrite decide_True by done|by rewrite decide_False by done].
Qed.

(** What the lines of an answer leave of an entry. *)
Lemma heard y h (y' := foldl handle_returned_header y h) :
  yp_cmd_ok y' = (yp_cmd_ok y || bool_decide (is_Some (announced "YPResponse: 1" h))) /\
  yp_sid y' = (if decide (yp_proc y = DO_ADD) then
                 match announced "SID: " h with Some t => Some (line_text t) | None => yp_sid y end
               else yp_sid y) /\
  yp_touch_interval y' = asked_interval h (yp_touch_interval y) /\
  yp_marked y' = yp_marked y /\ yp_release y' = yp_release y /\ yp_proc y' = yp_proc y /\
  yp_next_update y' = yp_next_update y /\ yp_mount y' = yp_mount y /\ yp_infos y' = yp_infos y /\
  yp_listen_url y' = yp_listen_url y.
Proof.
  subst y'. induction h as [|l h IH] using rev_ind.
  { cbn. destruct (yp_cmd_ok y), (decide (yp_proc y = DO_ADD)); by split_and!. }
  rewrite foldl_app. cbn [foldl]. set (z := foldl _ _ _) in *. clearbody z. unfold asked_interval in *.
  rewrite !announced_snoc. destruct IH as (A & B & C & D & E & F & G & H & I & J).
  unfold handle_returned_header. cbn [String.length].
  destruct (starts_with_nocase "YPResponse: 1" l), (starts_with_nocase "YPMessage: " l), (starts_with_nocase "SID: " l),
    (starts_with_nocase "TouchFreq: " l); cbn [set_cmd_ok set_error_msg set_sid set_touch_interval yp_cmd_ok yp_sid
      yp_touch_interval yp_marked yp_release yp_proc yp_next_update yp_mount yp_infos yp_listen_url];
    rewrite ?F; destruct (decide (yp_proc y = DO_ADD));
    cbn [set_cmd_ok set_error_msg set_sid set_touch_interval yp_cmd_ok yp_sid yp_proc
      yp_touch_interval yp_marked yp_release yp_next_update yp_mount yp_infos yp_listen_url];
    split_and!; try done; try (by rewrite A; destruct (yp_cmd_ok y));
    try (by destruct (yp_cmd_ok y)); try (destruct (Z.ltb_spec (default 0 (scan_unsigned (string_drop 11 l))) 30); lia).
Qed.

(** A request was answered with success. *)
Definition welcomed (header : list string) : bool := bool_decide (is_Some (announced "YPResponse: 1" header)).

(** Two entries that differ in what is told about the mount, and in the time
    of the next update. *)
Definition alike (y z : ypdata) : Prop :=
  yp_mount z = yp_mount y /\ yp_release z = yp_release y /\ yp_marked z = yp_marked y /\ yp_sid z = yp_sid y /\
  yp_touch_interval z = yp_touch_interval y /\ yp_proc z = yp_proc y.

#[local] Ltac fields := cbn [set_cmd_ok set_error_msg set_sid set_touch_interval set_marked set_release set_proc set_next_update
  set_infos yp_cmd_ok yp_sid yp_touch_interval yp_marked yp_release yp_proc yp_next_update yp_mount yp_infos yp_listen_url
  yp_error_msg fst snd].

Lemma send_spec now a y (r := send_to_yp now a y) :
  yp_mount r.2 = yp_mount y /\ yp_release r.2 = yp_release y /\ yp_marked r.2 = yp_marked y /\
  match a with
  | Unreachable =>
      r.1 = -2 /\ yp_proc r.2 = DO_ADD /\ yp_next_update r.2 = now + 1200 /\ yp_sid r.2 = yp_sid y /\
      yp_touch_interval r.2 = yp_touch_interval y
  | Answered h =>
      yp_touch_interval r.2 = asked_interval h (yp_touch_interval y) /\
      if welcomed h then
        r.1 = 0 /\ yp_proc r.2 = yp_proc y /\ yp_next_update r.2 = yp_next_update y /\
        yp_sid r.2 = (if decide (yp_proc y = DO_ADD) then
                        match announced "SID: " h with Some t => Some (line_text t) | None => yp_sid y end
                      else yp_sid y)
      else
        r.1 = -1 /\ yp_proc r.2 = DO_ADD /\ yp_sid r.2 = None /\
        yp_next_update r.2 =
          match yp_proc y with
          | DO_ADD => now + 7200
          | DO_TOUCH => now + Z.max 1200 (asked_interval h (yp_touch_interval y))
          | DO_REMOVE => yp_next_update y
          end
  end.
Proof.
  subst r. destruct a as [|h]; [by fields|]. unfold send_to_yp.
  pose proof (heard (set_cmd_ok false y) h) as E. cbn zeta in E. destruct E as (A & B & C & D & E & F & G & H & I & J).
  set (z := foldl _ _ _) in *. clearbody z. revert A B C D E F G H. fields. cbn [orb]. fold (welcomed h).
  intros A B C D E F G H. rewrite A. destruct (welcomed h) eqn:K; [by fields|].
  set (w := match yp_error_msg z with None => _ | Some _ => z end).
  assert (alike z w /\ yp_next_update w = yp_next_update z) as ((W1 & W2 & W3 & W4 & W5 & W6) & W7)
    by (subst w; by destruct (yp_error_msg z)). clearbody w. rewrite W6, F.
  destruct (yp_proc y) eqn:P;
    repeat (match goal with
      |- context [decide (?a = ?b)] =>
        lazymatch a with context [decide _] => fail | _ => let e := fresh in destruct (decide (a = b)) as [e|e]; revert e end
      end;
      fields; rewrite ?W6, ?F, ?P; fields; intros ?; try congruence); split_and!; try congruence; try done.
  rewrite W5, C. destruct (Z.ltb_spec (asked_interval h (yp_touch_interval y)) 1200); lia.
Qed.

Section requests.
Context (stats : string -> string -> option string) (admin : string) (limit : Z) (ask : string -> yp_answer).

Lemma add_yp_info_get v t y u :
  yp_infos (add_yp_info v t y) u = (if decide (t = u) then default (yp_infos y u) (url_escape_loop <$> v) else yp_infos y u).
Proof.
  unfold add_yp_info, util_url_escape. destruct v; fields; [|by destruct (decide _)].
  unfold insert, fn_insert. by destruct (decide _).
Qed.

Lemma add_yp_info_alike v t y z : alike y z -> alike y (add_yp_info v t z).
Proof. unfold add_yp_info. by destruct v. Qed.

Lemma add_yp_info_rest v t y :
  yp_listen_url (add_yp_info v t y) = yp_listen_url y /\ yp_next_update (add_yp_info v t y) = yp_next_update y.
Proof. unfold add_yp_info. by destruct v. Qed.

Lemma alike_refl y : alike y y.
Proof. done. Qed.

Lemma refresh_alike y z : alike y z -> alike y (refresh stats z).
Proof. intros. by repeat apply add_yp_info_alike. Qed.

Lemma refresh_song_alike y z : alike y z -> alike y (refresh_song stats z).
Proof. intros. by repeat apply add_yp_info_alike. Qed.

(** ** The request for an entry *)

(** The entry is on its way out. *)
Definition removing (y : ypdata) : bool := yp_release y || bool_decide (yp_proc y = DO_REMOVE).

(** What the entry is told before its request, and the request. *)
Definition told (y : ypdata) : ypdata :=
  if removing y then y else match yp_proc y with DO_ADD => refresh stats y | _ => refresh_song stats y end.

Definition request (y : ypdata) : option string :=
  if removing y then (fun sid => ("action=remove&sid=" +:+ sid)%string) <$> yp_sid y
  else Some (match yp_proc y with
             | DO_ADD => add_text admin (told y)
             | _ => touch_text stats limit (told y)
             end).

(** What follows the answer. *)
Definition finish (y0 : ypdata) (now ret : Z) (y : ypdata) : Z * ypdata :=
  if removing y0 then (ret, set_proc DO_ADD (set_marked true (set_sid None y)))
  else match yp_proc y0 with
       | DO_ADD => (ret, if ret =? 0 then set_next_update (now + 5) (set_proc DO_TOUCH y) else y)
       | _ => if ret =? 0 then (0, set_next_update (now + yp_touch_interval y) y) else (-1, y)
       end.

(** The entry as the function for it is called. *)
Definition ready (y : ypdata) : ypdata := if yp_release y then set_next_update 0 (set_proc DO_REMOVE y) else y.

Lemma call_spec now len y :
  call_process stats admin limit ask now len (ready y) =
  match request y with
  | None => Did 0 (set_proc DO_ADD (set_marked true (ready y))) None
  | Some text => send_within now len text (ask text) (finish y now) (if removing y then ready y else told y)
  end.
Proof.
  unfold ready, request, finish, told, removing, call_process. destruct (yp_release y) eqn:R; fields; cbn [orb].
  { unfold do_yp_remove. fields. by destruct (yp_sid y). }
  destruct (yp_proc y) eqn:P; [by rewrite bool_decide_false by done..|].
  rewrite bool_decide_true by done. unfold do_yp_remove. by destruct (yp_sid y).
Qed.

Lemma told_alike y : alike y (told y).
Proof.
  unfold told. destruct (removing y); [done|].
  destruct (yp_proc y); [apply refresh_alike|apply refresh_song_alike..]; apply alike_refl.
Qed.

(** What the statistics tell about a mount. *)
Definition stats_info (mount : string) (t : yp_info) : option string :=
  url_escape_loop <$>
  match t with
  | YP_SERVER_TYPE => stats mount "server_type"
  | YP_SERVER_NAME => stats mount "server_name"
  | YP_SERVER_URL => stats mount "server_url"
  | YP_SERVER_GENRE => stats mount "genre"
  | YP_BITRATE => match stats mount "bitrate" with None => stats mount "ice-bitrate" | b => b end
  | YP_SERVER_DESC => stats mount "server_description"
  | YP_SUBTYPE => stats mount "subtype"
  | YP_AUDIO_INFO => stats mount "audio_info"
  | YP_CURRENT_SONG | YP_CLUSTER_PASSWORD => None
  end%string.

Lemma refresh_get y u : yp_infos (refresh stats y) u = default (yp_infos y u) (stats_info (yp_mount y) u).
Proof.
  unfold refresh. rewrite !add_yp_info_get.
  destruct u; repeat (rewrite decide_True by done || rewrite decide_False by done); done.
Qed.

Lemma refresh_song_get y u :
  yp_infos (refresh_song stats y) u =
  match u with
  | YP_CURRENT_SONG => default (yp_infos y u) (url_escape_loop <$> current_song stats (yp_mount y))
  | YP_SUBTYPE => default (yp_infos y u) (stats_info (yp_mount y) u)
  | _ => yp_infos y u
  end.
Proof.
  unfold refresh_song. rewrite !add_yp_info_get.
  destruct u; repeat (rewrite decide_True by done || rewrite decide_False by done); done.
Qed.

Lemma told_twice y : request (told y) = request y.
Proof.
  pose proof (told_alike y) as (M & R & _ & S & _ & P).
  assert (removing (told y) = removing y) as E by (unfold removing; by rewrite R, P).
  unfold request. rewrite E, S, P. destruct (removing y) eqn:F; [done|].
  assert (yp_listen_url (told (told y)) = yp_listen_url (told y)) as L.
  { unfold told at 1. rewrite E, P. destruct (yp_proc y); unfold refresh, refresh_song;
      by rewrite ?(proj1 (add_yp_info_rest _ _ _)). }
  assert (forall u, yp_infos (told (told y)) u = yp_infos (told y) u) as I.
  { intros u. unfold told at 1. rewrite E, P. unfold told. rewrite F.
    destruct (yp_proc y) eqn:Q; [rewrite refresh_get, refresh_get; cbn|..].
    all: unfold told in M; rewrite F, Q in M.
    - rewrite M. apply default_twice.
    - rewrite refresh_song_get, M, refresh_song_get. destruct u; try done; apply default_twice.
    - rewrite refresh_song_get, M, refresh_song_get. destruct u; try done; apply default_twice. }
  assert (yp_mount (told (told y)) = yp_mount (told y) /\ yp_sid (told (told y)) = yp_sid (told y)) as [M2 S2]
    by (by pose proof (told_alike (told y)) as (? & _ & _ & ? & _)).
  f_equal. unfold add_text, touch_text. by destruct (yp_proc y); rewrite ?L, ?M2, ?S2, !I.
Qed.

Lemma told_removing y : removing (told y) = removing y.
Proof. destruct (told_alike y) as (_ & R & _ & _ & _ & P). unfold removing. by rewrite R, P. Qed.

Lemma alike_trans x y z : alike x y -> alike y z -> alike x z.
Proof. unfold alike. intros (?&?&?&?&?&?) (?&?&?&?&?&?). split_and!; congruence. Qed.

Lemma ready_same y :
  removing y = true ->
  request (ready y) = request y /\ finish (ready y) = finish y /\ removing (ready y) = true /\ ready (ready y) = ready y.
Proof.
  intros G. unfold ready. destruct (yp_release y) eqn:E; [|by rewrite E].
  unfold request, finish. rewrite G. unfold removing. fields. by rewrite !E.
Qed.

(** One call is enough, or two. *)
Lemma process_loop_spec now y :
  match request y with
  | None =>
      process_loop stats admin limit ask 2 now 1024 y = Some (0, set_proc DO_ADD (set_marked true (ready y)), None)
  | Some text =>
      exists z, alike (ready y) z /\ process_loop stats admin limit ask 2 now 1024 y =
      Some (let '(ret, y') := send_to_yp now (ask text) z in let '(ret, y') := finish y now ret y' in (ret, y', Some text))
  end.
Proof.
  cbn [process_loop]. fold (ready y). rewrite call_spec. destruct (request y) as [text|] eqn:Q; [|done].
  unfold send_within at 1. set (z := if removing y then ready y else told y).
  assert (alike (ready y) z) as A.
  { subst z. unfold removing, ready. destruct (yp_release y); [done|]. case_match; [done|]. apply told_alike. }
  destruct (Z.leb_spec 1024 (strlen text)) as [Long|Short]; cycle 1.
  { exists z. split; [done|]. destruct (send_to_yp _ _ _) as [r w]. by destruct (finish _ _ r w). }
  fold (ready z). rewrite call_spec.
  assert (request z = request y /\ finish z = finish y /\ alike (ready y) (if removing z then ready z else told z)) as (R & F & B).
  { subst z. destruct (removing y) eqn:G.
    - destruct (ready_same y G) as (R1 & R2 & R3 & R4). rewrite R3, R4. done.
    - assert (ready y = y) as D by (unfold removing, ready in *; by destruct (yp_release y)). rewrite D in *.
      rewrite told_removing, told_twice, G. pose proof A as (_ & T2 & _ & _ & _ & T6).
      split_and!; [done|unfold finish, removing; by rewrite T2, T6|by apply (alike_trans _ _ _ A), told_alike]. }
  rewrite R, F, Q. exists (if removing z then ready z else told z). split; [done|].
  unfold send_within. destruct (Z.leb_spec (strlen text + 1) (strlen text)); [lia|].
  destruct (send_to_yp _ _ _) as [r w]. by destruct (finish _ _ r w).
Qed.

(** What becomes of an entry that is touched or added, by the answer. *)
Definition after_answer (now : Z) (y : ypdata) (answer : yp_answer) (ret : Z) (y' : ypdata) : Prop :=
  match answer with
  | Unreachable =>
      ret = (if decide (yp_proc y = DO_ADD) then -2 else -1) /\ yp_proc y' = DO_ADD /\ yp_next_update y' = now + 1200 /\
      yp_sid y' = yp_sid y
  | Answered h =>
      yp_touch_interval y' = asked_interval h (yp_touch_interval y) /\
      if welcomed h then
        ret = 0 /\ yp_proc y' = DO_TOUCH /\
        yp_next_update y' = now + (if decide (yp_proc y = DO_ADD) then 5 else yp_touch_interval y') /\
        yp_sid y' =
          (if decide (yp_proc y = DO_ADD) then match announced "SID: " h with Some t => Some (line_text t) | None => yp_sid y end
           else yp_sid y)
      else
        ret = -1 /\ yp_proc y' = DO_ADD /\ yp_sid y' = None /\
        yp_next_update y' = now + (if decide (yp_proc y = DO_ADD) then 7200 else Z.max 1200 (yp_touch_interval y'))
  end.

(** What [process_ypdata] is to do. *)
Definition processed (now : Z) (y : ypdata) (ret : Z) (y' : ypdata) : Prop :=
  yp_mount y' = yp_mount y /\ yp_release y' = yp_release y /\
  if removing y then
    yp_marked y' = true /\ yp_sid y' = None /\ yp_proc y' = DO_ADD /\
    ret = match request y with
          | None => 0
          | Some text => match ask text with Unreachable => -2 | Answered h => if welcomed h then 0 else -1 end
          end
  else
    yp_marked y' = yp_marked y /\ exists text, request y = Some text /\ after_answer now y (ask text) ret y'.

(** An entry that is not due is left alone.  One that is due leads to one
    request, or to none where it is to be removed and was never listed.  An
    entry on its way out is marked, whatever the directory answers.  For the
    others: a directory that is not reached is tried again in 20 minutes with a
    new entry; one that refuses a new entry is tried again in two hours, one
    that refuses an old entry gets a new one after the interval it asks for but
    20 minutes at least; one that accepts is told again after 5 seconds and
    then after each interval. *)
Theorem yp_process_spec now y :
  exists ret y',
    process_ypdata stats admin limit ask now y =
      Some (ret, y', if now <? yp_next_update y then None else request y) /\
    if now <? yp_next_update y then ret = 0 /\ y' = y else processed now y ret y'.
Proof.
  unfold process_ypdata. destruct (now <? yp_next_update y); [by exists 0, y|].
  pose proof (process_loop_spec now y) as L. unfold processed. destruct (request y) as [text|] eqn:Q.
  - destruct L as (z & A & L). rewrite L. pose proof (send_spec now (ask text) z) as S. cbn zeta in S.
    destruct (send_to_yp now (ask text) z) as [r w]. cbn [fst snd] in S. destruct S as (S1 & S2 & S3 & S).
    destruct A as (A1 & A2 & A3 & A4 & A5 & A6). unfold finish, ready in *.
    destruct (removing y) eqn:G.
    + do 2 eexists. split; [done|]. fields. destruct (yp_release y) eqn:E; revert A1 A2; fields; intros A1 A2.
      all: split_and!; try congruence; destruct (ask text) as [|h]; [by destruct S|destruct S as [_ S]].
      all: destruct (welcomed h); by destruct S.
    + assert (yp_release y = false /\ yp_proc y <> DO_REMOVE) as [E P].
      { unfold removing in G. apply orb_false_iff in G as [E P]. by apply bool_decide_eq_false in P. }
      rewrite E in A1, A2, A3, A4, A5, A6. unfold after_answer.
      destruct (ask text) as [|h] eqn:X; [destruct S as (S5 & S6 & S7 & S8 & S4)|
        destruct S as [S4 S]; destruct (welcomed h) eqn:Y; destruct S as (S5 & S6 & S7 & S8)].
      all: rewrite S5; cbn [Z.eqb]; rewrite ?A6, ?A5, ?A4 in *.
      all: destruct (yp_proc y) eqn:K; [| |congruence]; do 2 eexists; (split; [done|]); fields.
      all: split_and!; try congruence; exists text; rewrite ?X; unfold after_answer; rewrite ?K, ?Y.
      all: destruct (decide _); try done; split_and!; congruence.
  - assert (removing y = true /\ yp_sid y = None) as [G S].
    { unfold request in Q. destruct (removing y); [|done]. destruct (yp_sid y); [cbn in Q; discriminate|done]. }
    rewrite L, G. do 2 eexists. split; [done|]. unfold ready. fields. destruct (yp_release y) eqn:E; by rewrite ?E.
Qed.

End requests.

(** ** Servers *)

Lemma process_server_total stats admin limit ask now state l :
  exists l' sent, yp_process_server stats admin limit ask now state l = Some (l', sent).
Proof.
  revert state. induction l as [|y l IH]; intros state; [by do 2 eexists|]. cbn [yp_process_server].
  destruct (state =? -2).
  - destruct (IH state) as (l' & s & E). rewrite E. run_bind. by do 2 eexists.
  - destruct (yp_process_spec stats admin limit ask now y) as (r & y' & E & _). rewrite E. run_bind.
    destruct (IH r) as (l' & s & F). rewrite F. run_bind. by do 2 eexists.
Qed.

Lemma communicate_total stats admin limit ask now l : exists l' sent, communicate stats admin limit ask now l = Some (l', sent).
Proof.
  induction l as [|s l (l' & sent & IH)]; [by do 2 eexists|]. cbn [communicate].
  destruct (process_server_total stats admin limit (ask (yps_url s)) now 0 (yps_mounts s)) as (m & q & E).
  rewrite E. run_bind. rewrite IH. run_bind. by do 2 eexists.
Qed.

(** The loop of [yp_remove] releases each entry of the mount that is not on
    its way out. *)
Definition released (mount : string) (y : ypdata) : ypdata :=
  if decide (yp_mount y = mount) then
    if yp_release y || yp_marked y then y else set_next_update 0 (set_release true y)
  else y.

Definition weight (mount : string) (y : ypdata) : nat :=
  if decide (yp_mount y = mount) then if yp_release y || yp_marked y then 1 else 2 else 0.

Lemma weight_here mount y : yp_mount y = mount -> weight mount y = if yp_release y || yp_marked y then 1%nat else 2%nat.
Proof. intros. unfold weight. by rewrite decide_True. Qed.

Lemma released_twice mount y : released mount (released mount y) = released mount y.
Proof.
  unfold released. destruct (decide (yp_mount y = mount)) as [e|e]; [|by rewrite decide_False].
  destruct (yp_release y || yp_marked y) eqn:E; [by rewrite decide_True, E by done|]. by rewrite decide_True by done.
Qed.

Lemma find_split mount l i y :
  find_yp_mount l mount = Some (i, y) ->
  exists l1 l2, l = l1 ++ y :: l2 /\ length l1 = i /\ yp_mount y = mount /\ Forall (fun z => yp_mount z <> mount) l1.
Proof.
  intros (L & P & F)%list_find_Some. exists (take i l), (drop (S i) l). split_and!; [|..|done|].
  - by rewrite take_drop_middle.
  - apply length_take_le. apply lookup_lt_Some in L. lia.
  - apply Forall_lookup. intros j z [Lj Hj]%lookup_take_Some. by apply (F j).
Qed.

Lemma released_others mount l : Forall (fun z => yp_mount z <> mount) l -> released mount <$> l = l.
Proof.
  intros F. rewrite <- (list_fmap_id l) at 2. apply list_fmap_ext. intros i z L.
  unfold released. rewrite decide_False; [done|]. by apply (Forall_lookup_1 _ _ _ _ F L).
Qed.

Lemma release_loop_spec fuel mount pre l :
  (sum_list_with (weight mount) l < fuel)%nat ->
  release_loop fuel mount (length pre) (pre ++ l) = Some (pre ++ (released mount <$> l)).
Proof.
  revert pre l. induction fuel as [|fuel IH]; intros pre l W; [lia|]. cbn [release_loop].
  rewrite drop_app_length. destruct (find_yp_mount l mount) as [[i y]|] eqn:E.
  - apply find_split in E as (l1 & l2 & -> & <- & M & N).
    rewrite sum_list_with_app in W. cbn [sum_list_with] in W.
    rewrite (weight_here mount y) in W by done. destruct (yp_release y || yp_marked y) eqn:O.
    + replace (length pre + length l1 + 1)%nat with (length (pre ++ l1 ++ [y])) by (rewrite !length_app; cbn; lia).
      replace (pre ++ l1 ++ y :: l2) with ((pre ++ l1 ++ [y]) ++ l2) by (by rewrite <- !app_assoc).
      rewrite IH by lia. rewrite fmap_app, fmap_cons, (released_others _ l1), <- !app_assoc by done. cbn.
      unfold released at 2. by rewrite decide_True, O by done.
    + replace (<[_ := _]> (pre ++ l1 ++ y :: l2)) with (pre ++ l1 ++ released mount y :: l2); cycle 1.
      { rewrite !insert_app_r_alt by lia. replace (_ - _ - _)%nat with 0%nat by lia. cbn.
        unfold released. by rewrite decide_True, O by done. }
      rewrite IH.
      * by rewrite !fmap_app, !fmap_cons, released_twice.
      * rewrite sum_list_with_app. cbn [sum_list_with]. unfold released. rewrite decide_True, O by done.
        rewrite (weight_here mount (set_next_update _ _)) by done. cbn [set_next_update set_release yp_release orb]. lia.
  - rewrite released_others; [done|]. apply list_find_None in E. done.
Qed.

Lemma weight_bound mount l : (sum_list_with (weight mount) l <= 2 * length l)%nat.
Proof. induction l as [|y l IH]; cbn; [lia|]. unfold weight at 1. repeat case_match; lia. Qed.

Lemma release_at_spec mount s : release_at mount s = Some (set_mounts (released mount <$> yps_mounts s) (yps_pending s) s).
Proof.
  unfold release_at. pose proof (release_loop_spec (2 * length (yps_mounts s) + 1) mount [] (yps_mounts s)) as E.
  cbn [length app] in E. rewrite E; [done|]. pose proof (weight_bound mount (yps_mounts s)). lia.
Qed.

Lemma yp_remove_spec mount st :
  yp_remove mount st =
  Some (Yp_state ((fun s => set_mounts (released mount <$> yps_mounts s) (yps_pending s) s) <$> active_yps st)
          (pending_yps st) (yp_update st) (yp_client_limit st)).
Proof.
  unfold yp_remove. enough (mapM (release_at mount) (active_yps st) =
    Some ((fun s => set_mounts (released mount <$> yps_mounts s) (yps_pending s) s) <$> active_yps st)) as -> by done.
  induction (active_yps st) as [|s l IH]; [done|]. cbn [mapM]. rewrite release_at_spec. run_bind. by rewrite IH.
Qed.

(** A server that can be reached marks each entry that is released. *)
Lemma process_server_marks stats admin limit ask now state l l' sent :
  (forall text, ask text <> Unreachable) -> state <> -2 ->
  (forall y, y ∈ l -> yp_release y = true -> yp_next_update y <= now) ->
  yp_process_server stats admin limit ask now state l = Some (l', sent) ->
  Forall2 (fun y y' => yp_mount y' = yp_mount y /\ (yp_release y = true -> yp_marked y' = true)) l l' /\
  forall y sid, y ∈ l -> yp_release y = true -> yp_sid y = Some sid -> (("action=remove&sid=" +:+ sid)%string ∈ sent).
Proof.
  intros Reach. revert state l' sent. induction l as [|y l IH]; intros state l' sent S Due E.
  { cbn in E. injection E as <- <-. split; [constructor|]. by intros y sid ?%elem_of_nil. }
  cbn [yp_process_server] in E. rewrite (proj2 (Z.eqb_neq _ _) S) in E.
  destruct (yp_process_spec stats admin limit ask now y) as (r & y' & P & Q). rewrite P in E. run_bind. cbn in E.
  destruct (yp_process_server stats admin limit ask now r l) as [[m q]|] eqn:F; [|done]. cbn in E. injection E as <- <-.
  assert (r <> -2) as R.
  { destruct (now <? yp_next_update y); [by destruct Q as [-> _]|]. destruct Q as (_ & _ & Q).
    destruct (removing y); [destruct Q as (_ & _ & _ & ->)|destruct Q as (_ & text & _ & Q)].
    - case_match; [|done]. specialize (Reach s). by repeat case_match.
    - specialize (Reach text). unfold after_answer in Q. destruct (ask text) as [|h]; [done|].
      destruct Q as [_ Q]. by destruct (welcomed h), Q as (-> & _). }
  destruct (IH r m q R) as [IH1 IH2]; [by intros z ?; apply Due; right|done|].
  assert (yp_release y = true -> (now <? yp_next_update y) = false) as D.
  { intros G. apply Z.ltb_ge. apply Due; [by left|done]. }
  split; [constructor; [|done]; split|].
  - destruct (now <? yp_next_update y); by destruct Q as [? Q]; subst.
  - intros G. rewrite (D G) in Q. unfold processed, removing in Q. rewrite G in Q. by destruct Q as (_ & _ & Q & _).
  - intros z sid [->|Z]%elem_of_cons G I; apply elem_of_app; [left|right; by apply (IH2 z)].
    rewrite (D G). unfold request, removing. rewrite G, I. cbn. by left.
Qed.

(** ** The invariant *)

Definition entry_ok (y : ypdata) : Prop := 30 <= yp_touch_interval y /\ yp_marked y = false.

Definition server_ok (s : yp_server) : Prop :=
  30 <= yps_touch_interval s /\ Forall entry_ok (yps_mounts s ++ yps_pending s) /\
  Forall (fun y => yp_release y = false) (yps_pending s).

(** The directories are distinct; what is pending is fresh, and the thread has
    been told of it. *)
Definition yp_inv (st : yp_state) : Prop :=
  NoDup (yps_url <$> active_yps st ++ pending_yps st) /\
  Forall server_ok (active_yps st ++ pending_yps st) /\
  (yp_update st = false -> pending_yps st = [] /\ Forall (fun s => yps_pending s = []) (active_yps st)).

(** The calls, and the rounds of the thread. *)
Inductive yp_step : yp_state -> yp_state -> Prop :=
| step_recheck config st : yp_step st (yp_recheck_config config st)
| step_add config now mount st : yp_step st (yp_add config now mount st)
| step_remove mount st st' : yp_remove mount st = Some st' -> yp_step st st'
| step_touch now mount st : yp_step st (yp_touch now mount st)
| step_round config sources stats admin ask now st st' sent :
    yp_round config sources stats admin ask now st = Some (st', sent) -> yp_step st st'.

Definition yp_initial : yp_state := Yp_state [] [] false 0.

Lemma asked_interval_bound h b : 30 <= b -> 30 <= asked_interval h b.
Proof. unfold asked_interval. destruct (announced _ h); lia. Qed.

Lemma create_yp_entry_spec config mount y :
  create_yp_entry config mount = Some y -> yp_mount y = mount /\ yp_marked y = false /\ yp_release y = false.
Proof. unfold create_yp_entry, add_yp_info. intros E. destruct (yc_cluster_password config mount); injection E as <-; done. Qed.

(** A request keeps the interval long enough. *)
Lemma process_interval stats admin limit ask now y r y' sent :
  process_ypdata stats admin limit ask now y = Some (r, y', sent) -> 30 <= yp_touch_interval y -> 30 <= yp_touch_interval y'.
Proof.
  unfold process_ypdata. destruct (now <? yp_next_update y); [by intros [= <- <- <-]|]. intros E I.
  pose proof (process_loop_spec stats admin limit ask now y) as L. destruct (request stats admin limit y) as [text|].
  - destruct L as (z & (_ & _ & _ & _ & A & _) & L). rewrite L in E. pose proof (send_spec now (ask text) z) as S. cbn zeta in S.
    destruct (send_to_yp now (ask text) z) as [q w]. destruct S as (_ & _ & _ & S). cbn [fst snd] in S.
    assert (30 <= yp_touch_interval w) as W.
    { assert (yp_touch_interval (ready y) = yp_touch_interval y) as R by (unfold ready; by destruct (yp_release y)).
      destruct (ask text); [destruct S as (_ & _ & _ & _ & ->)|destruct S as [-> _]; apply asked_interval_bound]; by rewrite A, R. }
    unfold finish in E. destruct (removing y); [by injection E as <- <- <-|].
    destruct (yp_proc y); destruct (q =? 0); by injection E as <- <- <-.
  - rewrite L in E. injection E as <- <- <-. unfold ready. by destruct (yp_release y).
Qed.

Lemma process_server_interval stats admin limit ask now state l l' sent :
  yp_process_server stats admin limit ask now state l = Some (l', sent) ->
  Forall (fun y => 30 <= yp_touch_interval y) l -> Forall (fun y => 30 <= yp_touch_interval y) l'.
Proof.
  revert state l' sent. induction l as [|y l IH]; intros state l' sent E F; [cbn in E; by injection E as <- <-|].
  apply Forall_cons in F as [F1 F2]. cbn [yp_process_server] in E. destruct (state =? -2).
  - destruct (yp_process_server stats admin limit ask now state l) as [[m q]|] eqn:G; [|done]. cbn in E.
    injection E as <- <-. constructor; [done|by apply (IH _ _ _ G)].
  - destruct (process_ypdata stats admin limit ask now y) as [[[r y'] t]|] eqn:P; [|done]. cbn in E.
    destruct (yp_process_server stats admin limit ask now r l) as [[m q]|] eqn:G; [|done]. cbn in E.
    injection E as <- <-. constructor; [by apply (process_interval _ _ _ _ _ _ _ _ _ P)|by apply (IH _ _ _ G)].
Qed.

(** The servers after the part that talks to them. *)
Lemma communicate_spec stats admin limit ask now l l' sent :
  communicate stats admin limit ask now l = Some (l', sent) ->
  Forall2 (fun s s' => exists m q,
    yp_process_server stats admin limit (ask (yps_url s)) now 0 (yps_mounts s) = Some (m, q) /\
    s' = set_mounts m (yps_pending s) s /\ forall t, t ∈ q -> (yps_url s, t) ∈ sent) l l'.
Proof.
  revert l' sent. induction l as [|s l IH]; intros l' sent E; [cbn in E; injection E as <- <-; constructor|].
  cbn [communicate] in E. destruct (yp_process_server _ _ _ _ _ _ _) as [[m q]|] eqn:P; [|done]. cbn in E.
  destruct (communicate stats admin limit ask now l) as [[n more]|] eqn:C; [|done]. cbn in E. injection E as <- <-.
  constructor.
  - exists m, q. split_and!; [done|done|]. intros t T. apply elem_of_app. left. by apply list_elem_of_fmap_2.
  - eapply Forall2_impl; [by apply IH|]. cbn. intros a b (m2 & q2 & A & B & D). exists m2, q2. split_and!; [done|done|].
    intros t T. apply elem_of_app. right. by apply D.
Qed.

Lemma populate_spec config sources s :
  yps_url (populate config sources s) = yps_url s /\ yps_pending (populate config sources s) = yps_pending s /\
  yps_touch_interval (populate config sources s) = yps_touch_interval s /\
  exists new, yps_mounts (populate config sources s) = new ++ yps_mounts s /\
    Forall (fun y => yp_marked y = false /\ yp_release y = false /\ yp_touch_interval y = yps_touch_interval s /\
                     (yp_mount y, true) ∈ sources) new.
Proof.
  induction sources as [|[mount public] l IH] using rev_ind; [cbn; split_and!; try done; by exists []|].
  unfold populate in *. rewrite foldl_app. cbn [foldl]. set (t := foldl _ s l) in *. clearbody t.
  destruct IH as (A & B & C & new & D & F).
  assert (Forall (fun y => yp_marked y = false /\ yp_release y = false /\ yp_touch_interval y = yps_touch_interval s /\
                     (yp_mount y, true) ∈ l ++ [(mount, public)]) new) as F2.
  { eapply Forall_impl; [done|]. cbn. intros y (? & ? & ? & ?). split_and!; try done. apply elem_of_app. by left. }
  destruct public; [|by split_and!; try done; exists new].
  destruct (create_yp_entry config mount) as [y|] eqn:E; [|by split_and!; try done; exists new].
  apply create_yp_entry_spec in E as (E1 & E2 & E3). split_and!; [done..|].
  exists (set_touch_interval (yps_touch_interval t) y :: new). split; [cbn; by rewrite D|].
  constructor; [|done]. fields. split_and!; try done. rewrite E1. apply elem_of_app. right. by left.
Qed.

Lemma foldl_cons {A B} (f : A -> B) p k : foldl (fun l s => f s :: l) k p = reverse (f <$> p) ++ k.
Proof.
  revert k. induction p as [|a p IH]; intros k; [done|]. cbn [foldl]. rewrite IH, fmap_cons, reverse_cons.
  by rewrite <- app_assoc.
Qed.

(** A server whose entries may have been marked. *)
Definition server_pre (s : yp_server) : Prop :=
  30 <= yps_touch_interval s /\ Forall (fun y => 30 <= yp_touch_interval y) (yps_mounts s ++ yps_pending s) /\
  Forall (fun y => yp_marked y = false /\ yp_release y = false) (yps_pending s).

Lemma server_ok_pre s : server_ok s -> server_pre s.
Proof.
  intros (I & [M P]%Forall_app & R). split_and!; [done|..].
  - apply Forall_app. split; eapply Forall_impl; [exact M|by intros ? []|exact P|by intros ? []].
  - apply Forall_forall. intros y Y. rewrite Forall_forall in P, R. by split; [apply P|apply R].
Qed.

Lemma populate_pre config sources s : server_pre s -> server_pre (populate config sources s).
Proof.
  intros (I & [M P]%Forall_app & R). destruct (populate_spec config sources s) as (_ & B & C & new & D & F).
  unfold server_pre. rewrite B, C, D. split_and!; [done| |done]. rewrite !Forall_app. split_and!; try done.
  eapply Forall_impl; [exact F|]. cbn. intros y (_ & _ & -> & _). done.
Qed.

Lemma cleaned_ok s : server_pre s -> server_ok (delete_marked_yp (add_pending_yp s)).
Proof.
  intros (I & [M P]%Forall_app & R). split_and!; [done| |by constructor]. cbn. rewrite app_nil_r.
  apply Forall_forall. intros y [Y1 Y2]%list_elem_of_filter. split; [|done].
  rewrite Forall_forall in M, P. apply elem_of_app in Y2 as [Y|Y]; [by apply P|by apply M].
Qed.

(** The thread leaves the invariant, and nothing pending. *)
Lemma update_pass_inv config sources st :
  NoDup (yps_url <$> active_yps st ++ pending_yps st) -> Forall server_pre (active_yps st ++ pending_yps st) ->
  yp_update st = true -> yp_inv (update_pass config sources st).
Proof.
  intros N [A P]%Forall_app U. unfold update_pass, check_servers, yp_inv. rewrite U. cbn [active_yps pending_yps yp_update].
  rewrite foldl_cons, app_nil_r. split_and!.
  - rewrite <- list_fmap_compose, fmap_app, fmap_reverse, <- list_fmap_compose.
    rewrite (list_fmap_ext _ yps_url (pending_yps st)) by (intros; cbn; apply populate_spec).
    rewrite fmap_app in N. apply NoDup_app in N as (N1 & N2 & N3). apply NoDup_app. split_and!.
    + by rewrite reverse_Permutation.
    + intros u Hu [s [-> [_ Hs]%list_elem_of_filter]]%list_elem_of_fmap. rewrite elem_of_reverse in Hu.
      apply (N2 (yps_url s)); [by apply list_elem_of_fmap_2|done].
    + eapply sublist_NoDup; [exact N1|]. apply (fmap_sublist (yps_url)), sublist_filter.
  - apply Forall_fmap. apply Forall_app. split.
    + rewrite Forall_forall. intros s. rewrite elem_of_reverse. intros [t [-> T]]%list_elem_of_fmap.
      apply cleaned_ok, populate_pre. rewrite Forall_forall in P. by apply P.
    + rewrite Forall_forall. intros s [_ S]%list_elem_of_filter. apply cleaned_ok. rewrite Forall_forall in A. by apply A.
  - intros _. split; [done|]. apply Forall_fmap, Forall_true. done.
Qed.

Lemma round_inv config sources stats admin ask now st st' sent :
  yp_inv st -> yp_round config sources stats admin ask now st = Some (st', sent) -> yp_inv st'.
Proof.
  intros (N & [A P]%Forall_app & Q) E. unfold yp_round in E.
  destruct (communicate stats admin (yp_client_limit st) ask now (active_yps st)) as [[l q]|] eqn:C; [|done]. cbn in E.
  injection E as <- <-. apply communicate_spec in C.
  assert (yps_url <$> l = yps_url <$> active_yps st) as U.
  { clear -C. induction C as [|s s' k k' (m & q2 & _ & -> & _) C IH]; [done|]. cbn. by rewrite IH. }
  assert (Forall server_pre l) as L.
  { clear -A C. induction C as [|s s' k k' (m & q2 & E & -> & _) C IH]; [done|]. apply Forall_cons in A as [A1 A2].
    constructor; [|by apply IH]. apply server_ok_pre in A1 as (I & [M P]%Forall_app & R). split_and!; [done| |done].
    apply Forall_app. split; [|done]. by apply (process_server_interval _ _ _ _ _ _ _ _ _ E). }
  assert (Forall2 (fun s s' => yps_pending s' = yps_pending s) (active_yps st) l) as D.
  { eapply Forall2_impl; [exact C|]. by intros s s' (m & q2 & _ & -> & _). }
  destruct (yp_update st || existsb (fun s => existsb yp_marked (yps_mounts s)) l) eqn:F.
  - apply update_pass_inv; cbn [active_yps pending_yps yp_update].
    + by rewrite fmap_app, U, <- fmap_app.
    + apply Forall_app. split; [done|]. eapply Forall_impl; [exact P|]. apply server_ok_pre.
    + done.
  - apply orb_false_iff in F as [F1 F2]. unfold update_pass. cbn [yp_update]. split_and!; cbn [active_yps pending_yps].
    + by rewrite fmap_app, U, <- fmap_app.
    + apply Forall_app. split; [|done]. apply Forall_forall. intros s S. rewrite Forall_forall in L.
      destruct (L s S) as (I & [M W]%Forall_app & R). split_and!; [done| |].
      * apply Forall_app. split; apply Forall_forall; intros y Y; split.
        -- rewrite Forall_forall in M. by apply M.
        -- destruct (yp_marked y) eqn:K; [|done]. rewrite <- F2. symmetry. apply existsb_exists. exists s.
           split; [by apply list_elem_of_In|]. apply existsb_exists. exists y. by split; [apply list_elem_of_In|].
        -- rewrite Forall_forall in W. by apply W.
        -- rewrite Forall_forall in R. by apply R.
      * eapply Forall_impl; [exact R|]. by intros ? [].
    + intros _. destruct (Q F1) as [Q1 Q2]. split; [done|]. clear -D Q2. induction D as [|s s' k k' E D IH]; [done|].
      apply Forall_cons in Q2 as [Q2 Q3]. constructor; [congruence|by apply IH].
Qed.

Lemma alter_urls b (j : nat) (k : list yp_server) : yps_url <$> alter (set_remove b) j k = yps_url <$> k.
Proof. revert j. induction k as [|s k IH]; intros [|j]; [done..|]. cbn. by rewrite <- (IH j). Qed.

Lemma alter_ok b (j : nat) (k : list yp_server) : Forall server_ok k -> Forall server_ok (alter (set_remove b) j k).
Proof. intros K. by apply Forall_alter. Qed.

(** The lists, when the thread has been told of a change. *)
Definition told_inv (st : yp_state) : Prop :=
  NoDup (yps_url <$> active_yps st ++ pending_yps st) /\ Forall server_ok (active_yps st ++ pending_yps st).

Lemma recheck_directory_inv st d : told_inv st -> told_inv (recheck_directory st d).
Proof.
  destruct d as [[url t] i]. intros (N & [A P]%Forall_app). unfold recheck_directory, find_yp_server.
  destruct (list_find _ (active_yps st)) as [[j s]|] eqn:E.
  { split; cbn [active_yps pending_yps]; [by rewrite fmap_app, alter_urls, <- fmap_app|].
    apply Forall_app. split; [by apply alter_ok|done]. }
  destruct (list_find _ (pending_yps st)) as [[j s]|] eqn:F.
  { split; cbn [active_yps pending_yps]; [by rewrite fmap_app, alter_urls, <- fmap_app|].
    apply Forall_app. split; [done|by apply alter_ok]. }
  apply list_find_None in E, F. split; cbn [active_yps pending_yps].
  - rewrite <- Permutation_middle. cbn. constructor; [|done]. rewrite fmap_app. apply not_elem_of_app.
    split; intros [s [X S]]%list_elem_of_fmap; rewrite Forall_forall in E, F; [by apply (E s)|by apply (F s)].
  - apply Forall_app. split; [done|]. constructor; [|done]. unfold server_ok, new_server. cbn.
    split_and!; [|constructor..]. destruct (Z.ltb_spec (u32 i) 30); lia.
Qed.

Lemma recheck_inv config st : told_inv st -> yp_inv (yp_recheck_config config st).
Proof.
  intros I. unfold yp_recheck_config.
  enough (told_inv (foldl recheck_directory
    (Yp_state (set_remove true <$> active_yps st) (pending_yps st) (yp_update st) (yc_client_limit config)) (yc_directories config)))
    as [N F] by (unfold yp_inv; cbn [active_yps pending_yps yp_update]; by split_and!).
  set (st0 := Yp_state _ _ _ _). assert (told_inv st0) as J.
  { destruct I as [N [A P]%Forall_app]. split; cbn [st0 active_yps pending_yps].
    - rewrite fmap_app, <- list_fmap_compose. by rewrite fmap_app in N.
    - apply Forall_app. split; [by apply Forall_fmap|done]. }
  clearbody st0. revert st0 J. induction (yc_directories config) as [|d l IH]; intros st0 J; [done|].
  cbn [foldl]. by apply IH, recheck_directory_inv.
Qed.

(** A call that changes entries in place, and keeps their interval and their
    mark. *)
Lemma inplace_inv (f : list ypdata -> list ypdata) st :
  (forall l, Forall entry_ok l -> Forall entry_ok (f l)) ->
  yp_inv st ->
  yp_inv (Yp_state ((fun s => set_mounts (f (yps_mounts s)) (yps_pending s) s) <$> active_yps st) (pending_yps st)
            (yp_update st) (yp_client_limit st)).
Proof.
  intros K (N & [A P]%Forall_app & Q). split_and!; cbn [active_yps pending_yps yp_update].
  - rewrite fmap_app, <- list_fmap_compose. by rewrite fmap_app in N.
  - apply Forall_app. split; [|done]. apply Forall_fmap. eapply Forall_impl; [exact A|]. cbn.
    intros s (I & [M W]%Forall_app & R). split_and!; [done| |done]. apply Forall_app. split; [by apply K|done].
  - intros U. destruct (Q U) as [Q1 Q2]. split; [done|]. apply Forall_fmap. eapply Forall_impl; [exact Q2|]. done.
Qed.

Lemma released_ok mount l : Forall entry_ok l -> Forall entry_ok (released mount <$> l).
Proof.
  intros F. apply Forall_fmap. eapply Forall_impl; [exact F|]. intros y. cbn. unfold released, entry_ok.
  by repeat case_match.
Qed.

Lemma touch_at_ok now mount l : Forall entry_ok l -> Forall entry_ok (touch_at now mount l).
Proof.
  induction 1 as [|y l Y F IH]; [constructor|]. cbn [touch_at]. unfold entry_ok in *. repeat case_match; by constructor.
Qed.

Lemma add_inv config now mount st : yp_inv st -> yp_inv (yp_add config now mount st).
Proof.
  intros (N & [A P]%Forall_app & Q). unfold yp_add. split_and!; cbn [active_yps pending_yps yp_update].
  - rewrite fmap_app, <- !list_fmap_compose. rewrite fmap_app in N.
    rewrite (list_fmap_ext _ yps_url (active_yps st)); [done|]. intros i s _. cbn. unfold add_at. by repeat case_match.
  - apply Forall_app. split; [|done]. rewrite <- list_fmap_compose. apply Forall_fmap. eapply Forall_impl; [exact A|].
    intros s (I & [M W]%Forall_app & R). cbn. unfold add_at. destruct (find_yp_mount _ _); [by split_and!; [|apply Forall_app|]|].
    destruct (create_yp_entry config mount) as [y|] eqn:E; [|by split_and!; [|apply Forall_app|]].
    apply create_yp_entry_spec in E as (E1 & E2 & E3). split_and!; [done| |by constructor].
    apply Forall_app. split; [done|]. by constructor.
  - intros [U V]%orb_false_iff. destruct (Q U) as [Q1 Q2]. split; [done|]. apply Forall_forall.
    intros s [[s' b] [-> S]]%list_elem_of_fmap. cbn. assert (b = false) as ->.
    { destruct b; [|done]. rewrite <- V. symmetry. apply existsb_exists. exists (s', true). by split; [apply list_elem_of_In|]. }
    apply list_elem_of_fmap in S as (t & E & T). rewrite Forall_forall in Q2. unfold add_at in E.
    repeat case_match; injection E as ->; by apply Q2.
Qed.


(** ** The removal of a mount *)

(** The entries of the mount are those that are to go. *)
Definition all_leaving (mount : string) (s : yp_server) : Prop :=
  Forall (fun y => yp_mount y = mount -> yp_marked y = true) (yps_mounts s) /\
  Forall (fun y => yp_mount y <> mount) (yps_pending s).

Lemma cleaned_leaving mount s :
  all_leaving mount s ->
  Forall (fun y => yp_mount y <> mount)
    (yps_mounts (delete_marked_yp (add_pending_yp s)) ++ yps_pending (delete_marked_yp (add_pending_yp s))).
Proof.
  intros [M P]. cbn. rewrite app_nil_r. apply Forall_forall. intros y [Y1 Y2]%list_elem_of_filter E.
  apply elem_of_app in Y2 as [Y|Y]; rewrite Forall_forall in M, P; [by apply (P y)|]. rewrite (M y Y E) in Y1. done.
Qed.

Lemma update_pass_leaving config sources mount st :
  (mount, true) ∉ sources -> yp_update st = true ->
  Forall (all_leaving mount) (active_yps st) ->
  Forall (fun s => Forall (fun y => yp_mount y <> mount) (yps_mounts s ++ yps_pending s)) (pending_yps st) ->
  Forall (fun s => Forall (fun y => yp_mount y <> mount) (yps_mounts s ++ yps_pending s))
    (active_yps (update_pass config sources st)).
Proof.
  intros S U A P. unfold update_pass, check_servers. rewrite U. cbn [active_yps]. rewrite foldl_cons.
  apply Forall_fmap, Forall_app. split.
  - apply Forall_reverse, Forall_fmap. eapply Forall_impl; [exact P|]. intros s [F1 F2]%Forall_app. cbn.
    apply cleaned_leaving. destruct (populate_spec config sources s) as (_ & B & _ & new & D & G).
    unfold all_leaving. rewrite B, D. split; [|done]. apply Forall_app. split.
    + eapply Forall_impl; [exact G|]. cbn. intros y (_ & _ & _ & Y) <-. done.
    + eapply Forall_impl; [exact F1|]. by intros.
  - apply Forall_forall. intros s [_ Hs]%list_elem_of_filter. apply cleaned_leaving. rewrite Forall_forall in A. by apply A.
Qed.

(** The entries of the mount after [yp_remove]. *)
Lemma released_leaving mount l y :
  Forall entry_ok l -> y ∈ released mount <$> l -> yp_mount y = mount -> yp_release y = true.
Proof.
  intros F [z [-> Z]]%list_elem_of_fmap. rewrite Forall_forall in F. destruct (F z Z) as [_ M]. unfold released.
  destruct (decide (yp_mount z = mount)); [|done]. rewrite M, orb_false_r. by destruct (yp_release z) eqn:E.
Qed.

Lemma released_due mount now (l : list ypdata) y :
  0 <= now -> (forall z, z ∈ l -> yp_release z = true -> yp_next_update z <= now) ->
  y ∈ released mount <$> l -> yp_release y = true -> yp_next_update y <= now.
Proof.
  intros Now D [z [-> Z]]%list_elem_of_fmap. unfold released. repeat case_match; try (by apply D). by intros.
Qed.

(** What the servers are like after the requests of the round. *)
Lemma communicate_leaving stats admin limit ask now mount l l' sent :
  (forall url text, ask url text <> Unreachable) -> 0 <= now ->
  Forall server_ok l -> (forall s y, s ∈ l -> y ∈ yps_pending s -> yp_mount y <> mount) ->
  (forall s y, s ∈ l -> y ∈ yps_mounts s -> yp_release y = true -> yp_next_update y <= now) ->
  communicate stats admin limit ask now ((fun s => set_mounts (released mount <$> yps_mounts s) (yps_pending s) s) <$> l) =
    Some (l', sent) ->
  Forall (all_leaving mount) l' /\
  forall s y sid, s ∈ l -> y ∈ yps_mounts s -> yp_mount y = mount -> yp_sid y = Some sid ->
    (yps_url s, ("action=remove&sid=" +:+ sid)%string) ∈ sent.
Proof.
  intros Reach Now F W Due C%communicate_spec. apply Forall2_fmap_l in C. rewrite Forall_forall in F.
  assert (forall s s', s ∈ l -> (exists m q,
    yp_process_server stats admin limit (ask (yps_url s)) now 0 (released mount <$> yps_mounts s) = Some (m, q) /\
    s' = set_mounts m (yps_pending s) s /\ forall t, t ∈ q -> (yps_url s, t) ∈ sent) ->
    all_leaving mount s' /\ forall y sid, y ∈ yps_mounts s -> yp_mount y = mount -> yp_sid y = Some sid ->
      (yps_url s, ("action=remove&sid=" +:+ sid)%string) ∈ sent) as K.
  { intros s s' S (m & q & E & -> & Q). destruct (F s S) as (_ & [M _]%Forall_app & _).
    apply process_server_marks in E as [E1 E2]; [|done|done|by intros y Y; apply (released_due mount now (yps_mounts s)); [|intros; by apply (Due s)|]].
    split; [split; cbn [set_mounts yps_mounts yps_pending]|].
    - apply Forall_forall. intros y' Y' E. apply (list_elem_of_lookup_1 m) in Y' as [i Y'].
      destruct (Forall2_lookup_r _ _ _ _ _ E1 Y') as (y & Y & G1 & G2). apply G2, (released_leaving mount _ y M); [|congruence].
      by apply list_elem_of_lookup_2 in Y.
    - apply Forall_forall. intros y Y. by apply (W s).
    - intros y sid Y MY I. apply Q, (E2 (released mount y)).
      + by apply list_elem_of_fmap_2.
      + apply (released_leaving mount (yps_mounts s)); [done|by apply list_elem_of_fmap_2|]. unfold released. by repeat case_match.
      + unfold released. by repeat case_match. }
  split.
  - apply Forall_forall. intros s' S'. apply (list_elem_of_lookup_1 l') in S' as [i S'].
    destruct (Forall2_lookup_r _ _ _ _ _ C S') as (s & S & G). apply list_elem_of_lookup_2 in S. by destruct (K s s' S G).
  - intros s y sid S. pose proof S as S2. apply (list_elem_of_lookup_1 l) in S as [i S].
    destruct (Forall2_lookup_l _ _ _ _ _ C S) as (s' & S' & G). destruct (K s s' S2 G) as [_ R]. apply R.
Qed.

(** A mount that is removed goes from the directories with the next round
    of the thread, when they can be reached: no entry of it is left, and each
    session there was is ended by a request to its directory. *)
Theorem yp_removed config sources stats admin ask now mount st :
  (forall url text, ask url text <> Unreachable) ->
  yp_inv st ->
  (mount, true) ∉ sources ->
  (forall s y, s ∈ active_yps st ++ pending_yps st -> y ∈ yps_pending s -> yp_mount y <> mount) ->
  (forall s y, s ∈ pending_yps st -> y ∈ yps_mounts s -> yp_mount y <> mount) ->
  (forall s y, s ∈ active_yps st -> y ∈ yps_mounts s -> yp_release y = true -> yp_next_update y <= now) -> 0 <= now ->
  exists st1 st2 sent,
    yp_remove mount st = Some st1 /\ yp_round config sources stats admin ask now st1 = Some (st2, sent) /\
    (forall s y, s ∈ active_yps st2 -> y ∈ yps_mounts s ++ yps_pending s -> yp_mount y <> mount) /\
    (forall s y sid, s ∈ active_yps st -> y ∈ yps_mounts s -> yp_mount y = mount -> yp_sid y = Some sid ->
       (yps_url s, ("action=remove&sid=" +:+ sid)%string) ∈ sent).
Proof.
  intros Reach (N & [A P]%Forall_app & _) S W W2 Due Now.
  set (l := (fun s => set_mounts (released mount <$> yps_mounts s) (yps_pending s) s) <$> active_yps st).
  destruct (communicate_total stats admin (yp_client_limit st) ask now l) as (l' & q & C).
  destruct (communicate_leaving _ _ _ _ _ _ _ _ _ Reach Now A (fun s y H => W s y (proj2 (elem_of_app _ _ _) (or_introl H))) Due C)
    as [L R].
  exists (Yp_state l (pending_yps st) (yp_update st) (yp_client_limit st)). unfold yp_round. cbn [active_yps yp_client_limit pending_yps yp_update].
  rewrite C. run_bind. do 2 eexists. split_and!; [apply yp_remove_spec|done| |done].
  destruct (yp_update st || existsb (fun s => existsb yp_marked (yps_mounts s)) l') eqn:U.
  - intros s y Hs Hy.
    assert (Forall (fun s => Forall (fun y => yp_mount y <> mount) (yps_mounts s ++ yps_pending s)) (pending_yps st)) as PW.
    { apply Forall_forall. intros t T. apply Forall_app.
      split; apply Forall_forall; intros z Z; [by apply (W2 t)|apply (W t); [apply elem_of_app; by right|done]]. }
    pose proof (update_pass_leaving config sources mount (Yp_state l' (pending_yps st) true (yp_client_limit st)) S eq_refl L PW) as X.
    rewrite Forall_forall in X. specialize (X s Hs). rewrite Forall_forall in X. by apply X.
  - apply orb_false_iff in U as [_ U]. cbn [update_pass yp_update active_yps]. intros s y Hs Hy E.
    rewrite Forall_forall in L. destruct (L s Hs) as [M Q]. rewrite Forall_forall in M, Q.
    apply elem_of_app in Hy as [Hy|Hy]; [|by apply (Q y)]. pose proof (M y Hy E) as K.
    enough (existsb (fun s => existsb yp_marked (yps_mounts s)) l' = true) by congruence.
    apply existsb_exists. exists s. split; [by apply list_elem_of_In|]. apply existsb_exists. exists y.
    by split; [apply list_elem_of_In|].
Qed.

(** ** Examples *)

Definition demo_stats (mount name : string) : option string := Some "x"%string.
Definition demo_ask (url text : string) : yp_answer := Answered ["YPResponse: 1"; "SID: s1"; "TouchFreq: 200"]%string.
Definition demo_config : yp_config := Yp_config [("http://yp/"%string, 5, 10)] 100 "h" 8000 (fun _ => None).

(** The state after some rounds at the given times. *)
Definition demo (times : list Z) : yp_state :=
  foldl (fun st now =>
    match yp_round demo_config [("/a"%string, true)] demo_stats EmptyString demo_ask now st with
    | Some (s, _) => s
    | None => st
    end) (yp_recheck_config demo_config yp_initial) times.

Lemma demo_reached times : rtc yp_step yp_initial (demo times).
Proof.
  unfold demo. induction times as [|now times IH] using rev_ind; [eapply rtc_l; [constructor|constructor]|].
  rewrite foldl_app. cbn [foldl]. eapply rtc_r; [exact IH|].
  destruct (yp_round _ _ _ _ _ _ _) as [[st sent]|] eqn:E; [by eapply step_round|].
  unfold yp_round in E. edestruct communicate_total as (l & q & C). rewrite C in E. done.
Qed.


Lemma yp_removed_witness :
  exists st1 st2 sent,
    yp_remove "/a" (demo [100; 200]) = Some st1 /\
    yp_round demo_config [] demo_stats EmptyString demo_ask 300 st1 = Some (st2, sent) /\
    (forall s y, s ∈ active_yps st2 -> y ∈ yps_mounts s ++ yps_pending s -> yp_mount y <> "/a"%string) /\
    (forall s y sid, s ∈ active_yps (demo [100; 200]) -> y ∈ yps_mounts s -> yp_mount y = "/a"%string -> yp_sid y = Some sid ->
       (yps_url s, ("action=remove&sid=" +:+ sid)%string) ∈ sent).
Proof.
  apply (yp_removed demo_config [] demo_stats EmptyString demo_ask 300 "/a" (demo [100; 200])).
  - done.
  - split_and!.
    + vm_compute. constructor; [by intros ?%elem_of_nil|constructor].
    + vm_compute. repeat constructor; discriminate.
    + intros _. split; [by vm_compute|]. vm_compute. by repeat constructor.
  - by intros ?%elem_of_nil.
  - intros s y Hs Hy. vm_compute in Hs. apply list_elem_of_singleton in Hs as ->. by apply elem_of_nil in Hy.
  - intros s y Hs. vm_compute in Hs. by apply elem_of_nil in Hs.
  - intros s y Hs Hy. vm_compute in Hs. apply list_elem_of_singleton in Hs as ->. apply list_elem_of_singleton in Hy as ->. done.
  - done.
Defined.

(** ** What goes wrong *)

(** A mount that is added and removed before the thread comes around stays
    listed: [yp_remove] does not look at the entries that wait. *)
Lemma yp_remove_overlooks config now mount st :
  (forall s y, s ∈ active_yps st -> y ∈ yps_mounts s -> yp_mount y <> mount) ->
  yp_remove mount (yp_add config now mount st) = Some (yp_add config now mount st).
Proof.
  intros F. rewrite yp_remove_spec. f_equal. unfold yp_add. cbn [active_yps pending_yps yp_update yp_client_limit]. f_equal.
  rewrite <- !list_fmap_compose. apply list_fmap_ext. intros i s L. apply list_elem_of_lookup_2 in L. cbn.
  assert (released mount <$> yps_mounts s = yps_mounts s) as E.
  { apply released_others, Forall_forall. intros y Y. by apply (F s). }
  unfold add_at. repeat case_match; unfold set_mounts; cbn; rewrite E; by destruct s.
Qed.

(** A touch that is due within three seconds is put off, and again with the
    next change of the song. *)
Lemma yp_touch_puts_off now mount y l :
  yp_mount y = mount -> yp_release y = false -> yp_marked y = false -> yp_proc y = DO_TOUCH ->
  64 <= yp_touch_interval y -> yp_next_update y <= now + 3 ->
  touch_at now mount (y :: l) = set_next_update (now + 3) y :: l.
Proof.
  intros M R K P T N. cbn [touch_at]. rewrite decide_True, R, K, bool_decide_true by done. cbn [orb andb].
  destruct (Z.ltb_spec 60 (now + yp_touch_interval y - yp_next_update y)); [done|lia].
Qed.
