(* ===== verification/Auth.v ===== *)
(** Authentication: the authenticators of [auth.c], [auth_static.c] and
    [auth_anonymous.c], stacks of them, the queues of those that have a
    thread of their own, and in [connection.c] the way of a request through
    the stacks of its mount, of the default mounts and of the server.

    Each authenticator's queue is the part of one list of waiting clients
    that belongs to it.  The settings of a mount's authenticators are a
    function of its entry in the configuration. *)

From S2P Require Import Prelude Uri Base64 Acl Errors Stats Mounts Htpasswd AuthUrl.
Local Open Scope Z_scope.

Definition auth_result2str (res : auth_result) : string :=
  match res with
  | AUTH_UNDEFINED => "undefined"
  | AUTH_OK => "ok"
  | AUTH_FAILED => "failed"
  | AUTH_RELEASED => "released"
  | AUTH_FORBIDDEN => "forbidden"
  | AUTH_NOMATCH => "no match"
  | AUTH_USERADDED => "user added"
  | AUTH_USEREXISTS => "user exists"
  | AUTH_USERDELETED => "user deleted"
  end.

(** ** Authenticators *)

(** The state an authenticator's type gives it; the user file of an htpasswd
    authenticator is found by the authenticator's number. *)
Inductive backend :=
| BackendAnonymous
| BackendStatic (username : option string) (password : string)
| BackendHtpasswd
| BackendUrl (u : auth_url).

Record auth := Auth {
  a_id : Z;
  a_type : string;
  a_role : option string;
  a_method : list bool;
  a_acl : acl;
  a_backend : backend
}.

(** Whether [authenticate_client] returns at once. *)
Definition immediate (a : auth) : bool := match a_backend a with BackendUrl _ => false | _ => true end.

(** [auth_get_static_auth], of a type that needs a user or not. *)
Definition auth_get_static_auth (need_user : bool) (options : list (string * string)) : option backend :=
  let '(user, pass) := foldl (fun r o =>
    if streq o.1 "username" then (Some o.2, r.2)
    else if streq o.1 "password" then (r.1, Some o.2) else r) (None, None) options in
  if need_user && bool_decide (user = None) then None
  else match pass with Some p => Some (BackendStatic user p) | None => None end.

(** [get_authenticator], where libcurl can be set up. *)
Definition get_authenticator (type : string) (options : list (string * string)) : option backend :=
  if streq type "url" then Some (BackendUrl (auth_get_url_auth options))
  else if streq type "htpasswd" then Some BackendHtpasswd
  else if streq type "anonymous" then Some BackendAnonymous
  else if streq type "static" then auth_get_static_auth true options
  else if streq type "legacy-password" then auth_get_static_auth false options
  else None.

Section auth.
Variables (httpp_req_none httpp_req_get httpp_req_source httpp_req_put httpp_req_stats httpp_req_unknown : Z).
Variable httpp_str_to_method : string -> Z.

(** The loop over the names of methods: spaces after a comma are passed
    over, [*] stands for all and ends it. *)
Fixpoint method_loop (fuel : nat) (cur : string) (method : list bool) : option (list bool) :=
  match fuel with
  | O => None
  | S fuel' =>
      let '(item, next) := match strchr "," cur with
                           | Some (a, b) => (a, Some (skip_spaces b))
                           | None => (cur, None)
                           end in
      if streq item "*" then Some (replicate (length method) true)
      else
        let idx := httpp_str_to_method item in
        if idx =? httpp_req_unknown then None
        else
          let method := <[Z.to_nat idx := true]> method in
          match next with
          | Some n => method_loop fuel' n method
          | None => Some method
          end
  end.

Definition auth_methods (method : option string) : option (list bool) :=
  let n := Z.to_nat (httpp_req_unknown + 1) in
  match method with
  | Some m => method_loop (S (String.length m)) m (replicate n false)
  | None => Some (replicate n true)
  end.

(** [auth_get_authenticator]: from the attributes of the element and the
    options below it. *)
Definition auth_get_authenticator (id : Z) (props options : list (string * string)) : option auth :=
  let attr (n : string) := snd <$> find (fun p => streq p.1 n) props in
  type ← attr "type"%string;
  method ← auth_methods (attr "method"%string);
  a ← acl_new_from_xml_node httpp_req_unknown httpp_str_to_method props;
  b ← get_authenticator type options;
  Some (Auth id type (attr "name"%string) method a b).

(** *** Stacks, first to last *)

Abbreviation auth_stack := (list auth).

Definition auth_stack_push (stack : auth_stack) (a : auth) : auth_stack := stack ++ [a].
Definition auth_stack_append (stack tail : auth_stack) : auth_stack := stack ++ tail.
Definition auth_stack_next (stack : auth_stack) : auth_stack := drop 1 stack.
Definition auth_stack_get (stack : auth_stack) : option auth := hd_error stack.

Fixpoint auth_stack_getbyid (stack : auth_stack) (id : Z) : option auth :=
  match stack with
  | [] => None
  | a :: r => if a_id a =? id then Some a else auth_stack_getbyid r id
  end.

(** Whether an authenticator looks at requests of a method. *)
Definition takes_method (a : auth) (method : Z) : bool := default false (a_method a !! Z.to_nat method).

Fixpoint auth_stack_get_anonymous_acl (stack : auth_stack) (method : Z) : option acl :=
  match stack with
  | [] => None
  | a :: r =>
      if (method <? 0) || (httpp_req_unknown <? method) then None
      else if takes_method a method && streq (a_type a) "anonymous" then Some (a_acl a)
      else auth_stack_get_anonymous_acl r method
  end.

(** ** Clients *)

Record client := Client {
  c_username : option string;
  c_password : option string;
  c_role : option string;
  c_acl : option acl;
  c_auth : option Z;
  c_discon_time : Z;
  c_admin_command : Z;
  c_method : Z;
  c_uri : string;
  c_mount : option string;             (** the query parameter *)
  c_var : string -> option string;     (** headers *)
  c_id : Z;
  c_ip : string
}.

Definition c_set_user (u p : string) (c : client) : client :=
  Client (Some u) (Some p) (c_role c) (c_acl c) (c_auth c) (c_discon_time c) (c_admin_command c) (c_method c) (c_uri c)
    (c_mount c) (c_var c) (c_id c) (c_ip c).
Definition c_set_auth (a : option Z) (c : client) : client :=
  Client (c_username c) (c_password c) (c_role c) (c_acl c) a (c_discon_time c) (c_admin_command c) (c_method c) (c_uri c)
    (c_mount c) (c_var c) (c_id c) (c_ip c).
Definition c_set_discon (d : Z) (c : client) : client :=
  Client (c_username c) (c_password c) (c_role c) (c_acl c) (c_auth c) d (c_admin_command c) (c_method c) (c_uri c)
    (c_mount c) (c_var c) (c_id c) (c_ip c).
Definition c_grant (a : acl) (role : option string) (c : client) : client :=
  Client (c_username c) (c_password c) (match role with Some r => Some r | None => c_role c end) (Some a) (c_auth c)
    (c_discon_time c) (c_admin_command c) (c_method c) (c_uri c) (c_mount c) (c_var c) (c_id c) (c_ip c).

(** The name and the password in the header of a request. *)
Definition basic_credentials (header : string) : option (string * string) :=
  if starts_with "Basic " header then
    userpass ← util_base64_decode (string_drop 6 header);
    strchr ":" (cstr userpass)
  else None.

(** [auth_client_setup]. *)
Definition auth_client_setup (c : client) : client :=
  match c_username c, c_password c with
  | None, None =>
      match c_var c "authorization" with
      | Some header =>
          match basic_credentials header with
          | Some (u, p) => c_set_user u p c
          | None => c
          end
      | None => c
      end
  | _, _ => c
  end.

Definition static_auth (user : option string) (password : string) (c : client) : auth_result :=
  let right_user :=
    match user with
    | Some u => match c_username c with Some n => streq u n | None => false end
    | None => true
    end in
  if negb right_user then AUTH_NOMATCH
  else match c_password c with
       | Some p => if streq password p then AUTH_OK else AUTH_FAILED
       | None => AUTH_NOMATCH
       end.

Definition anonymous_auth (c : client) : auth_result := AUTH_OK.

(** ** The world around *)

Variable avl_get_by_key : list htpasswd_user -> string -> option string.
Variable curl : string -> string -> string -> list string * bool.
Variable fnmatch : string -> string -> bool.

Record auth_config := AuthConfig {
  ac_config : ice_config;
  ac_authstack : auth_stack;
  ac_mount_authstack : mount_proxy -> auth_stack
}.

(** What is to be done with a result: [_handle_authed_client],
    [_handle_authentication_global], [_handle_authentication_mount_default]. *)
Inductive callback := Authed | Global | MountDefault.

(** A client in the queue of an authenticator, with the rest of the stack. *)
Record waiting := Waiting {
  q_auth : auth;
  q_client : client;
  q_rest : auth_stack;
  q_next : callback
}.

Record world := World {
  w_config : auth_config;
  w_now : Z;
  w_disk : Z -> disk;
  w_htpasswd : Z -> htpasswd_auth_state;
  w_queue : list waiting
}.

Definition w_set_htpasswd (id : Z) (st : htpasswd_auth_state) (w : world) : world :=
  World (w_config w) (w_now w) (w_disk w) (fun i => if i =? id then st else w_htpasswd w i) (w_queue w).
Definition w_set_queue (q : list waiting) (w : world) : world :=
  World (w_config w) (w_now w) (w_disk w) (w_htpasswd w) q.

(** [pending_count]. *)
Definition pending_count (a : auth) (w : world) : Z :=
  Z.of_nat (length (List.filter (fun q => a_id (q_auth q) =? a_id a) (w_queue w))).

(** [auth_new_client] and what [__handle_auth_client] does with its result
    before the callback; [None] where the code reads through a null pointer
    or writes outside of a buffer. *)
Definition authenticate (a : auth) (c : client) (w : world) : option (auth_result * client * world) :=
  '(r, c, w) ←
    match a_backend a with
    | BackendAnonymous => Some (anonymous_auth c, c, w)
    | BackendStatic u p => Some (static_auth u p c, c, w)
    | BackendHtpasswd =>
        '(r, st) ← htpasswd_auth avl_get_by_key (w_disk w (a_id a)) (c_username c) (c_password c) (w_htpasswd w (a_id a));
        Some (r, c, w_set_htpasswd (a_id a) st w)
    | BackendUrl u =>
        let conf := ac_config (w_config w) in
        '(r, d) ← url_add_client curl (w_now w) (c_hostname conf) (c_port conf) u
                    (Asking (c_var c) (c_id c) (c_ip c) (c_uri c) (c_username c) (c_password c)) (c_discon_time c);
        Some (r, c_set_discon d c, w)
    end;
  Some (r, match r with AUTH_OK => c_grant (a_acl a) (a_role a) c | _ => c_set_auth None c end, w).

(** *** The way through a stack *)

Inductive stage_end :=
| Ended (c : client) (r : auth_result)
| Queued
| Busy (c : client)
| Crashed.

(** [auth_stack_add_client], [auth_add_client] and
    [__move_client_forward_in_auth_stack], from an authenticator that has not
    been asked yet. *)
Fixpoint try_stack (next : callback) (stack : auth_stack) (c : client) (w : world) : stage_end * world :=
  match stack with
  | [] => (Ended c AUTH_NOMATCH, w)
  | a :: rest =>
      if 100 <? pending_count a w then (Busy c, w)
      else if negb (takes_method a (c_method c)) then try_stack next rest c w
      else
        let c := auth_client_setup (c_set_auth (Some (a_id a)) c) in
        if immediate a then
          match authenticate a c w with
          | None => (Crashed, w)
          | Some (r, c, w) =>
              if bool_decide (r = AUTH_NOMATCH) then try_stack next rest c w else (Ended c r, w)
          end
        else (Queued, w_set_queue (w_queue w ++ [Waiting a c rest next]) w)
  end.

(** *** The stages *)

Inductive outcome :=
| Answered (c : client) (error : Z)
| SourceRequest (c : client)
| StatsRequest (c : client)
| GetRequest (c : client)
| InQueue
| Forgotten (c : client)
| CrashedNow.

Definition handle_authed_client (c : client) (r : auth_result) : outcome :=
  if negb (bool_decide (r = AUTH_OK)) then Answered c ICECAST_ERROR_GEN_CLIENT_NEEDS_TO_AUTHENTICATE
  else if negb (bool_decide (acl_test_method httpp_req_none httpp_req_unknown (c_acl c) (c_method c) = ACL_POLICY_ALLOW))
  then Answered c ICECAST_ERROR_GEN_CLIENT_NEEDS_TO_AUTHENTICATE
  else if (c_method c =? httpp_req_source) || (c_method c =? httpp_req_put) then SourceRequest c
  else if c_method c =? httpp_req_stats then StatsRequest c
  else if c_method c =? httpp_req_get then GetRequest c
  else Answered c ICECAST_ERROR_CON_UNKNOWN_REQUEST.

(** Whether a result of one stage sends the client to the next. *)
Definition passes_on (c : client) (r : auth_result) : bool :=
  bool_decide (r = AUTH_NOMATCH) ||
  (bool_decide (r = AUTH_OK) && negb (c_admin_command c =? -1) &&
   bool_decide (acl_test_admin (c_acl c) (c_admin_command c) = ACL_POLICY_DENY)).

Definition settle (e : stage_end * world) (k : client -> auth_result -> world -> outcome * world) : outcome * world :=
  let '(e, w) := e in
  match e with
  | Ended c r => k c r w
  | Queued => (InQueue, w)
  | Busy c => (Answered c ICECAST_ERROR_AUTH_BUSY, w)
  | Crashed => (CrashedNow, w)
  end.

Definition on_authed (c : client) (r : auth_result) (w : world) : outcome * world := (handle_authed_client c r, w).

Definition handle_authentication_global (c : client) (r : auth_result) (w : world) : outcome * world :=
  if negb (passes_on c r) then on_authed c r w
  else match ac_authstack (w_config w) with
       | [] => (Forgotten c, w)
       | stack => settle (try_stack Authed stack c w) on_authed
       end.

Definition find_non_admin_mount (config : ice_config) (name : string) (type : mount_type) : option mount_proxy :=
  if streq name "/admin.cgi" || starts_with "/admin/" name then None
  else config_find_mount fnmatch config (Some name) type.

(** The stack [_handle_authentication_mount_generic] asks. *)
Definition mount_stack (c : client) (type : mount_type) (ac : auth_config) : auth_stack :=
  let m :=
    match find_non_admin_mount (ac_config ac) (c_uri c) type with
    | Some m => Some m
    | None =>
        match admin_get_command_type (c_admin_command c), c_mount c with
        | (ADMINTYPE_MOUNT | ADMINTYPE_HYBRID), Some mount => find_non_admin_mount (ac_config ac) mount type
        | _, _ => None
        end
    end in
  match m with
  | Some m => if bool_decide (mp_mounttype m = type) then ac_mount_authstack ac m else []
  | None => []
  end.

Definition handle_authentication_mount_default (c : client) (r : auth_result) (w : world) : outcome * world :=
  if negb (passes_on c r) then on_authed c r w
  else settle (try_stack Global (mount_stack c MOUNT_TYPE_DEFAULT (w_config w)) c w) handle_authentication_global.

Definition resume (next : callback) : client -> auth_result -> world -> outcome * world :=
  match next with
  | Authed => on_authed
  | Global => handle_authentication_global
  | MountDefault => handle_authentication_mount_default
  end.

(** [_handle_authentication]. *)
Definition handle_authentication (c : client) (w : world) : outcome * world :=
  settle (try_stack MountDefault (mount_stack c MOUNT_TYPE_NORMAL (w_config w)) c w) handle_authentication_mount_default.

(** *** The threads *)

(** The first client that waits for an authenticator, and the others. *)
Fixpoint take_waiting (id : Z) (q : list waiting) : option (waiting * list waiting) :=
  match q with
  | [] => None
  | x :: r =>
      if a_id (q_auth x) =? id then Some (x, r)
      else '(y, r) ← take_waiting id r; Some (y, x :: r)
  end.

(** A turn of [auth_run_thread] with a client in its queue. *)
Definition auth_run_thread (id : Z) (w : world) : option (outcome * world) :=
  '(x, q) ← take_waiting id (w_queue w);
  let w := w_set_queue q w in
  Some (settle
    (match authenticate (q_auth x) (q_client x) w with
     | None => (Crashed, w)
     | Some (r, c, w) =>
         if bool_decide (r = AUTH_NOMATCH) then try_stack (q_next x) (q_rest x) c w else (Ended c r, w)
     end) (resume (q_next x))).

(** [auth_release_client]: whether the authenticator has to be told, and
    otherwise the client without its rights. *)
Definition auth_release_client (a : option auth) (c : client) : bool * client :=
  match c_acl c with
  | None => (false, c)
  | Some _ =>
      match a_backend <$> a with
      | Some (BackendUrl u) =>
          match u_removeurl u with
          | Some _ => (true, c)
          | None => (false, Client (c_username c) (c_password c) (c_role c) None None (c_discon_time c) (c_admin_command c)
                              (c_method c) (c_uri c) (c_mount c) (c_var c) (c_id c) (c_ip c))
          end
      | _ => (false, Client (c_username c) (c_password c) (c_role c) None None (c_discon_time c) (c_admin_command c)
                       (c_method c) (c_uri c) (c_mount c) (c_var c) (c_id c) (c_ip c))
      end
  end.
End auth.
