(* ===== verification/AuthFacts.v ===== *)
(** Theorems on [Auth.v]: nobody is served without an authenticator that
    vouches for him, and nobody who waits for one waits for ever. *)

From S2P Require Import Prelude Uri Base64 Acl Errors Stats Mounts Htpasswd AuthUrl Auth.
Local Open Scope Z_scope.

Section facts.
Variables (httpp_req_none httpp_req_get httpp_req_source httpp_req_put httpp_req_stats httpp_req_unknown : Z).
Variable avl_get_by_key : list htpasswd_user -> string -> option string.
Variable curl : string -> string -> string -> list string * bool.
Variable fnmatch : string -> string -> bool.

Abbreviation authenticate := (authenticate avl_get_by_key curl).
Abbreviation try_stack := (try_stack avl_get_by_key curl).
Abbreviation on_authed := (on_authed httpp_req_none httpp_req_get httpp_req_source httpp_req_put httpp_req_stats httpp_req_unknown).
Abbreviation global := (handle_authentication_global httpp_req_none httpp_req_get httpp_req_source httpp_req_put httpp_req_stats
  httpp_req_unknown avl_get_by_key curl).
Abbreviation mount_default := (handle_authentication_mount_default httpp_req_none httpp_req_get httpp_req_source httpp_req_put
  httpp_req_stats httpp_req_unknown avl_get_by_key curl fnmatch).
Abbreviation resume := (resume httpp_req_none httpp_req_get httpp_req_source httpp_req_put httpp_req_stats httpp_req_unknown
  avl_get_by_key curl fnmatch).
Abbreviation arrive := (handle_authentication httpp_req_none httpp_req_get httpp_req_source httpp_req_put httpp_req_stats
  httpp_req_unknown avl_get_by_key curl fnmatch).
Abbreviation run_thread := (auth_run_thread httpp_req_none httpp_req_get httpp_req_source httpp_req_put httpp_req_stats
  httpp_req_unknown avl_get_by_key curl fnmatch).

(** ** What an authenticator answers for *)

Definition vouched (a : auth) (c : client) : Prop :=
  match a_backend a with
  | BackendAnonymous => True
  | BackendStatic u p => c_password c = Some p /\ (forall n, u = Some n -> c_username c = Some n)
  | BackendHtpasswd => exists users name pass,
      c_username c = Some name /\ c_password c = Some pass /\ avl_get_by_key users name = Some (get_hash pass)
  | BackendUrl u =>
      u_addurl u = None \/
      exists url userpwd post, u_addurl u = Some url /\ (curl url userpwd post).2 = false /\
        existsb (starts_with_nocase (u_auth_header u)) (curl url userpwd post).1 = true
  end.

(** What of a client its request decides, and authentication does not
    change. *)
Definition route (c : client) := (c_method c, c_uri c, c_mount c, c_admin_command c).

Lemma url_ok now host port u k d d' :
  url_add_client curl now host port u k d = Some (AUTH_OK, d') ->
  u_addurl u = None \/ exists url userpwd post, u_addurl u = Some url /\ (curl url userpwd post).2 = false /\
    existsb (starts_with_nocase (u_auth_header u)) (curl url userpwd post).1 = true.
Proof.
  unfold url_add_client. destruct (u_addurl u) as [url|]; [|by left]. intros E. right.
  destruct (add_post host port u k) as [post|]; [|done]. cbn [mbind option_bind] in E.
  exists url, (url_userpwd url u k), post. destruct (curl _ _ post) as [headers failed]. split; [done|]. cbn [fst snd].
  assert (forall l r, (foldl (handle_returned_header now u) r l).1 = AUTH_OK ->
    r.1 = AUTH_OK \/ existsb (starts_with_nocase (u_auth_header u)) l = true) as F.
  { induction l as [|h l IH]; intros [r0 d0] H; [by left|]. cbn [foldl existsb] in *. destruct (IH _ H) as [K|K].
    - cbn in K. destruct (starts_with_nocase (u_auth_header u) h); [by right|by left].
    - right. rewrite K. apply orb_true_r. }
  specialize (F headers (AUTH_FAILED, d)). destruct (foldl _ _ _) as [r d2]. injection E as E _. destruct failed; [done|].
  split; [done|]. subst r. by destruct (F eq_refl).
Qed.

Lemma authenticate_ok a c w r c' w' :
  authenticate a c w = Some (r, c', w') ->
  route c' = route c /\ w_config w' = w_config w /\ w_queue w' = w_queue w /\
  (r = AUTH_OK -> c_acl c' = Some (a_acl a) /\ vouched a c').
Proof.
  unfold Auth.authenticate, vouched. destruct (a_backend a) as [|u p| |u].
  - intros [= <- <- <-]. done.
  - cbn [mbind option_bind]. intros [= <- <- <-]. split_and!; [by destruct (static_auth u p c)|done|done|].
    intros E. rewrite E. split; [done|]. unfold static_auth in E.
    destruct u as [n|], (c_username c) as [n'|] eqn:Eu; cbn [negb] in E; try done;
      [destruct (streq n n') eqn:En; [|done]; apply streq_eq in En as <-| |];
      (destruct (c_password c) as [q|] eqn:Ep; [|done]); destruct (streq p q) eqn:Ex; try done; apply streq_eq in Ex as <-;
      cbn; (split; [done|]); intros m Hm; try done; by injection Hm as <-.
  - destruct (htpasswd_auth _ _ _ _ _) as [[r0 st]|] eqn:E; [|done]. cbn [mbind option_bind]. intros [= -> <- <-].
    split_and!; [by destruct r|done|done|]. intros ->. split; [done|]. unfold htpasswd_auth in E.
    destruct (c_username c) as [n|] eqn:Eu; [|done]. destruct (c_password c) as [q|] eqn:Ep; [|done].
    destruct (hp_filename _); [|done]. destruct (hp_users _) as [users|]; [|done]. cbn [mbind option_bind] in E.
    destruct (avl_get_by_key users n) as [h|] eqn:G; [|done]. destruct (streq h (get_hash q)) eqn:S; [|done].
    apply streq_eq in S as ->. exists users, n, q. cbn. done.
  - destruct (url_add_client _ _ _ _ _ _ _) as [[r0 d]|] eqn:E; [|done]. cbn [mbind option_bind]. intros [= -> <- <-].
    split_and!; [by destruct r|done|done|]. intros ->. split; [done|]. by apply url_ok in E.
Qed.

Lemma setup_route c : route (auth_client_setup c) = route c.
Proof.
  unfold auth_client_setup. destruct (c_username c), (c_password c); try done. destruct (c_var c _); [|done].
  by destruct (basic_credentials _) as [[? ?]|].
Qed.

(** A client that passed: one that an authenticator of its method vouches for
    and whose rights are that one's. *)
Definition passed (c : client) : Prop :=
  exists a, takes_method a (c_method c) = true /\ c_acl c = Some (a_acl a) /\ vouched a c.

(** A request is served only in this way. *)
Definition served_ok (o : outcome) : Prop :=
  match o with
  | SourceRequest c | StatsRequest c | GetRequest c =>
      passed c /\ acl_test_method httpp_req_none httpp_req_unknown (c_acl c) (c_method c) = ACL_POLICY_ALLOW
  | _ => True
  end.

Definition waiting_ok (x : waiting) : Prop := takes_method (q_auth x) (c_method (q_client x)) = true.

(** What is left to be asked after the stack a client is in. *)
Definition later (next : callback) (c : client) (ac : auth_config) : nat :=
  match next with
  | Authed => 0
  | Global => length (ac_authstack ac)
  | MountDefault => length (mount_stack fnmatch c MOUNT_TYPE_DEFAULT ac) + length (ac_authstack ac)
  end.
Definition weight (ac : auth_config) (x : waiting) : nat := S (length (q_rest x) + later (q_next x) (q_client x) ac).

Lemma later_route next c c' ac : route c = route c' -> later next c ac = later next c' ac.
Proof. intros [= E1 E2 E3 E4]. unfold later, mount_stack. by rewrite E2, E3, E4. Qed.

(** The result of a way through stacks that weighs at most [n]: an outcome
    now, or one more in a queue. *)
Definition way_ok (n : nat) (w : world) (r : outcome * world) : Prop :=
  served_ok r.1 /\ w_config r.2 = w_config w /\ (ac_authstack (w_config w) <> [] -> forall c, r.1 <> Forgotten c) /\
  ((r.1 <> InQueue /\ w_queue r.2 = w_queue w) \/
   (r.1 = InQueue /\ exists x, w_queue r.2 = w_queue w ++ [x] /\ waiting_ok x /\ (weight (w_config w) x <= n)%nat)).

Definition ends_ok (c : client) (r : auth_result) : Prop := r = AUTH_OK -> passed c.

(** A way through a stack, given what becomes of a result. *)
Lemma try_stack_ok next n ac k : forall stack c w,
  w_config w = ac -> (length stack + later next c ac <= n)%nat ->
  (forall c' r w', route c' = route c -> w_config w' = ac -> w_queue w' = w_queue w -> ends_ok c' r ->
     way_ok n w (k c' r w')) ->
  way_ok n w (settle (try_stack next stack c w) k).
Proof.
  intros stack. induction stack as [|a rest IH]; intros c w W L K; cbn [Auth.try_stack].
  { cbn [settle]. by apply K. }
  destruct (100 <? pending_count a w); [cbn [settle]; split_and!; try done; by left|].
  destruct (takes_method a (c_method c)) eqn:T; cbn [negb]; [|apply IH; done || (cbn [length] in L; lia)].
  set (c1 := auth_client_setup (c_set_auth (Some (a_id a)) c)). assert (route c1 = route c) as R1 by (unfold c1; by rewrite setup_route).
  destruct (immediate a).
  - destruct (authenticate a c1 w) as [[[r c2] w2]|] eqn:E; [|cbn [settle]; split_and!; try done; by left].
    destruct (authenticate_ok _ _ _ _ _ _ E) as (R2 & W2 & Q2 & V). rewrite R1 in R2. case_bool_decide as N.
    + cbn [length] in L. rewrite <- (later_route next c2 c ac) in L by done.
      assert (way_ok n w2 (settle (try_stack next rest c2 w2) k)) as (H1 & H2 & H3 & H4).
      { apply IH; [congruence|lia|]. intros c' r' w' Rc Wc Qc En. destruct (K c' r' w') as (J1 & J2 & J3 & J4); try done; [congruence..|].
        unfold way_ok. rewrite W2, Q2. done. }
      unfold way_ok. rewrite W2, Q2 in *. done.
    + cbn [settle]. apply K; try done; [congruence|]. intros ->. destruct (V eq_refl) as [Va Vv]. exists a.
      split_and!; try done. injection R2 as -> _ _ _. done.
  - cbn [settle]. split_and!; try done. right. split; [done|]. exists (Waiting a c1 rest next). split_and!; [done| |].
    + unfold waiting_ok. cbn. injection R1 as -> _ _ _. done.
    + unfold weight. cbn. rewrite W, (later_route next c1 c ac) by done. cbn [length] in L. lia.
Qed.

Lemma authed_ok n w c r w' : w_config w' = w_config w -> w_queue w' = w_queue w -> ends_ok c r -> way_ok n w (on_authed c r w').
Proof.
  intros W Q E. unfold Auth.on_authed, way_ok. cbn [fst snd]. rewrite W, Q.
  assert (served_ok (handle_authed_client httpp_req_none httpp_req_get httpp_req_source httpp_req_put httpp_req_stats
    httpp_req_unknown c r) /\ (forall c', handle_authed_client httpp_req_none httpp_req_get httpp_req_source httpp_req_put
    httpp_req_stats httpp_req_unknown c r <> Forgotten c') /\ handle_authed_client httpp_req_none httpp_req_get httpp_req_source
    httpp_req_put httpp_req_stats httpp_req_unknown c r <> InQueue) as (H1 & H2 & H3).
  { unfold handle_authed_client. case_bool_decide as R; cbn [negb]; [|done]. case_bool_decide as A; cbn [negb]; [|done].
    destruct (_ || _); [split; [split; [by apply E|done]|done]|]. destruct (_ =? _); [split; [split; [by apply E|done]|done]|].
    destruct (_ =? _); [split; [split; [by apply E|done]|done]|done]. }
  split_and!; try done. by left.
Qed.

Lemma global_ok n w c r w' : w_config w' = w_config w -> w_queue w' = w_queue w -> ends_ok c r ->
  (length (ac_authstack (w_config w)) <= n)%nat -> way_ok n w (global c r w').
Proof.
  intros W Q E L. unfold Auth.handle_authentication_global. destruct (passes_on c r); cbn [negb]; [|by apply authed_ok].
  destruct (ac_authstack (w_config w')) as [|a st] eqn:S.
  { split_and!; try done; [intros N; by rewrite W in S|by left]. }
  rewrite <- S. rewrite W in S |- *. assert (way_ok n w' (settle (try_stack Authed (ac_authstack (w_config w)) c w') on_authed)) as H.
  { apply (try_stack_ok Authed n (w_config w)); [done|cbn; lia|]. intros c' r' w2 _ W2 Q2 En. apply authed_ok; [congruence|done|done]. }
  unfold way_ok in *. by rewrite W, Q in H.
Qed.

Lemma default_ok n w c r w' : w_config w' = w_config w -> w_queue w' = w_queue w -> ends_ok c r ->
  (later MountDefault c (w_config w) <= n)%nat -> way_ok n w (mount_default c r w').
Proof.
  intros W Q E L. unfold Auth.handle_authentication_mount_default. destruct (passes_on c r); cbn [negb]; [|by apply authed_ok].
  rewrite W. assert (way_ok n w' (settle (try_stack Global (mount_stack fnmatch c MOUNT_TYPE_DEFAULT (w_config w)) c w') global)) as H.
  { apply (try_stack_ok Global n (w_config w)); [done|done|]. intros c' r' w2 _ W2 Q2 En. apply global_ok; [congruence|done|done|].
    rewrite W. cbn [later] in L. lia. }
  unfold way_ok in *. by rewrite W, Q in H.
Qed.

Lemma resume_ok next n w c r w' : w_config w' = w_config w -> w_queue w' = w_queue w -> ends_ok c r ->
  (later next c (w_config w) <= n)%nat -> way_ok n w (resume next c r w').
Proof. intros W Q E L. destruct next; [by apply authed_ok|by apply global_ok|by apply default_ok]. Qed.

(** ** The threads *)

Lemma take_waiting_ok id q x r : take_waiting id q = Some (x, r) -> q ≡ₚ x :: r /\ a_id (q_auth x) = id.
Proof.
  revert x r. induction q as [|y q IH]; intros x r E; [done|]. cbn [take_waiting] in E. destruct (Z.eqb_spec (a_id (q_auth y)) id).
  - by injection E as <- <-.
  - destruct (take_waiting id q) as [[z t]|]; [|done]. cbn [mbind option_bind] in E. injection E as <- <-.
    destruct (IH z t eq_refl) as [P I]. split; [|done]. rewrite P. constructor.
Qed.

Lemma take_waiting_some x q : x ∈ q -> is_Some (take_waiting (a_id (q_auth x)) q).
Proof.
  induction q as [|y q IH]; intros I; [by apply elem_of_nil in I|]. cbn [take_waiting].
  destruct (Z.eqb_spec (a_id (q_auth y)) (a_id (q_auth x))) as [|N]; [by eexists|].
  apply elem_of_cons in I as [->|I]; [done|]. destruct (IH I) as [[z t] ->]. by eexists.
Qed.

Lemma thread_ok id w o w' x q : take_waiting id (w_queue w) = Some (x, q) -> waiting_ok x ->
  run_thread id w = Some (o, w') ->
  way_ok (length (q_rest x) + later (q_next x) (q_client x) (w_config w)) (w_set_queue q w) (o, w').
Proof.
  intros T V. unfold auth_run_thread. rewrite T. cbn [mbind option_bind]. set (w0 := w_set_queue q w).
  set (n := (length (q_rest x) + _)%nat). intros E. injection E as E. rewrite <- E. clear E.
  destruct (authenticate (q_auth x) (q_client x) w0) as [[[r c] w1]|] eqn:A; [|cbn [settle]; split_and!; try done; by left].
  destruct (authenticate_ok _ _ _ _ _ _ A) as (R & W & Q & U). case_bool_decide as M.
  - assert (way_ok n w1 (settle (try_stack (q_next x) (q_rest x) c w1) (resume (q_next x)))) as H.
    { apply (try_stack_ok (q_next x) n (w_config w1)); [done|unfold n; rewrite W, (later_route _ c (q_client x)); done|].
      intros c' r' w2 Rc W2 Q2 En. apply resume_ok; try done. rewrite (later_route _ c' c), (later_route _ c (q_client x)) by done.
      rewrite W. unfold n, w0. cbn. lia. }
    unfold way_ok in *. by rewrite W, Q in H.
  - cbn [settle]. apply resume_ok; try done; [|rewrite (later_route _ c (q_client x)) by done; unfold n, w0; cbn; lia].
    intros ->. destruct (U eq_refl) as [Ua Uv]. exists (q_auth x). split_and!; try done. unfold waiting_ok in V.
    injection R as -> _ _ _. done.
Qed.

(** What can happen to the server: a request arrives, the thread of an
    authenticator takes a client from its queue, and time passes, in which
    files and settings change. *)
Inductive step : world -> option outcome -> world -> Prop :=
| step_arrive w c o w' : arrive c w = (o, w') -> step w (Some o) w'
| step_thread w id o w' : run_thread id w = Some (o, w') -> step w (Some o) w'
| step_time w ac now d h : step w None (World ac now d h (w_queue w)).

Inductive reachable : world -> Prop :=
| reachable_start ac now d h : reachable (World ac now d h [])
| reachable_step w o w' : reachable w -> step w o w' -> reachable w'.

Lemma way_queue_ok n w o w' : way_ok n w (o, w') -> Forall waiting_ok (w_queue w) -> Forall waiting_ok (w_queue w').
Proof.
  intros (_ & _ & _ & [[_ Q]|(_ & x & Q & V & _)]) F; cbn in Q; rewrite Q; [done|]. apply Forall_app. by repeat constructor.
Qed.

Lemma arrive_ok c w o w' : arrive c w = (o, w') -> exists n, way_ok n w (o, w').
Proof.
  intros E. set (n := (length (mount_stack fnmatch c MOUNT_TYPE_NORMAL (w_config w)) + later MountDefault c (w_config w))%nat).
  exists n. unfold Auth.handle_authentication in E. rewrite <- E. apply (try_stack_ok MountDefault n (w_config w)); [done|unfold n; lia|].
  intros c' r w2 R W Q En. apply default_ok; try done. rewrite (later_route _ c' c) by done. unfold n. lia.
Qed.

Lemma step_ok w o w' : Forall waiting_ok (w_queue w) -> step w (Some o) w' -> served_ok o /\ Forall waiting_ok (w_queue w').
Proof.
  intros F S. inversion S as [? c ? ? E|? id ? ? E|]; subst.
  - destruct (arrive_ok _ _ _ _ E) as (n & H). split; [apply H|]. by eapply way_queue_ok.
  - pose proof E as E'. unfold auth_run_thread in E'. destruct (take_waiting id (w_queue w)) as [[x q]|] eqn:T; [|done]. clear E'.
    destruct (take_waiting_ok _ _ _ _ T) as [P _]. rewrite P in F. apply Forall_cons in F as [V F].
    pose proof (thread_ok _ _ _ _ _ _ T V E) as H. split; [apply H|]. by eapply way_queue_ok.
Qed.

Lemma reachable_queue w : reachable w -> Forall waiting_ok (w_queue w).
Proof.
  induction 1 as [|w [o|] w' _ IH S]; [constructor|by eapply step_ok|]. inversion S; subst. exact IH.
Qed.


(** The threads at work, with what comes of it. *)
Inductive drains : list outcome -> world -> world -> Prop :=
| drains_refl w : drains [] w w
| drains_step w id o w1 os w2 : run_thread id w = Some (o, w1) -> drains os w1 w2 -> drains (o :: os) w w2.

Definition total_weight (w : world) : nat := sum_list_with (weight (w_config w)) (w_queue w).
Definition decided (os : list outcome) : nat := length (List.filter (fun o => match o with InQueue => false | _ => true end) os).

Lemma drains_bound os w w' : drains os w w' -> Forall waiting_ok (w_queue w) ->
  w_config w' = w_config w /\ Forall waiting_ok (w_queue w') /\ (length os + total_weight w' <= total_weight w)%nat /\
  (decided os + length (w_queue w') = length (w_queue w))%nat /\
  (ac_authstack (w_config w) <> [] -> forall c, Forgotten c ∉ os).
Proof.
  induction 1 as [w|w id o w1 os w2 E D IH]; intros F.
  { split_and!; try done; try lia. intros _ c. apply not_elem_of_nil. }
  pose proof E as E'. unfold auth_run_thread in E'. destruct (take_waiting id (w_queue w)) as [[x q]|] eqn:T; [|done]. clear E'.
  destruct (take_waiting_ok _ _ _ _ T) as [P _]. pose proof F as Fx. rewrite P in Fx. apply Forall_cons in Fx as [V Fq].
  pose proof (thread_ok _ _ _ _ _ _ T V E) as H. pose proof (way_queue_ok _ _ _ _ H Fq) as F1.
  destruct H as (_ & W1 & NF & H). cbn [fst snd w_config w_set_queue w_queue] in *. destruct (IH F1) as (W2 & F2 & T2 & D2 & N2).
  assert (length os + total_weight w2 < total_weight w /\ (decided (o :: os) + length (w_queue w2) = length (w_queue w)))%nat as [T3 D3].
  { unfold total_weight in *. rewrite W1 in *. rewrite P. cbn [length sum_list_with].
    destruct H as [[N Q]|(-> & y & Q & _ & L)]; rewrite Q in T2, D2.
    - assert (decided (o :: os) = S (decided os)) as -> by (unfold decided; by destruct o). unfold weight at 2. lia.
    - rewrite sum_list_with_app in T2. cbn [sum_list_with] in T2. rewrite length_app in D2. cbn in D2.
      change (decided (InQueue :: os)) with (decided os). unfold weight at 2. lia. }
  split_and!; try done; [congruence|]. intros NE c [Ec|I]%elem_of_cons; [by destruct (NF NE c)|].
  apply (N2 ltac:(by rewrite W1) c I).
Qed.


(** Without authenticators of its own the server forgets a request no other
    stack matches: it is neither answered nor closed. *)
Theorem unmatched_request_forgotten c w :
  ac_authstack (w_config w) = [] -> mount_stack fnmatch c MOUNT_TYPE_NORMAL (w_config w) = [] ->
  mount_stack fnmatch c MOUNT_TYPE_DEFAULT (w_config w) = [] -> arrive c w = (Forgotten c, w).
Proof.
  intros G N D. assert (passes_on c AUTH_NOMATCH = true) as Pn by reflexivity.
  unfold Auth.handle_authentication. rewrite N. cbn [Auth.try_stack settle].
  unfold Auth.handle_authentication_mount_default. rewrite Pn. cbn [negb]. rewrite D. cbn [Auth.try_stack settle].
  unfold Auth.handle_authentication_global. by rewrite Pn, G.
Qed.

End facts.

(** ** Witnesses *)

Definition demo_methods : list bool := replicate 10 true.
Definition demo_acl : acl := Acl 1 (replicate 10 ACL_POLICY_ALLOW) [] ACL_POLICY_DENY ACL_POLICY_ALLOW (-1) (-1).

Definition url_auth : auth := Auth 1 "url" None demo_methods demo_acl (BackendUrl demo_url).
Definition static_source : auth :=
  Auth 2 "static" (Some "dj"%string) demo_methods demo_acl (BackendStatic (Some "bob"%string) "secret").

Definition demo_auth_config (stack : list auth) : auth_config :=
  AuthConfig (IceConfig [] "localhost" 8000 0 0 0 "/web") stack (fun _ => []).

Definition demo_world (stack : list auth) : world :=
  World (demo_auth_config stack) 1000 (fun _ => demo_disk) (fun _ => demo_htpasswd) [].

(** A [GET] request with the name and the password of the example. *)
Definition demo_client : client :=
  Client None None None None None 0 (-1) 1 "/live" None
    (fun n => if streq n "authorization" then Some "Basic Ym9iOnNlY3JldA=="%string else None) 7 "192.0.2.1".

Abbreviation demo_arrive := (handle_authentication 0 1 2 3 4 9 first_entry demo_curl streq).
Abbreviation demo_thread := (auth_run_thread 0 1 2 3 4 9 first_entry demo_curl streq).
Abbreviation demo_reachable := (reachable 0 1 2 3 4 9 first_entry demo_curl streq).

Definition demo_waiting : world := (demo_arrive demo_client (demo_world [url_auth; static_source])).2.
Definition demo_done : option (outcome * world) := demo_thread 1 demo_waiting.

(** The client the outcome of the example is about. *)
Definition served_client (o : outcome) : client :=
  match o with GetRequest c => c | _ => demo_client end.



Example unmatched_request_forgotten_witness :
  ac_authstack (w_config (demo_world [])) = [] /\
  demo_arrive demo_client (demo_world []) = (Forgotten demo_client, demo_world []).
Proof.
  split; [reflexivity|].
  exact (unmatched_request_forgotten 0 1 2 3 4 9 first_entry demo_curl streq demo_client (demo_world []) eq_refl eq_refl eq_refl).
Defined.
