(* ===== verification/Slave.v ===== *)
(** Relays, [slave.c]: the lists of them and how they follow the
    configuration, the connection to the other server, the starting and the
    end of a relay's thread, and the passes of the slave thread.

    A relay's source is the one its mount names in the server of [Mounts.v];
    the other servers, the XML library's reading of addresses and [fnmatch]
    are parameters. *)

From S2P Require Import Prelude Base64 Acl Stats Mounts.
Local Open Scope Z_scope.

(** ** Relays *)

(** [relay_server]; the thread is a number, the source is there or not. *)
Record relay := Relay {
  r_server : string;
  r_port : Z;
  r_mount : string;
  r_username : option string;
  r_password : option string;
  r_localmount : string;
  r_bind : option string;
  r_source : bool;
  r_mp3metadata : bool;
  r_on_demand : bool;
  r_running : bool;
  r_cleanup : bool;
  r_start : Z;
  r_thread : option Z
}.

Definition set_r_on_demand (b : bool) (r : relay) : relay :=
  Relay (r_server r) (r_port r) (r_mount r) (r_username r) (r_password r) (r_localmount r) (r_bind r) (r_source r)
    (r_mp3metadata r) b (r_running r) (r_cleanup r) (r_start r) (r_thread r).
Definition set_r_source (r : relay) : relay :=
  Relay (r_server r) (r_port r) (r_mount r) (r_username r) (r_password r) (r_localmount r) (r_bind r) true
    (r_mp3metadata r) (r_on_demand r) (r_running r) (r_cleanup r) (r_start r) (r_thread r).
Definition set_r_start (t : Z) (r : relay) : relay :=
  Relay (r_server r) (r_port r) (r_mount r) (r_username r) (r_password r) (r_localmount r) (r_bind r) (r_source r)
    (r_mp3metadata r) (r_on_demand r) (r_running r) (r_cleanup r) t (r_thread r).
Definition set_r_thread (running cleanup : bool) (t : option Z) (r : relay) : relay :=
  Relay (r_server r) (r_port r) (r_mount r) (r_username r) (r_password r) (r_localmount r) (r_bind r) (r_source r)
    (r_mp3metadata r) (r_on_demand r) running cleanup (r_start r) t.

(** [relay_copy]: a new relay, of which only the settings are those of
    another; the address to bind to is not copied. *)
Definition relay_copy (r : relay) : relay :=
  Relay (r_server r) (r_port r) (r_mount r) (r_username r) (r_password r) (r_localmount r) None false (r_mp3metadata r)
    (r_on_demand r) false false 0 None.

(** [relay_has_changed], and the old relay after it. *)
Definition relay_has_changed (new old : relay) : bool * relay :=
  if negb (streq (r_mount new) (r_mount old)) then (true, old)
  else if negb (streq (r_server new) (r_server old)) then (true, old)
  else if negb (r_port new =? r_port old) then (true, old)
  else if negb (Bool.eqb (r_mp3metadata new) (r_mp3metadata old)) then (true, old)
  else (false, set_r_on_demand (r_on_demand new) old).

(** The search through the current relays for one to keep: it, and the others
    as they are afterwards. *)
Fixpoint take_existing (relay : relay) (current : list Slave.relay) : option Slave.relay * list Slave.relay :=
  match current with
  | [] => (None, [])
  | e :: r =>
      let '(changed, e') :=
        if streq (r_localmount relay) (r_localmount e) then relay_has_changed relay e else (true, e) in
      if changed then let '(found, r) := take_existing relay r in (found, e' :: r) else (Some e', r)
  end.

(** The loop of [update_relay_set]: the new list, and what is left of the
    current one. *)
Fixpoint update_relay_set (current updated new_list : list relay) : list relay * list relay :=
  match updated with
  | [] => (new_list, current)
  | u :: r =>
      let '(existing, current) := take_existing u current in
      update_relay_set current r (default (relay_copy u) existing :: new_list)
  end.

(** [update_relays]: the new list of relays, and those to be cleaned up. *)
Definition update_relays (relay_list new_relay_list : list relay) : list relay * list relay :=
  update_relay_set relay_list new_relay_list [].

(** ** The connection to another server *)

(** The header with the credentials of a relay; [None] where the encoder reads
    behind the buffer. *)
Definition auth_header (username password : option string) : option string :=
  match username, password with
  | Some u, Some p =>
      let len := (String.length u + String.length p + 2)%nat in
      esc ← util_base64_encode ((u +:+ ":" +:+ p) +:+ String NUL EmptyString) len;
      Some (fst (snprintf (String.length esc + 24) ("Authorization: Basic " +:+ esc +:+ crlf)))
  | _, _ => Some EmptyString
  end.

Definition relay_request (mount server_id server : string) (mp3metadata : bool) (auth_header : string) : string :=
  ("GET " +:+ mount +:+ " HTTP/1.0" +:+ crlf +:+ "User-Agent: " +:+ server_id +:+ crlf +:+ "Host: " +:+ server +:+ crlf +:+
   (if mp3metadata then "Icy-MetaData: 1" +:+ crlf else EmptyString) +:+ auth_header +:+ crlf)%string.

(** What comes back: no connection, no header or one that cannot be parsed, a
    redirect, an error, or a stream, for which there is room or not. *)
Inductive reply := NoConnection | BadHeader | Redirect (location : option string) | ErrorMessage | Stream (room : bool).

Inductive opened := Opened (server : string) (port : Z) (mount : string) | NotOpened | NullLocation.

(** The server, the port and the mount of a redirect. *)
Definition redirect_target (uri : string) : option (string * Z * string) :=
  if starts_with "http://" uri then
    let uri := string_drop 7 uri in
    let mount := match strchr "/" uri with Some (_, m) => String "/" m | None => "/"%string end in
    let '(server, rest) := strspn (fun c => negb (Ascii.eqb c ":" || Ascii.eqb c "/")) uri in
    let port := match rest with String c p => if Ascii.eqb c ":" then atoi p else 80 | EmptyString => 80 end in
    Some (server, port, mount)
  else None.

Section open.
Variable answer : string -> Z -> option string -> string -> reply.

(** The loop of [open_relay_connection], with the number of turns left; and
    the requests made. *)
Fixpoint open_loop (turns : nat) (relay : relay) (server_id auth server : string) (port : Z) (mount : string) :
    list (string * Z * string) * opened :=
  match turns with
  | O => ([], NotOpened)
  | S turns' =>
      let request := relay_request mount server_id server (r_mp3metadata relay) auth in
      let '(sent, r) :=
        match answer server port (r_bind relay) request with
        | NoConnection | BadHeader | ErrorMessage | Stream false => ([], NotOpened)
        | Stream true => ([], Opened server port mount)
        | Redirect None => ([], NullLocation)
        | Redirect (Some uri) =>
            match redirect_target uri with
            | None => ([], NotOpened)
            | Some (server, port, mount) => open_loop turns' relay server_id auth server port mount
            end
        end in
      ((server, port, request) :: sent, r)
  end.

Definition open_relay_connection (relay : relay) (server_id : string) : option (list (string * Z * string) * opened) :=
  auth ← auth_header (r_username relay) (r_password relay);
  Some (open_loop 10 relay server_id auth (r_server relay) (r_port relay) (r_mount relay)).
End open.

(** ** The list of a master server *)

(** What [xmlParseURI] finds: the server, where there is one, the port, and
    the path, where there is one. *)
Record uri_parts := UriParts { u_server : option string; u_port : Z; u_path : option string }.

(** The settings for the master. *)
Record master := Master {
  ma_username : string;
  ma_password : option string;
  ma_server : option string;
  ma_port : Z;
  ma_on_demand : bool
}.

Inductive master_list := NotConfigured | NoList | NewRelays (l : list relay) | NullPath.

Section master_list.
Variable parse_uri : string -> option uri_parts.

(** The loop over the lines after the header; each relay is put in front. *)
Fixpoint list_lines (m : master) (server : string) (lines : list string) (new_relays : list relay) : master_list :=
  match lines with
  | [] => NewRelays new_relays
  | EmptyString :: r => list_lines m server r new_relays
  | line :: r =>
      match parse_uri line with
      | None => list_lines m server r new_relays
      | Some u =>
          match u_path u with
          | None => NullPath
          | Some path =>
              let '(host, port) :=
                match u_server u with
                | Some s => (s, if u_port u =? 0 then 80 else u_port u)
                | None => (server, ma_port m)
                end in
              list_lines m server r
                (Relay host port path None None path None false true (ma_on_demand m) false false 0 None :: new_relays)
          end
      end
  end.

(** The lines after the first empty one. *)
Fixpoint after_header (lines : list string) : list string :=
  match lines with [] => [] | EmptyString :: r => r | _ :: r => after_header r end.

(** [update_from_master] up to the new list, with the lines of the answer,
    where a connection could be made. *)
Definition update_from_master (m : master) (answer : option (list string)) : master_list :=
  match ma_password m, ma_server m with
  | Some _, Some server =>
      if ma_port m =? 0 then NotConfigured
      else
        match answer with
        | Some (status :: lines) =>
            if starts_with "HTTP/1.0 200" status || starts_with "HTTP/1.1 200" status
            then list_lines m server (after_header lines) [] else NoList
        | _ => NoList
        end
  | _, _ => NotConfigured
  end.
End master_list.

(** The timer of the slave thread, each second: whether the lists are looked
    at and the relays started at once, and the count and the interval then. *)
Definition slave_tick (interval max_interval master_update_interval : Z) : bool * bool * Z * Z :=
  let interval := interval + 1 in
  if max_interval <=? interval then (true, max_interval =? 0, 0, master_update_interval)
  else (false, false, interval, max_interval).

(** ** The source of a relay *)

Definition set_s_on_demand (b : bool) (s : source) : source :=
  Source (s_running s) b (s_on_demand_req s) (s_format s) (s_has_con s) (s_has_client s)
    (s_listeners s) (s_prev_listeners s) (s_peak_listeners s) (s_max_listeners s) (s_fallback_mount s)
    (s_fallback_override s) (s_fallback_when_full s) (s_hidden s) (s_queue_size_limit s) (s_timeout s)
    (s_burst_size s) (s_dumpfilename s) (s_intro_file s) (s_yp_public s) (s_max_history s) (s_pending s) (s_clients s).
Definition set_s_client (con client : bool) (format : option Z) (s : source) : source :=
  Source (s_running s) (s_on_demand s) (s_on_demand_req s) format con client
    (s_listeners s) (s_prev_listeners s) (s_peak_listeners s) (s_max_listeners s) (s_fallback_mount s)
    (s_fallback_override s) (s_fallback_when_full s) (s_hidden s) (s_queue_size_limit s) (s_timeout s)
    (s_burst_size s) (s_dumpfilename s) (s_intro_file s) (s_yp_public s) (s_max_history s) (s_pending s) (s_clients s).
Definition set_s_public (v : Z) (s : source) : source :=
  Source (s_running s) (s_on_demand s) (s_on_demand_req s) (s_format s) (s_has_con s) (s_has_client s)
    (s_listeners s) (s_prev_listeners s) (s_peak_listeners s) (s_max_listeners s) (s_fallback_mount s)
    (s_fallback_override s) (s_fallback_when_full s) (s_hidden s) (s_queue_size_limit s) (s_timeout s)
    (s_burst_size s) (s_dumpfilename s) (s_intro_file s) v (s_max_history s) (s_pending s) (s_clients s).

(** A change of the source of a mount. *)
Definition upd_source (mount : string) (f : source -> source) (g : server) : option server :=
  s ← g_sources g !! mount; Some (put_source mount (f s) g).

(** [format_get_type], by the numbers of [format_type_t]. *)
Definition FORMAT_TYPE_OGG : Z := 1.
Definition FORMAT_TYPE_EBML : Z := 2.
Definition FORMAT_TYPE_GENERIC : Z := 3.

Definition format_get_type (contenttype : string) : Z :=
  if existsb (streq contenttype) ["application/x-ogg"; "application/ogg"; "audio/ogg"; "video/ogg"]%string then FORMAT_TYPE_OGG
  else if existsb (streq contenttype) ["audio/webm"; "video/webm"; "audio/x-matroska"; "video/x-matroska"; "video/x-matroska-3d"]%string
  then FORMAT_TYPE_EBML
  else FORMAT_TYPE_GENERIC.

(** Why a source is not completed. *)
Inductive completion := Completed | NoContentType | PluginFailed | SourceLimit.

(** What the slave thread is told. *)
Record notices := Notices { n_update_settings : bool; n_update_all_mounts : bool; n_max_interval : Z }.

Definition slave_update_all_mounts (n : notices) : notices := Notices true true 0.
Definition slave_rebuild_mounts (n : notices) : notices := Notices true (n_update_all_mounts n) (n_max_interval n).

Section relaying.
Variable fnmatch : string -> string -> bool.
Variable x : surroundings.

(** The rest of [connection_complete_source], with the type of the format,
    where its plugin can be set up or not. *)
Definition complete_source (config : ice_config) (format : Z) (plugin : bool) (mount : string) (g : server) (n : notices) :
    option (completion * server * notices) :=
  if negb plugin then Some (PluginFailed, g, n)
  else
    g ← upd_source mount (fun s => set_running true (set_s_client (s_has_con s) (s_has_client s) (Some format) s)) g;
    let g := set_count (g_count g + 1) g in
    let g := emit (fun q => q ++ [build_event None (Some "sources"%string) (Some (dec (g_count g)))]) g in
    g ← source_update_settings x config mount (config_find_mount fnmatch config (Some mount) MOUNT_TYPE_NORMAL) g;
    Some (Completed, g, slave_rebuild_mounts n).

(** [connection_complete_source]. *)
Definition connection_complete_source (config : ice_config) (source_limit : Z) (contenttype : option string) (put plugin : bool)
    (mount : string) (g : server) (n : notices) : option (completion * server * notices) :=
  if g_count g <? source_limit then
    match contenttype with
    | None => if put then Some (NoContentType, g, n) else complete_source config FORMAT_TYPE_GENERIC plugin mount g n
    | Some t => complete_source config (format_get_type t) plugin mount g n
    end
  else Some (SourceLimit, g, n).

(** *** The thread of a relay *)

(** [start_relay_stream] when another server has answered with a stream: the
    source runs, or it cannot be completed. *)
Definition relay_connected (config : ice_config) (source_limit : Z) (contenttype : option string) (plugin : bool)
    (ip : string) (r : relay) (g : server) (n : notices) : option (bool * server * notices) :=
  let mount := r_localmount r in
  g ← upd_source mount (fun s => set_s_client true true (s_format s) s) g;
  '(c, g, n) ← connection_complete_source config source_limit contenttype false plugin mount g n;
  match c with
  | Completed =>
      let g := emit (stats_event_inc None "source_relay_connections") g in
      let g := emit (fun q => q ++ [build_event (Some mount) (Some "source_ip"%string) (Some ip)]) g in
      g ← source_init fnmatch config mount g;
      Some (true, g, n)
  | _ => g ← upd_source mount (fun s => set_s_client (s_has_con s) false (s_format s) s) g; Some (false, g, n)
  end.

(** The end of [start_relay_stream] after the stream: [source_main] shuts the
    source down, and the relay waits for its thread to be joined. *)
Definition relay_ended (config : ice_config) (now : Z) (r : relay) (g : server) (n : notices) : option (relay * server * notices) :=
  let mount := r_localmount r in
  g ← source_shutdown fnmatch config mount g;
  '(r, g, n) ← (if r_on_demand r then Some (r, g, n)
                else
                  g ← upd_source mount (set_s_public (-1)) (yp mount false g);
                  Some (set_r_start (now + 10) r, g, slave_update_all_mounts n));
  Some (set_r_thread (r_running r) true (r_thread r) r, g, slave_rebuild_mounts n).

(** Its end without a stream: the listeners go to the fallback, and the source
    is cleared; *)
Definition relay_failed (config : ice_config) (r : relay) (g : server) : option server :=
  let mount := r_localmount r in
  s ← g_sources g !! mount;
  g ← to_fallback fnmatch config mount s g;
  source_clear_source mount g.

(** then, with the lock of the relays, it is not to be started again too
    soon. *)
Definition relay_give_up (now : Z) (r : relay) (g : server) (n : notices) : option (relay * server) :=
  g ← upd_source (r_localmount r) (set_s_on_demand false) g;
  Some (set_r_thread (r_running r) true (r_thread r) (set_r_start (now + n_max_interval n) r), g).

(** *** The slave thread *)

(** The source of a new relay: [check_relay_stream] returns early where it
    cannot have one. *)
Definition reserve_relay (config : ice_config) (r : relay) (g : server) (n : notices) : option (bool * relay * server * notices) :=
  let mount := r_localmount r in
  if r_source r then Some (true, r, g, n)
  else if negb (starts_with "/" mount) then Some (false, r, g, n)
  else
    match source_reserve mount g with
    | None => Some (false, if r_start r =? 0 then set_r_start 1 r else r, g, n)
    | Some g =>
        let r := set_r_source r in
        if r_on_demand r then
          g ← upd_source mount (set_s_on_demand true) g;
          g ← match config_find_mount fnmatch config (Some mount) MOUNT_TYPE_NORMAL with
              | None => source_update_settings x config mount None g
              | Some _ => Some g
              end;
          Some (true, r, emit (fun q => q ++ [build_event (Some mount) (Some "listeners"%string) (Some "0"%string)]) g,
                slave_update_all_mounts n)
        else Some (true, r, g, n)
    end.

(** Whether an idle relay is to be started: one on demand is when it was asked
    for, or its fallback has listeners that it is to take over. *)
Definition wanted (config : ice_config) (r : relay) (g : server) : option (bool * server) :=
  let mount := r_localmount r in
  s ← g_sources g !! mount;
  if r_on_demand r && negb (s_on_demand_req s) then
    let s := set_s_on_demand true s in
    let takes_over :=
      match s_fallback_mount s with
      | Some f =>
          s_fallback_override s &&
          match source_find_mount fnmatch config (put_source mount s g) f with
          | Some (_, fallback) => s_running fallback && negb (s_listeners fallback =? 0)
          | None => false
          end
      | None => false
      end in
    Some (takes_over, put_source mount (if takes_over then set_on_demand_req true s else s) g)
  else Some (true, g).

(** The end of [check_relay_stream]: a thread that is done is joined. *)
Definition clean_up (config : ice_config) (r : relay) (g : server) : option (relay * server) :=
  if r_cleanup r then
    let r := set_r_thread false false None r in
    if r_on_demand r && r_source r then
      let mount := r_localmount r in
      g ← source_update_settings x config mount (config_find_mount fnmatch config (Some mount) MOUNT_TYPE_NORMAL) g;
      Some (r, emit (fun q => q ++ [build_event (Some mount) (Some "listeners"%string) (Some "0"%string)]) g)
    else Some (r, g)
  else Some (r, g).

(** [check_relay_stream], with the number for a new thread; whether one is
    started. *)
Definition check_relay_stream (config : ice_config) (now thread : Z) (r : relay) (g : server) (n : notices) :
    option (relay * server * notices * bool) :=
  '(reserved, r, g, n) ← reserve_relay config r g n;
  if negb (reserved : bool) then Some (r, g, n, false)
  else
    '(start, g) ← (if r_running r || (now <? r_start r) then Some (false, g) else wanted config r g : option (bool * server));
    if start : bool then Some (set_r_thread true (r_cleanup r) (Some thread) (set_r_start (now + 5) r), g, n, true)
    else '(r, g) ← clean_up config r g; Some (r, g, n, false).

(** The loop of [relay_check_streams] over the relays to run; the threads
    started have the numbers from the one given on. *)
Fixpoint check_streams (config : ice_config) (now : Z) (skip_timer : bool) (thread : Z) (to_start : list relay) (g : server)
    (n : notices) : option (list relay * server * notices * Z) :=
  match to_start with
  | [] => Some ([], g, n, thread)
  | r :: l =>
      let r := if skip_timer then set_r_start 0 r else r in
      '(r, g, n, started) ← check_relay_stream config now thread r g n;
      '(l, g, n, thread) ← check_streams config now skip_timer (if started : bool then thread + 1 else thread) l g n;
      Some (r :: l, g, n, thread)
  end.

(** A relay removed from the configuration: its source is freed with it, after
    it was stopped where it was running. *)
Definition relay_free (r : relay) (g : server) : option server :=
  if r_source r then source_free_source (r_localmount r) g else Some g.

Definition free_idle (r : relay) (g : server) : option server :=
  relay_free r (if r_source r then emit (fun q => q ++ [build_event (Some (r_localmount r)) None None]) g else g).

Definition stop_removed (r : relay) (g : server) : option server := upd_source (r_localmount r) (set_running false) g.

(** *** The threads together *)

(** Where a relay's thread is: connecting, without a stream, with one, without
    one and its source cleared but before it has the lock of the relays, or at
    its end. *)
Inductive stage := Connecting | Unable | Streaming | Failing | Finished.

(** What the slave thread does: it sleeps without the lock of the relays, or
    holds it and frees relays, or waits for the thread of one of these. *)
Inductive slave_pc :=
| Sleeping
| Freeing (master : bool) (to_free : list relay)
| Joining (master : bool) (r : relay) (to_free : list relay).

Record world := World {
  w_server : server;
  w_relays : list relay;
  w_master_relays : list relay;
  w_pc : slave_pc;
  w_notices : notices;
  w_threads : gmap Z stage;
  w_next : Z                    (** the number of the next thread *)
}.

Definition w_set_pc (pc : slave_pc) (w : world) : world :=
  World (w_server w) (w_relays w) (w_master_relays w) pc (w_notices w) (w_threads w) (w_next w).
Definition w_set_stage (t : Z) (s : stage) (g : server) (n : notices) (w : world) : world :=
  World g (w_relays w) (w_master_relays w) (w_pc w) n (<[t := s]> (w_threads w)) (w_next w).

(** The list that is being worked on, and the lists with a new one. *)
Definition w_list (master : bool) (w : world) : list relay := if master then w_master_relays w else w_relays w.
Definition w_set_list (master : bool) (l : list relay) (w : world) : world :=
  if master then World (w_server w) (w_relays w) l (w_pc w) (w_notices w) (w_threads w) (w_next w)
  else World (w_server w) l (w_master_relays w) (w_pc w) (w_notices w) (w_threads w) (w_next w).

(** A relay is changed by its thread, wherever it is. *)
Definition by_thread (t : Z) (f : relay -> relay) (r : relay) : relay := if decide (r_thread r = Some t) then f r else r.

Definition w_update (t : Z) (f : relay -> relay) (w : world) : world :=
  World (w_server w) (by_thread t f <$> w_relays w) (by_thread t f <$> w_master_relays w)
    (match w_pc w with
     | Sleeping => Sleeping
     | Freeing m l => Freeing m (by_thread t f <$> l)
     | Joining m r l => Joining m (by_thread t f r) (by_thread t f <$> l)
     end) (w_notices w) (w_threads w) (w_next w).

(** The relays there are. *)
Definition w_all (w : world) : list relay :=
  w_relays w ++ w_master_relays w ++
  match w_pc w with Sleeping => [] | Freeing _ l => l | Joining _ r l => r :: l end.

(** The relays with a thread that is not joined number the threads from the
    next one on as stages of their connecting. *)
Fixpoint started (first : Z) (n : nat) (m : gmap Z stage) : gmap Z stage :=
  match n with O => m | S n' => started (first + 1) n' (<[first := Connecting]> m) end.

Inductive step : world -> world -> Prop :=
| step_update w master l : w_pc w = Sleeping ->
    step w (let '(active, cleanup) := update_relays (w_list master w) l in w_set_pc (Freeing master cleanup) (w_set_list master active w))
| step_pass w master : w_pc w = Sleeping -> step w (w_set_pc (Freeing master []) w)
| step_free w master r l g : w_pc w = Freeing master (r :: l) -> r_source r = false \/ r_running r = false ->
    free_idle r (w_server w) = Some g ->
    step w (World g (w_relays w) (w_master_relays w) (Freeing master l) (w_notices w) (w_threads w) (w_next w))
| step_stop w master r l g : w_pc w = Freeing master (r :: l) -> r_source r = true -> r_running r = true ->
    stop_removed r (w_server w) = Some g ->
    step w (World g (w_relays w) (w_master_relays w) (Joining master (set_r_thread false (r_cleanup r) (r_thread r) r) l)
              (w_notices w) (w_threads w) (w_next w))
| step_joined w master r l g t : w_pc w = Joining master r l -> r_thread r = Some t -> w_threads w !! t = Some Finished ->
    relay_free r (w_server w) = Some g ->
    step w (World g (w_relays w) (w_master_relays w) (Freeing master l) (w_notices w) (w_threads w) (w_next w))
| step_check w master config now skip_timer l g n next : w_pc w = Freeing master [] ->
    check_streams config now skip_timer (w_next w) (w_list master w) (w_server w) (w_notices w) = Some (l, g, n, next) ->
    step w (w_set_pc Sleeping (w_set_list master l
      (World g (w_relays w) (w_master_relays w) (w_pc w) n
         (started (w_next w) (Z.to_nat (next - w_next w)) (w_threads w)) next)))
| step_connected w t r config limit contenttype plugin ip ok g n : r ∈ w_all w -> r_thread r = Some t ->
    w_threads w !! t = Some Connecting ->
    relay_connected config limit contenttype plugin ip r (w_server w) (w_notices w) = Some (ok, g, n) ->
    step w (w_set_stage t (if ok : bool then Streaming else Unable) g n w)
| step_no_stream w t : w_threads w !! t = Some Connecting -> step w (w_set_stage t Unable (w_server w) (w_notices w) w)
| step_failed w t r config g : r ∈ w_all w -> r_thread r = Some t -> w_threads w !! t = Some Unable ->
    relay_failed config r (w_server w) = Some g ->
    step w (w_set_stage t Failing g (w_notices w) w)
| step_give_up w t r now r' g : r ∈ w_all w -> r_thread r = Some t -> w_threads w !! t = Some Failing -> w_pc w = Sleeping ->
    relay_give_up now r (w_server w) (w_notices w) = Some (r', g) ->
    step w (w_update t (fun _ => r') (w_set_stage t Finished g (w_notices w) w))
| step_ended w t r config now r' g n : r ∈ w_all w -> r_thread r = Some t -> w_threads w !! t = Some Streaming ->
    s_running <$> (g_sources (w_server w) !! r_localmount r) = Some false ->
    relay_ended config now r (w_server w) (w_notices w) = Some (r', g, n) ->
    step w (w_update t (fun _ => r') (w_set_stage t Finished g n w))
| step_others w g : (forall m, is_Some (g_sources (w_server w) !! m) -> (exists r, r ∈ w_all w /\ r_localmount r = m) ->
      is_Some (g_sources g !! m)) ->
    step w (World g (w_relays w) (w_master_relays w) (w_pc w) (w_notices w) (w_threads w) (w_next w)).
End relaying.
