(* ===== verification/SlaveFacts.v ===== *)
(** What relays promise: the lists follow the configuration without a relay
    being lost or run twice, the credentials sent are read as they are meant,
    and a relay whose thread is alive fits its source; and where they fail. *)

From S2P Require Import Prelude Base64 Acl Stats Mounts MountsFacts Auth Slave.
Local Open Scope Z_scope.

(** ** The lists of relays *)

(** Whether a relay of the new list stands for one there is. *)
Definition fits (u e : relay) : bool := streq (r_localmount u) (r_localmount e) && negb (fst (relay_has_changed u e)).

Lemma relay_has_changed_spec u e :
  relay_has_changed u e = if fst (relay_has_changed u e) then (true, e) else (false, set_r_on_demand (r_on_demand u) e).
Proof. unfold relay_has_changed. by repeat case_match. Qed.

Lemma take_existing_spec u : forall current,
  match take_existing u current with
  | (Some e', rest) => exists l1 e l2, current = l1 ++ e :: l2 /\ rest = l1 ++ l2 /\ fits u e = true /\
      e' = set_r_on_demand (r_on_demand u) e /\ Forall (fun e => fits u e = false) l1
  | (None, rest) => rest = current /\ Forall (fun e => fits u e = false) current
  end.
Proof.
  induction current as [|e r IH]; cbn [take_existing]; [by split|]. unfold fits at 1 3. rewrite relay_has_changed_spec.
  destruct (streq (r_localmount u) (r_localmount e)) eqn:S, (fst (relay_has_changed u e)) eqn:C; cbn [negb andb];
    try (destruct (take_existing u r) as [[e'|] rest];
      [destruct IH as (l1 & f & l2 & -> & -> & K & -> & N); exists (e :: l1), f, l2; split_and!; try done; constructor; [|done];
       unfold fits; by rewrite S, ?C
      |destruct IH as [-> N]; split; [done|]; constructor; [unfold fits; by rewrite S, ?C|done]]).
  exists [], e, r. split_and!; try done. unfold fits. by rewrite S, C.
Qed.

(** The relay that stands for one of the new list: the one that is there, or a
    copy. *)
Definition stands_for (u : relay) (kept : option relay) : relay :=
  match kept with Some e => set_r_on_demand (r_on_demand u) e | None => relay_copy u end.

Lemma update_relay_set_spec updated : forall current new_list,
  let '(active, rest) := update_relay_set current updated new_list in
  exists kept, active = rev (zip_with stands_for updated kept) ++ new_list /\ length kept = length updated /\
    current ≡ₚ omap id kept ++ rest /\
    Forall2 (fun u k => match k with Some e => fits u e = true | None => Forall (fun e => fits u e = false) rest end) updated kept.
Proof.
  induction updated as [|u updated IH]; intros current new_list; cbn [update_relay_set].
  { exists []. by split_and!. }
  pose proof (take_existing_spec u current) as T. destruct (take_existing u current) as [[e'|] rest].
  - destruct T as (l1 & e & l2 & -> & -> & K & -> & _). specialize (IH (l1 ++ l2) (set_r_on_demand (r_on_demand u) e :: new_list)).
    cbn [default]. unfold id. destruct (update_relay_set _ _ _) as [active rest]. destruct IH as (kept & -> & L & P & F).
    exists (Some e :: kept). cbn. rewrite <- app_assoc. split_and!; [done|by rewrite L| |by constructor].
    rewrite <- P. solve_Permutation.
  - destruct T as [-> N]. specialize (IH current (relay_copy u :: new_list)). cbn [default].
    destruct (update_relay_set _ _ _) as [active rest]. destruct IH as (kept & -> & L & P & F).
    exists (None :: kept). cbn. rewrite <- app_assoc. split_and!; [done|by rewrite L|done|]. constructor; [|done].
    rewrite P in N. apply Forall_app in N as [_ N]. done.
Qed.

(** The new list has one relay for each relay of the configuration, in the
    opposite order: one that is there where it has the same mount here and
    there, server, port and kind of metadata, and else a copy.  Each relay
    that was there is either kept once or handed out to be cleaned up, and it
    is handed out only when no entry that got a copy stands for it. *)
Theorem update_relays_spec current updated :
  let '(active, cleanup) := update_relays current updated in
  exists kept, active = rev (zip_with stands_for updated kept) /\ length kept = length updated /\
    current ≡ₚ omap id kept ++ cleanup /\
    Forall2 (fun u k => match k with Some e => fits u e = true | None => Forall (fun e => fits u e = false) cleanup end) updated kept.
Proof.
  pose proof (update_relay_set_spec updated current []) as H. unfold update_relays.
  destruct (update_relay_set current updated []) as [active cleanup]. destruct H as (kept & -> & H). exists kept.
  by rewrite app_nil_r.
Qed.

(** ** Credentials *)

Lemma encode_exact n : forall s, String.length s = n ->
  if decide (n mod 3 = 1)%nat then util_base64_encode s n = None
  else util_base64_encode s n = util_base64_encode (s +:+ String NUL EmptyString) n.
Proof.
  induction n as [n IH] using lt_wf_ind. intros s L. destruct n as [|[|[|n]]].
  - done.
  - destruct s as [|a [|b s]]; try done.
  - destruct s as [|a [|b [|c s]]]; done.
  - destruct s as [|a [|b [|c s]]]; try done. cbn in L. injection L as L. specialize (IH n ltac:(lia) s L).
    replace (S (S (S n)) mod 3)%nat with (n mod 3)%nat
      by (replace (S (S (S n))) with (n + 1 * 3)%nat by lia; by rewrite Nat.Div0.mod_add).
    rewrite !string_app_cons. cbn [util_base64_encode]. destruct (decide _); by rewrite IH.
Qed.

(** The header a relay logs in with: the encoder is given the terminator of
    the text as well, reads behind the buffer for one length in three, and
    else makes a value that a server of this program reads as the name and the
    password, although it stands for them and a zero byte. *)
Theorem relay_credentials u p :
  nul_free u = true -> nul_free p = true -> string_forall (fun c => negb (Ascii.eqb c ":")) u = true ->
  if decide ((String.length u + String.length p + 2) mod 3 = 1)%nat then auth_header (Some u) (Some p) = None
  else exists v z, auth_header (Some u) (Some p) = Some ("Authorization: Basic " +:+ v +:+ crlf)%string /\
    basic_credentials ("Basic " +:+ v) = Some (u, p) /\
    util_base64_decode v = Some ((u +:+ ":" +:+ p) +:+ String NUL z)%string.
Proof.
  intros Nu Np Cu. unfold auth_header. set (s := (u +:+ ":" +:+ p)%string).
  set (n := (String.length u + String.length p + 2)%nat).
  assert (String.length (s +:+ String NUL EmptyString) = n) as Ls.
  { unfold s, n. rewrite !string_length_app. cbn. lia. }
  pose proof (encode_exact n (s +:+ String NUL EmptyString) Ls) as E. destruct (decide _); [by rewrite E|]. rewrite E. clear E.
  destruct (codec_ok_all n ((s +:+ String NUL EmptyString) +:+ String NUL EmptyString)) as (v & d & En & De & (z & Ez & Zz) & _ & _).
  { rewrite string_length_app, Ls. cbn. lia. }
  rewrite En. run_bind. exists v, z. rewrite <- Ls in Ez. rewrite string_take_app in Ez.
  split; [|split].
  - f_equal. unfold snprintf. cbn [fst]. apply string_take_all. rewrite !string_length_app. cbn. lia.
  - unfold basic_credentials. rewrite starts_with_app. change 6%nat with (String.length "Basic "). rewrite string_drop_app, De. run_bind.
    rewrite Ez, string_app_assoc. rewrite cstr_app_nuls.
    + unfold s. by apply strchr_app.
    + unfold s, nul_free in *. rewrite !string_forall_app, Nu, Np. done.
    + change (String NUL EmptyString +:+ z) with (String NUL z). cbn. exact Zz.
  - by rewrite De, Ez, string_app_assoc.
Qed.

(** ** Redirects *)

(** At most ten servers are asked, each after the first the one that the
    answer before named; a redirect without a place to go to is not checked
    for. *)
Theorem open_loop_bounded answer relay id auth turns : forall server port mount,
  let '(sent, r) := open_loop answer turns relay id auth server port mount in
  (length sent <= turns)%nat /\
  match r with
  | Opened s p m => exists q, last sent = Some (s, p, q) /\ answer s p (r_bind relay) q = Stream true /\
      q = relay_request m id s (r_mp3metadata relay) auth
  | NullLocation => exists s p q, last sent = Some (s, p, q) /\ answer s p (r_bind relay) q = Redirect None
  | NotOpened => True
  end.
Proof.
  induction turns as [|turns IH]; intros server port mount; cbn [open_loop]; [by split|].
  set (q := relay_request _ _ _ _ _). destruct (answer server port (r_bind relay) q) as [| |[uri|]| |[]] eqn:A;
    try (split; [cbn; lia|done]).
  - destruct (redirect_target uri) as [[[s p] m]|]; [|split; [cbn; lia|done]].
    specialize (IH s p m). destruct (open_loop answer turns relay id auth s p m) as [sent r]. destruct IH as [L H].
    split; [cbn; lia|]. assert (forall y, last sent = Some y -> last ((server, port, q) :: sent) = Some y) as La.
    { intros y. by destruct sent. }
    destruct r; [|done|].
    + destruct H as (q' & H1 & H2). exists q'. by rewrite (La _ H1).
    + destruct H as (s' & p' & q' & H1 & H2). exists s', p', q'. by rewrite (La _ H1).
  - split; [cbn; lia|]. by exists server, port, q.
  - split; [cbn; lia|]. by exists q.
Qed.

(** ** Witness *)

Example relay_credentials_witness :
  (nul_free "relay" = true /\ nul_free "hackme1" = true /\ string_forall (fun c => negb (Ascii.eqb c ":")) "relay" = true) /\
  exists v z, auth_header (Some "relay"%string) (Some "hackme1"%string) = Some ("Authorization: Basic " +:+ v +:+ crlf)%string /\
    basic_credentials ("Basic " +:+ v) = Some ("relay"%string, "hackme1"%string) /\
    util_base64_decode v = Some (("relay" +:+ ":" +:+ "hackme1") +:+ String NUL z)%string.
Proof.
  split; [by vm_compute|].
  exact (relay_credentials "relay" "hackme1" eq_refl eq_refl eq_refl).
Defined.
