(* ===== verification/SlaveThreads.v ===== *)
(** The threads of relays and the slave thread: a relay whose thread is alive
    is there, alone with its mount, and its source is in the tree; and the
    removal of a relay that does not come to an end. *)

From S2P Require Import Prelude Acl Stats Mounts MountsFacts Slave SlaveFacts.
Local Open Scope Z_scope.

(** ** Sources stay in the tree *)

Definition stays (g g' : server) : Prop := forall m, is_Some (g_sources g !! m) -> is_Some (g_sources g' !! m).

Lemma stays_refl g : stays g g.
Proof. by intros m. Qed.

Lemma stays_trans g1 g2 g3 : stays g1 g2 -> stays g2 g3 -> stays g1 g3.
Proof. unfold stays. eauto. Qed.

Lemma stays_put m s g g' : stays g g' -> stays g (put_source m s g').
Proof. intros S k K. cbn. destruct (decide (m = k)) as [->|N]; [rewrite lookup_insert_eq; by eexists|rewrite lookup_insert_ne by done; auto]. Qed.

Lemma stays_same g g1 g2 : g_sources g2 = g_sources g1 -> stays g g1 -> stays g g2.
Proof. unfold stays. intros ->. done. Qed.

Lemma stays_emit f g g' : stays g g' -> stays g (emit f g').
Proof. done. Qed.

Create HintDb stays.
#[export] Hint Resolve stays_refl stays_put stays_emit : stays.

(** One bind of a computation that succeeded. *)
Ltac bind_inv H :=
  match type of H with
  | mbind (M := option) _ ?c = Some _ => let E := fresh "E" in destruct c eqn:E; [|done]; cbn [mbind option_bind] in H
  end.

Lemma upd_source_inv m f g g' :
  upd_source m f g = Some g' -> exists s, g_sources g !! m = Some s /\ g' = put_source m (f s) g.
Proof. unfold upd_source. intros E. destruct (g_sources g !! m) as [s|]; [|done]. injection E as <-. by exists s. Qed.

Lemma stays_upd m f g g' : upd_source m f g = Some g' -> stays g g'.
Proof. intros (s & _ & ->)%upd_source_inv. auto with stays. Qed.

Lemma stays_settings x config m i g g' : source_update_settings x config m i g = Some g' -> stays g g'.
Proof.
  unfold source_update_settings. intros E. destruct (g_sources g !! m) as [s|] eqn:L; [|done]. cbn [mbind option_bind] in E.
  destruct (s_running s && negb (s_has_client s)); [injection E as <-; auto with stays|].
  match type of E with context [source_apply_mount x config m ?s1 i ?g1] =>
    set (s1' := s1) in E; set (g1' := g1) in E; destruct (apply_mount_places x config m s1' i g1') as (g2 & [P1 P2] & Q) end.
  rewrite Q in E. rewrite put_lookup in E. cbn [mbind option_bind] in E. injection E as <-.
  apply (stays_same _ (put_source m (apply_fields x config (public_value x i) i s1') g2)); [by destruct (s_on_demand _)|].
  apply stays_put. apply (stays_same _ g); [done|auto with stays].
Qed.

Lemma stays_clear m g g' : source_clear_source m g = Some g' -> stays g g'.
Proof.
  intros E. destruct (g_sources g !! m) as [s|] eqn:L; [|unfold source_clear_source in E; by rewrite L in E].
  destruct (clear_eq m g s L) as (g2 & s' & E2 & S & _). rewrite E in E2. injection E2 as <-.
  apply (stays_same _ (put_source m s' g)); [done|]. auto with stays.
Qed.

Section threads.
Variable fnmatch : string -> string -> bool.
Variable x : surroundings.

Lemma stays_move a b g g' : source_move_clients a b g = Some g' -> stays g g'.
Proof.
  intros E. destruct (decide (a = b)) as [->|N].
  { unfold source_move_clients, streq in E. rewrite String.eqb_refl in E. injection E as <-. auto with stays. }
  destruct (g_sources g !! a) as [src|] eqn:Sa.
  2:{ unfold source_move_clients, streq in E. apply String.eqb_neq in N. by rewrite N, Sa in E. }
  destruct (g_sources g !! b) as [dst|] eqn:Sb.
  2:{ unfold source_move_clients, streq in E. apply String.eqb_neq in N. by rewrite N, Sa, Sb in E. }
  rewrite (move_clients_eq a b g src dst N Sa Sb) in E. injection E as <-. destruct (moves src dst); auto with stays.
Qed.

Lemma stays_fallback config m s g g' : to_fallback fnmatch config m s g = Some g' -> stays g g'.
Proof.
  unfold to_fallback. intros E. destruct (s_fallback_mount s) as [f|]; [|injection E as <-; auto with stays].
  destruct (source_find_mount fnmatch config g f) as [[f' ?]|]; [|injection E as <-; auto with stays]. by eapply stays_move.
Qed.

Lemma stays_shutdown config m g g' : source_shutdown fnmatch config m g = Some g' -> stays g g'.
Proof.
  unfold source_shutdown. intros E. destruct (g_sources g !! m) as [s|] eqn:L; [|done]. cbn [mbind option_bind] in E.
  destruct (to_fallback _ _ _ _ _) as [g1|] eqn:F; [|done]. cbn [mbind option_bind] in E.
  destruct (source_clear_source _ _) as [g2|] eqn:C; [|done]. cbn [mbind option_bind] in E. injection E as <-.
  apply (stays_same _ g2); [done|]. apply stays_clear in C. apply stays_fallback in F.
  eapply stays_trans; [|exact C]. apply stays_emit. eapply stays_trans; [|exact F]. auto with stays.
Qed.

Lemma stays_init config m g g' : source_init fnmatch config m g = Some g' -> stays g g'.
Proof.
  unfold source_init. intros E. destruct (g_sources g !! m) as [s|] eqn:L; [|done]. cbn [mbind option_bind] in E.
  match type of E with context [put_source m ?s1 g] => set (s' := s1) in E end.
  match type of E with context [emit ?f (emit ?h (put_source m s' g))] => set (g1' := emit f (emit h (put_source m s' g))) in E end.
  assert (stays g g1') as A1 by (unfold g1'; auto with stays).
  destruct (s_fallback_override s'); [|injection E as <-; auto with stays]. destruct (s_fallback_mount s') as [f|]; [|injection E as <-; auto with stays].
  destruct (source_find_mount fnmatch config g1' f) as [[f' ?]|]; [|injection E as <-; auto with stays].
  eapply stays_trans; [exact A1|]. by eapply stays_move.
Qed.

Lemma stays_complete config limit ct put plugin m g n c g' n' :
  connection_complete_source fnmatch x config limit ct put plugin m g n = Some (c, g', n') -> stays g g'.
Proof.
  assert (forall f, complete_source fnmatch x config f plugin m g n = Some (c, g', n') -> stays g g') as K.
  { intros f. unfold complete_source. destruct (negb plugin); [intros [= <- <- <-]; auto with stays|]. intros E. bind_inv E. bind_inv E. injection E as <- <- <-.
    apply stays_upd in E0. apply stays_settings in E1. eapply stays_trans; [exact E0|]. exact E1. }
  unfold connection_complete_source. destruct (_ <? _); [|intros [= <- <- <-]; auto with stays]. destruct ct; [apply K|].
  destruct put; [intros [= <- <- <-]; auto with stays|apply K].
Qed.

Lemma stays_connected config limit ct plugin ip r g n ok g' n' :
  relay_connected fnmatch x config limit ct plugin ip r g n = Some (ok, g', n') -> stays g g'.
Proof.
  unfold relay_connected. intros E. bind_inv E. bind_inv E. destruct p as [[c g2] n2]. apply stays_upd in E0. apply stays_complete in E1.
  assert (stays g g2) as A by (by eapply stays_trans).
  assert (forall g3, upd_source (r_localmount r) (fun s1 => set_s_client (s_has_con s1) false (s_format s1) s1) g2 = Some g3 -> stays g g3)
    as K by (intros g3 U; eapply stays_trans; [exact A|by eapply stays_upd]).
  destruct c; bind_inv E; injection E as <- <- <-; [|by apply K..].
  apply stays_init in E2. eapply stays_trans; [exact A|]. exact E2.
Qed.

Lemma stays_ended config now r g n r' g' n' :
  relay_ended fnmatch config now r g n = Some (r', g', n') -> stays g g' /\ r_source r' = r_source r /\
    r_localmount r' = r_localmount r /\ r_thread r' = r_thread r /\ r_running r' = r_running r /\ r_cleanup r' = true.
Proof.
  unfold relay_ended. intros E. bind_inv E. apply stays_shutdown in E0. destruct (r_on_demand r).
  - cbn [mbind option_bind] in E. injection E as <- <- <-. done.
  - destruct (upd_source _ _ _) as [g2|] eqn:U; [|done]. cbn [mbind option_bind] in E. injection E as <- <- <-. apply stays_upd in U.
    split; [|done]. eapply stays_trans; [exact E0|exact U].
Qed.

Lemma stays_failed config r g g' : relay_failed fnmatch config r g = Some g' -> stays g g'.
Proof.
  unfold relay_failed. intros E. bind_inv E. bind_inv E. apply stays_fallback in E1. apply stays_clear in E. by eapply stays_trans.
Qed.

Lemma stays_wanted config r g b g' : wanted fnmatch config r g = Some (b, g') -> stays g g'.
Proof.
  unfold wanted. intros E. bind_inv E. destruct (_ && _); injection E as <- <-; auto with stays.
Qed.

(** ** What holds of the relays there are *)

Definition sourced (l : list relay) : list relay := filter (fun r => r_source r = true) l.

Record relays_ok (l : list relay) (g : server) (th : gmap Z stage) (next : Z) : Prop := {
  ok_mounts : NoDup (r_localmount <$> sourced l);
  ok_tree : forall r, r ∈ l -> r_source r = true -> is_Some (g_sources g !! r_localmount r);
  ok_threads : NoDup (omap r_thread l);
  ok_idle : forall r, r ∈ l -> r_thread r = None -> r_cleanup r = false;
  ok_stage : forall r t, r ∈ l -> r_thread r = Some t ->
    r_source r = true /\ exists st, th !! t = Some st /\ (r_cleanup r = true <-> st = Finished);
  ok_live : forall t st, th !! t = Some st -> t < next /\ (st <> Finished -> exists r, r ∈ l /\ r_thread r = Some t)
}.

(** The relays with a thread are those marked as running. *)
Definition busy (r : relay) : Prop := r_running r = true <-> r_thread r <> None.

Lemma omap_perm {A B} (f : A -> option B) (l k : list A) : l ≡ₚ k -> omap f l ≡ₚ omap f k.
Proof.
  induction 1 as [|a l k P IH|a b l|l k m P1 IH1 P2 IH2]; [done| | |by etrans].
  - cbn. destruct (f a); [by f_equiv|done].
  - cbn. destruct (f a), (f b); try done. apply Permutation_swap.
Qed.

Lemma relays_ok_perm l k g th next : l ≡ₚ k -> relays_ok l g th next -> relays_ok k g th next.
Proof.
  intros P [M T N I S L]. assert (sourced l ≡ₚ sourced k) as Ps by (by apply filter_Permutation). split.
  - by rewrite <- Ps.
  - intros r. rewrite <- P. apply T.
  - by rewrite <- (omap_perm r_thread l k P).
  - intros r. rewrite <- P. apply I.
  - intros r t. rewrite <- P. apply S.
  - intros t st Ht. destruct (L t st Ht) as [L1 L2]. split; [done|]. intros F. destruct (L2 F) as (r & R & Hr). exists r.
    by rewrite <- P.
Qed.

(** Relays that are the same but for their settings. *)
Definition same_key (r r' : relay) : Prop :=
  r_source r' = r_source r /\ r_localmount r' = r_localmount r /\ r_thread r' = r_thread r /\ r_cleanup r' = r_cleanup r.

Lemma relays_ok_head r r' l g g' th next :
  same_key r r' -> stays g g' -> relays_ok (r :: l) g th next -> relays_ok (r' :: l) g' th next.
Proof.
  intros (K1 & K2 & K3 & K4) St [M T N I S L]. split.
  - unfold sourced in *. rewrite filter_cons in *. rewrite K1. destruct (decide _); [|done]. cbn in *. by rewrite K2.
  - intros q [->|Q]%elem_of_cons Hs; apply St; [rewrite K2; apply T; [by left|congruence]|apply T; [by right|done]].
  - cbn in *. by rewrite K3.
  - intros q [->|Q]%elem_of_cons Hs; [rewrite K4; apply I; [by left|congruence]|apply I; [by right|done]].
  - intros q t [->|Q]%elem_of_cons Hs; [rewrite K1, K4; apply S; [by left|congruence]|apply S; [by right|done]].
  - intros t st Ht. destruct (L t st Ht) as [L1 L2]. split; [done|]. intros F.
    destruct (L2 F) as (q & [->|Q]%elem_of_cons & Hq); [exists r'; split; [by left|congruence]|exists q; split; [by right|done]].
Qed.

Lemma relays_ok_server l g g' th next : stays g g' -> relays_ok l g th next -> relays_ok l g' th next.
Proof. intros St [M T N I S L]. split; try done. intros r R Hr. apply St. by apply T. Qed.

(** A relay without a source or thread can be added. *)
Lemma relays_ok_new r l g th next :
  r_source r = false -> r_thread r = None -> r_cleanup r = false -> relays_ok l g th next -> relays_ok (r :: l) g th next.
Proof.
  intros E1 E2 E3 [M T N I S L]. split.
  - unfold sourced. rewrite filter_cons_False by congruence. done.
  - intros q [->|Q]%elem_of_cons; [congruence|by apply T].
  - cbn. by rewrite E2.
  - intros q [->|Q]%elem_of_cons; [done|by apply I].
  - intros q t [->|Q]%elem_of_cons; [congruence|by apply S].
  - intros t st Ht. destruct (L t st Ht) as [L1 L2]. split; [done|]. intros F. destruct (L2 F) as (q & Q & Hq). exists q.
    split; [by right|done].
Qed.

(** One can be removed, and its source with it, where its thread is done. *)
Lemma relays_ok_removed r l g g' th next :
  (forall t, r_thread r = Some t -> th !! t = Some Finished) ->
  (forall m, m <> r_localmount r \/ r_source r = false -> is_Some (g_sources g !! m) -> is_Some (g_sources g' !! m)) ->
  relays_ok (r :: l) g th next -> relays_ok l g' th next.
Proof.
  intros Done Rest [M T N I S L]. split.
  - unfold sourced in *. rewrite filter_cons in M. destruct (decide _); [|done]. by apply NoDup_cons in M as [_ M].
  - intros q Q Hq. apply Rest; [|apply T; [by right|done]]. destruct (r_source r) eqn:Rs; [left|by right].
    unfold sourced in M. rewrite filter_cons_True in M by done. cbn in M. apply NoDup_cons in M as [M _]. intros E. apply M. rewrite <- E.
    apply list_elem_of_fmap. exists q. split; [done|]. by apply list_elem_of_filter.
  - cbn in N. destruct (r_thread r); [by apply NoDup_cons in N as [_ N]|done].
  - intros q Q. apply I. by right.
  - intros q t Q. apply S. by right.
  - intros t st Ht. destruct (L t st Ht) as [L1 L2]. split; [done|]. intros F.
    destruct (L2 F) as (q & [->|Q]%elem_of_cons & Hq); [specialize (Done t Hq); congruence|by exists q].
Qed.

(** The thread of one goes on. *)
Lemma relays_ok_stage r r' l g g' th next t st :
  r_thread r = Some t -> r_source r' = r_source r -> r_localmount r' = r_localmount r -> r_thread r' = r_thread r ->
  (r_cleanup r' = true <-> st = Finished) -> stays g g' ->
  relays_ok (r :: l) g th next -> relays_ok (r' :: l) g' (<[t := st]> th) next.
Proof.
  intros Ht K1 K2 K3 K4 St [M T N I S L]. assert (forall q, q ∈ l -> r_thread q <> Some t) as Other.
  { intros q Q E. cbn in N. rewrite Ht in N. apply NoDup_cons in N as [N _]. apply N. apply list_elem_of_omap. by exists q. }
  split.
  - unfold sourced in *. rewrite filter_cons in *. rewrite K1. destruct (decide _); [|done]. cbn in *. by rewrite K2.
  - intros q [->|Q]%elem_of_cons Hs; apply St; [rewrite K2; apply T; [by left|congruence]|apply T; [by right|done]].
  - cbn in *. by rewrite K3.
  - intros q [->|Q]%elem_of_cons Hs; [congruence|apply I; [by right|done]].
  - intros q u [->|Q]%elem_of_cons Hs.
    + rewrite K1. destruct (S r t) as [Sr _]; [by left|done|]. split; [done|]. exists st. rewrite K3 in Hs.
      assert (u = t) as -> by congruence. by rewrite lookup_insert_eq.
    + rewrite lookup_insert_ne by (intros ->; by apply (Other q)). apply S; [by right|done].
  - intros u v Hu. destruct (decide (u = t)) as [->|Nu].
    + destruct (S r t) as (_ & s0 & E0 & _); [by left|done|]. destruct (L t s0 E0) as [L1 _]. split; [done|]. intros _. exists r'.
      split; [by left|congruence].
    + rewrite lookup_insert_ne in Hu by done. destruct (L u v Hu) as [L1 L2]. split; [done|]. intros F.
      destruct (L2 F) as (q & [->|Q]%elem_of_cons & Hq); [congruence|exists q; split; [by right|done]].
Qed.

(** A thread is started. *)
Lemma relays_ok_start r r' l g th next :
  r_thread r = None -> r_source r' = true -> r_source r = true -> r_localmount r' = r_localmount r -> r_thread r' = Some next ->
  r_cleanup r' = false ->
  relays_ok (r :: l) g th next -> relays_ok (r' :: l) g (<[next := Connecting]> th) (next + 1).
Proof.
  intros Hn K1 K1' K2 K3 K4 [M T N I S L].
  assert (th !! next = None) as Fresh by (destruct (th !! next) eqn:E; [apply L in E as [E _]; lia|done]). split.
  - unfold sourced in *. rewrite filter_cons_True in * by done. cbn in *. by rewrite K2.
  - intros q [->|Q]%elem_of_cons Hs; [rewrite K2; apply T; [by left|done]|apply T; [by right|done]].
  - cbn in *. rewrite Hn in N. rewrite K3. apply NoDup_cons. split; [|done]. rewrite list_elem_of_omap. intros (q & Q & Hq).
    destruct (S q next) as (_ & st & E & _); [by right|done|]. congruence.
  - intros q [->|Q]%elem_of_cons Hs; [done|apply I; [by right|done]].
  - intros q t [->|Q]%elem_of_cons Hs.
    + split; [done|]. exists Connecting. rewrite K3 in Hs. injection Hs as <-. rewrite lookup_insert_eq. rewrite K4. done.
    + assert (t <> next) by (intros ->; destruct (S q next) as (_ & st & E & _); [by right|done|congruence]).
      rewrite lookup_insert_ne by done. apply S; [by right|done].
  - intros t st Ht. destruct (decide (t = next)) as [->|Nt].
    + split; [lia|]. intros _. exists r'. split; [by left|done].
    + rewrite lookup_insert_ne in Ht by done. destruct (L t st Ht) as [L1 L2]. split; [lia|]. intros F.
      destruct (L2 F) as (q & [->|Q]%elem_of_cons & Hq); [congruence|exists q; split; [by right|done]].
Qed.

(** ** The slave thread's pass *)

Lemma reserve_ok config r g n b r' g' n' l th next :
  reserve_relay fnmatch x config r g n = Some (b, r', g', n') -> busy r -> relays_ok (r :: l) g th next ->
  relays_ok (r' :: l) g' th next /\ busy r' /\ (b = true -> r_source r' = true).
Proof.
  unfold reserve_relay. intros E B Ok. destruct (r_source r) eqn:Rs.
  { by injection E as <- <- <- <-. }
  destruct (negb (starts_with "/" (r_localmount r))).
  { by injection E as <- <- <- <-. }
  assert (r_thread r = None) as Tn.
  { destruct (r_thread r) eqn:T; [|done]. destruct Ok as [_ _ _ _ S _]. destruct (S r z) as [Hs _]; [by left|done|congruence]. }
  unfold source_reserve, source_find_mount_raw in E. destruct (g_sources g !! r_localmount r) eqn:Lk.
  { injection E as <- <- <- <-. split; [|by destruct (r_start r =? 0)]. destruct (r_start r =? 0); [|done].
    eapply (relays_ok_head r); [done|apply stays_refl|done]. }
  assert (stays g (put_source (r_localmount r) (new_source (r_localmount r)) g)) as St by auto with stays.
  assert (relays_ok (set_r_source r :: l) (put_source (r_localmount r) (new_source (r_localmount r)) g) th next) as Ok1.
  { destruct Ok as [M T N I S L]. split.
    - unfold sourced in *. rewrite filter_cons_False in M by congruence. rewrite filter_cons_True by done. cbn. apply NoDup_cons.
      split; [|done]. intros (q & E1 & Q)%list_elem_of_fmap. apply list_elem_of_filter in Q as [Qs Q].
      destruct (T q) as [s Hs]; [by right|done|]. rewrite <- E1, Lk in Hs. done.
    - intros q [->|Q]%elem_of_cons Hs; [cbn; rewrite lookup_insert_eq; by eexists|apply St; apply T; [by right|done]].
    - done.
    - intros q [->|Q]%elem_of_cons; [cbn; intros; apply (I r); [by left|done]|apply I; by right].
    - intros q t [->|Q]%elem_of_cons; [cbn; congruence|apply S; by right].
    - intros t st Ht. destruct (L t st Ht) as [L1 L2]. split; [done|]. intros F.
      destruct (L2 F) as (q & [->|Q]%elem_of_cons & Hq); [congruence|exists q; split; [by right|done]]. }
  cbn [mbind option_bind] in E. destruct (r_on_demand (set_r_source r)).
  - bind_inv E. apply stays_upd in E0. match type of E with mbind _ ?c = _ => destruct c as [g2|] eqn:E1; [|done] end.
    cbn [mbind option_bind] in E. injection E as <- <- <- <-. split; [|done]. apply (relays_ok_server _ _ _ _ _ E0) in Ok1. revert Ok1. apply relays_ok_server.
    apply stays_emit. destruct (config_find_mount _ _ _ _); [injection E1 as <-; auto with stays|by eapply stays_settings].
  - by injection E as <- <- <- <-.
Qed.

Lemma check_ok config now r g n r' g' n' started l th next :
  check_relay_stream fnmatch x config now next r g n = Some (r', g', n', started) -> busy r -> relays_ok (r :: l) g th next ->
  busy r' /\
  if started : bool then relays_ok (r' :: l) g' (<[next := Connecting]> th) (next + 1) else relays_ok (r' :: l) g' th next.
Proof.
  unfold check_relay_stream. intros E B Ok. destruct (reserve_relay _ _ _ _ _ _) as [[[[b r1] g1] n1]|] eqn:R; [|done].
  cbn [mbind option_bind] in E. destruct (reserve_ok _ _ _ _ _ _ _ _ l th next R B Ok) as (Ok1 & B1 & Hs).
  destruct b; cbn [negb] in E; [|by injection E as <- <- <- <-]. specialize (Hs eq_refl).
  match type of E with mbind _ ?c = _ => destruct c as [[start g2]|] eqn:W; [|done] end. cbn [mbind option_bind] in E.
  assert (stays g1 g2 /\ (start = true -> r_running r1 = false)) as [St Rn].
  { destruct (r_running r1); cbn [orb] in W; [injection W as <- <-; by split; [apply stays_refl|]|].
    destruct (_ <? _); [injection W as <- <-; by split; [apply stays_refl|]|]. split; [by eapply stays_wanted|done]. }
  apply (relays_ok_server _ _ _ _ _ St) in Ok1. destruct start.
  - injection E as <- <- <- <-. specialize (Rn eq_refl).
    assert (r_thread r1 = None) as Tn by (destruct (r_thread r1) eqn:T; [|done]; assert (r_running r1 = true) by (apply B1; by rewrite T); congruence).
    split; [done|]. apply (relays_ok_start r1); try done. destruct Ok1 as [_ _ _ I _ _]. apply (I r1); [by left|done].
  - match type of E with mbind _ ?c = _ => destruct c as [[r2 g3]|] eqn:C; [|done] end. cbn [mbind option_bind] in E.
    injection E as <- <- <- <-. unfold clean_up in C. destruct (r_cleanup r1) eqn:Cl; [|by injection C as <- <-].
    assert (busy (set_r_thread false false None r1) /\ stays g2 g3 /\ r2 = set_r_thread false false None r1) as (B2 & St2 & ->).
    { split; [by split; [|intros []]|]. destruct (_ && _); [|injection C as <- <-; by split; [apply stays_refl|]].
      bind_inv C. injection C as <- <-. split; [|done]. apply stays_emit. by eapply stays_settings. }
    split; [done|]. apply (relays_ok_server _ _ _ _ _ St2) in Ok1. destruct Ok1 as [M T N I S L]. split.
    + unfold sourced in *. rewrite filter_cons in *. cbn in *. by destruct (decide _).
    + intros q [->|Q]%elem_of_cons Hq; [apply (T r1); [by left|done]|apply T; [by right|done]].
    + cbn in *. destruct (r_thread r1); [by apply NoDup_cons in N as [_ N]|done].
    + intros q [->|Q]%elem_of_cons; [done|apply I; by right].
    + intros q t [->|Q]%elem_of_cons; [done|apply S; by right].
    + intros t st Ht. destruct (L t st Ht) as [L1 L2]. split; [done|]. intros F.
      destruct (L2 F) as (q & [->|Q]%elem_of_cons & Hq); [|exists q; split; [by right|done]].
      destruct (S r1 t) as (_ & s0 & E0 & E1); [by left|done|]. rewrite Ht in E0. injection E0 as <-. by destruct F; apply E1.
Qed.

Lemma check_streams_ok config now skip l : forall g n o th next l' g' n' next',
  check_streams fnmatch x config now skip next l g n = Some (l', g', n', next') -> Forall busy l -> relays_ok (l ++ o) g th next ->
  Forall busy l' /\ next <= next' /\ relays_ok (l' ++ o) g' (Slave.started next (Z.to_nat (next' - next)) th) next'.
Proof.
  induction l as [|r l IH]; intros g n o th next l' g' n' next' E B Ok; cbn [check_streams] in E.
  { injection E as <- <- <- <-. rewrite Z.sub_diag. split_and!; [done|lia|done]. }
  match type of E with context [check_relay_stream _ _ _ _ _ ?r0 _ _] => set (r1 := r0) in E end.
  apply Forall_cons in B as [B1 B]. assert (busy r1) as B1' by (unfold r1; by destruct skip).
  assert (relays_ok (r1 :: l ++ o) g th next) as Ok1.
  { unfold r1. destruct skip; [|done]. eapply (relays_ok_head r); [done|apply stays_refl|done]. }
  destruct (check_relay_stream _ _ _ _ _ _ _ _) as [[[[r2 g2] n2] st]|] eqn:C; [|done]. cbn [mbind option_bind] in E.
  destruct (check_ok _ _ _ _ _ _ _ _ _ _ _ _ C B1' Ok1) as [B2 Ok2].
  destruct (check_streams _ _ _ _ _ _ _ _ _) as [[[[l3 g3] n3] next3]|] eqn:C2; [|done]. cbn [mbind option_bind] in E.
  injection E as <- <- <- <-.
  assert (forall k, r2 :: k ++ o ≡ₚ k ++ r2 :: o) as P by (intros k; solve_Permutation).
  destruct st; apply (relays_ok_perm _ _ _ _ _ (P l)) in Ok2;
    destruct (IH _ _ _ _ _ _ _ _ _ C2 B Ok2) as (B3 & Le & Ok3); apply (relays_ok_perm _ _ _ _ _ (symmetry (P l3))) in Ok3;
    (split_and!; [by constructor|lia|]); [|exact Ok3].
  replace (Z.to_nat (next3 - next)) with (S (Z.to_nat (next3 - (next + 1)))) by lia. exact Ok3.
Qed.

(** ** All threads *)

(** The relays but for one whose thread is waited for. *)
Definition w_ready (w : world) : list relay :=
  w_relays w ++ w_master_relays w ++ match w_pc w with Sleeping => [] | Freeing _ l => l | Joining _ _ l => l end.

Record world_ok (w : world) : Prop := {
  wk_relays : relays_ok (w_all w) (w_server w) (w_threads w) (w_next w);
  wk_busy : Forall busy (w_ready w);
  wk_joining : forall m r l, w_pc w = Joining m r l -> r_source r = true /\ r_thread r <> None
}.

Lemma stands_ok updated : forall kept o g th next,
  length kept = length updated -> Forall busy (omap id kept) -> relays_ok (omap id kept ++ o) g th next ->
  Forall busy (zip_with stands_for updated kept) /\ relays_ok (zip_with stands_for updated kept ++ o) g th next.
Proof.
  induction updated as [|u updated IH]; intros [|[e|] kept] o g th next L B Ok; try done; cbn in *.
  - apply Forall_cons in B as [B1 B]. set (e' := set_r_on_demand (r_on_demand u) e).
    assert (relays_ok (e' :: omap id kept ++ o) g th next) as Ok1.
    { eapply (relays_ok_head e); [done|apply stays_refl|done]. }
    destruct (IH kept (e' :: o) g th next) as [B' Ok']; [lia|done| |].
    { eapply relays_ok_perm; [|exact Ok1]. solve_Permutation. }
    split; [by constructor|]. eapply relays_ok_perm; [|exact Ok']. solve_Permutation.
  - destruct (IH kept (relay_copy u :: o) g th next) as [B' Ok']; [lia|done| |].
    { eapply relays_ok_perm; [|apply (relays_ok_new (relay_copy u)); [done|done|done|exact Ok]]. solve_Permutation. }
    split; [constructor; [by split; [|intros []]|done]|]. eapply relays_ok_perm; [|exact Ok']. solve_Permutation.
Qed.

Lemma by_thread_perm t r' l r l2 :
  l ≡ₚ r :: l2 -> r_thread r = Some t -> NoDup (omap r_thread l) -> by_thread t (fun _ => r') <$> l ≡ₚ r' :: l2.
Proof.
  intros P Hr N. rewrite P. rewrite (omap_perm r_thread l _ P) in N. cbn in *. rewrite Hr in N. apply NoDup_cons in N as [N _].
  unfold by_thread at 1. rewrite decide_True by done. f_equiv.
  assert (forall q, q ∈ l2 -> r_thread q <> Some t) as O by (intros q Q E; apply N, list_elem_of_omap; by exists q).
  clear N P. induction l2 as [|q l2 IH]; [done|]. cbn. unfold by_thread at 1. rewrite decide_False by (apply O; by left).
  f_equiv. apply IH. intros q' Q. apply O. by right.
Qed.

Lemma w_all_update t f w : w_all (w_update t f w) = by_thread t f <$> w_all w.
Proof. unfold w_all, w_update. cbn. rewrite !fmap_app. by destruct (w_pc w). Qed.

Lemma w_ready_update t f w : w_ready (w_update t f w) = by_thread t f <$> w_ready w.
Proof. unfold w_ready, w_update. cbn. rewrite !fmap_app. by destruct (w_pc w). Qed.

(** A thread goes on without changing its relay. *)
Lemma world_ok_stage w t st g n :
  world_ok w -> is_Some (w_threads w !! t) -> w_threads w !! t <> Some Finished -> st <> Finished -> stays (w_server w) g ->
  world_ok (w_set_stage t st g n w).
Proof.
  intros [R B J] [s0 H0] NF Ns St. split; try done. cbn. change (w_all (w_set_stage t st g n w)) with (w_all w).
  assert (s0 <> Finished) as N0 by congruence. destruct (proj2 (ok_live _ _ _ _ R t s0 H0) N0) as (r & Q & Hr).
  apply elem_of_Permutation in Q as [k P]. eapply relays_ok_perm; [symmetry; exact P|].
  eapply (relays_ok_stage r r k); try done; [|by eapply relays_ok_perm; [exact P|]].
  destruct (ok_stage _ _ _ _ R r t) as (_ & s1 & E1 & C); [rewrite P; by left|done|]. assert (s1 = s0) as -> by congruence.
  split; [|done]. intros Hc. by apply C in Hc.
Qed.

(** It comes to its end, and marks its relay to be cleaned up. *)
Lemma world_ok_end w t r r' st0 g n :
  world_ok w -> r ∈ w_all w -> r_thread r = Some t -> w_threads w !! t = Some st0 -> st0 <> Finished -> stays (w_server w) g ->
  r_source r' = r_source r -> r_localmount r' = r_localmount r -> r_thread r' = r_thread r -> r_running r' = r_running r ->
  r_cleanup r' = true ->
  world_ok (w_update t (fun _ => r') (w_set_stage t Finished g n w)).
Proof.
  intros [R B J] Q Hr H0 N0 St K1 K2 K3 K4 K5. apply elem_of_Permutation in Q as [k P].
  assert (forall q, q ∈ w_all w -> r_thread q = Some t -> q = r) as Same.
  { intros q Hq E. rewrite P in Hq. apply elem_of_cons in Hq as [->|Hq]; [done|]. pose proof (ok_threads _ _ _ _ R) as N.
    rewrite (omap_perm r_thread _ _ P) in N. cbn in N. rewrite Hr in N. apply NoDup_cons in N as [N _]. exfalso. apply N.
    apply list_elem_of_omap. by exists q. }
  assert (forall q, q ∈ w_ready w -> q ∈ w_all w) as Sub.
  { unfold w_ready, w_all. intros q. rewrite !elem_of_app. destruct (w_pc w); try done. rewrite elem_of_cons. tauto. }
  split.
  - rewrite w_all_update. change (w_all (w_set_stage t Finished g n w)) with (w_all w). cbn.
    eapply relays_ok_perm; [symmetry; apply (by_thread_perm t r' _ r k P Hr (ok_threads _ _ _ _ R))|].
    eapply (relays_ok_stage r r' k); try done. by eapply relays_ok_perm; [exact P|].
  - rewrite w_ready_update. change (w_ready (w_set_stage t Finished g n w)) with (w_ready w).
    apply Forall_fmap, Forall_forall. intros q Q. cbn. unfold by_thread. rewrite Forall_forall in B. destruct (decide _) as [E|]; [|by apply B].
    specialize (Same q (Sub q Q) E). subst q. unfold busy. rewrite K3, K4. by apply B.
  - cbn. intros m q l. destruct (w_pc w) as [| |m0 q0 l0] eqn:Pc; try done. intros [= <- <- <-].
    destruct (J m0 q0 l0 eq_refl) as [J1 J2]. unfold by_thread. destruct (decide _) as [E|]; [|done].
    assert (q0 = r) as -> by (apply Same; [unfold w_all; rewrite Pc, !elem_of_app; right; right; by left|done]).
    by rewrite K1, K3, Hr.
Qed.

Lemma freed_stays r l g g' th next :
  relay_free r g = Some g' -> (forall t, r_thread r = Some t -> th !! t = Some Finished) ->
  relays_ok (r :: l) g th next -> relays_ok l g' th next.
Proof.
  unfold relay_free. intros E D Ok. eapply (relays_ok_removed r); [exact D| |exact Ok]. intros m Hm Hs.
  destruct (r_source r); [|by injection E as <-]. unfold source_free_source in E. bind_inv E. injection E as <-. cbn.
  destruct Hm as [Hm|]; [|done]. by rewrite lookup_delete_ne.
Qed.

Lemma relay_step_ok w w' : Slave.step fnmatch x w w' -> world_ok w -> world_ok w'.
Proof.
  intros S Ok. destruct S as [w master l Pc|w master Pc|w master r l g Pc Idle E|w master r l g Pc Rs Rr E|w master r l g t Pc Hr F E
    |w master config now skip l g n next Pc E|w t r config limit ct plugin ip ok g n Q Hr Ht E|w t Ht|w t r config g Q Hr Ht E
    |w t r now r' g Q Hr Ht Pc E|w t r config now r' g n Q Hr Ht Ns E|w g Others].
  - destruct Ok as [R B J]. pose proof (update_relay_set_spec l (w_list master w) []) as U. unfold update_relays.
    destruct (update_relay_set _ _ _) as [active cleanup]. destruct U as (kept & -> & L & P & _). rewrite app_nil_r.
    set (o := w_list (negb master) w).
    assert (w_all w ≡ₚ omap id kept ++ cleanup ++ o) as Pa.
    { unfold w_all. rewrite Pc, app_nil_r. unfold o. rewrite (app_assoc (omap id kept)), <- P. destruct master; cbn; [|done].
      apply Permutation_app_comm. }
    assert (w_ready w = w_all w) as Er by (unfold w_ready, w_all; by rewrite Pc). rewrite Er in B.
    assert (Forall busy (omap id kept ++ cleanup ++ o)) as B2 by (by rewrite <- Pa).
    apply Forall_app in B2 as [B1 B2]. destruct (stands_ok l kept (cleanup ++ o) _ _ _ L B1 (relays_ok_perm _ _ _ _ _ Pa R)) as [B3 R3].
    set (w' := w_set_pc _ _).
    assert (w_all w' ≡ₚ zip_with stands_for l kept ++ cleanup ++ o) as Pw.
    { unfold w', w_all, o. destruct master; cbn; rewrite <- (Permutation_rev (zip_with stands_for l kept)); solve_Permutation. }
    split; [| |done].
    + eapply relays_ok_perm; [symmetry; exact Pw|]. unfold w'. by destruct master.
    + assert (w_ready w' = w_all w') as -> by (unfold w', w_ready, w_all; by destruct master). rewrite Pw. apply Forall_app. by split.
  - destruct Ok as [R B J]. split; try done; unfold w_all, w_ready in *; rewrite Pc in *; done.
  - destruct Ok as [R B J]. assert (w_all w ≡ₚ r :: w_relays w ++ w_master_relays w ++ l) as P.
    { unfold w_all. rewrite Pc. solve_Permutation. }
    assert (r_thread r = None) as Tn.
    { destruct (r_thread r) as [t|] eqn:Ht; [|done]. assert (r ∈ w_all w) as Q by (rewrite P; by left). destruct Idle as [Rs|Rr].
      - destruct (ok_stage _ _ _ _ R r t Q Ht) as [Rs' _]. congruence.
      - rewrite Forall_forall in B. assert (r_running r = true); [|congruence]. apply B; [|by rewrite Ht].
        unfold w_ready. rewrite Pc, !elem_of_app. right. right. by left. }
    apply (relays_ok_perm _ _ _ _ _ P) in R.
    split; [| |done]; cbn.
    + unfold free_idle in E. eapply freed_stays; [exact E|by rewrite Tn|]. eapply relays_ok_server; [|exact R]. destruct (r_source r); auto with stays.
    + unfold w_ready in *. rewrite Pc in B. cbn. rewrite !Forall_app in *. destruct B as (B1 & B2 & B3). apply Forall_cons in B3 as [_ B3]. done.
  - destruct Ok as [R B J]. apply stays_upd in E.
    assert (w_all w ≡ₚ r :: w_relays w ++ w_master_relays w ++ l) as P.
    { unfold w_all. rewrite Pc. solve_Permutation. }
    apply (relays_ok_perm _ _ _ _ _ P) in R. split; cbn.
    + set (r' := set_r_thread _ _ _ r). eapply (relays_ok_perm (r' :: w_relays w ++ w_master_relays w ++ l)); [solve_Permutation|].
      by eapply (relays_ok_head r); [|exact E|exact R].
    + unfold w_ready in *. rewrite Pc in B. cbn. rewrite !Forall_app in *. destruct B as (B1 & B2 & B3). apply Forall_cons in B3 as [_ B3]. done.
    + intros m q k [= <- <- <-]. cbn. split; [done|]. rewrite Forall_forall in B. apply B; [|done].
      unfold w_ready. rewrite Pc, !elem_of_app. right. right. by left.
  - destruct Ok as [R B J]. assert (w_all w ≡ₚ r :: w_relays w ++ w_master_relays w ++ l) as P.
    { unfold w_all. rewrite Pc. solve_Permutation. }
    apply (relays_ok_perm _ _ _ _ _ P) in R. split; [| |done]; cbn.
    + eapply freed_stays; [exact E| |exact R]. intros u Hu. rewrite Hr in Hu. by injection Hu as <-.
    + unfold w_ready in *. rewrite Pc in B. done.
  - destruct Ok as [R B J]. unfold w_all, w_ready in *. rewrite Pc in R, B. rewrite !app_nil_r in R, B.
    set (o := w_list (negb master) w).
    assert (w_relays w ++ w_master_relays w ≡ₚ w_list master w ++ o) as P.
    { unfold o. destruct master; cbn; [apply Permutation_app_comm|done]. }
    apply (relays_ok_perm _ _ _ _ _ P) in R. rewrite P in B. apply Forall_app in B as [B1 B2].
    destruct (check_streams_ok _ _ _ _ _ _ _ _ _ _ _ _ _ E B1 R) as (B3 & _ & R3).
    assert (forall w1, (if master then w_master_relays w1 = l /\ w_relays w1 = o else w_relays w1 = l /\ w_master_relays w1 = o) ->
      w_relays w1 ++ w_master_relays w1 ≡ₚ l ++ o) as Pn.
    { intros w1. destruct master; intros [-> ->]; [apply Permutation_app_comm|done]. }
    set (w' := w_set_pc _ _). assert (w_relays w' ++ w_master_relays w' ++ [] ≡ₚ l ++ o) as Pw.
    { rewrite app_nil_r. apply Pn. by destruct master. }
    assert (w_pc w' = Sleeping) as Pc' by (unfold w'; by destruct master).
    split; [|unfold w_ready; rewrite Pc', Pw; by apply Forall_app_2|by rewrite Pc'].
    eapply relays_ok_perm; [symmetry; unfold w_all; rewrite Pc'; exact Pw|]. unfold w'. by destruct master.
  - apply stays_connected in E. apply world_ok_stage; [done|rewrite Ht; by eexists|by rewrite Ht|by destruct ok|done].
  - apply world_ok_stage; [done|rewrite Ht; by eexists|by rewrite Ht|done|apply stays_refl].
  - apply stays_failed in E. apply world_ok_stage; [done|rewrite Ht; by eexists|by rewrite Ht|done|done].
  - unfold relay_give_up in E. bind_inv E. injection E as <- <-. apply stays_upd in E0. by eapply world_ok_end.
  - apply stays_ended in E as (St & K1 & K2 & K3 & K4 & K5). by eapply world_ok_end.
  - destruct Ok as [R B J]. split; try done. change (w_all (World _ _ _ _ _ _ _)) with (w_all w). cbn. destruct R as [M T N I S L].
    split; try done. intros r Q Hr. apply Others; [by apply T|by exists r].
Qed.

Inductive relays_reach : world -> Prop :=
| relays_start g n : relays_reach (World g [] [] Sleeping n ∅ 0)
| relays_step w w' : relays_reach w -> Slave.step fnmatch x w w' -> relays_reach w'.

Lemma relays_reach_ok w : relays_reach w -> world_ok w.
Proof.
  induction 1 as [g n|w w' R IH S]; [|by eapply relay_step_ok]. split; [|done|done].
  split; cbn; try done; try constructor; intros; set_solver.
Qed.

Lemma NoDup_fmap_eq {A B} (f : A -> B) (l : list A) a b : NoDup (f <$> l) -> a ∈ l -> b ∈ l -> f a = f b -> a = b.
Proof.
  intros N A1 [k P]%elem_of_Permutation E. rewrite P in N, A1. cbn in N. apply NoDup_cons in N as [N _].
  apply elem_of_cons in A1 as [->|A1]; [done|]. destruct N. rewrite <- E. by apply list_elem_of_fmap_2.
Qed.

(** C27: However relays are added to and removed from the configuration, connect,
    fail, stream and end: a thread that is alive has its relay, exactly one,
    which is not freed; the relay's source is in the tree; and no other relay
    has a source on this mount. *)
Theorem relay_threads_safe w t st :
  relays_reach w -> w_threads w !! t = Some st -> st <> Finished ->
  exists r, r ∈ w_all w /\ r_thread r = Some t /\ r_source r = true /\ is_Some (g_sources (w_server w) !! r_localmount r) /\
    forall q, q ∈ w_all w -> r_thread q = Some t \/ r_source q = true /\ r_localmount q = r_localmount r -> q = r.
Proof.
  intros Rw Ht Ns. destruct (relays_reach_ok w Rw) as [[M T N I S L] _ _]. destruct (L t st Ht) as [_ H]. destruct (H Ns) as (r & Q & Hr).
  destruct (S r t Q Hr) as [Rs _]. exists r. split_and!; [done|done|done|by apply T|].
  assert (forall q, q ∈ w_all w -> r_source q = true -> r_localmount q = r_localmount r -> q = r) as Same.
  { intros q Hq Hs E. eapply (NoDup_fmap_eq r_localmount); [exact M| | |done]; by apply list_elem_of_filter. }
  intros q Hq [Hs|[Hs E]]; [|by apply Same]. apply elem_of_Permutation in Q as [k P].
  rewrite (omap_perm r_thread _ _ P) in N. cbn in N. rewrite Hr in N. apply NoDup_cons in N as [N _].
  rewrite P in Hq. apply elem_of_cons in Hq as [|Hq]; [done|]. destruct N. apply list_elem_of_omap. by exists q.
Qed.

(** ** A removal without end *)

(** The slave thread waits, with the lock, for a thread that waits for it. *)
Definition stuck (w : world) : Prop :=
  exists m r l t, w_pc w = Joining m r l /\ r_thread r = Some t /\ w_threads w !! t = Some Failing.

(** Nothing that happens afterwards changes this. *)
Theorem relay_removal_stuck w w' : Slave.step fnmatch x w w' -> stuck w -> stuck w'.
Proof.
  intros S (m & r & l & t & Pc & Hr & Ht).
  destruct S as [w master k Pc'|w master Pc'|w master q k g Pc' Idle E|w master q k g Pc' Rs Rr E|w master q k g u Pc' Hu F E
    |w master config now skip k g n next Pc' E|w u q config limit ct plugin ip ok g n Q Hu Hs E|w u Hs|w u q config g Q Hu Hs E
    |w u q now q' g Q Hu Hs Pc' E|w u q config now q' g n Q Hu Hs Ns E|w g Others]; try congruence.
  - exists m, r, l, t. cbn. split_and!; try done. rewrite lookup_insert_ne; [done|congruence].
  - exists m, r, l, t. cbn. split_and!; try done. rewrite lookup_insert_ne; [done|congruence].
  - exists m, r, l, t. cbn. split_and!; try done. rewrite lookup_insert_ne; [done|congruence].
  - assert (u <> t) as N by congruence. exists m, r, (by_thread u (fun _ => q') <$> l), t. cbn. rewrite Pc. unfold by_thread at 1.
    rewrite decide_False by congruence. split_and!; try done. by rewrite lookup_insert_ne.
  - by exists m, r, l, t.
Qed.
End threads.

(** One that is removed while it is failing to connect. *)
Definition demo_relay : relay :=
  Relay "other.example" 8000 "/live" None None "/relay" None false true false false false 0 None.
Definition demo_notices : notices := Notices false false 0.
Definition demo_world (l : list relay) (pc : slave_pc) : world := World (Server ∅ [] 0 [] []) l [] pc demo_notices ∅ 0.

(** The relay once it is started, and the server then. *)
Definition demo_pass : option (list relay * server * notices * Z) :=
  check_streams streq demo_surroundings demo_config 100 false 0 [relay_copy demo_relay] (Server ∅ [] 0 [] []) demo_notices.
Definition demo_started : relay := default demo_relay (r ← demo_pass; head r.1.1.1).
Definition demo_with : server := default (Server ∅ [] 0 [] []) (r ← demo_pass; Some r.1.1.2).
Definition demo_stopped : server := demo_then (stop_removed demo_started) demo_with.
Definition demo_cleared : server := demo_then (relay_failed streq demo_config demo_started) demo_stopped.

Definition demo_running : world := World demo_with [demo_started] [] Sleeping demo_notices {[0 := Connecting]} 1.
Definition demo_joining (s : stage) (g : server) : world :=
  World g [] [] (Joining false (set_r_thread false (r_cleanup demo_started) (r_thread demo_started) demo_started) []) demo_notices {[0 := s]} 1.

Abbreviation demo_step := (Slave.step streq demo_surroundings).

Lemma demo_reach_running : relays_reach streq demo_surroundings demo_running.
Proof.
  eapply relays_step; [eapply relays_step; [apply (relays_start _ _ (Server ∅ [] 0 [] []) demo_notices)|]|].
  - apply (step_update _ _ _ false [demo_relay]). reflexivity.
  - apply (step_check _ _ (demo_world [relay_copy demo_relay] (Freeing false [])) false demo_config 100 false
      [demo_started] demo_with demo_notices 1); reflexivity.
Qed.

Lemma demo_reach_joining : relays_reach streq demo_surroundings (demo_joining Connecting demo_stopped).
Proof.
  assert (relays_reach streq demo_surroundings (World demo_with [] [] (Freeing false [demo_started]) demo_notices {[0 := Connecting]} 1)) as R.
  { exact (relays_step _ _ _ _ demo_reach_running (step_update _ _ demo_running false [] eq_refl)). }
  refine (relays_step _ _ _ _ R (step_stop _ _ (World demo_with [] [] (Freeing false [demo_started]) demo_notices {[0 := Connecting]} 1) false demo_started []
    demo_stopped _ _ _ _)); by vm_compute.
Qed.

(** It is reached: the relay is removed while it connects, it cannot, and the
    slave thread and the relay's wait for each other. *)
Theorem relay_removal_deadlock :
  exists w, relays_reach streq demo_surroundings w /\ stuck w.
Proof.
  exists (demo_joining Failing demo_cleared). split.
  - eapply relays_step; [eapply relays_step; [apply demo_reach_joining|]|].
    + apply (step_no_stream _ _ (demo_joining Connecting demo_stopped) 0). reflexivity.
    + eapply (step_failed _ _ (demo_joining Unable demo_stopped) 0 _ demo_config); [by left|reflexivity|reflexivity|by vm_compute].
  - exists false. do 3 eexists. split_and!; reflexivity.
Qed.

(** ** Witness *)

Example relay_threads_safe_witness :
  relays_reach streq demo_surroundings demo_running /\ w_threads demo_running !! 0 = Some Connecting /\
  exists r, r ∈ w_all demo_running /\ r_thread r = Some 0 /\ r_source r = true /\
    is_Some (g_sources (w_server demo_running) !! r_localmount r) /\
    forall q, q ∈ w_all demo_running -> r_thread q = Some 0 \/ r_source q = true /\ r_localmount q = r_localmount r -> q = r.
Proof.
  split; [exact demo_reach_running|]. split; [reflexivity|].
  apply (relay_threads_safe streq demo_surroundings demo_running 0 Connecting demo_reach_running); [reflexivity|discriminate].
Defined.
