(* ===== verification/Connection.v ===== *)
(** The intake of connections, [connection.c]: the queue of connections whose
    request is still being read, the two forms of a request, and the way from
    a request to the authenticators.

    Sockets and TLS, and the HTTP parser of the httpp submodule, are
    parameters: what a read gives, and what the parser makes of a text. *)

From S2P Require Import Prelude Uri Acl Errors Refbuf Stats Mounts Htpasswd AuthUrl Auth.
Local Open Scope Z_scope.

(** ** Settings *)

Inductive operation_mode := OMODE_DEFAULT | OMODE_NORMAL | OMODE_LEGACY | OMODE_STRICT.

#[export] Instance operation_mode_eq_dec : EqDecision operation_mode.
Proof. solve_decision. Defined.

Definition config_str_to_omode (str : option string) : operation_mode :=
  match str with
  | None | Some EmptyString => OMODE_DEFAULT
  | Some s =>
      if strcaseeq s "default" then OMODE_DEFAULT
      else if strcaseeq s "normal" then OMODE_NORMAL
      else if strcaseeq s "legacy-compat" || strcaseeq s "legacy" then OMODE_LEGACY
      else if strcaseeq s "strict" then OMODE_STRICT
      else OMODE_DEFAULT
  end.

Inductive tlsmode_t := TLSMODE_DISABLED | TLSMODE_AUTO | TLSMODE_AUTO_NO_PLAIN | TLSMODE_RFC2817 | TLSMODE_RFC2818.

#[export] Instance tlsmode_eq_dec : EqDecision tlsmode_t.
Proof. solve_decision. Defined.

Definition str_to_tlsmode (str : option string) : tlsmode_t :=
  match str with
  | None | Some EmptyString => TLSMODE_AUTO
  | Some s =>
      if strcaseeq s "disabled" then TLSMODE_DISABLED
      else if strcaseeq s "auto" then TLSMODE_AUTO
      else if strcaseeq s "auto_no_plain" then TLSMODE_AUTO_NO_PLAIN
      else if strcaseeq s "rfc2817" then TLSMODE_RFC2817
      else if strcaseeq s "rfc2818" || strcaseeq s "true" || strcaseeq s "yes" || strcaseeq s "on" then TLSMODE_RFC2818
      else if negb (atoi s =? 0) then TLSMODE_RFC2818
      else TLSMODE_AUTO
  end.

(** [listener_t]. *)
Record listener_t := Listener_t {
  l_port : Z;
  l_bind_address : option string;
  l_shoutcast_compat : bool;
  l_shoutcast_mount : option string;
  l_tls : tlsmode_t;
  l_so_sndbuf : Z
}.

Record aliases := Alias {
  al_source : string;
  al_destination : option string;
  al_port : Z;
  al_bind_address : option string;
  al_vhost : option string;
  al_omode : operation_mode
}.

(** What the intake reads of the configuration, and the listening sockets
    that are open, in the order of the listeners. *)
Record intake_config := Intake_config {
  ic_header_timeout : Z;
  ic_client_limit : Z;
  ic_shoutcast_user : string;
  ic_shoutcast_mount : string;
  ic_aliases : list aliases;
  ic_listeners : list listener_t;
  ic_serversocks : list Z;
  ic_tls_ctx : bool
}.

(** [config_get_listen_sock]. *)
Fixpoint listen_sock (listeners : list listener_t) (serversocks : list Z) (sock : Z) : option listener_t :=
  match listeners, serversocks with
  | l :: ls, s :: ss => if s =? sock then Some l else listen_sock ls ss sock
  | _, _ => None
  end.

Definition config_get_listen_sock (config : intake_config) (sock : Z) : option listener_t :=
  listen_sock (ic_listeners config) (ic_serversocks config) sock.

(** ** Connections *)

(** [connection_t]. *)
Record connection := Connection {
  con_id : Z;
  con_ip : string;
  con_serversock : Z;
  con_con_time : Z;
  con_tlsmode : tlsmode_t;
  con_tls : bool;
  con_error : bool
}.

Definition con_set_tls (mode : tlsmode_t) (tls : bool) (c : connection) : connection :=
  Connection (con_id c) (con_ip c) (con_serversock c) (con_con_time c) mode tls (con_error c).
Definition con_set_error (c : connection) : connection :=
  Connection (con_id c) (con_ip c) (con_serversock c) (con_con_time c) (con_tlsmode c) (con_tls c) true.

(** [connection_create]. *)
Definition connection_create (id now serversock : Z) (ip : string) : connection :=
  Connection id ip serversock now TLSMODE_AUTO false false.

Definition connection_uses_tls (config : intake_config) (c : connection) : connection :=
  if con_tls c then c else con_set_tls TLSMODE_RFC2818 (ic_tls_ctx config) c.

(** [client_queue_t]: the client's buffer holds [n_data], of [offset] bytes.
    A user and a password come with the older form of a request, and the
    result of the parser, once it has been called. *)
Record client_queue {R : Type} := Client_queue {
  n_con : connection;
  n_data : string;
  n_stream_offset : Z;
  n_shoutcast : Z;
  n_shoutcast_mount : option string;
  n_user : option (string * string);
  n_parser : option R
}.
Arguments client_queue : clear implicits.

Section intake.
(** A parsed request. *)
Context {R : Type}.
Implicit Types n : client_queue R.

Definition n_offset n : Z := strlen (n_data n).

Definition set_n_con (c : connection) n : client_queue R :=
  Client_queue R c (n_data n) (n_stream_offset n) (n_shoutcast n) (n_shoutcast_mount n) (n_user n) (n_parser n).
Definition set_n_data (d : string) n : client_queue R :=
  Client_queue R (n_con n) d (n_stream_offset n) (n_shoutcast n) (n_shoutcast_mount n) (n_user n) (n_parser n).
Definition set_n_stream_offset (z : Z) n : client_queue R :=
  Client_queue R (n_con n) (n_data n) z (n_shoutcast n) (n_shoutcast_mount n) (n_user n) (n_parser n).
Definition set_n_shoutcast (z : Z) n : client_queue R :=
  Client_queue R (n_con n) (n_data n) (n_stream_offset n) z (n_shoutcast_mount n) (n_user n) (n_parser n).
Definition set_n_user (u : option (string * string)) n : client_queue R :=
  Client_queue R (n_con n) (n_data n) (n_stream_offset n) (n_shoutcast n) (n_shoutcast_mount n) u (n_parser n).
Definition set_n_parser (p : option R) n : client_queue R :=
  Client_queue R (n_con n) (n_data n) (n_stream_offset n) (n_shoutcast n) (n_shoutcast_mount n) (n_user n) p.

(** [create_client_node]. *)
Definition create_client_node (config : intake_config) (con : connection) : client_queue R :=
  match config_get_listen_sock config (con_serversock con) with
  | None => Client_queue R con EmptyString 0 0 None None None
  | Some l =>
      let con := con_set_tls (l_tls l) (con_tls con) con in
      let con :=
        if bool_decide (l_tls l = TLSMODE_RFC2818) && ic_tls_ctx config then connection_uses_tls config con else con in
      Client_queue R con EmptyString 0 (if l_shoutcast_compat l then 1 else 0) (l_shoutcast_mount l) None None
  end.

(** ** Reading requests *)

(** [strstr]: the index of the first occurrence. *)
Fixpoint strstr_at (p s : string) : option Z :=
  if starts_with p s then Some 0
  else match s with
       | EmptyString => None
       | String _ r => match strstr_at p r with Some i => Some (1 + i) | None => None end
       end.

Definition CR : string := String (chr 13) EmptyString.
Definition LF : string := String (chr 10) EmptyString.

(** Where the data behind the headers starts in a text. *)
Definition header_end (text : string) : option Z :=
  match strstr_at (CR +:+ CR +:+ LF +:+ CR +:+ CR +:+ LF) text with
  | Some i => Some (i + 6)
  | None =>
      match strstr_at (CR +:+ LF +:+ CR +:+ LF) text with
      | Some i => Some (i + 4)
      | None => match strstr_at (LF +:+ LF) text with Some i => Some (i + 2) | None => None end
      end
  end.

(** The end of a password line: its place, and what follows it. *)
Definition password_end (text : string) : option (Z * Z) :=
  match strstr_at (CR +:+ CR +:+ LF) text with
  | Some i => Some (i, i + 3)
  | None =>
      match strstr_at (CR +:+ LF) text with
      | Some i => Some (i, i + 2)
      | None => match strstr_at LF text with Some i => Some (i, i + 1) | None => None end
      end
  end.

(** What is to be passed on: a password line, or the end of the headers. *)
Definition is_complete n : option (client_queue R) :=
  let text := cstr (n_data n) in
  if (n_shoutcast n =? 1) && bool_decide (is_Some (password_end text)) then Some n
  else match header_end text with Some i => Some (set_n_stream_offset i n) | None => None end.

(** What a read gives: bytes, nothing for now, or the end of the connection. *)
Inductive reading := Got (s : string) | Nothing | Failed.

Inductive intake := Passed (n : client_queue R) | Waiting (n : client_queue R) | Dropped.

(** The turn of one connection in [process_request_queue], with the first byte
    that waits. *)
Definition take_in (config : intake_config) (now : Z) (peek : option Z) (rd : reading) n : intake :=
  let con := n_con n in
  let con :=
    if (bool_decide (con_tlsmode con = TLSMODE_AUTO) || bool_decide (con_tlsmode con = TLSMODE_AUTO_NO_PLAIN)) &&
       bool_decide (peek = Some 22)
    then connection_uses_tls config con else con in
  let n := set_n_con con n in
  let len := PER_CLIENT_REFBUF_SIZE - 1 - n_offset n in
  if len <=? 0 then Dropped
  else if con_con_time con + ic_header_timeout config <=? now then Dropped
  else
    match rd with
    | Failed => Dropped
    | Nothing => Waiting n
    | Got s =>
        let s := string_take (Z.to_nat len) s in
        if strlen s =? 0 then Dropped
        else
          let n := set_n_data (n_data n +:+ s) n in
          match is_complete n with Some n => Passed n | None => Waiting n end
    end.

(** The connections that are left, and those that go on, after the turns of
    all. *)
Fixpoint take_all (config : intake_config) (now : Z) (peek : Z -> option Z) (read : Z -> reading) (q : list (client_queue R))
    : list (client_queue R) * list (client_queue R) :=
  match q with
  | [] => ([], [])
  | n :: r =>
      let '(waiting, passed) := take_all config now peek read r in
      match take_in config now (peek (con_id (n_con n))) (read (con_id (n_con n))) n with
      | Passed n => (waiting, n :: passed)
      | Waiting n => (n :: waiting, passed)
      | Dropped => (waiting, passed)
      end
  end.
End intake.

(** ** Requests *)

(** What the parser makes of the text of a request. *)
Record request := Request {
  q_method : Z;
  q_uri : string;
  q_protocol : string;
  q_var : string -> option string;
  q_query : string -> option string
}.

(** [httpp_set_query_param], with the protocol set too where it is given. *)
Definition set_query (name : string) (value : string) (protocol : string) (q : request) : request :=
  Request (q_method q) (q_uri q) protocol (q_var q) (fun x => if streq x name then Some value else q_query q x).

Inductive dispatch :=
| Requeue (n : client_queue request)
| Destroyed (con : connection)
| UsedFreed                                      (** the node is read after it has been freed *)
| SendError (con : connection) (error : Z)
| Send101 (con : connection)
| Send426 (con : connection)
| Authenticate (c : client) (mode : operation_mode) (body : string).

Section dispatching.
(** [httpp_parse]. *)
Variable httpp_parse : string -> option request.
Variable config : intake_config.

(** The buffer after [memmove] of what follows the headers to its front. *)
Definition move_front (stream_offset : Z) (data : string) : string :=
  string_drop (Z.to_nat stream_offset) data +:+ string_drop (Z.to_nat (strlen data - stream_offset)) data.

(** [_handle_shoutcast_compatible]: [None] where the node is freed. *)
Definition handle_shoutcast_compatible (n : client_queue request) : option (client_queue request) :=
  if n_shoutcast n =? 1 then
    match password_end (cstr (n_data n)) with
    | None => None
    | Some (ptr, headers) =>
        let n := set_n_user (Some (ic_shoutcast_user config, string_take (Z.to_nat ptr) (n_data n))) n in
        Some (set_n_shoutcast 2 (set_n_data (string_drop (Z.to_nat headers) (n_data n)) n))
    end
  else
    let mount := default (ic_shoutcast_mount config) (n_shoutcast_mount n) in
    match httpp_parse ("SOURCE " +:+ mount +:+ " HTTP/1.0" +:+ crlf +:+ cstr (n_data n))%string with
    | None => None
    | Some q => Some (set_n_shoutcast 0 (set_n_parser (Some q) (set_n_data (move_front (n_stream_offset n) (n_data n)) n)))
    end.

Definition alias_matches (uri : string) (l : option listener_t) (vhost : option string) (a : aliases) : bool :=
  streq uri (al_source a) && ((al_port a =? -1) || (al_port a =? match l with Some l => l_port l | None => 0 end)) &&
  match al_bind_address a with
  | None => true
  | Some b => match l with Some l => bool_decide (l_bind_address l = Some b) | None => false end
  end &&
  match al_vhost a with None => true | Some v => bool_decide (vhost = Some v) end.

(** [_handle_aliases]: the address, and the mode. *)
Definition handle_aliases (serversock : Z) (host : option string) (uri : string) (mode : operation_mode)
    : string * operation_mode :=
  let vhost := (fun h => match strchr ":" h with Some (v, _) => v | None => h end) <$> host in
  let l := config_get_listen_sock config serversock in
  match List.find (alias_matches uri l vhost) (ic_aliases config) with
  | None => (uri, mode)
  | Some a => (default uri (al_destination a), if decide (al_omode a = OMODE_DEFAULT) then mode else al_omode a)
  end.

(** [__prepare_shoutcast_admin_cgi_request]: the request, the user name and the
    password of the client. *)
Definition prepare_shoutcast_admin_cgi_request (serversock : Z) (user password : option string) (q : request)
    : request * option string :=
  match q_query q "pass" with
  | None => (q, password)
  | Some pass =>
      match password with
      | Some _ => (q, password)
      | None =>
          let mount :=
            match config_get_listen_sock config serversock with
            | Some l => default (ic_shoutcast_mount config) (l_shoutcast_mount l)
            | None => ic_shoutcast_mount config
            end in
          (set_query "mount" mount "ICY" q, Some pass)
      end
  end.

(** The answer to a request for TLS, or to one that must have it. *)
Definition tls_answer (con : connection) (q : request) : option dispatch :=
  match q_var q "upgrade", q_var q "connection" with
  | Some upgrade, Some c =>
      if strcaseeq c "upgrade" then
        Some (if bool_decide (con_tlsmode con = TLSMODE_DISABLED) || bool_decide (strstr_at "TLS/1.0" upgrade = None)
              then SendError con ICECAST_ERROR_CON_UPGRADE_ERROR else Send101 con)
      else if negb (bool_decide (con_tlsmode con = TLSMODE_DISABLED)) && negb (bool_decide (con_tlsmode con = TLSMODE_AUTO)) &&
              negb (con_tls con) then Some (Send426 con) else None
  | _, _ =>
      if negb (bool_decide (con_tlsmode con = TLSMODE_DISABLED)) && negb (bool_decide (con_tlsmode con = TLSMODE_AUTO)) &&
         negb (con_tls con) then Some (Send426 con) else None
  end.

(** The client that is to be authenticated. *)
Definition new_client (con : connection) (user password : option string) (command : Z) (uri : string) (q : request) : client :=
  Client user password None None None 0 command (q_method q) uri (q_query q "mount") (q_var q) (con_id con) (con_ip con).

(** The request of a node that has been read, from [_handle_connection]. *)
Definition handle_request (n : client_queue request) : dispatch :=
  let con := n_con n in
  match match n_parser n with Some q => Some q | None => httpp_parse (n_data n) end with
  | None => Destroyed con
  | Some q =>
      let body := string_take (Z.to_nat (n_offset n - n_stream_offset n)) (move_front (n_stream_offset n) (n_data n)) in
      let rawuri := q_uri q in
      let q :=
        match n_shoutcast_mount n with
        | Some m => if streq rawuri "/admin.cgi" then set_query "mount" m (q_protocol q) q else q
        | None => q
        end in
      if negb (streq "ICE" (q_protocol q)) && negb (streq "HTTP" (q_protocol q)) then Destroyed con
      else
        match tls_answer con q with
        | Some d => d
        | None =>
            match util_normalise_uri rawuri with
            | None => Destroyed con
            | Some uri =>
                let mode := config_str_to_omode (q_query q "omode") in
                let '(uri, mode) := handle_aliases (con_serversock con) (q_var q "host") uri mode in
                let user := fst <$> n_user n in
                let password := snd <$> n_user n in
                if streq uri "/admin.cgi" then
                  let '(q, password) := prepare_shoutcast_admin_cgi_request (con_serversock con) user password q in
                  match password with
                  | None => SendError con ICECAST_ERROR_CON_MISSING_PASS_PARAMETER
                  | Some _ => Authenticate (new_client con user password (admin_get_command "admin.cgi") uri q) mode body
                  end
                else
                  let command := if starts_with "/admin/" uri then admin_get_command (string_drop 7 uri) else -1 in
                  Authenticate (new_client con user password command uri q) mode body
            end
        end
  end.

(** One turn of [_handle_connection]. *)
Definition handle_connection (n : client_queue request) : dispatch :=
  if n_shoutcast n =? 0 then handle_request n
  else
    match handle_shoutcast_compatible n with
    | None => UsedFreed
    | Some n => if n_shoutcast n =? 0 then handle_request n else Requeue n
    end.

(** [process_request_queue]: the queue after it, and what has become of the
    requests that were complete. *)
Definition process_request_queue (now : Z) (peek : Z -> option Z) (read : Z -> reading) (q : list (client_queue request))
    : list (client_queue request) * list dispatch :=
  let '(waiting, passed) := take_all config now peek read q in
  let results := handle_connection <$> passed in
  (waiting ++ omap (fun d => match d with Requeue n => Some n | _ => None end) results,
   omap (fun d => match d with Requeue _ => None | _ => Some d end) results).

(** [connection_queue], for a connection whose socket can be set up, with the
    clients there are: the node, or the error that is answered. *)
Definition connection_queue (clients : Z) (con : connection) : client_queue request + dispatch :=
  if ic_client_limit config <? clients + 1 then inr (SendError con ICECAST_ERROR_GEN_CLIENT_LIMIT)
  else inl (create_client_node config con).
End dispatching.
