(* ===== verification/ConnectionFacts.v ===== *)
(** The intake of connections: requests are put together again however they
    were cut, slow and oversized ones are dropped, and what comes to the
    authenticators has been checked. *)

From S2P Require Import Prelude Uri Acl Errors Refbuf Stats Mounts Htpasswd AuthUrl Auth Connection.
Local Open Scope Z_scope.

(** ** Search *)

Lemma strstr_at_bound p s i : strstr_at p s = Some i -> 0 <= i /\ i + strlen p <= strlen s.
Proof.
  assert (forall a b, starts_with a b = true -> strlen a <= strlen b) as L.
  { induction a as [|c a IH]; intros [|d b] E; cbn in E; try done; unfold strlen in *; cbn; [lia..|].
    apply andb_true_iff in E as [_ E]. specialize (IH b E). lia. }
  revert i. induction s as [|c s IH]; intros i E; cbn [strstr_at] in E.
  - destruct (starts_with p EmptyString) eqn:F; [|done]. injection E as <-. pose proof (L _ _ F). lia.
  - destruct (starts_with p (String c s)) eqn:F; [injection E as <-; pose proof (L _ _ F); lia|].
    destruct (strstr_at p s) as [j|]; [|done]. injection E as <-. specialize (IH j eq_refl).
    unfold strlen in *. cbn [String.length]. lia.
Qed.

#[local] Ltac found_bound :=
  match goal with
  | H : strstr_at ?p _ = Some _ |- _ =>
      apply strstr_at_bound in H; let v := eval vm_compute in (strlen p) in change (strlen p) with v in H; lia
  end.

Lemma cstr_le s : strlen (cstr s) <= strlen s.
Proof. induction s as [|c s IH]; [done|]. cbn [cstr]. unfold strlen in *. case_match; cbn [String.length]; lia. Qed.

Lemma header_end_bound t e : header_end t = Some e -> 0 < e <= strlen t.
Proof.
  unfold header_end. intros E.
  repeat match type of E with context [match strstr_at ?p t with _ => _ end] =>
    destruct (strstr_at p t) eqn:?; [injection E as <-|] end; try done.
  all: found_bound.
Qed.

Lemma password_end_bound t p h : password_end t = Some (p, h) -> 0 <= p < h /\ h <= strlen t.
Proof.
  unfold password_end. intros E.
  repeat match type of E with context [match strstr_at ?p t with _ => _ end] =>
    destruct (strstr_at p t) eqn:?; [injection E as <- <-|] end; try done.
  all: found_bound.
Qed.

Lemma strstr_at_starts p s i : strstr_at p s = Some i -> exists a b, s = (a +:+ p +:+ b)%string.
Proof.
  assert (forall a b, starts_with a b = true -> exists c, b = (a +:+ c)%string) as L.
  { induction a as [|c a IH]; intros [|d b] E; cbn in E; try done; [by exists EmptyString|by exists (String d b)|].
    apply andb_true_iff in E as [->%Ascii.eqb_eq E]. destruct (IH b E) as [x ->]. by exists x. }
  revert i. induction s as [|c s IH]; intros i E; cbn [strstr_at] in E.
  - destruct (starts_with p EmptyString) eqn:F; [|done]. destruct (L _ _ F) as [x ->]. by exists EmptyString, x.
  - destruct (starts_with p (String c s)) eqn:F; [destruct (L _ _ F) as [x ->]; by exists EmptyString, x|].
    destruct (strstr_at p s) as [j|]; [|done]. destruct (IH j eq_refl) as (a & b & ->). by exists (String c a), b.
Qed.

Lemma strstr_at_here p s : starts_with p s = true -> strstr_at p s = Some 0.
Proof. intros E. destruct s; cbn [strstr_at]; by rewrite E. Qed.

Lemma strstr_at_mem a p b : is_Some (strstr_at p (a +:+ p +:+ b)%string).
Proof.
  induction a as [|c a [i IH]]; [exists 0; apply (strstr_at_here p (p +:+ b)), starts_with_app|].
  rewrite string_app_cons. cbn [strstr_at]. rewrite IH. case_match; by eexists.
Qed.

(** The end of the headers is the end of a line. *)
Lemma header_end_password t e : header_end t = Some e -> is_Some (password_end t).
Proof.
  intros E. assert (is_Some (strstr_at LF t)) as [i Q].
  { unfold header_end in E. repeat match type of E with context [match strstr_at ?p t with _ => _ end] =>
      let F := fresh in destruct (strstr_at p t) eqn:F; [clear E; apply strstr_at_starts in F as (a & b & ->)|] end; [..|done].
    - replace (a +:+ _)%string with ((a +:+ CR +:+ CR) +:+ LF +:+ (CR +:+ CR +:+ LF +:+ b))%string
        by (by rewrite !string_app_assoc). apply strstr_at_mem.
    - replace (a +:+ _)%string with ((a +:+ CR) +:+ LF +:+ (CR +:+ LF +:+ b))%string by (by rewrite !string_app_assoc).
      apply strstr_at_mem.
    - replace (a +:+ _)%string with (a +:+ LF +:+ (LF +:+ b))%string by (by rewrite !string_app_assoc). apply strstr_at_mem. }
  unfold password_end. rewrite Q. repeat case_match; by eexists.
Qed.

(** ** The queue *)

(** A connection that waits: its bytes fit in the buffer, with room for the
    terminator. *)
Definition node_ok (n : client_queue request) : Prop :=
  n_offset n <= PER_CLIENT_REFBUF_SIZE - 1 /\ n_stream_offset n = 0 /\ n_parser n = None /\
  (n_shoutcast n = 0 \/ n_shoutcast n = 1 \/ n_shoutcast n = 2).

Lemma is_complete_spec (n m : client_queue request) :
  is_complete n = Some m ->
  n_con m = n_con n /\ n_data m = n_data n /\ n_shoutcast m = n_shoutcast n /\ n_parser m = n_parser n /\ n_user m = n_user n /\
  n_shoutcast_mount m = n_shoutcast_mount n /\
  (n_shoutcast n = 1 /\ n_stream_offset m = n_stream_offset n /\ is_Some (password_end (cstr (n_data n))) \/
   n_shoutcast n <> 1 /\ header_end (cstr (n_data n)) = Some (n_stream_offset m)).
Proof.
  unfold is_complete. destruct ((n_shoutcast n =? 1) && _) eqn:E.
  - intros [= <-]. apply andb_true_iff in E as [E1%Z.eqb_eq E2%bool_decide_eq_true]. by split_and!; try left.
  - destruct (header_end (cstr (n_data n))) as [e|] eqn:H; [|done]. intros [= <-]. split_and!; try done. right. split; [|done].
    intros S. rewrite S, bool_decide_true in E by (by apply (header_end_password _ e)). done.
Qed.

Lemma take_in_spec config now peek rd (n : client_queue request) :
  match take_in config now peek rd n with
  | Dropped => True
  | Waiting m | Passed m =>
      con_id (n_con m) = con_id (n_con n) /\ con_con_time (n_con m) = con_con_time (n_con n) /\
      now < con_con_time (n_con n) + ic_header_timeout config /\
      n_shoutcast m = n_shoutcast n /\ n_parser m = n_parser n /\ n_user m = n_user n /\
      n_shoutcast_mount m = n_shoutcast_mount n /\
      n_offset n <= n_offset m /\ (n_offset n <= PER_CLIENT_REFBUF_SIZE - 1 -> n_offset m <= PER_CLIENT_REFBUF_SIZE - 1) /\
      match take_in config now peek rd n with
      | Waiting _ => n_stream_offset m = n_stream_offset n
      | _ => n_shoutcast n = 1 /\ n_stream_offset m = n_stream_offset n /\ is_Some (password_end (cstr (n_data m))) \/
             n_shoutcast n <> 1 /\ header_end (cstr (n_data m)) = Some (n_stream_offset m)
      end
  end.
Proof.
  unfold take_in. set (con := if _ && _ then _ else _).
  assert (con_id con = con_id (n_con n) /\ con_con_time con = con_con_time (n_con n)) as [I T].
  { subst con. unfold connection_uses_tls. by repeat case_match. }
  clearbody con. destruct (_ <=? 0) eqn:L; [done|]. destruct (_ <=? now) eqn:N; [done|].
  apply Z.leb_gt in L, N. rewrite T in N. cbn [n_con set_n_con n_offset n_data] in L.
  destruct rd as [s| |]; [|by split_and!|done]. destruct (strlen _ =? 0) eqn:S; [done|].
  set (s' := string_take _ s) in *. set (m := set_n_data _ _).
  assert (n_offset m = n_offset n + strlen s' /\ 0 <= strlen s' <= PER_CLIENT_REFBUF_SIZE - 1 - n_offset n) as [O B].
  { subst m s'. unfold n_offset, strlen in *. cbn [n_data set_n_data set_n_con] in *. rewrite string_length_app, string_length_take.
    lia. }
  destruct (is_complete m) as [p|] eqn:C; [|split_and!; cbn; try done; lia].
  apply is_complete_spec in C as (C1 & C2 & C3 & C4 & C5 & C6 & C7).
  assert (n_offset p = n_offset m) as P by (unfold n_offset; by rewrite C2).
  rewrite C1, C2, C3, C4, C5, C6, P. split_and!; cbn [m n_con set_n_data set_n_con]; try done; lia.
Qed.

(** A node that is passed on. *)
Definition passed_ok (n : client_queue request) : Prop :=
  n_offset n <= PER_CLIENT_REFBUF_SIZE - 1 /\ 0 <= n_stream_offset n <= n_offset n /\ n_parser n = None /\
  (n_shoutcast n = 1 /\ is_Some (password_end (cstr (n_data n))) /\ n_stream_offset n = 0 \/
   (n_shoutcast n = 0 \/ n_shoutcast n = 2) /\ header_end (cstr (n_data n)) = Some (n_stream_offset n)).

Lemma take_in_ok config now peek rd n :
  node_ok n ->
  match take_in config now peek rd n with Waiting m => node_ok m | Passed m => passed_ok m | Dropped => True end.
Proof.
  intros (B & Z0 & P & S). pose proof (take_in_spec config now peek rd n) as T.
  destruct (take_in config now peek rd n) as [m|m|] eqn:E; [|..|done];
    destruct T as (_ & _ & _ & T1 & T2 & _ & _ & T3 & T4 & T5); rewrite Z0 in *.
  - unfold passed_ok. rewrite T1, T2. destruct T5 as [(A1 & A2 & A3)|[A1 A2]].
    + split_and!; [by apply T4|rewrite A2; unfold n_offset, strlen; lia..|done|by left].
    + pose proof (header_end_bound _ _ A2) as H. pose proof (cstr_le (n_data m)) as L. unfold n_offset in *.
      split_and!; [by apply T4|lia..|done|right]. split; [tauto|done].
  - unfold node_ok. rewrite T1, T2, T5. split_and!; [by apply T4|done..].
Qed.

(** What is left in the queue, and what goes on. *)
Lemma take_all_spec (P Q W : client_queue request -> Prop) config now peek read q :
  (forall n rd pk, P n -> match take_in config now pk rd n with Waiting m => W m | Passed m => Q m | Dropped => True end) ->
  Forall P q ->
  let '(waiting, passed) := take_all config now peek read q in Forall W waiting /\ Forall Q passed.
Proof.
  intros S. induction 1 as [|n q N F IH]; [done|]. cbn [take_all].
  destruct (take_all config now peek read q) as [waiting passed]. destruct IH as [IH1 IH2].
  specialize (S n (read (con_id (n_con n))) (peek (con_id (n_con n))) N). destruct (take_in _ _ _ _ _); split; by try constructor.
Qed.

Definition node_id (n : client_queue request) : Z := con_id (n_con n).

(** No connection is in two places. *)
Lemma take_all_ids config now peek read (q : list (client_queue request)) :
  let '(waiting, passed) := take_all config now peek read q in (node_id <$> waiting) ++ (node_id <$> passed) ⊆+ node_id <$> q.
Proof.
  induction q as [|n q IH]; [cbn; apply submseteq_nil_l|]. cbn [take_all]. destruct (take_all config now peek read q) as [waiting passed].
  pose proof (take_in_spec config now (peek (con_id (n_con n))) (read (con_id (n_con n))) n) as T.
  destruct (take_in _ _ _ _ _) as [m|m|]; [destruct T as [T _]..|]; try (assert (node_id m = node_id n) as M by exact T).
  - rewrite !fmap_cons, M, <- Permutation_middle. by apply submseteq_skip.
  - rewrite !fmap_cons, M. cbn. by apply submseteq_skip.
  - rewrite fmap_cons. by apply submseteq_cons.
Qed.

(** ** The form with a password line *)

Lemma tls_answer_final con q d m : tls_answer con q = Some d -> d <> Requeue m.
Proof. unfold tls_answer. intros E ->. destruct (q_var q "upgrade"), (q_var q "connection"); by repeat case_match. Qed.

Lemma handle_request_final parse config n m : handle_request parse config n <> Requeue m.
Proof.
  unfold handle_request. destruct (match n_parser n with Some q => _ | None => _ end) as [q|]; [|done].
  cbv zeta. set (q' := match n_shoutcast_mount n with Some _ => _ | None => _ end). clearbody q'.
  destruct (_ && _); [done|]. destruct (tls_answer (n_con n) q') as [d|] eqn:T; [by apply (tls_answer_final _ _ _ m) in T|].
  destruct (util_normalise_uri (q_uri q)); [|done]. destruct (handle_aliases _ _ _ _ _) as [uri mode].
  destruct (streq uri "/admin.cgi"); [|done]. destruct (prepare_shoutcast_admin_cgi_request _ _ _ _) as [? [|]]; done.
Qed.

Lemma shoutcast_requeued parse config n m :
  passed_ok n -> handle_connection parse config n = Requeue m -> node_ok m /\ n_con m = n_con n.
Proof.
  intros (B & O & P & S) E. unfold handle_connection in E. destruct (n_shoutcast n =? 0) eqn:Z0.
  { by apply handle_request_final in E. }
  unfold handle_shoutcast_compatible in E. destruct (Z.eqb_spec (n_shoutcast n) 1) as [One|NOne].
  - destruct (password_end (cstr (n_data n))) as [[p h]|] eqn:W; [|done]. cbn [set_n_shoutcast n_shoutcast Z.eqb] in E.
    injection E as <-. apply password_end_bound in W as [W1 W2]. pose proof (cstr_le (n_data n)) as L.
    destruct S as [(_ & _ & S)|[S _]]; [|lia]. split; [|done]. unfold node_ok, n_offset in *. cbn.
    split_and!; [|done|done|by right; right]. strlen_lia.
  - destruct (parse _) as [r|]; [|done]. cbn [set_n_shoutcast n_shoutcast Z.eqb] in E.
    by apply handle_request_final in E.
Qed.

(** ** The whole intake *)

Definition dispatch_id (d : dispatch) : option Z :=
  match d with
  | Requeue n => Some (node_id n)
  | Destroyed con | SendError con _ | Send101 con | Send426 con => Some (con_id con)
  | UsedFreed => None
  | Authenticate c _ _ => Some (c_id c)
  end.

Lemma tls_answer_id con q d : tls_answer con q = Some d -> dispatch_id d = Some (con_id con).
Proof.
  unfold tls_answer. intros E.
  destruct (q_var q "upgrade"), (q_var q "connection"); repeat case_match; by simplify_eq.
Qed.

Lemma handle_request_id parse config n : dispatch_id (handle_request parse config n) = Some (node_id n).
Proof.
  unfold handle_request, node_id. destruct (match n_parser n with Some q => _ | None => _ end) as [q|]; [|done].
  cbv zeta. set (q' := match n_shoutcast_mount n with Some _ => _ | None => _ end). clearbody q'.
  destruct (_ && _); [done|]. destruct (tls_answer (n_con n) q') as [d|] eqn:T; [by apply tls_answer_id in T|].
  destruct (util_normalise_uri (q_uri q)); [|done]. destruct (handle_aliases _ _ _ _ _) as [uri mode].
  destruct (streq uri "/admin.cgi"); [|done]. destruct (prepare_shoutcast_admin_cgi_request _ _ _ _) as [? [|]]; done.
Qed.

Lemma handle_connection_id parse config n :
  dispatch_id (handle_connection parse config n) = None \/ dispatch_id (handle_connection parse config n) = Some (node_id n).
Proof.
  unfold handle_connection. destruct (n_shoutcast n =? 0); [right; apply handle_request_id|].
  destruct (handle_shoutcast_compatible parse config n) as [m|] eqn:E; [|by left]. right.
  assert (node_id m = node_id n) as <-; [|destruct (n_shoutcast m =? 0); [apply handle_request_id|done]].
  unfold handle_shoutcast_compatible in E. repeat case_match; by simplify_eq.
Qed.

Lemma process_ids parse config now peek read q :
  let '(q', results) := process_request_queue parse config now peek read q in
  (node_id <$> q') ++ omap dispatch_id results ⊆+ node_id <$> q.
Proof.
  unfold process_request_queue. pose proof (take_all_ids config now peek read q) as T.
  destruct (take_all config now peek read q) as [waiting passed]. etrans; [|exact T]. rewrite fmap_app, <- app_assoc.
  apply submseteq_skips_l. clear T. induction passed as [|n l IH]; [apply submseteq_nil_l|].
  rewrite !fmap_cons. cbn [omap list_omap]. pose proof (handle_connection_id parse config n) as D.
  destruct (handle_connection parse config n) as [m|con| |con e|con|con|c mode body]; cbn in D |- *; try (destruct D as [D|D]; [done|]).
  - injection D as D. rewrite D. by apply submseteq_skip.
  - injection D as D. rewrite D, <- Permutation_middle. by apply submseteq_skip.
  - by apply submseteq_cons.
  - injection D as D. rewrite D, <- Permutation_middle. by apply submseteq_skip.
  - injection D as D. rewrite D, <- Permutation_middle. by apply submseteq_skip.
  - injection D as D. rewrite D, <- Permutation_middle. by apply submseteq_skip.
  - injection D as D. rewrite D, <- Permutation_middle. by apply submseteq_skip.
Qed.

(** What stays in the queue is as it should be, and younger than the timeout. *)
Definition young (config : intake_config) (now : Z) (n : client_queue request) : Prop :=
  now < con_con_time (n_con n) + ic_header_timeout config.

Lemma process_ok parse config now peek read q :
  Forall node_ok q ->
  Forall (fun n => node_ok n /\ young config now n) (process_request_queue parse config now peek read q).1.
Proof.
  intros F. unfold process_request_queue.
  pose proof (take_all_spec node_ok (fun n => passed_ok n /\ young config now n) (fun n => node_ok n /\ young config now n)
    config now peek read q) as T.
  destruct (take_all config now peek read q) as [waiting passed]. destruct T as [T1 T2]; [|done|].
  - intros n rd pk N. pose proof (take_in_ok config now pk rd n N) as A. pose proof (take_in_spec config now pk rd n) as B.
    unfold young. destruct (take_in config now pk rd n) as [m|m|]; [..|done]; destruct B as (_ & B1 & B2 & _); rewrite B1; by split.
  - cbn. apply Forall_app. split; [done|]. apply Forall_forall. intros m M. apply list_elem_of_omap in M as (d & D & E).
    destruct d as [m'| | | | | |]; try done. injection E as ->. apply list_elem_of_fmap in D as (n & D & N).
    rewrite Forall_forall in T2. destruct (T2 n N) as [P Y].
    destruct (shoutcast_requeued parse config n m P (eq_sym D)) as [A B]. split; [done|]. unfold young. by rewrite B.
Qed.

(** The queue, as connections come and their turns go by. *)
Inductive intake_run : list (client_queue request) -> Prop :=
| run_empty : intake_run []
| run_add config clients con q n :
    intake_run q -> connection_queue config clients con = inl n -> con_id con ∉ node_id <$> q -> intake_run (q ++ [n])
| run_pass parse config now peek read q q' results :
    intake_run q -> process_request_queue parse config now peek read q = (q', results) -> intake_run q'.

Lemma new_node config clients con n : connection_queue config clients con = inl n -> node_ok n /\ node_id n = con_id con.
Proof.
  unfold connection_queue. destruct (_ <? _); [done|]. intros [= <-]. unfold create_client_node, connection_uses_tls, node_ok.
  destruct (config_get_listen_sock config (con_serversock con)) as [l|].
  - destruct (l_shoutcast_compat l), (_ && _), (con_tls con); cbn; split_and!; try done; tauto.
  - cbn. split_and!; try done. tauto.
Qed.

Lemma intake_run_ok q : intake_run q -> Forall node_ok q /\ NoDup (node_id <$> q).
Proof.
  induction 1 as [|config clients con q n R [IH1 IH2] A N|parse config now peek read q q' results R [IH1 IH2] P]; [by split; constructor|..].
  - apply new_node in A as [A1 A2]. split; [by apply Forall_app; split; [|constructor]|].
    rewrite fmap_app. apply NoDup_app. split_and!; [done| |apply NoDup_singleton].
    cbn. intros i I J%list_elem_of_singleton. subst i. by rewrite A2 in I.
  - pose proof (process_ok parse config now peek read q IH1) as F. pose proof (process_ids parse config now peek read q) as S.
    rewrite P in F, S. cbn in F. split; [by eapply Forall_impl; [exact F|intros ? []]|].
    apply submseteq_Permutation in S as [k S]. rewrite S in IH2. apply NoDup_app in IH2 as (D & _).
    by apply NoDup_app in D as (D & _).
Qed.

(** C29: However connections come, and whatever is read from them: the buffer of
    none that waits is overrun, none waits longer than the timeout, and each
    is in one place only, in the queue or on its way, of which there is none
    for a node that was freed. *)
Theorem intake_bounded q parse config now peek read :
  intake_run q ->
  let '(q', results) := process_request_queue parse config now peek read q in
  Forall (fun n => n_offset n < PER_CLIENT_REFBUF_SIZE /\ now < con_con_time (n_con n) + ic_header_timeout config) q' /\
  (node_id <$> q') ++ omap dispatch_id results ⊆+ node_id <$> q /\ NoDup ((node_id <$> q') ++ omap dispatch_id results).
Proof.
  intros [F N]%intake_run_ok. pose proof (process_ok parse config now peek read q F) as A.
  pose proof (process_ids parse config now peek read q) as S.
  destruct (process_request_queue parse config now peek read q) as [q' results]. split_and!; [|done|].
  - eapply Forall_impl; [exact A|]. intros n [(B & _) Y]. split; [|done]. unfold PER_CLIENT_REFBUF_SIZE in *. lia.
  - apply submseteq_Permutation in S as [k S]. rewrite S in N. by apply NoDup_app in N as (N & _).
Qed.

(** ** Requests in pieces *)

(** The turns of one connection, with the time of each and what is read. *)
Fixpoint feed (config : intake_config) (pieces : list (Z * string)) (n : client_queue request) : @intake request :=
  match pieces with
  | [] => Waiting n
  | (now, s) :: r =>
      match take_in config now None (Got s) n with
      | Waiting m => feed config r m
      | Passed m => Passed m
      | Dropped => Dropped
      end
  end.

Definition joined (pieces : list (Z * string)) : string := foldr (fun p s => (p.2 +:+ s)%string) EmptyString pieces.

Lemma joined_le p l : strlen p.2 + strlen (joined l) = strlen (joined (p :: l)).
Proof. unfold joined. cbn [foldr]. unfold strlen. rewrite string_length_app. lia. Qed.

Lemma take_in_got config now s (n : client_queue request) :
  now < con_con_time (n_con n) + ic_header_timeout config -> s <> EmptyString ->
  n_offset n + strlen s <= PER_CLIENT_REFBUF_SIZE - 1 ->
  take_in config now None (Got s) n =
  match is_complete (set_n_data (n_data n +:+ s) n) with
  | Some m => Passed m
  | None => Waiting (set_n_data (n_data n +:+ s) n)
  end.
Proof.
  intros T S L. unfold take_in. rewrite (bool_decide_false (None = Some 22)), andb_false_r by done.
  assert (0 < strlen s) as P by (destruct s; [done|unfold strlen; cbn; lia]).
  cbn [n_con set_n_con n_data n_offset]. assert (set_n_con (n_con n) n = n) as -> by (by destruct n).
  destruct (Z.leb_spec (PER_CLIENT_REFBUF_SIZE - 1 - n_offset n) 0); [lia|].
  destruct (Z.leb_spec (con_con_time (n_con n) + ic_header_timeout config) now); [lia|].
  rewrite string_take_all by (unfold strlen in *; lia). destruct (Z.eqb_spec (strlen s) 0); [lia|]. done.
Qed.

Lemma feed_spec config pieces n e :
  pieces <> [] ->
  Forall (fun p => p.1 < con_con_time (n_con n) + ic_header_timeout config /\ p.2 <> EmptyString) pieces ->
  n_shoutcast n = 0 -> n_offset n + strlen (joined pieces) <= PER_CLIENT_REFBUF_SIZE - 1 ->
  (forall k, (0 < k < length pieces)%nat -> header_end (cstr (n_data n +:+ joined (take k pieces))) = None) ->
  header_end (cstr (n_data n +:+ joined pieces)) = Some e ->
  feed config pieces n = Passed (set_n_stream_offset e (set_n_data (n_data n +:+ joined pieces) n)).
Proof.
  revert n. induction pieces as [|[now s] r IH]; intros n NE F S L P E; [done|].
  apply Forall_cons in F as [[F1 F2] F]. cbn [fst snd] in F1, F2. cbn [feed].
  pose proof (joined_le (now, s) r) as J. cbn [snd] in J.
  assert (0 <= strlen (joined r)) as J0 by (unfold strlen; lia).
  rewrite take_in_got by (try done; lia). unfold is_complete. cbn [n_shoutcast set_n_data n_data]. rewrite S. cbn [Z.eqb andb].
  destruct r as [|p r].
  - cbn [joined foldr snd] in E |- *. rewrite string_app_nil_r in E |- *. by rewrite E.
  - specialize (P 1%nat ltac:(cbn; lia)) as P1. cbn [take joined foldr snd] in P1. rewrite string_app_nil_r in P1. rewrite P1.
    assert (n_data n +:+ joined ((now, s) :: p :: r) = (n_data n +:+ s) +:+ joined (p :: r))%string as A
      by (cbn [joined foldr snd]; by rewrite string_app_assoc).
    rewrite (IH (set_n_data (n_data n +:+ s) n)); cbn [n_con n_data n_shoutcast set_n_data].
    + by rewrite A.
    + done.
    + done.
    + done.
    + unfold n_offset in *. cbn [n_data set_n_data]. unfold strlen in *. rewrite string_length_app. lia.
    + intros k K. specialize (P (1 + k)%nat ltac:(cbn in *; lia)). cbn [Nat.add take joined foldr snd] in P.
      by rewrite string_app_assoc.
    + by rewrite <- A.
Qed.

Lemma moved_body so data : 0 <= so <= strlen data ->
  string_take (Z.to_nat (strlen data - so)) (move_front so data) = string_drop (Z.to_nat so) data.
Proof.
  intros H. unfold move_front. replace (Z.to_nat (strlen data - so)) with (String.length (string_drop (Z.to_nat so) data)) at 1.
  - apply string_take_app.
  - rewrite string_length_drop. unfold strlen in *. lia.
Qed.

(** However a request is cut on its way: the parser gets all that was read,
    and what follows the headers is the body, none of it lost. *)
Theorem request_reassembled parse config pieces n e q :
  n = create_client_node config (n_con n) -> n_shoutcast n = 0 -> pieces <> [] ->
  Forall (fun p => p.1 < con_con_time (n_con n) + ic_header_timeout config /\ p.2 <> EmptyString) pieces ->
  strlen (joined pieces) < PER_CLIENT_REFBUF_SIZE ->
  (forall k, (0 < k < length pieces)%nat -> header_end (cstr (joined (take k pieces))) = None) ->
  header_end (cstr (joined pieces)) = Some e ->
  parse (joined pieces) = Some q ->
  exists m, feed config pieces n = Passed m /\ n_data m = joined pieces /\ n_stream_offset m = e /\
  match handle_connection parse config m with
  | Authenticate c mode body => body = string_drop (Z.to_nat e) (joined pieces) /\ c_method c = q_method q /\ c_var c = q_var q
  | Requeue _ | UsedFreed => False
  | _ => True
  end.
Proof.
  intros N S NE F L P E Q.
  assert (n_data n = EmptyString /\ n_parser n = None /\ n_user n = None) as (D & R & U)
    by (rewrite N; unfold create_client_node; by repeat case_match).
  exists (set_n_stream_offset e (set_n_data (joined pieces) n)).
  rewrite (feed_spec config pieces n e); rewrite ?D; try done.
  2: { unfold n_offset. rewrite D. unfold PER_CLIENT_REFBUF_SIZE in *. change (strlen EmptyString) with 0. lia. }
  split_and!; [done|done|done|].
  set (m := set_n_stream_offset e (set_n_data (joined pieces) n)).
  assert (n_shoutcast m = 0 /\ n_parser m = None /\ n_data m = joined pieces /\ n_stream_offset m = e) as (M1 & M2 & M3 & M4) by done.
  clearbody m. unfold handle_connection. rewrite M1. cbn [Z.eqb]. unfold handle_request. rewrite M2, M3, Q, M4.
  unfold n_offset. rewrite M3. apply header_end_bound in E. pose proof (cstr_le (joined pieces)) as C.
  rewrite moved_body by lia. cbv zeta.
  set (q' := match n_shoutcast_mount m with Some _ => _ | None => _ end).
  assert (q_method q' = q_method q /\ q_var q' = q_var q) as [Q1 Q2] by (subst q'; by repeat case_match). clearbody q'.
  destruct (_ && _); [done|]. destruct (tls_answer (n_con m) q') as [d|] eqn:T.
  { unfold tls_answer in T. destruct (q_var q' "upgrade"), (q_var q' "connection"); repeat case_match; by simplify_eq. }
  destruct (util_normalise_uri (q_uri q)); [|done]. destruct (handle_aliases _ _ _ _ _) as [uri mode].
  destruct (streq uri "/admin.cgi"); [|done].
  unfold prepare_shoutcast_admin_cgi_request. by repeat case_match; simplify_eq.
Qed.

(** ** What comes to the authenticators *)

(** The request a node stands for. *)
Definition request_of (parse : string -> option request) (config : intake_config) (n : client_queue request) (q : request) : Prop :=
  if n_shoutcast n =? 0 then match n_parser n with Some p => q = p | None => parse (n_data n) = Some q end
  else parse ("SOURCE " +:+ default (ic_shoutcast_mount config) (n_shoutcast_mount n) +:+ " HTTP/1.0" +:+ crlf +:+ cstr (n_data n))%string
         = Some q.

(** The command an address names. *)
Definition command_of (uri : string) : Z :=
  if streq uri "/admin.cgi" then admin_get_command "admin.cgi"
  else if starts_with "/admin/" uri then admin_get_command (string_drop 7 uri) else -1.

Definition checked (config : intake_config) (con : connection) (q : request) (c : client) : Prop :=
  (exists uri, util_normalise_uri (q_uri q) = Some uri /\
     (c_uri c = uri \/ exists a, a ∈ ic_aliases config /\ al_source a = uri /\ al_destination a = Some (c_uri c))) /\
  (q_protocol q = "ICE" \/ q_protocol q = "HTTP")%string /\
  (con_tlsmode con = TLSMODE_DISABLED \/ con_tlsmode con = TLSMODE_AUTO \/ con_tls con = true) /\
  c_admin_command c = command_of (c_uri c) /\
  (c_uri c = "/admin.cgi"%string -> is_Some (c_password c)) /\
  c_acl c = None /\ c_role c = None /\ c_auth c = None.

Lemma tls_answer_none con q :
  tls_answer con q = None -> con_tlsmode con = TLSMODE_DISABLED \/ con_tlsmode con = TLSMODE_AUTO \/ con_tls con = true.
Proof.
  unfold tls_answer. intros E.
  assert (negb (bool_decide (con_tlsmode con = TLSMODE_DISABLED)) && negb (bool_decide (con_tlsmode con = TLSMODE_AUTO)) &&
          negb (con_tls con) = false) as B by (destruct (q_var q "upgrade"), (q_var q "connection"); by repeat case_match).
  destruct (con_tlsmode con), (con_tls con); cbn in B; tauto || done.
Qed.

Lemma handle_aliases_spec config sock host uri mode :
  let '(uri', _) := handle_aliases config sock host uri mode in
  uri' = uri \/ exists a, a ∈ ic_aliases config /\ al_source a = uri /\ al_destination a = Some uri'.
Proof.
  unfold handle_aliases. destruct (List.find _ _) as [a|] eqn:F; [|by left].
  apply List.find_some in F as [F1 F2]. unfold alias_matches in F2.
  apply andb_true_iff in F2 as [[[F2%streq_eq _]%andb_true_iff _]%andb_true_iff _].
  destruct (al_destination a) as [d|] eqn:D; [right|by left]. exists a. by split_and!; [apply list_elem_of_In|..].
Qed.

Lemma handle_request_checked parse config n c mode body :
  handle_request parse config n = Authenticate c mode body ->
  exists q, match n_parser n with Some p => q = p | None => parse (n_data n) = Some q end /\ checked config (n_con n) q c.
Proof.
  unfold handle_request. intros E.
  destruct (match n_parser n with Some q => _ | None => _ end) as [q|] eqn:P; [|done]. exists q. split; [by destruct (n_parser n); simplify_eq|].
  cbv zeta in E. set (q' := match n_shoutcast_mount n with Some _ => _ | None => _ end) in E.
  assert (q_protocol q' = q_protocol q) as QP by (subst q'; by repeat case_match). clearbody q'.
  destruct (_ && _) eqn:R in E; [done|].
  destruct (tls_answer (n_con n) q') as [d|] eqn:T.
  { unfold tls_answer in T. destruct (q_var q' "upgrade"), (q_var q' "connection"); repeat case_match; by simplify_eq. }
  apply tls_answer_none in T. destruct (util_normalise_uri (q_uri q)) as [uri|] eqn:U; [|done].
  pose proof (handle_aliases_spec config (con_serversock (n_con n)) (q_var q' "host") uri (config_str_to_omode (q_query q' "omode"))) as A.
  destruct (handle_aliases _ _ _ _ _) as [uri' mode'].
  assert (q_protocol q = "ICE" \/ q_protocol q = "HTTP")%string as PR.
  { rewrite <- QP. apply andb_false_iff in R as [R|R]; apply negb_false_iff, streq_eq in R; [by left|by right]. }
  destruct (streq uri' "/admin.cgi") eqn:S.
  - destruct (prepare_shoutcast_admin_cgi_request _ _ _ _) as [q2 [p|]]; [|done]. injection E as <- <- <-.
    unfold checked. cbn. unfold command_of. rewrite S. split_and!; try done; try (by exists uri); by eexists.
  - injection E as <- <- <-. unfold checked. cbn. unfold command_of. rewrite S. split_and!; try done; try (by exists uri); by intros ->.
Qed.


(** ** What goes wrong *)

(** A source that logs in the older way, with a password line, and sends more
    stream than header at once: the stream is moved to the front of the buffer
    twice, so that it loses its first bytes and ends with some of its last
    bytes again. *)
Lemma string_drop_within n a b : (n <= String.length a)%nat -> string_drop n (a +:+ b) = (string_drop n a +:+ b)%string.
Proof. revert a. induction n as [|n IH]; intros [|c a] H; cbn in *; [done..|lia|]. apply IH. lia. Qed.

Lemma string_drop_beyond n a b : (String.length a <= n)%nat -> string_drop n (a +:+ b) = string_drop (n - String.length a) b.
Proof.
  intros H. replace n with (String.length a + (n - String.length a))%nat at 1 by lia.
  by rewrite <- string_drop_drop, string_drop_app.
Qed.

Lemma shoutcast_start_garbled header rest :
  (String.length header < String.length rest)%nat ->
  string_take (String.length rest) (move_front (strlen header) (move_front (strlen header) (header +:+ rest))) =
  (string_drop (String.length header) rest +:+ string_drop (String.length rest - String.length header) rest)%string.
Proof.
  intros L. assert (move_front (strlen header) (header +:+ rest) =
    rest +:+ string_drop (String.length rest - String.length header) rest)%string as M.
  { unfold move_front, strlen. rewrite Nat2Z.id, string_drop_app, string_length_app. f_equal.
    rewrite <- string_drop_beyond by lia. f_equal. lia. }
  rewrite M. unfold move_front. unfold strlen. rewrite Nat2Z.id, string_drop_within by lia.
  rewrite <- (string_take_app (string_drop (String.length header) rest +:+
    string_drop (String.length rest - String.length header) rest)%string) at 2.
  f_equal. rewrite string_length_app, !string_length_drop. lia.
Qed.

(** A second request that the parser refuses is freed, and looked at once
    more. *)
Lemma shoutcast_refused parse config n :
  n_shoutcast n = 2 ->
  parse ("SOURCE " +:+ default (ic_shoutcast_mount config) (n_shoutcast_mount n) +:+ " HTTP/1.0" +:+ crlf +:+ cstr (n_data n))%string
    = None ->
  handle_connection parse config n = UsedFreed.
Proof. intros S P. unfold handle_connection, handle_shoutcast_compatible. rewrite S. cbn [Z.eqb Pos.eqb]. by rewrite P. Qed.

(** ** Examples *)

Definition demo_intake : intake_config :=
  Intake_config 15 100 "source" "/stream" [Alias "/b" (Some "/c"%string) (-1) None None OMODE_STRICT]
    [Listener_t 8000 None false None TLSMODE_AUTO 0; Listener_t 8001 None true None TLSMODE_DISABLED 0] [3; 4] false.

Definition demo_parse (text : string) : option request :=
  if starts_with "GET " text || starts_with "SOURCE " text then
    Some (Request 3 "/b" "HTTP" (fun _ => None) (fun _ => None)) else None.

Definition demo_pieces : list (Z * string) :=
  [(100, "GET /b HTTP"); (105, "/1.0" +:+ CR +:+ LF +:+ CR); (106, LF +:+ "body")]%string.

Definition demo_con : connection := Connection 7 "::1" 3 99 TLSMODE_AUTO false false.

Lemma request_reassembled_witness :
  exists m, feed demo_intake demo_pieces (create_client_node demo_intake demo_con) = Passed m /\
  n_data m = joined demo_pieces /\ n_stream_offset m = 19 /\
  match handle_connection demo_parse demo_intake m with
  | Authenticate c mode body =>
      body = string_drop (Z.to_nat 19) (joined demo_pieces) /\ c_method c = 3 /\ c_var c = (fun _ => None)
  | Requeue _ | UsedFreed => False
  | _ => True
  end.
Proof.
  apply (request_reassembled demo_parse demo_intake demo_pieces (create_client_node demo_intake demo_con) 19
    (Request 3 "/b" "HTTP" (fun _ => None) (fun _ => None))).
  - reflexivity.
  - reflexivity.
  - discriminate.
  - vm_compute. repeat constructor; discriminate.
  - vm_compute. reflexivity.
  - intros [|[|[|k]]] K; cbn in K; try lia; vm_compute; reflexivity.
  - vm_compute. reflexivity.
  - vm_compute. reflexivity.
Defined.


Definition demo_queue : list (client_queue request) :=
  [create_client_node demo_intake demo_con; create_client_node demo_intake (connection_create 8 101 4 "::1")].

Lemma demo_queue_run : intake_run demo_queue.
Proof.
  apply (run_add demo_intake 1 (connection_create 8 101 4 "::1") [create_client_node demo_intake demo_con]).
  - apply (run_add demo_intake 0 demo_con []); [constructor|done|by intros ?%elem_of_nil].
  - done.
  - intros K%list_elem_of_singleton. done.
Qed.

Lemma intake_bounded_witness :
  let '(q', results) := process_request_queue demo_parse demo_intake 112 (fun _ => None)
    (fun i => if i =? 7 then Got ("GET /b HTTP/1.0" +:+ LF +:+ LF) else Got ("hackme" +:+ CR +:+ LF +:+ "icy")) demo_queue in
  Forall (fun n => n_offset n < PER_CLIENT_REFBUF_SIZE /\ 112 < con_con_time (n_con n) + 15) q' /\
  (node_id <$> q') ++ omap dispatch_id results ⊆+ node_id <$> demo_queue /\
  NoDup ((node_id <$> q') ++ omap dispatch_id results).
Proof.
  exact (intake_bounded demo_queue demo_parse demo_intake 112 (fun _ => None)
    (fun i => if i =? 7 then Got ("GET /b HTTP/1.0" +:+ LF +:+ LF) else Got ("hackme" +:+ CR +:+ LF +:+ "icy")) demo_queue_run).
Defined.
