(* ===== verification/Config.v ===== *)
(** The reading of the configuration file, [cfgfile.c]: how each element of
    the document sets the settings of the server, of its mounts, relays,
    listening sockets and directories, and what authenticators and event
    registrations it makes, the older forms included.

    The document is that of [Xml.v].  The plain fields of [ice_config_t] and
    of [mount_proxy] are functions of their names; its lists are lists.  Where
    an old text is freed and a new one stored, the new one is there.  [None]
    is a null pointer that is read or memory that is not there. *)

From S2P Require Import Prelude Convert Acl Http Mounts AuthUrl Auth Connection Xml Event.
Local Open Scope Z_scope.

(** ** The settings *)

Inductive int_field :=
| I_client_limit | I_source_limit | I_queue_size_limit | I_burst_size | I_client_timeout | I_header_timeout
| I_source_timeout | I_fileserve | I_on_demand | I_touch_interval | I_sane_hostname | I_port | I_master_server_port
| I_master_update_interval | I_loglevel | I_logsize | I_logarchive | I_chroot | I_chuid.

Inductive text_field :=
| T_location | T_admin | T_shoutcast_mount | T_shoutcast_user | T_hostname | T_mimetypes_fn | T_master_server
| T_master_username | T_master_password | T_server_id | T_base_dir | T_log_dir | T_pidfile | T_null_device | T_banfile
| T_allowfile | T_webroot_dir | T_adminroot_dir | T_access_log | T_error_log | T_playlist_log | T_cert_file | T_key_file
| T_cipher_list | T_user | T_group.

#[export] Instance int_field_eq_dec : EqDecision int_field.
Proof. solve_decision. Defined.
#[export] Instance text_field_eq_dec : EqDecision text_field.
Proof. solve_decision. Defined.

Definition set_field {F V} `{EqDecision F} (f : F) (v : V) (r : F -> V) (g : F) : V := if decide (g = f) then v else r g.

(** [relay_server], of the fields the configuration sets. *)
Record relay_settings := RelaySettings {
  rs_server : option string;
  rs_port : Z;
  rs_mount : option string;
  rs_localmount : option string;
  rs_mp3metadata : bool;
  rs_username : option string;
  rs_password : option string;
  rs_on_demand : bool;
  rs_bind : option string
}.

(** A [mount_proxy] with its registrations and its authenticators. *)
Record mount_entry := MountEntry { me_proxy : mount_proxy; me_event : list registration; me_authstack : list auth }.

(** One of the entries of [yp_url], [yp_url_timeout] and [yp_touch_interval]. *)
Record yp_directory := YpDirectory { yd_url : option string; yd_url_timeout : Z; yd_touch_interval : Z }.

Record config := Config {
  cf_int : int_field -> Z;
  cf_text : text_field -> option string;
  cf_listen_sock : list listener_t;
  cf_relay : list relay_settings;
  cf_mounts : list mount_entry;
  cf_aliases : list aliases;
  cf_dir_list : list (option string * Z);
  cf_yp : list yp_directory;            (** the first [num_yp_directories] *)
  cf_yp_next : yp_directory;            (** the one after them *)
  cf_http_headers : list http_header;
  cf_authstack : list auth;
  cf_event : list registration
}.

Definition set_int (f : int_field) (v : Z) (c : config) : config :=
  Config (set_field f v (cf_int c)) (cf_text c) (cf_listen_sock c) (cf_relay c) (cf_mounts c) (cf_aliases c) (cf_dir_list c)
    (cf_yp c) (cf_yp_next c) (cf_http_headers c) (cf_authstack c) (cf_event c).
Definition set_text (f : text_field) (v : option string) (c : config) : config :=
  Config (cf_int c) (set_field f v (cf_text c)) (cf_listen_sock c) (cf_relay c) (cf_mounts c) (cf_aliases c) (cf_dir_list c)
    (cf_yp c) (cf_yp_next c) (cf_http_headers c) (cf_authstack c) (cf_event c).
Definition set_listen_sock (l : list listener_t) (c : config) : config :=
  Config (cf_int c) (cf_text c) l (cf_relay c) (cf_mounts c) (cf_aliases c) (cf_dir_list c)
    (cf_yp c) (cf_yp_next c) (cf_http_headers c) (cf_authstack c) (cf_event c).
Definition set_relay (l : list relay_settings) (c : config) : config :=
  Config (cf_int c) (cf_text c) (cf_listen_sock c) l (cf_mounts c) (cf_aliases c) (cf_dir_list c)
    (cf_yp c) (cf_yp_next c) (cf_http_headers c) (cf_authstack c) (cf_event c).
Definition set_mounts (l : list mount_entry) (c : config) : config :=
  Config (cf_int c) (cf_text c) (cf_listen_sock c) (cf_relay c) l (cf_aliases c) (cf_dir_list c)
    (cf_yp c) (cf_yp_next c) (cf_http_headers c) (cf_authstack c) (cf_event c).
Definition set_aliases (l : list aliases) (c : config) : config :=
  Config (cf_int c) (cf_text c) (cf_listen_sock c) (cf_relay c) (cf_mounts c) l (cf_dir_list c)
    (cf_yp c) (cf_yp_next c) (cf_http_headers c) (cf_authstack c) (cf_event c).
Definition set_dir_list (l : list (option string * Z)) (c : config) : config :=
  Config (cf_int c) (cf_text c) (cf_listen_sock c) (cf_relay c) (cf_mounts c) (cf_aliases c) l
    (cf_yp c) (cf_yp_next c) (cf_http_headers c) (cf_authstack c) (cf_event c).
Definition set_yp (l : list yp_directory) (next : yp_directory) (c : config) : config :=
  Config (cf_int c) (cf_text c) (cf_listen_sock c) (cf_relay c) (cf_mounts c) (cf_aliases c) (cf_dir_list c)
    l next (cf_http_headers c) (cf_authstack c) (cf_event c).
Definition set_http_headers (l : list http_header) (c : config) : config :=
  Config (cf_int c) (cf_text c) (cf_listen_sock c) (cf_relay c) (cf_mounts c) (cf_aliases c) (cf_dir_list c)
    (cf_yp c) (cf_yp_next c) l (cf_authstack c) (cf_event c).
Definition set_authstack (l : list auth) (c : config) : config :=
  Config (cf_int c) (cf_text c) (cf_listen_sock c) (cf_relay c) (cf_mounts c) (cf_aliases c) (cf_dir_list c)
    (cf_yp c) (cf_yp_next c) (cf_http_headers c) l (cf_event c).
Definition set_event (l : list registration) (c : config) : config :=
  Config (cf_int c) (cf_text c) (cf_listen_sock c) (cf_relay c) (cf_mounts c) (cf_aliases c) (cf_dir_list c)
    (cf_yp c) (cf_yp_next c) (cf_http_headers c) (cf_authstack c) l.

(** ** Values *)

(** [__read_int] and [__read_unsigned_int]. *)
Definition read_int (n : xml_node) (val : Z) : Z := util_str_to_int (x_text n) val.
Definition read_unsigned_int (n : xml_node) (val : Z) : Z := util_str_to_unsigned_int (x_text n) val.

Definition bool_text (n : xml_node) : bool := util_str_to_bool (x_text n).

(** [__parse_public], which does not look for a null pointer. *)
Definition parse_public (str : option string) : option Z :=
  s ← str;
  Some (if strcaseeq s "client" || streq s "-1" then -1 else Z.b2z (util_str_to_bool (Some s))).

(** The nodes a loop looks at. *)
Definition elements_of (l : list xml_node) : list xml_node := filter (fun n => x_blank n = false) l.

(** A loop over elements whose turns can fail. *)
Fixpoint fold_nodes {S} (f : S -> xml_node -> option S) (s : S) (l : list xml_node) : option S :=
  match l with
  | [] => Some s
  | n :: l => s ← f s n; fold_nodes f s l
  end.

(** [tls_check_impl], with OpenSSL. *)
Definition tls_check_impl (impl : string) : bool := strcaseeq impl "openssl" || strcaseeq impl "generic".

(** [__check_node_impl]. *)
Definition check_node_impl (n : xml_node) (def : string) : bool :=
  match xmlGetProp n "implementation" with
  | Some i => tls_check_impl i
  | None => match xmlGetProp n "impl" with Some i => tls_check_impl i | None => tls_check_impl def end
  end.

(** ** Defaults *)

Definition default_ints (f : int_field) : Z :=
  match f with
  | I_client_limit => 256
  | I_source_limit => 16
  | I_queue_size_limit => 500 * 1024
  | I_burst_size => 64 * 1024
  | I_client_timeout => 30
  | I_header_timeout => 15
  | I_source_timeout => 10
  | I_fileserve => 1
  | I_touch_interval => 5
  | I_master_update_interval => 120
  | I_loglevel => 3
  | _ => 0
  end.

(** The default list of ciphers is a parameter. *)
Definition default_texts (version ciphers : string) (f : text_field) : option string :=
  match f with
  | T_location => Some "Earth"
  | T_server_id => Some version
  | T_admin => Some "icemaster@localhost"
  | T_shoutcast_mount => Some "/stream"
  | T_shoutcast_user => Some "source"
  | T_hostname => Some "localhost"
  | T_mimetypes_fn => Some "/etc/mime.types"
  | T_master_username => Some "relay"
  | T_base_dir => Some "/usr/local/icecast"
  | T_log_dir => Some "/usr/local/icecast/logs"
  | T_null_device => Some "/dev/null"
  | T_webroot_dir => Some "/usr/local/icecast/webroot"
  | T_adminroot_dir => Some "/usr/local/icecast/admin"
  | T_access_log => Some "access.log"
  | T_error_log => Some "error.log"
  | T_cipher_list => Some ciphers
  | _ => None
  end%string.

(** [config_init_configuration]. *)
Definition config_init_configuration (version ciphers : string) : config :=
  Config default_ints (default_texts version ciphers) [] [] [] [] [] [] (YpDirectory None 0 0) [] [] [].

(** ** Sections *)

(** One element of [_parse_limits]. *)
Definition limits_node (c : config) (n : xml_node) : config :=
  let name := x_name n in
  let int f := set_int f (read_int n (cf_int c f)) c in
  let unsigned f := set_int f (read_unsigned_int n (cf_int c f)) c in
  if streq name "clients" then int I_client_limit
  else if streq name "sources" then int I_source_limit
  else if streq name "queue-size" then unsigned I_queue_size_limit
  else if streq name "threadpool" then c
  else if streq name "client-timeout" then int I_client_timeout
  else if streq name "header-timeout" then int I_header_timeout
  else if streq name "source-timeout" then int I_source_timeout
  else if streq name "burst-on-connect" then
    if util_str_to_int (x_text n) 0 =? 0 then set_int I_burst_size 0 c else c
  else if streq name "burst-size" then unsigned I_burst_size
  else c.

Definition parse_limits (l : list xml_node) (c : config) : config := foldl limits_node c (elements_of l).

(** [_parse_http_headers]: the list grows up to the first header that is not
    complete or of no known type. *)
Fixpoint parse_http_headers (l : list xml_node) (headers : list http_header) : list http_header :=
  match l with
  | [] => headers
  | n :: l =>
      if x_blank n || negb (streq (x_name n) "header") then parse_http_headers l headers
      else
        match xmlGetProp n "name", xmlGetProp n "value" with
        | Some name, Some value =>
            match xmlGetProp n "type" with
            | Some t => if streq t "static" then
                          parse_http_headers l (headers ++ [HttpHeader (Some name) (Some value)
                            (match xmlGetProp n "status" with Some s => util_str_to_int (Some s) 0 | None => 0 end)])
                        else headers
            | None =>
                parse_http_headers l (headers ++ [HttpHeader (Some name) (Some value)
                  (match xmlGetProp n "status" with Some s => util_str_to_int (Some s) 0 | None => 0 end)])
            end
        | _, _ => headers
        end
  end.

(** One element of [_parse_relay]. *)
Definition relay_node (r : relay_settings) (n : xml_node) : relay_settings :=
  let name := x_name n in
  let '(RelaySettings server port mount localmount mp3metadata username password on_demand bind) := r in
  if streq name "server" then RelaySettings (x_text n) port mount localmount mp3metadata username password on_demand bind
  else if streq name "port" then
    RelaySettings server (read_int n port) mount localmount mp3metadata username password on_demand bind
  else if streq name "mount" then
    RelaySettings server port (x_text n) localmount mp3metadata username password on_demand bind
  else if streq name "local-mount" then
    RelaySettings server port mount (x_text n) mp3metadata username password on_demand bind
  else if streq name "relay-shoutcast-metadata" then
    RelaySettings server port mount localmount (bool_text n) username password on_demand bind
  else if streq name "username" then
    RelaySettings server port mount localmount mp3metadata (x_text n) password on_demand bind
  else if streq name "password" then
    RelaySettings server port mount localmount mp3metadata username (x_text n) on_demand bind
  else if streq name "on-demand" then
    RelaySettings server port mount localmount mp3metadata username password (bool_text n) bind
  else if streq name "bind" then
    RelaySettings server port mount localmount mp3metadata username password on_demand (x_text n)
  else r.

Definition parse_relay (l : list xml_node) (c : config) : config :=
  let start := RelaySettings (Some "127.0.0.1"%string) 0 (Some "/"%string) None true None None
                 (negb (cf_int c I_on_demand =? 0)) None in
  let '(RelaySettings server port mount localmount mp3metadata username password on_demand bind) :=
    foldl relay_node start (elements_of l) in
  set_relay (cf_relay c ++
    [RelaySettings server port mount (or_text localmount mount) mp3metadata username password on_demand bind]) c.

(** One element of [_parse_listen_socket]: the port of the server, and the
    new socket. *)
Definition listen_socket_node (r : Z * listener_t) (n : xml_node) : Z * listener_t :=
  let name := x_name n in
  let '(server_port, listener) := r in
  let '(Listener_t port bind_address compat mount tls so_sndbuf) := listener in
  if streq name "port" then
    match x_text n with
    | Some tmp =>
        ((if server_port =? 0 then util_str_to_int (Some tmp) 0 else server_port),
         Listener_t (util_str_to_int (Some tmp) port) bind_address compat mount tls so_sndbuf)
    | None => r
    end
  else if streq name "tls" || streq name "ssl" then
    (server_port, Listener_t port bind_address compat mount (str_to_tlsmode (x_text n)) so_sndbuf)
  else if streq name "shoutcast-compat" then
    (server_port, Listener_t port bind_address (bool_text n) mount tls so_sndbuf)
  else if streq name "shoutcast-mount" then
    (server_port, Listener_t port bind_address compat (x_text n) tls so_sndbuf)
  else if streq name "bind-address" then
    (server_port, Listener_t port (x_text n) compat mount tls so_sndbuf)
  else if streq name "so-sndbuf" then
    (server_port, Listener_t port bind_address compat mount tls (read_int n so_sndbuf))
  else r.

(** What [calloc] leaves of a listener. *)
Definition new_listener (port : Z) : listener_t := Listener_t port None false None TLSMODE_DISABLED 0.

(** The second socket of one with a mount for the older protocol. *)
Definition shoutcast_listener (l : listener_t) : list listener_t :=
  match l_shoutcast_mount l with
  | Some m => [Listener_t (i32 (l_port l + 1)) (l_bind_address l) true (Some m) TLSMODE_DISABLED 0]
  | None => []
  end.

Definition parse_listen_socket (l : list xml_node) (c : config) : option config :=
  let '(server_port, listener) := foldl listen_socket_node (cf_int c I_port, new_listener 8000) (elements_of l) in
  match cf_listen_sock c with
  | [] => None
  | first :: rest =>
      Some (set_listen_sock (first :: listener :: shoutcast_listener listener ++ rest) (set_int I_port server_port c))
  end.

(** [_add_server]. *)
Definition server_node (r : option (option string) * Z) (n : xml_node) : option (option string) * Z :=
  let name := x_name n in
  if streq name "host" then (Some (x_text n), r.2)
  else if streq name "touch-interval" then (r.1, read_int n r.2)
  else r.

Definition add_server (l : list xml_node) (c : config) : config :=
  match foldl server_node (None, cf_int c I_touch_interval) (elements_of l) with
  | (Some host, interval) => set_dir_list (cf_dir_list c ++ [(host, interval)]) c
  | (None, _) => c
  end.

Definition MAX_YP_DIRECTORIES : nat := 25.

(** One element of [_parse_directory], which works on the entry after the
    last. *)
Definition directory_node (c : config) (n : xml_node) : config :=
  let name := x_name n in
  let d := cf_yp_next c in
  if streq name "yp-url" then set_yp (cf_yp c) (YpDirectory (x_text n) (yd_url_timeout d) (yd_touch_interval d)) c
  else if streq name "yp-url-timeout" then
    set_yp (cf_yp c) (YpDirectory (yd_url d) (read_int n (yd_url_timeout d)) (yd_touch_interval d)) c
  else if streq name "server" then add_server (x_children n) c
  else if streq name "touch-interval" then
    set_yp (cf_yp c) (YpDirectory (yd_url d) (yd_url_timeout d) (read_int n (yd_touch_interval d))) c
  else c.

Definition parse_directory (l : list xml_node) (c : config) : config :=
  if (MAX_YP_DIRECTORIES <=? length (cf_yp c))%nat then c
  else
    let c := foldl directory_node c (elements_of l) in
    match yd_url (cf_yp_next c) with
    | None => c
    | Some _ => set_yp (cf_yp c ++ [cf_yp_next c]) (YpDirectory None 0 0) c
    end.

(** One element of [_parse_logging]. *)
Definition logging_node (c : config) (n : xml_node) : option config :=
  let name := x_name n in
  let keep f := match x_text n with Some t => set_text f (Some t) c | None => c end in
  if streq name "accesslog" then Some (keep T_access_log)
  else if streq name "errorlog" then Some (keep T_error_log)
  else if streq name "playlistlog" then Some (set_text T_playlist_log (x_text n) c)
  else if streq name "logsize" then Some (set_int I_logsize (read_int n (cf_int c I_logsize)) c)
  else if streq name "loglevel" then t ← x_text n; Some (set_int I_loglevel (util_str_to_loglevel t) c)
  else if streq name "logarchive" then Some (set_int I_logarchive (read_int n (cf_int c I_logarchive)) c)
  else Some c.

Definition parse_logging (l : list xml_node) (c : config) : option config := fold_nodes logging_node c (elements_of l).

(** One element of [_parse_tls_context]. *)
Definition tls_context_node (c : config) (n : xml_node) : config :=
  let name := x_name n in
  if streq name "tls-certificate" then
    if check_node_impl n "generic" then set_text T_cert_file (x_text n) c else c
  else if streq name "tls-key" then
    if check_node_impl n "generic" then set_text T_key_file (x_text n) c else c
  else if streq name "tls-allowed-ciphers" then
    if check_node_impl n "openssl" then set_text T_cipher_list (x_text n) c else c
  else c.

(** The elements of [changeowner]. *)
Definition changeowner_node (c : config) (n : xml_node) : config :=
  let name := x_name n in
  if streq name "user" then set_text T_user (x_text n) c
  else if streq name "group" then set_text T_group (x_text n) c
  else c.

(** One element of [_parse_security]. *)
Definition security_node (c : config) (n : xml_node) : config :=
  let name := x_name n in
  if streq name "chroot" then set_int I_chroot (Z.b2z (bool_text n)) c
  else if streq name "tls-context" then foldl tls_context_node c (elements_of (x_children n))
  else if streq name "changeowner" then
    foldl changeowner_node (set_int I_chuid 1 c) (elements_of (x_children n))
  else c.

Definition parse_security (l : list xml_node) (c : config) : config := foldl security_node c (elements_of l).

(** The last character of a directory's name is looked at, and a slash there
    dropped; of an empty name it is the one before the text. *)
Definition strip_slash (s : string) : option string :=
  match String.length s with
  | O => None
  | S k => Some (if bool_decide (string_drop k s = "/"%string) then string_take k s else s)
  end.

Section paths.
(** What is in memory that was just allocated, where it is read. *)
Variable uninitialised : Z.

(** The entry an alias makes, if it has a source or a destination. *)
Definition parse_alias (n : xml_node) : option aliases :=
  let source := xmlGetProp n "source" in
  let destination := or_text (xmlGetProp n "destination") (xmlGetProp n "dest") in
  let port := match xmlGetProp n "port" with Some t => util_str_to_int (Some t) uninitialised | None => -1 end in
  let omode := match xmlGetProp n "omode" with Some t => config_str_to_omode (Some t) | None => OMODE_DEFAULT end in
  let make s d := Some (Alias s d port (xmlGetProp n "bind-address") (xmlGetProp n "vhost") omode) in
  match source, destination with
  | Some s, d => make s d
  | None, Some d => make d None
  | None, None => None
  end.

(** One element of [_parse_paths]. *)
Definition paths_node (c : config) (n : xml_node) : option config :=
  let name := x_name n in
  let text f := Some (set_text f (x_text n) c) in
  if streq name "basedir" then text T_base_dir
  else if streq name "logdir" then Some (match x_text n with Some t => set_text T_log_dir (Some t) c | None => c end)
  else if streq name "pidfile" then text T_pidfile
  else if streq name "nulldevice" then text T_null_device
  else if streq name "mime-types" then text T_mimetypes_fn
  else if streq name "deny-ip" then text T_banfile
  else if streq name "allow-ip" then text T_allowfile
  else if streq name "tls-certificate" || streq name "ssl-certificate" then
    if check_node_impl n "generic" then text T_cert_file else Some c
  else if streq name "tls-allowed-ciphers" || streq name "ssl-allowed-ciphers" then
    if check_node_impl n "openssl" then text T_cipher_list else Some c
  else if streq name "webroot" then
    match x_text n with Some t => t ← strip_slash t; Some (set_text T_webroot_dir (Some t) c) | None => Some c end
  else if streq name "adminroot" then
    match x_text n with Some t => t ← strip_slash t; Some (set_text T_adminroot_dir (Some t) c) | None => Some c end
  else if streq name "resource" || streq name "alias" then
    Some (match parse_alias n with Some a => set_aliases (cf_aliases c ++ [a]) c | None => c end)
  else Some c.

Definition parse_paths (l : list xml_node) (c : config) : option config := fold_nodes paths_node c (elements_of l).
End paths.

(** [_parse_events]: blank nodes are no events. *)
Definition events_node (l : list registration) (n : xml_node) : option (list registration) :=
  if streq (x_name n) "event" then
    match event_new_from_xml_node (x_props n) (x_children n) with
    | Some r => Some (registrations_push l r)
    | None => None
    end
  else Some l.

Definition parse_events (l : list xml_node) (events : list registration) : option (list registration) :=
  fold_nodes events_node events l.

(** ** Authenticators *)

Section authenticators.
Variable httpp_req_unknown : Z.
Variable httpp_str_to_method : string -> Z.

(** The options an authenticator gets from the elements below its own: those
    with a name and a value. *)
Definition auth_options (l : list xml_node) : list (string * string) :=
  omap (fun n =>
    if streq (x_name n) "option" then
      match xmlGetProp n "name", xmlGetProp n "value" with Some a, Some v => Some (a, v) | _, _ => None end
    else None) l.

(** A stack and the number of the next authenticator: each that is asked for
    takes a number, made or not, and what is null is not pushed. *)
Definition push_auth (node : xml_node) (r : list auth * Z) : list auth * Z :=
  let '(stack, id) := r in
  (match auth_get_authenticator httpp_req_unknown httpp_str_to_method id (x_props node) (auth_options (x_children node)) with
   | Some a => auth_stack_push stack a
   | None => stack
   end, id + 1).

(** [__append_old_style_auth]: the element it makes, and the authenticator of
    that. *)
Definition old_style_role (name : option string) (type : string) (username password method allow_method : option string)
    (allow_web : bool) (allow_admin : option string) : xml_node :=
  let attr n (v : option string) : list (string * string) := match v with Some v => [(n, v)] | None => [] end in
  new_node "role"
    ([("type", type); ("deny-method", "*")]%string ++ attr "allow-method"%string allow_method ++
     attr "name"%string name ++ attr "method"%string method ++
     [if allow_web then ("allow-web", "*") else ("deny-web", "*")]%string ++
     (if bool_decide (allow_admin = Some "*"%string) then [("allow-admin", "*")]%string
      else [("deny-admin", "*")]%string ++ attr "allow-admin"%string allow_admin))
    (option_tag "username" username ++ option_tag "password" password).

Definition append_old_style_auth (name : option string) (type : string)
    (username password method allow_method : option string) (allow_web : bool) (allow_admin : option string)
    (r : list auth * Z) : list auth * Z :=
  push_auth (old_style_role name type username password method allow_method allow_web allow_admin) r.

(** The texts of the older form of URL authentication. *)
Record url_settings := UrlSettings {
  us_mount_add : option string;
  us_mount_remove : option string;
  us_listener_add : option string;
  us_listener_remove : option string;
  us_stream_auth : option string;
  us_username : option string;
  us_password : option string;
  us_auth_header : option string;
  us_timelimit_header : option string;
  us_headers : option string;
  us_header_prefix : option string
}.

(** [__append_old_style_urlauth]. *)
Definition append_old_style_urlauth (client_add client_remove : option string) (action_add : string)
    (action_remove : option string) (is_source : bool) (u : url_settings) (r : list auth * Z) : list auth * Z :=
  match client_add, client_remove with
  | None, None => r
  | _, _ =>
      let methods : string := if is_source then "source,put" else "get,post,head" in
      push_auth (new_node "role"
        [("type", "url"); ("method", methods); ("deny-method", "*"); ("allow-method", methods); ("allow-web", "*");
         (if is_source then ("allow-admin", "*") else ("deny-admin", "*"))]%string
        (option_tag "client_add" client_add ++ option_tag "client_remove" client_remove ++
         option_tag "action_add" (Some action_add) ++ option_tag "action_remove" action_remove ++
         option_tag "username" (us_username u) ++ option_tag "password" (us_password u) ++
         option_tag "auth_header" (us_auth_header u) ++ option_tag "timelimit_header" (us_timelimit_header u) ++
         option_tag "headers" (us_headers u) ++ option_tag "header_prefix" (us_header_prefix u))) r
  end.

(** [__append_old_style_exec_event] and [__append_old_style_url_event]. *)
Definition append_old_style_exec_event (trigger executable : string) (l : list registration) : option (list registration) :=
  match event_new_from_xml_node [("type", "exec"); ("trigger", trigger)]%string
          (option_tag "executable" (Some executable)) with
  | Some r => Some (registrations_push l r)
  | None => None
  end.
Definition append_old_style_url_event (trigger : string) (url : option string) (action : string)
    (username password : option string) (l : list registration) : option (list registration) :=
  match event_new_from_xml_node [("type", "url"); ("trigger", trigger)]%string
          (option_tag "url" url ++ option_tag "action" (Some action) ++
           option_tag "username" username ++ option_tag "password" password) with
  | Some r => Some (registrations_push l r)
  | None => None
  end.

(** One element of the loop over the options of URL authentication. *)
Definition url_setting (u : url_settings) (n : xml_node) : url_settings :=
  let '(UrlSettings ma mr la lr sa us pw ah th hs hp) := u in
  if negb (streq (x_name n) "option") then u
  else
    match xmlGetProp n "name", xmlGetProp n "value" with
    | Some name, Some value =>
        let v := Some value in
        if streq name "mount_add" then UrlSettings v mr la lr sa us pw ah th hs hp
        else if streq name "mount_remove" then UrlSettings ma v la lr sa us pw ah th hs hp
        else if streq name "listener_add" then UrlSettings ma mr v lr sa us pw ah th hs hp
        else if streq name "listener_remove" then UrlSettings ma mr la v sa us pw ah th hs hp
        else if streq name "username" then UrlSettings ma mr la lr sa v pw ah th hs hp
        else if streq name "password" then UrlSettings ma mr la lr sa us v ah th hs hp
        else if streq name "auth_header" then UrlSettings ma mr la lr sa us pw v th hs hp
        else if streq name "timelimit_header" then UrlSettings ma mr la lr sa us pw ah v hs hp
        else if streq name "headers" then UrlSettings ma mr la lr sa us pw ah th v hp
        else if streq name "header_prefix" then UrlSettings ma mr la lr sa us pw ah th hs v
        else if streq name "stream_auth" then UrlSettings ma mr la lr v us pw ah th hs hp
        else u
    | _, _ => u
    end.

(** Whether a user may have several connections. *)
Definition allow_duplicate_users (l : list xml_node) : bool :=
  foldl (fun r n =>
    if streq (x_name n) "option" then
      match xmlGetProp n "name", xmlGetProp n "value" with
      | Some name, Some value => if streq name "allow_duplicate_users" then util_str_to_bool (Some value) else r
      | _, _ => r
      end
    else r) true l.

(** [_parse_mount_oldstyle_authentication]: the mount's registrations, the
    stack and the next number. *)
Definition parse_mount_oldstyle_authentication (type : string) (node : xml_node) (event : list registration)
    (r : list auth * Z) : option (list registration * (list auth * Z)) :=
  if streq type "htpasswd" then
    let props := if allow_duplicate_users (x_children node) then x_props node
                 else set_prop (x_props node) "connections-per-user" "0" in
    let r := push_auth (new_node (x_name node) props (x_children node)) r in
    Some (event, append_old_style_auth None "anonymous" None None (Some "get,head,post"%string) None false None r)
  else if streq type "url" then
    let u := foldl url_setting (UrlSettings None None None None None None None None None None None) (x_children node) in
    event ← (match us_mount_add u with
             | Some _ => append_old_style_url_event "source-connect" (us_mount_add u) "mount_add"
                           (us_username u) (us_password u) event
             | None => Some event
             end);
    event ← (match us_mount_remove u with
             | Some _ => append_old_style_url_event "source-disconnect" (us_mount_add u) "mount_remove"
                           (us_username u) (us_password u) event
             | None => Some event
             end);
    let r := append_old_style_urlauth (us_listener_add u) (us_listener_remove u) "listener_add"
               (Some "listener_remove"%string) false u r in
    let r := append_old_style_urlauth (us_stream_auth u) None "stream_auth" None true u r in
    let r := match us_listener_add u with
             | Some _ => append_old_style_auth None "anonymous" None None (Some "get,put,head"%string) None false None r
             | None => r
             end in
    let r := match us_stream_auth u with
             | Some _ => append_old_style_auth None "anonymous" None None (Some "source,put"%string) None false None r
             | None => r
             end in
    Some (event, r)
  else Some (event, append_old_style_auth None "anonymous" None None None None false None r).

(** One element of [_parse_authentication]. *)
Record auth_section := AuthSection {
  as_source_password : option string;
  as_admin_password : option string;
  as_admin_username : option string;
  as_relay_password : option string;
  as_relay_username : option string;
  as_shoutcast_user : option string;
  as_new_style : list auth;
  as_next_id : Z
}.

Definition authentication_node (a : auth_section) (n : xml_node) : auth_section :=
  let '(AuthSection sp ap au rp ru su st id) := a in
  let name := x_name n in
  if streq name "source-password" then
    match xmlGetProp n "mount" with Some _ => a | None => AuthSection (x_text n) ap au rp ru su st id end
  else if streq name "admin-password" then AuthSection sp (x_text n) au rp ru su st id
  else if streq name "admin-user" then AuthSection sp ap (x_text n) rp ru su st id
  else if streq name "relay-password" then AuthSection sp ap au (x_text n) ru su st id
  else if streq name "relay-user" then AuthSection sp ap au rp (x_text n) su st id
  else if streq name "shoutcast-user" then AuthSection sp ap au rp ru (x_text n) st id
  else if streq name "role" then
    let '(st, id) := push_auth n (st, id) in AuthSection sp ap au rp ru su st id
  else a.

(** [_parse_authentication]: the settings, the password of sources and the
    next number. *)
Definition parse_authentication (l : list xml_node) (c : config) (source_password : option string) (id : Z) :
    config * option string * Z :=
  let '(AuthSection sp ap au rp ru su new_style id) :=
    foldl authentication_node
      (AuthSection source_password None None None (Some "relay"%string) (cf_text c T_shoutcast_user) [] id)
      (elements_of l) in
  let r := ([], id) in
  let r := match ap, au with
           | Some _, Some _ => append_old_style_auth (Some "legacy-admin"%string) "static" au ap None
                                 (Some "get,post,head,stats"%string) true (Some "*"%string) r
           | _, _ => r
           end in
  let r := match rp, ru with
           | Some _, Some _ => append_old_style_auth (Some "legacy-relay"%string) "static" ru rp None
                                 (Some "get"%string) true (Some "streamlist.txt"%string) r
           | _, _ => r
           end in
  let '(old_style, id) := r in
  let '(stack, id) := append_old_style_auth (Some "anonymous"%string) "anonymous" None None None
                        (Some "get,post,head"%string) true None (auth_stack_append old_style new_style, id) in
  (set_authstack stack (set_text T_shoutcast_user su c), sp, id).

(** ** Mounts *)

Inductive mount_int :=
| MI_max_listeners | MI_fallback_when_full | MI_fallback_override | MI_no_mount | MI_burst_size | MI_queue_size_limit
| MI_hidden | MI_source_timeout | MI_mp3_meta_interval | MI_max_history | MI_max_listener_duration | MI_yp_public.
Inductive mount_text :=
| MT_mountname | MT_username | MT_password | MT_dumpfile | MT_intro_filename | MT_fallback_mount | MT_charset
| MT_cluster_password | MT_stream_name | MT_stream_description | MT_stream_url | MT_stream_genre | MT_bitrate | MT_type
| MT_subtype.

#[export] Instance mount_int_eq_dec : EqDecision mount_int.
Proof. solve_decision. Defined.
#[export] Instance mount_text_eq_dec : EqDecision mount_text.
Proof. solve_decision. Defined.

(** The settings of a mount while they are read. *)
Record mount_state := MountState {
  ms_int : mount_int -> Z;
  ms_text : mount_text -> option string;
  ms_http_headers : list http_header;
  ms_event : list registration;
  ms_auth : list auth * Z
}.

Definition ms_set_int (f : mount_int) (v : Z) (m : mount_state) : mount_state :=
  MountState (set_field f v (ms_int m)) (ms_text m) (ms_http_headers m) (ms_event m) (ms_auth m).
Definition ms_set_text (f : mount_text) (v : option string) (m : mount_state) : mount_state :=
  MountState (ms_int m) (set_field f v (ms_text m)) (ms_http_headers m) (ms_event m) (ms_auth m).
Definition ms_set_event (l : list registration) (m : mount_state) : mount_state :=
  MountState (ms_int m) (ms_text m) (ms_http_headers m) l (ms_auth m).
Definition ms_set_auth (r : list auth * Z) (m : mount_state) : mount_state :=
  MountState (ms_int m) (ms_text m) (ms_http_headers m) (ms_event m) r.

Definition mount_defaults (f : mount_int) : Z :=
  match f with
  | MI_max_listeners | MI_burst_size | MI_mp3_meta_interval | MI_yp_public | MI_max_history => -1
  | _ => 0
  end.

Definition history_limit (v : Z) : Z := if (v <? 1) || (256 <? v) then 256 else v.

(** The event of [on-connect] and [on-disconnect]. *)
Definition exec_event (trigger : string) (n : xml_node) (m : mount_state) : option mount_state :=
  match x_text n with
  | Some executable => l ← append_old_style_exec_event trigger executable (ms_event m); Some (ms_set_event l m)
  | None => Some m
  end.

(** One element of [_parse_mount]. *)
Definition mount_node (m : mount_state) (n : xml_node) : option mount_state :=
  let name := x_name n in
  let text f := Some (ms_set_text f (x_text n) m) in
  let flag f := Some (ms_set_int f (Z.b2z (bool_text n)) m) in
  let int f := Some (ms_set_int f (read_int n (ms_int m f)) m) in
  let unsigned f := Some (ms_set_int f (read_unsigned_int n (ms_int m f)) m) in
  if streq name "mount-name" then text MT_mountname
  else if streq name "username" then text MT_username
  else if streq name "password" then text MT_password
  else if streq name "dump-file" then text MT_dumpfile
  else if streq name "intro" then text MT_intro_filename
  else if streq name "fallback-mount" then text MT_fallback_mount
  else if streq name "fallback-when-full" then flag MI_fallback_when_full
  else if streq name "max-listeners" then int MI_max_listeners
  else if streq name "max-history" then
    Some (ms_set_int MI_max_history (history_limit (util_str_to_int (x_text n) (ms_int m MI_max_history))) m)
  else if streq name "charset" then text MT_charset
  else if streq name "mp3-metadata-interval" then int MI_mp3_meta_interval
  else if streq name "icy-metadata-interval" then int MI_mp3_meta_interval
  else if streq name "fallback-override" then flag MI_fallback_override
  else if streq name "no-mount" then flag MI_no_mount
  else if streq name "no-yp" then Some (ms_set_int MI_yp_public (if bool_text n then 0 else -1) m)
  else if streq name "hidden" then flag MI_hidden
  else if streq name "authentication" then
    match xmlGetProp n "type" with
    | Some type =>
        '(event, r) ← parse_mount_oldstyle_authentication type n (ms_event m) (ms_auth m);
        Some (ms_set_auth r (ms_set_event event m))
    | None =>
        Some (ms_set_auth (foldl (fun r child => if streq (x_name child) "role" then push_auth child r else r)
                             (ms_auth m) (elements_of (x_children n))) m)
    end
  else if streq name "on-connect" then exec_event "source-connect" n m
  else if streq name "on-disconnect" then exec_event "source-disconnect" n m
  else if streq name "max-listener-duration" then unsigned MI_max_listener_duration
  else if streq name "queue-size" then unsigned MI_queue_size_limit
  else if streq name "source-timeout" then unsigned MI_source_timeout
  else if streq name "burst-size" then int MI_burst_size
  else if streq name "cluster-password" then text MT_cluster_password
  else if streq name "stream-name" then text MT_stream_name
  else if streq name "stream-description" then text MT_stream_description
  else if streq name "stream-url" then text MT_stream_url
  else if streq name "genre" then text MT_stream_genre
  else if streq name "bitrate" then text MT_bitrate
  else if streq name "public" then p ← parse_public (x_text n); Some (ms_set_int MI_yp_public p m)
  else if streq name "type" then text MT_type
  else if streq name "subtype" then text MT_subtype
  else if streq name "http-headers" then
    Some (MountState (ms_int m) (ms_text m) (parse_http_headers (x_children n) (ms_http_headers m)) (ms_event m) (ms_auth m))
  else if streq name "event-bindings" || streq name "kartoffelsalat" then
    l ← parse_events (x_children n) (ms_event m); Some (ms_set_event l m)
  else Some m.

Definition mount_proxy_of (type : mount_type) (m : mount_state) : mount_proxy :=
  let i := ms_int m in
  let t := ms_text m in
  let b f := negb (i f =? 0) in
  MountProxy (t MT_mountname) type (t MT_dumpfile) (t MT_intro_filename) (b MI_fallback_when_full) (i MI_max_listeners)
    (t MT_fallback_mount) (b MI_fallback_override) (b MI_no_mount) (i MI_burst_size) (i MI_queue_size_limit) (b MI_hidden)
    (i MI_source_timeout) (t MT_charset) (i MI_mp3_meta_interval) (ms_http_headers m) (i MI_max_history)
    (t MT_cluster_password) (i MI_max_listener_duration) (t MT_stream_name) (t MT_stream_description) (t MT_stream_url)
    (t MT_stream_genre) (t MT_bitrate) (t MT_type) (t MT_subtype) (i MI_yp_public).

(** [_parse_mount]: the configuration and the next number. *)
Definition parse_mount (node : xml_node) (c : config) (id : Z) : option (config * Z) :=
  let read (type : mount_type) :=
    m ← fold_nodes mount_node (MountState mount_defaults (fun _ => None) [] [] ([], id)) (elements_of (x_children node));
    let '(stack, id) := ms_auth m in
    let '(stack, id) :=
      match ms_text m MT_password with
      | Some password =>
          let '(old_style, id) := append_old_style_auth (Some "legacy-mount-source"%string) "static"
            (Some (default "source"%string (ms_text m MT_username))) (Some password) None (Some "source,put,get"%string)
            false (Some "*"%string) ([], id) in
          (auth_stack_append old_style stack, id)
      | None => (stack, id)
      end in
    let proxy := mount_proxy_of type m in
    if bool_decide (mp_mountname proxy = None) && negb (bool_decide (type = MOUNT_TYPE_DEFAULT)) then Some (c, id)
    else Some (set_mounts (cf_mounts c ++ [MountEntry proxy (ms_event m) stack]) c, id) in
  match xmlGetProp node "type" with
  | None => read MOUNT_TYPE_NORMAL
  | Some t =>
      if streq t "normal" then read MOUNT_TYPE_NORMAL
      else if streq t "default" then read MOUNT_TYPE_DEFAULT
      else Some (c, id)
  end.

(** ** The document *)

(** What the mounts of [Mounts.v] see of the configuration. *)
Definition mounts_view (c : config) : ice_config :=
  IceConfig (me_proxy <$> cf_mounts c) (default EmptyString (cf_text c T_hostname)) (cf_int c I_port)
    (cf_int c I_queue_size_limit) (cf_int c I_source_timeout) (cf_int c I_burst_size)
    (default EmptyString (cf_text c T_webroot_dir)).

Record root_state := RootState { ro_config : config; ro_source_password : option string; ro_next_id : Z }.

Definition with_first_listener (f : listener_t -> listener_t) (c : config) : option config :=
  match cf_listen_sock c with
  | [] => None
  | l :: r => Some (set_listen_sock (f l :: r) c)
  end.

Definition set_l_port (p : Z) (l : listener_t) : listener_t :=
  Listener_t p (l_bind_address l) (l_shoutcast_compat l) (l_shoutcast_mount l) (l_tls l) (l_so_sndbuf l).
Definition set_l_bind_address (a : option string) (l : listener_t) : listener_t :=
  Listener_t (l_port l) a (l_shoutcast_compat l) (l_shoutcast_mount l) (l_tls l) (l_so_sndbuf l).

Variable uninitialised : Z.

(** One element of [_parse_root]. *)
Definition root_node (s : root_state) (n : xml_node) : option root_state :=
  let '(RootState c sp id) := s in
  let name := x_name n in
  let conf (c : config) := Some (RootState c sp id) in
  let text f := conf (set_text f (x_text n) c) in
  let conf_of (r : option config) := c ← r; conf c in
  if streq name "location" then text T_location
  else if streq name "admin" then text T_admin
  else if streq name "server-id" then text T_server_id
  else if streq name "authentication" then
    let '(c, sp, id) := parse_authentication (x_children n) c sp id in Some (RootState c sp id)
  else if streq name "source-password" then Some (RootState c (x_text n) id)
  else if streq name "icelogin" then Some s
  else if streq name "fileserve" then conf (set_int I_fileserve (Z.b2z (bool_text n)) c)
  else if streq name "relays-on-demand" then conf (set_int I_on_demand (Z.b2z (bool_text n)) c)
  else if streq name "hostname" then text T_hostname
  else if streq name "mime-types" then text T_mimetypes_fn
  else if streq name "listen-socket" then conf_of (parse_listen_socket (x_children n) c)
  else if streq name "port" then
    match x_text n with
    | Some (String _ _ as t) => conf_of (with_first_listener (set_l_port (atoi t)) (set_int I_port (atoi t) c))
    | _ => Some s
    end
  else if streq name "bind-address" then conf_of (with_first_listener (set_l_bind_address (x_text n)) c)
  else if streq name "master-server" then text T_master_server
  else if streq name "master-username" then text T_master_username
  else if streq name "master-password" then text T_master_password
  else if streq name "master-server-port" then
    conf (set_int I_master_server_port (read_int n (cf_int c I_master_server_port)) c)
  else if streq name "master-update-interval" then
    conf (set_int I_master_update_interval (read_int n (cf_int c I_master_update_interval)) c)
  else if streq name "shoutcast-mount" then text T_shoutcast_mount
  else if streq name "limits" then conf (parse_limits (x_children n) c)
  else if streq name "http-headers" then
    conf (set_http_headers (parse_http_headers (x_children n) (cf_http_headers c)) c)
  else if streq name "relay" then conf (parse_relay (x_children n) c)
  else if streq name "mount" then '(c, id) ← parse_mount n c id; Some (RootState c sp id)
  else if streq name "directory" then conf (parse_directory (x_children n) c)
  else if streq name "paths" then conf_of (parse_paths uninitialised (x_children n) c)
  else if streq name "logging" then conf_of (parse_logging (x_children n) c)
  else if streq name "security" then conf (parse_security (x_children n) c)
  else if streq name "event-bindings" || streq name "kartoffelsalat" then
    l ← parse_events (x_children n) (cf_event c); conf (set_event l c)
  else Some s.

(** A mount's entry gets a stack. *)
Definition me_set_authstack (l : list auth) (m : mount_entry) : mount_entry := MountEntry (me_proxy m) (me_event m) l.

Definition is_default (m : mount_entry) : bool := bool_decide (mp_mounttype (me_proxy m) = MOUNT_TYPE_DEFAULT).

(** The first entry for default mounts, where it has no stack. *)
Fixpoint default_auth (l : list mount_entry) (password : string) (id : Z) : list mount_entry * Z :=
  match l with
  | [] => ([], id)
  | m :: r =>
      if is_default m then
        match me_authstack m with
        | [] =>
            let '(stack, id) := append_old_style_auth (Some "legacy-global-source"%string) "static"
              (Some "source"%string) (Some password) None (Some "source,put,get"%string) false (Some "*"%string) ([], id) in
            (me_set_authstack stack m :: r, id)
        | _ => (l, id)
        end
      else let '(r, id) := default_auth r password id in (m :: r, id)
  end.

(** The password of sources after the loop of [_parse_root]: the default
    entry is made where there is none. *)
Definition global_source_password (s : root_state) : option root_state :=
  match ro_source_password s with
  | None => Some s
  | Some password =>
      '(c, id) ← (if existsb is_default (cf_mounts (ro_config s)) then Some (ro_config s, ro_next_id s)
                  else parse_mount (new_node "mount" [("type", "default")]%string []) (ro_config s) (ro_next_id s));
      let '(l, id) := default_auth (cf_mounts c) password id in
      Some (RootState (set_mounts l c) None id)
  end.

(** [__check_hostname]. *)
Definition check_hostname (c : config) : config :=
  let h := string_lower (default "localhost"%string (cf_text c T_hostname)) in
  set_int I_sane_hostname
    (match util_hostcheck (Some h) with HOSTCHECK_SANE => 1 | _ => 0 end) (set_text T_hostname (Some h) c).

Definition or_default (f : text_field) (d : string) (c : config) : config :=
  match cf_text c f with Some _ => c | None => set_text f (Some d) c end.

(** [_parse_root]. *)
Definition parse_root (l : list xml_node) (c : config) (id : Z) : option (config * Z) :=
  s ← fold_nodes root_node (RootState (set_listen_sock [new_listener 8000] c) None id) (elements_of l);
  s ← global_source_password s;
  let c := ro_config s in
  let c := match cf_listen_sock c with _ :: _ :: _ => set_listen_sock (drop 1 (cf_listen_sock c)) c | _ => c end in
  let c := if cf_int c I_port =? 0 then set_int I_port 8000 c else c in
  Some (or_default T_admin "icemaster@localhost" (or_default T_location "Earth" (check_hostname c)), ro_next_id s).

Variable fnmatch : string -> string -> bool.

(** [_merge_mounts_all]. *)
Definition merge_entries (c : config) : config :=
  set_mounts (zip_with (fun e p => MountEntry p (me_event e) (me_authstack e)) (cf_mounts c)
                (c_mounts (Mounts.merge_mounts_all fnmatch (mounts_view c)))) c.

(** ** The file *)

Inductive parse_result := CONFIG_EINSANE | CONFIG_ENOROOT | CONFIG_EBADROOT | CONFIG_EPARSE | ConfigOk (c : config) (next_id : Z).

(** [config_parse_file], of what the XML library makes of a file: nothing, a
    document without a root, or its root. *)
Definition config_parse_file (xmlParseFile : string -> option (option xml_node)) (version ciphers : string)
    (filename : option string) (id : Z) : option parse_result :=
  match filename with
  | None | Some EmptyString => Some CONFIG_EINSANE
  | Some f =>
      match xmlParseFile f with
      | None => Some CONFIG_EPARSE
      | Some None => Some CONFIG_ENOROOT
      | Some (Some node) =>
          if streq (x_name node) "icecast" then
            '(c, id) ← parse_root (x_children node) (config_init_configuration version ciphers) id;
            Some (ConfigOk (merge_entries c) id)
          else Some CONFIG_EBADROOT
      end
  end.

(** [config_reread_config]: the configuration afterwards, and whether it is
    another one. *)
Definition config_reread_config (xmlParseFile : string -> option (option xml_node)) (version ciphers : string)
    (filename : option string) (current : config) (id : Z) : option (config * Z * bool) :=
  r ← config_parse_file xmlParseFile version ciphers filename id;
  Some (match r with ConfigOk new id => (new, id, true) | _ => (current, id, false) end).
End authenticators.
