(* ===== verification/ConfigFacts.v ===== *)
(** What the reader of the configuration promises: which documents crash it,
    the listening sockets and the rights of the roles that result, and the
    shape of every configuration it makes. *)

From S2P Require Import Prelude Convert Acl Http Mounts AuthUrl Auth Connection Xml Event Config.
Local Open Scope Z_scope.

Lemma bind_none {A B} (x : option A) (f : A -> option B) :
  (forall a, f a <> None) -> (a ← x; f a) = None <-> x = None.
Proof. intros F. destruct x as [a|]; run_bind; [|done]. split; [intros E; by apply F in E|done]. Qed.

Lemma forallb_false {A} (f : A -> bool) l : forallb f l = false <-> exists x, x ∈ l /\ f x = false.
Proof.
  induction l as [|x l IH]; cbn.
  - split; [done|]. by intros (x & []%not_elem_of_nil & _).
  - rewrite andb_false_iff, IH. split.
    + intros [E|(y & I & E)]; [exists x|exists y]; (split; [|done]); [left|by right].
    + intros (y & [->|I]%elem_of_cons & E); [by left|right; eauto].
Qed.

(** The name of an element is one of those that are asked for, in turn, or
    none of them. *)
Ltac by_name :=
  repeat match goal with
  | |- context [if streq ?a ?b then _ else _] =>
      let E := fresh "E" in destruct (streq a b) eqn:E; [apply streq_eq in E; subst a|]
  | |- context [if streq ?a ?b || streq ?a ?c then _ else _] =>
      let E := fresh "E" in
      destruct (streq a b) eqn:E;
      [apply streq_eq in E; subst a; cbn [orb]
      |let E' := fresh "E" in
       destruct (streq a c) eqn:E'; [apply streq_eq in E'; subst a; cbn [orb]|cbn [orb]]]
  end.

Ltac open_node n :=
  let name := fresh "name" in let props := fresh "props" in let text := fresh "text" in
  let blank := fresh "blank" in let children := fresh "children" in
  destruct n as [name props text blank children]; cbn [x_name x_text x_children].

Section config.
Variable httpp_req_unknown : Z.
Variable httpp_str_to_method : string -> Z.
Variable uninitialised : Z.

Abbreviation root_node := (root_node httpp_req_unknown httpp_str_to_method uninitialised).
Abbreviation mount_node := (mount_node httpp_req_unknown httpp_str_to_method).
Abbreviation parse_mount := (parse_mount httpp_req_unknown httpp_str_to_method).
Abbreviation parse_root := (parse_root httpp_req_unknown httpp_str_to_method uninitialised).
Abbreviation push_auth := (push_auth httpp_req_unknown httpp_str_to_method).
Abbreviation global_source_password := (global_source_password httpp_req_unknown httpp_str_to_method).

(** ** What crashes the reader *)

Definition has_text (n : xml_node) : bool := match x_text n with Some _ => true | None => false end.

Definition safe_logging (n : xml_node) : bool := implb (streq (x_name n) "loglevel") (has_text n).

Definition safe_paths (n : xml_node) : bool :=
  implb (streq (x_name n) "webroot" || streq (x_name n) "adminroot") (negb (bool_decide (x_text n = Some EmptyString))).

Definition safe_event (n : xml_node) : bool :=
  implb (streq (x_name n) "event")
    (match event_new_from_xml_node (x_props n) (x_children n) with Some _ => true | None => false end).

Definition is_events (n : xml_node) : bool := streq (x_name n) "event-bindings" || streq (x_name n) "kartoffelsalat".

Definition safe_mount_node (n : xml_node) : bool :=
  implb (streq (x_name n) "public") (has_text n) && implb (is_events n) (forallb safe_event (x_children n)).

(** A mount of no known type is not looked into. *)
Definition read_mount (n : xml_node) : bool :=
  match xmlGetProp n "type" with Some t => streq t "normal" || streq t "default" | None => true end.

Definition safe_root_node (n : xml_node) : bool :=
  implb (streq (x_name n) "logging") (forallb safe_logging (elements_of (x_children n))) &&
  implb (streq (x_name n) "paths") (forallb safe_paths (elements_of (x_children n))) &&
  implb (is_events n) (forallb safe_event (x_children n)) &&
  implb (streq (x_name n) "mount" && read_mount n) (forallb safe_mount_node (elements_of (x_children n))).

(** A loop fails where one of its turns does, if that does not depend on what
    came before. *)
Lemma fold_nodes_none {S} (P : S -> Prop) (f : S -> xml_node -> option S) (ok : xml_node -> bool) s l :
  (forall s n, P s -> (f s n = None <-> ok n = false) /\ (forall s', f s n = Some s' -> P s')) -> P s ->
  (fold_nodes f s l = None <-> forallb ok l = false) /\ (forall s', fold_nodes f s l = Some s' -> P s').
Proof.
  intros F. revert s. induction l as [|n l IH]; intros s Ps; cbn [fold_nodes forallb].
  - split; [done|]. by intros s' [= <-].
  - destruct (F s n Ps) as [Fn Fs]. destruct (f s n) as [s'|] eqn:E; run_bind.
    + destruct (ok n); [apply IH; by apply Fs|]. by pose proof (proj2 Fn eq_refl).
    + split; [|done]. split; [|done]. intros _. by rewrite (proj1 Fn eq_refl).
Qed.

Lemma fold_nodes_none' {S} (f : S -> xml_node -> option S) (ok : xml_node -> bool) s l :
  (forall s n, f s n = None <-> ok n = false) -> fold_nodes f s l = None <-> forallb ok l = false.
Proof. intros F. by apply (fold_nodes_none (fun _ => True)). Qed.

Lemma logging_node_none c n : logging_node c n = None <-> safe_logging n = false.
Proof.
  destruct n as [name props text blank children]. unfold logging_node, safe_logging, has_text. cbn [x_name x_text].
  by_name; try done. by destruct text.
Qed.

Lemma paths_node_none c n : paths_node uninitialised c n = None <-> safe_paths n = false.
Proof.
  destruct n as [name props text blank children]. unfold paths_node, safe_paths. cbn [x_name x_text].
  destruct (streq name "webroot") eqn:E1; [|destruct (streq name "adminroot") eqn:E2].
  - apply streq_eq in E1 as ->. cbn. destruct text as [[|a t]|]; done.
  - apply streq_eq in E2 as ->. cbn. destruct text as [[|a t]|]; done.
  - cbn [orb implb negb]. by_name; try done; by destruct (check_node_impl _ _).
Qed.

Lemma events_node_none l n : events_node l n = None <-> safe_event n = false.
Proof.
  unfold events_node, safe_event. destruct (streq (x_name n) "event"); [|done]. cbn [implb].
  by destruct (event_new_from_xml_node _ _).
Qed.

Lemma parse_events_none l events : parse_events l events = None <-> forallb safe_event l = false.
Proof. apply fold_nodes_none'. intros. apply events_node_none. Qed.

(** The older forms always have the options their backends need. *)
Lemma old_style_exec_some trigger executable l : append_old_style_exec_event trigger executable l <> None.
Proof. done. Qed.

Lemma old_style_url_some trigger url action username password l :
  append_old_style_url_event trigger url action username password l <> None.
Proof. by destruct url, username, password. Qed.

Lemma old_style_some type node event r :
  parse_mount_oldstyle_authentication httpp_req_unknown httpp_str_to_method type node event r <> None.
Proof.
  unfold parse_mount_oldstyle_authentication. destruct (streq type "htpasswd"), (streq type "url"); try done.
  set (u := foldl _ _ _).
  destruct (us_mount_add u) as [a|].
  - destruct (append_old_style_url_event "source-connect" _ _ _ _ _) as [ev|] eqn:E; [|by apply old_style_url_some in E].
    run_bind. destruct (us_mount_remove u); [|done].
    destruct (append_old_style_url_event "source-disconnect" _ _ _ _ _) as [ev'|] eqn:E'; [done|by apply old_style_url_some in E'].
  - run_bind. destruct (us_mount_remove u); [|done].
    destruct (append_old_style_url_event "source-disconnect" _ _ _ _ _) as [ev'|] eqn:E'; [done|by apply old_style_url_some in E'].
Qed.

Lemma mount_node_none m n : mount_node m n = None <-> safe_mount_node n = false.
Proof.
  destruct n as [name props text blank children]. unfold Config.mount_node, safe_mount_node, is_events, has_text, exec_event.
  cbn [x_name x_text x_children]. by_name; try done.
  - destruct (xmlGetProp _ _) as [type|]; [|done]. split; [|done].
    destruct (parse_mount_oldstyle_authentication _ _ _ _ _ _) as [[ev r]|] eqn:Eo; [done|by apply old_style_some in Eo].
  - by destruct text.
  - by destruct text.
  - by destruct text.
  - cbn [implb andb streq]. rewrite bind_none by done. apply parse_events_none.
  - cbn [implb andb streq]. rewrite bind_none by done. apply parse_events_none.
Qed.

Lemma parse_mount_none n c id :
  (parse_mount n c id = None <-> read_mount n && negb (forallb safe_mount_node (elements_of (x_children n))) = true).
Proof.
  unfold Config.parse_mount, read_mount.
  assert (forall type : mount_type,
    (m ← fold_nodes mount_node (MountState mount_defaults (fun _ => None) [] [] ([], id)) (elements_of (x_children n));
     Some m) = None <-> negb (forallb safe_mount_node (elements_of (x_children n))) = true) as A.
  { intros _. rewrite bind_none by done. rewrite (fold_nodes_none' _ safe_mount_node) by (intros; apply mount_node_none).
    by rewrite negb_true_iff. }
  revert A. generalize (fold_nodes mount_node (MountState mount_defaults (fun _ => None) [] [] ([], id))
                          (elements_of (x_children n))) as r. intros r A. specialize (A MOUNT_TYPE_NORMAL).
  destruct r as [m|].
  - run_bind. assert (negb (forallb safe_mount_node (elements_of (x_children n))) = false) as ->.
    { apply not_true_iff_false. rewrite <- A. done. }
    split; [|by intros [_ Q]%andb_true_iff]. intros E. exfalso. revert E. destruct (ms_auth m) as [stack id'].
    destruct (xmlGetProp n "type") as [t|]; [destruct (streq t "normal"); [|destruct (streq t "default"); [|done]]|];
      (destruct (ms_text m MT_password); [destruct (append_old_style_auth _ _ _ _ _ _ _ _ _ _ _)|]; case_match; done).
  - run_bind. rewrite (proj1 A eq_refl), andb_true_r.
    destruct (xmlGetProp n "type") as [t|]; [destruct (streq t "normal"), (streq t "default")|]; done.
Qed.

(** ** What the sections leave alone *)

(** The sockets, mounts, authenticators and directories are the same. *)
Definition frame (c c' : config) : Prop :=
  cf_listen_sock c' = cf_listen_sock c /\ cf_mounts c' = cf_mounts c /\ cf_authstack c' = cf_authstack c /\
  cf_yp c' = cf_yp c.

Lemma frame_refl c : frame c c.
Proof. done. Qed.

Lemma frame_trans c1 c2 c3 : frame c1 c2 -> frame c2 c3 -> frame c1 c3.
Proof. intros (A1 & A2 & A3 & A4) (B1 & B2 & B3 & B4). split_and!; congruence. Qed.

Lemma frame_foldl (f : config -> xml_node -> config) c l : (forall c n, frame c (f c n)) -> frame c (foldl f c l).
Proof.
  intros F. revert c. induction l as [|n l IH]; intros c; [done|]. cbn. eapply frame_trans; [apply F|apply IH].
Qed.

Lemma frame_fold_nodes (f : config -> xml_node -> option config) c l c' :
  (forall c n c', f c n = Some c' -> frame c c') -> fold_nodes f c l = Some c' -> frame c c'.
Proof.
  intros F. revert c. induction l as [|n l IH]; intros c; cbn [fold_nodes]; [by intros [= <-]|].
  destruct (f c n) as [c1|] eqn:E; run_bind; [|done]. intros H. eapply frame_trans; [by eapply F|by apply IH].
Qed.

Lemma limits_frame l c : frame c (parse_limits l c).
Proof. apply frame_foldl. intros c0 n. unfold limits_node. open_node n. by_name; try done. by destruct (_ =? 0). Qed.

Lemma relay_frame l c : frame c (parse_relay l c).
Proof. unfold parse_relay. by destruct (foldl _ _ _). Qed.

Lemma security_frame l c : frame c (parse_security l c).
Proof.
  apply frame_foldl. intros c0 n. unfold security_node. open_node n. by_name; try done.
  - apply frame_foldl. intros c1 m. unfold tls_context_node. open_node m. by_name; try done; by destruct (check_node_impl _ _).
  - eapply frame_trans; [|apply frame_foldl; intros c1 m; unfold changeowner_node; open_node m; by_name; done]. done.
Qed.

Lemma logging_frame l c c' : parse_logging l c = Some c' -> frame c c'.
Proof.
  apply frame_fold_nodes. intros c0 n c1. unfold logging_node. open_node n. by_name; try (by intros [= <-]);
    destruct text; run_bind; try done; by intros [= <-].
Qed.

Lemma paths_frame l c c' : parse_paths uninitialised l c = Some c' -> frame c c'.
Proof.
  apply frame_fold_nodes. intros c0 n c1. unfold paths_node. open_node n. by_name; try (by intros [= <-]);
    try (destruct (check_node_impl _ _); by intros [= <-]);
    try (destruct (parse_alias _ _); by intros [= <-]);
    destruct text as [t|]; try (by intros [= <-]); by destruct (strip_slash t); intros [= <-].
Qed.

(** ** Authenticators and mounts *)

(** The authenticators of a stack have numbers of their own, from [lo] up to
    the next. *)
Definition fresh_stack (lo : Z) (r : list auth * Z) : Prop :=
  lo <= r.2 /\ NoDup (a_id <$> r.1) /\ Forall (fun a => lo <= a_id a < r.2) r.1.

Lemma authenticator_id id props options a :
  auth_get_authenticator httpp_req_unknown httpp_str_to_method id props options = Some a -> a_id a = id.
Proof. unfold auth_get_authenticator. intros H. repeat (case_match; run_bind; try done); simplify_option_eq; done. Qed.

Lemma fresh_nil lo : fresh_stack lo ([], lo).
Proof. split_and!; [done|constructor|constructor]. Qed.

Lemma push_auth_fresh lo n r : fresh_stack lo r -> fresh_stack lo (push_auth n r).
Proof.
  destruct r as [stack id]. intros (L & N & F). cbn in L, N, F. unfold Config.push_auth.
  destruct (auth_get_authenticator _ _ _ _ _) as [a|] eqn:E.
  - apply authenticator_id in E. unfold auth_stack_push. split_and!; cbn; [lia| |].
    + rewrite fmap_app. apply NoDup_app. split_and!; [done| |by apply NoDup_singleton].
      intros x (b & -> & Ib)%list_elem_of_fmap Ix%list_elem_of_singleton. rewrite Forall_forall in F.
      specialize (F b Ib). lia.
    + apply Forall_app. split; [eapply Forall_impl; [exact F|cbn; lia]|]. constructor; [lia|constructor].
  - split_and!; cbn; [lia|done|]. eapply Forall_impl; [exact F|]. cbn. lia.
Qed.

Lemma old_style_auth_fresh lo name type user pass meth allow web admin r :
  fresh_stack lo r ->
  fresh_stack lo (append_old_style_auth httpp_req_unknown httpp_str_to_method name type user pass meth allow web admin r).
Proof. apply push_auth_fresh. Qed.

Lemma old_style_urlauth_fresh lo add rem aa ra src u r :
  fresh_stack lo r -> fresh_stack lo (append_old_style_urlauth httpp_req_unknown httpp_str_to_method add rem aa ra src u r).
Proof. intros F. unfold append_old_style_urlauth. destruct add, rem; try done; by apply push_auth_fresh. Qed.

Ltac stacks :=
  repeat match goal with
  | |- fresh_stack _ (append_old_style_auth _ _ _ _ _ _ _ _ _ _ _) => apply old_style_auth_fresh
  | |- fresh_stack _ (append_old_style_urlauth _ _ _ _ _ _ _ _ _) => apply old_style_urlauth_fresh
  | |- fresh_stack _ (Config.push_auth _ _ _ _) => apply push_auth_fresh
  end; assumption.

Lemma oldstyle_fresh lo type n ev r ev' r' :
  fresh_stack lo r ->
  parse_mount_oldstyle_authentication httpp_req_unknown httpp_str_to_method type n ev r = Some (ev', r') ->
  fresh_stack lo r'.
Proof.
  intros F. unfold parse_mount_oldstyle_authentication.
  destruct (streq type "htpasswd"); [intros [= <- <-]; stacks|].
  destruct (streq type "url"); [|intros [= <- <-]; stacks].
  set (u := foldl _ _ _).
  destruct (match us_mount_add u with Some _ => _ | None => _ end) as [ev1|]; run_bind; [|done].
  destruct (match us_mount_remove u with Some _ => _ | None => _ end) as [ev2|]; run_bind; [|done].
  intros [= <- <-]. destruct (us_listener_add u), (us_stream_auth u); stacks.
Qed.

Lemma fresh_append lo mid hi a b : fresh_stack lo (a, mid) -> fresh_stack mid (b, hi) -> fresh_stack lo (b ++ a, hi).
Proof.
  intros (L1 & N1 & F1) (L2 & N2 & F2). cbn in *. split_and!; cbn; [lia| |].
  - rewrite fmap_app. apply NoDup_app. split_and!; [done| |done].
    intros x (y & -> & Iy)%list_elem_of_fmap (z & E & Iz)%list_elem_of_fmap. rewrite Forall_forall in F1, F2.
    specialize (F1 z Iz). specialize (F2 y Iy). lia.
  - apply Forall_app. split; [eapply Forall_impl; [exact F2|cbn; lia]|eapply Forall_impl; [exact F1|cbn; lia]].
Qed.

Definition history_ok (v : Z) : Prop := v = -1 \/ 1 <= v <= 256.

Lemma history_limit_ok v : history_ok (history_limit v).
Proof. unfold history_ok, history_limit. destruct (Z.ltb_spec v 1), (Z.ltb_spec 256 v); cbn; lia. Qed.

Definition mount_inv (lo : Z) (m : mount_state) : Prop :=
  fresh_stack lo (ms_auth m) /\ history_ok (ms_int m MI_max_history).

Lemma fold_nodes_inv {S} (P : S -> Prop) (f : S -> xml_node -> option S) s l s' :
  (forall s n s', P s -> f s n = Some s' -> P s') -> P s -> fold_nodes f s l = Some s' -> P s'.
Proof.
  intros F. revert s. induction l as [|n l IH]; intros s Ps; cbn [fold_nodes]; [by intros [= <-]|].
  destruct (f s n) as [s1|] eqn:E; run_bind; [|done]. apply IH. by eapply F.
Qed.

Lemma foldl_inv {S} (P : S -> Prop) (f : S -> xml_node -> S) s l :
  (forall s n, P s -> P (f s n)) -> P s -> P (foldl f s l).
Proof. intros F. revert s. induction l as [|n l IH]; intros s Ps; [done|]. cbn. auto. Qed.

Lemma mount_node_inv lo m n m' : mount_inv lo m -> mount_node m n = Some m' -> mount_inv lo m'.
Proof.
  intros [F H]. unfold Config.mount_node, exec_event. open_node n.
  by_name; try (intros [= <-]; split; [exact F|exact H]).
  - intros [= <-]. split; [exact F|]. apply history_limit_ok.
  - destruct (xmlGetProp _ _) as [type|].
    + destruct (parse_mount_oldstyle_authentication _ _ _ _ _ _) as [[ev r]|] eqn:Eo; run_bind; [|done].
      intros [= <-]. split; [|exact H]. by eapply oldstyle_fresh.
    + intros [= <-]. split; [|exact H]. cbn. apply foldl_inv; [|exact F].
      intros r child Fr. destruct (streq (x_name child) "role"); [by apply push_auth_fresh|done].
  - destruct text; intros [= <-]; by split.
  - destruct text; intros [= <-]; by split.
  - destruct text; [|done]. intros [= <-]. by split.
  - destruct (parse_events _ _); run_bind; [|done]. intros [= <-]. by split.
  - destruct (parse_events _ _); run_bind; [|done]. intros [= <-]. by split.
Qed.

Definition mount_ok (e : mount_entry) : Prop :=
  (mp_mounttype (me_proxy e) = MOUNT_TYPE_NORMAL -> mp_mountname (me_proxy e) <> None) /\
  history_ok (mp_max_history (me_proxy e)).

(** A mount that is read adds at most one entry, of its own type. *)
Lemma parse_mount_spec n c id c' id' :
  parse_mount n c id = Some (c', id') ->
  id <= id' /\
  (c' = c \/
   exists e, c' = set_mounts (cf_mounts c ++ [e]) c /\ mount_ok e /\ fresh_stack id (me_authstack e, id') /\
     (xmlGetProp n "type" = Some "default"%string -> mp_mounttype (me_proxy e) = MOUNT_TYPE_DEFAULT)).
Proof.
  unfold Config.parse_mount.
  destruct (fold_nodes mount_node (MountState mount_defaults (fun _ => None) [] [] ([], id)) (elements_of (x_children n)))
    as [m|] eqn:E; run_bind.
  2: { destruct (xmlGetProp n "type") as [t|]; [destruct (streq t "normal"); [done|]; destruct (streq t "default"); [done|]|done].
       intros [= <- <-]. split; [lia|by left]. }
  apply (fold_nodes_inv (mount_inv id)) in E as [F H];
    [|intros; by eapply mount_node_inv|split; [apply fresh_nil|by left]].
  destruct (ms_auth m) as [stack mid] eqn:Em.
  destruct (match ms_text m MT_password with Some _ => _ | None => _ end) as [st hi] eqn:Es.
  assert (fresh_stack id (st, hi)) as Fs.
  { destruct (ms_text m MT_password) as [pw|]; [|by simplify_eq].
    destruct (append_old_style_auth _ _ _ _ _ _ _ _ _ _ _) as [old_style k] eqn:Eo. simplify_eq.
    eapply fresh_append; [exact F|]. rewrite <- Eo. apply old_style_auth_fresh, fresh_nil. }
  pose proof Fs as (L & _). cbn in L.
  assert (forall type : mount_type, (xmlGetProp n "type" = Some "default"%string -> type = MOUNT_TYPE_DEFAULT) ->
    (if bool_decide (mp_mountname (mount_proxy_of type m) = None) && negb (bool_decide (type = MOUNT_TYPE_DEFAULT))
     then Some (c, hi)
     else Some (set_mounts (cf_mounts c ++ [MountEntry (mount_proxy_of type m) (ms_event m) st]) c, hi)) = Some (c', id') ->
    id <= id' /\ (c' = c \/
     exists e, c' = set_mounts (cf_mounts c ++ [e]) c /\ mount_ok e /\ fresh_stack id (me_authstack e, id') /\
       (xmlGetProp n "type" = Some "default"%string -> mp_mounttype (me_proxy e) = MOUNT_TYPE_DEFAULT))) as G.
  { intros type T. destruct (bool_decide _ && _) eqn:B; intros [= <- <-]; (split; [done|]); [by left|right].
    eexists. split_and!; [done| |exact Fs|exact T]. split; [|exact H]. cbn [me_proxy]. intros Q Q'.
    cbn in Q. subst type. rewrite bool_decide_eq_true_2 in B by done. cbn in B. done. }
  destruct (xmlGetProp n "type") as [t|]; [destruct (streq t "normal") eqn:Tn; [|destruct (streq t "default") eqn:Td]|].
  - apply G. intros [= ->]. done.
  - by apply G.
  - intros [= <- <-]. split; [lia|by left].
  - by apply G.
Qed.

(** ** The document *)

Definition all_auths (c : config) : list auth := cf_authstack c ++ concat (me_authstack <$> cf_mounts c).

Definition auths_ok (c : config) (id : Z) : Prop :=
  NoDup (a_id <$> all_auths c) /\ Forall (fun a => a_id a < id) (all_auths c).

Definition yp_ok (c : config) : Prop :=
  (length (cf_yp c) <= MAX_YP_DIRECTORIES)%nat /\ Forall (fun d => yd_url d <> None) (cf_yp c).

Record config_ok (c : config) (id : Z) : Prop := {
  co_listen_sock : cf_listen_sock c <> [];
  co_mounts : Forall mount_ok (cf_mounts c);
  co_yp : yp_ok c;
  co_auths : auths_ok c id
}.

Definition root_ok (s : root_state) : Prop := config_ok (ro_config s) (ro_next_id s).

Lemma config_ok_frame c c' id : frame c c' -> config_ok c id -> config_ok c' id.
Proof.
  intros (A1 & A2 & A3 & A4) [L M Y A]. unfold auths_ok, all_auths, yp_ok in *.
  by split; unfold auths_ok, all_auths, yp_ok; rewrite ?A1, ?A2, ?A3, ?A4.
Qed.

Lemma auths_perm (l l' : list auth) id :
  l ≡ₚ l' -> NoDup (a_id <$> l) /\ Forall (fun a => a_id a < id) l -> NoDup (a_id <$> l') /\ Forall (fun a => a_id a < id) l'.
Proof. intros P. by rewrite P. Qed.

(** More authenticators, with new numbers. *)
Lemma auths_more l new id id' :
  NoDup (a_id <$> l) /\ Forall (fun a => a_id a < id) l -> fresh_stack id (new, id') ->
  NoDup (a_id <$> (l ++ new)) /\ Forall (fun a => a_id a < id') (l ++ new).
Proof.
  intros [N F] (L & N' & F'). cbn in *. split.
  - rewrite fmap_app. apply NoDup_app. split_and!; [done| |done].
    intros x (y & -> & Iy)%list_elem_of_fmap (z & E & Iz)%list_elem_of_fmap. rewrite Forall_forall in F, F'.
    specialize (F y Iy). specialize (F' z Iz). lia.
  - apply Forall_app. split; [eapply Forall_impl; [exact F|cbn; lia]|eapply Forall_impl; [exact F'|cbn; lia]].
Qed.

Lemma mount_config_ok n c id c' id' :
  config_ok c id -> parse_mount n c id = Some (c', id') -> config_ok c' id'.
Proof.
  intros [L M Y A] E. apply parse_mount_spec in E as (I & [->|(e & -> & Me & Fe & _)]).
  - split; try done. destruct A as [N F]. split; [done|]. eapply Forall_impl; [exact F|]. cbn. lia.
  - split; [done| |done|].
    + cbn. apply Forall_app. split; [done|by constructor].
    + unfold auths_ok, all_auths in *. cbn [cf_authstack cf_mounts set_mounts]. rewrite (fmap_app me_authstack), concat_app, app_assoc.
      cbn [fmap list_fmap concat]. rewrite app_nil_r.
      by eapply auths_more.
Qed.

Lemma auths_replaced c stack id id' :
  auths_ok c id -> fresh_stack id (stack, id') -> auths_ok (set_authstack stack c) id'.
Proof.
  intros [N F] S. unfold auths_ok, all_auths in *. cbn.
  apply (auths_perm (concat (me_authstack <$> cf_mounts c) ++ stack)); [apply Permutation_app_comm|].
  eapply auths_more; [|exact S]. rewrite fmap_app in N. apply NoDup_app in N as (_ & _ & N).
  apply Forall_app in F as [_ F]. done.
Qed.

Lemma authentication_spec l c sp id c' sp' id' :
  parse_authentication httpp_req_unknown httpp_str_to_method l c sp id = (c', sp', id') ->
  exists stack t, c' = set_authstack stack (set_text T_shoutcast_user t c) /\ fresh_stack id (stack, id').
Proof.
  unfold parse_authentication.
  assert (forall a, fresh_stack id (as_new_style a, as_next_id a) ->
    fresh_stack id (as_new_style (foldl (authentication_node httpp_req_unknown httpp_str_to_method) a (elements_of l)),
                    as_next_id (foldl (authentication_node httpp_req_unknown httpp_str_to_method) a (elements_of l)))) as G.
  { intros a F. apply (foldl_inv (fun a => fresh_stack id (as_new_style a, as_next_id a))); [|done].
    clear. intros [sp0 ap au rp ru su st k] n F. unfold authentication_node. open_node n. by_name; try exact F.
    - by destruct (xmlGetProp _ _).
    - pose proof (push_auth_fresh id (XmlNode "role" props text blank children) (st, k) F) as F'.
      by destruct (Config.push_auth _ _ _ _). }
  specialize (G (AuthSection sp None None None (Some "relay"%string) (cf_text c T_shoutcast_user) [] id) (fresh_nil id)).
  revert G. destruct (foldl _ _ _) as [sp1 ap au rp ru su new_style mid]. cbn [as_new_style as_next_id]. intros G.
  match goal with |- context [match rp with Some _ => _ | None => _ end] => idtac end.
  set (r1 := match ap with Some _ => _ | None => ([], mid) end).
  assert (fresh_stack mid r1) as F1.
  { unfold r1. destruct ap, au; try apply fresh_nil. apply old_style_auth_fresh, fresh_nil. }
  set (r2 := match rp with Some _ => _ | None => r1 end).
  assert (fresh_stack mid r2) as F2.
  { unfold r2. destruct rp, ru; try exact F1. by apply old_style_auth_fresh. }
  destruct r2 as [old_style k].
  destruct (append_old_style_auth _ _ _ _ _ _ _ _ _ _ (auth_stack_append old_style new_style, k)) as [stack k'] eqn:E.
  intros [= <- <- <-]. exists stack, su. split; [done|]. rewrite <- E. apply old_style_auth_fresh.
  by eapply fresh_append.
Qed.

Lemma directory_ok l c id : config_ok c id -> config_ok (parse_directory l c) id.
Proof.
  intros O. unfold parse_directory. destruct (Nat.leb_spec MAX_YP_DIRECTORIES (length (cf_yp c))) as [|Lt]; [done|].
  assert (frame c (foldl directory_node c (elements_of l))) as Fr.
  { apply frame_foldl. intros c0 n. unfold directory_node, add_server. open_node n. by_name; try done.
    by destruct (foldl _ _ _) as [[h|] t]. }
  pose proof (config_ok_frame _ _ _ Fr O) as O1. destruct (yd_url (cf_yp_next _)) as [u|] eqn:U; [|done].
  destruct O1 as [L M [Y1 Y2] A]. split; try done. destruct Fr as (_ & _ & _ & Fr). split; cbn.
  - rewrite length_app, Fr. cbn. lia.
  - apply Forall_app. split; [done|]. constructor; [congruence|constructor].
Qed.

Lemma listen_sockets_ok l c id c' : config_ok c id -> parse_listen_socket l c = Some c' -> config_ok c' id.
Proof.
  intros [L M Y A]. unfold parse_listen_socket. destruct (foldl _ _ _) as [p li].
  destruct (cf_listen_sock c) as [|f r]; [done|]. intros [= <-]. by split.
Qed.

Lemma first_listener_ok f c id c' : config_ok c id -> with_first_listener f c = Some c' -> config_ok c' id.
Proof.
  intros [L M Y A]. unfold with_first_listener. destruct (cf_listen_sock c) as [|x r]; [done|]. intros [= <-]. by split.
Qed.

Lemma some_ok s ok :
  root_ok s -> ok = true -> (Some s = None <-> ok = false) /\ (forall s', Some s = Some s' -> root_ok s').
Proof. intros R ->. split; [done|]. by intros s' [= <-]. Qed.

Lemma bind_ok {A} (r : option A) (f : A -> root_state) ok ok' :
  (r = None <-> ok' = false) -> (forall a, r = Some a -> root_ok (f a)) -> ok = ok' ->
  ((a ← r; Some (f a)) = None <-> ok = false) /\ (forall s', (a ← r; Some (f a)) = Some s' -> root_ok s').
Proof. intros N R ->. split; [by rewrite bind_none|]. destruct r as [a|]; run_bind; [intros s' [= <-]; by apply R|done]. Qed.

Lemma listen_sockets_some l c : cf_listen_sock c <> [] -> parse_listen_socket l c = None <-> true = false.
Proof.
  intros L. unfold parse_listen_socket. destruct (foldl _ _ _). by destruct (cf_listen_sock c).
Qed.

Lemma first_listener_some f c : cf_listen_sock c <> [] -> with_first_listener f c = None <-> true = false.
Proof. intros L. unfold with_first_listener. by destruct (cf_listen_sock c). Qed.

(** One element of the document: whether it crashes, and what it leaves. *)
Lemma root_node_ok s n :
  root_ok s ->
  (root_node s n = None <-> safe_root_node n = false) /\ (forall s', root_node s n = Some s' -> root_ok s').
Proof.
  destruct s as [c sp id]. intros O. pose proof (co_listen_sock _ _ O) as L. cbn [ro_config] in L.
  assert (forall c', frame c c' -> root_ok (RootState c' sp id)) as Fr by (intros c' F; exact (config_ok_frame _ _ _ F O)).
  unfold Config.root_node, safe_root_node, is_events. open_node n.
  by_name; cbn [x_children]; try (apply some_ok; [by apply Fr|reflexivity]).
  - destruct (parse_authentication _ _ _ _ _ _) as [[c' sp'] id'] eqn:Ea. apply some_ok; [|reflexivity].
    apply authentication_spec in Ea as (stack & t & -> & S). destruct O as [L0 M Y A]. split; try done.
    by eapply auths_replaced.
  - eapply bind_ok; [by apply listen_sockets_some| |reflexivity]. intros c' Ec. by eapply listen_sockets_ok.
  - destruct text as [[|a t]|]; try (apply some_ok; [by apply Fr|reflexivity]).
    eapply bind_ok; [by apply first_listener_some| |reflexivity]. intros c' Ec. eapply first_listener_ok; [|exact Ec].
    exact (Fr (set_int I_port (atoi (String a t)) c) ltac:(done)).
  - eapply bind_ok; [by apply first_listener_some| |reflexivity]. intros c' Ec. by eapply first_listener_ok.
  - apply some_ok; [apply Fr, limits_frame|reflexivity].
  - apply some_ok; [apply Fr, relay_frame|reflexivity].
  - pose proof (parse_mount_none (XmlNode "mount" props text blank children) c id) as N.
    pose proof (mount_config_ok (XmlNode "mount" props text blank children) c id) as I.
    match goal with |- (_ <-> ?ok = false) /\ _ => change ok with
      (implb (read_mount (XmlNode "mount" props text blank children)) (forallb safe_mount_node (elements_of children))) end.
    cbn [x_children] in N.
    destruct (parse_mount _ _ _) as [[c' id']|]; run_bind; revert N;
      destruct (read_mount _), (forallb _ (elements_of children)); cbn; intros [N1 N2];
      try (by specialize (N2 eq_refl)); try (by specialize (N1 eq_refl)); (split; [done|]);
      intros s' [= <-]; by apply I.
  - apply some_ok; [by apply directory_ok|reflexivity].
  - eapply bind_ok; [apply (fold_nodes_none' _ safe_paths); intros; apply paths_node_none| |].
    + intros c' Ec. apply Fr. by eapply paths_frame.
    + cbn. by rewrite !andb_true_r.
  - eapply bind_ok; [apply (fold_nodes_none' _ safe_logging); intros; apply logging_node_none| |].
    + intros c' Ec. apply Fr. by eapply logging_frame.
    + cbn. by rewrite !andb_true_r.
  - apply some_ok; [apply Fr, security_frame|reflexivity].
  - eapply bind_ok; [apply parse_events_none|intros l Ec; by apply Fr|]. cbn. by rewrite !andb_true_r.
  - eapply bind_ok; [apply parse_events_none|intros l Ec; by apply Fr|]. cbn. by rewrite !andb_true_r.
Qed.

(** The stack of the default entry. *)
Lemma default_auth_spec l password id l' id' :
  default_auth httpp_req_unknown httpp_str_to_method l password id = (l', id') ->
  me_proxy <$> l' = me_proxy <$> l /\
  exists new, concat (me_authstack <$> l') ≡ₚ concat (me_authstack <$> l) ++ new /\ fresh_stack id (new, id').
Proof.
  revert l' id'. induction l as [|m l IH]; intros l' id'; cbn [default_auth].
  { intros [= <- <-]. split; [done|]. exists []. split; [done|apply fresh_nil]. }
  destruct (is_default m).
  - destruct (me_authstack m) as [|a st] eqn:Em.
    + destruct (append_old_style_auth _ _ _ _ _ _ _ _ _ _ _) as [stack k] eqn:E. intros [= <- <-].
      split; [done|]. exists stack. cbn. rewrite Em. split; [apply Permutation_app_comm|].
      rewrite <- E. apply old_style_auth_fresh, fresh_nil.
    + intros [= <- <-]. split; [done|]. exists []. split; [by rewrite app_nil_r|apply fresh_nil].
  - destruct (default_auth _ _ l password id) as [r k]. intros [= <- <-].
    destruct (IH r k eq_refl) as (Ep & new & P & F). cbn. split; [by rewrite Ep|]. exists new.
    split; [by rewrite P, app_assoc|done].
Qed.

Lemma mounts_same_ok l l' : me_proxy <$> l' = me_proxy <$> l -> Forall mount_ok l -> Forall mount_ok l'.
Proof.
  revert l. induction l' as [|m l' IH]; intros [|k l]; try done. cbn. intros [= E1 E2] [M1 M2]%Forall_cons.
  constructor; [|by eapply IH]. destruct M1 as [A B]. split; by rewrite E1.
Qed.

Lemma source_password_ok s : root_ok s -> exists s', global_source_password s = Some s' /\ root_ok s'.
Proof.
  intros O. unfold Config.global_source_password. destruct (ro_source_password s) as [pw|]; [|by exists s].
  assert (exists c id, (if existsb is_default (cf_mounts (ro_config s)) then Some (ro_config s, ro_next_id s)
    else parse_mount (new_node "mount" [("type", "default")]%string []) (ro_config s) (ro_next_id s)) = Some (c, id) /\
    config_ok c id) as (c & id & -> & Oc).
  { destruct (existsb is_default (cf_mounts (ro_config s))); [by exists (ro_config s), (ro_next_id s)|].
    destruct (parse_mount _ _ _) as [[c id]|] eqn:E.
    - exists c, id. split; [done|]. by eapply mount_config_ok.
    - by apply parse_mount_none in E. }
  run_bind. destruct (default_auth _ _ _ pw id) as [l id'] eqn:E.
  apply default_auth_spec in E as (Ep & new & P & F). eexists. split; [done|].
  destruct Oc as [L M Y A]. split; cbn; [done|by eapply mounts_same_ok|done|].
  unfold auths_ok, all_auths in *. cbn. eapply auths_perm; [|eapply auths_more; [exact A|exact F]].
  by rewrite P, app_assoc.
Qed.


(** C34: Every configuration that is read has at least one socket, a name, a
    location and an administrator, a port, at most 25 directories with their
    addresses, a name for each mount that is not a default, histories within
    their bounds, and authenticators of which no two have the same number. *)
Theorem config_well_formed (version ciphers : string) (l : list xml_node) (id : Z) (c : config) (id' : Z) :
  parse_root l (config_init_configuration version ciphers) id = Some (c, id') ->
  cf_listen_sock c <> [] /\ cf_int c I_port <> 0 /\
  (forall f, f = T_hostname \/ f = T_location \/ f = T_admin -> cf_text c f <> None) /\
  (length (cf_yp c) <= MAX_YP_DIRECTORIES)%nat /\ Forall (fun d => yd_url d <> None) (cf_yp c) /\
  Forall mount_ok (cf_mounts c) /\
  NoDup (a_id <$> all_auths c) /\ Forall (fun a => a_id a < id') (all_auths c).
Proof.
  unfold Config.parse_root. set (s0 := RootState _ None id).
  assert (root_ok s0) as O0 by (split; [done|constructor|split; [cbn; unfold MAX_YP_DIRECTORIES; lia|constructor]|split; constructor]).
  destruct (fold_nodes_none root_ok root_node safe_root_node s0 (elements_of l) (fun s n => root_node_ok s n) O0) as [_ I].
  destruct (fold_nodes root_node s0 (elements_of l)) as [s|]; run_bind; [|done].
  destruct (source_password_ok s (I s eq_refl)) as (s' & -> & O). run_bind.
  set (c1 := match cf_listen_sock (ro_config s') with _ :: _ :: _ => _ | _ => _ end).
  assert (config_ok c1 (ro_next_id s')) as O1.
  { unfold c1. destruct O as [L M Y A]. destruct (cf_listen_sock (ro_config s')) as [|x [|y r]] eqn:E; [done|by split; rewrite ?E|].
    by split. }
  set (c2 := if cf_int c1 I_port =? 0 then set_int I_port 8000 c1 else c1).
  assert (config_ok c2 (ro_next_id s') /\ cf_int c2 I_port <> 0) as [O2 P2].
  { unfold c2. destruct (Z.eqb_spec (cf_int c1 I_port) 0) as [E|E]; [|done].
    split; [by apply (config_ok_frame c1)|by cbn]. }
  intros [= <- <-]. set (c3 := check_hostname c2).
  assert (config_ok c3 (ro_next_id s') /\ cf_int c3 I_port <> 0 /\ cf_text c3 T_hostname <> None) as (O3 & P3 & T3).
  { split; [by apply (config_ok_frame c2)|]. split; [exact P2|]. by cbn. }
  assert (forall f d c, frame c (or_default f d c) /\ cf_int (or_default f d c) = cf_int c /\
    cf_text (or_default f d c) f <> None /\ forall g, cf_text c g <> None -> cf_text (or_default f d c) g <> None) as D.
  { intros f d c. unfold or_default. destruct (cf_text c f) eqn:E; [split_and!; [done|done|congruence|done]|].
    split_and!; [done|done| |]; cbn; unfold set_field; [by rewrite decide_True|]. intros g Hg. by case_decide. }
  destruct (D T_location "Earth"%string c3) as (F4 & I4 & T4 & G4). set (c4 := or_default T_location "Earth" c3) in *.
  destruct (D T_admin "icemaster@localhost"%string c4) as (F5 & I5 & T5 & G5). set (c5 := or_default T_admin _ c4) in *.
  destruct (config_ok_frame _ _ _ (frame_trans _ _ _ F4 F5) O3) as [L M [Y1 Y2] [A1 A2]].
  split_and!; try done; [by rewrite I5, I4|]. intros f [->|[->| ->]]; auto.
Qed.

(** ** The listening sockets *)

(** What [port] and [bind-address] make of the first socket. *)
Definition simple_node (l : listener_t) (n : xml_node) : listener_t :=
  if streq (x_name n) "port" then
    match x_text n with Some (String _ _ as t) => set_l_port (atoi t) l | _ => l end
  else if streq (x_name n) "bind-address" then set_l_bind_address (x_text n) l
  else l.

(** The sockets of one [listen-socket]. *)
Definition sockets_of (n : xml_node) : list listener_t :=
  let s := snd (foldl listen_socket_node (0, new_listener 8000) (elements_of (x_children n))) in
  s :: match l_shoutcast_mount s with
       | Some m => [Listener_t (i32 (l_port s + 1)) (l_bind_address s) true (Some m) TLSMODE_DISABLED 0]
       | None => []
       end.

Definition is_socket (n : xml_node) : bool := streq (x_name n) "listen-socket".

(** The new socket does not depend on the port of the server. *)
Lemma listen_socket_port l p q s :
  snd (foldl listen_socket_node (p, s) l) = snd (foldl listen_socket_node (q, s) l).
Proof.
  revert p q s. induction l as [|n l IH]; intros p q s; [done|]. cbn [foldl].
  assert (snd (listen_socket_node (p, s) n) = snd (listen_socket_node (q, s) n)) as E.
  { destruct s. unfold listen_socket_node. open_node n. by_name; try done. by destruct text. }
  destruct (listen_socket_node (p, s) n) as [p' s1], (listen_socket_node (q, s) n) as [q' s2]. cbn in E. subst s2. apply IH.
Qed.

Lemma frame_sockets c c' f rest : frame c c' -> cf_listen_sock c = f :: rest -> cf_listen_sock c' = f :: rest.
Proof. intros (E & _) H. by rewrite E. Qed.

Lemma parse_mount_sockets n c id c' id' : parse_mount n c id = Some (c', id') -> cf_listen_sock c' = cf_listen_sock c.
Proof. intros H. apply parse_mount_spec in H as (_ & [->|(e & -> & _)]); done. Qed.

Lemma root_node_sockets s n s' f rest :
  cf_listen_sock (ro_config s) = f :: rest -> root_node s n = Some s' ->
  cf_listen_sock (ro_config s') = simple_node f n :: (if is_socket n then sockets_of n else []) ++ rest.
Proof.
  destruct s as [c sp id]. cbn [ro_config]. intros L.
  unfold Config.root_node, simple_node, is_socket, sockets_of. open_node n.
  by_name; cbn [app]; try (intros [= <-]; exact L).
  - destruct (parse_authentication _ _ _ _ _ _) as [[c' sp'] id'] eqn:Ea. intros [= <-].
    apply authentication_spec in Ea as (stack & t & -> & _). exact L.
  - unfold parse_listen_socket. rewrite (listen_socket_port _ 0 (cf_int c I_port)).
    destruct (foldl _ (cf_int c I_port, _) _) as [p li]. rewrite L. run_bind. intros [= <-]. done.
  - destruct text as [[|a t]|]; try (intros [= <-]; exact L).
    unfold with_first_listener. cbn [cf_listen_sock set_int]. rewrite L. run_bind. intros [= <-]. done.
  - unfold with_first_listener. rewrite L. run_bind. intros [= <-]. done.
  - intros [= <-]. eapply frame_sockets; [apply limits_frame|done].
  - intros [= <-]. eapply frame_sockets; [apply relay_frame|done].
  - destruct (parse_mount _ _ _) as [[c' id']|] eqn:Em; run_bind; [|done]. intros [= <-].
    apply parse_mount_sockets in Em. by rewrite <- Em in L.
  - intros [= <-]. cbn [ro_config]. unfold parse_directory. destruct (_ <=? _)%nat; [done|].
    assert (frame c (foldl directory_node c (elements_of children))) as Fr.
    { apply frame_foldl. intros c0 m. unfold directory_node, add_server. open_node m. by_name; try done.
      by destruct (foldl _ _ _) as [[h|] t]. }
    destruct (yd_url _); exact (frame_sockets _ _ _ _ Fr L).
  - destruct (parse_paths _ _ _) as [c'|] eqn:Em; run_bind; [|done]. intros [= <-].
    eapply frame_sockets; [by eapply paths_frame|done].
  - destruct (parse_logging _ _) as [c'|] eqn:Em; run_bind; [|done]. intros [= <-].
    eapply frame_sockets; [by eapply logging_frame|done].
  - intros [= <-]. eapply frame_sockets; [apply security_frame|done].
  - destruct (parse_events _ _); run_bind; [|done]. intros [= <-]. exact L.
  - destruct (parse_events _ _); run_bind; [|done]. intros [= <-]. exact L.
Qed.

Lemma root_nodes_sockets l s s' f rest :
  cf_listen_sock (ro_config s) = f :: rest -> fold_nodes root_node s l = Some s' ->
  cf_listen_sock (ro_config s') =
    foldl simple_node f l :: concat (reverse (map sockets_of (filter (fun n => is_socket n = true) l))) ++ rest.
Proof.
  revert s f rest. induction l as [|n l IH]; intros s f rest L; cbn [fold_nodes]; [by intros [= <-]|].
  destruct (root_node s n) as [s1|] eqn:E; run_bind; [|done]. intros H.
  rewrite (IH s1 _ _ (root_node_sockets s n s1 f rest L E) H). cbn [foldl]. f_equal. rewrite filter_cons.
  destruct (is_socket n) eqn:S.
  - rewrite decide_True by done. cbn [map]. rewrite reverse_cons, concat_app. cbn [concat]. by rewrite app_nil_r, <- app_assoc.
  - by rewrite decide_False.
Qed.

Lemma source_password_sockets s s' :
  global_source_password s = Some s' -> cf_listen_sock (ro_config s') = cf_listen_sock (ro_config s).
Proof.
  unfold Config.global_source_password. destruct (ro_source_password s) as [pw|]; [|by intros [= <-]].
  destruct (existsb _ _).
  - run_bind. destruct (default_auth _ _ _ _ _). by intros [= <-].
  - destruct (parse_mount _ _ _) as [[c id]|] eqn:E; run_bind; [|done]. apply parse_mount_sockets in E.
    destruct (default_auth _ _ _ _ _). intros [= <-]. exact E.
Qed.

(** The server listens on the sockets of the [listen-socket] elements, the
    last first, each followed by that for the older protocol on the next port
    where it has a mount for it; and where there is no such element on the
    one [port] and [bind-address] give, by default port 8000. *)
Theorem config_sockets (version ciphers : string) (l : list xml_node) (id : Z) (c : config) (id' : Z) :
  parse_root l (config_init_configuration version ciphers) id = Some (c, id') ->
  cf_listen_sock c =
    match filter (fun n => is_socket n = true) (elements_of l) with
    | [] => [foldl simple_node (new_listener 8000) (elements_of l)]
    | sockets => concat (reverse (map sockets_of sockets))
    end.
Proof.
  unfold Config.parse_root.
  destruct (fold_nodes root_node _ (elements_of l)) as [s|] eqn:E; run_bind; [|done].
  apply (root_nodes_sockets _ _ _ (new_listener 8000) []) in E; [|done]. rewrite app_nil_r in E.
  destruct (global_source_password s) as [s'|] eqn:G; run_bind; [|done].
  apply source_password_sockets in G. rewrite E in G. clear E. intros [= <- _].
  assert (forall f d c, cf_listen_sock (or_default f d c) = cf_listen_sock c) as D.
  { intros f d c0. unfold or_default. by destruct (cf_text c0 f). }
  rewrite !D. cbn [check_hostname cf_listen_sock set_int set_text].
  match goal with |- cf_listen_sock (if _ then _ else ?c1) = _ => transitivity (cf_listen_sock c1); [by case_match|] end.
  rewrite G. destruct (filter _ (elements_of l)) as [|n r] eqn:F; [exact G|].
  destruct (concat (reverse (map sockets_of (n :: r)))) as [|x k] eqn:K; [exfalso|done].
  apply (f_equal length) in K. cbn [map] in K. rewrite reverse_cons, concat_app, length_app in K. cbn in K. lia.
Qed.
End config.

(** A document: two sockets, one of them with the older protocol, the
    credentials of the administrator, a password for sources and a mount. *)
Definition text_node (name text : string) : xml_node := XmlNode name [] (Some text) false [].
Definition blank_node : xml_node := XmlNode "text" [] None true [].
Definition document : list xml_node :=
  [ text_node "hostname" "Radio.example.org"; blank_node;
    new_node "listen-socket" [] [text_node "port" "8010"; text_node "bind-address" "10.0.0.1"];
    new_node "listen-socket" [] [text_node "port" "8020"; text_node "shoutcast-mount" "/old"];
    new_node "authentication" []
      [text_node "source-password" "hackme"; text_node "relay-password" "relay";
       text_node "admin-user" "root"; text_node "admin-password" "secret"];
    new_node "mount" [("type", "normal")]%string
      [text_node "mount-name" "/live"; text_node "max-history" "4000"; text_node "password" "x"];
    new_node "directory" [] [text_node "yp-url" "http://dir.example.org/"; text_node "yp-url-timeout" "15"] ].
Definition document_method (m : string) : Z :=
  if streq m "get" then 1 else if streq m "post" then 2 else if streq m "head" then 3
  else if streq m "put" then 4 else if streq m "source" then 5 else if streq m "stats" then 6 else 7.
Abbreviation document_config :=
  (parse_root 7 document_method 0 document (config_init_configuration "2.4" "HIGH") 0).

Lemma document_read : match document_config with Some _ => true | None => false end = true.
Proof. vm_compute. reflexivity. Qed.

Lemma config_well_formed_witness :
  match document_config with
  | Some (c, id') =>
      (length (cf_listen_sock c), length (cf_yp c), length (cf_mounts c), a_id <$> all_auths c) =
        (3%nat, 1%nat, 2%nat, [0; 1; 2; 3; 4]) /\
      cf_listen_sock c <> [] /\ cf_int c I_port <> 0 /\
      (forall f, f = T_hostname \/ f = T_location \/ f = T_admin -> cf_text c f <> None) /\
      (length (cf_yp c) <= MAX_YP_DIRECTORIES)%nat /\ Forall (fun d => yd_url d <> None) (cf_yp c) /\
      Forall mount_ok (cf_mounts c) /\
      NoDup (a_id <$> all_auths c) /\ Forall (fun a => a_id a < id') (all_auths c)
  | None => False
  end.
Proof.
  pose proof document_read as D. destruct document_config as [[c id']|] eqn:E; [clear D|discriminate D].
  split; [|exact (config_well_formed 7 document_method 0 _ _ _ 0 c id' E)].
  assert ((fun r : config * Z => (length (cf_listen_sock r.1), length (cf_yp r.1), length (cf_mounts r.1), a_id <$> all_auths r.1))
            <$> document_config = Some (3%nat, 1%nat, 2%nat, [0; 1; 2; 3; 4])) as Q by (vm_compute; reflexivity).
  rewrite E in Q. cbn in Q. congruence.
Defined.

Lemma config_sockets_witness :
  match document_config with
  | Some (c, _) =>
      cf_listen_sock c =
        [Listener_t 8020 None false (Some "/old"%string) TLSMODE_DISABLED 0;
         Listener_t 8021 None true (Some "/old"%string) TLSMODE_DISABLED 0;
         Listener_t 8010 (Some "10.0.0.1"%string) false None TLSMODE_DISABLED 0]
  | None => False
  end.
Proof.
  pose proof document_read as D. destruct document_config as [[c id']|] eqn:E; [clear D|discriminate D].
  rewrite (config_sockets 7 document_method 0 _ _ _ 0 c id' E). vm_compute. reflexivity.
Defined.
