(* ===== verification/ConfigRoles.v ===== *)
(** The roles of the older form of authentication: what each may do; and
    concrete documents. *)

From S2P Require Import Prelude Convert Acl Http Mounts AuthUrl Auth Connection Xml Event EventFacts Config ConfigFacts.
Local Open Scope Z_scope.

Section roles.
Variables httpp_req_none httpp_req_unknown : Z.
Variable httpp_str_to_method : string -> Z.

(** A method by its name is one there is. *)
Definition known (m : string) : Prop := 0 <= httpp_str_to_method m < httpp_req_unknown.

(** The policies for the methods where those of a list are allowed. *)
Definition allow_methods (l : list acl_policy) (ms : list string) : list acl_policy :=
  foldl (fun l m => <[Z.to_nat (httpp_str_to_method m) := ACL_POLICY_ALLOW]> l) l ms.
Definition allowed (ms : list string) : list acl_policy :=
  allow_methods (replicate (method_count httpp_req_unknown) ACL_POLICY_DENY) ms.

Definition test_method (a : auth) (m : Z) : acl_policy :=
  acl_test_method httpp_req_none httpp_req_unknown (Some (a_acl a)) m.
Definition test_admin (a : auth) (command : Z) : acl_policy := acl_test_admin (Some (a_acl a)) command.

Definition cmd_buildm3u : Z := admin_get_command "buildm3u".
Definition cmd_streamlist : Z := admin_get_command "streamlist.txt".

Lemma allowed_spec ms k :
  allowed ms !! k = Some ACL_POLICY_ALLOW -> exists x, x ∈ ms /\ k = Z.to_nat (httpp_str_to_method x).
Proof.
  unfold allowed, allow_methods. induction ms as [|x ms IH] using rev_ind.
  - cbn. intros [Q _]%lookup_replicate. done.
  - rewrite foldl_app. cbn [foldl]. intros H. destruct (decide (k = Z.to_nat (httpp_str_to_method x))) as [E|N].
    + exists x. split; [apply elem_of_app; right; left|done].
    + rewrite list_lookup_insert_ne in H by done. destruct (IH H) as (y & I & E). exists y.
      split; [apply elem_of_app; by left|done].
Qed.

Lemma length_allow l ms : length (allow_methods l ms) = length l.
Proof.
  unfold allow_methods. revert l. induction ms as [|m ms IH]; intros l; [done|]. cbn. by rewrite IH, length_insert.
Qed.

(** ** The lists of policies *)

Lemma set_methods_known ms a :
  Forall known ms -> Forall (fun x => streq x "*" = false) ms ->
  set_items (acl_set_method_str__callback httpp_req_unknown httpp_str_to_method) ACL_POLICY_ALLOW ms a =
  (0, a_set_method (allow_methods (Acl.a_method a) ms) a).
Proof.
  intros K N. revert a. induction K as [|m ms Km K IH]; intros a; cbn [set_items]; [by destruct a|].
  apply Forall_cons in N as [Nm N]. unfold acl_set_method_str__callback at 1. rewrite Nm.
  unfold known in Km. destruct (Z.eqb_spec (httpp_str_to_method m) httpp_req_unknown) as [|_]; [lia|].
  change (0 =? 0) with true. cbn iota. rewrite IH by done. done.
Qed.

Definition items (ms : list string) : list (nat * string) := pair 0%nat <$> ms.

Lemma allow_text ms a :
  ms <> [] -> Forall known ms -> Forall (fun x => streq x "*" = false /\ item_ok x) ms ->
  acl_set_method_str_ httpp_req_unknown httpp_str_to_method ACL_POLICY_ALLOW (join_items (items ms)) a =
  Some (a_set_method (allow_methods (Acl.a_method a) ms) a).
Proof.
  intros Ne K O. unfold acl_set_method_str_, acl_set_method_str, acl_set_ANY_str. cbn [valid_policy].
  rewrite set_any_loop_items; [|by destruct ms| |lia].
  - run_bind. assert ((items ms).*2 = ms) as E.
    { unfold items. rewrite <- list_fmap_compose. cbn. by rewrite list_fmap_id. }
    rewrite E, set_methods_known; [done|done|]. eapply Forall_impl; [exact O|]. by intros ? [].
  - intros n x (y & [= -> ->] & I)%list_elem_of_fmap. rewrite Forall_forall in O. by apply O.
Qed.

Ltac solve_items :=
  repeat (apply Forall_cons; split; [split; [reflexivity|split_and!; [reflexivity|reflexivity|by vm_compute]]|]);
  apply Forall_nil; exact I.

Lemma new_acl :
  known "get" ->
  acl_new httpp_req_unknown httpp_str_to_method =
  Some (Acl 1 (allowed ["get"%string]) [(cmd_buildm3u, ACL_POLICY_ALLOW)] ACL_POLICY_DENY ACL_POLICY_ALLOW (-1) 0).
Proof.
  intros K. unfold acl_new.
  change (acl_set_method_str_ httpp_req_unknown httpp_str_to_method ACL_POLICY_DENY "*" (acl_zero httpp_req_unknown))
    with (Some (a_set_method (replicate (length (Acl.a_method (acl_zero httpp_req_unknown))) ACL_POLICY_DENY)
                  (acl_zero httpp_req_unknown))). run_bind.
  pose proof (fun a => allow_text ["get"%string] a ltac:(done) ltac:(by constructor) ltac:(solve_items)) as E.
  change (join_items (items ["get"%string])) with "get"%string in E. rewrite E. run_bind.
  unfold allowed. cbn [acl_zero Acl.a_method a_set_method]. rewrite length_replicate. reflexivity.
Qed.

(** ** The authenticator of a role *)

(** Attributes that say nothing about policies. *)
Definition silent (p : string * string) : bool :=
  streq p.1 "type" || streq p.1 "name" || streq p.1 "method".

Lemma silent_attribute n v a :
  silent (n, v) = true -> acl_attribute httpp_req_unknown httpp_str_to_method n v a = Some a.
Proof.
  unfold silent. cbn [fst snd]. rewrite !orb_true_iff, !streq_eq. by intros [[->| ->]| ->].
Qed.

Lemma acl_attributes_app l k a :
  acl_attributes httpp_req_unknown httpp_str_to_method (l ++ k) a =
  (a ← acl_attributes httpp_req_unknown httpp_str_to_method l a; acl_attributes httpp_req_unknown httpp_str_to_method k a).
Proof.
  revert a. induction l as [|[n v] l IH]; intros a; [done|]. cbn [app acl_attributes].
  destruct (acl_attribute _ _ _ _ _); run_bind; [apply IH|done].
Qed.

Lemma silent_attributes l a :
  forallb silent l = true -> acl_attributes httpp_req_unknown httpp_str_to_method l a = Some a.
Proof.
  induction l as [|p l IH]; [done|]. cbn [forallb]. intros [S F]%andb_true_iff. destruct p as [n v].
  cbn [acl_attributes]. rewrite (silent_attribute n v a S). run_bind. by apply IH.
Qed.

Definition role_admin (allow_admin : option string) : list (Z * acl_policy) :=
  match allow_admin with
  | None => [(cmd_buildm3u, ACL_POLICY_ALLOW)]
  | Some a => if streq a "*" then [] else [(cmd_buildm3u, ACL_POLICY_ALLOW); (admin_get_command a, ACL_POLICY_ALLOW)]
  end.
Definition role_policy (allow_admin : option string) : acl_policy :=
  if bool_decide (allow_admin = Some "*"%string) then ACL_POLICY_ALLOW else ACL_POLICY_DENY.

Lemma role_acl name type username password method ms web admin :
  known "get" -> ms <> [] -> Forall known ms -> Forall (fun x => streq x "*" = false /\ item_ok x) ms ->
  admin = None \/ admin = Some "*"%string \/ admin = Some "streamlist.txt"%string ->
  acl_new_from_xml_node httpp_req_unknown httpp_str_to_method
    (x_props (old_style_role name type username password method (Some (join_items (items ms))) web admin)) =
  Some (Acl 1 (allowed ms) (role_admin admin) (role_policy admin) (if web then ACL_POLICY_ALLOW else ACL_POLICY_DENY) (-1) 0).
Proof.
  intros G Ne K O A. unfold acl_new_from_xml_node. rewrite new_acl by done. run_bind.
  unfold old_style_role, new_node. cbn [x_props].
  set (silents := match name with Some v => [("name"%string, v)] | None => [] end ++
                  match method with Some v => [("method"%string, v)] | None => [] end).
  assert (forallb silent silents = true) as S by (unfold silents; by destruct name, method).
  set (a0 := Acl 1 (allowed ["get"%string]) [(cmd_buildm3u, ACL_POLICY_ALLOW)] ACL_POLICY_DENY ACL_POLICY_ALLOW (-1) 0).
  set (a1 := Acl 1 (allowed ms) [(cmd_buildm3u, ACL_POLICY_ALLOW)] ACL_POLICY_DENY ACL_POLICY_ALLOW (-1) 0).
  set (a2 := Acl 1 (allowed ms) [(cmd_buildm3u, ACL_POLICY_ALLOW)] ACL_POLICY_DENY
               (if web then ACL_POLICY_ALLOW else ACL_POLICY_DENY) (-1) 0).
  rewrite (acl_attributes_app [_; _]). cbn [acl_attributes].
  rewrite (silent_attribute "type" type) by done. run_bind.
  change (acl_attribute httpp_req_unknown httpp_str_to_method "deny-method" "*" a0) with
    (Some (a_set_method (replicate (length (allowed ["get"%string])) ACL_POLICY_DENY) a0)). run_bind.
  rewrite acl_attributes_app. cbn [acl_attributes].
  assert (forall tmp a, acl_attribute httpp_req_unknown httpp_str_to_method "allow-method" tmp a =
    acl_set_method_str_ httpp_req_unknown httpp_str_to_method ACL_POLICY_ALLOW tmp a) as -> by reflexivity.
  rewrite allow_text by done. run_bind.
  rewrite (app_assoc (match name with Some v => _ | None => _ end)), acl_attributes_app. fold silents.
  rewrite silent_attributes by done. run_bind.
  assert (a_set_method (allow_methods (Acl.a_method (a_set_method (replicate (length (allowed ["get"%string])) ACL_POLICY_DENY) a0)) ms)
    (a_set_method (replicate (length (allowed ["get"%string])) ACL_POLICY_DENY) a0) = a1) as ->.
  { unfold a1, a0, allowed. cbn [Acl.a_method a_set_method]. rewrite length_allow, length_replicate. reflexivity. }
  rewrite acl_attributes_app.
  assert (acl_attributes httpp_req_unknown httpp_str_to_method
    [if web then ("allow-web", "*")%string else ("deny-web", "*")%string] a1 = Some a2) as -> by by destruct web.
  run_bind. destruct A as [->|[->| ->]]; reflexivity.
Qed.

(** The options of a role give its backend: a user and a password, or
    nobody. *)
Definition role_backend (type : string) (username password : option string) (b : backend) : Prop :=
  get_authenticator type (auth_options (option_tag "username" username ++ option_tag "password" password)) = Some b.

Lemma static_backend u p : role_backend "static" (Some u) (Some p) (BackendStatic (Some u) p).
Proof. reflexivity. Qed.
Lemma anonymous_backend : role_backend "anonymous" None None BackendAnonymous.
Proof. reflexivity. Qed.

Lemma push_role name type username password ms web admin b stack id :
  known "get" -> ms <> [] -> Forall known ms -> Forall (fun x => streq x "*" = false /\ item_ok x) ms ->
  admin = None \/ admin = Some "*"%string \/ admin = Some "streamlist.txt"%string ->
  role_backend type username password b ->
  append_old_style_auth httpp_req_unknown httpp_str_to_method name type username password None
    (Some (join_items (items ms))) web admin (stack, id) =
  (stack ++ [Auth id type name (replicate (method_count httpp_req_unknown) true)
     (Acl 1 (allowed ms) (role_admin admin) (role_policy admin) (if web then ACL_POLICY_ALLOW else ACL_POLICY_DENY) (-1) 0) b],
   id + 1).
Proof.
  intros G Ne K O A B. unfold append_old_style_auth, push_auth.
  set (role := old_style_role _ _ _ _ _ _ _ _).
  assert (auth_get_authenticator httpp_req_unknown httpp_str_to_method id (x_props role) (auth_options (x_children role)) =
    Some (Auth id type name (replicate (method_count httpp_req_unknown) true)
      (Acl 1 (allowed ms) (role_admin admin) (role_policy admin) (if web then ACL_POLICY_ALLOW else ACL_POLICY_DENY) (-1) 0) b))
    as ->; [|done].
  unfold auth_get_authenticator.
  assert (snd <$> find (fun p => streq p.1 "type") (x_props role) = Some type) as -> by reflexivity. run_bind.
  assert (snd <$> find (fun p => streq p.1 "method") (x_props role) = None) as ->.
  { destruct name, web, A as [->|[->| ->]]; reflexivity. }
  assert (snd <$> find (fun p => streq p.1 "name") (x_props role) = name) as ->.
  { destruct name, web, A as [->|[->| ->]]; reflexivity. }
  cbn [auth_methods]. run_bind. pose proof (role_acl name type username password None ms web admin G Ne K O A) as E. fold role in E. rewrite E. run_bind.
  change (x_children role) with (option_tag "username" username ++ option_tag "password" password). rewrite B. done.
Qed.

(** What a role may do at most: the commands and methods given. *)
Definition role_limits (a : auth) (commands : list Z) (methods : list string) : Prop :=
  (forall c, test_admin a c = ACL_POLICY_ALLOW -> c ∈ commands) /\
  (forall m, 0 <= m -> test_method a m = ACL_POLICY_ALLOW -> exists x, x ∈ methods /\ m = httpp_str_to_method x).

Lemma limits_ok a ms admin p w :
  Forall known ms -> admin = None \/ admin = Some "streamlist.txt"%string ->
  a_acl a = Acl 1 (allowed ms) (role_admin admin) (role_policy admin) p w 0 ->
  role_limits a (match admin with None => [cmd_buildm3u] | Some _ => [cmd_buildm3u; cmd_streamlist] end) ms.
Proof.
  intros K A E. split.
  - intros c. unfold test_admin, acl_test_admin. rewrite E. cbn [a_admin a_admin_policy].
    destruct (list_find _ _) as [[k e]|] eqn:F.
    + apply list_find_Some in F as (H & Ec & _). intros _. subst c. apply list_elem_of_lookup_2 in H.
      destruct A as [->| ->]; cbn in H; [apply list_elem_of_singleton in H as ->; left|].
      apply elem_of_cons in H as [->|H]; [left|]. apply list_elem_of_singleton in H as ->. right. left.
    + destruct A as [->| ->]; done.
  - intros m M. unfold test_method, acl_test_method. rewrite E. cbn [Acl.a_method].
    destruct ((m <? httpp_req_none) || (httpp_req_unknown <? m)); [done|].
    destruct (allowed ms !! Z.to_nat m) as [q|] eqn:L; [|done]. cbn. intros ->.
    apply allowed_spec in L as (x & I & Q). exists x. split; [done|].
    rewrite Forall_forall in K. specialize (K x I). unfold known in K. lia.
Qed.

(** The text the last element of a name gives. *)
Definition given (name : string) (l : list xml_node) (d : option string) : option string :=
  foldl (fun r n => if streq (x_name n) name then x_text n else r) d (elements_of l).

(** An authenticator for one user. *)
Definition for_user (a : auth) (user password : option string) : Prop :=
  exists u p, user = Some u /\ password = Some p /\ a_backend a = BackendStatic (Some u) p.

(** The roles the section's [role] elements make, in their order. *)
Definition section_roles (l : list xml_node) (r : list auth * Z) : list auth * Z :=
  foldl (fun r n => if streq (x_name n) "role" then push_auth httpp_req_unknown httpp_str_to_method n r else r) r l.

Definition last_text (name : string) (l : list xml_node) (d : option string) : option string :=
  foldl (fun r n => if streq (x_name n) name then x_text n else r) d l.

Lemma sections_given l a :
  let r := foldl (authentication_node httpp_req_unknown httpp_str_to_method) a l in
  as_admin_password r = last_text "admin-password" l (as_admin_password a) /\
  as_admin_username r = last_text "admin-user" l (as_admin_username a) /\
  as_relay_password r = last_text "relay-password" l (as_relay_password a) /\
  as_relay_username r = last_text "relay-user" l (as_relay_username a) /\
  (as_new_style r, as_next_id r) = section_roles l (as_new_style a, as_next_id a).
Proof.
  cbn zeta. unfold last_text, section_roles. revert a. induction l as [|n l IH]; intros a; [done|]. cbn [foldl].
  destruct (IH (authentication_node httpp_req_unknown httpp_str_to_method a n)) as (-> & -> & -> & -> & ->). clear.
  destruct a as [sp ap au rp ru su st id], n as [name text props children blank].
  cbn [as_admin_password as_admin_username as_relay_password as_relay_username as_new_style as_next_id x_name x_text].
  unfold authentication_node. cbn [x_name x_text]. by_name; try done.
  all: try (destruct (xmlGetProp _ _); done).
Qed.
(** What a section must say for a role of the older form: a user's name and
    a password. *)
Definition both (user password : option string) : bool := bool_decide (is_Some user) && bool_decide (is_Some password).

(** The legacy roles. *)
Definition append := append_old_style_auth httpp_req_unknown httpp_str_to_method.

Hypothesis methods_known : Forall known ["get"; "post"; "head"; "stats"]%string.

Ltac known_methods := pose proof methods_known as K; rewrite !Forall_cons in K; destruct K as (? & ? & ? & ? & _);
  rewrite ?Forall_cons, ?Forall_nil; split_and?; assumption || exact I.

Lemma push_admin u p r :
  exists a id, append (Some "legacy-admin"%string) "static" (Some u) (Some p) None (Some "get,post,head,stats"%string) true
      (Some "*"%string) r = (r.1 ++ [a], id) /\
    a_backend a = BackendStatic (Some u) p /\ forall cmd, test_admin a cmd = ACL_POLICY_ALLOW.
Proof.
  destruct r as [stack id].
  pose proof (push_role (Some "legacy-admin"%string) "static" (Some u) (Some p) ["get"; "post"; "head"; "stats"]%string true
    (Some "*"%string) _ stack id ltac:(known_methods) ltac:(done) ltac:(known_methods) ltac:(solve_items) ltac:(auto)
    (static_backend u p)) as E.
  eexists _, _. split; [exact E|]. split; [reflexivity|]. intros cmd. reflexivity.
Qed.

Lemma push_relay u p r :
  exists a id, append (Some "legacy-relay"%string) "static" (Some u) (Some p) None (Some "get"%string) true
      (Some "streamlist.txt"%string) r = (r.1 ++ [a], id) /\
    a_backend a = BackendStatic (Some u) p /\ role_limits a [cmd_buildm3u; cmd_streamlist] ["get"]%string.
Proof.
  destruct r as [stack id].
  pose proof (push_role (Some "legacy-relay"%string) "static" (Some u) (Some p) ["get"]%string true
    (Some "streamlist.txt"%string) _ stack id ltac:(known_methods) ltac:(done) ltac:(known_methods) ltac:(solve_items)
    ltac:(auto) (static_backend u p)) as E.
  eexists _, _. split; [exact E|]. split; [reflexivity|].
  eapply (limits_ok _ ["get"]%string (Some "streamlist.txt"%string)); [known_methods|auto|reflexivity].
Qed.

(** The two roles that depend on the section. *)
Lemma optional_role (push : string -> string -> list auth * Z -> list auth * Z) (P : auth -> Prop) password user r :
  (forall u p r, exists a id, push u p r = (r.1 ++ [a], id) /\ a_backend a = BackendStatic (Some u) p /\ P a) ->
  exists role id,
    match password, user with Some p, Some u => push u p r | _, _ => r end = (r.1 ++ option_list role, id) /\
    bool_decide (is_Some role) = both user password /\
    forall a, role = Some a -> (exists p, password = Some p /\ a_backend a = BackendStatic user p) /\ P a.
Proof.
  intros H. destruct r as [stack id]. destruct password as [p|], user as [u|].
  1: { destruct (H u p (stack, id)) as (a & id' & E & B & L). exists (Some a), id'.
       split_and!; [exact E|done|]. intros ? [= <-]. eauto. }
  all: exists None, id; split_and!; [by rewrite app_nil_r|done|done].
Qed.

Lemma push_anonymous r :
  exists a id, append (Some "anonymous"%string) "anonymous" None None None (Some "get,post,head"%string) true None r =
      (r.1 ++ [a], id) /\
    a_backend a = BackendAnonymous /\ role_limits a [cmd_buildm3u] ["get"; "post"; "head"]%string.
Proof.
  destruct r as [stack id].
  pose proof (push_role (Some "anonymous"%string) "anonymous" None None ["get"; "post"; "head"]%string true
    None _ stack id ltac:(known_methods) ltac:(done) ltac:(known_methods) ltac:(solve_items) ltac:(auto)
    anonymous_backend) as E.
  eexists _, _. split; [exact E|]. split; [reflexivity|].
  eapply (limits_ok _ ["get"; "post"; "head"]%string None); [known_methods|auto|reflexivity].
Qed.

(** the roles of an [<authentication>] section: the administrator's and
    the relays', each where the section gives both a user and a password,
    then the section's own roles in their order, and at the end the one of
    anybody. Nobody gets more than meant: who gives no credentials may use
    GET, POST and HEAD and the command for playlists; a relay GET and the
    list of streams as well; the administrator's role and the relays' are for
    the one user with the one password. *)
Theorem server_roles l c sp id :
  let es := elements_of l in
  let user := last_text "admin-user" es None in
  let relay_user := last_text "relay-user" es (Some "relay"%string) in
  let password := last_text "admin-password" es None in
  let relay_password := last_text "relay-password" es None in
  let '(c', _, _) := parse_authentication httpp_req_unknown httpp_str_to_method l c sp id in
  exists admin relay anonymous,
    cf_authstack c' = option_list admin ++ option_list relay ++ (section_roles es ([], id)).1 ++ [anonymous] /\
    bool_decide (is_Some admin) = both user password /\
    bool_decide (is_Some relay) = both relay_user relay_password /\
    (forall a, admin = Some a ->
       (exists p, password = Some p /\ a_backend a = BackendStatic user p) /\
       (forall cmd, test_admin a cmd = ACL_POLICY_ALLOW)) /\
    (forall a, relay = Some a ->
       (exists p, relay_password = Some p /\ a_backend a = BackendStatic relay_user p) /\
       role_limits a [cmd_buildm3u; cmd_streamlist] ["get"]%string) /\
    a_backend anonymous = BackendAnonymous /\
    role_limits anonymous [cmd_buildm3u] ["get"; "post"; "head"]%string.
Proof.
  cbn zeta. unfold parse_authentication.
  set (a0 := AuthSection sp None None None (Some "relay"%string) (cf_text c T_shoutcast_user) [] id).
  pose proof (sections_given (elements_of l) a0) as (E1 & E2 & E3 & E4 & E5). cbn [a0 as_admin_password as_admin_username
    as_relay_password as_relay_username as_new_style as_next_id] in E1, E2, E3, E4, E5.
  destruct (foldl _ a0 _) as [sp' ap au rp ru su st id']. cbn in E1, E2, E3, E4, E5.
  rewrite <- E1, <- E2, <- E3, <- E4, <- E5. clear E1 E2 E3 E4 E5.
  change (append_old_style_auth httpp_req_unknown httpp_str_to_method) with append.
  destruct (optional_role (fun u p => append (Some "legacy-admin"%string) "static" (Some u) (Some p) None
    (Some "get,post,head,stats"%string) true (Some "*"%string)) _ ap au ([], id') push_admin) as (admin & i1 & E1 & A1 & A2).
  destruct (optional_role (fun u p => append (Some "legacy-relay"%string) "static" (Some u) (Some p) None
    (Some "get"%string) true (Some "streamlist.txt"%string)) _ rp ru (option_list admin, i1) push_relay)
    as (relay & i2 & E2 & R1 & R2).
  assert (match ap, au with
          | Some _, Some _ => append (Some "legacy-admin"%string) "static" au ap None
                                (Some "get,post,head,stats"%string) true (Some "*"%string) ([], id')
          | _, _ => ([], id')
          end = (option_list admin, i1)) as -> by by destruct ap, au.
  assert (match rp, ru with
          | Some _, Some _ => append (Some "legacy-relay"%string) "static" ru rp None
                                (Some "get"%string) true (Some "streamlist.txt"%string) (option_list admin, i1)
          | _, _ => (option_list admin, i1)
          end = (option_list admin ++ option_list relay, i2)) as -> by by destruct rp, ru.
  destruct (push_anonymous (auth_stack_append (option_list admin ++ option_list relay) st, i2)) as (anonymous & i3 & E3 & N1 & N2).
  rewrite E3. exists admin, relay, anonymous. split; [cbn; unfold auth_stack_append; by rewrite !app_assoc|done].
Qed.
End roles.

(** The section of the document of [ConfigFacts.v]. *)
Definition section : list xml_node :=
  [text_node "source-password" "hackme"; text_node "relay-password" "relay";
   text_node "admin-user" "root"; text_node "admin-password" "secret"].

Lemma server_roles_witness :
  let '(c, _, _) := parse_authentication 7 document_method section (config_init_configuration "2.4" "HIGH") None 0 in
  exists admin relay anonymous, cf_authstack c = [admin; relay; anonymous] /\
    a_backend admin = BackendStatic (Some "root"%string) "secret" /\
    a_backend relay = BackendStatic (Some "relay"%string) "relay" /\
    role_limits 0 7 document_method relay [cmd_buildm3u; cmd_streamlist] ["get"]%string /\
    role_limits 0 7 document_method anonymous [cmd_buildm3u] ["get"; "post"; "head"]%string.
Proof.
  assert (Forall (known 7 document_method) ["get"; "post"; "head"; "stats"]%string) as K.
  { repeat (apply Forall_cons; split; [split; vm_compute; congruence|]). apply Forall_nil. exact I. }
  pose proof (server_roles 0 7 document_method K section (config_init_configuration "2.4" "HIGH") None 0) as H.
  cbn zeta in H. destruct (parse_authentication _ _ _ _ _ _) as [[c ?] ?].
  destruct H as (admin & relay & anonymous & E & A & R & HA & HR & _ & N).
  destruct admin as [a|]; [|discriminate A]. destruct relay as [r|]; [|discriminate R].
  destruct (HA a eq_refl) as [(p & P & Ba) _]. destruct (HR r eq_refl) as [(q & Q & Br) L].
  exists a, r, anonymous. split; [exact E|]. split; [|split; [|exact (conj L N)]].
  - rewrite Ba. change (Some "secret"%string = Some p) in P. injection P as <-. reflexivity.
  - rewrite Br. change (Some "relay"%string = Some q) in Q. injection Q as <-. reflexivity.
Defined.
