(* ===== verification/Startup.v ===== *)
(** The start of a source client, [connection.c] and [source.c]: the request,
    the answer it gets, and what happens when the connection is lost before
    the source's thread is made.

    The answer is sent by the file server, which then calls
    [source_client_callback]; the encodings are those of the httpp
    submodule. *)

From S2P Require Import Prelude Acl Errors Stats Mounts MountsFacts AuthUrl Connection Slave SlaveThreads.
Local Open Scope Z_scope.

(** What becomes of the request of a source. *)
Inductive startup :=
| NoSlash                          (** the mount does not start with a slash *)
| MountInUse
| NotCompleted (c : completion)
| UnknownEncoding
| ThreadStarted                    (** at once, for the older protocol *)
| AwaitsAnswer (status : Z).       (** until the answer has been sent *)

(** The error that is answered. *)
Definition startup_error (s : startup) : option Z :=
  match s with
  | NoSlash => Some ICECAST_ERROR_CON_MOUNTPOINT_NOT_STARTING_WITH_SLASH
  | MountInUse => Some ICECAST_ERROR_CON_MOUNT_IN_USE
  | NotCompleted NoContentType => Some ICECAST_ERROR_CON_NO_CONTENT_TYPE_GIVEN
  | NotCompleted PluginFailed => Some ICECAST_ERROR_CON_INTERNAL_FORMAT_ALLOC_ERROR
  | NotCompleted SourceLimit => Some ICECAST_ERROR_CON_SOURCE_CLIENT_LIMIT
  | UnknownEncoding => Some ICECAST_ERROR_CON_UNIMPLEMENTED
  | NotCompleted Completed | ThreadStarted | AwaitsAnswer _ => None
  end.

(** The request of a source. *)
Record source_request := Source_request {
  sr_var : string -> option string;
  sr_put : bool;
  sr_shoutcast : bool;
  sr_ip : string;
  sr_plugin : bool                 (** the plugin can be set up *)
}.

Section startup.
Variable fnmatch : string -> string -> bool.
Variable x : surroundings.
(** The name of the encoding that is none, and the other encodings. *)
Variable identity : string.
Variable encoding_new : string -> bool.

(** [source_client_callback], up to the making of the thread; without the
    buffer. *)
Definition source_client_callback (error : bool) (mount : string) (r : source_request) (g : server) : option server :=
  if error then
    let g := set_count (g_count g - 1) g in
    g ← source_clear_source mount g;
    source_free_source mount g
  else
    let g := emit (fun q => q ++ [build_event (Some mount) (Some "source_ip"%string) (Some (sr_ip r))]) g in
    Some (match sr_var r "user-agent" with
          | Some agent => emit (fun q => q ++ [build_event (Some mount) (Some "user_agent"%string) (Some agent)]) g
          | None => g
          end).

(** [source_client_thread], around [source_main]. *)
Definition source_thread_start (config : ice_config) (mount : string) (g : server) : option server :=
  let g := emit (stats_event_inc None "source_client_connections") g in
  let g := emit (fun q => q ++ [build_event (Some mount) (Some "listeners"%string) (Some "0"%string)]) g in
  source_init fnmatch config mount g.

Definition source_thread_end (config : ice_config) (mount : string) (g : server) (n : notices) : option (server * notices) :=
  g ← source_shutdown fnmatch config mount g;
  g ← source_free_source mount g;
  Some (g, slave_update_all_mounts n).

(** The status of the answer: 100 where the client waits for it. *)
Definition expect_status (expect : option string) : Z :=
  match expect with
  | Some e => if bool_decide (is_Some (strstr_at "100-continue" (string_lower e))) then 100 else 200
  | None => 200
  end.

(** [source_startup]. *)
Definition source_startup (config : ice_config) (source_limit : Z) (r : source_request) (uri : string) (g : server) (n : notices)
    : option (startup * server * notices) :=
  match source_reserve uri g with
  | None => Some (MountInUse, g, n)
  | Some g =>
      g ← upd_source uri (fun s => set_s_client true true (s_format s) s) g;
      '(c, g, n) ← connection_complete_source fnmatch x config source_limit (sr_var r "content-type") (sr_put r) (sr_plugin r) uri g n;
      match c with
      | Completed =>
          if sr_shoutcast r then
            g ← source_client_callback false uri r g; Some (ThreadStarted, g, n)
          else
            let unknown :=
              match sr_var r "transfer-encoding" with
              | Some t => negb (strcaseeq t identity) && negb (encoding_new t)
              | None => false
              end in
            if unknown then Some (UnknownEncoding, g, n)
            else Some (AwaitsAnswer (expect_status (sr_var r "expect")), g, n)
      | _ =>
          g ← upd_source uri (fun s => set_s_client (s_has_con s) false (s_format s) s) g;
          g ← source_clear_source uri g;
          g ← source_free_source uri g;
          Some (NotCompleted c, g, n)
      end
  end.

(** [_handle_source_request]. *)
Definition handle_source_request (config : ice_config) (source_limit : Z) (r : source_request) (uri : string) (g : server)
    (n : notices) : option (startup * server * notices) :=
  if negb (starts_with "/" uri) then Some (NoSlash, g, n) else source_startup config source_limit r uri g n.

(** ** The server after a step *)

(** The sources but for one, and their number. *)
Definition local (mount : string) (g g' : server) : Prop :=
  is_Some (g_sources g' !! mount) /\ delete mount (g_sources g') = delete mount (g_sources g).

Lemma local_upd mount f g : is_Some (g_sources g !! mount) ->
  exists s, g_sources g !! mount = Some s /\ upd_source mount f g = Some (put_source mount (f s) g).
Proof. intros [s E]. exists s. unfold upd_source. by rewrite E. Qed.

Lemma local_put mount s g : local mount g (put_source mount s g).
Proof. split; cbn; [rewrite lookup_insert_eq; by eexists|by rewrite delete_insert_eq]. Qed.

Lemma local_trans mount g1 g2 g3 : local mount g1 g2 -> local mount g2 g3 -> local mount g1 g3.
Proof. intros [_ A] [B C]. split; [done|congruence]. Qed.

Lemma local_same mount g g1 g2 : g_sources g2 = g_sources g1 -> local mount g g1 -> local mount g g2.
Proof. unfold local. by intros ->. Qed.

(** The calls that tell the statistics of a source leave the number of
    sources. *)
Lemma count_stat_text y m n a b c d g : g_count (stat_text y m n a b c d g) = g_count g.
Proof. unfold stat_text. destruct a; [done|]. by destruct (or_text _ _), d. Qed.

Lemma count_apply_stats y m s i g : g_count (apply_stats y m s i g) = g_count g.
Proof.
  unfold apply_stats. set (a := (i ≫= mp_subtype)). set (b := (i ≫= mp_mime_type)).
  set (h := bool_decide (s_format s <> None)). clearbody a b h.
  destruct a, b, h; cbn [stat emit g_count]; by rewrite !count_stat_text.
Qed.

Lemma settings_local config m i g : is_Some (g_sources g !! m) ->
  exists g' s s', g_sources g !! m = Some s /\ source_update_settings x config m i g = Some g' /\ local m g g' /\
    g_count g' = g_count g /\ g_sources g' !! m = Some s' /\ s_running s' = s_running s.
Proof.
  intros [s E]. unfold source_update_settings. rewrite E. cbn [mbind option_bind].
  assert (local m g (emit (stats_event_hidden (Some m) None true) g)) as H by (split; [by exists s|done]).
  destruct (s_running s && negb (s_has_client s)); [eexists _, s, s; split_and!; try done; exact H|].
  match goal with |- context [source_apply_mount x config m ?s1 i ?g1] => set (s1' := s1); set (g1' := g1) end.
  assert (g_count (source_apply_mount x config m s1' i g1') = g_count g) as C.
  { unfold source_apply_mount. cbn [put_source g_count]. rewrite count_apply_stats. by destruct (_ =? _). }
  destruct (apply_mount_places x config m s1' i g1') as (g2 & [P1 P2] & Q). rewrite Q in *. rewrite put_lookup. cbn [mbind option_bind].
  eexists _, s, _. split_and!; [done|reflexivity|..].
  - eapply (local_same _ _ (put_source m _ g2)); [by destruct (s_on_demand _)|].
    eapply local_trans; [|apply local_put]. split; [rewrite P1; by exists s|by rewrite P1].
  - destruct (s_on_demand _); exact C.
  - destruct (s_on_demand _); apply put_lookup.
  - done.
Qed.

Lemma clear_local m g : is_Some (g_sources g !! m) ->
  exists g', source_clear_source m g = Some g' /\ local m g g' /\ g_count g' = g_count g.
Proof.
  intros [s E]. unfold source_clear_source. rewrite E. run_bind. eexists. split; [reflexivity|].
  split; [|by destruct (bool_decide _)].
  eapply local_trans; [|apply local_put]. split; [exists s|]; by destruct (bool_decide _).
Qed.

Lemma free_local m g : is_Some (g_sources g !! m) ->
  exists g', source_free_source m g = Some g' /\ g_sources g' = delete m (g_sources g) /\ g_count g' = g_count g.
Proof. intros [s E]. unfold source_free_source. rewrite E. run_bind. by eexists. Qed.

(** A source that is cleared and freed leaves the others. *)
Lemma clear_and_free m g0 g : g_sources g0 !! m = None -> local m g0 g ->
  exists g1 g2, source_clear_source m g = Some g1 /\ source_free_source m g1 = Some g2 /\
    g_sources g2 = g_sources g0 /\ g_count g2 = g_count g.
Proof.
  intros N [S D]. destruct (clear_local m g S) as (g1 & E1 & [S1 D1] & C1). destruct (free_local m g1 S1) as (g2 & E2 & D2 & C2).
  exists g1, g2. split_and!; [done|done| |congruence]. rewrite D2, D1, D. by apply delete_id.
Qed.

Lemma complete_local config limit ct put plugin m g n : is_Some (g_sources g !! m) ->
  exists c g' n', connection_complete_source fnmatch x config limit ct put plugin m g n = Some (c, g', n') /\ local m g g' /\
    match c with
    | Completed => g_count g' = g_count g + 1 /\ exists s, g_sources g' !! m = Some s /\ s_running s = true
    | _ => g' = g
    end.
Proof.
  intros S. assert (local m g g) as R by done.
  assert (forall f, exists c g' n', complete_source fnmatch x config f plugin m g n = Some (c, g', n') /\ local m g g' /\
    match c with
    | Completed => g_count g' = g_count g + 1 /\ exists s, g_sources g' !! m = Some s /\ s_running s = true
    | _ => g' = g
    end) as K.
  { intros f. unfold complete_source. destruct plugin; cbn [negb]; [|by exists PluginFailed, g, n].
    destruct (local_upd m (fun s => set_running true (set_s_client (s_has_con s) (s_has_client s) (Some f) s)) g S) as (s & L & ->).
    run_bind. match goal with |- context [source_update_settings x config m ?i ?h] =>
      destruct (settings_local config m i h) as (g' & s0 & s' & L0 & E & H & C & L' & Q) end.
    { rewrite put_lookup || cbn; rewrite lookup_insert_eq. by eexists. }
    rewrite E. run_bind. eexists Completed, g', _. split; [reflexivity|]. split.
    - eapply local_trans; [|exact H]. exact (local_put m (set_running true (set_s_client (s_has_con s) (s_has_client s) (Some f) s)) g).
    - split; [by rewrite C|]. exists s'. split; [done|]. rewrite Q. cbn in L0. rewrite lookup_insert_eq in L0. by injection L0 as <-. }
  unfold connection_complete_source. destruct (g_count g <? limit); [|by exists SourceLimit, g, n].
  destruct ct as [t|]; [apply K|]. destruct put; [by exists NoContentType, g, n|apply K].
Qed.

(** What the start of a source leaves. *)
Definition started (uri : string) (r : source_request) (g g' : server) (s : startup) : Prop :=
  match s with
  | NoSlash => starts_with "/" uri = false /\ g' = g
  | MountInUse => False
  | NotCompleted c => c <> Completed /\ g_sources g' = g_sources g /\ g_count g' = g_count g
  | UnknownEncoding | ThreadStarted | AwaitsAnswer _ =>
      local uri g g' /\ g_count g' = g_count g + 1 /\ (exists src, g_sources g' !! uri = Some src /\ s_running src = true) /\
      exists g2, source_client_callback true uri r g' = Some g2 /\ g_sources g2 = g_sources g /\ g_count g2 = g_count g
  end.

(** The request of a source has one of its outcomes: it is refused, and leaves
    the mounts and their number as they were; or its mount is there and runs,
    the others untouched and the number one higher, until it ends: where its
    connection is lost before the thread is made, all is as before. *)
Theorem startup_spec config limit r uri g n :
  exists s g' n', handle_source_request config limit r uri g n = Some (s, g', n') /\
  match g_sources g !! uri with
  | Some _ => if starts_with "/" uri then s = MountInUse /\ g' = g else started uri r g g' s
  | None => started uri r g g' s
  end.
Proof.
  unfold handle_source_request. destruct (starts_with "/" uri) eqn:W; cbn [negb]; [|exists NoSlash, g, n; by case_match].
  unfold source_startup, source_reserve, source_find_mount_raw. destruct (g_sources g !! uri) as [s0|] eqn:N; [by exists MountInUse, g, n|].
  set (g0 := put_source uri (new_source uri) g). assert (is_Some (g_sources g0 !! uri)) as S0 by (cbn; rewrite lookup_insert_eq; by eexists).
  assert (local uri g g0) as L0 by apply local_put.
  destruct (local_upd uri (fun s => set_s_client true true (s_format s) s) g0 S0) as (s1 & _ & ->). run_bind.
  set (g1 := put_source uri _ g0). assert (local uri g g1) as L1 by (eapply local_trans; [exact L0|apply local_put]).
  destruct (complete_local config limit (sr_var r "content-type") (sr_put r) (sr_plugin r) uri g1 n (proj1 L1)) as (c & g2 & n' & E & L2 & C).
  rewrite E. run_bind. assert (local uri g g2) as L by (eapply local_trans; [exact L1|exact L2]).
  assert (forall h, local uri g h -> exists g3, source_client_callback true uri r h = Some g3 /\ g_sources g3 = g_sources g /\
    g_count g3 = g_count h - 1) as Lost.
  { intros h H. unfold source_client_callback. destruct (clear_and_free uri g (set_count (g_count h - 1) h)) as (a & b & A & B & D & F); [done|by apply (local_same _ _ h)|].
    rewrite A. run_bind. by exists b. }
  assert (c <> Completed -> exists s g' n'0, (g3 ← upd_source uri (fun s => set_s_client (s_has_con s) false (s_format s) s) g2;
    g3 ← source_clear_source uri g3; g3 ← source_free_source uri g3; Some (NotCompleted c, g3, n')) = Some (s, g', n'0) /\ started uri r g g' s) as Bad.
  { intros NC. destruct (local_upd uri (fun s => set_s_client (s_has_con s) false (s_format s) s) g2 (proj1 L)) as (s2 & _ & ->). run_bind.
    match goal with |- context [source_clear_source uri ?h] => destruct (clear_and_free uri g h) as (a & b & A & B & D & F);
      [done|eapply local_trans; [exact L|apply local_put]|] end.
    rewrite A. run_bind. rewrite B. run_bind. exists (NotCompleted c), b, n'. split; [done|]. split_and!; [done|done|].
    rewrite F. destruct c; [done|..]; by rewrite C. }
  destruct c; [clear Bad|by apply Bad..]. destruct C as [C [src [R1 R2]]].
  assert (g_count g2 = g_count g + 1) as C' by (rewrite C; reflexivity).
  destruct (sr_shoutcast r).
  - cbn [source_client_callback]. run_bind. eexists ThreadStarted, _, n'. split; [reflexivity|].
    match goal with |- started _ _ _ ?h _ => assert (g_sources h = g_sources g2 /\ g_count h = g_count g2) as [H1 H2] by (by case_match) end.
    unfold started. rewrite H1, H2. split_and!; [by apply (local_same _ _ g2)|done|by exists src|].
    edestruct Lost as (g3 & A & B & D); [|exists g3; split; [exact A|]; split; [done|rewrite D, H2; lia]]. by apply (local_same _ _ g2).
  - destruct (match sr_var r "transfer-encoding" with Some _ => _ | None => _ end);
      [exists UnknownEncoding, g2, n'|eexists (AwaitsAnswer _), g2, n']; (split; [reflexivity|]); unfold started;
      (split_and!; [done|done|by exists src|]); destruct (Lost g2 L) as (g3 & A & B & D); exists g3; split_and!; try done; lia.
Qed.
End startup.

(** ** What goes wrong *)

(** A source that asks for an encoding there is not gets an error, but its
    mount stays in use, for good: no thread is made that would free it. *)
Definition demo_source_request : source_request :=
  Source_request (fun v => if streq v "transfer-encoding" then Some "gzip"%string else None) false false "::1" true.

Example unknown_encoding_stays :
  match handle_source_request streq demo_surroundings "identity" (fun _ => false) demo_config 10 demo_source_request "/a"
          (Server ∅ [] 0 [] []) demo_notices with
  | Some (UnknownEncoding, g, n) =>
      is_Some (g_sources g !! "/a"%string) /\ g_count g = 1 /\
      match handle_source_request streq demo_surroundings "identity" (fun _ => true) demo_config 10 demo_source_request "/a" g n with
      | Some (s, _, _) => s = MountInUse
      | None => False
      end
  | _ => False
  end.
Proof. vm_compute. by split_and!; [eexists|..]. Qed.
