(* ===== verification/Fserve.v ===== *)
(** The serving of files, [fserve.c]: the table of types, the answer to a
    request for a file or a part of it, generated playlists, and the thread
    that sends headers and files to its clients. *)

From S2P Require Import Prelude Uri Errors Http.
Local Open Scope Z_scope.

Definition BUFSIZE : Z := 4096.

(** ** The table of types *)

(** The buffer of a line: each line is read over what the ones before left. *)
Abbreviation line_buffer := (list ascii).

Definition fill_line (line : string) (buf : line_buffer) : line_buffer :=
  String.list_ascii_of_string line ++ NUL :: drop (S (String.length line)) buf.

(** The first place from [cur] where a character satisfies [stop]; [None]
    where there is none before the end of the buffer. *)
Fixpoint scan_from (stop : ascii -> bool) (rest : line_buffer) (cur : nat) : option nat :=
  match rest with
  | [] => None
  | c :: r => if stop c then Some cur else scan_from stop r (S cur)
  end.

Definition scan (stop : ascii -> bool) (buf : line_buffer) (cur : nat) : option nat := scan_from stop (drop cur buf) cur.

Definition blank (c : ascii) : bool := Ascii.eqb c " " || Ascii.eqb c (chr 9).
Definition is_nul (c : ascii) : bool := Ascii.eqb c NUL.

(** The text at a place. *)
Fixpoint text_at (buf : line_buffer) : string :=
  match buf with
  | [] => EmptyString
  | c :: r => if is_nul c then EmptyString else String c (text_at r)
  end.

(** The loop over the extensions of a line; [None] where it reads behind the
    buffer. *)
Fixpoint ext_loop (fuel : nat) (buf : line_buffer) (cur : nat) : option (list string) :=
  match fuel with
  | O => None
  | S fuel' =>
      cur ← scan (fun c => negb (blank c)) buf cur;
      c ← buf !! cur;
      if is_nul c then Some []
      else
        e ← scan (fun c => blank c || Ascii.eqb c (chr 10) || is_nul c) buf cur;
        let buf := <[e := NUL]> buf in
        let ext := text_at (drop cur buf) in
        l ← ext_loop fuel' buf (S e);
        Some (match ext with EmptyString => l | _ => ext :: l end)
  end.

(** A line of [fserve_recheck_mime_types]: its type and extensions. *)
Definition mime_line (buf : line_buffer) : option (string * list string) :=
  c ← buf !! 0%nat;
  if is_nul c || Ascii.eqb c "#" then Some (EmptyString, [])
  else
    cur ← scan (fun c => blank c || is_nul c) buf 0;
    c ← buf !! cur;
    if is_nul c then Some (EmptyString, [])
    else
      let buf := <[cur := NUL]> buf in
      l ← ext_loop (S (length buf)) buf (S cur);
      Some (text_at buf, l).

Fixpoint mime_lines (lines : list string) (buf : line_buffer) (types : gmap string string) : option (gmap string string) :=
  match lines with
  | [] => Some types
  | line :: r =>
      let buf := fill_line line buf in
      '(type, exts) ← mime_line buf;
      mime_lines r buf (foldl (fun m e => <[e := type]> m) types exts)
  end.

(** [fserve_recheck_mime_types], given the pieces [fgets] reads of the file,
    where there is one, and what the buffer holds before. *)
Definition fserve_recheck_mime_types (file : option (list string)) (buf : line_buffer) (mimetypes : gmap string string) :
    option (gmap string string) :=
  match file with
  | None => Some mimetypes
  | Some lines => mime_lines lines buf ∅
  end.

Definition fserve_content_type (mimetypes : gmap string string) (path : string) : string :=
  let ext := util_get_extension path in
  match mimetypes !! ext with
  | Some t => t
  | None =>
      if streq ext "ogg" then "application/ogg"
      else if streq ext "mp3" then "audio/mpeg"
      else if streq ext "html" then "text/html"
      else if streq ext "css" then "text/css"
      else if streq ext "txt" then "text/plain"
      else if streq ext "jpg" then "image/jpeg"
      else if streq ext "png" then "image/png"
      else if streq ext "m3u" then "audio/x-mpegurl"
      else if streq ext "aac" then "audio/aac"
      else "application/octet-stream"
  end.

(** ** The answer to a request *)

(** [sscanf (s, "%ld-", ...)]: the number, where there is one. *)
Definition scan_offset (s : string) : option Z :=
  let '(v, rest) := strtol s in
  if streq rest s then None else Some v.

(** The part of a file of some length that is asked for: where it starts, its
    length, and its last byte as the answer names it. *)
Inductive part :=
| Whole
| From (start new_content_len endpos : Z)
| Unsatisfiable.

Definition requested_part (range : option string) (content_length : Z) : part :=
  match range with
  | None => Whole
  | Some range =>
      match (if strcaseeq (string_take 6 range) "bytes=" then scan_offset (string_drop 6 range) else None) with
      | None => Unsatisfiable
      | Some n =>
          if n <? 0 then Unsatisfiable
          else
            let len := content_length - n in
            if len <? 0 then Unsatisfiable
            else From n len (if n + len - 1 <? 0 then 0 else n + len - 1)
      end
  end.

Definition length_headers (len : Z) : string :=
  ("Accept-Ranges: bytes" +:+ crlf +:+ "Content-Length: " +:+ dec len +:+ crlf)%string.
Definition range_header (start endpos total : Z) : string :=
  ("Content-Range: bytes " +:+ dec start +:+ "-" +:+ dec endpos +:+ "/" +:+ dec total +:+ crlf)%string.

(** A client of the thread: the text of its buffer and how much of it is
    sent, the text of the next buffer, and what is left of its file. *)
Record fserve_client := FserveClient {
  fc_data : string;
  fc_pos : nat;
  fc_next : option string;
  fc_file : option string;
  fc_ready : bool
}.

Inductive fserve_answer :=
| FserveError (id : Z)
| FserveClientAdded (respcode : Z) (c : fserve_client)
| FserveXspf (reference stylesheet : string).

(** A path up to its last dot. *)
Definition without_extension (path : string) : string :=
  match strrchr "." path with
  | Some ext => string_take (String.length path - String.length ext - 1) path
  | None => path
  end.

(** What is on the disk at a path. *)
Inductive disk_entry := NoEntry | Special | Unreadable | Regular (content : string).

(** [fserve_client_create]. *)
Definition fserve_client_create (x : http_context) (client : http_client) (mimetypes : gmap string string)
    (hostname : string) (port : Z) (fileserve : bool) (webroot : string) (host range : option string) (path : string)
    (entry : disk_entry) : fserve_answer :=
  let fullpath := util_get_path_from_normalised_uri webroot path in
  let ext := util_get_extension fullpath in
  let header (status : Z) (type : string) (data : option string) :=
    util_http_build_header EmptyString BUFSIZE 0 x false status None (Some type) None data (Some client) in
  let playlist := if streq ext "xspf" then Some "xspf.xsl"%string
                  else if streq ext "vclt" then Some "vclt.xsl"%string else None in
  let missing := match entry with NoEntry => true | _ => false end in
  if missing && negb (streq ext "m3u") && bool_decide (playlist = None) then FserveError ICECAST_ERROR_FSERV_FILE_NOT_FOUND
  else if missing && streq ext "m3u" then
    let host := match host with
                | Some h => match strchr ":" h with Some _ => Some h | None => None end
                | None => None
                end in
    let '(text, ret) := header 200 "audio/x-mpegurl"%string (Some EmptyString) in
    if BUFSIZE - 512 <=? ret then FserveError ICECAST_ERROR_GEN_HEADER_GEN_FAILED
    else
      let address := match host with
                     | None => hostname +:+ ":" +:+ dec port
                     | Some h => h
                     end%string in
      let line := ("http://" +:+ address +:+ without_extension path +:+ crlf)%string in
      FserveClientAdded 200 (FserveClient (text +:+ fst (snprintf (Z.to_nat (BUFSIZE - ret)) line)) 0 None None false)
  else
    match missing, playlist with
    | true, Some stylesheet => FserveXspf (without_extension path) stylesheet
    | _, _ =>
        if negb fileserve then FserveError ICECAST_ERROR_FSERV_FILE_NOT_FOUND
        else
          match entry with
          | NoEntry | Special => FserveError ICECAST_ERROR_FSERV_FILE_NOT_FOUND
          | Unreadable => FserveError ICECAST_ERROR_FSERV_FILE_NOT_READABLE
          | Regular content =>
              let total := strlen content in
              let type := fserve_content_type mimetypes path in
              let answer (status : Z) (more : string) (start : Z) :=
                let '(text, bytes) := header status type None in
                if BUFSIZE - 512 <=? bytes then FserveError ICECAST_ERROR_GEN_HEADER_GEN_FAILED
                else
                  FserveClientAdded status
                    (FserveClient (text +:+ fst (snprintf (Z.to_nat (BUFSIZE - bytes)) (more +:+ crlf))) 0 None
                       (Some (string_drop (Z.to_nat start) content)) false) in
              match requested_part range total with
              | Whole => answer 200 (length_headers total) 0
              | From start len endpos => answer 206 (length_headers len +:+ range_header start endpos total)%string start
              | Unsatisfiable => FserveError ICECAST_ERROR_FSERV_REQUEST_RANGE_NOT_SATISFIABLE
              end
          end
    end.

(** ** The thread *)

(** What a client's connection does with a write: how much it takes, or that
    it failed. *)
Inductive written := Sent (n : nat) | ConnectionError.

(** What becomes of a client in a turn: bytes sent, and the client, or that it
    is let go. *)
Inductive turn_end := Keeps (c : fserve_client) | LetGo.

(** The new chunk of a client whose buffer is sent. *)
Definition next_chunk (c : fserve_client) : option fserve_client :=
  let '(bytes, rest) := match fc_file c with
                        | Some f => (string_take (Z.to_nat BUFSIZE) f, Some (string_drop (Z.to_nat BUFSIZE) f))
                        | None => (EmptyString, None)
                        end in
  match bytes with
  | EmptyString =>
      match fc_next c with
      | None => None
      | Some data => Some (FserveClient data 0 None rest (fc_ready c))
      end
  | _ => Some (FserveClient bytes 0 (fc_next c) rest (fc_ready c))
  end.

(** A turn of [fserv_thread_function] for a client. *)
Definition serve_client (w : written) (c : fserve_client) : string * turn_end :=
  if negb (fc_ready c) then (EmptyString, Keeps c)
  else
    let c := FserveClient (fc_data c) (fc_pos c) (fc_next c) (fc_file c) false in
    match (if (fc_pos c =? String.length (fc_data c))%nat then next_chunk c else Some c) with
    | None => (EmptyString, LetGo)
    | Some c =>
        match w with
        | ConnectionError => (EmptyString, LetGo)
        | Sent n =>
            let left := string_drop (fc_pos c) (fc_data c) in
            let n := Nat.min n (String.length left) in
            (string_take n left, Keeps (FserveClient (fc_data c) (fc_pos c + n) (fc_next c) (fc_file c) (fc_ready c)))
        end
    end.

Definition set_ready (c : fserve_client) : fserve_client :=
  FserveClient (fc_data c) (fc_pos c) (fc_next c) (fc_file c) true.

(** The list of clients of the thread: a pass over it, with what [poll] says
    and what each connection does, by the number of the client. *)
Fixpoint serve_pass (ready : Z -> bool) (w : Z -> written) (l : list (Z * fserve_client)) :
    list (Z * string) * list (Z * fserve_client) :=
  match l with
  | [] => ([], [])
  | (i, c) :: r =>
      let c := if ready i then set_ready c else c in
      let '(out, e) := serve_client (w i) c in
      let '(outs, r) := serve_pass ready w r in
      ((i, out) :: outs, match e with Keeps c => (i, c) :: r | LetGo => r end)
  end.

(** [wait_for_fds] moves the clients that were added to the front of the
    list, the one added first in front. *)
Definition add_pending (pending active : list (Z * fserve_client)) : list (Z * fserve_client) := rev pending ++ active.
