(* ===== verification/FserveFacts.v ===== *)
(** What the serving of files promises: a request for a file that is there is
    answered with a header whose length field is true, and whatever portions
    the connection takes, the client is sent the header and the part of the
    file it asked for, whole and in order, and is let go afterwards. *)

From S2P Require Import Prelude Uri Errors Convert StatsFacts Http Fserve.
Local Open Scope Z_scope.

(** ** Sending *)

(** What is still to be sent to a client. *)
Definition unsent (c : fserve_client) : string :=
  (string_drop (fc_pos c) (fc_data c) +:+ default EmptyString (fc_file c) +:+ default EmptyString (fc_next c))%string.

Definition fserve_wf (c : fserve_client) : Prop := (fc_pos c <= String.length (fc_data c))%nat.

(** Turns of one client, for each of which [poll] finds it ready. *)
Fixpoint serve_turns (ws : list written) (c : fserve_client) : string * turn_end :=
  match ws with
  | [] => (EmptyString, Keeps c)
  | w :: r =>
      let '(out, e) := serve_client w (set_ready c) in
      match e with
      | LetGo => (out, LetGo)
      | Keeps c => let '(outs, e) := serve_turns r c in ((out +:+ outs)%string, e)
      end
  end.

Definition takes_some (w : written) : bool := match w with Sent (S _) => true | _ => false end.
Definition no_error (w : written) : bool := match w with Sent _ => true | ConnectionError => false end.

(** The number of turns that suffice. *)
Definition turns_left (c : fserve_client) : nat :=
  String.length (unsent c) + match fc_next c with Some _ => 2 | None => 1 end.

(** A client whose buffer is sent has as much to send after it has got its
    new chunk as before; without a chunk there is nothing more. *)
Lemma next_chunk_unsent c :
  (fc_pos c = String.length (fc_data c))%nat ->
  match next_chunk c with
  | Some c' => unsent c' = unsent c /\ fserve_wf c' /\ fc_ready c' = fc_ready c /\
      ((fc_pos c' < String.length (fc_data c'))%nat /\ fc_next c' = fc_next c \/ fc_next c <> None /\ fc_next c' = None)
  | None => unsent c = EmptyString
  end.
Proof.
  intros P. unfold next_chunk, unsent, fserve_wf. rewrite P, string_drop_length. change (EmptyString +:+ ?x) with x.
  destruct (fc_file c) as [f|].
  - pose proof (string_take_drop (Z.to_nat BUFSIZE) f) as TD.
    destruct (string_take (Z.to_nat BUFSIZE) f) as [|a t] eqn:T.
    + change (EmptyString +:+ ?x) with x in TD.
      assert (f = EmptyString) as -> by (by destruct f). destruct (fc_next c) as [d|]; [|done].
      cbn [fc_data fc_pos fc_next fc_file fc_ready default string_drop].
      split_and!; [|lia|done|by right]. change (string_drop (Z.to_nat BUFSIZE) EmptyString) with EmptyString. by rewrite string_app_nil_r.
    + cbn [fc_data fc_pos fc_next fc_file fc_ready default string_drop]. split_and!; [|lia|done|left; cbn; split; [lia|done]].
      unfold id. by rewrite <- string_app_assoc, TD.
  - destruct (fc_next c) as [d|]; [|done]. cbn. split_and!; [by rewrite string_app_nil_r|lia|done|by right].
Qed.

Lemma serve_client_sends w c :
  fserve_wf c ->
  match serve_client w (set_ready c) with
  | (out, Keeps c') => fserve_wf c' /\ unsent c = (out +:+ unsent c')%string /\
      (takes_some w = true -> (turns_left c' < turns_left c)%nat)
  | (out, LetGo) => out = EmptyString /\ (no_error w = true -> unsent c = EmptyString)
  end.
Proof.
  intros W. unfold serve_client. cbn [set_ready fc_ready negb fc_data fc_pos fc_next fc_file].
  set (c0 := FserveClient _ _ _ _ false). assert (unsent c0 = unsent c) as U by done. assert (fserve_wf c0) as W0 by done.
  assert (turns_left c0 = turns_left c) as TL by done. assert (fc_pos c = fc_pos c0 /\ fc_data c = fc_data c0) as [-> ->] by done.
  rewrite <- U, <- TL. clearbody c0. clear U TL W c.
  assert (match (if (fc_pos c0 =? String.length (fc_data c0))%nat then next_chunk c0 else Some c0) with
    | Some c' => unsent c' = unsent c0 /\ fserve_wf c' /\
        ((fc_pos c' < String.length (fc_data c'))%nat /\ fc_next c' = fc_next c0 \/ fc_next c0 <> None /\ fc_next c' = None)
    | None => unsent c0 = EmptyString end) as K.
  { destruct (Nat.eqb_spec (fc_pos c0) (String.length (fc_data c0))) as [E|N].
    - pose proof (next_chunk_unsent c0 E) as K. destruct (next_chunk c0); [|done].
      destruct K as (? & ? & _ & ?). done.
    - split_and!; [done|done|]. left. unfold fserve_wf in W0. split; [lia|done]. }
  destruct (if _ : bool then _ else _) as [c|]; [|by split]. destruct K as (U & W & K).
  destruct w as [n|]; [|by split]. set (left := string_drop (fc_pos c) (fc_data c)). set (m := Nat.min n (String.length left)).
  assert (String.length left = (String.length (fc_data c) - fc_pos c)%nat) as Ll by apply string_length_drop.
  assert (unsent c0 = (string_take m left +:+ unsent (FserveClient (fc_data c) (fc_pos c + m) (fc_next c) (fc_file c) (fc_ready c)))%string) as E.
  { rewrite <- U. unfold unsent. cbn [fc_data fc_pos fc_next fc_file]. fold left. rewrite <- string_drop_drop. fold left.
    by rewrite <- (string_app_assoc (string_take m left)), string_take_drop. }
  unfold fserve_wf in *. cbn [fc_data fc_pos]. split_and!; [lia|done|]. intros T.
  unfold turns_left. rewrite E, string_length_app, string_length_take. cbn [fc_next].
  destruct n as [|n]; [done|]. destruct K as [[K ->]|[K ->]]; [destruct (fc_next c0); lia|]. destruct (fc_next c0); [lia|done].
Qed.

Lemma serve_turns_send ws : forall c,
  fserve_wf c ->
  let '(out, e) := serve_turns ws c in
  exists rest, unsent c = (out +:+ rest)%string /\
    match e with Keeps c' => rest = unsent c' | LetGo => forallb no_error ws = true -> rest = EmptyString end /\
    (forallb takes_some ws = true -> (turns_left c <= length ws)%nat -> e = LetGo /\ rest = EmptyString).
Proof.
  induction ws as [|w ws IH]; intros c W; cbn [serve_turns].
  { exists (unsent c). split_and!; try done. cbn. unfold turns_left. destruct (fc_next c); lia. }
  pose proof (serve_client_sends w c W) as S. destruct (serve_client w (set_ready c)) as [out [c'|]].
  - destruct S as (W' & E & D). specialize (IH c' W'). destruct (serve_turns ws c') as [outs e].
    destruct IH as (rest & E' & R & T). exists rest. rewrite E, E', string_app_assoc. cbn [forallb length].
    split_and!; [done| |].
    + destruct e; [done|]. by intros [_ H]%andb_true_iff; apply R.
    + intros [H1 H2]%andb_true_iff L. specialize (D H1). apply T; [done|lia].
  - destruct S as [-> H]. exists (unsent c). cbn [forallb length]. split_and!; [done| |].
    + intros [N _]%andb_true_iff. by apply H.
    + intros [N _]%andb_true_iff _. split; [done|]. apply H. by destruct w as [[]|].
Qed.

Lemma serve_turns_all c ws :
  fserve_wf c -> fc_next c = None ->
  let '(out, e) := serve_turns ws c in
  exists rest, unsent c = (out +:+ rest)%string /\
    (e = LetGo -> forallb no_error ws = true -> rest = EmptyString) /\
    (forallb takes_some ws = true -> (String.length (unsent c) + 1 <= length ws)%nat -> e = LetGo /\ rest = EmptyString).
Proof.
  intros W Nx. pose proof (serve_turns_send ws c W) as S. destruct (serve_turns ws c) as [out e].
  destruct S as (rest & E & R & T). exists rest. split_and!; [done|by intros ->|]. intros F Lw. apply T; [done|].
  unfold turns_left. rewrite Nx. lia.
Qed.

(** ** Answers *)

Lemma requested_part_from range total n len endpos :
  requested_part range total = From n len endpos -> 0 <= n <= total /\ len = total - n /\ endpos = Z.max 0 (total - 1).
Proof.
  unfold requested_part. intros H. destruct range as [r|]; [|done].
  destruct (if strcaseeq (string_take 6 r) "bytes=" then _ else _) as [k|]; [|done].
  destruct (Z.ltb_spec k 0); [done|]. destruct (Z.ltb_spec (total - k) 0); [done|]. injection H as <- <- <-.
  destruct (Z.ltb_spec (k + (total - k) - 1) 0); lia.
Qed.

(** The status, the part of the file, and the fields for a range. *)
Definition answer_status (p : part) : Z := match p with From _ _ _ => 206 | _ => 200 end.
Definition answer_body (p : part) (content : string) : string :=
  match p with From start _ _ => string_drop (Z.to_nat start) content | _ => content end.
Definition answer_range (p : part) (content : string) : string :=
  match p with From start _ endpos => range_header start endpos (strlen content) | _ => EmptyString end.

Lemma answer_body_length range content :
  let p := requested_part range (strlen content) in
  match p with From _ len _ => strlen (answer_body p content) = len | _ => True end.
Proof.
  intros p. unfold p. destruct (requested_part _ _) as [|n len e|] eqn:R; try done.
  apply requested_part_from in R as (B & -> & _). cbn [answer_body]. unfold strlen in *. rewrite string_length_drop. lia.
Qed.

(** What follows the general fields fits in the room kept for it. *)
Lemma fields_fit range content p :
  strlen content < 2 ^ 63 -> requested_part range (strlen content) = p -> p <> Unsatisfiable ->
  (String.length ((length_headers (strlen (answer_body p content)) +:+ answer_range p content) +:+ crlf) < 200)%nat.
Proof.
  intros L R N. assert (0 <= strlen content) by apply Nat2Z.is_nonneg.
  assert (0 <= strlen (answer_body p content) < 2 ^ 63) as B.
  { split; [apply Nat2Z.is_nonneg|]. destruct p; [done| |done]. cbn [answer_body]. unfold strlen in *. rewrite string_length_drop. lia. }
  apply dec_length in B. rewrite !string_length_app. unfold length_headers. rewrite !string_length_app.
  destruct p as [|n len e|]; [cbn [answer_range]| |done].
  - cbn [String.length crlf]. lia.
  - apply requested_part_from in R as (Bn & -> & ->). cbn [answer_range]. unfold range_header. rewrite !string_length_app.
    pose proof (dec_length n). pose proof (dec_length (Z.max 0 (strlen content - 1))). pose proof (dec_length (strlen content)).
    cbn [String.length crlf]. lia.
Qed.

(** The client made for a file that is there. *)
Lemma fserve_client_create_regular x client mimetypes hostname port webroot host range path content p :
  let header := header_text x false (answer_status p) None (Some (fserve_content_type mimetypes path)) None None (Some client) in
  strlen content < 2 ^ 63 -> strlen header < BUFSIZE - 512 ->
  requested_part range (strlen content) = p -> p <> Unsatisfiable ->
  exists c, fserve_client_create x client mimetypes hostname port true webroot host range path (Regular content) =
      FserveClientAdded (answer_status p) c /\ fserve_wf c /\ fc_next c = None /\
    unsent c = (header +:+ length_headers (strlen (answer_body p content)) +:+ answer_range p content +:+ crlf +:+ answer_body p content)%string.
Proof.
  intros header L H R N. assert (strlen (answer_body p content) = match p with From _ len _ => len | _ => strlen content end) as Lb.
  { pose proof (answer_body_length range content) as K. rewrite R in K. by destruct p. }
  pose proof (fields_fit range content p L R N) as F. unfold fserve_client_create. cbn [andb]. rewrite R.
  assert (util_http_build_header EmptyString BUFSIZE 0 x false (answer_status p) None (Some (fserve_content_type mimetypes path)) None None
    (Some client) = (header, strlen header)) as U.
  { unfold util_http_build_header, snprintf. cbn [Z.eqb]. fold header. change (string_take (Z.to_nat 0) EmptyString) with EmptyString.
    rewrite string_take_all; [done|]. unfold strlen, BUFSIZE in *. lia. }
  assert (Z.leb (BUFSIZE - 512) (strlen header) = false) as LE by (apply Z.leb_gt; lia).
  assert (forall t, (String.length t < 200)%nat -> fst (snprintf (Z.to_nat (BUFSIZE - strlen header)) t) = t) as SN.
  { intros t Lt. unfold snprintf. cbn [fst]. apply string_take_all. unfold BUFSIZE in *. lia. }
  rewrite Lb in F |- *.
  destruct p as [|n len e|]; [| |done]; cbn [answer_status answer_body answer_range negb] in *; rewrite U, LE.
  - eexists. split; [reflexivity|]. unfold fserve_wf, unsent. cbn [fc_data fc_pos fc_file fc_next string_drop].
    rewrite string_app_nil_r in F. rewrite SN by done. split_and!; [lia|done|]. cbn [default]. unfold id.
    by rewrite string_app_nil_r, !string_app_assoc.
  - eexists. split; [reflexivity|]. unfold fserve_wf, unsent. cbn [fc_data fc_pos fc_file fc_next string_drop].
    rewrite SN by done. split_and!; [lia|done|]. cbn [default]. unfold id.
    by rewrite string_app_nil_r, !string_app_assoc.
Qed.


(** The last line of a table of types, where it does not end in a newline: the
    end of its last extension is the end of the text, the loop goes on behind
    it and reads what the line before left in the buffer. *)
Definition stale_table : list string :=
  ["audio/mpeg mp2 mp3" +:+ String (chr 10) EmptyString; "text/plain b"]%string.

Theorem mime_last_line_stale buf :
  exists types, fserve_recheck_mime_types (Some stale_table) buf ∅ = Some types /\ types !! "mp3"%string = Some "text/plain"%string /\
    types !! "mp2"%string = Some "audio/mpeg"%string.
Proof.
  unfold fserve_recheck_mime_types, stale_table. cbn [mime_lines]. eexists. split; [vm_compute; reflexivity|]. by vm_compute.
Qed.

(** ** Witnesses *)

