(* ===== verification/FallbackFile.v ===== *)
(** A file as the fallback of a mount: the thread [source_fallback_file] of
    [source.c], which makes a source of a file that is to be played to the
    listeners of others. *)

From S2P Require Import Prelude Stats Mounts MountsFacts Slave SlaveThreads Startup Fserve.
From stdpp Require Import gmap.
Local Open Scope Z_scope.

Section fallback.
Variable fnmatch : string -> string -> bool.
Variable x : surroundings.
(** The files that can be opened, and the types of files. *)
Variable opens : string -> bool.
Variable mimetypes : gmap string string.
(** What the server is when [source_main] of the mount has ended. *)
Variable source_main : string -> server -> option server.

Definition set_fallback_file (path : string) (s : Mounts.source) : Mounts.source :=
  Mounts.Source (Mounts.s_running s) (s_on_demand s) (s_on_demand_req s) (s_format s) (s_has_con s) (s_has_client s)
    (s_listeners s) (s_prev_listeners s) (s_peak_listeners s) (s_max_listeners s) (s_fallback_mount s)
    (s_fallback_override s) (s_fallback_when_full s) true (s_queue_size_limit s) (s_timeout s)
    (s_burst_size s) (s_dumpfilename s) (Some path) 0 (s_max_history s) (s_pending s) (s_clients s).

(** [source_client_thread], for a source with no client. *)
Definition source_thread (config : ice_config) (mount : string) (g : server) (n : notices) : option (server * notices) :=
  g ← source_thread_start fnmatch config mount g;
  g ← source_main mount g;
  source_thread_end fnmatch config mount g n.

(** [source_fallback_file]. *)
Definition source_fallback_file (config : ice_config) (webroot_dir : string) (source_limit : Z) (plugin : bool) (mount : option string)
    (g : server) (n : notices) : option (server * notices) :=
  match mount with
  | None => Some (g, n)
  | Some mount =>
      let path := (webroot_dir +:+ mount)%string in
      if negb (starts_with "/" mount) || negb (opens path) then Some (g, n)
      else
        match source_reserve mount g with
        | None => Some (g, n)
        | Some g =>
            g ← upd_source mount (set_fallback_file path) g;
            '(c, g, n) ← connection_complete_source fnmatch x config source_limit (Some (fserve_content_type mimetypes mount)) false plugin mount g n;
            match c with
            | Completed => source_thread config mount g n
            | _ => Some (g, n)
            end
        end
  end.

(** A fallback whose source cannot be completed, as the server has its limit of
    sources or the plugin cannot be made, is never taken back: its mount stays
    in use without a source that runs, and no source can come there. *)
Theorem fallback_file_stays config webroot_dir source_limit plugin mount g n :
  starts_with "/" mount = true -> opens (webroot_dir +:+ mount)%string = true -> g_sources g !! mount = None ->
  source_limit <= g_count g \/ plugin = false ->
  exists g', source_fallback_file config webroot_dir source_limit plugin (Some mount) g n = Some (g', n) /\
    local mount g g' /\ source_reserve mount g' = None /\
    exists s, g_sources g' !! mount = Some s /\ Mounts.s_running s = false.
Proof.
  intros W O N C. unfold source_fallback_file. rewrite W, O. cbn [negb orb]. unfold source_reserve, source_find_mount_raw. rewrite N.
  destruct (local_upd mount (set_fallback_file (webroot_dir +:+ mount)%string) (put_source mount (new_source mount) g)) as (s & L & ->).
  { cbn. rewrite lookup_insert_eq. by eexists. }
  run_bind. set (g1 := put_source mount _ _).
  assert (connection_complete_source fnmatch x config source_limit (Some (fserve_content_type mimetypes mount)) false plugin mount g1 n =
            Some (if g_count g <? source_limit then PluginFailed else SourceLimit, g1, n)) as ->.
  { unfold connection_complete_source. change (g_count g1) with (g_count g). destruct (Z.ltb_spec (g_count g) source_limit); [|done].
    destruct C as [C| ->]; [lia|done]. }
  run_bind. exists g1. assert (local mount g g1) as Lo by (eapply local_trans; [apply local_put|apply local_put]).
  cbn in L. rewrite lookup_insert_eq in L. injection L as <-.
  assert (g_sources g1 !! mount = Some (set_fallback_file (webroot_dir +:+ mount)%string (new_source mount))) as E by (cbn; by rewrite lookup_insert_eq).
  split; [by destruct (_ <? _)|]. split; [done|]. rewrite E. split; [done|]. by eexists.
Qed.

(** Where there is nothing to do nothing changes: no mount, none that starts
    with a slash, no file, or a source that is there. *)
Lemma fallback_file_nothing config webroot_dir source_limit plugin mount g n :
  match mount with
  | None => true
  | Some m => negb (starts_with "/" m) || negb (opens (webroot_dir +:+ m)%string) || bool_decide (is_Some (g_sources g !! m))
  end = true ->
  source_fallback_file config webroot_dir source_limit plugin mount g n = Some (g, n).
Proof.
  unfold source_fallback_file, source_reserve, source_find_mount_raw. destruct mount as [m|]; [|done].
  destruct (negb (starts_with "/" m) || negb (opens (webroot_dir +:+ m)%string)); [done|]. cbn [orb]. rewrite bool_decide_eq_true. by intros [s ->].
Qed.
End fallback.

(** The whole life of such a source: its mount is there, hidden and running,
    while it plays, and gone with its number when it ends. *)
Example fallback_file_run :
  let main m g := match g_sources g !! m with
                  | Some s => if Mounts.s_running s && s_hidden s && (g_count g =? 1) then Some g else None
                  | None => None
                  end in
  match source_fallback_file streq demo_surroundings (fun p => streq p "/web/jingle.ogg") ∅ main demo_config "/web" 10 true
          (Some "/jingle.ogg"%string) (Server ∅ [] 0 [] []) demo_notices with
  | Some (g, n) => dom (g_sources g) = ∅ /\ g_count g = 0 /\ n_update_all_mounts n = true
  | None => False
  end.
Proof. vm_compute. by split_and!. Qed.

Lemma fallback_file_stays_witness :
  exists g', source_fallback_file streq demo_surroundings (fun p => streq p "/web/jingle.ogg") ∅ (fun _ g => Some g) demo_config "/web" 0 true
      (Some "/jingle.ogg"%string) (Server ∅ [] 0 [] []) demo_notices = Some (g', demo_notices) /\
    source_reserve "/jingle.ogg" g' = None.
Proof.
  destruct (fallback_file_stays streq demo_surroundings (fun p => streq p "/web/jingle.ogg") ∅ (fun _ g => Some g) demo_config "/web" 0 true
    "/jingle.ogg" (Server ∅ [] 0 [] []) demo_notices) as (g' & E & _ & R & _);
    [vm_compute; reflexivity|vm_compute; reflexivity|reflexivity|left; vm_compute; discriminate|].
  exists g'. split; [exact E|exact R].
Defined.
