(* ===== verification/Admin.v ===== *)
(** The commands of the administration interface, [admin.c]: what each does to
    the server and what it answers.

    The answer is an XML document, which is given as text, or to a stylesheet;
    or a small page.  The parameters are the connections of sources and
    listeners, the authenticators, and the libraries' work: the text of a
    document and its transformation. *)

From stdpp Require Import sorting.
From S2P Require Import Prelude Acl Errors Stats Mounts Htpasswd Http Connection.
Local Open Scope Z_scope.

(** ** Documents *)

Local Set Warnings "-register-all".

Inductive xml :=
| Elem (name : string) (attributes : list (string * string)) (children : list xml)
| Text (s : string).

(** [xmlNewTextChild], as the child it makes. *)
Definition text_child (name s : string) : xml := Elem name [] [Text s].

(** What a command answers. *)
Inductive answer :=
| Error (id : Z)
| Document (doc : xml) (response : admin_format) (template : string)
| Page (message : string)
| Playlist (text : string)
| Streams.

Definition iceresponse (message ret : string) : xml := Elem "iceresponse" [] [text_child "message" message; text_child "return" ret].

Definition ADMIN_XSL_RESPONSE : string := "response.xsl".

(** ** The server *)

(** What is known of the connection of a listener, and of a source. *)
Record listener_info := Listener_info {
  li_ip : string;
  li_user_agent : option string;
  li_referer : option string;
  li_con_time : Z;
  li_tls : bool;
  li_shoutcast : bool
}.

Record source_info := Source_info {
  si_ip : string;
  si_con_time : Z;
  si_shoutcast_compat : bool;
  si_contenttype : string;
  si_set_tag : bool;
  si_dummy_auth : bool             (** the anonymous rights deny listening *)
}.

(** A call of [set_tag] for the format of a mount. *)
Record tag := Tag { tag_mount : string; tag_name : option string; tag_value : option string; tag_charset : option string }.

(** Trees are walked in the order of their keys. *)
Definition by_id {A} (a b : Z * A) : Prop := a.1 <= b.1.
Definition by_name {A} (a b : string * A) : Prop := String.leb a.1 b.1 = true.

#[export] Instance by_id_dec {A} : RelDecision (@by_id A).
Proof. intros a b. unfold by_id. apply _. Defined.
#[export] Instance by_name_dec {A} : RelDecision (@by_name A).
Proof. intros a b. unfold by_name. apply _. Defined.

Section admin.
(** The user files. *)
Context {F : Type}.

(** [auth_t]. *)
Record manager := Manager {
  au_id : Z;
  au_type : option string;
  au_role : option string;
  au_management_url : option string;
  au_adduser : option (string -> string -> F -> auth_result * F);
  au_deleteuser : option (string -> F -> auth_result * F);
  au_listuser : option (F -> list xml)
}.

(** The state the commands work on: the listeners whose connections have been
    marked, the tags that were set, and the locks of the configuration that
    are held by readers. *)
Record admin_world := Admin_world {
  aw_server : server;
  aw_marked : list Z;
  aw_tags : list tag;
  aw_reread : bool;
  aw_files : F;
  aw_config_locks : Z
}.

Definition aw_set_server (g : server) (w : admin_world) : admin_world :=
  Admin_world g (aw_marked w) (aw_tags w) (aw_reread w) (aw_files w) (aw_config_locks w).
Definition aw_mark (id : Z) (w : admin_world) : admin_world :=
  Admin_world (aw_server w) (aw_marked w ++ [id]) (aw_tags w) (aw_reread w) (aw_files w) (aw_config_locks w).
Definition aw_set_tags (l : list tag) (w : admin_world) : admin_world :=
  Admin_world (aw_server w) (aw_marked w) (aw_tags w ++ l) (aw_reread w) (aw_files w) (aw_config_locks w).
Definition aw_set_reread (w : admin_world) : admin_world :=
  Admin_world (aw_server w) (aw_marked w) (aw_tags w) true (aw_files w) (aw_config_locks w).
Definition aw_set_files (f : F) (w : admin_world) : admin_world :=
  Admin_world (aw_server w) (aw_marked w) (aw_tags w) (aw_reread w) f (aw_config_locks w).
Definition aw_lock (n : Z) (w : admin_world) : admin_world :=
  Admin_world (aw_server w) (aw_marked w) (aw_tags w) (aw_reread w) (aw_files w) (aw_config_locks w + n).

Variable fnmatch : string -> string -> bool.
Variable config : ice_config.
Variable now : Z.
Variable listener_of : Z -> listener_info.
Variable source_of : string -> source_info.
(** The stack of the server, and those of the mounts. *)
Variable stacks : list (list manager).
(** The statistics as a document. *)
Variable stats_xml : option string -> operation_mode -> xml.

(** The client that makes the request. *)
Variable query : string -> option string.
Variable client_ip : string.
Variable client_acl : option acl.
Variable client_command : Z.
Variable mode : operation_mode.

(** The name of an element, which the older mode writes in its own way. *)
Definition legacy (old new : string) : string := if decide (mode = OMODE_LEGACY) then old else new.

(** [__add_listener]. *)
Definition add_listener_node (id : Z) (l : listener) : xml :=
  let i := listener_of id in
  let opt name v := match v with Some s => [text_child name s] | None => [] end in
  Elem "listener" [("id"%string, dec id)]
    ([text_child (legacy "ID" "id") (dec id); text_child (legacy "IP" "ip") (li_ip i)] ++
     opt (legacy "UserAgent" "useragent") (li_user_agent i) ++ opt "referer"%string (li_referer i) ++
     [text_child (legacy "Connected" "connected") (dec (u64 (now - li_con_time i)))] ++
     opt "username"%string (l_username l) ++ opt "role"%string (l_role l) ++
     [text_child "tls" (if li_tls i then "true" else "false"); text_child "protocol" (if li_shoutcast i then "icy" else "http")]).

(** The listeners of a tree by their ids. *)
Definition in_order (t : gmap Z listener) : list (Z * listener) := merge_sort by_id (map_to_list t).

(** [admin_add_listeners_to_mount]. *)
Definition admin_add_listeners_to_mount (s : source) : list xml := (fun p => add_listener_node p.1 p.2) <$> in_order (s_clients s).

Definition command_show_listeners (mount : string) (response : admin_format) (w : admin_world) : option (answer * admin_world) :=
  s ← g_sources (aw_server w) !! mount;
  Some (Document (Elem "icestats" [] [Elem "source" [("mount"%string, mount)]
          (text_child (legacy "Listeners" "listeners") (dec (s_listeners s)) :: admin_add_listeners_to_mount s)])
        response "listclients.xsl", w).

(** The sources in the order of their names. *)
Definition sources_in_order (g : server) : list (string * source) :=
  merge_sort by_name (map_to_list (g_sources g)).

Definition source_node_of (p : string * source) : list xml :=
  let '(mount, s) := p in
  let i := source_of mount in
  if s_running s || s_on_demand s then
    [Elem "source" [("mount"%string, mount)]
       ([text_child "fallback" (default EmptyString (s_fallback_mount s)); text_child "listeners" (dec (s_listeners s))] ++
        (if si_dummy_auth i then [text_child "authenticator" "(dummy)"] else []) ++
        (if s_running s then
           (if s_has_client s then [text_child "Connected" (dec (u64 (now - si_con_time i)))] else []) ++
           [text_child "content-type" (si_contenttype i)]
         else []))]
  else [].

(** [admin_build_sourcelist]. *)
Definition admin_build_sourcelist (mount : option string) (g : server) : xml :=
  Elem "icestats" []
    (match mount with Some m => [text_child "current_source" m] | None => [] end ++
     mjoin (source_node_of <$> filter (fun p => Some p.1 <> mount) (sources_in_order g))).

Definition command_list_mounts (response : admin_format) (w : admin_world) : option (answer * admin_world) :=
  Some (if decide (response = PLAINTEXT) then Streams
        else Document (admin_build_sourcelist None (aw_server w)) response "listmounts.xsl", w).

(** [command_move_clients]; the mount is that of a source, or there is none and
    it is read through a null pointer. *)
Definition command_move_clients (mount : option string) (response : admin_format) (w : admin_world) : option (answer * admin_world) :=
  mount ← mount;
  match query "destination" with
  | None => Some (Document (admin_build_sourcelist (Some mount) (aw_server w)) response "moveclients.xsl", w)
  | Some dest_source =>
      match source_find_mount fnmatch config (aw_server w) dest_source with
      | None => Some (Error ICECAST_ERROR_ADMIN_NO_SUCH_DESTINATION, w)
      | Some (dest, d) =>
          if streq dest mount then Some (Error ICECAST_ERROR_ADMIN_SUPPLIED_MOUNTPOINTS_ARE_IDENTICAL, w)
          else if negb (s_running d) && negb (s_on_demand d) then Some (Error ICECAST_ERROR_ADMIN_DEST_NOT_RUNNING, w)
          else
            g ← source_move_clients mount dest (aw_server w);
            Some (Document (iceresponse (string_take 254 ("Clients moved from " +:+ mount +:+ " to " +:+ dest_source)) "1") response
                    ADMIN_XSL_RESPONSE, aw_set_server g w)
      end
  end.

Definition command_buildm3u (mount : string) (w : admin_world) : option (answer * admin_world) :=
  Some (match query "username", query "password" with
        | Some username, Some password =>
            Playlist ("http://" +:+ username +:+ ":" +:+ password +:+ "@" +:+ c_hostname config +:+ ":" +:+ dec (c_port config) +:+
                      mount +:+ crlf)
        | _, _ => Error ICECAST_ERROR_ADMIN_MISSING_PARAMETER
        end, w).

Definition command_kill_source (mount : string) (response : admin_format) (w : admin_world) : option (answer * admin_world) :=
  s ← g_sources (aw_server w) !! mount;
  Some (Document (iceresponse "Source Removed" "1") response ADMIN_XSL_RESPONSE,
        aw_set_server (put_source mount (set_running false s) (aw_server w)) w).

Definition command_kill_client (mount : string) (response : admin_format) (w : admin_world) : option (answer * admin_world) :=
  match query "id" with
  | None => Some (Error ICECAST_ERROR_ADMIN_MISSING_PARAMETER, w)
  | Some idtext =>
      let id := atoi idtext in
      s ← g_sources (aw_server w) !! mount;
      Some (match source_find_client s (u64 id) with
            | Some _ =>
                (Document (iceresponse ("Client " +:+ dec id +:+ " removed") "1") response ADMIN_XSL_RESPONSE, aw_mark (u64 id) w)
            | None => (Document (iceresponse ("Client " +:+ dec id +:+ " not found") "0") response ADMIN_XSL_RESPONSE, w)
            end)
  end.

Definition set_fallback (f : string) (s : source) : source :=
  Source (s_running s) (s_on_demand s) (s_on_demand_req s) (s_format s) (s_has_con s) (s_has_client s)
    (s_listeners s) (s_prev_listeners s) (s_peak_listeners s) (s_max_listeners s) (Some f)
    (s_fallback_override s) (s_fallback_when_full s) (s_hidden s) (s_queue_size_limit s) (s_timeout s)
    (s_burst_size s) (s_dumpfilename s) (s_intro_file s) (s_yp_public s) (s_max_history s) (s_pending s) (s_clients s).

Definition command_fallback (mount : string) (w : admin_world) : option (answer * admin_world) :=
  match query "fallback" with
  | None => Some (Error ICECAST_ERROR_ADMIN_MISSING_PARAMETER, w)
  | Some fallback =>
      s ← g_sources (aw_server w) !! mount;
      Some (Page "Fallback configured", aw_set_server (put_source mount (set_fallback fallback s) (aw_server w)) w)
  end.

(** Whether the client may set tags: from the address of the source, or with
    the right to, where that is asked for. *)
Definition may_set_tags (exempt : bool) (mount : string) (s : source) : bool :=
  negb (s_has_client s && negb (streq client_ip (si_ip (source_of mount))) && negb exempt &&
        negb (bool_decide (acl_test_admin client_acl client_command = ACL_POLICY_ALLOW))).

Definition command_metadata (mount : string) (response : admin_format) (w : admin_world) : option (answer * admin_world) :=
  match query "mode" with
  | None => Some (Error ICECAST_ERROR_ADMIN_MISSING_PARAMETER, w)
  | Some action =>
      let say message ret := Document (iceresponse message ret) response ADMIN_XSL_RESPONSE in
      if negb (streq action "updinfo") then Some (say "No such action"%string "0"%string, w)
      else
        s ← g_sources (aw_server w) !! mount;
        let set name value := Tag mount (Some name) (Some value) (query "charset") in
        if may_set_tags (negb (bool_decide (response = RAW))) mount s && bool_decide (s_format s <> None) && si_set_tag (source_of mount)
        then
          let tags :=
            match query "song", query "title", query "artist" with
            | Some song, _, _ => [set "song"%string song]
            | None, Some title, Some artist => [set "title"%string title; set "artist"%string artist]
            | _, _, _ => []
            end in
          Some (say "Metadata update successful"%string "1"%string, aw_set_tags (tags ++ [Tag mount None None None]) w)
        else Some (say "Mountpoint will not accept URL updates"%string "1"%string, w)
  end.

Definition command_shoutcast_metadata (mount : string) (w : admin_world) : option (answer * admin_world) :=
  s ← g_sources (aw_server w) !! mount;
  Some (if negb (si_shoutcast_compat (source_of mount)) then (Error ICECAST_ERROR_ADMIN_METADAT_BADCALL, w)
        else
          match query "mode", query "song" with
          | Some action, Some value =>
              if negb (streq action "updinfo") then (Error ICECAST_ERROR_ADMIN_METADAT_NO_SUCH_ACTION, w)
              else if may_set_tags false mount s && bool_decide (s_format s <> None) && si_set_tag (source_of mount) then
                (Page "Metadata update successful",
                 aw_set_tags [Tag mount (Some "title"%string) (Some value) None; Tag mount None None None] w)
              else (Error ICECAST_ERROR_ADMIN_MOUNT_NOT_ACCEPT_URL_UPDATES, w)
          | _, _ => (Error ICECAST_ERROR_ADMIN_MISSING_PARAMETER, w)
          end).

Definition command_stats (mount : option string) (response : admin_format) (w : admin_world) : option (answer * admin_world) :=
  Some (Document (stats_xml mount mode) response "stats.xsl", w).

Definition command_queue_reload (response : admin_format) (w : admin_world) : option (answer * admin_world) :=
  Some (Document (iceresponse "Config reload queued" "1") response ADMIN_XSL_RESPONSE, aw_set_reread w).

Definition command_updatemetadata (mount : string) (response : admin_format) (w : admin_world) : option (answer * admin_world) :=
  Some (Document (Elem "icestats" [] [Elem "source" [("mount"%string, mount)] []]) response "updatemetadata.xsl", w).

(** *** The users of an authenticator *)

(** [auth_stack_getbyid] in one stack after the other. *)
Definition auth_getbyid (id : Z) : option manager := List.find (fun a => au_id a =? id) (mjoin stacks).

(** [admin_add_role_to_authentication], with more children. *)
Definition admin_add_role (a : manager) (children : list xml) : xml :=
  let opt name v := match v with Some s => [(name, s)] | None => [] end in
  let can name (b : bool) := (name, if b then "true" else "false")%string in
  Elem "role" ([("id"%string, dec (au_id a))] ++ opt "type"%string (au_type a) ++ opt "name"%string (au_role a) ++
               opt "management-url"%string (au_management_url a) ++
               [can "can-adduser"%string (bool_decide (is_Some (au_adduser a)));
                can "can-deleteuser"%string (bool_decide (is_Some (au_deleteuser a)));
                can "can-listuser"%string (bool_decide (is_Some (au_listuser a)))]) children.

(** What is said of the result, where anything is. *)
Definition add_message (r : auth_result) : option string :=
  match r with
  | AUTH_FAILED => Some "User add failed - check the icecast error log"
  | AUTH_USERADDED => Some "User added"
  | AUTH_USEREXISTS => Some "User already exists - not added"
  | _ => None
  end%string.
Definition delete_message (r : auth_result) : option string :=
  match r with
  | AUTH_FAILED => Some "User delete failed - check the icecast error log"
  | AUTH_USERDELETED => Some "User deleted"
  | _ => None
  end%string.

(** The action on an authenticator: an error, or the message and the files. *)
Definition manage (a : manager) (files : F) : Z + option string * F :=
  let action := default "list"%string (query "action") in
  if streq action "add" then
    match query "username", query "password" with
    | Some username, Some password =>
        match au_adduser a with
        | None => inl ICECAST_ERROR_ADMIN_ROLEMGN_ADD_NOSYS
        | Some add => let '(r, files) := add username password files in inr (add_message r, files)
        end
    | _, _ => inl ICECAST_ERROR_ADMIN_missing_parameter
    end
  else if streq action "delete" then
    match query "username" with
    | Some username =>
        match au_deleteuser a with
        | None => inl ICECAST_ERROR_ADMIN_ROLEMGN_DELETE_NOSYS
        | Some del => let '(r, files) := del username files in inr (delete_message r, files)
        end
    | None => inl ICECAST_ERROR_ADMIN_missing_parameter
    end
  else inr (None, files).

(** [command_manageauth]: the lock of the configuration is taken first, and
    not given back where there is no id. *)
Definition command_manageauth (response : admin_format) (w : admin_world) : option (answer * admin_world) :=
  let w := aw_lock 1 w in
  match query "id" with
  | None => Some (Error ICECAST_ERROR_ADMIN_MISSING_PARAMETER, w)
  | Some idstring =>
      Some (match auth_getbyid (u64 (fst (strtol idstring))) with
            | None => (Error ICECAST_ERROR_ADMIN_ROLEMGN_ROLE_NOT_FOUND, aw_lock (-1) w)
            | Some a =>
                match manage a (aw_files w) with
                | inl error => (Error error, aw_lock (-1) w)
                | inr (message, files) =>
                    let users := match au_listuser a with Some f => [Elem "users" [] (f files)] | None => [] end in
                    (Document (Elem "icestats" []
                       (admin_add_role a users :: match message with
                                                  | Some m => [Elem "iceresponse" [] [text_child "message" m]]
                                                  | None => []
                                                  end)) response "manageauth.xsl",
                     aw_lock (-1) (aw_set_files files w))
                end
            end)
  end.

(** *** All commands *)

(** The function of a handler. *)
Definition run_function (f : request_function) (response : admin_format) (mount : option string) (w : admin_world)
    : option (answer * admin_world) :=
  match f with
  | Acl.command_fallback => m ← mount; command_fallback m w
  | Acl.command_metadata => m ← mount; command_metadata m response w
  | Acl.command_shoutcast_metadata => m ← mount; command_shoutcast_metadata m w
  | Acl.command_show_listeners => m ← mount; command_show_listeners m response w
  | Acl.command_stats => command_stats mount response w
  | Acl.command_queue_reload => command_queue_reload response w
  | Acl.command_list_mounts => command_list_mounts response w
  | Acl.command_move_clients => command_move_clients mount response w
  | Acl.command_kill_client => m ← mount; command_kill_client m response w
  | Acl.command_kill_source => m ← mount; command_kill_source m response w
  | Acl.command_manageauth => command_manageauth response w
  | Acl.command_updatemetadata => m ← mount; command_updatemetadata m response w
  | Acl.command_buildm3u => m ← mount; command_buildm3u m w
  end.

(** Whether a mount is there, and then whether it can be administered. *)
Definition administered (g : server) (mount : string) : option bool :=
  s ← source_find_mount_raw g mount; Some (s_running s || s_on_demand s).

(** [admin_handle_request], to the end of the command. *)
Definition admin_request (httpp_req_none httpp_req_source httpp_req_put httpp_req_unknown : Z) (w : admin_world)
    : option (answer * admin_world) :=
  o ← admin_handle_request httpp_req_none httpp_req_source httpp_req_put httpp_req_unknown (administered (aw_server w)) client_acl
        client_command (query "mount");
  match o with
  | AdminError id => Some (Error id, w)
  | AdminRun f response mount => run_function f response mount w
  end.
End admin.

(** ** The answer as text *)

(** [admin_send_response] of the text of a document that is not transformed:
    the buffer's size, and its text. *)
Definition admin_send_raw (header : string) (doc : string) : Z * string :=
  let len := strlen doc in
  let buf_len := if len + 1024 <? 4096 then 4096 else len + 1024 in
  let ret := strlen header in
  let buf_len := if buf_len <? len + ret + 64 then ret + len + 64 else buf_len in
  (buf_len, print_body buf_len (fst (snprintf (Z.to_nat buf_len) header)) ret doc).
