(* ===== verification/AdminFacts.v ===== *)
(** The administration interface: who may run a command, what a command
    changes and what it leaves alone, its lists, and its answers whole. *)

From stdpp Require Import sorting.
From S2P Require Import Prelude Acl Errors Stats StatsFacts Mounts MountsFacts Htpasswd Http FserveFacts Connection Admin.
Local Open Scope Z_scope.

(** ** What a command changes *)

Section admin.
Context {F : Type}.
Variable fnmatch : string -> string -> bool.
Variable config : ice_config.
Variable now : Z.
Variable listener_of : Z -> listener_info.
Variable source_of : string -> source_info.
Variable stacks : list (list (@manager F)).
Variable stats_xml : option string -> operation_mode -> xml.
Variable query : string -> option string.
Variable client_ip : string.
Variable client_acl : option acl.
Variable client_command : Z.
Variable mode : operation_mode.

Abbreviation run := (run_function fnmatch config now listener_of source_of stacks stats_xml query client_ip client_acl client_command mode).

(** Everything but the locks is as it was. *)
Definition same_world (w w' : @admin_world F) : Prop :=
  aw_server w' = aw_server w /\ aw_marked w' = aw_marked w /\ aw_tags w' = aw_tags w /\ aw_reread w' = aw_reread w /\
  aw_files w' = aw_files w.

(** Only the mount of the request and the destination of a move change, and
    only the named one is given tags. *)
Definition confined (mount : option string) (w w' : @admin_world F) : Prop :=
  dom (g_sources (aw_server w')) = dom (g_sources (aw_server w)) /\
  (forall m, Some m <> mount ->
     (forall d dest s, query "destination" = Some d -> source_find_mount fnmatch config (aw_server w) d = Some (dest, s) -> m <> dest) ->
     g_sources (aw_server w') !! m = g_sources (aw_server w) !! m) /\
  (exists tags, aw_tags w' = aw_tags w ++ tags /\ Forall (fun t => Some (tag_mount t) = mount) tags).

Lemma same_confined mount w w' : same_world w w' -> confined mount w w'.
Proof. intros (S & M & T & R & L). split_and!; [by rewrite S|by intros; rewrite S|exists []; by rewrite T, app_nil_r]. Qed.

Lemma put_confined m s s' w :
  g_sources (aw_server w) !! m = Some s -> confined (Some m) w (aw_set_server (put_source m s' (aw_server w)) w).
Proof.
  intros E. split_and!; cbn.
  - rewrite dom_insert_L. apply elem_of_dom_2 in E. apply subseteq_union_1_L. by apply singleton_subseteq_l.
  - intros n N _. rewrite lookup_insert_ne; [done|]. intros ->. done.
  - exists []. by rewrite app_nil_r.
Qed.

Lemma tags_confined m tags w : Forall (fun t => tag_mount t = m) tags -> confined (Some m) w (aw_set_tags tags w).
Proof.
  intros T. split_and!; [done|done|]. exists tags. split; [done|]. eapply Forall_impl; [exact T|]. by intros t <-.
Qed.

Definition is_error (a : answer) : Prop := match a with Error _ => True | _ => False end.

(** The commands that only tell. *)
Definition only_tells (f : request_function) : bool :=
  match f with
  | Acl.command_show_listeners | Acl.command_stats | Acl.command_list_mounts | Acl.command_updatemetadata | Acl.command_buildm3u => true
  | _ => false
  end.

Lemma run_confined f response mount w a w' :
  run f response mount w = Some (a, w') -> confined mount w w' /\ (is_error a \/ only_tells f = true -> same_world w w').
Proof.
  assert (same_world w w) as Same by done.
  assert (forall x, same_world w x -> confined mount w x /\ (is_error a \/ only_tells f = true -> same_world w x)) as Done
    by (intros x X; split; [by apply same_confined|done]).
  intros E. destruct f; cbn [run_function] in E.
  all: try (destruct mount as [m|]; [|done]; cbn [mbind option_bind] in E).
  - unfold command_fallback in E. destruct (query "fallback") as [f|]; [|injection E as <- <-; by apply Done].
    destruct (g_sources (aw_server w) !! m) as [s|] eqn:S; [|done]. injection E as <- <-.
    split; [by apply (put_confined m s)|by intros [|]].
  - unfold command_metadata in E. destruct (query "mode") as [action|]; [|injection E as <- <-; by apply Done].
    destruct (negb (streq action "updinfo")); [injection E as <- <-; by apply Done|].
    destruct (g_sources (aw_server w) !! m) as [s|]; [|done]. cbn [mbind option_bind] in E.
    destruct (_ && _); injection E as <- <-; [|by apply Done]. split; [|by intros [|]].
    apply tags_confined, Forall_app. split; [|by constructor].
    destruct (query "song"), (query "title"), (query "artist"); by repeat constructor.
  - unfold command_shoutcast_metadata in E. destruct (g_sources (aw_server w) !! m) as [s|]; [|done]. cbn [mbind option_bind] in E.
    injection E as E. destruct (negb _); [injection E as <- <-; by apply Done|].
    destruct (query "mode") as [action|], (query "song") as [value|]; try (injection E as <- <-; by apply Done).
    destruct (negb (streq action "updinfo")); [injection E as <- <-; by apply Done|].
    destruct (_ && _); injection E as <- <-; [|by apply Done]. split; [|by intros [|]]. apply tags_confined. by repeat constructor.
  - unfold command_show_listeners in E. destruct (g_sources (aw_server w) !! m) as [s|]; [|done]. injection E as <- <-. by apply Done.
  - injection E as <- <-. by apply Done.
  - injection E as <- <-. split; [|by intros [|]]. split_and!; [done|done|]. exists []. by rewrite app_nil_r.
  - injection E as <- <-. by apply Done.
  - unfold command_move_clients in E. cbn [mbind option_bind] in E.
    destruct (query "destination") as [d|] eqn:Q; [|injection E as <- <-; by apply Done].
    destruct (source_find_mount fnmatch config (aw_server w) d) as [[dest s]|] eqn:D; [|injection E as <- <-; by apply Done].
    destruct (streq dest m) eqn:N; [injection E as <- <-; by apply Done|].
    destruct (_ && _); [injection E as <- <-; by apply Done|].
    destruct (source_move_clients m dest (aw_server w)) as [g|] eqn:M; [|done]. cbn [mbind option_bind] in E. injection E as <- <-.
    split; [|by intros [|]]. assert (dest <> m) as NE by (intros ->; by rewrite streq_refl in N).
    apply find_mount_playing in D as PD. destruct PD as [D2 _].
    assert (is_Some (g_sources (aw_server w) !! m)) as [src S].
    { destruct (g_sources (aw_server w) !! m) eqn:S; [by eexists|]. unfold source_move_clients in M.
      rewrite streq_comm, N, S in M. done. }
    rewrite (move_clients_eq m dest _ src s) in M by done.
    injection M as <-.
    split_and!; [| |by exists []; rewrite app_nil_r]; destruct (moves src s); try done; cbn [aw_server aw_set_server emit put_source g_sources].
    + apply elem_of_dom_2 in S, D2. rewrite !dom_insert_L, (subseteq_union_1_L {[m]}), (subseteq_union_1_L {[dest]}) by by apply singleton_subseteq_l. done.
    + intros k K1 K2. rewrite !lookup_insert_ne; [done|intros ->; done|]. intros ->. by apply (K2 d k s).
  - unfold command_kill_client in E. destruct (query "id") as [i|]; [|injection E as <- <-; by apply Done].
    destruct (g_sources (aw_server w) !! m) as [s|]; [|done]. cbn [mbind option_bind] in E. injection E as E.
    destruct (source_find_client s (u64 (atoi i))); injection E as <- <-; [|by apply Done].
    split; [|by intros [|]]. split_and!; [done|done|]. exists []. by rewrite app_nil_r.
  - unfold command_kill_source in E. destruct (g_sources (aw_server w) !! m) as [s|] eqn:S; [|done]. injection E as <- <-.
    split; [by apply (put_confined m s)|by intros [|]].
  - unfold command_manageauth in E. destruct (query "id") as [i|]; [|injection E as <- <-; by apply Done].
    injection E as E. destruct (auth_getbyid stacks _) as [au|]; [|injection E as <- <-; by apply Done].
    destruct (manage query au (aw_files w)) as [e|[msg files]]; injection E as <- <-; [by apply Done|].
    split; [|by intros [|]]. split_and!; [done|done|]. exists []. by rewrite app_nil_r.
  - injection E as <- <-. by apply Done.
  - injection E as <- <-. by apply Done.
Qed.

Section requests.
Variables none source put unknown : Z.

Abbreviation handle := (admin_handle_request none source put unknown).
Abbreviation request := (admin_request fnmatch config now listener_of source_of stacks stats_xml query client_ip client_acl client_command
  mode none source put unknown).

(** The client has the right to the command. *)
Definition allowed : Prop := acl_test_admin client_acl client_command = ACL_POLICY_ALLOW.

(** The command is that of sources to set their tags, and the client may be a
    source. *)
Definition source_metadata : Prop :=
  (exists h, admin_get_handler client_command = Some h /\ h_function h = Some Acl.command_metadata /\ h_format h = RAW) /\
  (acl_test_method none unknown client_acl source = ACL_POLICY_ALLOW \/ acl_test_method none unknown client_acl put = ACL_POLICY_ALLOW).

Lemma handle_run running f response src :
  handle running client_acl client_command (query "mount") = Some (AdminRun f response src) ->
  src = query "mount" /\ (allowed \/ source_metadata /\ f = Acl.command_metadata /\ response = RAW).
Proof.
  unfold admin_handle_request. intros E. destruct (admin_get_handler client_command) as [h|] eqn:H; [|done].
  destruct (negb _ && negb _) eqn:N; [done|].
  assert (allowed \/ source_metadata) as A.
  { apply andb_false_iff in N as [N|N]; apply negb_false_iff in N; [left; by apply bool_decide_eq_true in N|right].
    apply andb_true_iff in N as [[N1%bool_decide_eq_true N2%bool_decide_eq_true]%andb_true_iff N3].
    split; [by exists h|]. apply orb_true_iff in N3 as [N3|N3]; apply bool_decide_eq_true in N3; [by left|by right]. }
  assert (forall s, (if bool_decide (h_type h = ADMINTYPE_MOUNT) && bool_decide (s = None)
            then Some (AdminError ICECAST_ERROR_ADMIN_MISSING_PARAMETER)
            else f ← h_function h; Some (AdminRun f (h_format h) s)) = Some (AdminRun f response src) ->
    src = s /\ h_function h = Some f /\ h_format h = response) as K.
  { intros s K. destruct (bool_decide (h_type h = ADMINTYPE_MOUNT) && bool_decide (s = None)); [done|]. destruct (h_function h) as [g|]; cbn in K; [by injection K as -> -> ->|done]. }
  assert (src = query "mount" /\ h_function h = Some f /\ h_format h = response) as (S & Hf & Hr).
  { destruct (query "mount") as [m|]; [|by apply K]. destruct (running m) as [[|]|]; [by apply K|done|done]. }
  split; [done|]. destruct A as [A|A]; [by left|right]. split; [done|]. destruct A as [(h' & E1 & E2 & E3) _].
  rewrite H in E1. injection E1 as <-. split; congruence.
Qed.

End requests.

(** ** Lists *)

Lemma in_order_perm (t : gmap Z listener) : in_order t ≡ₚ map_to_list t.
Proof. apply merge_sort_Permutation. Qed.

(** The list of a mount's listeners has each of them once, in the order of
    their ids. *)
Lemma admin_listing (s : source) :
  StronglySorted Z.lt (in_order (s_clients s)).*1 /\
  forall i l, (i, l) ∈ in_order (s_clients s) <-> s_clients s !! i = Some l.
Proof.
  split.
  - pose proof (in_order_perm (s_clients s)) as P.
    assert (StronglySorted by_id (in_order (s_clients s))) as S.
    { apply StronglySorted_merge_sort; unfold by_id; [intros ???; lia|intros ??; lia]. }
    assert (NoDup (in_order (s_clients s)).*1) as N by (rewrite P; apply NoDup_fst_map_to_list).
    revert S N. generalize (in_order (s_clients s)). induction l as [|[i x] l IH]; intros S N; [constructor|].
    apply StronglySorted_inv in S as [S1 S2]. apply NoDup_cons in N as [N1 N2]. cbn. constructor; [by apply IH|].
    apply Forall_fmap. rewrite Forall_forall in S2 |- *. intros p P2. cbn.
    specialize (S2 p P2). unfold by_id in S2. cbn in S2. assert (p.1 <> i); [|lia]. intros <-. exact (N1 (list_elem_of_fmap_2 fst l p P2)).
  - intros i l. rewrite in_order_perm. apply elem_of_map_to_list.
Qed.
End admin.

(** ** Answers *)

(** An answer in XML is whole: the buffer has room for its header, the length
    and all of the document. *)
Lemma admin_raw_whole header doc :
  strlen doc < 2 ^ 31 ->
  let '(len, text) := admin_send_raw header doc in
  text = (header +:+ "Content-Length: " +:+ dec (strlen doc) +:+ crlf +:+ crlf +:+ doc)%string /\ strlen text < len.
Proof.
  intros B. unfold admin_send_raw. apply print_body_whole; [done|]. cbv zeta.
  set (n := if strlen doc + 1024 <? 4096 then 4096 else strlen doc + 1024). destruct (Z.ltb_spec n (strlen doc + strlen header + 64)); lia.
Qed.

(** ** Examples *)

Definition demo_query (name : string) : option string :=
  if streq name "mount" then Some "/a"%string else if streq name "fallback" then Some "/c"%string else None.

Definition demo_acl : acl := Acl 1 (replicate 10 ACL_POLICY_ALLOW) [] ACL_POLICY_ALLOW ACL_POLICY_ALLOW (-1) (-1).

Definition demo_admin : @admin_world unit := Admin_world (demo_server ∅) [] [] false tt 0.

Definition demo_request (command : string) (q : string -> option string) : option (answer * @admin_world unit) :=
  admin_request streq demo_config 100 (fun _ => Listener_info "::1" None None 0 false false)
    (fun _ => Source_info "::2" 0 false "audio/mpeg" true false) [] (fun _ _ => Text EmptyString) q "::1" (Some demo_acl)
    (admin_get_command command) OMODE_NORMAL 0 1 2 9 demo_admin.


(** ** What goes wrong *)

(** A request to manage users without an id keeps the configuration locked:
    the next time it is read again, the server waits for good. *)
Example manageauth_keeps_lock :
  match demo_request "manageauth" (fun _ => None) with
  | Some (a, w') => a = Error ICECAST_ERROR_ADMIN_MISSING_PARAMETER /\ aw_config_locks w' = 1
  | None => False
  end.
Proof. vm_compute. done. Qed.
