(* ===== verification/StatsDoc.v ===== *)
(** The statistics as a document, and the clients that are sent their events,
    of [stats.c].

    The sources and the configuration are looked up through parameters; a
    pointer that is used without being there is an error of the model. *)

From S2P Require Import Prelude Stats StatsFacts Mounts Connection Xml Playlist Admin.
From stdpp Require Import gmap sorting.
Local Open Scope Z_scope.

(** ** The document *)

Section document.
Context {F : Type}.
(** What is shown of a source there is: its history, the comments of its
    format, if it has one, and its state. *)
Record real_source := RealSource {
  rs_history : option playlist;
  rs_comments : option (list string);
  rs_source : Mounts.source
}.
Variable source_find_mount_raw : string -> option real_source.
(** The stacks of authenticators of the server and of the settings of a
    mount. *)
Variable authstack : list (@manager F).
Variable mount_authstack : string -> option (list (@manager F)).
Variable now : Z.
Variable listener_of : Z -> listener_info.

(** A node of the configuration's kind as one of a document. *)
Fixpoint as_xml (n : xml_node) : xml :=
  match n with
  | XmlNode name props text _ children =>
      Elem name props (match text with Some t => [Admin.Text t] | None => [] end ++ map as_xml children)
  end.

(** [__add_authstack]. *)
Definition add_authstack (stack : list (@manager F)) : xml := Elem "authentication" [] (map (fun a => admin_add_role a []) stack).

(** [__add_metadata], for a comment. *)
Definition add_metadata (tag : string) : list xml :=
  match strchr "=" tag with
  | None => []
  | Some (name, value) => [Admin.text_child (string_lower name) value]
  end.

(** [avl_get_first] to the end of a tree, of what is not hidden. *)
Definition shown_nodes (hidden : Z) (tree : gmap string stats_node) : list xml :=
  name ← tree_names tree;
  match tree !! name with
  | Some node => if Z.b2z (n_hidden node) <=? hidden then [Admin.text_child name (n_value node)] else []
  | None => []
  end.
Definition all_nodes (tree : gmap string stats_node) : list xml :=
  name ← tree_names tree;
  match tree !! name with Some node => [Admin.text_child name (n_value node)] | None => [] end.

(** The children of a source's element. *)
Definition dump_source (name : string) (src : stats_source) : option (list xml) :=
  real ← source_find_mount_raw name;
  let history := match rs_history real with Some p => [as_xml (playlist_render_xspf p)] | None => [] end in
  let metadata := Elem "metadata" [] (match rs_comments real with Some l => mjoin (map add_metadata l) | None => [] end) in
  stack ← mount_authstack name;
  Some (all_nodes (s_tree src) ++ history ++ [metadata; add_authstack stack]).

Definition is_shown (show_mount : option string) (hidden : Z) (name : string) (src : stats_source) : bool :=
  (Z.b2z (Stats.s_hidden src) <=? hidden) && match show_mount with None => true | Some m => streq m name end.

(** The loop of [_dump_stats_to_doc] over the mounts. *)
Fixpoint dump_sources (show_mount : option string) (hidden : Z) (names : list string) (sources : gmap string stats_source)
    : option (list (string * list xml)) :=
  match names with
  | [] => Some []
  | n :: r =>
      src ← sources !! n;
      if is_shown show_mount hidden n src then
        c ← dump_source n src; l ← dump_sources show_mount hidden r sources; Some ((n, c) :: l)
      else dump_sources show_mount hidden r sources
  end.

Definition source_element (p : string * list xml) : xml := Elem "source" [("mount"%string, p.1)] p.2.

(** [stats_get_xml] with [_dump_stats_to_doc]: with a mount asked for, the first
    of its elements has the listeners. *)
Definition stats_get_xml (show_hidden : Z) (show_mount : option string) (mode : operation_mode) (s : stats) : option xml :=
  l ← dump_sources show_mount show_hidden (tree_names (st_sources s)) (st_sources s);
  l ← match show_mount, l with
      | Some m, (n, c) :: r =>
          real ← source_find_mount_raw m;
          Some ((n, c ++ admin_add_listeners_to_mount now listener_of mode (rs_source real)) :: r)
      | _, _ => Some l
      end;
  Some (Elem "icestats" [] (shown_nodes show_hidden (st_global s) ++ [add_authstack authstack] ++ map source_element l)).

(** ** What is not shown *)

(** The statistics a reader may see: the global values and the mounts that are
    not hidden. *)
Definition visible_global (s : stats) : gmap string stats_node := filter (fun p => n_hidden p.2 = false) (st_global s).
Definition visible_sources (s : stats) : gmap string stats_source := filter (fun p => Stats.s_hidden p.2 = false) (st_sources s).

Lemma string_leb_cons c s d t :
  String.leb (String c s) (String d t) = match Ascii.compare c d with Lt => true | Eq => String.leb s t | Gt => false end.
Proof. unfold String.leb. cbn [String.compare]. by destruct (Ascii.compare c d). Qed.

Lemma string_leb_trans a b c : String.leb a b = true -> String.leb b c = true -> String.leb a c = true.
Proof.
  revert b c. induction a as [|x a IH]; intros b c; [by destruct b, c|]. destruct b as [|y b]; [done|]. destruct c as [|z c]; [done|].
  rewrite !string_leb_cons. unfold Ascii.compare.
  destruct (N.compare_spec (N_of_ascii x) (N_of_ascii y)), (N.compare_spec (N_of_ascii y) (N_of_ascii z)); try done;
    destruct (N.compare_spec (N_of_ascii x) (N_of_ascii z)); try done; try lia. apply IH.
Qed.

#[local] Instance name_le_trans : Transitive name_le.
Proof. intros a b c. apply string_leb_trans. Qed.
#[local] Instance name_le_total : Total name_le.
Proof. intros a b. apply String.leb_total. Qed.
#[local] Instance name_le_antisymm : AntiSymm (=) name_le.
Proof. intros a b. apply String.leb_antisym. Qed.

Lemma StronglySorted_filter {A} (R : relation A) (f : A -> bool) l : StronglySorted R l -> StronglySorted R (List.filter f l).
Proof.
  induction 1 as [|x l S IH Fx]; [constructor|]. cbn [List.filter]. destruct (f x); [|done]. constructor; [done|].
  rewrite Forall_forall in *. intros y I. apply Fx. apply list_elem_of_In, List.filter_In in I as [I _]. by apply list_elem_of_In.
Qed.

(** The names of a part of a tree, in the order of the whole. *)
Lemma tree_names_part {A} (m m' : gmap string A) (f : string -> bool) :
  (forall n, is_Some (m' !! n) <-> is_Some (m !! n) /\ f n = true) -> tree_names m' = List.filter f (tree_names m).
Proof.
  intros P. apply (StronglySorted_unique name_le).
  - apply StronglySorted_merge_sort; apply _.
  - apply StronglySorted_filter, StronglySorted_merge_sort; apply _.
  - apply NoDup_Permutation.
    + unfold tree_names. rewrite merge_sort_Permutation. apply NoDup_elements.
    + apply NoDup_ListNoDup, List.NoDup_filter, NoDup_ListNoDup. unfold tree_names. rewrite merge_sort_Permutation. apply NoDup_elements.
    + intros n. rewrite elem_of_tree_names, P, <- elem_of_tree_names, !list_elem_of_In. symmetry. apply List.filter_In.
Qed.

Lemma bind_filter {A B} (f : A -> bool) (g h : A -> list B) l :
  (forall x, x ∈ l -> if f x then g x = h x else h x = []) -> List.filter f l ≫= g = l ≫= h.
Proof.
  induction l as [|x l IH]; intros H; [done|]. cbn [List.filter]. pose proof (H x (list_elem_of_here _ _)) as Hx.
  specialize (IH (fun y I => H y (list_elem_of_further _ _ _ I))). destruct (f x); csimpl; by rewrite Hx, IH.
Qed.

Lemma shown_nodes_visible s : shown_nodes 0 (st_global s) = all_nodes (visible_global s).
Proof.
  unfold all_nodes, shown_nodes. set (f := fun n => match st_global s !! n with Some node => negb (n_hidden node) | None => false end).
  assert (forall n node, visible_global s !! n = Some node <-> st_global s !! n = Some node /\ n_hidden node = false) as V.
  { intros n node. unfold visible_global. apply map_lookup_filter_Some. }
  rewrite (tree_names_part (st_global s) (visible_global s) f).
  - symmetry. apply bind_filter. intros n _. unfold f. destruct (st_global s !! n) as [node|] eqn:E; [|done].
    destruct (n_hidden node) eqn:Hd; [done|]. by rewrite (proj2 (V n node)).
  - intros n. split.
    + intros [node [E Hd]%V]. split; [by eexists|]. unfold f. by rewrite E, Hd.
    + intros [[node E] Fn]. unfold f in Fn. rewrite E in Fn. exists node. apply V. split; [done|]. by apply negb_true_iff.
Qed.

Lemma dump_sources_visible show_mount s :
  dump_sources show_mount 0 (tree_names (st_sources s)) (st_sources s) =
  dump_sources show_mount 0 (tree_names (visible_sources s)) (visible_sources s).
Proof.
  set (f := fun n => match st_sources s !! n with Some src => negb (Stats.s_hidden src) | None => false end).
  assert (forall n src, visible_sources s !! n = Some src <-> st_sources s !! n = Some src /\ Stats.s_hidden src = false) as V.
  { intros n src. unfold visible_sources. apply map_lookup_filter_Some. }
  rewrite (tree_names_part (st_sources s) (visible_sources s) f).
  2: { intros n. split.
    + intros [src [E Hd]%V]. split; [by eexists|]. unfold f. by rewrite E, Hd.
    + intros [[src E] Fn]. unfold f in Fn. rewrite E in Fn. exists src. apply V. split; [done|]. by apply negb_true_iff. }
  assert (forall l, (forall n, n ∈ l -> is_Some (st_sources s !! n)) ->
    dump_sources show_mount 0 l (st_sources s) = dump_sources show_mount 0 (List.filter f l) (visible_sources s)) as K.
  { induction l as [|n l IH]; intros D; [done|]. cbn [List.filter]. destruct (D n (list_elem_of_here _ _)) as [src E].
    specialize (IH (fun y I => D y (list_elem_of_further _ _ _ I))). cbn [dump_sources]. rewrite E. run_bind.
    unfold f at 1. rewrite E. destruct (Stats.s_hidden src) eqn:Hd; cbn [negb].
    - unfold is_shown. by rewrite Hd.
    - cbn [dump_sources]. rewrite (proj2 (V n src) (conj E Hd)). run_bind. by rewrite IH. }
  apply K. intros n. by rewrite elem_of_tree_names.
Qed.

(** C23: what is hidden cannot be seen.  Two states of the statistics that agree
    in the global values and the mounts that are not hidden give the same
    document to a reader without the right to the hidden ones, whatever mount
    is asked for and in whatever form. *)
Theorem stats_hidden_unseen s s' show_mount mode :
  visible_global s = visible_global s' -> visible_sources s = visible_sources s' ->
  stats_get_xml 0 show_mount mode s = stats_get_xml 0 show_mount mode s'.
Proof.
  intros G S. unfold stats_get_xml. by rewrite !shown_nodes_visible, !dump_sources_visible, G, S.
Qed.

(** The document is made where every mount that is shown has a source and
    settings; a mount without one of them makes the server use a null
    pointer. *)
Lemma stats_document_made show_hidden mode s :
  is_Some (stats_get_xml show_hidden None mode s) <->
  forall n src, st_sources s !! n = Some src -> is_shown None show_hidden n src = true ->
    is_Some (source_find_mount_raw n) /\ is_Some (mount_authstack n).
Proof.
  assert (forall l, (forall n, n ∈ l -> is_Some (st_sources s !! n)) ->
    is_Some (dump_sources None show_hidden l (st_sources s)) <->
    forall n src, n ∈ l -> st_sources s !! n = Some src -> is_shown None show_hidden n src = true ->
      is_Some (source_find_mount_raw n) /\ is_Some (mount_authstack n)) as K.
  { induction l as [|n l IH]; intros D; cbn [dump_sources].
    - split; [|by eexists]. by intros _ n src ?%not_elem_of_nil.
    - destruct (D n (list_elem_of_here _ _)) as [src E]. specialize (IH (fun y I => D y (list_elem_of_further _ _ _ I))).
      rewrite E. run_bind. destruct (is_shown None show_hidden n src) eqn:Sh.
      + unfold dump_source. destruct (source_find_mount_raw n) as [real|] eqn:R.
        2: { run_bind. split; [by intros []|]. intros H. by destruct (H n src (list_elem_of_here _ _) E Sh) as [[] _]; congruence. }
        run_bind. destruct (mount_authstack n) as [stack|] eqn:A.
        2: { run_bind. split; [by intros []|]. intros H. by destruct (H n src (list_elem_of_here _ _) E Sh) as [_ []]; congruence. }
        run_bind. transitivity (is_Some (dump_sources None show_hidden l (st_sources s))).
        { destruct (dump_sources None show_hidden l (st_sources s)); run_bind; by rewrite !is_Some_alt. }
        rewrite IH. split; intros H m src0 I; [|by apply H; right].
        apply elem_of_cons in I as [->|I]; [intros _ _; split; by eexists|by apply H].
      + rewrite IH. split; intros H m src0 I; [|by apply H; right].
        apply elem_of_cons in I as [->|I]; [|by apply H]. intros E'. rewrite E in E'. injection E' as <-. by rewrite Sh. }
  unfold stats_get_xml. transitivity (is_Some (dump_sources None show_hidden (tree_names (st_sources s)) (st_sources s))).
  { destruct (dump_sources None show_hidden _ _); run_bind; by rewrite !is_Some_alt. }
  rewrite K by (intros n; by rewrite elem_of_tree_names). split; intros H n src.
  - intros E. apply H; [|done]. apply elem_of_tree_names. by eexists.
  - intros _. apply H.
Qed.
End document.

(** ** The clients of the statistics *)

(** *** Calls with more to them *)

Section more_calls.
Variable xmlCheckUTF8 : string -> bool.
(** What [xmlCharEncInFunc] makes of a text with the handler of a charset, if
    there is one and it makes anything. *)
Variable convert : string -> string -> option string.
(** What [strftime] makes of a format and the time. *)
Variable strftime : string -> string.

(** [stats_event_conv]. *)
Definition stats_event_conv (mount name : option string) (value : string) (charset : option string) (q : list stats_event) : list stats_event :=
  let metadata := match charset with Some c => default value (convert c value) | None => value end in
  stats_event_call xmlCheckUTF8 mount name (Some metadata) q.

(** [__format_time] into a buffer of [len] bytes. *)
Definition format_time (len : nat) (format : string) : string := fst (snprintf len (strftime format +:+ strftime "%z")%string).

Definition stats_event_time (mount name : option string) (q : list stats_event) : list stats_event :=
  stats_event_call xmlCheckUTF8 mount name (Some (format_time 100 "%a, %d %b %Y %H:%M:%S ")) q.
Definition stats_event_time_iso8601 (mount name : option string) (q : list stats_event) : list stats_event :=
  stats_event_call xmlCheckUTF8 mount name (Some (format_time 100 "%Y-%m-%dT%H:%M:%S")) q.

(** [stats_global], of the texts of the configuration. *)
Definition stats_global (server_id hostname location admin : option string) (q : list stats_event) : list stats_event :=
  fold_left (fun q p => stats_event_call xmlCheckUTF8 None (Some p.1) p.2 q)
    [("server_id", server_id); ("host", hostname); ("location", location); ("admin", admin)]%string q.
End more_calls.

(** What happens at a turn of a client's thread: whether the statistics run,
    the events put into its queue since the last turn, and whether the
    connection has failed after the sending. *)
Record client_turn := ClientTurn { ct_running : bool; ct_new : list stats_event; ct_error : bool }.

(** The loop of [stats_connection]: the lines sent and the events that are
    left in the queue. *)
Fixpoint stats_client_loop (ts : list client_turn) (queue : list stats_event) : list string * list stats_event :=
  match ts with
  | [] => ([], queue)
  | t :: r =>
      let queue := queue ++ ct_new t in
      if negb (ct_running t) then ([], queue)
      else
        match queue with
        | [] => stats_client_loop r []
        | e :: q =>
            match event_line e with
            | Some line => if ct_error t then ([line], q) else let '(sent, rest) := stats_client_loop r q in (line :: sent, rest)
            | None => stats_client_loop r q
            end
        end
  end.

Section connection.
(** [xmlCheckUTF8], of libxml. *)
Variable xmlCheckUTF8 : string -> bool.

(** [stats_connection]: the lines sent, the events left, and the number of
    clients with what the thread tells of it. *)
Definition stats_connection (ts : list client_turn) (s : stats) (threads : Z) (q : list Stats.stats_event)
    : list string * list stats_event * Z * list Stats.stats_event :=
  let threads := threads + 1 in
  let q := stats_event_args xmlCheckUTF8 None (Some "stats"%string) (dec threads) q in
  let '(sent, rest) := stats_client_loop ts (register_queue s) in
  let threads := threads - 1 in
  (sent, rest, threads, stats_event_args xmlCheckUTF8 None (Some "stats"%string) (dec threads) q).
End connection.

(** The events a client's thread sees, up to the end of its turns. *)
Definition arriving (ts : list client_turn) : list stats_event := mjoin (map ct_new ts).

Lemma arriving_cons t ts : arriving (t :: ts) = ct_new t ++ arriving ts.
Proof. done. Qed.

(** a client of the statistics.  The lines it is sent are those of the
    events of its queue, first the values there were when it came and then the
    changes, in order and without a gap but for the lines that are too long;
    and where the connection does not fail every event that has come is sent
    once there were as many turns. *)
Theorem stats_client_lines ts queue :
  let '(sent, rest) := stats_client_loop ts queue in
  (exists ts' told, ts' `prefix_of` ts /\ queue ++ arriving ts' = told ++ rest /\ sent = omap event_line told) /\
  (forallb (fun t => ct_running t && negb (ct_error t) && bool_decide (ct_new t = [])) ts = true ->
   (length queue <= length ts)%nat -> sent = omap event_line queue /\ rest = []).
Proof.
  revert queue. induction ts as [|t r IH]; intros queue; cbn [stats_client_loop].
  { split; [exists [], []; cbn; split_and!; try done; by rewrite app_nil_r|]. intros _ L. destruct queue; [done|cbn in L; lia]. }
  destruct (ct_running t) eqn:R; cbn [negb].
  2: { split; [|by cbn [forallb]; rewrite R]. exists [t], []. split_and!; [by exists r| |done]. rewrite arriving_cons. unfold arriving. cbn. by rewrite app_nil_r. }
  cbn [forallb length]. rewrite R. cbn [andb].
  assert (forall queue1 told, queue ++ ct_new t = told ++ queue1 ->
    let '(sent, rest) := stats_client_loop r queue1 in
    (exists ts' told', ts' `prefix_of` (t :: r) /\ queue ++ arriving ts' = (told ++ told') ++ rest /\ sent = omap event_line told') /\
    (forallb (fun t => ct_running t && negb (ct_error t) && bool_decide (ct_new t = [])) r = true ->
      (length queue1 <= length r)%nat -> sent = omap event_line queue1 /\ rest = [])) as Step.
  { intros queue1 told Q. specialize (IH queue1). destruct (stats_client_loop r queue1) as [sent rest].
    destruct IH as [(ts' & told' & P & E & S) A]. split; [|exact A]. exists (t :: ts'), told'. split_and!; [by apply prefix_cons| |done].
    rewrite arriving_cons, app_assoc, Q, <- !app_assoc. by f_equal. }
  destruct (queue ++ ct_new t) as [|e q] eqn:Q.
  - specialize (Step [] [] eq_refl). destruct (stats_client_loop r []) as [sent rest]. destruct Step as [(ts' & told & P & E & S) A].
    split; [by exists ts', told|]. intros [_ F]%andb_true_iff _. destruct queue; [|done]. apply A; [done|cbn; lia].
  - specialize (Step q [e] eq_refl).
    assert (forall b, negb b && bool_decide (ct_new t = []) && forallb (fun t => ct_running t && negb (ct_error t) && bool_decide (ct_new t = [])) r = true ->
      b = false /\ queue = e :: q /\ forallb (fun t => ct_running t && negb (ct_error t) && bool_decide (ct_new t = [])) r = true) as Quiet.
    { intros b [[Hb Nw%bool_decide_eq_true]%andb_true_iff F]%andb_true_iff. rewrite Nw, app_nil_r in Q. split_and!; try done. by destruct b. }
    destruct (event_line e) as [line|] eqn:Ln; [destruct (ct_error t) eqn:Er|].
    + split; [|by intros [? _]%(Quiet true)]. exists [t], [e]. split_and!; [by exists r| |cbn; by rewrite Ln].
      rewrite arriving_cons, app_assoc, Q. unfold arriving. cbn. by rewrite app_nil_r.
    + destruct (stats_client_loop r q) as [sent rest]. destruct Step as [(ts' & told & P & E & S) A]. split.
      * exists ts', (e :: told). split_and!; [done|done|]. cbn. by rewrite Ln, S.
      * intros H L. destruct (Quiet false H) as (_ & -> & F). cbn in L. destruct (A F) as [-> ->]; [lia|]. cbn. by rewrite Ln.
    + destruct (stats_client_loop r q) as [sent rest]. destruct Step as [(ts' & told & P & E & S) A]. split.
      * exists ts', (e :: told). split_and!; [done|done|]. cbn. by rewrite Ln, S.
      * intros [[_ N]%andb_true_iff F]%andb_true_iff L. destruct (Quiet false) as (_ & -> & _); [by rewrite N, F|].
        cbn in L. destruct (A F) as [-> ->]; [lia|]. cbn. by rewrite Ln.
Qed.

(** ** Runs *)

Definition demo_real : real_source :=
  RealSource (Some (Playlist.Playlist 1 2 [PlaylistTrack (Some "Song"%string) None None None])) (Some ["ARTIST=Band"; "noequals"]%string)
    (new_source "/a").
Definition demo_stats_of (secret : string) : stats :=
  Stats {["server_id"%string := StatsNode "Icecast" false; "key"%string := StatsNode secret true]}
    {["/a"%string := StatsSource false {["listeners"%string := StatsNode "0" false; "url"%string := StatsNode "x" true]};
      "/b"%string := StatsSource true {["listeners"%string := StatsNode secret false]}]}.
Definition demo_find (m : string) : option real_source := if streq m "/a" then Some demo_real else None.
Definition demo_stacks (m : string) : option (list (@manager unit)) := if streq m "/a" then Some [] else None.
Definition demo_listener (id : Z) : listener_info := Listener_info "::1" None None 0 false false.

Lemma stats_hidden_unseen_witness :
  stats_get_xml demo_find [] demo_stacks 100 demo_listener 0 (Some "/a"%string) OMODE_NORMAL (demo_stats_of "one") =
  stats_get_xml demo_find [] demo_stacks 100 demo_listener 0 (Some "/a"%string) OMODE_NORMAL (demo_stats_of "two").
Proof. apply (stats_hidden_unseen demo_find [] demo_stacks 100 demo_listener); vm_compute; reflexivity. Defined.

(** The document; a value that is hidden in a mount is shown all the same. *)
Example stats_document :
  stats_get_xml demo_find [] demo_stacks 100 demo_listener 0 None OMODE_NORMAL (demo_stats_of "one") =
  Some (Elem "icestats" [] [Admin.text_child "server_id" "Icecast"; Elem "authentication" [] [];
    Elem "source" [("mount", "/a")]
      [Admin.text_child "listeners" "0"; Admin.text_child "url" "x";
       Elem "playlist" [("version", "1"); ("xmlns", "http://xspf.org/ns/0/")] [Elem "trackList" [] [Elem "track" [] [Admin.text_child "title" "Song"]]];
       Elem "metadata" [] [Admin.text_child "artist" "Band"]; Elem "authentication" [] []]])%string.
Proof. vm_compute. reflexivity. Qed.

(** A mount the configuration does not know. *)
Example stats_no_settings :
  stats_get_xml demo_find [] (fun _ => @None (list (@manager unit))) 100 demo_listener 0 None OMODE_NORMAL (demo_stats_of "one") = None.
Proof. vm_compute. reflexivity. Qed.
