(* ===== verification/FormatMp3.v ===== *)
(** The MP3 format plugin, [format_mp3.c]: inline (ICY) metadata taken out of
    what a source sends, and put between the audio a listener gets.

    A byte array is the list of its bytes; a [char *] into one reaches up to
    the first zero byte ([cstrl]).  A metadata buffer never changes once it is
    built, so a pointer to one is its number together with its contents. *)

From S2P Require Import Prelude.
Local Open Scope Z_scope.

Abbreviation bytes := (list ascii).

(** ** C strings in byte arrays *)

Definition txt (s : string) : bytes := String.list_ascii_of_string s.

Fixpoint cstrl (l : bytes) : bytes :=
  match l with
  | [] => []
  | c :: r => if Ascii.eqb c NUL then [] else c :: cstrl r
  end.

Fixpoint prefix_of (p l : bytes) : bool :=
  match p, l with
  | [], _ => true
  | a :: p', b :: l' => Ascii.eqb a b && prefix_of p' l'
  | _, [] => false
  end.

(** [strstr]: the text from the first occurrence on, and what is before it. *)
Fixpoint strstr (p l : bytes) : option (bytes * bytes) :=
  if prefix_of p l then Some ([], l)
  else match l with
       | [] => None
       | c :: r => match strstr p r with
                   | Some (a, b) => Some (c :: a, b)
                   | None => None
                   end
       end.

Definition lenZ (l : bytes) : Z := Z.of_nat (length l).

(** [memcpy (buf + off, src, length src)]; [None] when it leaves the array. *)
Definition memcpy (buf : bytes) (off : Z) (src : bytes) : option bytes :=
  if (0 <=? off) && (off + lenZ src <=? lenZ buf)
  then Some (take (Z.to_nat off) buf ++ src ++ drop (Z.to_nat off + length src) buf)
  else None.

(** [snprintf (buf + off, size, "%s", text)] with [size > 0]. *)
Definition snprintf_at (buf : bytes) (off size : Z) (text : bytes) : option bytes :=
  memcpy buf off (take (Z.to_nat (size - 1)) text ++ [NUL]).

(** ** The plugin's state *)

Record metabuf := Meta { m_id : Z; m_data : bytes }.

(** The text of a metadata buffer, after its length byte. *)
Definition meta_text (m : metabuf) : bytes := cstrl (drop 1 (m_data m)).

Record mp3_state := Mp3State {
  st_inline_metadata_interval : Z;
  st_offset : Z;
  st_interval : Z;
  st_inline_url : option (Z * bytes);   (** the buffer pointed into, and the text *)
  st_update_metadata : bool;
  st_metadata : metabuf;
  st_read_data : option bytes;          (** the [read_count] bytes read so far *)
  st_build_metadata_len : Z;
  st_build_metadata_offset : Z;
  st_build_metadata : bytes;
  st_next_id : Z                        (** the number of the next buffer *)
}.

Definition set_offset (n : Z) (s : mp3_state) : mp3_state :=
  Mp3State (st_inline_metadata_interval s) n (st_interval s) (st_inline_url s) (st_update_metadata s)
    (st_metadata s) (st_read_data s) (st_build_metadata_len s) (st_build_metadata_offset s)
    (st_build_metadata s) (st_next_id s).
Definition set_interval (n : Z) (s : mp3_state) : mp3_state :=
  Mp3State (st_inline_metadata_interval s) (st_offset s) n (st_inline_url s) (st_update_metadata s)
    (st_metadata s) (st_read_data s) (st_build_metadata_len s) (st_build_metadata_offset s)
    (st_build_metadata s) (st_next_id s).
Definition set_inline_url (u : option (Z * bytes)) (s : mp3_state) : mp3_state :=
  Mp3State (st_inline_metadata_interval s) (st_offset s) (st_interval s) u (st_update_metadata s)
    (st_metadata s) (st_read_data s) (st_build_metadata_len s) (st_build_metadata_offset s)
    (st_build_metadata s) (st_next_id s).
Definition set_update_metadata (b : bool) (s : mp3_state) : mp3_state :=
  Mp3State (st_inline_metadata_interval s) (st_offset s) (st_interval s) (st_inline_url s) b
    (st_metadata s) (st_read_data s) (st_build_metadata_len s) (st_build_metadata_offset s)
    (st_build_metadata s) (st_next_id s).
(** A new metadata buffer, in place of the one before. *)
Definition set_metadata (data : bytes) (s : mp3_state) : mp3_state :=
  Mp3State (st_inline_metadata_interval s) (st_offset s) (st_interval s) (st_inline_url s) (st_update_metadata s)
    (Meta (st_next_id s) data) (st_read_data s) (st_build_metadata_len s) (st_build_metadata_offset s)
    (st_build_metadata s) (st_next_id s + 1).
Definition set_read_data (d : option bytes) (s : mp3_state) : mp3_state :=
  Mp3State (st_inline_metadata_interval s) (st_offset s) (st_interval s) (st_inline_url s) (st_update_metadata s)
    (st_metadata s) d (st_build_metadata_len s) (st_build_metadata_offset s)
    (st_build_metadata s) (st_next_id s).
Definition set_build (len off : Z) (b : bytes) (s : mp3_state) : mp3_state :=
  Mp3State (st_inline_metadata_interval s) (st_offset s) (st_interval s) (st_inline_url s) (st_update_metadata s)
    (st_metadata s) (st_read_data s) len off b (st_next_id s).

Definition ICY_METADATA_INTERVAL : Z := 16000.
Definition MAX_META_LEN : Z := 255 * 16.
Definition REFBUF_SIZE : Z := 1400.

Definition zeros (n : Z) : bytes := replicate (Z.to_nat n) NUL.

(** The metadata a stream starts with. *)
Definition blank_metadata : bytes := chr 1 :: txt "StreamTitle='';" ++ [NUL].

(** [format_mp3_get_plugin]; the second component tells whether the buffers
    come from [mp3_get_filter_meta]. *)
Definition format_mp3_get_plugin (icy_metaint : option string) : mp3_state * bool :=
  let inline := match icy_metaint with Some m => atoi m | None => 0 end in
  let filtered := 0 <? inline in
  (Mp3State inline 0 (if filtered then inline else -1) None false (Meta 0 blank_metadata) None 0 0
     (zeros 4081) 1, filtered).

(** [format_mp3_apply_settings]: the interval and the character set, from the
    settings of the mount and the header of the source. *)
Definition format_mp3_apply_settings (mount : option (Z * option string)) (icy_metaint : option string)
    (s : mp3_state) : string * mp3_state :=
  let '(i, charset) :=
    match mount with
    | Some (interval, charset) => (if 0 <=? interval then interval else -1, charset)
    | None => (-1, None)
    end in
  let i :=
    if i <? 0 then
      match icy_metaint with
      | Some m => if 0 <? atoi m then atoi m else ICY_METADATA_INTERVAL
      | None => ICY_METADATA_INTERVAL
      end
    else i in
  (default "ISO8859-1"%string charset, set_interval i s).

(** ** Titles *)

(** [filter_shoutcast_metadata]: the title that is logged, counted and pushed
    to the history. *)
Definition filter_shoutcast_metadata (metadata : bytes) : option bytes :=
  let t := cstrl (drop 1 metadata) in
  if prefix_of (txt "StreamTitle='") t then
    match strstr (txt "';") (drop 13 t) with
    | Some (title, _) => Some title
    | None => None
    end
  else None.

Definition opt_len (t : option bytes) : Z := match t with Some t => lenZ t | None => 0 end.

(** The length of the message, its terminator included. *)
Definition title_len (artist title url : option bytes) (inline_url : option (Z * bytes)) : Z :=
  u32 (16 + opt_len artist + opt_len title +
       (match artist, title with Some _, Some _ => 3 | _, _ => 0 end) +
       match inline_url with
       | Some (_, u) => match strstr (txt "';") u with Some (a, _) => lenZ a + 2 | None => 0 end
       | None => match url with Some u => lenZ u + 14 | None => 0 end
       end).

Definition title_text (len_byte : Z) (artist title : option bytes) : bytes :=
  chr len_byte :: txt "StreamTitle='" ++
  match artist, title with
  | Some a, Some t => a ++ txt " - " ++ t
  | _, Some t => t
  | _, None => []
  end ++ txt "';".

(** The rest of the message, in the space that is left. *)
Definition add_url (size r : Z) (url : option bytes) (inline_url : option (Z * bytes)) (data : bytes) :
    option bytes :=
  if 0 <? r then
    match inline_url with
    | Some (_, u) =>
        let urllen := match strstr (txt "';") u with Some (a, _) => lenZ a + 2 | None => size end in
        if urllen <? i64 (size - r)
        then snprintf_at data r (u64 (size - r)) (txt "StreamUrl='" ++ drop 11 u ++ txt "';")
        else Some data
    | None =>
        match url with
        | Some u => snprintf_at data r (u64 (size - r)) (txt "StreamUrl='" ++ u ++ txt "';")
        | None => Some data
        end
    end
  else Some data.

(** [mp3_set_title], with the comments of the stream as arguments: the title
    pushed and the new state. *)
Definition mp3_set_title (url_artist url_title url : option bytes) (s : mp3_state) :
    option (option bytes * mp3_state) :=
  let len := title_len url_artist url_title url (st_inline_url s) in
  if MAX_META_LEN <? len then Some (None, s)
  else
    let len_byte := u8 ((len - 1) / 16 + 1) in
    let size := len_byte * 16 + 1 in
    let text := title_text len_byte url_artist url_title in
    data ← snprintf_at (zeros size) 0 size text;
    data ← add_url size (lenZ text) url (st_inline_url s) data;
    Some (filter_shoutcast_metadata data, set_metadata data s).

(** [mp3_set_tag]: which comment a tag sets ([None]: only the mark that the
    metadata has to be built again). *)
Definition mp3_set_tag (tag : option string) (s : mp3_state) : option string * mp3_state :=
  match tag with
  | None => (None, set_update_metadata true s)
  | Some t =>
      (Some (if streq t "title" || streq t "song" then "X_ICY_TITLE"%string
             else if streq t "artist" then "X_ICY_ARTIST"%string
             else if streq t "url" then "X_ICY_URL"%string
             else t), s)
  end.

(** ** Reading from the source *)

(** What [client_read_bytes] finds: bytes, or a failure that may be final. *)
Inductive read_result := ReadBytes (b : bytes) | ReadFailed (error : bool).

#[export] Instance metabuf_eq_dec : EqDecision metabuf.
Proof. solve_decision. Defined.

(** A buffer of the queue: its bytes and the metadata associated with it. *)
Record mp3_buf := Mp3Buf { b_data : bytes; b_associated : option metabuf }.

(** [complete_read]: the bytes read are kept until there are
    [REFBUF_SIZE] of them. *)
Definition complete_read (r : read_result) (s : mp3_state) : bool * mp3_state :=
  let have := default [] (st_read_data s) in
  match r with
  | ReadFailed error => (false, set_read_data (if error then None else Some have) s)
  | ReadBytes b =>
      let got := take (Z.to_nat (REFBUF_SIZE - lenZ have)) b in
      let now := have ++ got in
      if lenZ now <? REFBUF_SIZE
      then (false, set_read_data (match now with [] => None | _ => Some now end) s)
      else (true, set_read_data (Some now) s)
  end.

(** What a read from the source comes to: nothing yet, a buffer, or the end of
    the stream. *)
Inductive mp3_outcome := Mp3None | Mp3Buffer (b : mp3_buf) | Mp3Stop.

#[export] Instance mp3_buf_eq_dec : EqDecision mp3_buf.
Proof. solve_decision. Defined.
#[export] Instance mp3_outcome_eq_dec : EqDecision mp3_outcome.
Proof. solve_decision. Defined.

(** The metadata is built again when it was marked so.  The comments are
    those of the stream. *)
Definition refresh_title (c : option bytes * option bytes * option bytes) (s : mp3_state) : option mp3_state :=
  if st_update_metadata s then
    '(_, s) ← mp3_set_title c.1.1 c.1.2 c.2 s; Some (set_update_metadata false s)
  else Some s.

Definition mp3_get_no_meta (c : option bytes * option bytes * option bytes) (r : read_result) (s : mp3_state) :
    option (mp3_outcome * mp3_state) :=
  let '(ready, s) := complete_read r s in
  if ready then
    let data := default [] (st_read_data s) in
    s ← refresh_title c (set_read_data None s);
    Some (Mp3Buffer (Mp3Buf data (Some (st_metadata s))), s)
  else Some (Mp3None, s).

(** What is done where a block of metadata is due: wait for the rest of it,
    go on behind it, or end the stream. *)
Inductive block_step := BlockWait (s : mp3_state) | BlockNext (src : bytes) (s : mp3_state) | BlockBad (s : mp3_state).

Definition fill_block (src : bytes) (s : mp3_state) : option block_step :=
  let len := st_build_metadata_len s in
  let off := st_build_metadata_offset s in
  let metadata_remaining := u32 (len - off) in
  if lenZ src <? metadata_remaining then
    b ← memcpy (st_build_metadata s) off src;
    Some (BlockWait (set_build len (u32 (off + lenZ src)) b s))
  else
    b ← memcpy (st_build_metadata s) off (take (Z.to_nat (u32 (metadata_remaining - 1))) src);
    let src := drop (Z.to_nat metadata_remaining) src in
    let next s := Some (BlockNext src (set_offset 0 (set_build 0 off b s))) in
    if (1 <? len) && negb (bool_decide (cstrl (drop 1 b) = meta_text (st_metadata s))) then
      let meta := take (Z.to_nat len) b in
      if prefix_of (txt "StreamTitle=") (cstrl (drop 1 meta)) then
        let url := match strstr (txt "StreamUrl='") (cstrl (drop 1 meta)) with
                   | Some (_, u) => Some (st_next_id s, u)
                   | None => None
                   end in
        next (set_inline_url url (set_metadata meta s))
      else Some (BlockBad (set_build len off b s))
    else next s.

(** A block starts with its length byte. *)
Definition filter_block (src : bytes) (s : mp3_state) : option block_step :=
  fill_block src
    (if st_build_metadata_len s =? 0
     then set_build (1 + code (default NUL (head src)) * 16) 0 (zeros 4081) s else s).

(** The loop of [mp3_get_filter_meta]: [src] are the [bytes] bytes not yet
    looked at, [acc] the [refbuf->len] bytes of audio before them in the
    buffer.  [None] in the result is the end of the stream. *)
Fixpoint filter_loop (fuel : nat) (src acc : bytes) (s : mp3_state) : option (option bytes * mp3_state) :=
  match fuel with
  | O => None
  | S fuel' =>
      match src with
      | [] => Some (Some acc, s)
      | _ :: _ =>
          let bytes := lenZ src in
          let mp3_block := u32 (st_inline_metadata_interval s - st_offset s) in
          if bytes <=? mp3_block then
            Some (Some (acc ++ src), set_offset (i32 (st_offset s + bytes)) s)
          else if negb (mp3_block =? 0) then
            let n := Z.to_nat mp3_block in
            filter_loop fuel' (drop n src) (acc ++ take n src) (set_offset (i32 (st_offset s + mp3_block)) s)
          else
            t ← filter_block src s;
            match t with
            | BlockWait s => Some (Some acc, s)
            | BlockNext src s => filter_loop fuel' src acc s
            | BlockBad s => Some (None, s)
            end
      end
  end.

Definition mp3_get_filter_meta (c : option bytes * option bytes * option bytes) (r : read_result)
    (s : mp3_state) : option (mp3_outcome * mp3_state) :=
  let '(ready, s) := complete_read r s in
  if ready then
    let data := default [] (st_read_data s) in
    s ← refresh_title c (set_read_data None s);
    '(res, s) ← filter_loop (S (length data)) data [] s;
    match res with
    | None => Some (Mp3Stop, s)
    | Some [] => Some (Mp3None, s)
    | Some acc => Some (Mp3Buffer (Mp3Buf acc (Some (st_metadata s))), s)
    end
  else Some (Mp3None, s).

(** ** Sending to a listener *)

Record mp3_client := Mp3Client {
  mc_interval : Z;
  mc_metadata_offset : Z;
  mc_since_meta_block : Z;
  mc_in_metadata : bool;
  mc_associated : option metabuf
}.

(** A listener with its place in its buffer, the answers of its connection to
    come and the bytes it has been sent. *)
Record writer := Writer {
  w_mp3 : mp3_client;
  w_pos : Z;
  w_net : list Z;
  w_sent : bytes
}.

Definition w_set_mp3 (m : mp3_client) (w : writer) : writer := Writer m (w_pos w) (w_net w) (w_sent w).
Definition w_set_pos (n : Z) (w : writer) : writer := Writer (w_mp3 w) n (w_net w) (w_sent w).

(** [client_send_bytes (client, buf + off, len)]: the connection fails or
    takes some of the bytes.  [None] when they are not all in the array. *)
Definition client_send_bytes (buf : bytes) (off len : Z) (w : writer) : option (Z * writer) :=
  if (0 <=? off) && (off + len <=? lenZ buf) then
    let '(a, net) := match w_net w with [] => (-1, []) | a :: r => (a, r) end in
    let ret := if a <? 0 then -1 else Z.min a len in
    Some (ret, Writer (w_mp3 w) (w_pos w) net
                 (w_sent w ++ take (Z.to_nat ret) (drop (Z.to_nat off) buf)))
  else None.

(** [associated != client_mp3->associated] compares the buffers, not what is
    in them. *)
Definition same_meta (a b : option metabuf) : bool :=
  match a, b with
  | Some m, Some n => m_id m =? m_id n
  | None, None => true
  | _, _ => false
  end.

(** The metadata of a turn: the array and the place in it to send from. *)
Definition metadata_to_send (associated : option metabuf) (m : mp3_client) : bytes * Z :=
  match associated with
  | Some a => if same_meta associated (mc_associated m) then ([NUL], 0) else (m_data a, mc_metadata_offset m)
  | None => (blank_metadata, mc_metadata_offset m)
  end.

Definition send_stream_metadata (associated : option metabuf) (w : writer) : option (Z * writer) :=
  let '(array, off) := metadata_to_send associated (w_mp3 w) in
  let meta_len := i32 (lenZ array - off) in
  '(ret, w) ← client_send_bytes array off (u32 meta_len) w;
  let m := w_mp3 w in
  if ret =? meta_len then
    Some (ret, w_set_mp3 (Mp3Client (mc_interval m) 0 0 false associated) w)
  else
    let off := if 0 <? ret then mc_metadata_offset m + ret else mc_metadata_offset m in
    Some (Z.max 0 ret, w_set_mp3 (Mp3Client (mc_interval m) off (mc_since_meta_block m) true (mc_associated m)) w).

(** Bytes of the buffer: what is sent moves the listener on. *)
Definition send_audio (data : bytes) (off len : Z) (w : writer) : option (Z * writer) :=
  '(ret, w) ← client_send_bytes data off len w;
  let m := w_mp3 w in
  if 0 <? ret then
    Some (ret, w_set_pos (w_pos w + ret) (w_set_mp3 (Mp3Client (mc_interval m) (mc_metadata_offset m)
      (u32 (mc_since_meta_block m + ret)) (mc_in_metadata m) (mc_associated m)) w))
  else Some (ret, w).

(** The last step of [format_mp3_write_buf_to_client]. *)
Definition write_rest (data : bytes) (off len written : Z) (w : writer) : option (Z * writer) :=
  if len =? 0 then Some (written, w)
  else
    '(ret, w) ← send_audio data off len w;
    Some (written + Z.max 0 ret, w).

(** The steps after any metadata left over. *)
Definition write_block (refbuf : mp3_buf) (off len written : Z) (w : writer) : option (Z * writer) :=
  let data := b_data refbuf in
  let interval := mc_interval (w_mp3 w) in
  let remaining := u32 (interval - mc_since_meta_block (w_mp3 w)) in
  if negb (interval =? 0) && (remaining <=? len) then
    '(ret, w) ← (if remaining =? 0 then Some (0, w) else send_audio data off remaining w);
    if ret <? remaining then Some (written + Z.max 0 ret, w)
    else
      let written := written + ret in
      '(ret, w) ← send_stream_metadata (b_associated refbuf) w;
      if mc_in_metadata (w_mp3 w) then Some (written + ret, w)
      else
        let len := len - remaining in
        write_rest data (off + remaining) (if interval <? len then interval else len) (written + ret) w
  else write_rest data off len written w.

Definition format_mp3_write_buf_to_client (refbuf : mp3_buf) (w : writer) : option (Z * writer) :=
  let off := w_pos w in
  let len := u32 (lenZ (b_data refbuf) - w_pos w) in
  if mc_in_metadata (w_mp3 w) then
    '(ret, w) ← send_stream_metadata (b_associated refbuf) w;
    if mc_in_metadata (w_mp3 w) then Some (ret, w)
    else write_block refbuf off len ret w
  else write_block refbuf off len 0 w.

(** ** The headers of a listener *)

(** The space a listener's buffer has. *)
Definition CLIENT_BUFFER : Z := 4096.

(** [snprintf] at a place, the space left being counted down: with no space
    at all nothing is written. *)
Fixpoint put_texts (texts : list bytes) (buf : bytes) (ptr remaining : Z) : option (bytes * Z) :=
  match texts with
  | [] => Some (buf, remaining)
  | t :: r =>
      buf ← (if remaining =? 0 then Some buf else snprintf_at buf ptr remaining t);
      put_texts r buf (ptr + lenZ t) (u32 (remaining - lenZ t))
  end.

(** The interval a listener that asks for metadata gets. *)
Definition client_interval (icy_metadata : option string) (s : mp3_state) : Z :=
  match icy_metadata with
  | Some m => if atoi m =? 0 then 0 else if 0 <=? st_interval s then st_interval s else ICY_METADATA_INTERVAL
  | None => 0
  end.

(** [format_mp3_create_client_data]: the headers so far are the first [len]
    bytes of the buffer; their last two are overwritten.  [flash] tells
    whether the listener is taken for a flash player. *)
Definition mp3_extra_headers (flash : bool) (interval : Z) : list bytes :=
  (if flash then [txt "Content-Length: 221183499" ++ [chr 13; chr 10]] else []) ++
  (if interval =? 0 then [] else [txt "icy-metaint:" ++ txt (dec interval) ++ [chr 13; chr 10]]).

Definition format_mp3_create_client_data (flash : bool) (icy_metadata : option string) (s : mp3_state)
    (buf : bytes) (len : Z) : option (mp3_client * bytes * Z) :=
  let remaining := u32 (CLIENT_BUFFER - len + 2) in
  let interval := client_interval icy_metadata s in
  '(buf, remaining) ← put_texts (mp3_extra_headers flash interval ++ [[chr 13; chr 10]]) buf (len - 2) remaining;
  Some (Mp3Client interval 0 0 false None, buf, u32 (CLIENT_BUFFER - remaining)).
