(* ===== verification/FormatMp3Facts.v ===== *)
(** What the wire format of [FormatMp3.v] means, as a receiver that looks at
    one byte at a time, and the theorems that both ends of the plugin agree
    with it: the filter of a source and the writer of a listener. *)

From S2P Require Import Prelude FormatMp3.
Local Open Scope Z_scope.

(** ** The receiver *)

(** Bytes of audio since the last block, bytes of the block still to come and
    the bytes of it seen. *)
Record icy := Icy { i_since : Z; i_left : Z; i_blk : bytes }.

Definition icy_start : icy := Icy 0 0 [].

(** One byte: the new state, the audio and the block it completes. *)
Definition icy_step (I : Z) (s : icy) (c : ascii) : icy * bytes * list bytes :=
  if I =? 0 then (s, [c], [])
  else if 0 <? i_left s then
    let b := i_blk s ++ [c] in
    if i_left s =? 1 then (icy_start, [], [b]) else (Icy 0 (i_left s - 1) b, [], [])
  else if i_since s =? I then
    if code c =? 0 then (icy_start, [], [[c]]) else (Icy 0 (16 * code c) [c], [], [])
  else (Icy (i_since s + 1) 0 [], [c], []).

Fixpoint icy_run (I : Z) (s : icy) (l : bytes) : icy * bytes * list bytes :=
  match l with
  | [] => (s, [], [])
  | c :: r =>
      let '(s, a, b) := icy_step I s c in
      let '(s, a', b') := icy_run I s r in
      (s, a ++ a', b ++ b')
  end.

Lemma icy_run_app I s l k :
  icy_run I s (l ++ k) =
    let '(s, a, b) := icy_run I s l in let '(s, a', b') := icy_run I s k in (s, a ++ a', b ++ b').
Proof.
  revert s. induction l as [|c l IH]; intros s; cbn [app icy_run].
  { by destruct (icy_run I s k) as [[? ?] ?]. }
  destruct (icy_step I s c) as [[s1 a1] b1]. rewrite IH.
  destruct (icy_run I s1 l) as [[s2 a2] b2]. destruct (icy_run I s2 k) as [[s3 a3] b3].
  by rewrite !app_assoc.
Qed.

Lemma lenZ_app l k : lenZ (l ++ k) = lenZ l + lenZ k.
Proof. unfold lenZ. rewrite length_app. lia. Qed.

Lemma lenZ_cons c l : lenZ (c :: l) = 1 + lenZ l.
Proof. unfold lenZ. cbn [length]. lia. Qed.

Lemma lenZ_nonneg l : 0 <= lenZ l.
Proof. unfold lenZ. lia. Qed.

Lemma lenZ_take n l : 0 <= n <= lenZ l -> lenZ (take (Z.to_nat n) l) = n.
Proof. unfold lenZ. rewrite length_take. lia. Qed.

Lemma lenZ_drop n l : 0 <= n <= lenZ l -> lenZ (drop (Z.to_nat n) l) = lenZ l - n.
Proof. unfold lenZ. rewrite length_drop. lia. Qed.

Lemma lenZ_nil_inv l : lenZ l = 0 -> l = [].
Proof. destruct l; [done|]. rewrite lenZ_cons. pose proof (lenZ_nonneg l). lia. Qed.

Create Rewrite HintDb lenz.
#[export] Hint Rewrite lenZ_app lenZ_cons : lenz.

Lemma icy_run_plain s l : icy_run 0 s l = (s, l, []).
Proof.
  induction l as [|c l IH]; [done|]. cbn [icy_run]. change (icy_step 0 s c) with (s, [c], @nil bytes).
  cbv iota beta. by rewrite IH.
Qed.

Lemma icy_run_audio I n l :
  0 < I -> 0 <= n -> n + lenZ l <= I -> icy_run I (Icy n 0 []) l = (Icy (n + lenZ l) 0 [], l, []).
Proof.
  intros HI. revert n. induction l as [|c l IH]; intros n Hn Hl.
  { cbn. by rewrite Z.add_0_r. }
  rewrite lenZ_cons in *. pose proof (lenZ_nonneg l). cbn [icy_run]. unfold icy_step at 1.
  cbn [i_left i_since i_blk]. replace (I =? 0) with false by lia. replace (n =? I) with false by lia.
  cbn [Z.ltb Z.compare]. rewrite IH by lia. do 3 f_equal. lia.
Qed.

Lemma icy_run_part I n b l :
  0 < I -> lenZ l < n -> icy_run I (Icy 0 n b) l = (Icy 0 (n - lenZ l) (b ++ l), [], []).
Proof.
  intros HI. revert n b. induction l as [|c l IH]; intros n b Hl.
  { cbn. by rewrite Z.sub_0_r, app_nil_r. }
  rewrite lenZ_cons in *. pose proof (lenZ_nonneg l). cbn [icy_run]. unfold icy_step at 1.
  cbn [i_left i_since i_blk]. replace (I =? 0) with false by lia.
  replace (0 <? n) with true by lia. replace (n =? 1) with false by lia. rewrite IH by lia.
  rewrite <- app_assoc. cbn [app]. do 3 f_equal. lia.
Qed.

Lemma icy_run_rest I n b l :
  0 < I -> 0 < n -> lenZ l = n -> icy_run I (Icy 0 n b) l = (icy_start, [], [b ++ l]).
Proof.
  intros HI Hn Hl. destruct (exists_last (l := l)) as (k & c & ->).
  { intros ->. unfold lenZ in Hl. cbn in Hl. lia. }
  autorewrite with lenz in Hl. change (lenZ []) with 0 in Hl.
  rewrite icy_run_app, icy_run_part by lia. cbn [icy_run]. unfold icy_step. cbn [i_left i_since i_blk].
  replace (I =? 0) with false by lia. replace (0 <? n - lenZ k) with true by lia.
  replace (n - lenZ k =? 1) with true by lia. by rewrite <- app_assoc.
Qed.

(** A block: its length byte and that many times sixteen bytes. *)
Definition block_ok (b : bytes) : Prop := exists c r, b = c :: r /\ lenZ r = 16 * code c.

Lemma icy_run_len I c : 0 < I -> code c <> 0 -> icy_run I (Icy I 0 []) [c] = (Icy 0 (16 * code c) [c], [], []).
Proof.
  intros HI Hc. cbn [icy_run]. unfold icy_step. cbn [i_left i_since i_blk Z.ltb Z.compare].
  replace (I =? 0) with false by lia. rewrite Z.eqb_refl. by replace (code c =? 0) with false by lia.
Qed.

(** The receiver when the first [k] bytes of a block have come. *)
Definition at_block (I : Z) (b : bytes) (k : Z) : icy :=
  if k =? 0 then Icy I 0 [] else Icy 0 (lenZ b - k) (take (Z.to_nat k) b).

Lemma block_ok_pos b : block_ok b -> 1 <= lenZ b <= 4081.
Proof. intros (c & r & -> & E). rewrite lenZ_cons. pose proof (code_range c). lia. Qed.

Lemma take_drop_add (l : bytes) k n :
  0 <= k -> 0 <= n -> take (Z.to_nat k) l ++ take (Z.to_nat n) (drop (Z.to_nat k) l) = take (Z.to_nat (k + n)) l.
Proof. intros. rewrite take_take_drop. f_equal. lia. Qed.

Lemma icy_block_part I b k n :
  0 < I -> block_ok b -> 0 <= k -> 0 <= n -> k + n < lenZ b ->
  icy_run I (at_block I b k) (take (Z.to_nat n) (drop (Z.to_nat k) b)) = (at_block I b (k + n), [], []).
Proof.
  intros HI Hb Hk Hn Hl. unfold at_block at 1. destruct (Z.eqb_spec k 0) as [->|Nk].
  - destruct (Z.eq_dec n 0) as [->|Nn]; [done|]. destruct Hb as (c & r & -> & E).
    rewrite lenZ_cons in Hl. replace (Z.to_nat n) with (S (Z.to_nat (n - 1))) by lia.
    change (drop (Z.to_nat 0) (c :: r)) with (c :: r). rewrite firstn_cons. change (c :: take (Z.to_nat (n - 1)) r) with ([c] ++ take (Z.to_nat (n - 1)) r).
    rewrite icy_run_app, icy_run_len by lia. rewrite icy_run_part; rewrite ?lenZ_take by lia; [|done|lia].
    unfold at_block. replace (0 + n =? 0) with false by lia. rewrite lenZ_cons.
    replace (Z.to_nat (0 + n)) with (S (Z.to_nat (n - 1))) by lia. rewrite firstn_cons. cbn [app].
    do 3 f_equal. lia.
  - rewrite icy_run_part; rewrite ?lenZ_take by (rewrite ?lenZ_drop; lia); [|done|lia].
    unfold at_block. replace (k + n =? 0) with false by lia. rewrite take_drop_add by lia. do 3 f_equal. lia.
Qed.

Lemma icy_block_rest I b k :
  0 < I -> block_ok b -> 0 <= k < lenZ b ->
  icy_run I (at_block I b k) (drop (Z.to_nat k) b) = (icy_start, [], [b]).
Proof.
  intros HI Hb Hk. unfold at_block. destruct (Z.eqb_spec k 0) as [->|Nk].
  - destruct Hb as (c & r & -> & E). change (drop (Z.to_nat 0) (c :: r)) with (c :: r).
    destruct (Z.eq_dec (code c) 0) as [Ec|Nc].
    + assert (r = []) as -> by (apply lenZ_nil_inv; lia). cbn [icy_run]. unfold icy_step.
      cbn [i_left i_since i_blk Z.ltb Z.compare]. replace (I =? 0) with false by lia. by rewrite Z.eqb_refl, Ec.
    + change (c :: r) with ([c] ++ r) at 1. rewrite icy_run_app, icy_run_len by done.
      pose proof (code_range c). by rewrite icy_run_rest by lia.
  - rewrite icy_run_rest; rewrite ?lenZ_drop by lia; [|lia..|done]. by rewrite take_drop.
Qed.

(** ** The filter *)

Lemma u32_id z : 0 <= z < 2 ^ 32 -> u32 z = z.
Proof. apply wrap_small. Qed.

Lemma i32_id z : - 2 ^ 31 <= z < 2 ^ 31 -> i32 z = z.
Proof. apply (swrap_small 32). lia. Qed.

Lemma cstrl_zeros a n : (0 < n)%nat -> cstrl (a ++ replicate n NUL) = cstrl a.
Proof.
  intros Hn. destruct n as [|n]; [lia|]. induction a as [|c a IH]; [done|]. cbn [app cstrl].
  destruct (Ascii.eqb c NUL); [done|]. by rewrite IH.
Qed.

Lemma cstrl_nul a : cstrl (a ++ [NUL]) = cstrl a.
Proof. apply (cstrl_zeros a 1). lia. Qed.

(** The text of a block: its last byte is taken for a terminator. *)
Definition block_text (b : bytes) : bytes := cstrl (drop 1 (removelast b)).

(** The text of the metadata after some blocks; [None] when one that changes
    it is not a title. *)
Fixpoint spec_meta (t : bytes) (blocks : list bytes) : option bytes :=
  match blocks with
  | [] => Some t
  | b :: r =>
      if (lenZ b =? 1) || bool_decide (block_text b = t) then spec_meta t r
      else if prefix_of (txt "StreamTitle=") (block_text b) then spec_meta (block_text b) r
      else None
  end.

(** The state of the filter and the receiver's, between two bytes. *)
Record filter_rel (s : mp3_state) (i : icy) : Prop := {
  fr_interval : 0 < st_inline_metadata_interval s < 2 ^ 31;
  fr_build : lenZ (st_build_metadata s) = 4081;
  fr_state :
    (st_build_metadata_len s = 0 /\ i = Icy (st_offset s) 0 [] /\
      0 <= st_offset s <= st_inline_metadata_interval s) \/
    (exists blk, i = Icy 0 (st_build_metadata_len s - st_build_metadata_offset s) blk /\
      (exists c r, blk = c :: r /\ st_build_metadata_len s = 1 + code c * 16) /\
      lenZ blk = st_build_metadata_offset s /\ lenZ blk < st_build_metadata_len s /\
      st_build_metadata s = blk ++ zeros (4081 - lenZ blk) /\
      st_offset s = st_inline_metadata_interval s)
}.

Lemma lenZ_zeros n : 0 <= n -> lenZ (zeros n) = n.
Proof. unfold lenZ, zeros. rewrite length_replicate. lia. Qed.

(** Filling the build buffer behind what is in it. *)
Lemma memcpy_build blk src n :
  lenZ blk + lenZ src <= n ->
  memcpy (blk ++ zeros (n - lenZ blk)) (lenZ blk) src = Some ((blk ++ src) ++ zeros (n - lenZ (blk ++ src))).
Proof.
  intros H. unfold memcpy. pose proof (lenZ_nonneg blk). pose proof (lenZ_nonneg src).
  rewrite lenZ_app, lenZ_zeros by lia.
  replace ((0 <=? lenZ blk) && (lenZ blk + lenZ src <=? lenZ blk + (n - lenZ blk))) with true by lia.
  f_equal. unfold lenZ at 1. rewrite Nat2Z.id, take_app_length, <- app_assoc. do 2 f_equal.
  rewrite drop_app_ge by (unfold lenZ; lia). unfold zeros. rewrite drop_replicate. f_equal.
  rewrite lenZ_app. unfold lenZ in *. lia.
Qed.

(** What a turn of the filter keeps besides. *)
Definition filter_keeps (s s' : mp3_state) : Prop :=
  st_inline_metadata_interval s' = st_inline_metadata_interval s /\ st_read_data s' = st_read_data s /\
  st_update_metadata s' = st_update_metadata s /\ st_interval s' = st_interval s.

(** What the loop comes to, for the rest of the bytes. *)
Definition filter_goal (s : mp3_state) (i : icy) (src acc : bytes) (res : option bytes) (s' : mp3_state) : Prop :=
  let '(i', audio, blocks) := icy_run (st_inline_metadata_interval s) i src in
  filter_keeps s s' /\
  match res with
  | Some acc' =>
      acc' = acc ++ audio /\ filter_rel s' i' /\
      spec_meta (meta_text (st_metadata s)) blocks = Some (meta_text (st_metadata s')) /\
      (block_ok (m_data (st_metadata s)) -> block_ok (m_data (st_metadata s')))
  | None => spec_meta (meta_text (st_metadata s)) blocks = None
  end.

Lemma take_removelast (l : bytes) : take (Z.to_nat (lenZ l - 1)) l = removelast l.
Proof. rewrite removelast_firstn_len. f_equal. unfold lenZ. lia. Qed.


Lemma lenZ_removelast b : 1 <= lenZ b -> lenZ (removelast b) = lenZ b - 1.
Proof. intros. rewrite <- take_removelast, lenZ_take; lia. Qed.

(** A block in the buffer, without its last byte and ended by a zero. *)
Lemma built_text b n : 1 < lenZ b -> 0 < n -> cstrl (drop 1 (removelast b ++ zeros n)) = block_text b.
Proof.
  intros Hb Hn. unfold block_text, zeros. pose proof (lenZ_removelast b).
  rewrite drop_app_le by (unfold lenZ in *; lia). apply cstrl_zeros. lia.
Qed.

(** The state where the next byte belongs to a block of [len] bytes of which
    [blk] have come. *)
Record in_block (s : mp3_state) (len : Z) (blk : bytes) : Prop := {
  ib_len : st_build_metadata_len s = len;
  ib_off : st_build_metadata_offset s = lenZ blk;
  ib_build : st_build_metadata s = blk ++ zeros (4081 - lenZ blk);
  ib_range : lenZ blk < len <= 4081
}.

Lemma fill_block_wait s len blk src :
  in_block s len blk -> lenZ src < len - lenZ blk ->
  fill_block src s = Some (BlockWait (set_build len (lenZ (blk ++ src))
    ((blk ++ src) ++ zeros (4081 - lenZ (blk ++ src))) s)).
Proof.
  intros [E1 E2 E3 E4] Hl. unfold fill_block. rewrite E1, E2, E3. pose proof (lenZ_nonneg blk).
  pose proof (lenZ_nonneg src). rewrite u32_id by lia. replace (lenZ src <? len - lenZ blk) with true by lia.
  rewrite memcpy_build by lia. run_bind. rewrite u32_id by lia. by rewrite <- lenZ_app.
Qed.

(** The whole block has come. *)
Lemma fill_block_next s len blk src :
  in_block s len blk -> len - lenZ blk <= lenZ src ->
  let n := Z.to_nat (len - lenZ blk) in
  let b := blk ++ take n src in
  lenZ b = len /\ exists t, fill_block src s = Some t /\
  if (len =? 1) || bool_decide (block_text b = meta_text (st_metadata s)) then
    exists off build, lenZ build = 4081 /\ t = BlockNext (drop n src) (set_offset 0 (set_build 0 off build s))
  else if prefix_of (txt "StreamTitle=") (block_text b) then
    exists off build meta url, lenZ build = 4081 /\ cstrl (drop 1 meta) = block_text b /\
      lenZ meta = len /\ head meta = head b /\
      t = BlockNext (drop n src) (set_offset 0 (set_build 0 off build (set_inline_url url (set_metadata meta s))))
  else exists s', t = BlockBad s' /\ filter_keeps s s'.
Proof.
  intros [E1 E2 E3 E4] Hl n b. pose proof (lenZ_nonneg blk). pose proof (lenZ_nonneg src).
  assert (lenZ b = len) as Eb by (unfold b, n; rewrite lenZ_app, lenZ_take; lia). split; [done|].
  unfold fill_block. rewrite E1, E2, E3, (u32_id (len - _)), (u32_id (len - _ - 1)) by lia.
  replace (lenZ src <? len - lenZ blk) with false by lia.
  rewrite memcpy_build by (rewrite lenZ_take; lia). run_bind.
  assert (blk ++ take (Z.to_nat (len - lenZ blk - 1)) src = removelast b) as ->.
  { rewrite <- take_removelast, Eb. unfold b. rewrite take_app_ge by (unfold lenZ in *; lia). f_equal.
    unfold n. rewrite take_take. f_equal. unfold lenZ in *. lia. }
  rewrite lenZ_removelast, Eb by lia. fold n. set (build := removelast b ++ zeros (4081 - (len - 1))).
  assert (lenZ build = 4081) as Lb.
  { unfold build. rewrite lenZ_app, lenZ_zeros, lenZ_removelast; lia. }
  destruct (Z.eqb_spec len 1) as [->|N1]; cbn [Z.ltb Z.compare Pos.compare Pos.compare_cont andb orb].
  { eexists. split; [done|]. eauto. }
  replace (1 <? len) with true by lia.
  assert (cstrl (drop 1 build) = block_text b) as Et by (apply built_text; lia). rewrite Et.
  assert (exists meta, take (Z.to_nat len) build = meta /\ cstrl (drop 1 meta) = block_text b /\
    lenZ meta = len /\ head meta = head b) as (meta & -> & Em & Lm & Hm).
  { eexists. split; [done|]. pose proof (lenZ_removelast b). unfold build.
    rewrite take_app_ge by (unfold lenZ in *; lia). unfold zeros. rewrite take_replicate.
    replace (Z.to_nat len - length (removelast b))%nat with 1%nat by (unfold lenZ in *; lia).
    replace (Init.Nat.min _ _) with 1%nat by lia. split_and!.
    - apply (built_text b 1); lia.
    - autorewrite with lenz. change (lenZ (replicate 1 NUL)) with 1. lia.
    - destruct b as [|x [|y b]]; [| |done]; unfold lenZ in *; cbn in *; lia. }
  rewrite Em. destruct (bool_decide (block_text b = _)); cbn [andb negb].
  { eexists. split; [done|]. eauto. }
  destruct (prefix_of _ (block_text b)).
  - eexists. split; [done|]. eexists _, _, meta, _. split_and!; done.
  - eexists. split; [done|]. eexists. split; [done|]. by destruct s.
Qed.

(** How the bytes to come continue a block, for the receiver. *)
Record continues (I : Z) (i : icy) (src blk : bytes) (len : Z) : Prop := {
  co_head : exists c r, blk ++ src = c :: r /\ len = 1 + code c * 16;
  co_part : lenZ src < len - lenZ blk ->
    icy_run I i src = (Icy 0 (len - lenZ (blk ++ src)) (blk ++ src), [], []);
  co_rest : len - lenZ blk <= lenZ src ->
    icy_run I i (take (Z.to_nat (len - lenZ blk)) src) =
      (icy_start, [], [blk ++ take (Z.to_nat (len - lenZ blk)) src])
}.

Lemma enter_block s i src :
  filter_rel s i -> src <> [] -> u32 (st_inline_metadata_interval s - st_offset s) = 0 ->
  exists s1 len blk, filter_block src s = fill_block src s1 /\ in_block s1 len blk /\ filter_keeps s s1 /\
    st_metadata s1 = st_metadata s /\ st_offset s1 = st_inline_metadata_interval s /\
    continues (st_inline_metadata_interval s) i src blk len.
Proof.
  intros [[F1 F1'] F2 F3] N E. unfold filter_block. pose proof (code_range) as R.
  set (I := st_inline_metadata_interval s) in *. destruct src as [|c src]; [done|].
  destruct F3 as [(E1 & -> & E2)|(blk & -> & (d & r & -> & E2) & E3 & E4 & E5 & E6)].
  - rewrite E1, Z.eqb_refl. cbn [head default]. rewrite u32_id in E by lia. specialize (R c).
    eexists _, (1 + code c * 16), []. split_and!; [done|split; try done; change (lenZ []) with 0; lia|by destruct s|done|cbn; lia|].
    replace (st_offset s) with I by lia. change (Icy I 0 []) with (at_block I [] 0).
    split; cbn [app]; change (lenZ []) with 0; rewrite ?Z.sub_0_r.
    + eauto.
    + intros Hl. rewrite lenZ_cons in Hl. pose proof (lenZ_nonneg src).
      change (c :: src) with ([c] ++ src) at 1. change (at_block I [] 0) with (Icy I 0 []).
      rewrite icy_run_app, icy_run_len, icy_run_part by lia. rewrite lenZ_cons. cbn [app]. do 3 f_equal. lia.
    + intros Hl. set (b := take _ _). assert (block_ok b) as Hb.
      { unfold b. exists c, (take (Z.to_nat (code c * 16)) src). rewrite lenZ_cons in Hl.
        replace (Z.to_nat (1 + code c * 16)) with (S (Z.to_nat (code c * 16))) by lia.
        rewrite firstn_cons, lenZ_take by lia. split; [done|lia]. }
      pose proof (block_ok_pos b Hb). pose proof (icy_block_rest I b 0) as K.
      change (drop (Z.to_nat 0) b) with b in K. by rewrite <- (K ltac:(lia) Hb ltac:(lia)).
  - specialize (R d). rewrite E2. replace (1 + code d * 16 =? 0) with false by lia.
    eexists s, (1 + code d * 16), (d :: r). rewrite E2, <- E3 in *.
    split_and!; [done|split; first [done|lia]|by destruct s|done|done|]. split.
    + eauto.
    + intros Hl. rewrite icy_run_part by lia. rewrite lenZ_app. do 3 f_equal. lia.
    + intros Hl. rewrite icy_run_rest; [done|lia|lia|]. rewrite lenZ_take; lia.
Qed.

(** Where a block of metadata is due, the filter takes it as the receiver
    does. *)
Lemma filter_block_ok s i src :
  filter_rel s i -> src <> [] -> u32 (st_inline_metadata_interval s - st_offset s) = 0 -> lenZ src < 2 ^ 31 ->
  exists t, filter_block src s = Some t /\
  match t with
  | BlockWait s' => filter_goal s i src [] (Some []) s' /\ st_metadata s' = st_metadata s
  | BlockNext src' s' =>
      exists pre b, src = pre ++ src' /\ pre <> [] /\ filter_keeps s s' /\
        icy_run (st_inline_metadata_interval s) i pre = (icy_start, [], [b]) /\ filter_rel s' icy_start /\
        spec_meta (meta_text (st_metadata s)) [b] = Some (meta_text (st_metadata s')) /\
        (block_ok (m_data (st_metadata s)) -> block_ok (m_data (st_metadata s')))
  | BlockBad s' => filter_goal s i src [] None s'
  end.
Proof.
  intros F N E Hs. destruct (enter_block s i src F N E) as (s1 & len & blk & -> & IB & K & Em & Eo & CO).
  destruct F as [F1 F2 _], CO as [(c & r & Ec & El) CP CR]. pose proof (code_range c).
  set (I := st_inline_metadata_interval s) in *. pose proof (lenZ_nonneg src). pose proof (lenZ_nonneg blk).
  destruct (Z.ltb_spec (lenZ src) (len - lenZ blk)) as [Hl|Hl].
  - eexists. split; [by eapply fill_block_wait|]. cbv iota beta. split; [|done].
    unfold filter_goal. fold I. rewrite CP by done. split_and!.
    + by destruct K as (K1 & K2 & K3 & K4).
    + done.
    + split; [cbn; destruct K as (-> & _); done|cbn; rewrite lenZ_app, lenZ_zeros; rewrite ?lenZ_app; lia|].
      right. exists (blk ++ src). cbn. destruct K as (-> & _). split_and!; try done; [by rewrite Ec; eauto|].
      rewrite lenZ_app. lia.
    + cbn. by rewrite Em.
    + cbn. by rewrite Em.
  - destruct (fill_block_next s1 len blk src IB Hl) as (Lb & t & Et & Ht). exists t. split; [done|].
    set (n := Z.to_nat (len - lenZ blk)) in *. set (b := blk ++ take n src) in *. rewrite Em in Ht.
    assert (take n src ++ drop n src = src) as Esrc by apply take_drop.
    assert (take n src <> []) as Nsrc.
    { unfold n. intros Hn%(f_equal lenZ). change (lenZ []) with 0 in Hn. destruct IB. rewrite lenZ_take in Hn; lia. }
    assert (forall off build s2, lenZ build = 4081 -> filter_keeps s s2 ->
      filter_rel (set_offset 0 (set_build 0 off build s2)) icy_start) as FR.
    { intros off build s2 Hb (K1 & _). split; cbn; rewrite ?K1; fold I; [lia|done|]. left. split_and!; done || lia. }
    assert (forall s2, filter_keeps s s2 -> forall o f u, filter_keeps s (set_offset o (set_build 0 f u s2))) as KR.
    { by intros s2 (K1 & K2 & K3 & K4). }
    assert (head b = Some c) as Hb.
    { unfold b. destruct blk as [|x blk]; [|by injection Ec as ->]. destruct src as [|y src]; [done|].
      injection Ec as -> _. unfold n in *. destruct (Z.to_nat (len - lenZ [])) eqn:En; [done|]. done. }
    destruct ((len =? 1) || bool_decide (block_text b = meta_text (st_metadata s))) eqn:Eq;
      [|destruct (prefix_of _ (block_text b)) eqn:Ep].
    + destruct Ht as (off & build & Lbu & ->). exists (take n src), b. split_and!; auto.
      * cbn [spec_meta]. rewrite Lb, Eq. cbn. by rewrite Em.
      * cbn. by rewrite Em.
    + destruct Ht as (off & build & meta & url & Lbu & Hm1 & Hm2 & Hm3 & ->). exists (take n src), b.
      split_and!; auto.
      * cbn [spec_meta]. rewrite Lb, Eq, Ep. cbn. unfold meta_text. cbn. by rewrite Hm1.
      * intros _. cbn. rewrite Hb in Hm3. destruct meta as [|x meta]; [done|]. injection Hm3 as ->.
        exists c, meta. rewrite lenZ_cons in Hm2. split; [done|lia].
    + destruct Ht as (s' & -> & K'). unfold filter_goal. fold I.
      replace (icy_run I i src) with (icy_run I i (take n src ++ drop n src)) by (by rewrite Esrc).
      rewrite icy_run_app, CR by done. destruct (icy_run I icy_start (drop n src)) as [[i2 a2] b2].
      split; [|cbn [app spec_meta]; by rewrite Lb, Eq, Ep].
      destruct K as (K1 & K2 & K3 & K4), K' as (L1 & L2 & L3 & L4). split_and!; congruence.
Qed.

Lemma spec_meta_one t t' b o r :
  spec_meta t [b] = Some t' -> spec_meta t' r = o -> spec_meta t (b :: r) = o.
Proof.
  cbn [spec_meta]. destruct (_ || _); [by intros [= ->]|]. destruct (prefix_of _ _); [by intros [= ->]|done].
Qed.

Lemma filter_loop_ok fuel s i src acc :
  filter_rel s i -> (length src < fuel)%nat -> lenZ src < 2 ^ 31 ->
  exists res s', filter_loop fuel src acc s = Some (res, s') /\ filter_goal s i src acc res s'.
Proof.
  revert s i src acc. induction fuel as [|fuel IH]; intros s i src acc F Hf Hs; [lia|].
  destruct src as [|x src]; cbn [filter_loop].
  { eexists _, _. split; [done|]. unfold filter_goal. cbn [icy_run]. by rewrite app_nil_r. }
  set (l := x :: src) in *. set (I := st_inline_metadata_interval s) in *. pose proof (lenZ_nonneg l).
  destruct (Z.eq_dec (u32 (I - st_offset s)) 0) as [E|E].
  - rewrite E. replace (lenZ l <=? 0) with false by (unfold l; rewrite lenZ_cons; pose proof (lenZ_nonneg src); lia).
    cbn [negb Z.eqb]. destruct (filter_block_ok s i l F ltac:(done) E Hs) as (t & -> & Ht). run_bind.
    destruct t as [s'|l' s'|s'].
    + eexists _, _. split; [done|]. destruct Ht as [Ht _]. revert Ht. unfold filter_goal.
      destruct (icy_run _ i l) as [[i2 a2] b2]. cbn [app]. intros (K & <- & R). by rewrite app_nil_r.
    + destruct Ht as (pre & b & El & Np & K & Er & F' & Hm & Hb).
      rewrite El, length_app in Hf. rewrite El, lenZ_app in Hs. pose proof (lenZ_nonneg pre).
      destruct (IH s' icy_start l' acc F') as (res & s2 & -> & G); [destruct pre; [done|cbn in Hf; lia]|lia|].
      exists res, s2. split; [done|]. unfold filter_goal in *. destruct K as (K1 & K2 & K3 & K4).
      rewrite K1 in G. fold I in Er, G |- *. rewrite El, icy_run_app, Er. destruct (icy_run I icy_start l') as [[i2 a2] b2].
      cbn [app]. destruct G as ((L1 & L2 & L3 & L4) & G). split; [split_and!; congruence|].
      destruct res as [acc'|].
      * destruct G as (-> & G1 & G2 & G3). split_and!; [done|done| |by auto]. by eapply spec_meta_one.
      * by eapply spec_meta_one.
    + eexists _, _. split; [done|]. revert Ht. unfold filter_goal. by destruct (icy_run _ i l) as [[? ?] ?].
  - destruct F as [F1 F2 F3]. fold I in F1, F3.
    destruct F3 as [(E1 & -> & E2)|(blk & _ & _ & _ & _ & _ & E3)]; [|by rewrite E3, Z.sub_diag in E].
    rewrite u32_id in * by lia. destruct (Z.leb_spec (lenZ l) (I - st_offset s)) as [Hl|Hl].
    + eexists _, _. split; [done|]. unfold filter_goal. fold I. rewrite icy_run_audio by lia. rewrite i32_id by lia.
      split; [by destruct s|]. split_and!; [done| |done|done].
      split; cbn; [done|done|]. left. fold I. split_and!; done || lia.
    + replace (I - st_offset s =? 0) with false by lia. cbn [negb].
      set (n := I - st_offset s) in *. rewrite i32_id by lia.
      replace (st_offset s + n) with I by lia.
      assert (filter_rel (set_offset I s) (Icy I 0 [])) as F'.
      { split; cbn; [done|done|]. left. fold I. split_and!; done || lia. }
      destruct (IH _ _ (drop (Z.to_nat n) l) (acc ++ take (Z.to_nat n) l) F') as (res & s2 & -> & G).
      { rewrite length_drop. unfold lenZ in *. lia. }
      { rewrite lenZ_drop; lia. }
      exists res, s2. split; [done|]. unfold filter_goal in *.
      change (st_inline_metadata_interval (set_offset I s)) with I in G. fold I.
      replace (icy_run I (Icy (st_offset s) 0 []) l) with
        (icy_run I (Icy (st_offset s) 0 []) (take (Z.to_nat n) l ++ drop (Z.to_nat n) l)) by (by rewrite take_drop).
      rewrite icy_run_app, icy_run_audio by (rewrite ?lenZ_take; lia). rewrite lenZ_take by lia.
      replace (st_offset s + n) with I by lia. destruct (icy_run I (Icy I 0 []) (drop (Z.to_nat n) l)) as [[i2 a2] b2].
      destruct G as (K & G). split; [done|]. destruct res as [acc'|]; [|done].
      destruct G as (-> & G). cbn [app]. by rewrite <- app_assoc.
Qed.

(** ** Titles *)

Lemma snprintf_zeros n blk size text :
  1 <= size -> lenZ blk + Z.min (lenZ text) (size - 1) + 1 <= n ->
  let t := take (Z.to_nat (size - 1)) text in
  snprintf_at (blk ++ zeros (n - lenZ blk)) (lenZ blk) size text = Some ((blk ++ t) ++ zeros (n - lenZ (blk ++ t))).
Proof.
  intros Hs Hn t. unfold snprintf_at. fold t. pose proof (lenZ_nonneg blk). pose proof (lenZ_nonneg text).
  assert (lenZ t <= Z.min (lenZ text) (size - 1)).
  { unfold t, lenZ. rewrite length_take. unfold lenZ in *. lia. }
  assert (lenZ (t ++ [NUL]) = lenZ t + 1) as E by (by rewrite lenZ_app).
  rewrite memcpy_build by lia. f_equal. rewrite app_assoc, <- (app_assoc (blk ++ t) [NUL]). f_equal.
  rewrite !lenZ_app. change (lenZ [NUL]) with 1. unfold zeros.
  replace (Z.to_nat (n - (lenZ blk + lenZ t))) with (S (Z.to_nat (n - (lenZ blk + lenZ t + 1)))) by lia.
  done.
Qed.

Definition title_body (artist title : option bytes) : bytes :=
  match artist, title with
  | Some a, Some t => a ++ txt " - " ++ t
  | _, Some t => t
  | _, None => []
  end.

Lemma title_text_eq lb a t : title_text lb a t = chr lb :: txt "StreamTitle='" ++ title_body a t ++ txt "';".
Proof. by destruct a, t. Qed.

(** Comments of a sane size. *)
Definition comments_ok (c : option bytes * option bytes * option bytes) : Prop :=
  opt_len c.1.1 + opt_len c.1.2 + opt_len c.2 < 2 ^ 30.

Lemma opt_len_nonneg t : 0 <= opt_len t.
Proof. destruct t; [apply lenZ_nonneg|done]. Qed.

Lemma strstr_split p l a b : strstr p l = Some (a, b) -> l = a ++ b.
Proof.
  revert a. induction l as [|c l IH]; intros a; cbn [strstr].
  - destruct (prefix_of p []); [|done]. by intros [= <- <-].
  - destruct (prefix_of p (c :: l)); [by intros [= <- <-]|]. destruct (strstr p l) as [[x y]|]; [|done].
    intros [= <- <-]. cbn. by rewrite (IH x).
Qed.

(** The url that is added, cut to the space that is left. *)
Definition url_text (room : Z) (url : option bytes) (inline_url : option (Z * bytes)) : bytes :=
  match inline_url, url with
  | Some (_, u), _ =>
      match strstr (txt "';") u with
      | Some (a, _) =>
          if lenZ a + 2 <? room then take (Z.to_nat (room - 1)) (txt "StreamUrl='" ++ drop 11 u ++ txt "';") else []
      | None => []
      end
  | None, Some u => txt "StreamUrl='" ++ u ++ txt "';"
  | None, None => []
  end.

Lemma lenZ_take_le n l : lenZ (take n l) <= lenZ l.
Proof. unfold lenZ. rewrite length_take. lia. Qed.

Lemma snprintf_tail n text size t :
  1 <= size -> lenZ text + size <= n ->
  exists k, 1 <= k /\ lenZ ((text ++ take (Z.to_nat (size - 1)) t) ++ zeros k) = n /\
    snprintf_at (text ++ zeros (n - lenZ text)) (lenZ text) size t =
      Some ((text ++ take (Z.to_nat (size - 1)) t) ++ zeros k).
Proof.
  intros Hs Hn. rewrite snprintf_zeros by lia. eexists. split; [|split; [|done]].
  - rewrite lenZ_app. assert (lenZ (take (Z.to_nat (size - 1)) t) <= size - 1); [|lia].
    unfold lenZ. rewrite length_take. lia.
  - rewrite lenZ_app, lenZ_zeros; [lia|]. rewrite lenZ_app.
    assert (lenZ (take (Z.to_nat (size - 1)) t) <= size - 1); [|lia]. unfold lenZ. rewrite length_take. lia.
Qed.

Lemma add_url_ok size text url inline_url :
  0 < lenZ text < size -> size < 2 ^ 20 ->
  (match inline_url, url with None, Some u => lenZ text + lenZ u + 14 <= size | _, _ => True end) ->
  (forall i x, inline_url = Some (i, x) -> lenZ x < 2 ^ 31) ->
  exists k, add_url size (lenZ text) url inline_url (text ++ zeros (size - lenZ text)) =
      Some ((text ++ url_text (size - lenZ text) url inline_url) ++ zeros k) /\
    1 <= k /\ lenZ ((text ++ url_text (size - lenZ text) url inline_url) ++ zeros k) = size.
Proof.
  intros Ht Hs Hu Hi. unfold add_url, url_text. replace (0 <? lenZ text) with true by lia.
  rewrite (swrap_small 64), (wrap_small 64) by lia.
  assert (exists k, Some (text ++ zeros (size - lenZ text)) = Some ((text ++ []) ++ zeros k) /\
    1 <= k /\ lenZ ((text ++ []) ++ zeros k) = size) as K0.
  { exists (size - lenZ text). rewrite app_nil_r, lenZ_app, lenZ_zeros by lia. split_and!; [done|lia|lia]. }
  destruct inline_url as [[i u]|].
  - destruct (strstr _ u) as [[a b]|]; [|by replace (size <? size - lenZ text) with false by lia].
    destruct (lenZ a + 2 <? size - lenZ text); [|done].
    destruct (snprintf_tail size text (size - lenZ text) (txt "StreamUrl='" ++ drop 11 u ++ txt "';"))
      as (k & K1 & K2 & K3); [lia|lia|]. by exists k.
  - destruct url as [u|]; [|done].
    destruct (snprintf_tail size text (size - lenZ text) (txt "StreamUrl='" ++ u ++ txt "';"))
      as (k & K1 & K2 & K3); [lia|lia|]. revert K2 K3. rewrite firstn_all2; [by exists k|].
    assert (lenZ (txt "StreamUrl='" ++ u ++ txt "';") = 11 + (lenZ u + 2)) as E by (by rewrite !lenZ_app).
    unfold lenZ in *. lia.
Qed.

Lemma set_title_data a t u s :
  comments_ok (a, t, u) -> (forall i x, st_inline_url s = Some (i, x) -> lenZ x < 2 ^ 30) ->
  let len := title_len a t u (st_inline_url s) in
  len <= MAX_META_LEN ->
  exists lb k, 1 <= lb <= 255 /\ lenZ (title_text lb a t) <= lb * 16 /\
    let text := title_text lb a t ++ url_text (lb * 16 + 1 - lenZ (title_text lb a t)) u (st_inline_url s) in
    let data := text ++ zeros k in
    1 <= k /\ lenZ data = lb * 16 + 1 /\
    mp3_set_title a t u s = Some (filter_shoutcast_metadata data, set_metadata data s).
Proof.
  intros Hc Hi len Hm. unfold comments_ok in Hc. cbn [fst snd] in Hc.
  pose proof (opt_len_nonneg a). pose proof (opt_len_nonneg t). pose proof (opt_len_nonneg u).
  set (ul := match st_inline_url s with
       | Some (_, u) => match strstr (txt "';") u with Some (a, _) => lenZ a + 2 | None => 0 end
       | None => match u with Some u => lenZ u + 14 | None => 0 end end).
  assert (0 <= ul < 2 ^ 30 + 2 ^ 10) as Hu.
  { unfold ul. destruct (st_inline_url s) as [[i x]|].
    - specialize (Hi i x eq_refl). destruct (strstr _ x) as [[y z]|] eqn:E; [|lia]. apply strstr_split in E.
      rewrite E, lenZ_app in Hi. pose proof (lenZ_nonneg y). pose proof (lenZ_nonneg z). lia.
    - destruct u as [x|]; [|lia]. cbn [opt_len] in *. lia. }
  assert (lenZ (title_body a t) <= opt_len a + opt_len t +
    (match a, t with Some _, Some _ => 3 | _, _ => 0 end)) as Hbody.
  { destruct a as [x|], t as [y|]; cbn [title_body opt_len]; rewrite ?lenZ_app; change (lenZ (txt " - ")) with 3;
      change (lenZ []) with 0; pose proof lenZ_nonneg; try lia. specialize (H2 x). lia. }
  assert (len = 16 + opt_len a + opt_len t + (match a, t with Some _, Some _ => 3 | _, _ => 0 end) + ul) as El.
  { unfold len, title_len. fold ul. apply u32_id. destruct a, t; lia. }
  pose proof (lenZ_nonneg (title_body a t)) as Hb0. set (lb := (len - 1) / 16 + 1).
  set (sep := match a, t with Some _, Some _ => 3 | _, _ => 0 end) in *.
  assert (0 <= sep) as Hsep by (unfold sep; by destruct a, t).
  unfold MAX_META_LEN in Hm. assert (1 <= lb <= 255 /\ len <= lb * 16) as [Hlb Hll].
  { unfold lb. Z.to_euclidean_division_equations. lia. }
  exists lb. set (text := title_text lb a t). assert (lenZ text = 16 + lenZ (title_body a t)) as Lt.
  { unfold text. rewrite title_text_eq, lenZ_cons, !lenZ_app. change (lenZ (txt "StreamTitle='")) with 13.
    change (lenZ (txt "';")) with 2. lia. }
  set (size := lb * 16 + 1).
  assert (mp3_set_title a t u s =
    data ← add_url size (lenZ text) u (st_inline_url s) (text ++ zeros (size - lenZ text));
    Some (filter_shoutcast_metadata data, set_metadata data s)) as ->.
  { unfold mp3_set_title. fold len. replace (MAX_META_LEN <? len) with false by (unfold MAX_META_LEN; lia).
    fold lb. rewrite (wrap_small 8 lb) by lia. fold size text.
    pose proof (snprintf_zeros size [] size text) as K. cbn zeta in K. change (lenZ []) with 0 in K.
    rewrite Z.sub_0_r in K. cbn [app] in K. rewrite K by lia. run_bind.
    rewrite firstn_all2; [done|]. unfold lenZ in *. lia. }
  destruct (add_url_ok size text u (st_inline_url s)) as (k & E & Hk & Hl).
  { lia. }
  { unfold size. lia. }
  { destruct (st_inline_url s) as [[i x]|]; [done|]. destruct u as [x|]; [|done]. unfold ul in El. cbn [opt_len] in *. lia. }
  { intros i x E. specialize (Hi i x E). lia. }
  exists k. rewrite E. run_bind. split_and!; try done; lia.
Qed.

Definition nul_free_l (l : bytes) : Prop := Forall (fun c => c <> NUL) l.

Lemma cstrl_app_zeros l k : nul_free_l l -> 1 <= k -> cstrl (l ++ zeros k) = l.
Proof.
  intros H Hk. unfold zeros. rewrite cstrl_zeros by lia.
  induction H as [|c l Hc _ IH]; [done|]. cbn [cstrl]. apply Ascii.eqb_neq in Hc. by rewrite Hc, IH.
Qed.

Lemma set_title_block lb a t l k :
  1 <= lb <= 255 -> lenZ ((title_text lb a t ++ l) ++ zeros k) = lb * 16 + 1 ->
  block_ok ((title_text lb a t ++ l) ++ zeros k).
Proof.
  intros Hlb Hl. rewrite title_text_eq in *. cbn [app] in *. eexists _, _. split; [done|].
  rewrite lenZ_cons in Hl. rewrite code_chr, (wrap_small 8) by lia. lia.
Qed.

Lemma txt_nul_free s : forallb (fun c => negb (Ascii.eqb c NUL)) (txt s) = true -> Forall (fun c => c <> NUL) (txt s).
Proof.
  intros H. apply Forall_forall. intros x Hx. rewrite forallb_forall in H.
  apply list_elem_of_In, H, negb_true_iff, Ascii.eqb_neq in Hx. done.
Qed.

Lemma set_title_text lb a t l k id :
  1 <= k -> nul_free_l (title_body a t ++ l) -> 1 <= lb ->
  meta_text (Meta id ((title_text lb a t ++ l) ++ zeros k)) = txt "StreamTitle='" ++ title_body a t ++ txt "';" ++ l.
Proof.
  intros Hk Hn _. rewrite title_text_eq. unfold meta_text. cbn [m_data].
  set (pre := txt "StreamTitle='"). set (post := txt "';"). rewrite <- app_comm_cons.
  cbn [app]. rewrite skipn_cons, drop_0.
  rewrite cstrl_app_zeros; [by rewrite <- !app_assoc| |done].
  unfold nul_free_l in *. rewrite !Forall_app in *. destruct Hn. split_and!; done || by apply txt_nul_free.
Qed.

(** A pointer into a block of metadata has a text no longer than a block. *)
Definition inline_ok (s : mp3_state) : Prop :=
  forall i x, st_inline_url s = Some (i, x) -> lenZ x < 2 ^ 30.

Lemma set_title_total a t u s :
  comments_ok (a, t, u) -> inline_ok s ->
  exists e s', mp3_set_title a t u s = Some (e, s') /\ (s' = s \/ exists data, block_ok data /\ s' = set_metadata data s).
Proof.
  intros Hc Hi. destruct (Z.le_gt_cases (title_len a t u (st_inline_url s)) MAX_META_LEN) as [Hl|Hl].
  - destruct (set_title_data a t u s Hc Hi Hl) as (lb & k & H1 & _ & H2 & H3 & ->).
    eexists _, _. split; [done|]. right. eexists. split; [|done]. by apply set_title_block.
  - eexists _, _. split; [|by left]. unfold mp3_set_title.
    by replace (MAX_META_LEN <? _) with true by lia.
Qed.

(** The metadata block [mp3_set_title] builds from the comments: its length
    byte counts its sixteen byte units, a zero ends its text, and the text
    holds artist, title and url whole. *)
Theorem mp3_title_block a t u s :
  comments_ok (a, t, u) -> (forall x, a = Some x \/ t = Some x \/ u = Some x -> nul_free_l x) ->
  st_inline_url s = None -> title_len a t u None <= MAX_META_LEN ->
  exists e s', mp3_set_title a t u s = Some (e, s') /\ block_ok (m_data (st_metadata s')) /\
    meta_text (st_metadata s') =
      txt "StreamTitle='" ++ title_body a t ++ txt "';" ++
      match u with Some u => txt "StreamUrl='" ++ u ++ txt "';" | None => [] end.
Proof.
  intros Hc Hn Hu Hl. rewrite <- Hu in Hl.
  destruct (set_title_data a t u s Hc) as (lb & k & H1 & _ & H2 & H3 & ->); [by rewrite Hu|done|].
  eexists _, _. split; [done|]. split; [by apply set_title_block|]. rewrite Hu. cbn [set_metadata st_metadata].
  rewrite set_title_text; [by destruct u|lia| |lia]. unfold nul_free_l in *. apply Forall_app. split.
  - destruct a as [a|], t as [t|]; cbn [title_body]; rewrite ?Forall_app; split_and?;
      first [done | by apply txt_nul_free | by apply Hn; eauto].
  - destruct u as [u|]; [|done]. cbn [url_text]. rewrite !Forall_app.
    split_and!; first [by apply txt_nul_free | by apply Hn; eauto].
Qed.

(** ** The filter over a whole stream *)

Lemma cstrl_len l : lenZ (cstrl l) <= lenZ l.
Proof.
  induction l as [|c l IH]; [done|]. cbn [cstrl]. rewrite lenZ_cons. pose proof (lenZ_nonneg l).
  destruct (Ascii.eqb c NUL); [|rewrite lenZ_cons; lia]. change (lenZ []) with 0. lia.
Qed.

Lemma strstr_len p l a b : strstr p l = Some (a, b) -> lenZ b <= lenZ l.
Proof. intros E%strstr_split. rewrite E, lenZ_app. pose proof (lenZ_nonneg a). lia. Qed.

Lemma memcpy_len buf off src b : memcpy buf off src = Some b -> lenZ b = lenZ buf.
Proof.
  unfold memcpy. destruct (_ && _) eqn:E; [|done]. intros [= <-]. pose proof (lenZ_nonneg src). rewrite !lenZ_app, lenZ_take by lia.
  unfold lenZ in *. rewrite length_drop. lia.
Qed.

Definition inline_step (s s' : mp3_state) : Prop :=
  lenZ (st_build_metadata s) <= 4081 /\ inline_ok s -> lenZ (st_build_metadata s') <= 4081 /\ inline_ok s'.

Lemma fill_block_inline src s t :
  fill_block src s = Some t ->
  match t with BlockWait s' | BlockNext _ s' | BlockBad s' => inline_step s s' end.
Proof.
  unfold fill_block, inline_step. destruct (lenZ src <? _).
  { destruct (memcpy _ _ _) as [b|] eqn:E; [|done]. run_bind. intros [= <-] [H1 H2]. apply memcpy_len in E.
    cbn. rewrite E. done. }
  destruct (memcpy _ _ _) as [b|] eqn:E; [|done]. run_bind. apply memcpy_len in E.
  destruct (_ && _); [destruct (prefix_of _ _)|]; intros [= <-] [H1 H2]; cbn [set_offset set_build st_build_metadata];
    rewrite E; (split; [done|]); try exact H2.
  intros i x. cbn. destruct (strstr _ _) as [[y z]|] eqn:Es; [|done]. intros [= <- <-]. apply strstr_len in Es.
  pose proof (cstrl_len (drop 1 (take (Z.to_nat (st_build_metadata_len s)) b))) as Hc.
  unfold lenZ in *. rewrite length_drop, length_take in Hc. lia.
Qed.

Lemma filter_loop_inline fuel src acc s res s' :
  filter_loop fuel src acc s = Some (res, s') -> inline_step s s'.
Proof.
  revert src acc s. induction fuel as [|fuel IH]; intros src acc s; [done|]. cbn [filter_loop].
  destruct src as [|c src]; [intros [= _ <-]; exact (fun H => H)|].
  destruct (_ <=? _); [intros [= _ <-]; exact (fun H => H)|].
  destruct (negb _); [intros H%IH; exact H|]. unfold filter_block.
  destruct (fill_block _ _) as [t|] eqn:E; [|done]. run_bind. apply fill_block_inline in E.
  set (s1 := if st_build_metadata_len s =? 0 then _ else _) in *.
  assert (inline_step s s1) as K.
  { unfold s1. destruct (_ =? 0); [|exact (fun H => H)]. intros [_ H]. split; [|exact H]. cbn. by rewrite lenZ_zeros. }
  destruct t as [s2|l s2|s2]; [intros [= _ <-]|intros H%IH|intros [= _ <-]]; unfold inline_step in *; auto.
Qed.

(** Reading from the bytes a source will send: per read, whether a tag was
    set before it and how many bytes have come. *)
Definition feed_step (c : option bytes * option bytes * option bytes) (step : bool * nat)
    (stream : bytes) (s : mp3_state) : option (mp3_outcome * bytes * mp3_state) :=
  let s := if step.1 then snd (mp3_set_tag None s) else s in
  let n := Nat.min step.2 (Z.to_nat (REFBUF_SIZE - lenZ (default [] (st_read_data s)))) in
  '(o, s) ← mp3_get_filter_meta c (ReadBytes (take n stream)) s;
  Some (o, drop n stream, s).

Fixpoint feed (c : option bytes * option bytes * option bytes) (steps : list (bool * nat))
    (stream : bytes) (s : mp3_state) : option (list mp3_outcome * bytes * mp3_state) :=
  match steps with
  | [] => Some ([], stream, s)
  | x :: r =>
      '(o, stream, s) ← feed_step c x stream s;
      match o with
      | Mp3Stop => Some ([Mp3Stop], stream, s)
      | _ => '(os, stream, s) ← feed c r stream s; Some (o :: os, stream, s)
      end
  end.

(** The audio of the buffers. *)
Definition outcome_audio (o : mp3_outcome) : bytes :=
  match o with Mp3Buffer b => b_data b | _ => [] end.

Definition outcome_ok (o : mp3_outcome) : Prop :=
  match o with
  | Mp3Buffer b => exists m, b_associated b = Some m /\ block_ok (m_data m) /\ b_data b <> []
  | _ => True
  end.

(** The filter between two reads, when the receiver has seen [done] and the
    [REFBUF_SIZE] bytes of the next block are not all there. *)
Record feed_inv (I : Z) (fed : bytes) (s : mp3_state) : Prop := {
  fi_rel : filter_rel s (icy_run I icy_start fed).1.1;
  fi_interval : st_inline_metadata_interval s = I;
  fi_pending : lenZ (default [] (st_read_data s)) < REFBUF_SIZE;
  fi_inline : inline_ok s;
  fi_block : block_ok (m_data (st_metadata s))
}.

Lemma filter_rel_ext s s' i :
  filter_rel s i -> st_inline_metadata_interval s' = st_inline_metadata_interval s ->
  st_build_metadata s' = st_build_metadata s -> st_build_metadata_len s' = st_build_metadata_len s ->
  st_build_metadata_offset s' = st_build_metadata_offset s -> st_offset s' = st_offset s -> filter_rel s' i.
Proof. intros [F1 F2 F3] E1 E2 E3 E4 E5. split; rewrite ?E1, ?E2, ?E3, ?E4, ?E5; done. Qed.

Lemma refresh_title_ok c s i :
  comments_ok c -> filter_rel s i -> inline_ok s -> block_ok (m_data (st_metadata s)) ->
  exists s', refresh_title c s = Some s' /\ filter_rel s' i /\ inline_ok s' /\ block_ok (m_data (st_metadata s')) /\
    st_inline_metadata_interval s' = st_inline_metadata_interval s /\ st_read_data s' = st_read_data s.
Proof.
  intros Hc F Hi Hb. unfold refresh_title. destruct (st_update_metadata s); [|by exists s].
  destruct c as [[a t] u]. cbn [fst snd]. destruct (set_title_total a t u s Hc Hi) as (e & s1 & -> & H). run_bind.
  eexists. split; [done|]. destruct H as [->|(data & Hd & ->)]; split_and!; try done; by eapply filter_rel_ext.
Qed.

(** The audio of a stream, and its blocks. *)
Definition icy_audio (I : Z) (l : bytes) : bytes := (icy_run I icy_start l).1.2.
Definition icy_blocks (I : Z) (l : bytes) : list bytes := (icy_run I icy_start l).2.

(** A block that ends the stream: it has a text, and not a title's. *)
Definition bad_block (b : bytes) : Prop :=
  lenZ b <> 1 /\ prefix_of (txt "StreamTitle=") (block_text b) = false.

Lemma spec_meta_none t blocks : spec_meta t blocks = None -> Exists bad_block blocks.
Proof.
  revert t. induction blocks as [|b r IH]; intros t; cbn [spec_meta]; [done|].
  destruct ((lenZ b =? 1) || _) eqn:E; [intros H%IH; by right|].
  destruct (prefix_of _ _) eqn:Ep; [intros H%IH; by right|]. intros _. left. split; [|done].
  apply orb_false_iff in E as [E _]. by apply Z.eqb_neq in E.
Qed.

Lemma feed_step_ok c I fed x stream s :
  comments_ok c -> feed_inv I fed s ->
  exists o now rest s', feed_step c x stream s = Some (o, rest, s') /\ outcome_ok o /\
    match o with
    | Mp3Stop => default [] (st_read_data s) ++ stream = now ++ rest /\ Exists bad_block (icy_blocks I (fed ++ now))
    | _ => feed_inv I (fed ++ now) s' /\ icy_audio I (fed ++ now) = icy_audio I fed ++ outcome_audio o /\
        default [] (st_read_data s) ++ stream = now ++ default [] (st_read_data s') ++ rest
    end.
Proof.
  intros Hc [F1 F2 F3 F4 F5]. unfold feed_step.
  set (s0 := if x.1 then _ else _).
  assert (filter_rel s0 (icy_run I icy_start fed).1.1 /\ inline_ok s0 /\ block_ok (m_data (st_metadata s0)) /\
    st_inline_metadata_interval s0 = I /\ st_read_data s0 = st_read_data s) as (K1 & K2 & K3 & K4 & K5).
  { unfold s0. destruct (x.1); [|by split_and!]. split_and!; try done. by eapply filter_rel_ext. }
  clearbody s0. rewrite <- K5 in *. clear s F1 F2 F4 F5 K5. rename s0 into s.
  set (have := default [] (st_read_data s)) in *. set (n := Nat.min _ _). pose proof (lenZ_nonneg have).
  assert (take (Z.to_nat (REFBUF_SIZE - lenZ have)) (take n stream) = take n stream) as Et.
  { apply firstn_all2. rewrite length_take. lia. }
  assert (have ++ stream = (have ++ take n stream) ++ drop n stream) as Es.
  { by rewrite <- app_assoc, take_drop. }
  unfold mp3_get_filter_meta, complete_read. fold have. rewrite Et. set (now := have ++ take n stream) in *.
  destruct (Z.ltb_spec (lenZ now) REFBUF_SIZE) as [Hl|Hl].
  { run_bind. eexists Mp3None, [], _, _. split; [done|]. split; [done|]. rewrite !app_nil_r.
    split_and!; [|done|].
    - split; try done; [by eapply filter_rel_ext|]. by destruct now.
    - cbn [app]. rewrite Es. by destruct now. }
  assert (lenZ now < 2 ^ 31) as Hn.
  { unfold now, REFBUF_SIZE in *. rewrite lenZ_app. unfold lenZ in *. rewrite length_take. lia. }
  destruct (refresh_title_ok c (set_read_data None (set_read_data (Some now) s)) (icy_run I icy_start fed).1.1)
    as (s1 & -> & G1 & G2 & G3 & G4 & G5); [done|by eapply filter_rel_ext|done|done|]. run_bind.
  cbv zeta. change (default [] (st_read_data (set_read_data (Some now) s))) with now. cbn in G4, G5.
  destruct (filter_loop_ok (S (length now)) s1 (icy_run I icy_start fed).1.1 now [] G1) as (res & s2 & E & G); [lia|done|].
  rewrite E. run_bind. apply filter_loop_inline in E. destruct E as [_ H2]; [by rewrite (fr_build _ _ G1)|].
  unfold filter_goal in G. rewrite G4, K4 in G.
  assert (icy_audio I (fed ++ now) = icy_audio I fed ++ (icy_run I (icy_run I icy_start fed).1.1 now).1.2 /\
    (icy_run I icy_start (fed ++ now)).1.1 = (icy_run I (icy_run I icy_start fed).1.1 now).1.1 /\
    icy_blocks I (fed ++ now) = icy_blocks I fed ++ (icy_run I (icy_run I icy_start fed).1.1 now).2) as (Ea & Ei & Eb).
  { unfold icy_audio, icy_blocks. rewrite icy_run_app. destruct (icy_run I icy_start fed) as [[i a] b].
    cbn [fst snd]. by destruct (icy_run I i now) as [[i' a'] b']. }
  destruct (icy_run I _ now) as [[i' a'] b']. cbn [fst snd] in Ea, Ei, Eb. destruct G as ((L1 & L2 & _) & G).
  destruct res as [acc|]; last first.
  { eexists Mp3Stop, now, _, _. split; [done|]. split; [done|]. split; [done|]. rewrite Eb.
    apply Exists_app. right. by eapply spec_meta_none. }
  destruct G as (-> & M1 & M2 & M3). cbn [app].
  assert (feed_inv I (fed ++ now) s2) as FI.
  { split; [by rewrite Ei|congruence|by rewrite L2, G5|done|by apply M3]. }
  assert (have ++ stream = now ++ default [] (st_read_data s2) ++ drop n stream) as Er by (by rewrite L2, G5).
  destruct a' as [|y a'].
  - eexists Mp3None, now, _, s2. split; [done|]. split_and!; done.
  - eexists (Mp3Buffer _), now, _, s2. split; [done|]. split; [|split_and!; done].
    eexists. split_and!; [done|by apply M3|done].
Qed.

Lemma plugin_inv m : 0 < atoi m -> feed_inv (atoi m) [] (fst (format_mp3_get_plugin (Some m))).
Proof.
  intros H. assert (atoi m < 2 ^ 31) by (unfold atoi; pose proof (swrap_range 32 (fst (strtol m))); lia).
  unfold format_mp3_get_plugin. split; cbn [fst]; try done.
  - split; cbn; [done|done|]. left. split_and!; done || lia.
  - exists (chr 1), (txt "StreamTitle='';" ++ [NUL]). by split.
Qed.

Lemma feed_ok c I steps : comments_ok c -> forall fed stream s,
  feed_inv I fed s ->
  exists outs now tail rest s', feed c steps stream s = Some (outs, rest, s') /\ Forall outcome_ok outs /\
    default [] (st_read_data s) ++ stream = now ++ tail /\
    (Mp3Stop ∈ outs -> Exists bad_block (icy_blocks I (fed ++ now))) /\
    (Mp3Stop ∉ outs -> feed_inv I (fed ++ now) s' /\ tail = default [] (st_read_data s') ++ rest /\
       icy_audio I (fed ++ now) = icy_audio I fed ++ concat (outcome_audio <$> outs)).
Proof.
  intros Hc. induction steps as [|x steps IH]; intros fed stream s F.
  { exists [], [], (default [] (st_read_data s) ++ stream), stream, s. rewrite !app_nil_r.
    split_and!; try done. by intros ?%not_elem_of_nil. }
  cbn [feed]. destruct (feed_step_ok c I fed x stream s Hc F) as (o & now & rest & s1 & -> & Ho & H). run_bind.
  assert (Mp3Stop ∈ [Mp3Stop]) as Hin by by left.
  destruct (decide (o = Mp3Stop)) as [->|No].
  { destruct H as [H1 H2]. exists [Mp3Stop], now, rest, rest, s1. split_and!; try done; by constructor. }
  assert (feed_inv I (fed ++ now) s1 /\ icy_audio I (fed ++ now) = icy_audio I fed ++ outcome_audio o /\
    default [] (st_read_data s) ++ stream = now ++ default [] (st_read_data s1) ++ rest) as (F1 & A1 & E1)
    by by destruct o.
  destruct (IH (fed ++ now) rest s1 F1) as (outs & now' & tail & rest' & s2 & E & Hos & Et & K1 & K2).
  exists (o :: outs), (now ++ now'), tail, rest', s2. rewrite E.
  split; [by destruct o|]. split; [by constructor|]. split; [by rewrite E1, Et, app_assoc|].
  rewrite (app_assoc fed). rewrite elem_of_cons. split.
  - intros [?|?]; [congruence|by apply K1].
  - intros N. destruct K2 as (K2 & K3 & K4); [tauto|]. split_and!; [done..|].
    rewrite K4, A1. cbn [fmap list_fmap concat]. by rewrite app_assoc.
Qed.

