(* ===== verification/FormatMp3Write.v ===== *)
(** The listener's side of [FormatMp3.v]: what a listener is sent is the audio
    of its buffers with a block of metadata after every [interval] bytes of
    it, however the connection cuts it, and a source that gets it takes it
    apart again. *)

From S2P Require Import Prelude FormatMp3 FormatMp3Facts.
Local Open Scope Z_scope.

(** ** What is sent *)

Section wire.
(** What is known of every block of metadata. *)
Variable P : bytes -> Prop.
Hypothesis P_nul : P [NUL].
Hypothesis P_blank : P blank_metadata.

Record buf_ok (b : mp3_buf) : Prop := {
  bo_len : lenZ (b_data b) < 2 ^ 31;
  bo_meta : forall m, b_associated b = Some m -> block_ok (m_data m) /\ P (m_data m)
}.

(** The receiver at the other end of the connection, when the listener has
    got the buffers [gone] and the bytes of [b] before its position. *)
Record wire_inv (I : Z) (gone : list mp3_buf) (b : mp3_buf) (w : writer) : Prop := {
  wi_interval : mc_interval (w_mp3 w) = I;
  wi_range : 0 <= I < 2 ^ 31;
  wi_pos : 0 <= w_pos w <= lenZ (b_data b);
  wi_audio : icy_audio I (w_sent w) = concat (b_data <$> gone) ++ take (Z.to_nat (w_pos w)) (b_data b);
  wi_blocks : Forall P (icy_blocks I (w_sent w));
  wi_plain : I = 0 -> mc_in_metadata (w_mp3 w) = false;
  wi_state : 0 < I ->
    if mc_in_metadata (w_mp3 w) then
      let '(array, off) := metadata_to_send (b_associated b) (w_mp3 w) in
      block_ok array /\ 0 <= off < lenZ array /\ mc_since_meta_block (w_mp3 w) = I /\
      (icy_run I icy_start (w_sent w)).1.1 = at_block I array off
    else
      mc_metadata_offset (w_mp3 w) = 0 /\ 0 <= mc_since_meta_block (w_mp3 w) <= I /\
      (icy_run I icy_start (w_sent w)).1.1 = Icy (mc_since_meta_block (w_mp3 w)) 0 []
}.

(** The bytes sent may grow, one piece after the other. *)
Lemma icy_sent I l k i a bs :
  icy_run I (icy_run I icy_start l).1.1 k = (i, a, bs) ->
  (icy_run I icy_start (l ++ k)).1.1 = i /\ icy_audio I (l ++ k) = icy_audio I l ++ a /\
  icy_blocks I (l ++ k) = icy_blocks I l ++ bs.
Proof.
  unfold icy_audio, icy_blocks. rewrite icy_run_app. destruct (icy_run I icy_start l) as [[i0 a0] b0].
  cbn [fst snd]. by intros ->.
Qed.

(** A send takes some of the bytes, or fails. *)
Lemma client_send_ok buf off len w :
  0 <= off -> 0 <= len -> off + len <= lenZ buf ->
  exists n ret net, client_send_bytes buf off len w =
      Some (ret, Writer (w_mp3 w) (w_pos w) net (w_sent w ++ take (Z.to_nat n) (drop (Z.to_nat off) buf))) /\
    0 <= n <= len /\ (ret = n \/ (ret = -1 /\ n = 0)).
Proof.
  intros Ho Hl Hb. unfold client_send_bytes.
  replace ((0 <=? off) && (off + len <=? lenZ buf)) with true by lia.
  destruct (w_net w) as [|a net].
  { cbn. eexists 0, _, _. split; [done|]. lia. }
  destruct (Z.ltb_spec a 0).
  - eexists 0, _, _. split; [done|]. lia.
  - eexists (Z.min a len), _, _. split; [done|]. lia.
Qed.

Lemma to_send_ok assoc m array off :
  (forall a, assoc = Some a -> block_ok (m_data a) /\ P (m_data a)) -> metadata_to_send assoc m = (array, off) ->
  block_ok array /\ P array /\ (off = 0 \/ off = mc_metadata_offset m).
Proof.
  intros H. unfold metadata_to_send. destruct assoc as [a|]; [destruct (same_meta _ _)|]; intros [= <- <-].
  - split_and!; [by exists NUL, []|done|by left].
  - split_and!; [by apply H|by apply H|by right].
  - split_and!; [by exists (chr 1), (txt "StreamTitle='';" ++ [NUL])|done|by right].
Qed.

(** The place after a send that took some of a block. *)
Lemma to_send_next assoc m array off n ret :
  metadata_to_send assoc m = (array, off) -> 0 <= off -> n < lenZ array - off ->
  (ret = n \/ ret = -1 /\ n = 0) -> 0 <= n ->
  metadata_to_send assoc (Mp3Client (mc_interval m)
    (if 0 <? ret then mc_metadata_offset m + ret else mc_metadata_offset m)
    (mc_since_meta_block m) true (mc_associated m)) = (array, off + n).
Proof.
  intros E Ho Hn Hr H0. unfold metadata_to_send in *. cbn [mc_associated mc_metadata_offset].
  assert ((if 0 <? ret then mc_metadata_offset m + ret else mc_metadata_offset m) = mc_metadata_offset m + n) as ->.
  { destruct (Z.ltb_spec 0 ret); lia. }
  destruct assoc as [a|]; [destruct (same_meta _ _)|]; injection E as <- <-; try done.
  change (lenZ [NUL]) with 1 in Hn. f_equal. lia.
Qed.

(** The metadata of a turn is a block, and what is left of it is sent. *)
Lemma send_metadata_ok I gone b w :
  wire_inv I gone b w -> buf_ok b -> 0 < I -> mc_since_meta_block (w_mp3 w) = I ->
  exists ret w', send_stream_metadata (b_associated b) w = Some (ret, w') /\ wire_inv I gone b w' /\
    w_pos w' = w_pos w /\ 0 <= ret /\ lenZ (w_sent w') = lenZ (w_sent w) + ret /\
    (mc_in_metadata (w_mp3 w') = false -> mc_since_meta_block (w_mp3 w') = 0 /\ mc_metadata_offset (w_mp3 w') = 0).
Proof.
  intros [W1 W2 W3 W4 W5 W6 W7] [B1 B2] HI Hs. specialize (W7 HI). unfold send_stream_metadata.
  set (assoc := b_associated b) in *. destruct (metadata_to_send assoc (w_mp3 w)) as [array off] eqn:Em.
  destruct (to_send_ok assoc (w_mp3 w) array off B2 Em) as (_ & HP & H2).
  assert (block_ok array /\ 0 <= off < lenZ array /\
    (icy_run I icy_start (w_sent w)).1.1 = at_block I array off) as (Ha & Hoff & Hi).
  { destruct (mc_in_metadata (w_mp3 w)); [by destruct W7 as (? & ? & ? & ?)|].
    destruct W7 as (E1 & E2 & ->). rewrite Hs. destruct (to_send_ok assoc (w_mp3 w) array off B2 Em) as (H1 & _).
    pose proof (block_ok_pos _ H1). destruct H2 as [-> | ->]; rewrite ?E1; split_and!; done || lia. }
  pose proof (block_ok_pos _ Ha). rewrite i32_id, u32_id by lia.
  destruct (client_send_ok array off (lenZ array - off) w) as (n & ret & net & -> & Hn & Hr); [lia..|]. run_bind.
  set (sent := w_sent w ++ _). assert (lenZ sent = lenZ (w_sent w) + n) as Ls.
  { unfold sent. rewrite lenZ_app, lenZ_take; [done|]. rewrite lenZ_drop; lia. }
  destruct (Z.eqb_spec ret (lenZ array - off)) as [->|Nr].
  - assert (n = lenZ array - off) as En by lia.
    assert (icy_run I (icy_run I icy_start (w_sent w)).1.1 (take (Z.to_nat n) (drop (Z.to_nat off) array)) =
      (icy_start, [], [array])) as K.
    { rewrite Hi, firstn_all2; [by apply icy_block_rest|]. pose proof (lenZ_drop off array). unfold lenZ in *. lia. }
    apply icy_sent in K as (K1 & K2 & K3). fold sent in K1, K2, K3. eexists _, _. split; [done|].
    cbn [w_set_mp3 w_mp3 w_sent w_pos mc_in_metadata mc_since_meta_block mc_metadata_offset].
    split; [|split_and!; done || lia].
    split; cbn [w_set_mp3 w_mp3 w_sent w_pos mc_in_metadata mc_since_meta_block mc_metadata_offset mc_interval]; try done.
    + by rewrite K2, app_nil_r.
    + rewrite K3. apply Forall_app. by split; [|apply Forall_singleton].
    + intros _. rewrite K1. split_and!; done || lia.
  - assert (n < lenZ array - off) as Hlt by lia.
    pose proof (icy_block_part I array off n HI Ha ltac:(lia) ltac:(lia) ltac:(lia)) as K. rewrite <- Hi in K.
    apply icy_sent in K as (K1 & K2 & K3). fold sent in K1, K2, K3. rewrite app_nil_r in K2, K3.
    eexists _, _. split; [done|]. cbn [w_set_mp3 w_mp3 w_sent w_pos mc_in_metadata].
    split; [|split_and!; done || lia].
    split; cbn [w_set_mp3 w_mp3 w_sent w_pos mc_in_metadata mc_since_meta_block mc_metadata_offset mc_interval]; try done.
    + by rewrite K2.
    + by rewrite K3.
    + intros ->. lia.
    + intros _. fold assoc. rewrite (to_send_next assoc (w_mp3 w) array off n ret) by (done || lia).
      split_and!; done || lia.
Qed.

(** Audio is sent from the place the listener is at. *)
Lemma send_audio_ok I gone b w len :
  wire_inv I gone b w -> buf_ok b -> mc_in_metadata (w_mp3 w) = false ->
  0 <= len -> w_pos w + len <= lenZ (b_data b) ->
  (0 < I -> mc_since_meta_block (w_mp3 w) + len <= I) ->
  exists ret n w', send_audio (b_data b) (w_pos w) len w = Some (ret, w') /\ wire_inv I gone b w' /\
    mc_in_metadata (w_mp3 w') = false /\ 0 <= n <= len /\ (ret = n \/ ret = -1 /\ n = 0) /\
    w_pos w' = w_pos w + n /\ lenZ (w_sent w') = lenZ (w_sent w) + n /\
    (0 < I -> mc_since_meta_block (w_mp3 w') = mc_since_meta_block (w_mp3 w) + n).
Proof.
  intros [W1 W2 W3 W4 W5 W6 W7] [B1 B2] Hm Hl0 Hl HI. rewrite Hm in W7. unfold send_audio.
  destruct (client_send_ok (b_data b) (w_pos w) len w) as (n & ret & net & -> & Hn & Hr); [lia..|]. run_bind.
  set (more := take (Z.to_nat n) (drop (Z.to_nat (w_pos w)) (b_data b))).
  assert (lenZ more = n) as Lm by (unfold more; rewrite lenZ_take; [done|rewrite lenZ_drop; lia]).
  assert (take (Z.to_nat (w_pos w)) (b_data b) ++ more = take (Z.to_nat (w_pos w + n)) (b_data b)) as Ea
    by (apply take_drop_add; lia).
  assert (icy_audio I (w_sent w ++ more) = icy_audio I (w_sent w) ++ more /\
    icy_blocks I (w_sent w ++ more) = icy_blocks I (w_sent w) /\
    (0 < I -> (icy_run I icy_start (w_sent w ++ more)).1.1 = Icy (mc_since_meta_block (w_mp3 w) + n) 0 [])) as (K1 & K2 & K3).
  { destruct (Z.eq_dec I 0) as [->|N].
    - unfold icy_audio, icy_blocks. rewrite !icy_run_plain. by split_and!.
    - destruct (W7 ltac:(lia)) as (E1 & E2 & E3). specialize (HI ltac:(lia)).
      pose proof (icy_run_audio I (mc_since_meta_block (w_mp3 w)) more ltac:(lia) ltac:(lia) ltac:(lia)) as K.
      rewrite <- E3 in K. apply icy_sent in K as (K1 & K2 & K3). rewrite app_nil_r, Lm in *. by split_and!. }
  assert (forall m pos net', mc_interval m = I -> mc_in_metadata m = false -> mc_metadata_offset m = mc_metadata_offset (w_mp3 w) ->
    pos = w_pos w + n -> (0 < I -> mc_since_meta_block m = mc_since_meta_block (w_mp3 w) + n) ->
    wire_inv I gone b (Writer m pos net' (w_sent w ++ more))) as KW.
  { intros m pos net' M1 M2 M3 -> M4. split; cbn [w_mp3 w_pos w_sent]; try done; rewrite ?M2; try done.
    - lia.
    - by rewrite K1, W4, <- app_assoc, Ea.
    - by rewrite K2.
    - intros HI'. rewrite M3, (M4 HI'), (K3 HI'). destruct (W7 HI') as (E1 & E2 & E3). specialize (HI HI').
      split_and!; done || lia. }
  destruct (Z.ltb_spec 0 ret) as [Hp|Hp].
  - assert (ret = n) as -> by lia. eexists n, n, _. split; [done|].
    cbn [w_set_pos w_set_mp3 w_mp3 w_pos w_sent mc_in_metadata mc_since_meta_block].
    assert (0 < I -> u32 (mc_since_meta_block (w_mp3 w) + n) = mc_since_meta_block (w_mp3 w) + n) as Eu.
    { intros HI'. apply u32_id. destruct (W7 HI') as (_ & E2 & _). specialize (HI HI'). lia. }
    split; [by apply KW|]. rewrite lenZ_app. split_and!; first [done | lia | by left | by auto].
  - assert (n = 0) as En by lia. eexists ret, n, _. split; [done|]. cbn [w_mp3 w_pos w_sent].
    split; [apply KW; try done; lia|]. rewrite lenZ_app. split_and!; done || lia.
Qed.

(** A turn of the listener: what it writes stays what the receiver
    understands, and it counts the bytes. *)
Definition turn_ok (I : Z) (gone : list mp3_buf) (b : mp3_buf) (w : writer) (written : Z)
    (r : option (Z * writer)) : Prop :=
  exists ret w', r = Some (ret, w') /\ wire_inv I gone b w' /\ w_pos w <= w_pos w' /\
    ret - written = lenZ (w_sent w') - lenZ (w_sent w) /\ written <= ret.

Lemma write_rest_ok I gone b w len written :
  wire_inv I gone b w -> buf_ok b -> mc_in_metadata (w_mp3 w) = false ->
  0 <= len -> w_pos w + len <= lenZ (b_data b) ->
  (0 < I -> mc_since_meta_block (w_mp3 w) + len <= I) ->
  turn_ok I gone b w written (write_rest (b_data b) (w_pos w) len written w).
Proof.
  intros W B Hm H0 Hl HI. unfold write_rest. destruct (Z.eqb_spec len 0) as [_|_].
  { eexists _, _. split; [done|]. split_and!; done || lia. }
  destruct (send_audio_ok I gone b w len W B Hm H0 Hl HI) as (ret & n & w' & -> & W' & _ & Hn & Hr & Hp & Hs & _).
  run_bind. eexists _, _. split; [done|]. split_and!; done || lia.
Qed.

Lemma write_block_ok I gone b w written :
  wire_inv I gone b w -> buf_ok b -> mc_in_metadata (w_mp3 w) = false ->
  turn_ok I gone b w written (write_block b (w_pos w) (lenZ (b_data b) - w_pos w) written w).
Proof.
  intros W B Hm. pose proof W as [W1 W2 W3 W4 W5 W6 W7]. rewrite Hm in W7. unfold write_block. rewrite W1.
  destruct (Z.eqb_spec I 0) as [->|NI]; cbn [negb andb].
  { apply write_rest_ok; done || lia. }
  destruct (W7 ltac:(lia)) as (E1 & E2 & E3). set (since := mc_since_meta_block (w_mp3 w)) in *.
  rewrite u32_id by lia. destruct (Z.leb_spec (I - since) (lenZ (b_data b) - w_pos w)) as [Hle|Hgt].
  2: { apply write_rest_ok; try done; lia. }
  assert (exists ret n w1, (if I - since =? 0 then Some (0, w) else send_audio (b_data b) (w_pos w) (I - since) w) =
      Some (ret, w1) /\ wire_inv I gone b w1 /\ mc_in_metadata (w_mp3 w1) = false /\ 0 <= n <= I - since /\
      (ret = n \/ ret = -1 /\ n = 0 /\ I - since <> 0) /\ w_pos w1 = w_pos w + n /\
      lenZ (w_sent w1) = lenZ (w_sent w) + n /\ mc_since_meta_block (w_mp3 w1) = since + n)
    as (ret & n & w1 & -> & V1 & V2 & V3 & V4 & V5 & V6 & V7).
  { destruct (Z.eqb_spec (I - since) 0) as [E0|E0].
    - exists 0, 0, w. split_and!; try done; lia.
    - destruct (send_audio_ok I gone b w (I - since) W B Hm) as (ret & n & w1 & -> & V1 & V2 & V3 & V4 & V5 & V6 & V7);
        [lia..|]. specialize (V7 ltac:(lia)). exists ret, n, w1. split_and!; try done; lia. }
  run_bind. destruct (Z.ltb_spec ret (I - since)) as [Hlt|Hge].
  { eexists _, _. split; [done|]. split_and!; done || lia. }
  assert (ret = n /\ n = I - since) as [-> ->] by lia. clear V3 V4.
  destruct (send_metadata_ok I gone b w1 V1 B) as (ret2 & w2 & -> & X1 & X2 & X3 & X4 & X5); [lia|lia|].
  run_bind. destruct (mc_in_metadata (w_mp3 w2)) eqn:Em.
  { eexists _, _. split; [done|]. split_and!; done || lia. }
  destruct (X5 eq_refl) as [Y1 Y2]. rewrite <- V5, <- X2.
  set (len := lenZ (b_data b) - w_pos w - (I - since)).
  destruct (write_rest_ok I gone b w2 (if I <? len then I else len) (written + (I - since) + ret2) X1 B Em)
    as (ret3 & w3 & E & Z1 & Z2 & Z3 & Z4).
  { destruct (I <? len); lia. }
  { destruct (Z.ltb_spec I len); lia. }
  { intros _. rewrite Y1. destruct (Z.ltb_spec I len); lia. }
  eexists _, _. split; [exact E|]. split_and!; done || lia.
Qed.

Lemma write_buf_ok I gone b w :
  wire_inv I gone b w -> buf_ok b -> turn_ok I gone b w 0 (format_mp3_write_buf_to_client b w).
Proof.
  intros W B. pose proof W as [W1 W2 W3 W4 W5 W6 W7]. pose proof (bo_len _ B).
  unfold format_mp3_write_buf_to_client. rewrite u32_id by lia.
  destruct (mc_in_metadata (w_mp3 w)) eqn:Em; [|by apply write_block_ok].
  destruct (Z.eq_dec I 0) as [->|NI]; [by specialize (W6 eq_refl)|].
  assert (mc_since_meta_block (w_mp3 w) = I) as Hs.
  { specialize (W7 ltac:(lia)). destruct (metadata_to_send _ _). by destruct W7 as (_ & _ & ? & _). }
  destruct (send_metadata_ok I gone b w W B ltac:(lia) Hs) as (ret & w1 & -> & X1 & X2 & X3 & X4 & _).
  run_bind. destruct (mc_in_metadata (w_mp3 w1)) eqn:Em1.
  { eexists _, _. split; [done|]. split_and!; done || lia. }
  rewrite <- X2. destruct (write_block_ok I gone b w1 ret X1 B Em1) as (r & w2 & -> & Y1 & Y2 & Y3 & Y4).
  eexists _, _. split; [done|]. split_and!; done || lia.
Qed.

(** ** A listener *)

(** A listener starts at a buffer, is written to any number of times and goes
    to the next buffer where it has got one whole.  It does not leave a buffer
    in the middle of a block of metadata, unless the next one has the same. *)
Inductive listener (I : Z) : list mp3_buf -> mp3_buf -> writer -> Prop :=
| listener_start b net : listener I [] b (Writer (Mp3Client I 0 0 false None) 0 net [])
| listener_write gone b w ret w' :
    listener I gone b w -> format_mp3_write_buf_to_client b w = Some (ret, w') -> listener I gone b w'
| listener_next gone b w b' :
    listener I gone b w -> w_pos w = lenZ (b_data b) ->
    (mc_in_metadata (w_mp3 w) = true ->
       metadata_to_send (b_associated b') (w_mp3 w) = metadata_to_send (b_associated b) (w_mp3 w)) ->
    listener I (gone ++ [b]) b' (w_set_pos 0 w).

Lemma listener_inv I gone b w :
  0 <= I < 2 ^ 31 -> (forall b, b ∈ gone -> buf_ok b) -> listener I gone b w -> buf_ok b -> wire_inv I gone b w.
Proof.
  intros HI. induction 2 as [b net|gone b w ret w' _ IH E|gone b w b' _ IH E K]; intros Hb.
  - split; cbn; try done; [pose proof (lenZ_nonneg (b_data b)); lia|]. intros _. split_and!; done || lia.
  - specialize (IH ltac:(done) Hb). destruct (write_buf_ok I gone b w IH Hb) as (r & w2 & E2 & W & _).
    rewrite E in E2. by injection E2 as _ <-.
  - assert (buf_ok b) as Hb0 by (apply H; apply elem_of_app; right; by left).
    destruct IH as [W1 W2 W3 W4 W5 W6 W7]; [intros x Hx; apply H, elem_of_app; by left|done|].
    split; cbn [w_set_pos w_mp3 w_pos w_sent]; try done.
    + pose proof (lenZ_nonneg (b_data b')). lia.
    + rewrite W4, E, fmap_app, concat_app. cbn. rewrite !app_nil_r. f_equal. rewrite firstn_all2; [done|]. unfold lenZ. lia.
    + intros Hp. specialize (W7 Hp). destruct (mc_in_metadata (w_mp3 w)); [|done]. by rewrite K.
Qed.

End wire.


(** ** From server to server *)

(** A server that relays what a listener of another one is sent gets its
    audio: the buffers it makes hold a beginning of the audio of the buffers
    the listener has been given, and as long as their metadata are titles the
    stream is not given up. *)
Theorem mp3_relay I m gone b w c steps :
  (forall b, b ∈ gone -> buf_ok (fun b => ~ bad_block b) b) -> buf_ok (fun b => ~ bad_block b) b -> listener I gone b w ->
  comments_ok c -> 0 < atoi m -> atoi m = I ->
  exists outs rest s,
    feed c steps (w_sent w) (fst (format_mp3_get_plugin (Some m))) = Some (outs, rest, s) /\
    (Mp3Stop ∉ outs) /\
    concat (outcome_audio <$> outs) `prefix_of` concat (b_data <$> gone) ++ b_data b.
Proof.
  intros Hg Hb L Hc Hm <-. assert (0 <= atoi m < 2 ^ 31) as HI.
  { unfold atoi in *. pose proof (swrap_range 32 (fst (strtol m))). lia. }
  assert (~ bad_block [NUL]) as P1 by by intros [H _].
  assert (~ bad_block blank_metadata) as P2 by by intros [_ H].
  pose proof (listener_inv _ P1 P2 _ gone b w HI Hg L Hb) as W. pose proof (wi_audio _ _ _ _ _ W) as Ha.
  destruct (feed_ok c (atoi m) steps Hc [] (w_sent w) _ (plugin_inv m Hm))
    as (outs & fed & tail & rest & s & E & _ & Et & Ks & K).
  exists outs, rest, s. split; [done|]. cbn [app] in *.
  destruct (icy_run (atoi m) (icy_run (atoi m) icy_start fed).1.1 tail) as [[i a] bs] eqn:Er.
  apply icy_sent in Er as (_ & Ea & Eb). change (w_sent w = fed ++ tail) in Et. rewrite <- Et in Ea, Eb.
  assert (Mp3Stop ∉ outs) as N.
  { intros Hin%Ks. pose proof (wi_blocks _ _ _ _ _ W) as Hw. rewrite Eb, Forall_app in Hw.
    apply Exists_exists in Hin as (x & Hx & Bx). destruct Hw as [Hw _]. by eapply Forall_forall in Hw. }
  split; [done|]. destruct (K N) as (_ & _ & Ef).
  change (icy_audio (atoi m) []) with (@nil ascii) in Ef. cbn [app] in Ef.
  exists (a ++ drop (Z.to_nat (w_pos w)) (b_data b)).
  by rewrite app_assoc, <- Ef, <- Ea, Ha, <- app_assoc, take_drop.
Qed.

(** ** Leaving a buffer too early *)

(** A listener that has been sent a part of a block longer than the next
    buffer's, and has got its buffer whole, is taken to the next buffer: the
    write that follows reads behind the end of that buffer's block. *)
Theorem mp3_stale_offset b m w :
  b_associated b = Some m -> mc_in_metadata (w_mp3 w) = true ->
  same_meta (Some m) (mc_associated (w_mp3 w)) = false ->
  lenZ (m_data m) < mc_metadata_offset (w_mp3 w) < 2 ^ 31 ->
  format_mp3_write_buf_to_client b w = None.
Proof.
  intros Ha Hi Hs Ho. unfold format_mp3_write_buf_to_client, send_stream_metadata, metadata_to_send.
  rewrite Hi, Ha, Hs. set (k := mc_metadata_offset (w_mp3 w)) in *. pose proof (lenZ_nonneg (m_data m)).
  rewrite i32_id by lia. unfold client_send_bytes.
  assert (u32 (lenZ (m_data m) - k) = lenZ (m_data m) - k + 2 ^ 32) as ->.
  { unfold wrap. rewrite <- (Z_mod_plus_full _ 1), Z.mod_small; lia. }
  by replace ((0 <=? k) && _) with false by lia.
Qed.

Definition stale_long : metabuf := Meta 1 (chr 2 :: txt "StreamTitle='a rather long one';" ++ zeros 0).
Definition stale_short : metabuf := Meta 2 blank_metadata.
Definition stale_writer : writer :=
  Writer (Mp3Client 2 20 2 true None) 0 [100] (txt "ab" ++ take 20 (m_data stale_long)).

Lemma stale_reachable :
  exists w, listener 2 [] (Mp3Buf (txt "ab") (Some stale_long)) w /\ w_pos w = 2 /\ w_set_pos 0 w = stale_writer.
Proof.
  eexists. split; [|split].
  - eapply listener_write; [apply (listener_start _ _ [2; 20; 100])|]. vm_compute. reflexivity.
  - reflexivity.
  - reflexivity.
Qed.

Example mp3_stale_offset_witness :
  (same_meta (Some stale_short) (mc_associated (w_mp3 stale_writer)) = false /\
   lenZ (m_data stale_short) < mc_metadata_offset (w_mp3 stale_writer) < 2 ^ 31) /\
  format_mp3_write_buf_to_client (Mp3Buf (txt "cd") (Some stale_short)) stale_writer = None.
Proof.
  split; [split; [reflexivity|split; reflexivity]|].
  apply (mp3_stale_offset _ stale_short); [reflexivity|reflexivity|reflexivity|split; reflexivity].
Defined.
