(* ===== verification/FormatMp3Headers.v ===== *)
(** The headers [format_mp3_create_client_data] appends: what a listener gets
    when they fit its buffer, and what happens when they do not; then
    concrete runs of the plugin. *)

From S2P Require Import Prelude FormatMp3 FormatMp3Facts FormatMp3Write.
Local Open Scope Z_scope.

Definition total (texts : list bytes) : Z := lenZ (concat texts).

Lemma total_cons t r : total (t :: r) = lenZ t + total r.
Proof. apply lenZ_app. Qed.

Lemma put_texts_fits texts h buf :
  lenZ buf = CLIENT_BUFFER -> take (Z.to_nat (lenZ h)) buf = h -> lenZ h + total texts < CLIENT_BUFFER ->
  exists buf', put_texts texts buf (lenZ h) (CLIENT_BUFFER - lenZ h) =
      Some (buf', CLIENT_BUFFER - (lenZ h + total texts)) /\ lenZ buf' = CLIENT_BUFFER /\
    take (Z.to_nat (lenZ h + total texts)) buf' = h ++ concat texts.
Proof.
  unfold CLIENT_BUFFER. revert h buf. induction texts as [|t r IH]; intros h buf Hb Hh Ht.
  { exists buf. unfold total. cbn [concat]. change (lenZ []) with 0. rewrite app_nil_r, Z.add_0_r. done. }
  rewrite total_cons in *. pose proof (lenZ_nonneg h). pose proof (lenZ_nonneg t). pose proof (lenZ_nonneg (concat r)).
  fold (total r) in *. cbn [put_texts]. replace (4096 - lenZ h =? 0) with false by lia.
  unfold snprintf_at. rewrite firstn_all2 by (unfold lenZ in *; lia). unfold memcpy.
  assert (lenZ (t ++ [NUL]) = lenZ t + 1) as E1 by by rewrite lenZ_app.
  replace ((0 <=? lenZ h) && _) with true by lia. run_bind. rewrite Hh.
  set (buf1 := h ++ (t ++ [NUL]) ++ _). rewrite u32_id by lia.
  destruct (IH (h ++ t) buf1) as (buf' & E & Hb' & Ht').
  - unfold buf1. rewrite lenZ_app, lenZ_app, E1. unfold lenZ in *. rewrite length_drop, length_app. cbn. lia.
  - unfold buf1. rewrite <- !app_assoc. unfold lenZ. rewrite Nat2Z.id, app_assoc. by rewrite take_app_length.
  - rewrite lenZ_app. lia.
  - rewrite lenZ_app in *. exists buf'. replace (4096 - lenZ h - lenZ t) with (4096 - (lenZ h + lenZ t)) by lia.
    rewrite E. split; [do 2 f_equal; lia|]. split; [done|]. rewrite Z.add_assoc, Ht'. cbn [concat]. by rewrite app_assoc.
Qed.

Lemma snprintf_at_len buf off size t b : snprintf_at buf off size t = Some b -> lenZ b = lenZ buf.
Proof. apply memcpy_len. Qed.

(** Behind the end of the buffer nothing can be written. *)
Lemma put_texts_behind texts buf ptr :
  lenZ buf = CLIENT_BUFFER -> texts <> [] -> CLIENT_BUFFER < ptr < 2 ^ 31 ->
  put_texts texts buf ptr (u32 (CLIENT_BUFFER - ptr)) = None.
Proof.
  unfold CLIENT_BUFFER. intros Hb N Hp. destruct texts as [|t r]; [done|]. cbn [put_texts].
  assert (u32 (4096 - ptr) = 4096 - ptr + 2 ^ 32) as ->.
  { unfold wrap. rewrite <- (Z_mod_plus_full _ 1), Z.mod_small; lia. }
  replace (_ =? 0) with false by lia. unfold snprintf_at, memcpy. rewrite Hb.
  set (t' := take _ _ ++ _). pose proof (lenZ_nonneg t').
  by replace ((0 <=? ptr) && _) with false by lia.
Qed.

Lemma put_texts_overrun texts last buf ptr :
  lenZ buf = CLIENT_BUFFER -> 0 <= ptr <= CLIENT_BUFFER -> CLIENT_BUFFER < ptr + total texts < 2 ^ 31 ->
  put_texts (texts ++ [last]) buf ptr (CLIENT_BUFFER - ptr) = None.
Proof.
  revert buf ptr. induction texts as [|t r IH]; intros buf ptr Hb Hp Ht.
  { unfold total in Ht. cbn [concat] in Ht. change (lenZ []) with 0 in Ht. lia. }
  rewrite total_cons in Ht. pose proof (lenZ_nonneg t). pose proof (lenZ_nonneg (concat r)). fold (total r) in *.
  cbn [app put_texts]. destruct (if _ =? 0 then _ else _) as [b|] eqn:E; [|done]. run_bind.
  assert (lenZ b = CLIENT_BUFFER) as Hb1.
  { destruct (CLIENT_BUFFER - ptr =? 0); [by injection E as <-|]. by rewrite (snprintf_at_len _ _ _ _ _ E). }
  unfold CLIENT_BUFFER in *. destruct (Z.le_gt_cases (ptr + lenZ t) 4096).
  - rewrite u32_id by lia. replace (4096 - ptr - lenZ t) with (4096 - (ptr + lenZ t)) by lia.
    apply IH; done || lia.
  - replace (4096 - ptr - lenZ t) with (4096 - (ptr + lenZ t)) by lia.
    apply put_texts_behind; [done|by destruct r|unfold CLIENT_BUFFER; lia].
Qed.

(** What is appended for a listener: with room to spare its buffer ends with
    the headers it had, the extra ones and an empty line.  When the extra
    headers alone reach beyond the buffer, the end of the headers is written
    outside of it. *)
Theorem mp3_client_headers flash icy_metadata s h buf :
  let interval := client_interval icy_metadata s in
  let extra := mp3_extra_headers flash interval in
  lenZ buf = CLIENT_BUFFER -> take (Z.to_nat (lenZ h)) buf = h -> lenZ h + 2 <= CLIENT_BUFFER ->
  st_interval s < 2 ^ 31 ->
  let result := format_mp3_create_client_data flash icy_metadata s buf (lenZ h + 2) in
  (lenZ h + total extra + 2 < CLIENT_BUFFER ->
   exists buf', result = Some (Mp3Client interval 0 0 false None, buf', lenZ h + total extra + 2) /\
     take (Z.to_nat (lenZ h + total extra + 2)) buf' = h ++ concat extra ++ [chr 13; chr 10]) /\
  (CLIENT_BUFFER < lenZ h + total extra < 2 ^ 31 -> result = None).
Proof.
  intros interval extra Hb Hh Hl Hs result. pose proof (lenZ_nonneg h). unfold result, format_mp3_create_client_data.
  fold interval. fold extra.
  replace (CLIENT_BUFFER - (lenZ h + 2) + 2) with (CLIENT_BUFFER - lenZ h) by lia.
  replace (lenZ h + 2 - 2) with (lenZ h) by lia. rewrite u32_id by (unfold CLIENT_BUFFER in *; lia). split.
  - intros Ht. assert (total (extra ++ [[chr 13; chr 10]]) = total extra + 2) as E.
    { unfold total. rewrite concat_app, lenZ_app. done. }
    destruct (put_texts_fits (extra ++ [[chr 13; chr 10]]) h buf Hb Hh) as (buf' & -> & Hb' & Ht'); [lia|].
    run_bind. rewrite E in *. exists buf'.
    assert (0 <= total extra) by apply lenZ_nonneg.
    replace (CLIENT_BUFFER - (CLIENT_BUFFER - (lenZ h + (total extra + 2)))) with (lenZ h + total extra + 2) by lia.
    rewrite u32_id by (unfold CLIENT_BUFFER in *; lia). split; [done|].
    rewrite <- Z.add_assoc, Ht', concat_app. cbn [concat]. by rewrite app_nil_r.
  - intros Ht. rewrite put_texts_overrun; [done|done|lia|done].
Qed.

(** ** Concrete runs *)

Definition demo_state : mp3_state := fst (format_mp3_get_plugin None).
Definition demo_headers (n : nat) : bytes := txt "HTTP/1.0 200 OK" ++ replicate n "x"%char.
Definition demo_buffer (n : nat) : bytes := demo_headers n ++ zeros (CLIENT_BUFFER - lenZ (demo_headers n)).

Example mp3_client_headers_witness :
  (lenZ (demo_buffer 5) = CLIENT_BUFFER /\ lenZ (demo_buffer 4070) = CLIENT_BUFFER) /\
  (exists buf', format_mp3_create_client_data false (Some "1"%string) demo_state (demo_buffer 5) 22 =
      Some (Mp3Client 16000 0 0 false None, buf', 41) /\
    take 41 buf' = demo_headers 5 ++ txt "icy-metaint:16000" ++ [chr 13; chr 10; chr 13; chr 10]) /\
  format_mp3_create_client_data false (Some "1"%string) demo_state (demo_buffer 4070) 4087 = None.
Proof.
  split; [split; vm_compute; reflexivity|]. split.
  - apply (mp3_client_headers false (Some "1"%string) demo_state (demo_headers 5) (demo_buffer 5));
      vm_compute; first [reflexivity | discriminate].
  - apply (mp3_client_headers false (Some "1"%string) demo_state (demo_headers 4070) (demo_buffer 4070));
      vm_compute; first [reflexivity | discriminate | split; reflexivity].
Defined.

Example mp3_title_block_witness :
  (title_len (Some (txt "Artist")) (Some (txt "Song")) (Some (txt "http://x/")) None <= MAX_META_LEN) /\
  exists e s', mp3_set_title (Some (txt "Artist")) (Some (txt "Song")) (Some (txt "http://x/")) demo_state = Some (e, s') /\
    block_ok (m_data (st_metadata s')) /\
    meta_text (st_metadata s') = txt "StreamTitle='Artist - Song';StreamUrl='http://x/';".
Proof.
  split; [vm_compute; discriminate|].
  apply (mp3_title_block (Some (txt "Artist")) (Some (txt "Song")) (Some (txt "http://x/")) demo_state).
  - vm_compute. reflexivity.
  - intros x [[= <-]|[[= <-]|[= <-]]]; [apply (txt_nul_free "Artist"%string)|apply (txt_nul_free "Song"%string)|
      apply (txt_nul_free "http://x/"%string)]; reflexivity.
  - reflexivity.
  - vm_compute. discriminate.
Defined.

(** A source that sends a block of metadata after every four bytes. *)
Definition demo_stream : bytes :=
  concat (replicate 400 (txt "abcd" ++ [NUL])) ++ txt "abcd" ++ chr 2 :: txt "StreamTitle='one two three four'" ++ txt "efgh".


(** A listener with an interval of four bytes, two buffers and a connection
    that takes little at a time. *)
Definition demo_buf1 : mp3_buf := Mp3Buf (txt "abcdef") (Some (Meta 1 (chr 1 :: txt "StreamTitle='x';"))).
Definition demo_buf2 : mp3_buf := Mp3Buf (txt "ghijkl") (Some (Meta 1 (chr 1 :: txt "StreamTitle='x';"))).

Definition demo_writer : writer :=
  match format_mp3_write_buf_to_client demo_buf1 (Writer (Mp3Client 4 0 0 false None) 0 [3; 1; 100; 9; 100; 100; 2] []) with
  | Some (_, w) =>
      match format_mp3_write_buf_to_client demo_buf1 w with
      | Some (_, w) =>
          match format_mp3_write_buf_to_client demo_buf1 w with Some (_, w) => w | None => w end
      | None => w
      end
  | None => Writer (Mp3Client 4 0 0 false None) 0 [] []
  end.

Lemma demo_listener : listener 4 [demo_buf1] demo_buf2 (w_set_pos 0 demo_writer).
Proof.
  apply (listener_next 4 [] demo_buf1).
  - unfold demo_writer.
    destruct (format_mp3_write_buf_to_client demo_buf1 (Writer _ _ _ _)) as [[r1 w1]|] eqn:E1; [|by vm_compute in E1].
    assert (listener 4 [] demo_buf1 w1) as L1 by (eapply listener_write; [constructor|exact E1]).
    destruct (format_mp3_write_buf_to_client demo_buf1 w1) as [[r2 w2]|] eqn:E2; [|done].
    assert (listener 4 [] demo_buf1 w2) as L2 by (eapply listener_write; [exact L1|exact E2]).
    destruct (format_mp3_write_buf_to_client demo_buf1 w2) as [[r3 w3]|] eqn:E3; [|done].
    by eapply listener_write.
  - vm_compute. reflexivity.
  - intros _. vm_compute. reflexivity.
Qed.

Lemma demo_buf_ok (P : bytes -> Prop) b :
  P (chr 1 :: txt "StreamTitle='x';") -> b = demo_buf1 \/ b = demo_buf2 -> buf_ok P b.
Proof.
  intros HP [-> | ->]; (split; [vm_compute; reflexivity|]); intros m [= <-]; (split; [|exact HP]);
    exists (chr 1), (txt "StreamTitle='x';"); split; vm_compute; reflexivity.
Qed.

Lemma demo_block_ok : block_ok (chr 1 :: txt "StreamTitle='x';").
Proof. eexists _, _. split; [reflexivity|]. vm_compute. reflexivity. Qed.

Lemma demo_block_good : ~ bad_block (chr 1 :: txt "StreamTitle='x';").
Proof. intros [_ H]. vm_compute in H. discriminate. Qed.


Example mp3_relay_witness :
  (comments_ok (None, None, None) /\ 0 < atoi "4" /\ atoi "4" = 4) /\
  exists outs rest s,
    feed (None, None, None) [(false, 7%nat); (false, 20%nat)] (w_sent (w_set_pos 0 demo_writer))
      (fst (format_mp3_get_plugin (Some "4"%string))) = Some (outs, rest, s) /\
    (Mp3Stop ∉ outs) /\
    concat (outcome_audio <$> outs) `prefix_of` concat (b_data <$> [demo_buf1]) ++ b_data demo_buf2.
Proof.
  split; [by split_and!|].
  apply (mp3_relay 4 "4"%string [demo_buf1] demo_buf2 (w_set_pos 0 demo_writer)).
  - intros b I. apply (demo_buf_ok _ b demo_block_good). left. by apply list_elem_of_singleton in I.
  - apply (demo_buf_ok _ demo_buf2 demo_block_good). by right.
  - exact demo_listener.
  - reflexivity.
  - reflexivity.
  - reflexivity.
Defined.
