(* ===== verification/Ebml.v ===== *)
(** The WebM format plugin, [format_ebml.c]: the parser that takes the stream
    apart into a header and chunks that a listener can start with, and the
    reading of a source through it.

    The arrays of the parser are the bytes they hold; the room they have is
    checked where the code checks it. *)

From S2P Require Import Prelude.
Local Open Scope Z_scope.

Abbreviation bytes := (list ascii).

Definition EBML_HEADER_MAX_SIZE : Z := 131072.
Definition EBML_SLICE_SIZE : Z := 4096.
Definition EBML_UNKNOWN : Z := 2 ^ 64 - 1.

Definition byte_list (l : list Z) : bytes := map chr l.
Definition SEGMENT_MAGIC : bytes := byte_list [24; 83; 128; 103].
Definition CLUSTER_MAGIC : bytes := byte_list [31; 67; 182; 117].
Definition TRACKS_MAGIC : bytes := byte_list [22; 84; 174; 107].
Definition TRACK_ENTRY_MAGIC : bytes := byte_list [174].
Definition TRACK_NUMBER_MAGIC : bytes := byte_list [215].
Definition TRACK_TYPE_MAGIC : bytes := byte_list [131].
Definition SIMPLE_BLOCK_MAGIC : bytes := byte_list [163].
Definition UNCOMMON_MAGIC_LEN : Z := 4.
Definition COMMON_MAGIC_LEN : Z := 1.

Inductive read_mode := EBML_STATE_READING_HEADER | EBML_STATE_READING_CLUSTERS.
Inductive parsing_state :=
| EBML_STATE_PARSING_HEADER
| EBML_STATE_COPYING_TO_HEADER
| EBML_STATE_START_CLUSTER
| EBML_STATE_PARSING_CLUSTERS
| EBML_STATE_COPYING_TO_DATA.
Inductive chunk_type := EBML_CHUNK_HEADER | EBML_CHUNK_CLUSTER_START | EBML_CHUNK_CLUSTER_CONTINUE.
Inductive keyframe_status := EBML_KEYFRAME_UNKNOWN | EBML_KEYFRAME_DOES_NOT_START_CLUSTER | EBML_KEYFRAME_STARTS_CLUSTER.

#[export] Instance read_mode_eq_dec : EqDecision read_mode. Proof. solve_decision. Defined.
#[export] Instance parsing_state_eq_dec : EqDecision parsing_state. Proof. solve_decision. Defined.
#[export] Instance chunk_type_eq_dec : EqDecision chunk_type. Proof. solve_decision. Defined.
#[export] Instance keyframe_status_eq_dec : EqDecision keyframe_status. Proof. solve_decision. Defined.

(** [ebml_t]. *)
Record ebml := Ebml {
  e_output_state : read_mode;
  e_parse_state : parsing_state;
  e_copy_len : Z;
  e_cluster_start : Z;
  e_cluster_starts_with_keyframe : keyframe_status;
  e_flush_cluster : bool;
  e_buffer : bytes;   (** the [position] bytes it holds *)
  e_input_buffer : bytes;   (** the [input_position] bytes it holds *)
  e_header_size : Z;
  e_header_read_position : Z;
  e_header : bytes;   (** the [header_position] bytes it holds *)
  e_keyframe_track_number : Z;
  e_parsing_track_number : Z;
  e_parsing_track_is_video : bool
}.

Definition set_output_state (v : read_mode) (e : ebml) : ebml :=
  Ebml v (e_parse_state e) (e_copy_len e) (e_cluster_start e) (e_cluster_starts_with_keyframe e) (e_flush_cluster e)
    (e_buffer e) (e_input_buffer e) (e_header_size e) (e_header_read_position e) (e_header e) (e_keyframe_track_number
    e) (e_parsing_track_number e) (e_parsing_track_is_video e).
Definition set_parse_state (v : parsing_state) (e : ebml) : ebml :=
  Ebml (e_output_state e) v (e_copy_len e) (e_cluster_start e) (e_cluster_starts_with_keyframe e) (e_flush_cluster e)
    (e_buffer e) (e_input_buffer e) (e_header_size e) (e_header_read_position e) (e_header e) (e_keyframe_track_number
    e) (e_parsing_track_number e) (e_parsing_track_is_video e).
Definition set_copy_len (v : Z) (e : ebml) : ebml :=
  Ebml (e_output_state e) (e_parse_state e) v (e_cluster_start e) (e_cluster_starts_with_keyframe e) (e_flush_cluster
    e) (e_buffer e) (e_input_buffer e) (e_header_size e) (e_header_read_position e) (e_header e)
    (e_keyframe_track_number e) (e_parsing_track_number e) (e_parsing_track_is_video e).
Definition set_cluster_start (v : Z) (e : ebml) : ebml :=
  Ebml (e_output_state e) (e_parse_state e) (e_copy_len e) v (e_cluster_starts_with_keyframe e) (e_flush_cluster e)
    (e_buffer e) (e_input_buffer e) (e_header_size e) (e_header_read_position e) (e_header e) (e_keyframe_track_number
    e) (e_parsing_track_number e) (e_parsing_track_is_video e).
Definition set_cluster_starts_with_keyframe (v : keyframe_status) (e : ebml) : ebml :=
  Ebml (e_output_state e) (e_parse_state e) (e_copy_len e) (e_cluster_start e) v (e_flush_cluster e) (e_buffer e)
    (e_input_buffer e) (e_header_size e) (e_header_read_position e) (e_header e) (e_keyframe_track_number e)
    (e_parsing_track_number e) (e_parsing_track_is_video e).
Definition set_flush_cluster (v : bool) (e : ebml) : ebml :=
  Ebml (e_output_state e) (e_parse_state e) (e_copy_len e) (e_cluster_start e) (e_cluster_starts_with_keyframe e) v
    (e_buffer e) (e_input_buffer e) (e_header_size e) (e_header_read_position e) (e_header e) (e_keyframe_track_number
    e) (e_parsing_track_number e) (e_parsing_track_is_video e).
Definition set_buffer (v : bytes) (e : ebml) : ebml :=
  Ebml (e_output_state e) (e_parse_state e) (e_copy_len e) (e_cluster_start e) (e_cluster_starts_with_keyframe e)
    (e_flush_cluster e) v (e_input_buffer e) (e_header_size e) (e_header_read_position e) (e_header e)
    (e_keyframe_track_number e) (e_parsing_track_number e) (e_parsing_track_is_video e).
Definition set_input_buffer (v : bytes) (e : ebml) : ebml :=
  Ebml (e_output_state e) (e_parse_state e) (e_copy_len e) (e_cluster_start e) (e_cluster_starts_with_keyframe e)
    (e_flush_cluster e) (e_buffer e) v (e_header_size e) (e_header_read_position e) (e_header e)
    (e_keyframe_track_number e) (e_parsing_track_number e) (e_parsing_track_is_video e).
Definition set_header_size (v : Z) (e : ebml) : ebml :=
  Ebml (e_output_state e) (e_parse_state e) (e_copy_len e) (e_cluster_start e) (e_cluster_starts_with_keyframe e)
    (e_flush_cluster e) (e_buffer e) (e_input_buffer e) v (e_header_read_position e) (e_header e)
    (e_keyframe_track_number e) (e_parsing_track_number e) (e_parsing_track_is_video e).
Definition set_header_read_position (v : Z) (e : ebml) : ebml :=
  Ebml (e_output_state e) (e_parse_state e) (e_copy_len e) (e_cluster_start e) (e_cluster_starts_with_keyframe e)
    (e_flush_cluster e) (e_buffer e) (e_input_buffer e) (e_header_size e) v (e_header e) (e_keyframe_track_number e)
    (e_parsing_track_number e) (e_parsing_track_is_video e).
Definition set_header (v : bytes) (e : ebml) : ebml :=
  Ebml (e_output_state e) (e_parse_state e) (e_copy_len e) (e_cluster_start e) (e_cluster_starts_with_keyframe e)
    (e_flush_cluster e) (e_buffer e) (e_input_buffer e) (e_header_size e) (e_header_read_position e) v
    (e_keyframe_track_number e) (e_parsing_track_number e) (e_parsing_track_is_video e).
Definition set_keyframe_track_number (v : Z) (e : ebml) : ebml :=
  Ebml (e_output_state e) (e_parse_state e) (e_copy_len e) (e_cluster_start e) (e_cluster_starts_with_keyframe e)
    (e_flush_cluster e) (e_buffer e) (e_input_buffer e) (e_header_size e) (e_header_read_position e) (e_header e) v
    (e_parsing_track_number e) (e_parsing_track_is_video e).
Definition set_parsing_track_number (v : Z) (e : ebml) : ebml :=
  Ebml (e_output_state e) (e_parse_state e) (e_copy_len e) (e_cluster_start e) (e_cluster_starts_with_keyframe e)
    (e_flush_cluster e) (e_buffer e) (e_input_buffer e) (e_header_size e) (e_header_read_position e) (e_header e)
    (e_keyframe_track_number e) v (e_parsing_track_is_video e).
Definition set_parsing_track_is_video (v : bool) (e : ebml) : ebml :=
  Ebml (e_output_state e) (e_parse_state e) (e_copy_len e) (e_cluster_start e) (e_cluster_starts_with_keyframe e)
    (e_flush_cluster e) (e_buffer e) (e_input_buffer e) (e_header_size e) (e_header_read_position e) (e_header e)
    (e_keyframe_track_number e) (e_parsing_track_number e) v.

Definition ebml_create : ebml :=
  Ebml EBML_STATE_READING_HEADER EBML_STATE_PARSING_HEADER 0 (-1) EBML_KEYFRAME_UNKNOWN false [] [] 0 0 []
    EBML_UNKNOWN EBML_UNKNOWN false.

Definition lenZ (l : bytes) : Z := Z.of_nat (length l).

(** [memcmp (l, magic, length magic) == 0], where [l] has as many bytes. *)
Fixpoint has_magic (magic l : bytes) : bool :=
  match magic, l with
  | [], _ => true
  | a :: m, b :: r => Ascii.eqb a b && has_magic m r
  | _, [] => false
  end.

(** ** Numbers and tags *)

(** What the readers of numbers return: not enough bytes (0), malformed (-1),
    or the length of the number and its value. *)
Inductive parsed := Wait | Corrupt | Parsed (len value : Z).

(** The search for the length marker: the length, the value without the
    marker, and the value of this length that means "unknown". *)
Fixpoint find_marker (n : nat) (size mask value : Z) : option (Z * Z * Z) :=
  match n with
  | O => None
  | S n' =>
      if mask =? 0 then None
      else if negb (Z.land value mask =? 0) then Some (size, Z.land value (Z.lnot mask), mask - 1)
      else find_marker n' (size + 1) (Z.shiftr mask 1) value
  end.

Definition ebml_parse_var_int (l : bytes) : parsed :=
  match l with
  | [] => Wait
  | b :: r =>
      match find_marker 9 1 128 (code b) with
      | None => Corrupt
      | Some (size, value, unknown_marker) =>
          if lenZ l <? size then Wait
          else
            let tail := take (Z.to_nat (size - 1)) r in
            let value := foldl (fun v c => u64 (Z.shiftl v 8 + code c)) value tail in
            let unknown_marker := foldl (fun v _ => u64 (Z.shiftl v 8 + 255)) unknown_marker tail in
            Parsed size (if value =? unknown_marker then EBML_UNKNOWN else value)
      end
  end.

(** The length of the tag and that of its payload. *)
Definition ebml_parse_tag (l : bytes) : parsed :=
  match ebml_parse_var_int l with
  | Parsed type_length _ =>
      match ebml_parse_var_int (drop (Z.to_nat type_length) l) with
      | Parsed size_length payload_length => Parsed (type_length + size_length) payload_length
      | r => r
      end
  | r => r
  end.

Definition ebml_parse_sized_int (l : bytes) (len : Z) (is_signed : bool) : parsed :=
  if (len <? 1) || (8 <? len) then Corrupt
  else if lenZ l <=? len then Wait
  else
    let value := match l with
                 | b :: _ => if is_signed && (scode b <? 0) then EBML_UNKNOWN else 0
                 | [] => 0
                 end in
    Parsed len (foldl (fun v c => u64 (u64 (Z.shiftl v 8) + code c)) value (take (Z.to_nat len) l)).

(** ** Parsing *)

Definition ebml_check_track (e : ebml) : ebml :=
  if (e_keyframe_track_number e =? EBML_UNKNOWN) && e_parsing_track_is_video e && negb (e_parsing_track_number e =? EBML_UNKNOWN)
  then set_keyframe_track_number (e_parsing_track_number e) e
  else e.

(** What is learned from an element: more bytes are needed, it is malformed,
    or the state afterwards and the number of its bytes to pass over. *)
Inductive probed := Waits | Fails | Probed (e : ebml) (payload : Z).

(** A block: the flag of the first one of the video track in a cluster. *)
Definition probe_block (l : bytes) (tag_length payload : Z) (e : ebml) : probed :=
  if decide (e_cluster_starts_with_keyframe e = EBML_KEYFRAME_UNKNOWN) then
    match ebml_parse_var_int (drop (Z.to_nat tag_length) l) with
    | Wait => Waits
    | Corrupt => Fails
    | Parsed track_number_length track_number =>
        if track_number =? e_keyframe_track_number e then
          match l !! Z.to_nat (tag_length + track_number_length + 2) with
          | None => Waits
          | Some flags =>
              Probed (set_cluster_starts_with_keyframe
                        (if negb (Z.land (code flags) 128 =? 0) then EBML_KEYFRAME_STARTS_CLUSTER
                         else EBML_KEYFRAME_DOES_NOT_START_CLUSTER) e) payload
          end
        else Probed e payload
    end
  else Probed e payload.

Definition probe_number (l : bytes) (tag_length payload : Z) (e : ebml) : probed :=
  match ebml_parse_sized_int (drop (Z.to_nat tag_length) l) payload false with
  | Wait => Waits
  | Corrupt => Fails
  | Parsed _ v => Probed (ebml_check_track (set_parsing_track_number v e)) payload
  end.

Definition probe_type (l : bytes) (tag_length payload : Z) (e : ebml) : probed :=
  match ebml_parse_sized_int (drop (Z.to_nat tag_length) l) payload false with
  | Wait => Waits
  | Corrupt => Fails
  | Parsed _ v =>
      Probed (if negb (Z.land v 1 =? 0) then ebml_check_track (set_parsing_track_is_video true e) else e) payload
  end.

Definition probe (l : bytes) (tag_length payload : Z) (e : ebml) : probed :=
  if tag_length <=? COMMON_MAGIC_LEN then Probed e payload
  else if has_magic SIMPLE_BLOCK_MAGIC l then probe_block l tag_length payload e
  else if has_magic TRACK_ENTRY_MAGIC l then
    Probed (set_parsing_track_is_video false (set_parsing_track_number EBML_UNKNOWN e)) 0
  else if has_magic TRACK_NUMBER_MAGIC l then probe_number l tag_length payload e
  else if has_magic TRACK_TYPE_MAGIC l then probe_type l tag_length payload e
  else Probed e payload.

(** An iteration of the loop of [ebml_wrote], at a place of the input: it goes
    on from a place, stops there, or fails. *)
Inductive step_end := Go (e : ebml) (cursor : nat) | Stop (e : ebml) (cursor : nat) | Fail (e : ebml).

Definition uncommon (magic l : bytes) (tag_length : Z) : bool := (UNCOMMON_MAGIC_LEN <? tag_length) && has_magic magic l.

Definition parse_element (copy_state : parsing_state) (e : ebml) (cursor : nat) : step_end :=
  let l := drop cursor (e_input_buffer e) in
  match ebml_parse_tag l with
  | Wait => Stop e cursor
  | Corrupt => Fail e
  | Parsed tag_length payload_length =>
      let payload := if payload_length =? EBML_UNKNOWN then 0 else payload_length in
      if uncommon CLUSTER_MAGIC l tag_length then Go (set_parse_state EBML_STATE_START_CLUSTER e) cursor
      else
        let payload := if uncommon SEGMENT_MAGIC l tag_length || uncommon TRACKS_MAGIC l tag_length then 0 else payload in
        match probe l tag_length payload e with
        | Waits => Stop e cursor
        | Fails => Fail e
        | Probed e payload => Go (set_parse_state copy_state (set_copy_len (u64 (tag_length + payload)) e)) cursor
        end
  end.

Definition start_cluster (e : ebml) (cursor : nat) : step_end :=
  if 0 <=? e_cluster_start e then Stop (set_flush_cluster true e) cursor
  else
    let tag_length := match ebml_parse_tag (drop cursor (e_input_buffer e)) with Wait => 0 | Corrupt => -1 | Parsed n _ => n end in
    let e := set_header_size (lenZ (e_header e)) e in
    let e := set_cluster_starts_with_keyframe EBML_KEYFRAME_UNKNOWN (set_cluster_start (lenZ (e_buffer e)) e) in
    let e := set_flush_cluster false e in
    Go (set_parse_state EBML_STATE_COPYING_TO_DATA (set_copy_len (u64 tag_length) e)) cursor.

(** The end of copying some bytes. *)
Definition copied (parsing : parsing_state) (e : ebml) (cursor to_copy : nat) : step_end :=
  let e := set_copy_len (e_copy_len e - Z.of_nat to_copy) e in
  if e_copy_len e =? 0 then Go (set_parse_state parsing e) (cursor + to_copy) else Stop e (cursor + to_copy).

Definition copy_to_header (e : ebml) (cursor : nat) : step_end :=
  let l := drop cursor (e_input_buffer e) in
  let to_copy := Z.min (lenZ l) (e_copy_len e) in
  if EBML_HEADER_MAX_SIZE <? lenZ (e_header e) + to_copy then Fail e
  else
    let n := Z.to_nat to_copy in
    copied EBML_STATE_PARSING_HEADER (set_header (e_header e ++ take n l) e) cursor n.

Definition copy_to_data (e : ebml) (cursor : nat) : step_end :=
  let l := drop cursor (e_input_buffer e) in
  let to_copy := Z.min (lenZ l) (e_copy_len e) in
  let to_copy := if EBML_SLICE_SIZE <? lenZ (e_buffer e) + to_copy then EBML_SLICE_SIZE - lenZ (e_buffer e) else to_copy in
  let n := Z.to_nat to_copy in
  copied EBML_STATE_PARSING_CLUSTERS (set_buffer (e_buffer e ++ take n l) e) cursor n.

Definition ebml_step (e : ebml) (cursor : nat) : step_end :=
  match e_parse_state e with
  | EBML_STATE_PARSING_HEADER => parse_element EBML_STATE_COPYING_TO_HEADER e cursor
  | EBML_STATE_PARSING_CLUSTERS => parse_element EBML_STATE_COPYING_TO_DATA e cursor
  | EBML_STATE_START_CLUSTER => start_cluster e cursor
  | EBML_STATE_COPYING_TO_HEADER => copy_to_header e cursor
  | EBML_STATE_COPYING_TO_DATA => copy_to_data e cursor
  end.

(** The loop: what [ebml_wrote] returns, and the state; [None] where the fuel
    does not suffice. *)
Fixpoint ebml_loop (fuel : nat) (e : ebml) (cursor : nat) (len : Z) : option (Z * ebml) :=
  match fuel with
  | O => None
  | S fuel' =>
      match ebml_step e cursor with
      | Go e cursor => ebml_loop fuel' e cursor len
      | Stop e cursor => Some (len, set_input_buffer (drop cursor (e_input_buffer e)) e)
      | Fail e => Some (-1, e)
      end
  end.

Definition ebml_wrote (e : ebml) (data : bytes) : option (Z * ebml) :=
  let e := set_input_buffer (e_input_buffer e ++ data) e in
  ebml_loop (3 * length (e_input_buffer e) + 3) e 0 (lenZ data).

(** ** Reading *)

(** The room a chunk needs, and the state, in which [flush_cluster] can be
    set. *)
Definition ebml_read_space (e : ebml) : Z * ebml :=
  match e_output_state e with
  | EBML_STATE_READING_HEADER => (e_header_size e, e)
  | EBML_STATE_READING_CLUSTERS =>
      if 0 <? e_cluster_start e then (e_cluster_start e, e)
      else
        let e := if lenZ (e_buffer e) =? EBML_SLICE_SIZE then set_flush_cluster true e else e in
        (if e_flush_cluster e then lenZ (e_buffer e) else 0, e)
  end.

Definition ebml_read (len : Z) (e : ebml) : bytes * chunk_type * ebml :=
  if len <? 1 then ([], EBML_CHUNK_HEADER, e)
  else
    match e_output_state e with
    | EBML_STATE_READING_HEADER =>
        if e_header_size e =? 0 then ([], EBML_CHUNK_HEADER, e)
        else
          let to_read := Z.min len (e_header_size e - e_header_read_position e) in
          let e' := set_header_read_position (e_header_read_position e + to_read) e in
          (take (Z.to_nat to_read) (e_header e), EBML_CHUNK_HEADER,
           if e_header_read_position e' =? e_header_size e' then set_output_state EBML_STATE_READING_CLUSTERS e' else e')
    | EBML_STATE_READING_CLUSTERS =>
        let '(read_space, chunk_type, e) :=
          if e_cluster_start e =? 0 then
            (lenZ (e_buffer e),
             if decide (e_cluster_starts_with_keyframe e = EBML_KEYFRAME_DOES_NOT_START_CLUSTER)
             then EBML_CHUNK_CLUSTER_CONTINUE else EBML_CHUNK_CLUSTER_START,
             set_cluster_start (-1) e)
          else if 0 <? e_cluster_start e then (e_cluster_start e, EBML_CHUNK_CLUSTER_CONTINUE, e)
          else (lenZ (e_buffer e), EBML_CHUNK_CLUSTER_CONTINUE, e) in
        if read_space <? 1 then ([], chunk_type, e)
        else
          let to_read := Z.min len read_space in
          let e' := set_buffer (drop (Z.to_nat to_read) (e_buffer e)) e in
          (take (Z.to_nat to_read) (e_buffer e), chunk_type,
           if 0 <? e_cluster_start e' then set_cluster_start (e_cluster_start e' - to_read) e' else e')
    end.

(** The room of the input buffer. *)
Definition ebml_get_write_buffer (e : ebml) : Z := EBML_SLICE_SIZE - lenZ (e_input_buffer e).

(** ** The source *)

(** A plain connection: what [recv] will give, portion by portion ([None]: not
    yet), and whether it has been found broken or at its end. *)
Record conn := Conn { arriving : list (option bytes); con_error : bool }.

(** [connection_read]; [None] for -1. *)
Definition connection_read (len : Z) (c : conn) : option bytes * conn :=
  if len =? 0 then (Some [], Conn (arriving c) true)
  else
    match arriving c with
    | [] => (Some [], Conn [] true)
    | None :: r => (None, Conn r (con_error c))
    | Some b :: r =>
        let rest := drop (Z.to_nat len) b in
        (Some (take (Z.to_nat len) b),
         Conn (match rest with [] => r | _ => Some rest :: r end) (con_error c || bool_decide (b = [])))
    end.

(** [ebml_source_state_t], and what [ebml_get_buffer] changes of the source. *)
Record ebml_source := EbmlSource {
  s_ebml : ebml;
  s_header : option bytes;
  s_running : bool;
  s_read_bytes : Z
}.

Definition format_ebml_get_plugin : ebml_source := EbmlSource ebml_create None true 0.

(** [ebml_get_buffer]: a buffer, where there is one, and whether it is a sync
    point; the outer [None] where the fuel does not suffice. *)
Fixpoint ebml_get_buffer (fuel : nat) (s : ebml_source) (c : conn) : option (option (bool * bytes) * ebml_source * conn) :=
  match fuel with
  | O => None
  | S fuel' =>
      let '(read_bytes, e) := ebml_read_space (s_ebml s) in
      if 0 <? read_bytes then
        let '(refbuf, chunk_type, e) := ebml_read read_bytes e in
        match s_header s with
        | None => ebml_get_buffer fuel' (EbmlSource e (Some refbuf) (s_running s) (s_read_bytes s)) c
        | Some h =>
            Some (Some (bool_decide (chunk_type = EBML_CHUNK_CLUSTER_START), refbuf),
                  EbmlSource e (Some h) (s_running s) (s_read_bytes s), c)
        end
      else
        let '(data, c) := connection_read (ebml_get_write_buffer e) c in
        match data with
        | None | Some [] =>
            '(_, e) ← ebml_wrote e [];
            Some (None, EbmlSource e (s_header s) (s_running s) (s_read_bytes s), c)
        | Some data =>
            '(ret, e) ← ebml_wrote e data;
            let read_bytes := u64 (s_read_bytes s + lenZ data) in
            if ret =? lenZ data then ebml_get_buffer fuel' (EbmlSource e (s_header s) (s_running s) read_bytes) c
            else Some (None, EbmlSource e (s_header s) false read_bytes, c)
        end
  end.

(** ** Listeners *)

(** [ebml_client_data_t]. *)
Record ebml_client := EbmlClient { ec_header : bytes; ec_header_pos : Z }.

Definition ebml_create_client_data (s : ebml_source) : option ebml_client :=
  h ← s_header s; Some (EbmlClient h 0).

(** [ebml_write_buf_to_client]: the bytes of the header offered and what is
    taken of them by the connection ([-1]: an error), or [None] when the header
    is sent and the generic function takes over. *)
Definition send_ebml_header (take_bytes : bytes -> Z) (d : ebml_client) : Z * ebml_client :=
  let len := Z.min EBML_SLICE_SIZE (lenZ (ec_header d) - ec_header_pos d) in
  let ret := take_bytes (take (Z.to_nat len) (drop (Z.to_nat (ec_header_pos d)) (ec_header d))) in
  (ret, if 0 <? ret then EbmlClient (ec_header d) (ec_header_pos d + ret) else d).

Definition ebml_write_buf_to_client (take_bytes : bytes -> Z) (d : ebml_client) : option (Z * ebml_client) :=
  if ec_header_pos d =? lenZ (ec_header d) then None else Some (send_ebml_header take_bytes d).

(** [ebml_write_buf_to_file], with what [fwrite] manages of each write: the
    bytes in the dump file, [None] once a write has failed, and whether the
    header is written; the outer [None] where [fwrite] gets a null file. *)
Definition ebml_write_buf_to_file (writes_all : bytes -> bool) (header refbuf : bytes) (file : bytes) (headers_written : bool) :
    option (option bytes * bool) :=
  if headers_written then Some (if writes_all refbuf then Some (file ++ refbuf) else None, true)
  else if writes_all header then Some (if writes_all refbuf then Some (file ++ header ++ refbuf) else None, true)
  else None.
