(* ===== verification/EbmlFacts.v ===== *)
(** What the WebM parser promises: its numbers are those of the format, a
    stream passes through it whole and within its buffers, and a chunk a
    listener may start with begins with a cluster; and where the reading of a
    source through it goes wrong. *)

From S2P Require Import Prelude Ebml.
Local Open Scope Z_scope.

(** ** Numbers *)

(** A number in a number of bytes, the most significant first. *)
Fixpoint big_endian (k : nat) (v : Z) : bytes :=
  match k with
  | O => []
  | S k' => big_endian k' (v / 256) ++ [chr v]
  end.

(** The number of [k] bytes that stands for a value: its marker is bit [7 k]. *)
Definition var_int (k : nat) (v : Z) : bytes := big_endian k (2 ^ (7 * Z.of_nat k) + v).

(** The value of some bytes after what the bytes before them say. *)
Definition value_from (v : Z) (l : bytes) : Z := foldl (fun v c => 256 * v + code c) v l.

Lemma length_big_endian k : forall v, length (big_endian k v) = k.
Proof. induction k as [|k IH]; intros v; cbn; [done|]. rewrite length_app, IH. cbn. lia. Qed.

Lemma value_big_endian k : forall v w, 0 <= v < 256 ^ Z.of_nat k ->
  value_from w (big_endian k v) = 256 ^ Z.of_nat k * w + v.
Proof.
  induction k as [|k IH]; intros v w H; [cbn in *; lia|]. cbn [big_endian]. unfold value_from. rewrite foldl_app.
  fold (value_from w (big_endian k (v / 256))).
  assert (256 ^ Z.of_nat (S k) = 256 * 256 ^ Z.of_nat k) as E by (rewrite Nat2Z.inj_succ, Z.pow_succ_r by lia; done).
  rewrite E in *. rewrite IH by (split; [apply Z.div_pos; lia|apply Z.div_lt_upper_bound; lia]).
  cbn [foldl]. rewrite code_chr. unfold wrap. change (2 ^ 8) with 256. pose proof (Z.div_mod v 256). lia.
Qed.

Lemma value_from_nonneg l : forall v, 0 <= v -> 0 <= value_from v l.
Proof. induction l as [|c l IH]; intros v H; cbn; [done|]. apply IH. pose proof (code_range c). lia. Qed.

Lemma value_from_mono l : forall v, 0 <= v -> v <= value_from v l.
Proof.
  induction l as [|c l IH]; intros v H; cbn; [done|]. pose proof (code_range c).
  specialize (IH (256 * v + code c)). unfold value_from in IH. lia.
Qed.

(** The loop over the rest of a number keeps to its width. *)
Lemma var_int_fold l : forall v, 0 <= v -> value_from v l < 2 ^ 64 ->
  foldl (fun v c => u64 (Z.shiftl v 8 + code c)) v l = value_from v l.
Proof.
  induction l as [|c l IH]; intros v H B; [done|]. cbn [foldl]. pose proof (code_range c).
  change (value_from v (c :: l)) with (value_from (256 * v + code c) l) in *.
  pose proof (value_from_mono l (256 * v + code c)). rewrite Z.shiftl_mul_pow2 by lia. change (2 ^ 8) with 256.
  rewrite wrap_small by lia. rewrite (Z.mul_comm v). apply IH; lia.
Qed.

Lemma unknown_fold {A} (l : list A) : forall v, 0 <= v -> (v + 1) * 256 ^ Z.of_nat (length l) <= 2 ^ 64 ->
  foldl (fun v _ => u64 (Z.shiftl v 8 + 255)) v l = (v + 1) * 256 ^ Z.of_nat (length l) - 1.
Proof.
  induction l as [|c l IH]; intros v H B; cbn [foldl length]; [cbn; lia|]. cbn [length] in B.
  rewrite Nat2Z.inj_succ, Z.pow_succ_r in * by lia. rewrite Z.shiftl_mul_pow2 by lia. change (2 ^ 8) with 256.
  assert (1 <= 256 ^ Z.of_nat (length l)) by (apply (Z.pow_le_mono_r 256 0); lia).
  rewrite wrap_small by nia. rewrite IH by nia. lia.
Qed.

Lemma value_from_add l : forall a w, value_from (a + w) l = a * 256 ^ Z.of_nat (length l) + value_from w l.
Proof.
  induction l as [|c l IH]; intros a w; [cbn; lia|]. change (value_from ?v (c :: l)) with (value_from (256 * v + code c) l).
  replace (256 * (a + w) + code c) with (256 * a + (256 * w + code c)) by lia. rewrite IH. cbn [length].
  rewrite Nat2Z.inj_succ, Z.pow_succ_r by lia. lia.
Qed.

Lemma big_endian_cons k : forall v, big_endian (S k) v = chr (v / 256 ^ Z.of_nat k) :: big_endian k v.
Proof.
  induction k as [|k IH]; intros v; [cbn; by rewrite Z.div_1_r|].
  change (big_endian (S (S k)) v) with (big_endian (S k) (v / 256) ++ [chr v]). rewrite IH. cbn [app big_endian].
  rewrite Z.div_div by lia. do 3 f_equal. rewrite Nat2Z.inj_succ, Z.pow_succ_r by lia. done.
Qed.

Lemma chr_mod a b : a mod 256 = b mod 256 -> chr a = chr b.
Proof. intros H. unfold chr, wrap. change (2 ^ 8) with 256. by rewrite H. Qed.

Lemma big_endian_value l : forall w, big_endian (length l) (value_from w l) = l.
Proof.
  induction l as [|c l IH] using rev_ind; intros w; [done|]. rewrite length_app, Nat.add_comm. cbn [Nat.add length big_endian].
  unfold value_from. rewrite foldl_app. fold (value_from w l). cbn [foldl]. pose proof (code_range c).
  rewrite (Z.mul_comm 256), Z.div_add_l, Z.div_small, Z.add_0_r, IH by lia. f_equal. f_equal.
  rewrite <- (chr_code c) at 2. apply chr_mod. rewrite Z.add_comm, Z.mod_add by lia. done.
Qed.

(** The length the first byte of a number announces. *)
Definition announced (c : ascii) : Z := 8 - Z.log2 (code c).

Lemma find_marker_spec c :
  find_marker 9 1 128 (code c) =
  if code c =? 0 then None else Some (announced c, code c - 2 ^ (8 - announced c), 2 ^ (8 - announced c) - 1).
Proof.
  assert (bool_decide (find_marker 9 1 128 (code c) =
    if code c =? 0 then None else Some (announced c, code c - 2 ^ (8 - announced c), 2 ^ (8 - announced c) - 1)) = true) as H
    by (revert c; apply forall_chars; vm_compute; reflexivity).
  by apply bool_decide_eq_true in H.
Qed.

Lemma announced_range c : code c <> 0 -> 1 <= announced c <= 8 /\ 2 ^ (8 - announced c) <= code c < 2 * 2 ^ (8 - announced c).
Proof.
  intros N. pose proof (code_range c). unfold announced. replace (8 - (8 - Z.log2 (code c))) with (Z.log2 (code c)) by lia.
  pose proof (Z.log2_spec (code c)) as [L U]; [lia|]. rewrite Z.pow_succ_r in U by apply Z.log2_nonneg.
  pose proof (Z.log2_nonneg (code c)). assert (Z.log2 (code c) < 8) by (apply Z.log2_lt_pow2; lia). lia.
Qed.

(** Powers of two for the few lengths there are. *)
Ltac eight_cases k := let H := fresh in
  assert (k = 1 \/ k = 2 \/ k = 3 \/ k = 4 \/ k = 5 \/ k = 6 \/ k = 7 \/ k = 8)%Z as H by lia;
  destruct H as [H|[H|[H|[H|[H|[H|[H|H]]]]]]].

Lemma powers k : 1 <= k <= 8 -> 2 ^ (8 - k) * 256 ^ (k - 1) = 2 ^ (7 * k) /\ 2 ^ (7 * k) <= 2 ^ 56.
Proof. intros H. eight_cases k; subst k; cbn; lia. Qed.

Lemma parse_var_int_cons c r :
  code c <> 0 ->
  ebml_parse_var_int (c :: r) =
  let k := announced c in
  let v := value_from (code c - 2 ^ (8 - k)) (take (Z.to_nat (k - 1)) r) in
  if lenZ (c :: r) <? k then Wait else Parsed k (if v =? 2 ^ (7 * k) - 1 then EBML_UNKNOWN else v).
Proof.
  intros N. cbn [ebml_parse_var_int]. rewrite find_marker_spec. destruct (Z.eqb_spec (code c) 0); [done|].
  destruct (announced_range c N) as [Rk Rc]. destruct (powers (announced c) Rk) as [P Q].
  set (k := announced c) in *. cbn zeta. destruct (Z.ltb_spec (lenZ (c :: r)) k) as [|L]; [done|].
  set (t := take (Z.to_nat (k - 1)) r).
  assert (Z.of_nat (length t) = k - 1) as Lt by (unfold t, lenZ in *; rewrite length_take; cbn [length] in L; lia).
  pose proof (value_from_nonneg t (code c - 2 ^ (8 - k)) ltac:(lia)).
  assert (value_from (code c - 2 ^ (8 - k)) t < 2 ^ (7 * k)) as B.
  { assert (value_from 0 t < 256 ^ (k - 1)) as V.
    { clear -Lt. rewrite <- Lt. clear Lt. induction t as [|d t IH] using rev_ind; [cbn; lia|]. unfold value_from in *.
      rewrite foldl_app, length_app, Nat.add_comm. cbn [foldl length Nat.add]. rewrite Nat2Z.inj_succ, Z.pow_succ_r by lia.
      pose proof (code_range d). lia. }
    pose proof (value_from_add t (code c - 2 ^ (8 - k)) 0) as A. rewrite Z.add_0_r, Lt in A. nia. }
  rewrite var_int_fold by lia. rewrite unknown_fold.
  - rewrite Lt. replace (2 ^ (8 - k) - 1 + 1) with (2 ^ (8 - k)) by lia. by rewrite P.
  - lia.
  - rewrite Lt. replace (2 ^ (8 - k) - 1 + 1) with (2 ^ (8 - k)) by lia. rewrite P. lia.
Qed.

Lemma value_from_bound t : value_from 0 t < 256 ^ Z.of_nat (length t).
Proof.
  induction t as [|d t IH] using rev_ind; [cbn; lia|]. unfold value_from in *.
  rewrite foldl_app, length_app, Nat.add_comm. cbn [foldl length Nat.add]. rewrite Nat2Z.inj_succ, Z.pow_succ_r by lia.
  pose proof (code_range d). lia.
Qed.

Lemma big_endian_mod k : forall v, big_endian k v = big_endian k (v mod 256 ^ Z.of_nat k).
Proof.
  induction k as [|k IH]; intros v; [done|]. cbn [big_endian]. rewrite Nat2Z.inj_succ, Z.pow_succ_r by lia.
  rewrite (IH (v / 256)), (IH (_ / 256)). f_equal; [f_equal|].
  - rewrite Z.rem_mul_r by lia. rewrite (Z.mul_comm 256), Z.div_add, (Z.div_small (v mod 256)) by (try apply Z.mod_pos_bound; lia).
    by rewrite Z.add_0_l, Z.mod_mod by lia.
  - f_equal. apply chr_mod. rewrite Z.rem_mul_r by lia. rewrite (Z.mul_comm 256), Z.mod_add, Z.mod_mod by lia. done.
Qed.

(** The bytes with an announced length are a number of this length, *)
Lemma var_int_of c t :
  code c <> 0 -> Z.of_nat (length t) = announced c - 1 ->
  let k := announced c in let v := value_from (code c - 2 ^ (8 - k)) t in
  c :: t = var_int (Z.to_nat k) v /\ 0 <= v < 2 ^ (7 * k) /\ 1 <= k <= 8.
Proof.
  intros N Lt k v. destruct (announced_range c N) as [Rk Rc]. destruct (powers (announced c) Rk) as [P Q]. fold k in Lt, Rk, Rc, P, Q.
  assert (v = (code c - 2 ^ (8 - k)) * 256 ^ (k - 1) + value_from 0 t) as V.
  { pose proof (value_from_add t (code c - 2 ^ (8 - k)) 0) as A. by rewrite Z.add_0_r, Lt in A. }
  pose proof (value_from_bound t) as B. rewrite Lt in B. pose proof (value_from_nonneg t 0 ltac:(lia)).
  split_and!; try lia; [|nia|nia]. unfold var_int. rewrite Z2Nat.id by lia.
  assert (2 ^ (7 * k) + v = value_from 0 (c :: t)) as ->.
  { change (value_from 0 (c :: t)) with (value_from (code c) t). pose proof (value_from_add t (code c) 0) as A.
    rewrite Z.add_0_r, Lt in A. nia. }
  assert (Z.to_nat k = length (c :: t)) as -> by (cbn [length]; lia). by rewrite big_endian_value.
Qed.

(** and each number is such bytes. *)
Lemma var_int_cons k v :
  (1 <= k <= 8)%nat -> 0 <= v < 2 ^ (7 * Z.of_nat k) ->
  exists c t, var_int k v = c :: t /\ code c <> 0 /\ announced c = Z.of_nat k /\ length t = (k - 1)%nat /\
    value_from (code c - 2 ^ (8 - Z.of_nat k)) t = v.
Proof.
  intros Hk Hv. destruct k as [|k]; [lia|]. destruct (powers (Z.of_nat (S k)) ltac:(lia)) as [P Q].
  replace (Z.of_nat (S k) - 1) with (Z.of_nat k) in P by lia.
  set (V := 2 ^ (7 * Z.of_nat (S k)) + v). set (X := V / 256 ^ Z.of_nat k).
  assert (0 < 256 ^ Z.of_nat k) as Pos by (apply Z.pow_pos_nonneg; lia). pose proof (Z.div_mod V (256 ^ Z.of_nat k) ltac:(lia)) as DM.
  pose proof (Z.mod_pos_bound V _ Pos) as MB. fold X in DM.
  assert (2 ^ (8 - Z.of_nat (S k)) <= X < 2 * 2 ^ (8 - Z.of_nat (S k))) as BX by (unfold V in *; nia).
  assert (2 ^ (8 - Z.of_nat (S k)) <= 128) by (apply (Z.pow_le_mono_r 2 _ 7); lia).
  assert (0 < 2 ^ (8 - Z.of_nat (S k))) by (apply Z.pow_pos_nonneg; lia).
  assert (code (chr X) = X) as CX by (rewrite code_chr; apply wrap_small; lia).
  exists (chr X), (big_endian k V). rewrite CX. split_and!.
  - unfold var_int. fold V. apply big_endian_cons.
  - lia.
  - unfold announced. rewrite CX. assert (Z.log2 X = 8 - Z.of_nat (S k)) as ->; [|lia].
    apply Z.log2_unique; [lia|]. rewrite Z.pow_succ_r by lia. done.
  - rewrite length_big_endian. lia.
  - rewrite big_endian_mod, value_big_endian by done. unfold V in *. nia.
Qed.

(** The parser of numbers is exact: it succeeds on the numbers of one to eight
    bytes, whatever follows them, with their value, where a number of ones
    alone is the unknown one; it waits for more bytes on the beginnings of
    numbers; and only a first byte of zero is malformed. *)
Theorem ebml_var_int_spec l :
  match ebml_parse_var_int l with
  | Parsed n w => exists k v rest, (1 <= k <= 8)%nat /\ 0 <= v < 2 ^ (7 * Z.of_nat k) /\ l = var_int k v ++ rest /\
      n = Z.of_nat k /\ w = if v =? 2 ^ (7 * Z.of_nat k) - 1 then EBML_UNKNOWN else v
  | Wait => exists k v more, (1 <= k <= 8)%nat /\ 0 <= v < 2 ^ (7 * Z.of_nat k) /\ l ++ more = var_int k v /\ more <> []
  | Corrupt => exists rest, l = NUL :: rest
  end /\
  forall k v rest, (1 <= k <= 8)%nat -> 0 <= v < 2 ^ (7 * Z.of_nat k) -> l = var_int k v ++ rest ->
    ebml_parse_var_int l = Parsed (Z.of_nat k) (if v =? 2 ^ (7 * Z.of_nat k) - 1 then EBML_UNKNOWN else v).
Proof.
  split.
  - destruct l as [|c r]; [exists 1%nat, 0, (var_int 1 0); cbn; split_and!; try done; lia|].
    destruct (decide (code c = 0)) as [Z0|N].
    { cbn [ebml_parse_var_int]. rewrite find_marker_spec, Z0. cbn. exists r. by rewrite <- (chr_code c), Z0. }
    rewrite parse_var_int_cons by done. cbn zeta. destruct (announced_range c N) as [Rk _].
    destruct (Z.ltb_spec (lenZ (c :: r)) (announced c)) as [L|L]; unfold lenZ in L; cbn [length] in L.
    + set (more := replicate (Z.to_nat (announced c) - S (length r)) NUL).
      destruct (var_int_of c (r ++ more) N) as (E & B & _). { unfold more. rewrite length_app, length_replicate. lia. }
      exists (Z.to_nat (announced c)), (value_from (code c - 2 ^ (8 - announced c)) (r ++ more)), more. rewrite Z2Nat.id by lia.
      split_and!; [lia|lia|lia|lia|exact E|]. unfold more. destruct (Z.to_nat (announced c) - S (length r))%nat eqn:?; [lia|done].
    + set (t := take (Z.to_nat (announced c - 1)) r).
      destruct (var_int_of c t N) as (E & B & _). { unfold t. rewrite length_take. lia. }
      exists (Z.to_nat (announced c)), (value_from (code c - 2 ^ (8 - announced c)) t), (drop (Z.to_nat (announced c - 1)) r).
      rewrite Z2Nat.id by lia. rewrite <- E. cbn [app]. replace (t ++ _) with r by (symmetry; apply take_drop). split_and!; try done; lia.
  - intros k v rest Hk Hv ->. destruct (var_int_cons k v Hk Hv) as (c & t & -> & N & A & Lt & V). cbn [app].
    rewrite parse_var_int_cons by done. cbn zeta. rewrite A.
    destruct (Z.ltb_spec (lenZ (c :: t ++ rest)) (Z.of_nat k)) as [L|L]; [unfold lenZ in L; cbn [length] in L; rewrite length_app in L; lia|].
    replace (Z.to_nat (Z.of_nat k - 1)) with (length t) by lia. by rewrite take_app_length, V.
Qed.

(** ** The stream *)

Lemma has_magic_app m : forall l x, has_magic m l = true -> has_magic m (l ++ x) = true.
Proof. induction m as [|a m IH]; intros [|b l] x; cbn; try done. intros [-> H]%andb_true_iff. by apply IH. Qed.

Lemma has_magic_take m : forall l x, has_magic m (l ++ x) = true -> (length m <= length l)%nat -> has_magic m l = true.
Proof.
  induction m as [|a m IH]; intros [|b l] x; cbn; try done; [lia|]. intros [-> H]%andb_true_iff L. apply (IH l x H). lia.
Qed.

Lemma parse_var_int_app l x n w :
  ebml_parse_var_int l = Parsed n w ->
  ebml_parse_var_int (l ++ x) = Parsed n w /\ 1 <= n <= 8 /\ n <= lenZ l /\ (0 <= w < 2 ^ 56 \/ w = EBML_UNKNOWN).
Proof.
  intros H. destruct l as [|c r]; [done|]. destruct (decide (code c = 0)) as [Z0|N].
  { cbn [ebml_parse_var_int] in H. by rewrite find_marker_spec, Z0 in H. }
  cbn [app]. rewrite parse_var_int_cons in * by done. cbn zeta in *. destruct (announced_range c N) as [Rk Rc].
  destruct (Z.ltb_spec (lenZ (c :: r)) (announced c)) as [|L]; [done|]. injection H as <- Hw.
  assert (lenZ (c :: r ++ x) = lenZ (c :: r) + lenZ x) as Lx by (unfold lenZ; cbn [length]; rewrite length_app; lia).
  assert (0 <= lenZ x) by (unfold lenZ; lia). destruct (Z.ltb_spec (lenZ (c :: r ++ x)) (announced c)) as [|_]; [lia|].
  unfold lenZ in L. cbn [length] in L. rewrite take_app_le by lia. rewrite Hw. split_and!; try done; [lia..|].
  destruct (var_int_of c (take (Z.to_nat (announced c - 1)) r) N) as (_ & B & _); [rewrite length_take; lia|].
  destruct (powers (announced c) Rk) as [_ Q]. destruct (_ =? _) in Hw; [by right|left; lia].
Qed.

Lemma parse_tag_app l x n w :
  ebml_parse_tag l = Parsed n w ->
  ebml_parse_tag (l ++ x) = Parsed n w /\ 2 <= n <= 16 /\ n <= lenZ l /\ (0 <= w < 2 ^ 56 \/ w = EBML_UNKNOWN).
Proof.
  unfold ebml_parse_tag. intros H. destruct (ebml_parse_var_int l) as [| |a v] eqn:P; try done.
  destruct (parse_var_int_app l x a v P) as (-> & Ra & La & _).
  destruct (ebml_parse_var_int (drop (Z.to_nat a) l)) as [| |b u] eqn:Q; try done. injection H as <- <-.
  unfold lenZ in La. rewrite drop_app_le by lia. destruct (parse_var_int_app _ x b u Q) as (-> & Rb & Lb & B).
  unfold lenZ in *. rewrite length_drop in Lb. split_and!; try done; lia.
Qed.

(** What is in the parser and has not been read from it. *)
Definition held (e : ebml) (rest : bytes) : bytes :=
  (match e_output_state e with EBML_STATE_READING_HEADER => e_header e | EBML_STATE_READING_CLUSTERS => [] end) ++ e_buffer e ++ rest.

Definition in_header (p : parsing_state) : bool :=
  match p with EBML_STATE_PARSING_HEADER | EBML_STATE_COPYING_TO_HEADER => true | _ => false end.
Definition copying (p : parsing_state) : bool :=
  match p with EBML_STATE_COPYING_TO_HEADER | EBML_STATE_COPYING_TO_DATA => true | _ => false end.

(** The place of a cluster in the buffer: its tag begins there, and is there
    at least as far as its magic number before it can be read. *)
Definition cluster_placed (e : ebml) (rest : bytes) : Prop :=
  0 <= e_cluster_start e <= lenZ (e_buffer e) /\
  has_magic CLUSTER_MAGIC (drop (Z.to_nat (e_cluster_start e)) (e_buffer e) ++ rest) = true /\
  (4 <= lenZ (e_buffer e) - e_cluster_start e \/
   e_parse_state e = EBML_STATE_COPYING_TO_DATA /\ e_flush_cluster e = false /\
   4 <= lenZ (e_buffer e) - e_cluster_start e + e_copy_len e).

Record ebml_inv (e : ebml) (rest : bytes) : Prop := {
  inv_buffer : lenZ (e_buffer e) <= EBML_SLICE_SIZE;
  inv_header : lenZ (e_header e) <= EBML_HEADER_MAX_SIZE;
  inv_in_header : in_header (e_parse_state e) = true ->
    e_output_state e = EBML_STATE_READING_HEADER /\ e_header_size e = 0 /\ e_buffer e = [] /\ e_cluster_start e = -1;
  inv_size : e_header_size e = 0 \/ e_header_size e = lenZ (e_header e);
  inv_unread : e_output_state e = EBML_STATE_READING_HEADER -> e_header_read_position e = 0;
  inv_cluster : e_cluster_start e = -1 \/ cluster_placed e rest;
  inv_start : e_parse_state e = EBML_STATE_START_CLUSTER ->
    has_magic CLUSTER_MAGIC rest = true /\ exists n w, ebml_parse_tag rest = Parsed n w /\ 4 < n;
  inv_copy : copying (e_parse_state e) = true -> 0 < e_copy_len e
}.

(** New input changes nothing of this. *)
Lemma ebml_inv_app e rest x : ebml_inv e rest -> ebml_inv e (rest ++ x).
Proof.
  intros [B H IH S U C St Cp]. split; try done.
  - destruct C as [C|(P & M & K)]; [by left|right]. split; [done|]. split; [|done].
    rewrite app_assoc. by apply has_magic_app.
  - intros E. destruct (St E) as (M & n & w & T & L). split; [by apply has_magic_app|]. exists n, w. split; [|done].
    by apply parse_tag_app.
Qed.

(** Nor do the input held, and what is known of the tracks and of keyframes. *)
Lemma ebml_inv_frame e e' rest :
  e_output_state e' = e_output_state e -> e_parse_state e' = e_parse_state e -> e_copy_len e' = e_copy_len e ->
  e_cluster_start e' = e_cluster_start e -> e_flush_cluster e' = e_flush_cluster e -> e_buffer e' = e_buffer e ->
  e_header_size e' = e_header_size e -> e_header_read_position e' = e_header_read_position e -> e_header e' = e_header e ->
  ebml_inv e rest -> ebml_inv e' rest.
Proof.
  intros E1 E2 E3 E4 E5 E6 E7 E8 E9 [B H IH S U C St Cp].
  split; unfold cluster_placed in *; rewrite ?E1, ?E2, ?E3, ?E4, ?E5, ?E6, ?E7, ?E8, ?E9; try done.
Qed.

(** ** A step of the parser *)

(** How much is left to do: a byte is worth the states it can pass through. *)
Definition ebml_measure (e : ebml) (rest : bytes) : nat :=
  3 * length rest + match e_parse_state e with
                    | EBML_STATE_PARSING_HEADER | EBML_STATE_PARSING_CLUSTERS => 2
                    | EBML_STATE_START_CLUSTER => 1
                    | _ => 0
                    end.

(** What a step must do. *)
Definition step_ok (e : ebml) (cursor : nat) (r : step_end) : Prop :=
  let rest := drop cursor (e_input_buffer e) in
  match r with
  | Go e' c' => let rest' := drop c' (e_input_buffer e) in
      e_input_buffer e' = e_input_buffer e /\ e_output_state e' = e_output_state e /\
      ebml_inv e' rest' /\ held e' rest' = held e rest /\ (ebml_measure e' rest' < ebml_measure e rest)%nat
  | Stop e' c' => let rest' := drop c' (e_input_buffer e) in
      e_input_buffer e' = e_input_buffer e /\ e_output_state e' = e_output_state e /\ ebml_inv e' rest' /\ held e' rest' = held e rest
  | Fail _ => True
  end.

(** The probes change only what is known of tracks and keyframes. *)
Definition learned (e e' : ebml) : Prop :=
  exists k t p v, e' = set_cluster_starts_with_keyframe k (set_keyframe_track_number t (set_parsing_track_number p
    (set_parsing_track_is_video v e))).

Lemma learned_refl e : learned e e.
Proof.
  exists (e_cluster_starts_with_keyframe e), (e_keyframe_track_number e), (e_parsing_track_number e), (e_parsing_track_is_video e).
  by destruct e.
Qed.

Lemma learned_trans e1 e2 e3 : learned e1 e2 -> learned e2 e3 -> learned e1 e3.
Proof. intros (k & t & p & v & ->) (k' & t' & p' & v' & ->). exists k', t', p', v'. by destruct e1. Qed.

Lemma learned_keyframe e k : learned e (set_cluster_starts_with_keyframe k e).
Proof. exists k, (e_keyframe_track_number e), (e_parsing_track_number e), (e_parsing_track_is_video e). by destruct e. Qed.

Lemma learned_number e p : learned e (set_parsing_track_number p e).
Proof. exists (e_cluster_starts_with_keyframe e), (e_keyframe_track_number e), p, (e_parsing_track_is_video e). by destruct e. Qed.

Lemma learned_video e v : learned e (set_parsing_track_is_video v e).
Proof. exists (e_cluster_starts_with_keyframe e), (e_keyframe_track_number e), (e_parsing_track_number e), v. by destruct e. Qed.

Lemma learned_check e : learned e (ebml_check_track e).
Proof.
  unfold ebml_check_track. destruct (_ && _); [|apply learned_refl].
  exists (e_cluster_starts_with_keyframe e), (e_parsing_track_number e), (e_parsing_track_number e), (e_parsing_track_is_video e).
  by destruct e.
Qed.

Lemma probe_learns l n payload e e' payload' :
  probe l n payload e = Probed e' payload' -> learned e e' /\ (payload' = payload \/ payload' = 0).
Proof.
  unfold probe, probe_block, probe_number, probe_type. intros H.
  repeat case_match; simplify_eq; (split; [|by auto]);
    eauto using learned_refl, learned_keyframe, learned_trans, learned_number, learned_video, learned_check.
Qed.

Lemma parse_element_ok e cursor copy_state :
  ebml_inv e (drop cursor (e_input_buffer e)) ->
  copy_state = (if in_header (e_parse_state e) then EBML_STATE_COPYING_TO_HEADER else EBML_STATE_COPYING_TO_DATA) ->
  e_parse_state e = EBML_STATE_PARSING_HEADER \/ e_parse_state e = EBML_STATE_PARSING_CLUSTERS ->
  step_ok e cursor (parse_element copy_state e cursor).
Proof.
  intros I -> PS. unfold parse_element. set (l := drop cursor (e_input_buffer e)) in *.
  destruct (ebml_parse_tag l) as [| |n w] eqn:T; [by unfold step_ok|by unfold step_ok|].
  destruct (parse_tag_app l [] n w T) as (_ & Rn & Ln & Rw).
  assert (copying (e_parse_state e) = false) as NC by (by destruct PS as [-> | ->]).
  assert (forall e', e_parse_state e' = EBML_STATE_START_CLUSTER \/ copying (e_parse_state e') = true ->
    (ebml_measure e' l < ebml_measure e l)%nat) as ML.
  { intros e' [E|E]; unfold ebml_measure; [rewrite E|destruct (e_parse_state e')]; try done; destruct PS as [-> | ->]; lia. }
  destruct (uncommon CLUSTER_MAGIC l n) eqn:CM.
  { apply andb_true_iff in CM as [L4%Z.ltb_lt M]. unfold step_ok. fold l. split; [done|]. split; [done|].
    split; [|split; [done|apply ML; by left]]. destruct I as [B H IH S U C St Cp]. split; cbn; try done.
    - destruct C as [C|(P & Mg & [K|(K & _)])]; [by left| |by rewrite K in NC]. right. split; [done|]. split; [done|by left].
    - intros _. split; [done|]. by exists n, w. }
  set (payload := if uncommon SEGMENT_MAGIC l n || uncommon TRACKS_MAGIC l n then 0 else if w =? EBML_UNKNOWN then 0 else w).
  assert (0 <= payload < 2 ^ 56) as Rp.
  { unfold payload. destruct (_ || _); [lia|]. destruct (Z.eqb_spec w EBML_UNKNOWN); [lia|]. destruct Rw; [done|lia]. }
  destruct (probe l n payload e) as [| |e' p'] eqn:Pr; [by unfold step_ok|by unfold step_ok|].
  destruct (probe_learns _ _ _ _ _ _ Pr) as [(k & t & p & v & ->) Hp].
  assert (0 <= p' < 2 ^ 56) as Rp' by (destruct Hp; lia). unfold step_ok. fold l.
  split; [done|]. split; [done|]. split; [|split; [done|apply ML; right; cbn; by destruct (in_header _)]].
  destruct I as [B H IH S U C St Cp]. split; cbn; try done.
  - intros F. apply IH. by destruct (in_header (e_parse_state e)).
  - destruct C as [C|(P & Mg & [K|(K & _)])]; [by left| |by rewrite K in NC]. right. split; [done|]. split; [done|by left].
  - by destruct (in_header (e_parse_state e)).
  - intros _. rewrite wrap_small by lia. lia.
Qed.

Lemma start_cluster_ok e cursor :
  ebml_inv e (drop cursor (e_input_buffer e)) -> e_parse_state e = EBML_STATE_START_CLUSTER ->
  step_ok e cursor (start_cluster e cursor).
Proof.
  intros [B H IH S U C St Cp] PS. destruct (St PS) as (Mg & n & w & T & L4). unfold start_cluster.
  destruct (Z.leb_spec 0 (e_cluster_start e)) as [P|P].
  - unfold step_ok. split_and!; try done. split; cbn; try done.
    destruct C as [C|(? & ? & [K|(K & _)])]; [by left| |by rewrite PS in K]. right. split; [done|]. split; [done|by left].
  - rewrite T. destruct (parse_tag_app _ [] n w T) as (_ & Rn & _). unfold step_ok.
    split; [done|]. split; [done|]. split; [|split; [done|unfold ebml_measure; cbn; rewrite PS; lia]].
    split; cbn; try done; [by right| |].
    + right. unfold cluster_placed. cbn. split; [unfold lenZ; lia|]. unfold lenZ. rewrite Nat2Z.id, drop_all.
      split; [done|]. right. rewrite wrap_small by lia. split_and!; [done|done|lia].
    + intros _. rewrite wrap_small by lia. lia.
Qed.

(** Copying is a step where the state is right at its end, in whichever of the
    two states it ends. *)
Lemma copied_ok p c e e1 cursor n :
  let l := drop cursor (e_input_buffer e) in
  let len := e_copy_len e1 - Z.of_nat n in
  e_input_buffer e1 = e_input_buffer e -> e_output_state e1 = e_output_state e -> e_parse_state e = c -> e_parse_state e1 = c ->
  copying c = true -> (n <= length l)%nat -> 0 < e_copy_len e1 -> 0 <= len ->
  (forall q, (q = c /\ 0 < len) \/ (q = p /\ len = 0) ->
     let e' := set_parse_state q (set_copy_len len e1) in ebml_inv e' (drop n l) /\ held e' (drop n l) = held e l) ->
  step_ok e cursor (copied p e1 cursor n).
Proof.
  intros l len E1 E2 Pc Pc1 Cc Ln Pos Nn K. unfold copied. cbn zeta. change (e_copy_len (set_copy_len ?v e1)) with v. fold len.
  destruct (Z.eqb_spec len 0) as [Z0|NZ]; unfold step_ok; cbn zeta; rewrite <- drop_drop; fold l.
  - destruct (K p ltac:(by right)) as [K1 K2]. split_and!; try done. unfold ebml_measure. rewrite length_drop, Pc.
    destruct c, p; cbn in *; lia.
  - destruct (K c ltac:(left; split; [done|lia])) as [K1 K2]. split_and!; try done. revert K1. by apply ebml_inv_frame.
Qed.

Lemma copy_to_header_ok e cursor :
  ebml_inv e (drop cursor (e_input_buffer e)) -> e_parse_state e = EBML_STATE_COPYING_TO_HEADER ->
  step_ok e cursor (copy_to_header e cursor).
Proof.
  intros [B H IH S U C St Cp] PS. rewrite PS in *. destruct (IH eq_refl) as (O & Sz & Bf & Cs). specialize (Cp eq_refl).
  unfold copy_to_header. set (l := drop cursor (e_input_buffer e)) in *. set (k := Z.min (lenZ l) (e_copy_len e)).
  destruct (Z.ltb_spec EBML_HEADER_MAX_SIZE (lenZ (e_header e) + k)) as [|F]; [done|].
  assert (0 <= k <= lenZ l) as Rk by (unfold k, lenZ; lia).
  apply copied_ok with (c := EBML_STATE_COPYING_TO_HEADER); fold l; try done; cbn [e_copy_len set_header]; rewrite ?Z2Nat.id by lia;
    [unfold lenZ in Rk; lia|unfold k; lia|].
  intros q Hq. assert (in_header q = true) as Ip by (by destruct Hq as [[-> _]|[-> _]]). split.
  - split; cbn; rewrite ?Bf, ?Sz; try done; [|by left|by left| |].
    + unfold lenZ in *. rewrite length_app, length_take. lia.
    + by destruct q.
    + by destruct Hq as [[-> ?]|[-> _]].
  - unfold held. cbn. rewrite O, Bf. cbn. by rewrite <- app_assoc, take_drop.
Qed.

Lemma copy_to_data_ok e cursor :
  ebml_inv e (drop cursor (e_input_buffer e)) -> e_parse_state e = EBML_STATE_COPYING_TO_DATA ->
  step_ok e cursor (copy_to_data e cursor).
Proof.
  intros [B H IH S U C St Cp] PS. rewrite PS in *. clear IH. specialize (Cp eq_refl).
  unfold copy_to_data. set (l := drop cursor (e_input_buffer e)) in *. set (k0 := Z.min (lenZ l) (e_copy_len e)).
  set (k := if EBML_SLICE_SIZE <? lenZ (e_buffer e) + k0 then EBML_SLICE_SIZE - lenZ (e_buffer e) else k0).
  assert (0 <= k <= k0 /\ lenZ (e_buffer e) + k <= EBML_SLICE_SIZE) as [Rk Rb].
  { unfold k, k0 in *. destruct (Z.ltb_spec EBML_SLICE_SIZE (lenZ (e_buffer e) + Z.min (lenZ l) (e_copy_len e))); unfold lenZ in *; lia. }
  assert (length (take (Z.to_nat k) l) = Z.to_nat k) as Lt by (unfold k0, lenZ in *; rewrite length_take; lia).
  apply copied_ok with (c := EBML_STATE_COPYING_TO_DATA); fold l; try done; cbn [e_copy_len set_buffer]; rewrite ?Z2Nat.id by lia;
    [unfold k0, lenZ in Rk; lia|unfold k0 in Rk; lia|].
  intros q Hq. split.
  - split; cbn; try done.
    + unfold lenZ in *. rewrite length_app. lia.
    + by destruct Hq as [[-> _]|[-> _]].
    + destruct C as [C|(P & M & K)]; [by left|right]. unfold cluster_placed, lenZ in *. cbn. rewrite length_app, Lt.
      split; [lia|]. split.
      * rewrite drop_app_le by lia. by rewrite <- app_assoc, take_drop.
      * destruct K as [K|(_ & Ff & K)]; [left; lia|]. destruct Hq as [[-> ?]|[_ ?]]; [right; split_and!; [done|done|lia]|left; lia].
    + by destruct Hq as [[-> _]|[-> _]].
    + by destruct Hq as [[-> ?]|[-> _]].
  - unfold held. cbn. by rewrite <- app_assoc, take_drop.
Qed.

Lemma ebml_step_ok e cursor : ebml_inv e (drop cursor (e_input_buffer e)) -> step_ok e cursor (ebml_step e cursor).
Proof.
  intros I. unfold ebml_step. destruct (e_parse_state e) eqn:P.
  - apply parse_element_ok; [done|by rewrite P|by left].
  - by apply copy_to_header_ok.
  - by apply start_cluster_ok.
  - apply parse_element_ok; [done|by rewrite P|by right].
  - by apply copy_to_data_ok.
Qed.

(** ** Feeding and reading *)

Lemma ebml_loop_ok fuel : forall e cursor len,
  let rest := drop cursor (e_input_buffer e) in
  ebml_inv e rest -> (ebml_measure e rest < fuel)%nat ->
  exists r e', ebml_loop fuel e cursor len = Some (r, e') /\
    (r = -1 \/ r = len /\ e_output_state e' = e_output_state e /\ ebml_inv e' (e_input_buffer e') /\
       held e' (e_input_buffer e') = held e rest /\ (length (e_input_buffer e') <= length (e_input_buffer e))%nat).
Proof.
  induction fuel as [|fuel IH]; intros e cursor len rest I M; [lia|]. cbn [ebml_loop].
  pose proof (ebml_step_ok e cursor I) as S. destruct (ebml_step e cursor) as [e' c'|e' c'|e']; unfold step_ok in S; cbn zeta in S.
  - destruct S as (Ei & Eo & I' & Eh & Lt). fold rest in Lt, Eh. rewrite <- Ei in I', Eh, Lt.
    specialize (IH e' c' len I'). destruct IH as (r & e2 & E & K); [lia|]. exists r, e2. split; [done|].
    destruct K as [K|(K1 & K2 & K3 & K4 & K5)]; [by left|right]. rewrite K2, K4, Eo, Eh, <- Ei. done.
  - destruct S as (Ei & Eo & I' & Eh). rewrite Ei. eexists _, _. split; [reflexivity|]. right. cbn [e_input_buffer set_input_buffer].
    split_and!; try done; [|rewrite length_drop; lia]. revert I'. by apply ebml_inv_frame.
  - eexists _, _. split; [reflexivity|]. by left.
Qed.

Lemma ebml_wrote_ok e data :
  ebml_inv e (e_input_buffer e) ->
  exists r e', ebml_wrote e data = Some (r, e') /\
    (r = -1 \/ r = lenZ data /\ e_output_state e' = e_output_state e /\ ebml_inv e' (e_input_buffer e') /\
       held e' (e_input_buffer e') = held e (e_input_buffer e) ++ data /\
       lenZ (e_input_buffer e') <= lenZ (e_input_buffer e) + lenZ data).
Proof.
  intros I. unfold ebml_wrote. set (e1 := set_input_buffer _ e).
  assert (ebml_inv e1 (drop 0 (e_input_buffer e1))) as I1.
  { rewrite drop_0. apply (ebml_inv_app _ _ data) in I. revert I. by apply ebml_inv_frame. }
  destruct (ebml_loop_ok (3 * length (e_input_buffer e1) + 3) e1 0 (lenZ data) I1) as (r & e' & E & K).
  { rewrite drop_0. unfold ebml_measure. destruct (e_parse_state e1); lia. }
  exists r, e'. split; [exact E|]. destruct K as [K|(K1 & K2 & K3 & K4 & K5)]; [by left|right]. split_and!; try done.
  - rewrite K4, drop_0. unfold held, e1. cbn. by rewrite !app_assoc.
  - unfold e1 in K5. cbn in K5. rewrite length_app in K5. unfold lenZ. lia.
Qed.

Lemma read_space_frame e rest :
  ebml_inv e rest ->
  let '(n, e') := ebml_read_space e in
  ebml_inv e' rest /\ held e' rest = held e rest /\ e_input_buffer e' = e_input_buffer e /\ e_output_state e' = e_output_state e /\
  0 <= n.
Proof.
  intros I. unfold ebml_read_space. destruct (e_output_state e) eqn:O; pose proof I as [B H IH S U C St Cp].
  { split_and!; try done. destruct S as [-> | ->]; unfold lenZ; lia. }
  destruct (Z.ltb_spec 0 (e_cluster_start e)) as [P|P]; [split_and!; try done; lia|].
  destruct (Z.eqb_spec (lenZ (e_buffer e)) EBML_SLICE_SIZE) as [F|F].
  - split_and!; try done; [|cbn; unfold lenZ; lia]. split; try done.
    destruct C as [C|(P1 & M & K)]; [by left|right]. split; [done|]. split; [done|]. cbn. left. rewrite F. unfold EBML_SLICE_SIZE. lia.
  - split_and!; try done. destruct (e_flush_cluster e); unfold lenZ; lia.
Qed.

(** Bytes before the place of a cluster, or all of them, can be taken from the
    front of the buffer. *)
Lemma inv_take e rest k cs :
  ebml_inv e rest -> e_output_state e = EBML_STATE_READING_CLUSTERS ->
  cs = -1 \/ 0 <= cs /\ cs = e_cluster_start e - Z.of_nat k ->
  ebml_inv (set_cluster_start cs (set_buffer (drop k (e_buffer e)) e)) rest.
Proof.
  intros [B H IH S U C St Cp] O Hc. split; cbn; try done.
  - unfold lenZ in *. rewrite length_drop. lia.
  - intros F. destruct (IH F) as (F' & _). congruence.
  - destruct Hc as [->|[P ->]]; [by left|right]. destruct C as [C|(P1 & M & K)]; [lia|].
    unfold cluster_placed, lenZ in *. cbn. rewrite length_drop. split; [lia|]. split.
    + rewrite drop_drop. replace (k + Z.to_nat (e_cluster_start e - Z.of_nat k))%nat with (Z.to_nat (e_cluster_start e)) by lia. done.
    + destruct K as [K|(K1 & K2 & K3)]; [left; lia|right; split_and!; [done|done|lia]].
Qed.

(** A chunk is all that was promised to be read, from the front of what is
    held; one to start with begins with a cluster. *)
Lemma ebml_read_ok e0 rest n e :
  ebml_inv e0 rest -> ebml_read_space e0 = (n, e) -> 0 < n ->
  let '(b, t, e') := ebml_read n e in
  lenZ b = n /\ held e rest = b ++ held e' rest /\ ebml_inv e' rest /\ e_input_buffer e' = e_input_buffer e /\
  (t = EBML_CHUNK_CLUSTER_START -> has_magic CLUSTER_MAGIC b = true) /\
  (t = EBML_CHUNK_HEADER <-> e_output_state e = EBML_STATE_READING_HEADER) /\ e_output_state e' = EBML_STATE_READING_CLUSTERS.
Proof.
  intros I0 E Pos. pose proof (read_space_frame e0 rest I0) as F. rewrite E in F. destruct F as (I & Eh & Ei & Eo & _).
  unfold ebml_read. destruct (Z.ltb_spec n 1) as [|_]; [lia|]. pose proof I as [B H IH S U C St Cp].
  unfold ebml_read_space in E. rewrite Eo. destruct (e_output_state e0) eqn:O.
  - injection E as <- <-. destruct S as [S|S]; [lia|]. rewrite (U O), Z.sub_0_r, Z.min_id, Z.add_0_l. cbn [e_header_read_position set_header_read_position e_header_size].
    destruct (Z.eqb_spec (e_header_size e0) 0); [lia|]. rewrite Z.eqb_refl, S. unfold lenZ. rewrite Nat2Z.id, take_ge by lia.
    split_and!; try done; [unfold held; cbn; by rewrite O|]. split; cbn; try done; [|by right].
    intros F. destruct (IH F) as (_ & F' & _). lia.
  - destruct (Z.ltb_spec 0 (e_cluster_start e0)) as [L|L].
    + injection E as <- <-. destruct (Z.eqb_spec (e_cluster_start e0) 0); [lia|]. destruct (Z.ltb_spec 0 (e_cluster_start e0)); [|lia].
      destruct (Z.ltb_spec (e_cluster_start e0) 1); [lia|]. rewrite Z.min_id. cbn [e_cluster_start set_buffer].
      destruct (Z.ltb_spec 0 (e_cluster_start e0)); [|lia]. destruct C as [C|(P & M & K)]; [lia|].
      split_and!; try done.
      * unfold lenZ in *. rewrite length_take. lia.
      * unfold held. cbn. rewrite O. cbn. by rewrite app_assoc, take_drop.
      * apply inv_take; [done|done|]. right. lia.
    + assert (n = lenZ (e_buffer e) /\ e_flush_cluster e = true /\ e_cluster_start e = e_cluster_start e0) as (-> & Fl & Ecs).
      { destruct (_ =? _); injection E as <- <-; [done|]. destruct (e_flush_cluster e0) eqn:?; [done|lia]. }
      set (r := if e_cluster_start e =? 0 then _ else _).
      assert (exists t, r = (lenZ (e_buffer e), t, set_cluster_start (-1) e) /\ t <> EBML_CHUNK_HEADER /\
        (t = EBML_CHUNK_CLUSTER_START -> e_cluster_start e = 0)) as (t & Er & Nt & Ht).
      { unfold r. destruct (Z.eqb_spec (e_cluster_start e) 0); [by destruct (decide _); eexists|].
        destruct (Z.ltb_spec 0 (e_cluster_start e)); [lia|]. exists EBML_CHUNK_CLUSTER_CONTINUE. split_and!; try done. f_equal.
        destruct C as [C|(P & _)]; [|lia]. destruct e; cbn in *. by subst. }
      rewrite Er. clear Er r. destruct (Z.ltb_spec (lenZ (e_buffer e)) 1); [lia|]. rewrite Z.min_id.
      change (e_cluster_start (set_buffer ?x (set_cluster_start ?y e))) with y. cbn [Z.ltb Z.compare].
      unfold lenZ. rewrite Nat2Z.id, take_ge by done. split_and!; try done.
      * unfold held. cbn. by rewrite Eo, drop_all.
      * pose proof (inv_take e rest (length (e_buffer e)) (-1) I ltac:(congruence) ltac:(by left)) as K. revert K. by apply ebml_inv_frame.
      * intros Es. specialize (Ht Es). cbn [e_buffer set_cluster_start]. destruct C as [C|(P & M & Kc)]; [lia|]. rewrite Ht in *.
        apply (has_magic_take _ _ rest); [done|].
        destruct Kc as [Kc|(_ & Kc & _)]; [|congruence]. unfold lenZ in Kc. change (length CLUSTER_MAGIC) with 4%nat. lia.
Qed.

(** ** Whole streams *)

(** The parser in use: what it was fed and the chunks read, in order. *)
Inductive reaches : ebml -> bytes -> list (chunk_type * bytes) -> Prop :=
| reach_new : reaches ebml_create [] []
| reach_wrote e e' fed out data :
    reaches e fed out -> lenZ data <= ebml_get_write_buffer e -> ebml_wrote e data = Some (lenZ data, e') ->
    reaches e' (fed ++ data) out
| reach_space e fed out : reaches e fed out -> reaches (snd (ebml_read_space e)) fed out
| reach_read e n e1 b t e' fed out :
    reaches e fed out -> ebml_read_space e = (n, e1) -> 0 < n -> ebml_read n e1 = (b, t, e') ->
    reaches e' fed (out ++ [(t, b)]).

(** The header comes first, and once. *)
Definition header_first (e : ebml) (out : list (chunk_type * bytes)) : Prop :=
  match e_output_state e, out with
  | EBML_STATE_READING_HEADER, [] => True
  | EBML_STATE_READING_CLUSTERS, (EBML_CHUNK_HEADER, _) :: r => Forall (fun c => c.1 <> EBML_CHUNK_HEADER) r
  | _, _ => False
  end.

Lemma reaches_inv e fed out :
  reaches e fed out ->
  ebml_inv e (e_input_buffer e) /\ lenZ (e_input_buffer e) <= EBML_SLICE_SIZE /\ header_first e out /\
  fed = concat (map snd out) ++ held e (e_input_buffer e) /\
  Forall (fun c => c.1 = EBML_CHUNK_CLUSTER_START -> has_magic CLUSTER_MAGIC c.2 = true) out.
Proof.
  induction 1 as [|e e' fed out data R IH Ld W|e fed out R IH|e n e1 b t e' fed out R IH Sp Pos Rd].
  - split_and!; try done. split; cbn; try done; by left.
  - destruct IH as (I & L & Hf & E & F). destruct (ebml_wrote_ok e data I) as (r & e2 & W' & K). rewrite W in W'.
    injection W' as <- <-. destruct K as [K|(_ & Eo & I' & Eh & Li)]; [unfold lenZ in K; lia|].
    split_and!; try done; [unfold ebml_get_write_buffer in Ld; lia|by unfold header_first; rewrite Eo|].
    by rewrite E, Eh, <- app_assoc.
  - destruct IH as (I & L & Hf & E & F). pose proof (read_space_frame e _ I) as K. destruct (ebml_read_space e) as [n e'].
    destruct K as (I' & Eh & Ei & Eo & _). cbn [snd]. rewrite Ei, Eh. unfold header_first. by rewrite Eo.
  - destruct IH as (I & L & Hf & E & F). pose proof (read_space_frame e _ I) as K. pose proof (ebml_read_ok e _ n e1 I Sp Pos) as K2.
    rewrite Sp in K. rewrite Rd in K2. destruct K as (_ & Eh & Ei & Eo & _). destruct K2 as (Lb & Eh2 & I' & Ei2 & M & Ht & Eo2).
    rewrite Ei2, Ei. split_and!; try done.
    + unfold header_first in *. rewrite Eo2. rewrite Eo in Ht. destruct (e_output_state e) eqn:O.
      * destruct out; [|done]. cbn. destruct Ht as [_ Ht]. by rewrite Ht.
      * destruct out as [|[[] h] out]; try done. cbn. apply Forall_app. split; [done|]. constructor; [|done]. cbn. intros ->.
        by destruct Ht as [Ht _]; specialize (Ht eq_refl).
    + rewrite E, <- Eh, Eh2, map_app, concat_app, <- app_assoc. cbn. by rewrite app_nil_r.
    + apply Forall_app. split; [done|]. by constructor.
Qed.

(** C8: However the stream is cut into portions and read, as long as none fails:
    the chunks read and what is held are together the stream, byte for byte
    and in order, first the header and then data; no buffer is overrun; a
    chunk that is a sync point begins with a cluster; and the parser is done
    with each further portion. *)
Theorem ebml_stream_whole e fed out :
  reaches e fed out ->
  fed = concat (map snd out) ++ held e (e_input_buffer e) /\
  (out = [] \/ exists h r, out = (EBML_CHUNK_HEADER, h) :: r /\ Forall (fun c => c.1 <> EBML_CHUNK_HEADER) r) /\
  Forall (fun c => c.1 = EBML_CHUNK_CLUSTER_START -> has_magic CLUSTER_MAGIC c.2 = true) out /\
  lenZ (e_buffer e) <= EBML_SLICE_SIZE /\ lenZ (e_input_buffer e) <= EBML_SLICE_SIZE /\
  lenZ (e_header e) <= EBML_HEADER_MAX_SIZE /\ forall data, is_Some (ebml_wrote e data).
Proof.
  intros R. destruct (reaches_inv e fed out R) as (I & L & Hf & E & F). pose proof I as [B H _ _ _ _ _ _].
  split_and!; try done.
  - unfold header_first in Hf. destruct (e_output_state e), out as [|[[] h] r]; try done; [by left|right; by exists h, r].
  - intros data. destruct (ebml_wrote_ok e data I) as (r & e' & W & _). by eexists.
Qed.

(** ** The source *)

(** The bytes still to come on a connection. *)
Definition conn_bytes (c : conn) : bytes := concat (omap id (arriving c)).

(** A source whose parser was fed some bytes and gave some chunks. *)
Definition source_ok (s : ebml_source) (fed : bytes) (out : list (chunk_type * bytes)) : Prop :=
  reaches (s_ebml s) fed out /\ s_header s = snd <$> head out.

(** What a call returns of the chunks it reads: none but the header, or the
    last, with its mark. *)
Definition returned (r : option (bool * bytes)) (new : list (chunk_type * bytes)) : Prop :=
  exists hs, Forall (fun c => c.1 = EBML_CHUNK_HEADER) hs /\
    match r with
    | None => new = hs
    | Some (sync, b) => exists t, new = hs ++ [(t, b)] /\ t <> EBML_CHUNK_HEADER /\ sync = bool_decide (t = EBML_CHUNK_CLUSTER_START)
    end.

(** A portion the parser found malformed. *)
Definition malformed (x : bytes) (s : ebml_source) : Prop :=
  exists e fed out, reaches e fed out /\ ebml_wrote e x = Some (-1, s_ebml s).

Lemma connection_read_bytes len c :
  0 <= len ->
  let '(data, c') := connection_read len c in
  conn_bytes c = default [] data ++ conn_bytes c' /\ lenZ (default [] data) <= len.
Proof.
  intros Pos. unfold connection_read. destruct (Z.eqb_spec len 0); [by subst|]. unfold conn_bytes.
  destruct (arriving c) as [|[b|] r]; cbn; [by split; [|unfold lenZ; cbn; lia]| |by split; [|unfold lenZ; cbn; lia]].
  split; [|unfold lenZ; rewrite length_take; lia].
  rewrite <- (take_drop (Z.to_nat len) b) at 1. rewrite <- app_assoc. f_equal. by destruct (drop (Z.to_nat len) b).
Qed.


(** ** A source that is cut off *)

(** A header, and a cluster of eight bytes. *)
Definition demo_start : bytes :=
  byte_list [26; 69; 223; 163; 128; 24; 83; 128; 103; 255; 31; 67; 182; 117; 255; 231; 129; 0].
(** A cluster whose first 4096 bytes arrive at once. *)
Definition demo_cluster : bytes := byte_list [31; 67; 182; 117; 255; 236; 80; 0] ++ replicate 4088 NUL.

(** Where the next cluster begins with a portion, and the portion fills the
    input, it waits for the cluster before; which is read; and then there is
    no room to read into, the connection is read with a length of zero, and
    taken to be at its end. *)
Theorem ebml_no_room :
  let c := Conn [Some demo_start; Some demo_cluster; Some (replicate 100 NUL)] false in
  exists s1 c1 s2 c2,
    ebml_get_buffer 10 format_ebml_get_plugin c = Some (Some (true, byte_list [31; 67; 182; 117; 255; 231; 129; 0]), s1, c1) /\
    con_error c1 = false /\ ebml_get_write_buffer (s_ebml s1) = 0 /\
    ebml_get_buffer 10 s1 c1 = Some (None, s2, c2) /\ con_error c2 = true /\ arriving c2 = [Some (replicate 100 NUL)] /\ s_running s2 = true.
Proof. do 4 eexists. split; [vm_compute; reflexivity|]. repeat (split; [vm_compute; reflexivity|]). vm_compute. reflexivity. Qed.

(** ** Witnesses *)

Definition demo_fed : ebml := match ebml_wrote ebml_create demo_start with Some (_, e) => e | None => ebml_create end.
Definition demo_read : bytes * chunk_type * ebml := let '(n, e) := ebml_read_space demo_fed in ebml_read n e.

Lemma demo_reaches : reaches (snd demo_read) demo_start [(EBML_CHUNK_HEADER, take 10 demo_start)].
Proof.
  apply (reach_read demo_fed (fst (ebml_read_space demo_fed)) (snd (ebml_read_space demo_fed)) (take 10 demo_start)
    EBML_CHUNK_HEADER (snd demo_read) demo_start []); [|by vm_compute..].
  apply (reach_wrote ebml_create demo_fed [] [] demo_start); [constructor|by vm_compute..].
Qed.

Example ebml_stream_whole_witness :
  let e := snd demo_read in let out := [(EBML_CHUNK_HEADER, take 10 demo_start)] in
  reaches e demo_start out /\
    (demo_start = concat (map snd out) ++ held e (e_input_buffer e) /\
     (out = [] \/ exists h r, out = (EBML_CHUNK_HEADER, h) :: r /\ Forall (fun c => c.1 <> EBML_CHUNK_HEADER) r) /\
     Forall (fun c => c.1 = EBML_CHUNK_CLUSTER_START -> has_magic CLUSTER_MAGIC c.2 = true) out /\
     lenZ (e_buffer e) <= EBML_SLICE_SIZE /\ lenZ (e_input_buffer e) <= EBML_SLICE_SIZE /\
     lenZ (e_header e) <= EBML_HEADER_MAX_SIZE /\ forall data, is_Some (ebml_wrote e data)).
Proof. split; [exact demo_reaches|]. exact (ebml_stream_whole _ _ _ demo_reaches). Defined.

