(* ===== verification/Ogg.v ===== *)
(** The Ogg format plugin: [format_ogg.c] and the codecs it knows, [format_midi.c],
    [format_flac.c], [format_speex.c], [format_kate.c], [format_skeleton.c],
    [format_opus.c] and [format_theora.c]; Vorbis is in [OggVorbis.v].

    libogg and the codecs' libraries are parameters, given by two classes.
    What the plugin does to buffers is a list of actions, in order: nothing
    else depends on them.  [store_exec] carries them out on the heap of
    [Refbuf.v], with the bytes of the pages beside it; a page made for the
    queue is named by its number.  A packet that [ogg_stream_packetout] did not
    fill in is not there: to look at it is [None]. *)

From S2P Require Import Prelude Refbuf Ebml.
Local Open Scope Z_scope.

(** ** The libraries *)

Record ogg_page := OggPage { pg_header : bytes; pg_body : bytes }.

Record ogg_packet := OggPacket {
  op_packet : bytes;
  op_e_o_s : bool;
  op_granulepos : Z;
  op_packetno : Z
}.

(** What [ogg_stream_packetout] answers: a packet, nothing, or that there is
    a gap. *)
Inductive packetout := PacketOut (p : ogg_packet) | NoPacket | PacketGap.

Class LibOgg := {
  ogg_sync : Type;
  ogg_stream : Type;
  ogg_page_bos : ogg_page -> bool;
  ogg_page_serialno : ogg_page -> Z;
  ogg_page_granulepos : ogg_page -> Z;
  ogg_sync_init : ogg_sync;
  ogg_sync_wrote : bytes -> ogg_sync -> ogg_sync;
  ogg_sync_pageout : ogg_sync -> option ogg_page * ogg_sync;
  ogg_stream_init : Z -> ogg_stream;
  ogg_stream_pagein : ogg_page -> ogg_stream -> bool * ogg_stream;
  ogg_stream_packetout : ogg_stream -> packetout * ogg_stream;
  ogg_stream_packetin : ogg_packet -> ogg_stream -> ogg_stream;
  ogg_stream_pageout : ogg_stream -> option ogg_page * ogg_stream;
  ogg_stream_flush : ogg_stream -> option ogg_page * ogg_stream;
  (** how many pages and packets are waiting *)
  ogg_sync_waiting : ogg_sync -> nat;
  ogg_stream_waiting : ogg_stream -> nat;
  ogg_stream_unsent : ogg_stream -> nat
}.

(** What is taken out is not there any more. *)
Class LibOggOk `{LibOgg} : Prop := {
  ogg_sync_pageout_less s p s' : ogg_sync_pageout s = (Some p, s') -> (ogg_sync_waiting s' < ogg_sync_waiting s)%nat;
  ogg_sync_pageout_none s s' : ogg_sync_pageout s = (None, s') -> (ogg_sync_waiting s' <= ogg_sync_waiting s)%nat;
  ogg_stream_packetout_less s r s' :
    ogg_stream_packetout s = (r, s') -> r <> NoPacket -> (ogg_stream_waiting s' < ogg_stream_waiting s)%nat;
  ogg_stream_packetout_none s s' :
    ogg_stream_packetout s = (NoPacket, s') -> (ogg_stream_waiting s' <= ogg_stream_waiting s)%nat;
  ogg_stream_flush_less s p s' :
    ogg_stream_flush s = (Some p, s') -> (ogg_stream_unsent s' < ogg_stream_unsent s)%nat;
  ogg_stream_flush_none s s' : ogg_stream_flush s = (None, s') -> (ogg_stream_unsent s' <= ogg_stream_unsent s)%nat
}.

(** The libraries of the codecs, and which of them the server is built
    with.  [None] is an error. *)
Class CodecLibs := {
  have_theora : bool;
  have_speex : bool;
  have_kate : bool;
  vorbis_info : Type;
  vorbis_info_init : vorbis_info;
  vi_rate : vorbis_info -> Z;
  vi_channels : vorbis_info -> Z;
  vi_bitrate_nominal : vorbis_info -> Z;
  vorbis_synthesis_headerin : ogg_packet -> vorbis_info * list string -> option (vorbis_info * list string);
  vorbis_packet_blocksize : vorbis_info -> ogg_packet -> Z;
  vorbis_comment_query : list string -> string -> option string;
  vorbis_comment_query_count : list string -> string -> Z;
  vorbis_commentheader_out : list string -> ogg_packet;
  theora_info : Type;
  theora_info_init : theora_info;
  theora_decode_header : ogg_packet -> theora_info -> option theora_info;
  theora_packet_isheader : ogg_packet -> bool;
  theora_packet_iskeyframe : ogg_packet -> bool;
  ti_target_bitrate : theora_info -> Z;
  ti_quality : theora_info -> Z;
  ti_frame_width : theora_info -> Z;
  ti_frame_height : theora_info -> Z;
  ti_frame_rate_text : theora_info -> string;
  speex_packet_to_header : bytes -> bool;
  kate_info : Type;
  kate_info_init : kate_info;
  kate_ogg_decode_headerin : ogg_packet -> kate_info -> Z * kate_info;
  ki_num_headers : kate_info -> Z
}.

Section ogg.
Context {lib : LibOgg} {codecs : CodecLibs}.

(** ** The state *)

Inductive process_packet := NoProcess | ProcessHeaders | ProcessAudio.
Inductive get_buffer_page := NoBuffer | BufferHeader | BufferAudio | BufferFinished.

(** [vorbis_codec_t]. *)
Record vorbis_codec := VorbisCodec {
  vb_vi : vorbis_info;
  vb_rebuild_comment : bool;
  vb_stream_notify : bool;
  vb_initial_audio_page : bool;
  vb_new_os : ogg_stream;
  vb_page_samples_trigger : Z;
  vb_prev_granulepos : Z;
  vb_prev_packet : option ogg_packet;
  vb_granulepos : Z;
  vb_initial_page_granulepos : Z;
  vb_samples_in_page : Z;
  vb_prev_window : Z;
  vb_initial_audio_packet : bool;
  vb_bos_page : ogg_page;
  vb_header : list ogg_packet;
  vb_prev_page_samples : Z;
  vb_process_packet : process_packet;
  vb_get_buffer_page : get_buffer_page
}.

(** What is particular to a codec; a Vorbis codec whose pages are passed
    through has another [process_page]. *)
Inductive codec_kind :=
| Vorbis (v : vorbis_codec) (passthru : bool)
| Theora (ti : theora_info) (prev_granulepos : Z)
| Midi
| Flac
| Speex
| Kate (headers_done : bool) (ki : kate_info) (num_headers prev_granulepos : Z)
| Skeleton
| Opus.

(** [ogg_codec_t]; [oc_id] is its address. *)
Record ogg_codec := OggCodec {
  oc_id : Z;
  oc_serialno : Z;
  oc_os : ogg_stream;
  oc_headers : Z;
  oc_name : option string;
  oc_possible_start : option nat;
  oc_kind : codec_kind
}.

Definition set_stream (os : ogg_stream) (c : ogg_codec) : ogg_codec :=
  OggCodec (oc_id c) (oc_serialno c) os (oc_headers c) (oc_name c) (oc_possible_start c) (oc_kind c).
Definition set_headers (n : Z) (c : ogg_codec) : ogg_codec :=
  OggCodec (oc_id c) (oc_serialno c) (oc_os c) n (oc_name c) (oc_possible_start c) (oc_kind c).
Definition set_possible_start (p : option nat) (c : ogg_codec) : ogg_codec :=
  OggCodec (oc_id c) (oc_serialno c) (oc_os c) (oc_headers c) (oc_name c) p (oc_kind c).
Definition set_kind (k : codec_kind) (c : ogg_codec) : ogg_codec :=
  OggCodec (oc_id c) (oc_serialno c) (oc_os c) (oc_headers c) (oc_name c) (oc_possible_start c) k.

(** What the rest of the server is told. *)
Inductive ogg_effect :=
| StatsEvent (name : string) (value : option string)
| PlaylistLog (text : string)
| PushTrack (vc : list string)
| YpTouch.

(** What codecs change of the plugin: the comments, whether [set_tag] is
    [vorbis_set_tag], the announcement of metadata and the bitrate. *)
Record plugin := Plugin {
  pl_vc : list string;
  pl_set_tag : bool;
  pl_log_metadata : bool;
  pl_bitrate : Z;
  pl_effects : list ogg_effect
}.

Definition set_vc (vc : list string) (p : plugin) : plugin :=
  Plugin vc (pl_set_tag p) (pl_log_metadata p) (pl_bitrate p) (pl_effects p).
Definition set_log_metadata (b : bool) (p : plugin) : plugin :=
  Plugin (pl_vc p) (pl_set_tag p) b (pl_bitrate p) (pl_effects p).
Definition tell (l : list ogg_effect) (p : plugin) : plugin :=
  Plugin (pl_vc p) (pl_set_tag p) (pl_log_metadata p) (pl_bitrate p) (pl_effects p ++ l).

(** What is done to buffers: a header page goes on the list, the list is given
    up, a page is made for the queue, its references are counted, it is marked
    as one to start with, and it gets the header pages. *)
Inductive store_action :=
| Attach (page : ogg_page)
| FreeHeaders
| Make (page : ogg_page)
| Addref (n : nat)
| Release (n : nat)
| Mark (n : nat)
| Complete (n : nat).

(** [ogg_state_t], and what the plugin keeps of its source; [og_made] counts
    the pages made for the queue. *)
Record ogg_state := OggState {
  og_plugin : plugin;
  og_oy : ogg_sync;
  og_error : bool;
  og_codec_count : Z;
  og_codecs : list ogg_codec;
  og_bos_completed : bool;
  og_current : option Z;
  og_codec_sync : option Z;
  og_read_bytes : Z;
  og_running : bool;
  og_next_id : Z;
  og_made : nat
}.

Definition set_plugin (p : plugin) (s : ogg_state) : ogg_state :=
  OggState p (og_oy s) (og_error s) (og_codec_count s) (og_codecs s) (og_bos_completed s) (og_current s)
    (og_codec_sync s) (og_read_bytes s) (og_running s) (og_next_id s) (og_made s).
Definition set_oy (oy : ogg_sync) (s : ogg_state) : ogg_state :=
  OggState (og_plugin s) oy (og_error s) (og_codec_count s) (og_codecs s) (og_bos_completed s) (og_current s)
    (og_codec_sync s) (og_read_bytes s) (og_running s) (og_next_id s) (og_made s).
Definition set_og_error (s : ogg_state) : ogg_state :=
  OggState (og_plugin s) (og_oy s) true (og_codec_count s) (og_codecs s) (og_bos_completed s) (og_current s)
    (og_codec_sync s) (og_read_bytes s) (og_running s) (og_next_id s) (og_made s).
Definition set_codecs (l : list ogg_codec) (s : ogg_state) : ogg_state :=
  OggState (og_plugin s) (og_oy s) (og_error s) (og_codec_count s) l (og_bos_completed s) (og_current s)
    (og_codec_sync s) (og_read_bytes s) (og_running s) (og_next_id s) (og_made s).
Definition set_bos_completed (s : ogg_state) : ogg_state :=
  OggState (og_plugin s) (og_oy s) (og_error s) (og_codec_count s) (og_codecs s) true (og_current s)
    (og_codec_sync s) (og_read_bytes s) (og_running s) (og_next_id s) (og_made s).
Definition set_current (i : option Z) (s : ogg_state) : ogg_state :=
  OggState (og_plugin s) (og_oy s) (og_error s) (og_codec_count s) (og_codecs s) (og_bos_completed s) i
    (og_codec_sync s) (og_read_bytes s) (og_running s) (og_next_id s) (og_made s).
Definition add_read_bytes (n : Z) (s : ogg_state) : ogg_state :=
  OggState (og_plugin s) (og_oy s) (og_error s) (og_codec_count s) (og_codecs s) (og_bos_completed s) (og_current s)
    (og_codec_sync s) (u64 (og_read_bytes s + n)) (og_running s) (og_next_id s) (og_made s).
Definition stop_running (s : ogg_state) : ogg_state :=
  OggState (og_plugin s) (og_oy s) (og_error s) (og_codec_count s) (og_codecs s) (og_bos_completed s) (og_current s)
    (og_codec_sync s) (og_read_bytes s) false (og_next_id s) (og_made s).
Definition made_one (s : ogg_state) : ogg_state :=
  OggState (og_plugin s) (og_oy s) (og_error s) (og_codec_count s) (og_codecs s) (og_bos_completed s) (og_current s)
    (og_codec_sync s) (og_read_bytes s) (og_running s) (og_next_id s) (S (og_made s)).

(** ** Buffers *)

Definition page_bytes (page : ogg_page) : bytes := pg_header page ++ pg_body page.

(** The pages for the queue: the heap and the bytes of each page, the list of
    header pages with [bos_end] ([None] is the address of [header_pages],
    [Some p] that of the field [next] of [p]), and where the pages made for
    the queue are. *)
Record page_store := PageStore {
  ps_heap : heap;
  ps_data : gmap ptr bytes;
  ps_header_pages : option ptr;
  ps_header_pages_tail : option ptr;
  ps_bos_end : option ptr;
  ps_buffers : list ptr
}.

Definition set_ps_heap (h : heap) (s : page_store) : page_store :=
  PageStore h (ps_data s) (ps_header_pages s) (ps_header_pages_tail s) (ps_bos_end s) (ps_buffers s).

(** [make_refbuf_with_page]. *)
Definition make_refbuf_with_page (page : ogg_page) (s : page_store) : ptr * page_store :=
  let '(p, h) := refbuf_new (lenZ (page_bytes page)) (ps_heap s) in
  (p, PageStore h (<[p := page_bytes page]> (ps_data s)) (ps_header_pages s) (ps_header_pages_tail s) (ps_bos_end s)
        (ps_buffers s)).

(** [*bos_end], and the writing to it. *)
Definition bos_get (s : page_store) : option (option ptr) :=
  match ps_bos_end s with
  | None => Some (ps_header_pages s)
  | Some p => r ← ps_heap s !! p; Some (rb_next r)
  end.
Definition bos_set (v : option ptr) (s : page_store) : option page_store :=
  match ps_bos_end s with
  | None => Some (PageStore (ps_heap s) (ps_data s) v (ps_header_pages_tail s) None (ps_buffers s))
  | Some p => h ← upd_ptr p (set_next v) (ps_heap s); Some (set_ps_heap h s)
  end.

(** [format_ogg_attach_header]. *)
Definition format_ogg_attach_header (page : ogg_page) (s : page_store) : option page_store :=
  let '(refbuf, s) := make_refbuf_with_page page s in
  if ogg_page_bos page then
    here ← bos_get s;
    let tail := match here with None => Some refbuf | Some _ => ps_header_pages_tail s end in
    h ← upd_ptr refbuf (set_next here) (ps_heap s);
    s ← bos_set (Some refbuf) (set_ps_heap h s);
    Some (PageStore (ps_heap s) (ps_data s) (ps_header_pages s) tail (Some refbuf) (ps_buffers s))
  else
    h ← (match ps_header_pages_tail s with
         | Some t => upd_ptr t (set_next (Some refbuf)) (ps_heap s)
         | None => Some (ps_heap s)
         end);
    Some (PageStore h (ps_data s)
            (match ps_header_pages s with None => Some refbuf | p => p end) (Some refbuf) (ps_bos_end s) (ps_buffers s)).

(** [format_ogg_free_headers]. *)
Fixpoint release_headers (fuel : nat) (header : option ptr) (h : heap) : option heap :=
  match fuel, header with
  | _, None => Some h
  | O, Some _ => None
  | S fuel', Some to_release =>
      r ← h !! to_release;
      h ← refbuf_release (Some to_release) h;
      release_headers fuel' (rb_next r) h
  end.

Definition format_ogg_free_headers (s : page_store) : option page_store :=
  h ← release_headers (size (ps_heap s)) (ps_header_pages s) (ps_heap s);
  Some (PageStore h (ps_data s) None None None (ps_buffers s)).

(** The references [complete_buffer] makes. *)
Definition attach_headers_to (p : ptr) (s : page_store) : option page_store :=
  h ← addref_chain (size (ps_heap s)) (ps_header_pages s) (ps_heap s);
  h ← upd_ptr p (set_assoc (ps_header_pages s)) h;
  Some (set_ps_heap h s).

Definition mark_sync (r : refbuf) : refbuf := Refbuf (rb_len r) (rb_count r) (rb_assoc r) (rb_next r) true.

Definition store_exec (a : store_action) (s : page_store) : option page_store :=
  match a with
  | Attach page => format_ogg_attach_header page s
  | FreeHeaders => format_ogg_free_headers s
  | Make page =>
      let '(p, s) := make_refbuf_with_page page s in
      Some (PageStore (ps_heap s) (ps_data s) (ps_header_pages s) (ps_header_pages_tail s) (ps_bos_end s) (ps_buffers s ++ [p]))
  | Addref n => p ← ps_buffers s !! n; h ← refbuf_addref p (ps_heap s); Some (set_ps_heap h s)
  | Release n => p ← ps_buffers s !! n; h ← refbuf_release (Some p) (ps_heap s); Some (set_ps_heap h s)
  | Mark n => p ← ps_buffers s !! n; h ← upd_ptr p mark_sync (ps_heap s); Some (set_ps_heap h s)
  | Complete n => p ← ps_buffers s !! n; attach_headers_to p s
  end.

Fixpoint store_run (l : list store_action) (s : page_store) : option page_store :=
  match l with
  | [] => Some s
  | a :: l => s ← store_exec a s; store_run l s
  end.

Definition empty_store : page_store := PageStore ∅ ∅ None None None [].

(** ** The codecs *)

(** What becomes of a page: what is done to buffers, whether the page was made
    for the queue (with the number [made]), and whether the stream is in
    error. *)
Record reply := Reply { rp_actions : list store_action; rp_queued : bool; rp_error : bool }.

Definition nothing : reply := Reply [] false false.
Definition rejected : reply := Reply [] false true.
Definition header_pages (l : list ogg_page) : reply := Reply (Attach <$> l) false false.
Definition queue_page (page : ogg_page) (l : list store_action) : reply := Reply (Make page :: l) true false.

(** The loops over the packets of a stream: [step] says whether to go on. *)
Fixpoint each_packet {A} (step : ogg_packet -> A -> option (bool * A)) (fuel : nat) (os : ogg_stream) (a : A) :
    option (ogg_stream * A) :=
  match fuel with
  | O => None
  | S fuel' =>
      match ogg_stream_packetout os with
      | (PacketOut p, os) => '(go, a) ← step p a; if go : bool then each_packet step fuel' os a else Some (os, a)
      | (_, os) => Some (os, a)
      end
  end.
Definition packets {A} (step : ogg_packet -> A -> option (bool * A)) (os : ogg_stream) (a : A) : option (ogg_stream * A) :=
  each_packet step (S (ogg_stream_waiting os)) os a.

Definition count_packet (p : ogg_packet) (n : Z) : option (bool * Z) := Some (true, n + 1).

Abbreviation handled := (option (reply * ogg_codec * plugin)).

(** [process_midi_page]. *)
Definition process_midi_page (codec : ogg_codec) (page : ogg_page) (pl : plugin) : handled :=
  let '(ok, os) := ogg_stream_pagein page (oc_os codec) in
  Some (if ok : bool then queue_page page [] else rejected, set_stream os codec, pl).

(** [process_flac_page]. *)
Fixpoint flac_packets (fuel : nat) (os : ogg_stream) (headers : Z) : option (ogg_stream * Z * bool) :=
  match fuel with
  | O => None
  | S fuel' =>
      match ogg_stream_packetout os with
      | (NoPacket, os) => Some (os, headers, false)
      | (PacketGap, _) => None
      | (PacketOut p, os) =>
          c ← op_packet p !! 0%nat;
          let type := code c in
          if type =? 255 then Some (os, 0, false)
          else if (1 <=? type) && (type <=? 126) || (129 <=? type) && (type <=? 254) then flac_packets fuel' os headers
          else Some (os, headers, true)
      end
  end.
Definition process_flac_page (codec : ogg_codec) (page : ogg_page) (pl : plugin) : handled :=
  if oc_headers codec =? 0 then Some (queue_page page [], codec, pl)
  else
    let '(ok, os) := ogg_stream_pagein page (oc_os codec) in
    if negb ok then Some (rejected, set_stream os codec, pl)
    else
      '(os, headers, bad) ← flac_packets (S (ogg_stream_waiting os)) os (oc_headers codec);
      let codec := set_headers headers (set_stream os codec) in
      if bad : bool then Some (rejected, codec, pl)
      else if negb (headers =? 0) then Some (header_pages [page], codec, pl)
      else Some (queue_page page [], codec, pl).

(** [process_speex_page]. *)
Definition process_speex_page (codec : ogg_codec) (page : ogg_page) (pl : plugin) : handled :=
  if oc_headers codec <? 2 then
    let '(_, os) := ogg_stream_pagein page (oc_os codec) in
    '(os, headers) ← packets count_packet os (oc_headers codec);
    Some (header_pages [page], set_headers headers (set_stream os codec), pl)
  else Some (queue_page page [], codec, pl).

(** [process_skeleton_page]. *)
Definition process_skeleton_page (codec : ogg_codec) (page : ogg_page) (pl : plugin) : handled :=
  let '(ok, os) := ogg_stream_pagein page (oc_os codec) in
  if negb ok then Some (rejected, set_stream os codec, pl)
  else
    '(os, headers) ← packets count_packet os (oc_headers codec);
    Some (header_pages [page], set_headers headers (set_stream os codec), pl).

(** A page becomes the one to start with, in place of the one before it; and
    the one to start with is marked. *)
Definition new_start (made : nat) (start : option nat) : list store_action :=
  match start with Some n => [Release n] | None => [] end ++ [Addref made].
Definition mark_start (start : option nat) : list store_action :=
  match start with Some n => [Mark n; Release n] | None => [] end.

(** [process_theora_page]. *)
Record theora_loop := TheoraLoop {
  tl_ti : theora_info;
  tl_headers : Z;
  tl_header_page : bool;
  tl_has_keyframe : bool;
  tl_failed : bool;
  tl_plugin : plugin
}.
Definition theora_packet (packet : ogg_packet) (l : theora_loop) : option (bool * theora_loop) :=
  let '(TheoraLoop ti headers header_page key _ pl) := l in
  if theora_packet_isheader packet then
    match theora_decode_header packet ti with
    | None => Some (false, TheoraLoop ti headers header_page key true pl)
    | Some ti =>
        let headers := headers + 1 in
        Some (true, TheoraLoop ti headers true key false
          (if headers =? 3 then
             tell [StatsEvent "video_bitrate" (Some (dec (ti_target_bitrate ti)));
                   StatsEvent "video_quality" (Some (dec (ti_quality ti)));
                   StatsEvent "frame_size" (Some (dec (ti_frame_width ti) +:+ " x " +:+ dec (ti_frame_height ti)));
                   StatsEvent "frame_rate" (Some (ti_frame_rate_text ti))]%string
               (Plugin (pl_vc pl) (pl_set_tag pl) (pl_log_metadata pl) (pl_bitrate pl + ti_target_bitrate ti) (pl_effects pl))
           else pl))
    end
  else if headers <? 3 then Some (false, TheoraLoop ti headers header_page key true pl)
  else Some (true, TheoraLoop ti headers header_page (key || theora_packet_iskeyframe packet) false pl).

Definition process_theora_page (made : nat) (codec : ogg_codec) (ti : theora_info) (prev_granulepos : Z) (page : ogg_page)
    (pl : plugin) : handled :=
  let '(ok, os) := ogg_stream_pagein page (oc_os codec) in
  if negb ok then Some (rejected, set_stream os codec, pl)
  else
    let granulepos := ogg_page_granulepos page in
    '(os, l) ← packets theora_packet os (TheoraLoop ti (oc_headers codec) false false false pl);
    let codec := set_kind (Theora (tl_ti l) prev_granulepos) (set_headers (tl_headers l) (set_stream os codec)) in
    let pl := tl_plugin l in
    if tl_failed l then Some (rejected, codec, pl)
    else if tl_header_page l then Some (header_pages [page], codec, pl)
    else
      let '(acts, start) :=
        if negb (granulepos =? prev_granulepos) || (granulepos =? 0)
        then (new_start made (oc_possible_start codec), Some made)
        else ([], oc_possible_start codec) in
      let '(acts, start) := if tl_has_keyframe l then (acts ++ mark_start start, None) else (acts, start) in
      Some (queue_page page acts, set_kind (Theora (tl_ti l) granulepos) (set_possible_start start codec), pl).

(** [process_kate_page], with libkate or without. *)
Inductive kate_end := KateMore | KateFailed | KateReturn.
Record kate_loop := KateLoop {
  kl_headers_done : bool;
  kl_ki : kate_info;
  kl_num_headers : Z;
  kl_headers : Z;
  kl_header_page : bool;
  kl_end : kate_end
}.
Definition kate_packet (packet : ogg_packet) (l : kate_loop) : option (bool * kate_loop) :=
  let '(KateLoop headers_done ki num_headers headers header_page _) := l in
  if headers_done then
    if headers <? num_headers then Some (false, KateLoop headers_done ki num_headers headers header_page KateFailed)
    else Some (true, l)
  else if have_kate then
    let '(ret, ki) := kate_ogg_decode_headerin packet ki in
    if ret <? 0 then Some (false, KateLoop headers_done ki num_headers headers header_page KateFailed)
    else Some (true, KateLoop (0 <? ret) ki (ki_num_headers ki) (headers + 1) true KateMore)
  else
    match op_packet packet with
    | [] => Some (false, KateLoop headers_done ki num_headers headers false KateMore)
    | c :: _ =>
        if code c <? 128 then Some (false, KateLoop headers_done ki num_headers headers false KateMore)
        else if code c =? 128 then
          if lenZ (op_packet packet) <? 64 then Some (false, KateLoop headers_done ki num_headers (headers + 1) true KateReturn)
          else n ← op_packet packet !! 11%nat; Some (true, KateLoop headers_done ki (code n) (headers + 1) true KateMore)
        else Some (true, KateLoop headers_done ki num_headers (headers + 1) true KateMore)
    end.

Definition process_kate_page (made : nat) (codec : ogg_codec) (headers_done : bool) (ki : kate_info)
    (num_headers prev_granulepos : Z) (page : ogg_page) (pl : plugin) : handled :=
  let '(ok, os) := ogg_stream_pagein page (oc_os codec) in
  if negb ok then Some (rejected, set_stream os codec, pl)
  else
    let granulepos := ogg_page_granulepos page in
    '(os, l) ← packets kate_packet os (KateLoop headers_done ki num_headers (oc_headers codec) false KateMore);
    let kind := Kate (kl_headers_done l) (kl_ki l) (kl_num_headers l) in
    let codec := set_kind (kind prev_granulepos) (set_headers (kl_headers l) (set_stream os codec)) in
    match kl_end l with
    | KateFailed => Some (rejected, codec, pl)
    | KateReturn => Some (nothing, codec, pl)
    | KateMore =>
        if kl_header_page l then Some (header_pages [page], codec, pl)
        else
          let acts := mark_start (oc_possible_start codec) in
          let '(acts, start) :=
            if negb (granulepos =? prev_granulepos) || (granulepos =? 0) then (acts ++ new_start made None, Some made)
            else (acts, None) in
          Some (queue_page page acts, set_kind (kind granulepos) (set_possible_start start codec), pl)
    end.

(** *** [format_opus.c] *)

Definition opus_head : bytes := String.list_ascii_of_string "OpusHead".
Definition opus_tags : bytes := String.list_ascii_of_string "OpusTags".

(** [__read_header_u32be_unaligned]; [None] where it reads behind the packet. *)
Definition read_header_u32 (l : bytes) : option Z :=
  match l with
  | a :: b :: c :: d :: _ => Some (code a + 256 * code b + 65536 * code c + 16777216 * code d)
  | _ => None
  end.

(** [__handle_header_opushead]. *)
Definition handle_header_opushead (packet : bytes) (pl : plugin) : option plugin :=
  if lenZ packet <? 19 then Some pl
  else
    version ← packet !! 8%nat;
    if negb (Z.land (code version) 240 =? 0) then Some pl
    else
      channels ← packet !! 9%nat;
      rate ← read_header_u32 (drop 12 packet);
      Some (tell [StatsEvent "audio_channels" (Some (dec (code channels)));
                  StatsEvent "audio_samplerate" (Some (dec rate))]%string pl).

(** The loop of [__handle_header_opustags] over the comments that are left;
    [None] as its inner result where the header is corrupt. *)
Fixpoint opus_comments (comments : nat) (p : bytes) (left : Z) (vc : list string) : option (option (list string)) :=
  match comments with
  | O => Some (Some vc)
  | S comments =>
      next ← read_header_u32 p;
      let p := drop 4 p in
      let left := left - 4 in
      if left <? next then Some None
      else if lenZ p <? next then None
      else
        let vc := vc ++ [cstr (String.string_of_list_ascii (take (Z.to_nat next) p))] in
        let p := drop (Z.to_nat next) p in
        let left := left - next in
        if negb (Nat.eqb comments 0) && (left <? 4) then Some None
        else opus_comments comments p left vc
  end.

(** [__handle_header_opustags]. *)
Definition handle_header_opustags (packet : bytes) (pl : plugin) : option plugin :=
  if lenZ packet <? 16 then Some pl
  else
    let p := drop 8 packet in
    let left := lenZ packet - 8 in
    next ← read_header_u32 p;
    let p := drop 4 p in
    let left := left - 4 in
    if left <? u64 (next + 4) then Some pl
    else
      let p := drop (Z.to_nat next) p in
      let left := left - next in
      comments ← read_header_u32 p;
      let p := drop 4 p in
      let left := left - 4 in
      if left <? u64 (comments * 4) then Some pl
      else
        r ← opus_comments (Z.to_nat comments) p left [];
        match r with
        | None => Some (set_vc [] pl)
        | Some vc => Some (set_log_metadata true (set_vc vc pl))
        end.

(** [__handle_header]. *)
Definition handle_header (packet : ogg_packet) (pl : plugin) : option plugin :=
  let l := op_packet packet in
  if lenZ l <? 8 then Some pl
  else if bool_decide (take 8 l = opus_head) then handle_header_opushead l pl
  else if bool_decide (take 8 l = opus_tags) then handle_header_opustags l pl
  else Some pl.

(** [process_opus_page]. *)
Definition opus_packet (packet : ogg_packet) (r : Z * plugin) : option (bool * (Z * plugin)) :=
  pl ← handle_header packet r.2; Some (true, (r.1 + 1, pl)).
Definition process_opus_page (codec : ogg_codec) (page : ogg_page) (pl : plugin) : handled :=
  if oc_headers codec <? 2 then
    let '(_, os) := ogg_stream_pagein page (oc_os codec) in
    '(os, r) ← packets opus_packet os (oc_headers codec, pl);
    Some (header_pages [page], set_headers r.1 (set_stream os codec), r.2)
  else Some (queue_page page [], codec, pl).

(** ** First pages *)

(** The stream every [initial_*_page] makes of the page, with its first
    packet. *)
Definition first_packet (page : ogg_page) : packetout * ogg_stream :=
  ogg_stream_packetout (snd (ogg_stream_pagein page (ogg_stream_init (ogg_page_serialno page)))).

(** A codec that knows the packet: its name, what it is, whether the page goes
    on the list of header pages, and whether it marks the pages to start
    with. *)
Record recognised := Recognised {
  rc_name : option string;
  rc_kind : codec_kind;
  rc_attach : bool;
  rc_sync : bool
}.
Abbreviation initial := (option (option recognised * plugin)).

Definition initial_midi_page (packet : ogg_packet) (pl : plugin) : initial :=
  let l := op_packet packet in
  if (9 <=? lenZ l) && bool_decide (take 8 l = String.list_ascii_of_string "OggMIDI" ++ [NUL]) && (lenZ l =? 12)
  then Some (Some (Recognised (Some "MIDI"%string) Midi true false), pl)
  else Some (None, pl).

Definition initial_flac_page (page : ogg_page) (packet : ogg_packet) (pl : plugin) : initial :=
  if negb (lenZ (page_bytes page) =? 79) then Some (None, pl)
  else
    let l := op_packet packet in
    first ← l !! 0%nat;
    if negb (code first =? 127) then Some (None, pl)
    else if lenZ l <? 5 then None
    else if negb (bool_decide (take 4 (drop 1 l) = String.list_ascii_of_string "FLAC")) then Some (None, pl)
    else
      major ← l !! 5%nat;
      minor ← l !! 6%nat;
      Some (Some (Recognised (Some "FLAC"%string) Flac true false),
            tell [StatsEvent "FLAC_version" (Some (dec (code major) +:+ "." +:+ dec (code minor)))]%string pl).

Definition initial_speex_page (packet : ogg_packet) (pl : plugin) : initial :=
  if have_speex && (80 <=? lenZ (op_packet packet)) && speex_packet_to_header (op_packet packet)
  then Some (Some (Recognised None Speex true false), pl)
  else Some (None, pl).

Definition initial_kate_page (packet : ogg_packet) (pl : plugin) : initial :=
  if have_kate then
    let '(ret, ki) := kate_ogg_decode_headerin packet kate_info_init in
    if ret <? 0 then Some (None, pl) else Some (Some (Recognised (Some "Kate"%string) (Kate false ki 0 0) true true), pl)
  else if (9 <=? lenZ (op_packet packet)) &&
          bool_decide (take 9 (op_packet packet) = chr 128 :: String.list_ascii_of_string "kate" ++ replicate 4 NUL)
  then Some (Some (Recognised (Some "Kate"%string) (Kate false kate_info_init 0 0) true true), pl)
  else Some (None, pl).

Definition initial_skeleton_page (packet : ogg_packet) (pl : plugin) : initial :=
  let l := op_packet packet in
  if (8 <=? lenZ l) && bool_decide (take 8 l = String.list_ascii_of_string "fishead" ++ [NUL])
  then Some (Some (Recognised (Some "Skeleton"%string) Skeleton true false), pl)
  else Some (None, pl).

Definition initial_opus_page (packet : ogg_packet) (pl : plugin) : initial :=
  let l := op_packet packet in
  if (8 <=? lenZ l) && bool_decide (take 8 l = opus_head)
  then pl ← handle_header packet pl; Some (Some (Recognised (Some "Opus"%string) Opus true false), pl)
  else Some (None, pl).

Definition initial_theora_page (packet : ogg_packet) (pl : plugin) : initial :=
  if have_theora then
    match theora_decode_header packet theora_info_init with
    | Some ti => Some (Some (Recognised (Some "Theora"%string) (Theora ti 0) true true), pl)
    | None => Some (None, pl)
    end
  else Some (None, pl).
End ogg.
