(* ===== verification/OggExample.v ===== *)
(** Concrete libraries for the Ogg plugin, to run it on bytes: pages of three
    bytes and a body, every page one packet. *)

From S2P Require Import Prelude Refbuf Ebml Ogg.
Local Open Scope Z_scope.

(** A page is a serial number, a flag (1: first page) and the length of the
    body, which is the packet; the granule position of a page is that of its
    packet, the length of the body. *)
Definition toy_pageout (s : bytes) : option ogg_page * bytes :=
  match s with
  | a :: b :: n :: rest =>
      let k := Z.to_nat (code n) in
      if (k <=? length rest)%nat then (Some (OggPage [a; b; n] (take k rest)), drop k rest) else (None, s)
  | _ => (None, s)
  end.
Definition toy_serial (p : ogg_page) : Z := match pg_header p with a :: _ => code a | [] => 0 end.
Definition toy_bos (p : ogg_page) : bool := match pg_header p with _ :: b :: _ => code b =? 1 | _ => false end.

(** A stream: its number, the packets that came and those to be sent. *)
Record toy_stream := ToyStream { ty_serial : Z; ty_in : list ogg_packet; ty_out : list ogg_packet; ty_count : Z }.
Definition toy_pagein (p : ogg_page) (s : toy_stream) : bool * toy_stream :=
  if toy_serial p =? ty_serial s
  then (true, ToyStream (ty_serial s) (ty_in s ++ [OggPacket (pg_body p) false (lenZ (pg_body p)) (ty_count s)]) (ty_out s)
                (ty_count s + 1))
  else (false, s).
Definition toy_packetout (s : toy_stream) : packetout * toy_stream :=
  match ty_in s with
  | [] => (NoPacket, s)
  | p :: l => (PacketOut p, ToyStream (ty_serial s) l (ty_out s) (ty_count s))
  end.
Definition toy_packetin (p : ogg_packet) (s : toy_stream) : toy_stream :=
  ToyStream (ty_serial s) (ty_in s) (ty_out s ++ [p]) (ty_count s).
Definition toy_flush (s : toy_stream) : option ogg_page * toy_stream :=
  match ty_out s with
  | [] => (None, s)
  | p :: l => (Some (OggPage [chr (ty_serial s); chr 0; chr (lenZ (op_packet p))] (op_packet p)),
               ToyStream (ty_serial s) (ty_in s) l (ty_count s))
  end.

#[export] Instance toy_ogg : LibOgg := {|
  ogg_sync := bytes;
  ogg_stream := toy_stream;
  ogg_page_bos := toy_bos;
  ogg_page_serialno := toy_serial;
  ogg_page_granulepos := fun p => lenZ (pg_body p);
  ogg_sync_init := [];
  ogg_sync_wrote := fun l s => s ++ l;
  ogg_sync_pageout := toy_pageout;
  ogg_stream_init := fun n => ToyStream n [] [] 0;
  ogg_stream_pagein := toy_pagein;
  ogg_stream_packetout := toy_packetout;
  ogg_stream_packetin := toy_packetin;
  ogg_stream_pageout := toy_flush;
  ogg_stream_flush := toy_flush;
  ogg_sync_waiting := fun s => length s;
  ogg_stream_waiting := fun s => length (ty_in s);
  ogg_stream_unsent := fun s => length (ty_out s)
|}.

#[export] Instance toy_ogg_ok : LibOggOk.
Proof.
  split; cbn.
  - intros s p s'. unfold toy_pageout. destruct s as [|a [|b [|n rest]]]; try done. case_match; [|done].
    intros [= _ <-]. cbn. rewrite length_drop. lia.
  - intros s s'. unfold toy_pageout. destruct s as [|a [|b [|n rest]]]; try (intros [= <-]; cbn; lia). case_match; [done|].
    by intros [= <-].
  - intros s r s'. unfold toy_packetout. destruct (ty_in s) as [|p l] eqn:E; intros [= <- <-]; [done|]. cbn. lia.
  - intros s s'. unfold toy_packetout. destruct (ty_in s) as [|p l] eqn:E; [|done]. intros [= <-]. rewrite ?E. cbn. lia.
  - intros s p s'. unfold toy_flush. destruct (ty_out s) as [|q l] eqn:E; [done|]. intros [= <- <-]. cbn. lia.
  - intros s s'. unfold toy_flush. destruct (ty_out s) as [|q l] eqn:E; [|done]. intros [= <-]. rewrite ?E. cbn. lia.
Qed.

(** A Vorbis header starts with a [v], a Theora header with a [t]; a packet of
    Theora that starts with a [k] is a key frame. *)
Definition starts_with (c : ascii) (p : ogg_packet) : bool :=
  match op_packet p with d :: _ => bool_decide (c = d) | [] => false end.

#[export] Instance toy_codecs : CodecLibs := {|
  have_theora := true;
  have_speex := true;
  have_kate := false;
  vorbis_info := unit;
  vorbis_info_init := tt;
  vi_rate := fun _ => 44100;
  vi_channels := fun _ => 2;
  vi_bitrate_nominal := fun _ => 128000;
  vorbis_synthesis_headerin := fun p r => if starts_with "v" p then Some r else None;
  vorbis_packet_blocksize := fun _ p => lenZ (op_packet p);
  vorbis_comment_query := fun _ _ => None;
  vorbis_comment_query_count := fun _ _ => 0;
  vorbis_commentheader_out := fun vc => OggPacket [("v")%char; ("c")%char] false 0 1;
  theora_info := unit;
  theora_info_init := tt;
  theora_decode_header := fun p r => if starts_with "t" p then Some tt else None;
  theora_packet_isheader := starts_with "t";
  theora_packet_iskeyframe := starts_with "k";
  ti_target_bitrate := fun _ => 500000;
  ti_quality := fun _ => 0;
  ti_frame_width := fun _ => 640;
  ti_frame_height := fun _ => 480;
  ti_frame_rate_text := fun _ => "25.00"%string;
  speex_packet_to_header := fun l => match l with d :: _ => bool_decide (d = "S"%char) | [] => false end;
  kate_info := unit;
  kate_info_init := tt;
  kate_ogg_decode_headerin := fun _ _ => (-1, tt);
  ki_num_headers := fun _ => 0
|}.

(** A page of the stream [serial]. *)
Definition toy_page (serial : Z) (bos : bool) (body : string) : ogg_page :=
  OggPage [chr serial; chr (Z.b2z bos); chr (Z.of_nat (String.length body))] (String.list_ascii_of_string body).
