(* ===== verification/OggVorbis.v ===== *)
(** The Vorbis codec of the Ogg plugin, [format_vorbis.c]: a stream of Vorbis
    alone is rebuilt packet by packet, so that new comments can be put in; with
    other streams beside it its pages are passed through.

    Positions in samples are unbounded; [rand] gives the serial number of
    rebuilt streams.  The conversion of texts is a parameter. *)

From S2P Require Import Prelude Refbuf Ebml Ogg.
Local Open Scope Z_scope.

Section vorbis.
Context {lib : LibOgg} {codecs : CodecLibs}.
Variable rand : Z.
(** [config->server_id] *)
Variable server_id : string.

(** ** Setters *)

Definition set_new_os (os : ogg_stream) (v : vorbis_codec) : vorbis_codec :=
  let '(VorbisCodec vi rc sn iap _ pst pg pp g ipg sip pw iapk bos h pps proc buf) := v in
  VorbisCodec vi rc sn iap os pst pg pp g ipg sip pw iapk bos h pps proc buf.
Definition set_prev_packet (p : option ogg_packet) (v : vorbis_codec) : vorbis_codec :=
  let '(VorbisCodec vi rc sn iap os pst pg _ g ipg sip pw iapk bos h pps proc buf) := v in
  VorbisCodec vi rc sn iap os pst pg p g ipg sip pw iapk bos h pps proc buf.
Definition set_granulepos (g : Z) (v : vorbis_codec) : vorbis_codec :=
  let '(VorbisCodec vi rc sn iap os pst pg pp _ ipg sip pw iapk bos h pps proc buf) := v in
  VorbisCodec vi rc sn iap os pst pg pp g ipg sip pw iapk bos h pps proc buf.
Definition set_samples_in_page (n : Z) (v : vorbis_codec) : vorbis_codec :=
  let '(VorbisCodec vi rc sn iap os pst pg pp g ipg _ pw iapk bos h pps proc buf) := v in
  VorbisCodec vi rc sn iap os pst pg pp g ipg n pw iapk bos h pps proc buf.
Definition set_prev_window (n : Z) (v : vorbis_codec) : vorbis_codec :=
  let '(VorbisCodec vi rc sn iap os pst pg pp g ipg sip _ iapk bos h pps proc buf) := v in
  VorbisCodec vi rc sn iap os pst pg pp g ipg sip n iapk bos h pps proc buf.
Definition set_initial_audio_packet (b : bool) (v : vorbis_codec) : vorbis_codec :=
  let '(VorbisCodec vi rc sn iap os pst pg pp g ipg sip pw _ bos h pps proc buf) := v in
  VorbisCodec vi rc sn iap os pst pg pp g ipg sip pw b bos h pps proc buf.
Definition set_process_packet (f : process_packet) (v : vorbis_codec) : vorbis_codec :=
  let '(VorbisCodec vi rc sn iap os pst pg pp g ipg sip pw iapk bos h pps _ buf) := v in
  VorbisCodec vi rc sn iap os pst pg pp g ipg sip pw iapk bos h pps f buf.
Definition set_get_buffer_page (f : get_buffer_page) (v : vorbis_codec) : vorbis_codec :=
  let '(VorbisCodec vi rc sn iap os pst pg pp g ipg sip pw iapk bos h pps proc _) := v in
  VorbisCodec vi rc sn iap os pst pg pp g ipg sip pw iapk bos h pps proc f.
Definition set_notify (rebuild notify : bool) (v : vorbis_codec) : vorbis_codec :=
  let '(VorbisCodec vi _ _ iap os pst pg pp g ipg sip pw iapk bos h pps proc buf) := v in
  VorbisCodec vi rebuild notify iap os pst pg pp g ipg sip pw iapk bos h pps proc buf.

(** ** Rebuilding a stream *)

Definition set_packet_granulepos (g : Z) (p : ogg_packet) : ogg_packet :=
  OggPacket (op_packet p) (op_e_o_s p) g (op_packetno p).
Definition set_e_o_s (b : bool) (p : ogg_packet) : ogg_packet :=
  OggPacket (op_packet p) b (op_granulepos p) (op_packetno p).

(** [add_audio_packet], with the packet as it leaves it. *)
Definition add_audio_packet (packet : ogg_packet) (v : vorbis_codec) : ogg_packet * vorbis_codec :=
  let '(packet, v) :=
    if vb_initial_audio_packet v then (set_packet_granulepos 0 packet, set_initial_audio_packet false v)
    else
      let '(VorbisCodec vi rc sn iap os pst pg pp g ipg sip pw iapk bos h pps proc buf) := v in
      (packet,
       VorbisCodec vi rc sn iap os pst (op_granulepos packet) pp (g + pw) ipg (sip + (op_granulepos packet - pg)) pw iapk bos
         h pps proc buf) in
  (packet, set_new_os (ogg_stream_packetin packet (vb_new_os v)) v).

(** A page of the new stream: the samples in it are counted. *)
Definition take_page (page : ogg_page) (v : vorbis_codec) : vorbis_codec :=
  let '(VorbisCodec vi rc sn iap os pst pg pp g ipg sip pw iapk bos h pps proc buf) := v in
  VorbisCodec vi rc sn iap os pst pg pp g ipg (sip - (ogg_page_granulepos page - pps)) pw iapk bos h
    (ogg_page_granulepos page) proc buf.

(** [get_buffer_audio]. *)
Definition get_buffer_audio (v : vorbis_codec) : option ogg_page * vorbis_codec :=
  let get_ogg_page := if vb_page_samples_trigger v <? vb_samples_in_page v then ogg_stream_flush else ogg_stream_pageout in
  match get_ogg_page (vb_new_os v) with
  | (Some page, os) => (Some page, take_page page (set_new_os os v))
  | (None, os) => (None, set_new_os os v)
  end.

(** [get_buffer_header]. *)
Fixpoint flush_headers (fuel : nat) (os : ogg_stream) : option (list ogg_page * ogg_stream) :=
  match fuel with
  | O => None
  | S fuel' =>
      match ogg_stream_flush os with
      | (Some page, os) => '(l, os) ← flush_headers fuel' os; Some (page :: l, os)
      | (None, os) => Some ([], os)
      end
  end.
Definition get_buffer_header (v : vorbis_codec) : option (list ogg_page * vorbis_codec) :=
  '(l, os) ← flush_headers (S (ogg_stream_unsent (vb_new_os v))) (vb_new_os v);
  let v := set_new_os os v in
  Some (l, match l with [] => v | _ => set_get_buffer_page BufferAudio v end).

(** [get_buffer_finished]: a page, or the header pages are given up. *)
Definition get_buffer_finished (v : vorbis_codec) : option ogg_page * list store_action * vorbis_codec :=
  match ogg_stream_flush (vb_new_os v) with
  | (Some page, os) => (Some page, [], take_page page (set_new_os os v))
  | (None, _) =>
      let v := set_get_buffer_page NoBuffer (set_new_os (ogg_stream_init rand) v) in
      let v := set_process_packet (match vb_prev_packet v with Some _ => ProcessHeaders | None => NoProcess end) v in
      (None, [FreeHeaders], if vb_initial_audio_packet v then v else set_prev_window 0 v)
  end.

(** [initiate_flush]. *)
Definition initiate_flush (v : vorbis_codec) : vorbis_codec :=
  let v :=
    match vb_prev_packet v with
    | Some p => let '(p, v) := add_audio_packet (set_e_o_s true p) v in set_prev_packet (Some (set_e_o_s false p)) v
    | None => v
    end in
  set_initial_audio_packet true (set_get_buffer_page BufferFinished v).

(** One packet of [process_vorbis_audio]: whether it returns then. *)
Definition vorbis_audio_packet (packet : ogg_packet) (v : vorbis_codec) : bool * vorbis_codec :=
  let window := Z.quot (vorbis_packet_blocksize (vb_vi v) packet) 4 in
  let v := set_granulepos (vb_granulepos v + window) v in
  let '(packet, v) :=
    match vb_prev_packet v with
    | Some prev =>
        let '(_, v) := add_audio_packet prev v in
        let initial := vb_initial_page_granulepos v in
        let v := if (op_packetno packet =? 4) && (initial <? vb_granulepos v)
                 then set_samples_in_page (vb_page_samples_trigger v) (set_granulepos (vb_granulepos v - initial) v) else v in
        let v := if (op_granulepos packet =? initial) && (vb_granulepos v <? initial) then set_granulepos initial v else v in
        (if op_e_o_s packet then packet else set_packet_granulepos (vb_granulepos v) packet, v)
    | None => (set_packet_granulepos 0 packet, v)
    end in
  let v := set_prev_packet (Some packet) (set_prev_window window v) in
  if op_e_o_s packet then (true, set_prev_packet None (initiate_flush v))
  else (vb_page_samples_trigger v <? vb_samples_in_page v, v).

(** [process_vorbis_audio]: whether there is more to do. *)
Fixpoint process_vorbis_audio (fuel : nat) (os : ogg_stream) (v : vorbis_codec) : option (bool * ogg_stream * vorbis_codec) :=
  match fuel with
  | O => None
  | S fuel' =>
      match ogg_stream_packetout os with
      | (PacketOut packet, os) =>
          let '(stop, v) := vorbis_audio_packet packet v in
          if stop : bool then Some (true, os, v) else process_vorbis_audio fuel' os v
      | (_, os) =>
          if vb_stream_notify v then Some (true, os, set_notify (vb_rebuild_comment v) false (initiate_flush v))
          else Some (false, os, v)
      end
  end.

(** [format_set_vorbiscomment] of [format.c]. *)
Definition is_comment (tag comment : string) : bool :=
  strcaseeq (string_take (String.length tag) comment) tag &&
  streq (string_take 1 (string_drop (String.length tag) comment)) "=".
Definition format_set_vorbiscomment (tag value : string) (vc : list string) : list string :=
  (if vorbis_comment_query_count vc tag =? 0 then vc else filter (fun c => is_comment tag c = false) vc) ++
  [tag +:+ "=" +:+ value]%string.

(** [process_vorbis_headers]: whether there were headers. *)
Definition process_vorbis_headers (v : vorbis_codec) (pl : plugin) : option (bool * vorbis_codec * plugin) :=
  match vb_header v with
  | [] => Some (false, v, pl)
  | [h0; h1; h2] =>
      let os := ogg_stream_packetin h0 (vb_new_os v) in
      let '(os, pl) :=
        if vb_rebuild_comment v then
          let vc := format_set_vorbiscomment "server" server_id (pl_vc pl) in
          (ogg_stream_packetin (vorbis_commentheader_out vc) os, set_vc vc pl)
        else (ogg_stream_packetin h1 os, pl) in
      let os := ogg_stream_packetin h2 os in
      let v := set_notify false (vb_stream_notify v) (set_new_os os v) in
      let v := set_process_packet ProcessAudio (set_get_buffer_page BufferHeader v) in
      Some (true, set_initial_audio_packet true (set_granulepos (vb_prev_window v) v), set_log_metadata true pl)
  | _ => None
  end.

(** The calls of [get_buffer_page] and of [process_packet]. *)
Definition call_get_buffer_page (v : vorbis_codec) : option (option ogg_page * list store_action * vorbis_codec) :=
  match vb_get_buffer_page v with
  | NoBuffer => Some (None, [], v)
  | BufferHeader => '(l, v) ← get_buffer_header v; Some (None, map Attach l, v)
  | BufferAudio => let '(page, v) := get_buffer_audio v in Some (page, [], v)
  | BufferFinished => Some (get_buffer_finished v)
  end.
Definition call_process_packet (os : ogg_stream) (v : vorbis_codec) (pl : plugin) :
    option (bool * ogg_stream * vorbis_codec * plugin) :=
  match vb_process_packet v with
  | NoProcess => Some (false, os, v, pl)
  | ProcessHeaders => '(more, v, pl) ← process_vorbis_headers v pl; Some (more, os, v, pl)
  | ProcessAudio => '(more, os, v) ← process_vorbis_audio (S (ogg_stream_waiting os)) os v; Some (more, os, v, pl)
  end.

(** [process_vorbis]: what is done to buffers, the page for the queue, and
    what is left. *)
Fixpoint process_vorbis (fuel : nat) (os : ogg_stream) (v : vorbis_codec) (pl : plugin) :
    option (list store_action * option ogg_page * ogg_stream * vorbis_codec * plugin) :=
  match fuel with
  | O => None
  | S fuel' =>
      '(page, acts, v) ← call_get_buffer_page v;
      match page with
      | Some _ => Some (acts, page, os, v, pl)
      | None =>
          '(more, os, v, pl) ← call_process_packet os v pl;
          if more : bool then
            '(acts', page, os, v, pl) ← process_vorbis fuel' os v pl; Some (acts ++ acts', page, os, v, pl)
          else Some (acts, None, os, v, pl)
      end
  end.
End vorbis.
