(* ===== verification/OggPlugin.v ===== *)
(** The Ogg plugin itself, [format_ogg.c]: the recognition of streams by their
    first pages, the way of a page to its codec, the next buffer of a source,
    and the writing of pages and their headers to listeners and to the dump
    file. *)

From S2P Require Import Prelude Refbuf Ebml Ogg OggVorbis.
Local Open Scope Z_scope.

Section plugin.
Context {lib : LibOgg} {codecs : CodecLibs}.
Variable rand : Z.
Variable server_id : string.

Abbreviation handled := (option (reply * ogg_codec * plugin)).
Abbreviation initial := (option (option recognised * plugin)).

(** ** Vorbis pages *)

(** The codec [initial_vorbis_page] makes; any page it looks at takes away the
    comments. *)
Definition new_vorbis (vi : vorbis_info) (packet : ogg_packet) (page : ogg_page) : vorbis_codec :=
  VorbisCodec vi false false false (ogg_stream_init rand) 0 0 None 0 0 0 0 false page [packet] 0 NoProcess NoBuffer.
Definition initial_vorbis_page (page : ogg_page) (packet : ogg_packet) (pl : plugin) : option recognised * plugin :=
  match vorbis_synthesis_headerin packet (vorbis_info_init, []) with
  | None => (None, set_vc [] pl)
  | Some (vi, vc) =>
      (Some (Recognised (Some "Vorbis"%string) (Vorbis (new_vorbis vi packet page) false) false false),
       Plugin vc true (pl_log_metadata pl) (pl_bitrate pl) (pl_effects pl))
  end.

(** The loop of [process_vorbis_page] over the packets of headers. *)
Record vorbis_headers := VorbisHeaders {
  vh_vi : vorbis_info;
  vh_vc : list string;
  vh_header : list ogg_packet;
  vh_failed : bool
}.
Fixpoint vorbis_header_packets (missing : nat) (os : ogg_stream) (h : vorbis_headers) : ogg_stream * vorbis_headers :=
  match missing with
  | O => (os, h)
  | S missing =>
      match ogg_stream_packetout os with
      | (PacketOut header, os) =>
          match vorbis_synthesis_headerin header (vh_vi h, vh_vc h) with
          | None => (os, VorbisHeaders (vh_vi h) (vh_vc h) (vh_header h) true)
          | Some (vi, vc) =>
              vorbis_header_packets missing os
                (VorbisHeaders vi vc (vh_header h ++ [set_packet_granulepos 0 header]) false)
          end
      | (_, os) => (os, h)
      end
  end.

Definition set_vorbis_headers (vi : vorbis_info) (h : list ogg_packet) (v : vorbis_codec) : vorbis_codec :=
  let '(VorbisCodec _ rc sn iap os pst pg pp g ipg sip pw iapk bos _ pps proc buf) := v in
  VorbisCodec vi rc sn iap os pst pg pp g ipg sip pw iapk bos h pps proc buf.
Definition set_first_page (granulepos : Z) (v : vorbis_codec) : vorbis_codec :=
  let '(VorbisCodec vi rc sn _ os pst pg pp g _ sip pw iapk bos h pps proc buf) := v in
  VorbisCodec vi rc sn false os pst pg pp g granulepos sip pw iapk bos h pps proc buf.
Definition start_rebuilding (v : vorbis_codec) : vorbis_codec :=
  let '(VorbisCodec vi rc sn _ os _ pg pp g ipg sip pw iapk bos h pps _ buf) := v in
  VorbisCodec vi rc sn true os (Z.quot (vi_rate vi) 2) pg pp g ipg sip pw iapk bos h pps ProcessHeaders buf.

(** [process_vorbis_page]; [alone]: there is no other codec. *)
Definition process_vorbis_page (alone : bool) (codec : ogg_codec) (v : vorbis_codec) (page : ogg_page) (pl : plugin) :
    reply * ogg_codec * plugin :=
  let '(ok, os) := ogg_stream_pagein page (oc_os codec) in
  let codec := set_stream os codec in
  if negb ok then (rejected, codec, pl)
  else if oc_headers codec =? 3 then
    (nothing, if vb_initial_audio_page v then set_kind (Vorbis (set_first_page (ogg_page_granulepos page) v) false) codec
              else codec, pl)
  else
    let '(os, h) :=
      vorbis_header_packets (Z.to_nat (3 - oc_headers codec)) os (VorbisHeaders (vb_vi v) (pl_vc pl) (vb_header v) false) in
    let v := set_vorbis_headers (vh_vi h) (vh_header h) v in
    let headers := Z.of_nat (length (vh_header h)) in
    let codec := set_kind (Vorbis v false) (set_headers headers (set_stream os codec)) in
    let pl := set_vc (vh_vc h) pl in
    if vh_failed h then (rejected, codec, pl)
    else if headers <? 3 then (if alone then nothing else header_pages [page], codec, pl)
    else
      let pl := tell [StatsEvent "audio_samplerate" (Some (dec (vi_rate (vh_vi h))));
                      StatsEvent "audio_channels" (Some (dec (vi_channels (vh_vi h))));
                      StatsEvent "audio_bitrate" (Some (dec (vi_bitrate_nominal (vh_vi h))));
                      StatsEvent "ice-bitrate" (Some (dec (Z.quot (vi_bitrate_nominal (vh_vi h)) 1000)))]%string
                     (set_log_metadata true pl) in
      if alone then (nothing, set_kind (Vorbis (start_rebuilding v) false) codec, pl)
      else (header_pages [vb_bos_page v; page], set_kind (Vorbis v true) codec, pl).

(** [vorbis_set_tag]: [None] where the only codec is not Vorbis and its data is
    taken for that of one. *)
Definition vorbis_set_tag (util_conv_string : string -> option string) (tag : option (string * string)) (s : ogg_state) :
    option ogg_state :=
  match og_codecs s with
  | [codec] =>
      match tag with
      | None =>
          match oc_kind codec with
          | Vorbis v b => Some (set_codecs [set_kind (Vorbis (set_notify true true v) b) codec] s)
          | _ => None
          end
      | Some (tag, in_value) =>
          let value := default in_value (util_conv_string in_value) in
          let tag := if streq tag "song" then "title"%string else tag in
          Some (set_plugin (set_vc (format_set_vorbiscomment tag value (pl_vc (og_plugin s))) (og_plugin s)) s)
      end
  | _ => Some s
  end.

(** ** Streams *)

(** [codec_free]: the statistics that go. *)
Definition codec_free (codec : ogg_codec) : list ogg_effect :=
  let gone name := StatsEvent name None in
  match oc_kind codec with
  | Vorbis _ _ => gone <$> ["audio_bitrate"; "audio_channels"; "audio_samplerate"]%string
  | Theora _ _ => gone <$> ["video_bitrate"; "video_quality"; "frame_rate"; "frame_size"]%string
  | Flac => [gone "FLAC_version"%string]
  | Opus => gone <$> ["audio_channels"; "audio_samplerate"]%string
  | _ => []
  end.

Definition release_start (codec : ogg_codec) : list store_action :=
  match oc_possible_start codec with Some n => [Release n] | None => [] end.

(** [free_ogg_codecs]. *)
Definition free_ogg_codecs (s : ogg_state) : list store_action * ogg_state :=
  (FreeHeaders :: concat (release_start <$> og_codecs s),
   OggState (tell (concat (codec_free <$> og_codecs s)) (og_plugin s)) (og_oy s) (og_error s) 0 [] false None
     (og_codec_sync s) (og_read_bytes s) (og_running s) (og_next_id s) (og_made s)).

(** The codec that knows the page, in the order in which they are asked. *)
Definition ask_codec (r : option recognised * plugin) (next : plugin -> initial) : initial :=
  match r with (Some c, pl) => Some (Some c, pl) | (None, pl) => next pl end.
Definition recognise (page : ogg_page) (packet : ogg_packet) (pl : plugin) : initial :=
  ask_codec (initial_vorbis_page page packet pl) (fun pl =>
  r ← initial_theora_page packet pl; ask_codec r (fun pl =>
  r ← initial_midi_page packet pl; ask_codec r (fun pl =>
  r ← initial_flac_page page packet pl; ask_codec r (fun pl =>
  r ← initial_speex_page packet pl; ask_codec r (fun pl =>
  r ← initial_kate_page packet pl; ask_codec r (fun pl =>
  r ← initial_skeleton_page packet pl; ask_codec r (fun pl =>
  initial_opus_page packet pl))))))).

(** [process_initial_page]. *)
Definition process_initial_page (page : ogg_page) (s : ogg_state) : option (list store_action * ogg_state) :=
  let '(acts, s) :=
    if og_bos_completed s then
      let pl := og_plugin s in
      free_ogg_codecs
        (OggState (Plugin (pl_vc pl) (pl_set_tag pl) (pl_log_metadata pl) 0 (pl_effects pl)) (og_oy s) (og_error s)
           (og_codec_count s) (og_codecs s) (og_bos_completed s) (og_current s) None (og_read_bytes s) (og_running s)
           (og_next_id s) (og_made s))
    else ([], s) in
  if 10 <? og_codec_count s then Some (acts, set_og_error s)
  else
    match first_packet page with
    | (PacketOut packet, os) =>
        '(r, pl) ← recognise page packet (og_plugin s);
        match r with
        | None => Some (acts, set_og_error (set_plugin pl s))
        | Some c =>
            let codec := OggCodec (og_next_id s) (ogg_page_serialno page) os 1 (rc_name c) None (rc_kind c) in
            Some (acts ++ (if rc_attach c then [Attach page] else []),
                  OggState pl (og_oy s) (og_error s) (og_codec_count s + 1) (codec :: og_codecs s) (og_bos_completed s)
                    (og_current s) (if rc_sync c then Some (og_next_id s) else og_codec_sync s) (og_read_bytes s)
                    (og_running s) (og_next_id s + 1) (og_made s))
        end
    | _ => None
    end.

(** The handlers of pages. *)
Definition process_page (made : nat) (alone : bool) (codec : ogg_codec) (page : ogg_page) (pl : plugin) : handled :=
  match oc_kind codec with
  | Vorbis v false => Some (process_vorbis_page alone codec v page pl)
  | Vorbis v true => Some (queue_page page [], codec, pl)
  | Theora ti prev => process_theora_page made codec ti prev page pl
  | Midi => process_midi_page codec page pl
  | Flac => process_flac_page codec page pl
  | Speex => process_speex_page codec page pl
  | Kate done ki n prev => process_kate_page made codec done ki n prev page pl
  | Skeleton => process_skeleton_page codec page pl
  | Opus => process_opus_page codec page pl
  end.

(** [process_ogg_page]: the first codec with the page's number gets it. *)
Fixpoint replace_codec (codec : ogg_codec) (l : list ogg_codec) : list ogg_codec :=
  match l with
  | [] => []
  | c :: l => if oc_id c =? oc_id codec then codec :: l else c :: replace_codec codec l
  end.
Definition process_ogg_page (page : ogg_page) (s : ogg_state) : option (list store_action * bool * ogg_state) :=
  match find (fun c => oc_serialno c =? ogg_page_serialno page) (og_codecs s) with
  | None => Some ([], false, set_current None s)
  | Some codec =>
      '(r, codec, pl) ← process_page (og_made s) (match og_codecs s with [_] => true | _ => false end) codec page (og_plugin s);
      let s := set_current (Some (oc_id codec)) (set_codecs (replace_codec codec (og_codecs s)) (set_plugin pl s)) in
      let s := if rp_error r then set_og_error s else s in
      Some (rp_actions r, rp_queued r, if rp_queued r then made_one s else s)
  end.

(** ** The next buffer *)

(** [update_comments]. *)
Definition codec_names (l : list ogg_codec) : string :=
  foldl (fun names c =>
    match oc_name c with
    | Some name =>
        (names +:+ fst (snprintf (100 - String.length names)
           ((if streq names EmptyString then EmptyString else "/") +:+ name)))%string
    | None => names
    end) EmptyString l.
Definition update_comments (s : ogg_state) : ogg_state :=
  let vc := pl_vc (og_plugin s) in
  let title := vorbis_comment_query vc "TITLE" in
  let artist := vorbis_comment_query vc "ARTIST" in
  let metadata := match artist, title with
                  | Some a, Some t => Some (a +:+ " - " +:+ t)%string
                  | Some a, None => Some a
                  | None, t => t
                  end in
  set_plugin (tell (match metadata with Some m => [PlaylistLog m] | None => [] end ++
                    [StatsEvent "artist" artist; StatsEvent "title" title; PushTrack vc;
                     StatsEvent "subtype" (Some (codec_names (og_codecs s))); YpTouch]) (og_plugin s)) s.

(** [complete_buffer]. *)
Definition complete_buffer (n : nat) (s : ogg_state) : list store_action * ogg_state :=
  let s := if pl_log_metadata (og_plugin s)
           then let s := update_comments s in set_plugin (set_log_metadata false (og_plugin s)) s else s in
  (Complete n :: match og_codec_sync s with None => [Mark n] | Some _ => [] end, s).

(** The codec that was just given a page is asked for a buffer, if it has
    something to do then. *)
Definition current_codec (s : ogg_state) : option (ogg_codec * vorbis_codec * bool) :=
  id ← og_current s;
  codec ← find (fun c => oc_id c =? id) (og_codecs s);
  match oc_kind codec with Vorbis v b => Some (codec, v, b) | _ => None end.

(** Enough turns of [process_vorbis]: each takes a packet, or changes from one
    stream to the next. *)
Definition vorbis_turns (os : ogg_stream) : nat := 8 + ogg_stream_waiting os.

Definition process_current (s : ogg_state) : option (list store_action * bool * ogg_state) :=
  match current_codec s with
  | Some (codec, v, b) =>
      '(acts, page, os, v, pl) ← process_vorbis rand server_id (vorbis_turns (oc_os codec)) (oc_os codec) v (og_plugin s);
      let s := set_plugin pl (set_codecs (replace_codec (set_kind (Vorbis v b) (set_stream os codec)) (og_codecs s)) s) in
      Some (match page with
            | Some page => (acts ++ [Make page], true, made_one s)
            | None => (acts, false, set_current None s)
            end)
  | None => Some ([], false, s)
  end.

(** One turn of the loops of [ogg_get_buffer]: what is done to buffers, and
    then the function returns, with the number of a page for the queue or
    without one, or goes on. *)
Inductive turn := Return (buffer : option nat) | Again.

Definition return_buffer (acts : list store_action) (s : ogg_state) (c : conn) :
    option (list store_action * turn * ogg_state * conn) :=
  let n := (og_made s - 1)%nat in
  let '(more, s) := complete_buffer n s in
  Some (acts ++ more, Return (Some n), s, c).

Definition page_turn (page : ogg_page) (s : ogg_state) (c : conn) : option (list store_action * turn * ogg_state * conn) :=
  '(acts, buffer, s) ← (if ogg_page_bos page then '(acts, s) ← process_initial_page page s; Some (acts, false, s)
                        else process_ogg_page page (set_bos_completed s));
  if og_error s then Some (acts, Return None, stop_running s, c)
  else if buffer : bool then return_buffer acts s c
  else Some (acts, Again, s, c).

Definition read_turn (s : ogg_state) (c : conn) : list store_action * turn * ogg_state * conn :=
  match connection_read 4096 c with
  | (None, c) | (Some [], c) => ([], Return None, set_oy (ogg_sync_wrote [] (og_oy s)) s, c)
  | (Some data, c) => ([], Again, add_read_bytes (lenZ data) (set_oy (ogg_sync_wrote data (og_oy s)) s), c)
  end.

Definition ogg_turn (s : ogg_state) (c : conn) : option (list store_action * turn * ogg_state * conn) :=
  '(acts, buffer, s) ← process_current s;
  if buffer : bool then return_buffer acts s c
  else
    '(more, t, s, c) ← (match ogg_sync_pageout (og_oy s) with
                        | (Some page, oy) => page_turn page (set_oy oy s) c
                        | (None, oy) => Some (read_turn (set_oy oy s) c)
                        end);
    Some (acts ++ more, t, s, c).

(** [ogg_get_buffer]. *)
Fixpoint ogg_get_buffer (fuel : nat) (s : ogg_state) (c : conn) : option (list store_action * option nat * ogg_state * conn) :=
  match fuel with
  | O => None
  | S fuel' =>
      '(acts, t, s, c) ← ogg_turn s c;
      match t with
      | Return r => Some (acts, r, s, c)
      | Again => '(more, r, s, c) ← ogg_get_buffer fuel' s c; Some (acts ++ more, r, s, c)
      end
  end.

(** [format_ogg_get_plugin], with the type of content, and
    [format_ogg_free_plugin]. *)
Definition format_ogg_get_plugin (contenttype : string) : string * ogg_state :=
  (if streq contenttype "application/x-ogg" then "application/ogg"%string else contenttype,
   OggState (Plugin [] false false 0 []) ogg_sync_init false 0 [] false None None 0 true 0 0).
Definition format_ogg_free_plugin (s : ogg_state) : list store_action := (free_ogg_codecs s).1.
End plugin.

(** ** Listeners *)

(** [struct ogg_client]. *)
Record ogg_client := OggClient {
  lc_headers : option ptr;
  lc_header_page : option ptr;
  lc_pos : Z;
  lc_headers_sent : bool
}.

(** A listener with its place in its buffer, the answers of its connection to
    come and the bytes it has been sent. *)
Record ogg_listener := OggListener {
  ol_client : ogg_client;
  ol_pos : Z;
  ol_net : list Z;
  ol_sent : bytes
}.

Definition create_ogg_client_data : ogg_client := OggClient None None 0 true.

(** [client_send_bytes]: the connection fails or takes some of the bytes. *)
Definition ogg_send_bytes (data : bytes) (w : ogg_listener) : Z * ogg_listener :=
  let '(a, net) := match ol_net w with [] => (-1, []) | a :: r => (a, r) end in
  let ret := if a <? 0 then -1 else Z.min a (lenZ data) in
  (ret, OggListener (ol_client w) (ol_pos w) net (ol_sent w ++ take (Z.to_nat ret) data)).

Definition set_client (c : ogg_client) (w : ogg_listener) : ogg_listener := OggListener c (ol_pos w) (ol_net w) (ol_sent w).
Definition advance (n : Z) (w : ogg_listener) : ogg_listener :=
  OggListener (ol_client w) (ol_pos w + n) (ol_net w) (ol_sent w).

(** A page that is followed through a pointer. *)
Definition read_page (s : page_store) (p : ptr) : option (refbuf * bytes) :=
  r ← ps_heap s !! p; d ← ps_data s !! p; Some (r, d).

(** The loop of [send_ogg_headers] over the pages from [header_page]. *)
Fixpoint send_header_pages (fuel : nat) (s : page_store) (headers : option ptr) (written : Z) (w : ogg_listener) :
    option (Z * ogg_listener) :=
  let c := ol_client w in
  match fuel, lc_header_page c with
  | _, None => Some (written, set_client (OggClient headers None (lc_pos c) true) w)
  | O, Some _ => None
  | S fuel', Some refbuf =>
      '(r, d) ← read_page s refbuf;
      let data := drop (Z.to_nat (lc_pos c)) d in
      let '(ret, w) := ogg_send_bytes data w in
      let written := if 0 <? ret then written + ret else written in
      if ret <? lenZ data then Some (if written =? 0 then -1 else written, w)
      else send_header_pages fuel' s headers written (set_client (OggClient (lc_headers c) (rb_next r) 0 (lc_headers_sent c)) w)
  end.

(** [send_ogg_headers]. *)
Definition send_ogg_headers (s : page_store) (headers : option ptr) (w : ogg_listener) : option (Z * ogg_listener) :=
  let c := ol_client w in
  let w := if lc_headers_sent c then set_client (OggClient (lc_headers c) headers 0 false) w else w in
  send_header_pages (size (ps_heap s)) s headers 0 w.

(** [write_buf_to_client]. *)
Definition write_ogg_page (data : bytes) (written : Z) (w : ogg_listener) : Z * ogg_listener :=
  let data := drop (Z.to_nat (ol_pos w)) data in
  let '(ret, w) := ogg_send_bytes data w in
  let w := if 0 <? ret then advance ret w else w in
  (if 0 <? ret then written + ret else written, w).
Definition write_buf_to_client (s : page_store) (refbuf : ptr) (w : ogg_listener) : option (Z * ogg_listener) :=
  '(r, d) ← read_page s refbuf;
  if bool_decide (lc_headers (ol_client w) = rb_assoc r) then Some (write_ogg_page d 0 w)
  else
    '(ret, w) ← send_ogg_headers s (rb_assoc r) w;
    if negb (lc_headers_sent (ol_client w)) then Some (if 0 <? ret then ret else 0, w)
    else Some (write_ogg_page d ret w).

(** ** The dump file *)

(** [write_ogg_data], with what [fwrite] manages: the bytes in the file, and
    [None] once a write has failed. *)
Definition write_ogg_data (writes_all : bytes -> bool) (data file : bytes) : option bytes :=
  if writes_all data then Some (file ++ data) else None.

(** [write_ogg_to_file]: the file and [file_headers]; the outer [None] where a
    page is not there. *)
Fixpoint write_header_pages (fuel : nat) (writes_all : bytes -> bool) (s : page_store) (header : option ptr) (file : bytes) :
    option (option bytes) :=
  match fuel, header with
  | _, None => Some (Some file)
  | O, Some _ => None
  | S fuel', Some p =>
      '(r, d) ← read_page s p;
      match write_ogg_data writes_all d file with
      | None => Some None
      | Some file => write_header_pages fuel' writes_all s (rb_next r) file
      end
  end.
Definition write_ogg_to_file (writes_all : bytes -> bool) (s : page_store) (refbuf : ptr) (file_headers : option ptr)
    (file : bytes) : option (option bytes * option ptr) :=
  '(r, d) ← read_page s refbuf;
  if bool_decide (file_headers = rb_assoc r) then Some (write_ogg_data writes_all d file, file_headers)
  else
    f ← write_header_pages (size (ps_heap s)) writes_all s (rb_assoc r) file;
    match f with
    | None => Some (None, file_headers)
    | Some file => Some (write_ogg_data writes_all d file, rb_assoc r)
    end.
