(* ===== verification/OggStore.v ===== *)
(** The buffers of the Ogg plugin: what is done to them on the heap of
    [Refbuf.v] means what it would mean if every page for the queue had its
    own copy of the header pages, as long as no header page comes after a page
    that has got the list already. *)

From S2P Require Import Prelude Refbuf Ebml Ogg OggExample.
Local Open Scope Z_scope.

(** ** Buffers with copies *)

(** A page made for the queue: its bytes, the header pages it was given, if it
    was given any, its mark and the references to it. *)
Record spec_buffer := SpecBuffer {
  sb_data : bytes;
  sb_headers : option (list bytes);
  sb_sync : bool;
  sb_refs : nat
}.

(** The first pages and the other header pages, whether they were given to a
    page yet, and the pages made so far. *)
Record spec_store := SpecStore {
  sp_bos : list bytes;
  sp_rest : list bytes;
  sp_used : bool;
  sp_buffers : list spec_buffer
}.

Definition set_refs (n : nat) (b : spec_buffer) : spec_buffer := SpecBuffer (sb_data b) (sb_headers b) (sb_sync b) n.
Definition set_buffer (n : nat) (b : spec_buffer) (s : spec_store) : spec_store :=
  SpecStore (sp_bos s) (sp_rest s) (sp_used s) (<[n := b]> (sp_buffers s)).

(** The buffer [n], while it is referred to. *)
Definition held (n : nat) (s : spec_store) : option spec_buffer :=
  b ← sp_buffers s !! n; if (0 <? sb_refs b)%nat then Some b else None.

Section spec.
Context {lib : LibOgg}.

Definition spec_headers (s : spec_store) : list bytes := sp_bos s ++ sp_rest s.

(** [None]: a buffer nobody refers to, a second list for a page, or a header
    page that comes too late. *)
Definition spec_exec (a : store_action) (s : spec_store) : option spec_store :=
  match a with
  | Attach page =>
      if sp_used s then None
      else if ogg_page_bos page then Some (SpecStore (sp_bos s ++ [page_bytes page]) (sp_rest s) false (sp_buffers s))
      else Some (SpecStore (sp_bos s) (sp_rest s ++ [page_bytes page]) false (sp_buffers s))
  | FreeHeaders => Some (SpecStore [] [] false (sp_buffers s))
  | Make page =>
      Some (SpecStore (sp_bos s) (sp_rest s) (sp_used s) (sp_buffers s ++ [SpecBuffer (page_bytes page) None false 1]))
  | Addref n => b ← held n s; Some (set_buffer n (set_refs (S (sb_refs b)) b) s)
  | Release n => b ← held n s; Some (set_buffer n (set_refs (pred (sb_refs b)) b) s)
  | Mark n => b ← held n s; Some (set_buffer n (SpecBuffer (sb_data b) (sb_headers b) true (sb_refs b)) s)
  | Complete n =>
      b ← held n s;
      match sb_headers b with
      | Some _ => None
      | None =>
          let s := set_buffer n (SpecBuffer (sb_data b) (Some (spec_headers s)) (sb_sync b) (sb_refs b)) s in
          Some (SpecStore (sp_bos s) (sp_rest s) (sp_used s || negb (bool_decide (spec_headers s = []))) (sp_buffers s))
      end
  end.

Fixpoint spec_run (l : list store_action) (s : spec_store) : option spec_store :=
  match l with
  | [] => Some s
  | a :: l => s ← spec_exec a s; spec_run l s
  end.

Definition empty_spec : spec_store := SpecStore [] [] false [].

(** ** What a release leaves *)

Definition keeps (h h' : heap) : Prop :=
  forall q r', h' !! q = Some r' ->
    exists r, h !! q = Some r /\ rb_next r' = rb_next r /\ rb_assoc r' = rb_assoc r /\ rb_sync r' = rb_sync r.

Lemma keeps_refl h : keeps h h.
Proof. intros q r H. eauto. Qed.

Lemma keeps_trans h1 h2 h3 : keeps h1 h2 -> keeps h2 h3 -> keeps h1 h3.
Proof.
  intros K1 K2 q r H. destruct (K2 q r H) as (r2 & H2 & -> & -> & ->). destruct (K1 q r2 H2) as (r1 & H1 & -> & -> & ->).
  eauto.
Qed.

Lemma keeps_delete h p : keeps h (delete p h).
Proof. intros q r H. apply lookup_delete_Some in H as [_ H]. eauto. Qed.

Lemma keeps_count (h : heap) p n (r : refbuf) : h !! p = Some r -> keeps h (<[p := set_count n r]> h).
Proof.
  intros H q r' H'. destruct (decide (p = q)) as [<-|N].
  - rewrite lookup_insert_eq in H'. injection H' as <-. eauto.
  - rewrite lookup_insert_ne in H' by done. eauto.
Qed.

Lemma release_keeps fuel :
  (forall p h h', refbuf_release_fuel fuel p h = Some h' ->
     keeps h h' /\ forall q r, p = Some q -> h !! q = Some r -> rb_count r = 1 -> h' !! q = None) /\
  (forall p h h', refbuf_release_associated fuel p h = Some h' -> keeps h h').
Proof.
  induction fuel as [|fuel [IH1 IH2]]; [done|]. split.
  - intros [p|] h h'; cbn [refbuf_release_fuel]; [|intros [= <-]; split; [apply keeps_refl|done]].
    destruct (h !! p) as [r|] eqn:Hp; [|done]. cbn zeta.
    destruct (rb_count r - 1 =? 0) eqn:E.
    + destruct (refbuf_release_associated _ _ _) as [h1|] eqn:E1; [|done]. intros [= <-]. apply IH2 in E1. split.
      * eapply keeps_trans; [|apply keeps_delete]. eapply keeps_trans; [by apply keeps_count|exact E1].
      * intros q r' [= <-] _ _. apply lookup_delete_eq.
    + intros [= <-]. split; [by apply keeps_count|]. intros q r' [= <-] ? ?. simplify_eq. lia.
  - intros [p|] h h'; cbn [refbuf_release_associated]; [|by intros [= <-]; apply keeps_refl].
    destruct (h !! p) as [r|] eqn:Hp; [|done]. cbn zeta.
    destruct (refbuf_release_fuel _ _ _) as [h1|] eqn:E1; [|done]. intros E2. apply IH2 in E2.
    eapply keeps_trans; [|exact E2]. destruct (IH1 _ _ _ E1) as [K D].
    destruct (rb_count r =? 1) eqn:E; [|exact K]. intros q r' Hq.
    assert (q <> p) as N.
    { intros ->. rewrite (D p (set_next None r) eq_refl) in Hq; [done|apply lookup_insert_eq|cbn; lia]. }
    destruct (K q r' Hq) as (r1 & H1 & ?). rewrite lookup_insert_ne in H1 by done. eauto.
Qed.

Lemma refbuf_release_keeps p h h' : refbuf_release p h = Some h' -> keeps h h'.
Proof. intros H. by apply (proj1 (release_keeps _)) in H as [? _]. Qed.

(** The lists of the buffers that stay are the same. *)
Lemma keeps_own (h h' : heap) own own' ext ext' p r :
  keeps h h' -> refs_ok h own ext -> refs_ok h' own' ext' -> h' !! p = Some r -> own' p = own p.
Proof.
  intros K R R' Hp. destruct (K p r Hp) as (r0 & H0 & _ & Ha & _).
  pose proof (ro_chain _ _ _ R' p r Hp) as C'. pose proof (ro_chain _ _ _ R p r0 H0) as C.
  eapply chain_unique; [|exact C]. rewrite <- Ha. eapply chain_ext; [|exact C'].
  intros x s _ Hx. destruct (K x s Hx) as (s0 & Hs & En & _). eauto.
Qed.

(** ** The heap and the copies *)

Definition bytes_of (data : gmap ptr bytes) (p : ptr) (d : bytes) : Prop := data !! p = Some d.

(** The references to [p] from the numbered pages. *)
Fixpoint refs_at (p : ptr) (ps : list ptr) (bs : list spec_buffer) : nat :=
  match ps, bs with
  | q :: ps, b :: bs => ((if decide (q = p) then sb_refs b else 0) + refs_at p ps bs)%nat
  | _, _ => 0%nat
  end.

Definition ext_of (hs ps : list ptr) (bs : list spec_buffer) (p : ptr) : nat := (occ p hs + refs_at p ps bs)%nat.

(** A page that is referred to is there, as its copy says. *)
Definition buffer_ok (h : heap) (data : gmap ptr bytes) (own : ptr -> list ptr) (hs : list ptr) (p : ptr) (b : spec_buffer) : Prop :=
  (0 < sb_refs b)%nat ->
  exists r, h !! p = Some r /\ bytes_of data p (sb_data b) /\ rb_sync r = sb_sync b /\ (p ∉ hs) /\ owned h own p = 0%nat /\
    match sb_headers b with
    | None => rb_assoc r = None
    | Some l => Forall2 (bytes_of data) (own p) l
    end.

Definition distinct (ps : list ptr) (bs : list spec_buffer) : Prop :=
  forall i j p b b', ps !! i = Some p -> ps !! j = Some p -> bs !! i = Some b -> bs !! j = Some b' ->
    (0 < sb_refs b)%nat -> (0 < sb_refs b')%nat -> i = j.

Record store_ok (s : page_store) (sp : spec_store) (own : ptr -> list ptr) (hs : list ptr) : Prop := {
  so_refs : refs_ok (ps_heap s) own (ext_of hs (ps_buffers s) (sp_buffers sp));
  so_chain : chain (ps_heap s) (ps_header_pages s) hs;
  so_pages : Forall2 (bytes_of (ps_data s)) hs (spec_headers sp);
  so_tail : ps_header_pages_tail s = last hs;
  so_bos : ps_bos_end s = last (take (length (sp_bos sp)) hs);
  so_leaf : forall x, x ∈ hs -> own x = [];
  so_free : sp_used sp = false -> forall x, x ∈ hs -> owned (ps_heap s) own x = 0%nat;
  so_buffers : Forall2 (buffer_ok (ps_heap s) (ps_data s) own hs) (ps_buffers s) (sp_buffers sp);
  so_distinct : distinct (ps_buffers s) (sp_buffers sp)
}.

(** *** References to the numbered pages *)

Lemma refs_at_set ps bs n p b b' q :
  ps !! n = Some p -> bs !! n = Some b ->
  (refs_at q ps (<[n := b']> bs) + (if decide (p = q) then sb_refs b else 0) =
   refs_at q ps bs + (if decide (p = q) then sb_refs b' else 0))%nat.
Proof.
  revert bs n. induction ps as [|x ps IH]; intros bs n Hp Hb; [by rewrite lookup_nil in Hp|].
  destruct bs as [|c bs]; [by rewrite lookup_nil in Hb|]. destruct n as [|n].
  - injection Hp as ->. injection Hb as ->. cbn. repeat case_decide; lia.
  - specialize (IH bs n Hp Hb). change (<[S n:=b']> (c :: bs)) with (c :: <[n:=b']> bs). cbn [refs_at]. lia.
Qed.

Lemma refs_at_app ps bs p b q :
  length ps = length bs -> refs_at q (ps ++ [p]) (bs ++ [b]) = (refs_at q ps bs + (if decide (p = q) then sb_refs b else 0))%nat.
Proof.
  revert bs. induction ps as [|x ps IH]; intros [|c bs] L; try discriminate L.
  - cbn [app refs_at]. lia.
  - cbn [app refs_at]. rewrite IH by (cbn in L; lia). lia.
Qed.

Lemma refs_at_in ps bs n p b : ps !! n = Some p -> bs !! n = Some b -> (sb_refs b <= refs_at p ps bs)%nat.
Proof.
  revert bs n. induction ps as [|x ps IH]; intros bs n Hp Hb; [by rewrite lookup_nil in Hp|].
  destruct bs as [|c bs]; [by rewrite lookup_nil in Hb|]. destruct n as [|n].
  - injection Hp as ->. injection Hb as ->. cbn. rewrite decide_True by done. lia.
  - specialize (IH bs n Hp Hb). cbn [refs_at]. lia.
Qed.

(** The references to a page that is referred to by its number are those of
    the number. *)
Lemma refs_at_zero ps bs p : (forall i b, ps !! i = Some p -> bs !! i = Some b -> sb_refs b = 0%nat) -> refs_at p ps bs = 0%nat.
Proof.
  revert bs. induction ps as [|x ps IH]; intros [|c bs] H; try done. cbn [refs_at].
  rewrite IH by (intros i b; apply (H (S i))). case_decide as E; [|done]. subst.
  specialize (H 0%nat c eq_refl eq_refl). lia.
Qed.
Lemma refs_at_one ps bs n p b :
  distinct ps bs -> ps !! n = Some p -> bs !! n = Some b -> (0 < sb_refs b)%nat -> refs_at p ps bs = sb_refs b.
Proof.
  intros D Hp Hb P. pose proof (refs_at_set ps bs n p b (set_refs 0 b) p Hp Hb) as E.
  rewrite !decide_True in E by done. cbn in E. rewrite refs_at_zero in E; [lia|].
  intros i c Hi Hc. destruct (decide (i = n)) as [->|N].
  - rewrite list_lookup_insert_eq in Hc by (apply lookup_lt_is_Some; eauto). by injection Hc as <-.
  - rewrite list_lookup_insert_ne in Hc by done. destruct (sb_refs c) eqn:R; [done|].
    exfalso. apply N. eapply (D i n p c b); eauto; lia.
Qed.

Lemma distinct_set ps bs n b b' :
  distinct ps bs -> bs !! n = Some b -> (0 < sb_refs b)%nat -> distinct ps (<[n := b']> bs).
Proof.
  intros D Hb P i j p c c' Hi Hj Hc Hc' Pc Pc'.
  assert (forall k d, <[n := b']> bs !! k = Some d -> (0 < sb_refs d)%nat -> exists d', bs !! k = Some d' /\ (0 < sb_refs d')%nat) as L.
  { intros k d Hk Pk. destruct (decide (k = n)) as [->|N]; [eauto|]. rewrite list_lookup_insert_ne in Hk by done. eauto. }
  destruct (L _ _ Hc Pc) as (d & ? & ?), (L _ _ Hc' Pc') as (d' & ? & ?). by eapply (D i j p d d').
Qed.

Lemma distinct_app ps bs p b :
  length ps = length bs -> distinct ps bs -> refs_at p ps bs = 0%nat -> distinct (ps ++ [p]) (bs ++ [b]).
Proof.
  intros L D Z i j q c c' Hi Hj Hc Hc' P P'.
  assert (forall k d, (ps ++ [p]) !! k = Some p -> (bs ++ [b]) !! k = Some d -> (0 < sb_refs d)%nat -> k = length ps) as A.
  { intros k d Hk Hd Pd. apply lookup_app_Some in Hk as [Hk|[? Hk]].
    - rewrite lookup_app_l in Hd by (rewrite <- L; by eapply lookup_lt_Some).
      pose proof (refs_at_in ps bs k p d Hk Hd). lia.
    - apply lookup_lt_Some in Hk. cbn in Hk. lia. }
  apply lookup_app_Some in Hi as [Hi|[Li Hi]]; apply lookup_app_Some in Hj as [Hj|[Lj Hj]].
  - rewrite lookup_app_l in Hc, Hc' by (rewrite <- L; by eapply lookup_lt_Some). by eapply D.
  - assert (q = p) as -> by by apply list_lookup_singleton_Some in Hj as [_ ->].
    transitivity (length ps); [|symmetry]; eapply A; eauto; [by rewrite lookup_app_l by by eapply lookup_lt_Some|by rewrite lookup_app_r].
  - assert (q = p) as -> by by apply list_lookup_singleton_Some in Hi as [_ ->].
    transitivity (length ps); [|symmetry]; eapply A; eauto; [by rewrite lookup_app_r|by rewrite lookup_app_l by by eapply lookup_lt_Some].
  - apply lookup_lt_Some in Hi, Hj. cbn in Hi, Hj. lia.
Qed.

(** *** Frames *)

(** What the rest of a step needs to know of a page that is referred to. *)
Definition same_page (h h' : heap) (data data' : gmap ptr bytes) (own own' : ptr -> list ptr) (hs' : list ptr) (p : ptr) : Prop :=
  (exists r r', h !! p = Some r /\ h' !! p = Some r' /\ rb_sync r' = rb_sync r /\ rb_assoc r' = rb_assoc r) /\
  owned h' own' p = 0%nat /\ (p ∉ hs') /\ data' !! p = data !! p /\ own' p = own p /\
  forall x, x ∈ own p -> data' !! x = data !! x.

Lemma bytes_of_frame data data' l k :
  Forall2 (bytes_of data) l k -> (forall x, x ∈ l -> data' !! x = data !! x) -> Forall2 (bytes_of data') l k.
Proof.
  induction 1 as [|x d l k H F IH]; intros E; constructor.
  - unfold bytes_of. rewrite E by left. exact H.
  - apply IH. intros y I. apply E. by right.
Qed.

Lemma buffer_frame h h' data data' own own' hs hs' p b :
  buffer_ok h data own hs p b ->
  ((0 < sb_refs b)%nat -> is_Some (h !! p) -> owned h own p = 0%nat -> (p ∉ hs) -> same_page h h' data data' own own' hs' p) ->
  buffer_ok h' data' own' hs' p b.
Proof.
  intros B F P. destruct (B P) as (r & Hp & Hd & Hs & N & Z & A).
  destruct (F P ltac:(eauto) Z N) as ((r0 & r' & H0 & H' & Es & Ea) & Z' & N' & D' & O' & M'). simplify_eq.
  exists r'. split_and!; try done; [unfold bytes_of; congruence|congruence|].
  destruct (sb_headers b) as [l|]; [|congruence]. rewrite O'.
  by eapply bytes_of_frame.
Qed.

Lemma buffers_frame h h' data data' own own' hs hs' ps bs :
  Forall2 (buffer_ok h data own hs) ps bs ->
  (forall p, is_Some (h !! p) -> owned h own p = 0%nat -> (p ∉ hs) -> (0 < refs_at p ps bs)%nat ->
     same_page h h' data data' own own' hs' p) ->
  Forall2 (buffer_ok h' data' own' hs') ps bs.
Proof.
  intros B F. rewrite Forall2_lookup in B |- *. intros n. specialize (B n).
  destruct (ps !! n) as [p|] eqn:Hp, (bs !! n) as [b|] eqn:Hb; inversion B; subst; constructor.
  eapply buffer_frame; [done|]. intros P L Z N. apply F; try done. pose proof (refs_at_in ps bs n p b Hp Hb). lia.
Qed.

(** One page changes, the others stay. *)
Lemma buffers_frame_set h h' data own own' hs ps bs n p b b' :
  Forall2 (buffer_ok h data own hs) ps bs -> distinct ps bs -> ps !! n = Some p -> bs !! n = Some b -> (0 < sb_refs b)%nat ->
  buffer_ok h' data own' hs p b' ->
  (forall q, q <> p -> is_Some (h !! q) -> owned h own q = 0%nat -> (q ∉ hs) -> (0 < refs_at q ps bs)%nat ->
     same_page h h' data data own own' hs q) ->
  Forall2 (buffer_ok h' data own' hs) ps (<[n := b']> bs).
Proof.
  intros B D Hp Hb P N F. rewrite Forall2_lookup in B |- *. intros m. specialize (B m).
  destruct (decide (m = n)) as [->|Nm].
  - rewrite list_lookup_insert_eq by (apply lookup_lt_is_Some; eauto). rewrite Hp. by constructor.
  - rewrite list_lookup_insert_ne by done.
    destruct (ps !! m) as [q|] eqn:Hq, (bs !! m) as [c|] eqn:Hc; inversion B; subst; constructor.
    eapply buffer_frame; [done|]. intros Pc L Z Nq. apply F; try done.
    + intros ->. apply Nm. by eapply (D m n p c b).
    + pose proof (refs_at_in ps bs m q c Hq Hc). lia.
Qed.

(** The references after one page has changed. *)
Lemma ext_of_set hs ps bs n p b b' q :
  ps !! n = Some p -> bs !! n = Some b ->
  (ext_of hs ps (<[n := b']> bs) q + (if decide (p = q) then sb_refs b else 0) =
   ext_of hs ps bs q + (if decide (p = q) then sb_refs b' else 0))%nat.
Proof. intros Hp Hb. unfold ext_of. pose proof (refs_at_set ps bs n p b b' q Hp Hb). lia. Qed.

Lemma held_some n sp b :
  held n sp = Some b -> sp_buffers sp !! n = Some b /\ (0 < sb_refs b)%nat.
Proof.
  unfold held. destruct (sp_buffers sp !! n) as [c|]; [|done]. run_bind.
  destruct (Nat.ltb_spec 0 (sb_refs c)); [|done]. by intros [= ->].
Qed.

(** The page a number names. *)
Lemma held_page s sp own hs n b :
  store_ok s sp own hs -> held n sp = Some b ->
  exists p r, ps_buffers s !! n = Some p /\ sp_buffers sp !! n = Some b /\ (0 < sb_refs b)%nat /\
    ps_heap s !! p = Some r /\ bytes_of (ps_data s) p (sb_data b) /\ rb_sync r = sb_sync b /\ (p ∉ hs) /\
    owned (ps_heap s) own p = 0%nat /\ refs_at p (ps_buffers s) (sp_buffers sp) = sb_refs b /\
    ext_of hs (ps_buffers s) (sp_buffers sp) p = sb_refs b /\
    match sb_headers b with
    | None => rb_assoc r = None
    | Some l => Forall2 (bytes_of (ps_data s)) (own p) l
    end.
Proof.
  intros [R C P T B L F Bu D] [Hb Pb]%held_some.
  pose proof (proj1 (Forall2_lookup _ _ _) Bu n) as Bn. rewrite Hb in Bn.
  destruct (ps_buffers s !! n) as [p|] eqn:Hp; inversion Bn as [? ? Bp|]; subst.
  destruct (Bp Pb) as (r & Hr & Hd & Hs & N & Z & A). exists p, r.
  pose proof (refs_at_one _ _ n p b D ltac:(done) Hb Pb) as E. split_and!; try done.
  unfold ext_of. rewrite occ_not_in by done. lia.
Qed.

Lemma decide_swap {A} (p q : ptr) (a b : A) : (if decide (p = q) then a else b) = (if decide (q = p) then a else b).
Proof. repeat case_decide; congruence. Qed.

(** ** The actions *)

Lemma store_addref_ok s sp own hs n sp' :
  store_ok s sp own hs -> spec_exec (Addref n) sp = Some sp' ->
  exists s' own', store_exec (Addref n) s = Some s' /\ store_ok s' sp' own' hs.
Proof.
  intros K E. cbn [spec_exec] in E. destruct (held n sp) as [b|] eqn:Hn; [|done]. run_bind. injection E as <-.
  destruct (held_page _ _ _ _ _ _ K Hn) as (p & r & Hp & Hb & Pb & Hr & Hd & Hs & N & Z & Rp & Ep & A).
  destruct K as [R C P T B L F Bu D]. cbn [store_exec]. rewrite Hp. run_bind.
  destruct (refbuf_addref_ok _ _ _ p r R Hr) as [-> R']. run_bind. eexists _, own. split; [done|]. split; cbn; try done.
  - eapply refs_ok_ext; [done| |exact R']. intros q. unfold ext_add, fupd.
    pose proof (ext_of_set hs _ _ n p b (set_refs (S (sb_refs b)) b) q Hp Hb) as X. cbn [sb_refs set_refs] in X.
    destruct (decide (q = p)) as [->|Nq]; [rewrite !decide_True in X by done; lia|rewrite !decide_False in X by congruence; lia].
  - eapply chain_insert; [exact Hr|by left|done].
  - intros U x I. rewrite (owned_same _ p r) by done. by apply F.
  - eapply buffers_frame_set; eauto.
    + intros _. exists (set_count (rb_count r + 1) r). split_and!; try done; [apply lookup_insert_eq|by rewrite (owned_same _ p r)].
    + intros q Nq [rq Hq] Zq Nhs _. split_and!; try done; [|by rewrite (owned_same _ p r)].
      exists rq, rq. by rewrite lookup_insert_ne by done.
  - by eapply distinct_set.
Qed.

Lemma mark_ok s sp own hs n sp' :
  store_ok s sp own hs -> spec_exec (Mark n) sp = Some sp' ->
  exists s' own', store_exec (Mark n) s = Some s' /\ store_ok s' sp' own' hs.
Proof.
  intros K E. cbn [spec_exec] in E. destruct (held n sp) as [b|] eqn:Hn; [|done]. run_bind. injection E as <-.
  destruct (held_page _ _ _ _ _ _ K Hn) as (p & r & Hp & Hb & Pb & Hr & Hd & Hs & N & Z & Rp & Ep & A).
  destruct K as [R C P T B L F Bu D]. cbn [store_exec]. rewrite Hp. run_bind. unfold upd_ptr. rewrite Hr. run_bind.
  destruct (ro_live _ _ _ R p r Hr) as [Lc Lp].
  eexists _, own. split; [done|]. split; cbn; try done.
  - eapply (refs_ok_update _ _ _ _ p r); try done; [by right| |].
    + pose proof (ext_of_set hs _ _ n p b (SpecBuffer (sb_data b) (sb_headers b) true (sb_refs b)) p Hp Hb) as X.
      cbn in X. cbn. lia.
    + intros q Nq. pose proof (ext_of_set hs _ _ n p b (SpecBuffer (sb_data b) (sb_headers b) true (sb_refs b)) q Hp Hb) as X.
      rewrite !decide_False in X by congruence. lia.
  - eapply chain_insert; [exact Hr|by left|done].
  - intros U x I. rewrite (owned_same _ p r) by done. by apply F.
  - eapply buffers_frame_set; eauto.
    + intros _. exists (mark_sync r). split_and!; try done; [apply lookup_insert_eq|by rewrite (owned_same _ p r)].
    + intros q Nq [rq Hq] Zq Nhs _. split_and!; try done; [|by rewrite (owned_same _ p r)].
      exists rq, rq. by rewrite lookup_insert_ne by done.
  - by eapply distinct_set.
Qed.

Lemma chain_keeps h h' a l :
  keeps h h' -> chain h a l -> (forall x, x ∈ l -> is_Some (h' !! x)) -> chain h' a l.
Proof.
  intros K C L. eapply chain_ext; [|exact C]. intros x r I Hx. destruct (L x I) as [r' Hx'].
  destruct (K x r' Hx') as (r0 & H0 & En & _). simplify_eq. eauto.
Qed.

Lemma ext_live h own ext x : refs_ok h own ext -> (1 <= ext x)%nat -> is_Some (h !! x).
Proof. intros R E. destruct (h !! x) eqn:H; [eauto|]. destruct (ro_dead _ _ _ R x H). lia. Qed.

Lemma store_release_ok s sp own hs n sp' :
  store_ok s sp own hs -> spec_exec (Release n) sp = Some sp' ->
  exists s' own', store_exec (Release n) s = Some s' /\ store_ok s' sp' own' hs.
Proof.
  intros K E. cbn [spec_exec] in E. destruct (held n sp) as [b|] eqn:Hn; [|done]. run_bind. injection E as <-.
  destruct (held_page _ _ _ _ _ _ K Hn) as (p & r & Hp & Hb & Pb & Hr & Hd & Hs & N & Z & Rp & Ep & A).
  destruct K as [R C P T B L F Bu D]. cbn [store_exec]. rewrite Hp. run_bind.
  destruct (refbuf_release_ok _ _ _ p R ltac:(lia)) as (h' & own' & E & R' & [Ro Rs Rw]). rewrite E. run_bind.
  pose proof (refbuf_release_keeps _ _ _ E) as Ke.
  assert (forall q, is_Some (h' !! q) -> own' q = own q) as Eo by (intros q [? Hq]; by eapply keeps_own).
  assert (forall x, x ∈ hs -> is_Some (h' !! x)) as Lh.
  { intros x I. eapply ext_live; [exact R'|]. unfold ext_del. rewrite fupd_ne by (intros ->; done). unfold ext_of.
    pose proof (occ_in x hs I). lia. }
  eexists _, own'. split; [done|]. split; cbn; try done.
  - eapply refs_ok_ext; [done| |exact R']. intros q. unfold ext_del, fupd.
    pose proof (ext_of_set hs _ _ n p b (set_refs (pred (sb_refs b)) b) q Hp Hb) as X. cbn [sb_refs set_refs] in X.
    destruct (decide (q = p)) as [->|Nq]; [rewrite !decide_True in X by done; lia|rewrite !decide_False in X by congruence; lia].
  - by eapply chain_keeps.
  - intros x I. rewrite Eo by by apply Lh. by apply L.
  - intros U x I. pose proof (Rw x). specialize (F U x I). lia.
  - eapply buffers_frame_set; eauto.
    + intros P'. cbn [sb_refs set_refs] in P'. specialize (Rs r Hr Z). destruct (ro_live _ _ _ R p r Hr) as [Lc _].
      destruct (Z.eqb_spec (rb_count r) 1) as [|_]; [lia|]. exists (set_count (rb_count r - 1) r).
      pose proof (Rw p). split_and!; try done; [lia|]. cbn. by rewrite Eo by (rewrite Rs; eauto).
    + intros q Nq [rq Hq] Zq Nhs _. pose proof (Ro q Nq Zq) as Hq'. pose proof (Rw q).
      split_and!; try done; [exists rq, rq; by rewrite Hq', Hq|lia|]. apply Eo. rewrite Hq'. eauto.
  - by eapply distinct_set.
Qed.

(** *** A new page *)

Lemma new_page_ok s sp own hs page p s' :
  store_ok s sp own hs -> make_refbuf_with_page page s = (p, s') ->
  ps_heap s !! p = None /\ (p ∉ hs) /\ refs_at p (ps_buffers s) (sp_buffers sp) = 0%nat /\
  s' = PageStore (<[p := Refbuf (lenZ (page_bytes page)) 1 None None false]> (ps_heap s)) (<[p := page_bytes page]> (ps_data s))
         (ps_header_pages s) (ps_header_pages_tail s) (ps_bos_end s) (ps_buffers s) /\
  refs_ok (ps_heap s') own (ext_add p (ext_of hs (ps_buffers s) (sp_buffers sp))) /\ own p = [] /\
  (forall q, owned (ps_heap s') own q = owned (ps_heap s) own q) /\ owned (ps_heap s) own p = 0%nat.
Proof.
  intros [R C P T B L F Bu D]. unfold make_refbuf_with_page, refbuf_new. pose proof (fresh_dead (ps_heap s)) as Fr. revert Fr.
  generalize (fresh (dom (ps_heap s))) as x. intros x Fr [= <- <-]. cbn [ps_heap].
  destruct (ro_dead _ _ _ R x Fr) as [Z O]. unfold ext_of in Z.
  assert (x ∉ hs) as N by (intros I; pose proof (occ_in x hs I); lia).
  split_and!; try done; try lia.
  - apply (refs_ok_ext _ (fupd x [] own) _ (ext_add x (ext_of hs (ps_buffers s) (sp_buffers sp)))); [|done|].
    { intros q. unfold fupd. case_decide; [by subst|done]. }
    apply refs_ok_new; try done; [|constructor|by intros y []%not_elem_of_nil].
    eapply refs_ok_ext; [done| |exact R]. intros q. cbn. lia.
  - intros q. unfold owned. rewrite sum_dom_insert by done. by rewrite O.
Qed.

(** A new page is no page there was. *)
Lemma new_page_frame h own ext p r data d hs q :
  refs_ok h own ext -> h !! p = None -> is_Some (h !! q) -> owned h own q = 0%nat -> (q ∉ hs) -> own p = [] ->
  same_page h (<[p := r]> h) data (<[p := d]> data) own own hs q.
Proof.
  intros R Hp [rq Hq] Z N O. assert (p <> q) as Npq by congruence. split_and!; try done.
  - exists rq, rq. by rewrite lookup_insert_ne by done.
  - unfold owned. rewrite sum_dom_insert by done. rewrite O, occ_nil. exact Z.
  - by rewrite lookup_insert_ne.
  - intros x I. rewrite lookup_insert_ne; [done|]. intros ->.
    destruct (chain_lookup _ _ _ _ (ro_chain _ _ _ R q rq Hq) I). congruence.
Qed.

Lemma pages_frame data p d (hs : list ptr) l :
  p ∉ hs -> Forall2 (bytes_of data) hs l -> Forall2 (bytes_of (<[p := d]> data)) hs l.
Proof.
  intros N F. eapply bytes_of_frame; [exact F|]. intros x I. rewrite lookup_insert_ne; [done|]. by intros ->.
Qed.

Lemma make_ok s sp own hs page sp' :
  store_ok s sp own hs -> spec_exec (Make page) sp = Some sp' ->
  exists s' own', store_exec (Make page) s = Some s' /\ store_ok s' sp' own' hs.
Proof.
  intros K E. cbn [spec_exec] in E. injection E as <-. cbn [store_exec].
  destruct (make_refbuf_with_page page s) as [p s'] eqn:Em.
  destruct (new_page_ok _ _ _ _ _ _ _ K Em) as (Hp & N & Zr & Es & R' & O & Eo & Zo).
  pose proof K as [R C P T B L F Bu D]. pose proof (Forall2_length _ _ _ Bu) as Len.
  subst s'. cbn [ps_heap ps_data ps_header_pages ps_header_pages_tail ps_bos_end ps_buffers] in *.
  eexists _, own. split; [done|]. split; cbn; try done.
  - eapply refs_ok_ext; [done| |exact R']. intros q. unfold ext_of, ext_add, fupd. rewrite refs_at_app by done.
    rewrite decide_swap. cbn [sb_refs]. case_decide; [subst|]; unfold ext_of; lia.
  - eapply chain_ext; [|exact C]. intros x rx I Hx. rewrite lookup_insert_ne by (intros ->; congruence). eauto.
  - by apply pages_frame.
  - intros U x I. rewrite Eo. by apply F.
  - apply Forall2_app.
    + eapply buffers_frame; [exact Bu|]. intros q Lq Zq Nq _. by eapply new_page_frame.
    + constructor; [|constructor]. intros _. eexists. split; [apply lookup_insert_eq|]. split; [apply lookup_insert_eq|].
      split_and!; try done. by rewrite Eo.
  - by apply distinct_app.
Qed.

(** *** The list is given up *)

Lemma release_headers_ok l fuel ref h own ext :
  refs_ok h own (fun q => ext q + occ q l)%nat -> chain h ref l -> (length l <= fuel)%nat ->
  exists h' own', release_headers fuel ref h = Some h' /\ refs_ok h' own' ext /\ keeps h h' /\
    (forall q, (q ∉ l) -> owned h own q = 0%nat -> h' !! q = h !! q) /\
    (forall q, (owned h' own' q <= owned h own q)%nat).
Proof.
  revert fuel ref h own ext. induction l as [|x l IH]; intros fuel ref h own ext R C Hf;
    inversion C as [|x' r l' Hx Hn N]; subst.
  - exists h, own. split_and!; try done; [by destruct fuel| |apply keeps_refl].
    apply (refs_ok_ext h own own (fun q => ext q + occ q [])%nat); [done| |done]. intros q. cbn. lia.
  - destruct fuel as [|fuel]; cbn in Hf; [lia|]. cbn [release_headers]. rewrite Hx. run_bind.
    destruct (refbuf_release_ok h own _ x R) as (h1 & own1 & E & R1 & [Ro _ Rw]).
    { rewrite occ_cons, decide_True by done. lia. }
    rewrite E. run_bind. pose proof (refbuf_release_keeps _ _ _ E) as K1.
    assert (refs_ok h1 own1 (fun q => ext q + occ q l)%nat) as R2.
    { eapply refs_ok_ext; [done| |exact R1]. intros q. by apply ext_del_occ. }
    destruct (IH fuel (rb_next r) h1 own1 ext R2) as (h2 & own2 & E2 & R3 & K2 & H1 & H2).
    + eapply chain_keeps; [exact K1|exact Hn|]. intros y I. eapply ext_live; [exact R2|]. pose proof (occ_in y l I). cbn. lia.
    + lia.
    + exists h2, own2. split; [done|]. split; [done|]. split; [by eapply keeps_trans|]. split.
      * intros q [Nq I]%not_elem_of_cons Z. pose proof (Rw q). rewrite H1 by (done || lia). by apply Ro.
      * intros q. pose proof (Rw q). pose proof (H2 q). lia.
Qed.

Lemma free_ok s sp own hs sp' :
  store_ok s sp own hs -> spec_exec FreeHeaders sp = Some sp' ->
  exists s' own', store_exec FreeHeaders s = Some s' /\ store_ok s' sp' own' [].
Proof.
  intros [R C P T B L F Bu D] [= <-]. cbn [store_exec]. unfold format_ogg_free_headers.
  destruct (release_headers_ok hs (size (ps_heap s)) (ps_header_pages s) (ps_heap s) own
              (fun q => refs_at q (ps_buffers s) (sp_buffers sp))) as (h' & own' & -> & R' & K & H1 & H2).
  { eapply refs_ok_ext; [done| |exact R]. intros q. unfold ext_of. lia. }
  { done. } { by apply chain_size in C. }
  run_bind. eexists _, own'. split; [done|]. split; cbn; try done.
  - constructor.
  - by intros x []%not_elem_of_nil.
  - by intros _ x []%not_elem_of_nil.
  - eapply buffers_frame; [exact Bu|]. intros q [rq Hq] Z N _. pose proof (H1 q N Z) as Hq'. pose proof (H2 q).
    split_and!; try done; [exists rq, rq; by rewrite Hq', Hq|lia|by intros []%not_elem_of_nil|].
    eapply keeps_own; [exact K|exact R|exact R'|]. rewrite Hq'. exact Hq.
Qed.

(** *** A page gets the list *)

Lemma refs_ok_assoc h own ext p l r a :
  refs_ok h own (fun q => ext q + occ q l)%nat -> h !! p = Some r -> own p = [] -> owned h own p = 0%nat ->
  chain h a l -> (p ∉ l) -> (forall x, x ∈ l -> own x = []) ->
  refs_ok (<[p := set_assoc a r]> h) (fupd p l own) ext /\
  (forall q, owned (<[p := set_assoc a r]> h) (fupd p l own) q = (owned h own q + occ q l)%nat).
Proof.
  intros [Li De Ch Le] Hp Op Zp C N Lf. set (r' := set_assoc a r).
  assert (forall q, owned (<[p := r']> h) (fupd p l own) q = (owned h own q + occ q l)%nat) as E.
  { intros q. rewrite (owned_same h p r) by done.
    rewrite (owned_delete h (fupd p l own) p r), (owned_delete h own p r) by done.
    rewrite fupd_eq, Op, occ_nil, owned_fupd_dead by apply lookup_delete_eq. lia. }
  split; [|exact E]. split.
  - intros q s. rewrite E. intros Hq. destruct (decide (p = q)) as [<-|Nq].
    + rewrite lookup_insert_eq in Hq. injection Hq as <-. destruct (Li p r Hp) as [Lc Lp]. cbn. rewrite occ_not_in in * by done.
      lia.
    + rewrite lookup_insert_ne in Hq by done. destruct (Li q s Hq). lia.
  - intros q Hq. rewrite E. assert (q <> p) as Nq by (intros ->; by rewrite lookup_insert_eq in Hq).
    rewrite lookup_insert_ne in Hq by done. rewrite fupd_ne by done. destruct (De q Hq). split; [lia|done].
  - intros q s Hq. destruct (decide (q = p)) as [->|Nq].
    + rewrite lookup_insert_eq in Hq. injection Hq as <-. rewrite fupd_eq.
      eapply chain_insert; [exact Hp|by left|exact C].
    + rewrite lookup_insert_ne in Hq by done. rewrite fupd_ne by done. pose proof (Ch q s Hq) as Cq.
      eapply chain_insert; [exact Hp|right; done|exact Cq].
  - intros q x I. destruct (decide (q = p)) as [->|Nq].
    + rewrite fupd_eq in I. rewrite fupd_ne by (intros ->; done). by apply Lf.
    + rewrite fupd_ne in I by done. rewrite fupd_ne; [by eapply Le|]. intros ->.
      destruct (h !! q) as [s|] eqn:Hq; [|destruct (De q Hq) as [_ Oq]; rewrite Oq in I; by apply not_elem_of_nil in I].
      pose proof (owned_pos h own q s p Hq I). lia.
Qed.

Lemma complete_ok s sp own hs n sp' :
  store_ok s sp own hs -> spec_exec (Complete n) sp = Some sp' ->
  exists s' own', store_exec (Complete n) s = Some s' /\ store_ok s' sp' own' hs.
Proof.
  intros K E. cbn [spec_exec] in E. destruct (held n sp) as [b|] eqn:Hn; [|done]. run_bind.
  destruct (held_page _ _ _ _ _ _ K Hn) as (p & r & Hp & Hb & Pb & Hr & Hd & Hs & N & Z & Rp & Ep & A).
  cbn [mbind option_bind] in E. destruct (sb_headers b) as [|] eqn:Eh; [done|]. injection E as <-.
  destruct K as [R C P T B L F Bu D]. cbn [store_exec]. rewrite Hp. run_bind. unfold attach_headers_to.
  destruct (addref_chain_ok hs (size (ps_heap s)) (ps_header_pages s) (ps_heap s) own _ R C) as (h1 & -> & R1 & H1 & H2 & H3 & H4).
  { by apply chain_size in C. }
  run_bind. unfold upd_ptr. rewrite H1, Hr by done. run_bind.
  assert (own p = []) as Op.
  { pose proof (ro_chain _ _ _ R p r Hr) as Cp. rewrite A in Cp. by inversion Cp. }
  assert (chain h1 (ps_header_pages s) hs) as C1.
  { eapply chain_ext; [|exact C]. intros x t _ Hx. destruct (H4 x t Hx) as (t' & ? & ? & _). eauto. }
  destruct (refs_ok_assoc h1 own _ p hs r (ps_header_pages s) R1) as [R2 E2]; try done.
  { by rewrite H1. } { by rewrite H2. }
  set (b' := SpecBuffer (sb_data b) (Some (spec_headers sp)) (sb_sync b) (sb_refs b)).
  eexists _, (fupd p hs own). split; [done|]. split; cbn; try done.
  - eapply refs_ok_ext; [done| |exact R2]. intros q.
    pose proof (ext_of_set hs _ _ n p b b' q Hp Hb) as X. cbn [sb_refs b'] in X. lia.
  - eapply chain_insert; [rewrite H1 by done; exact Hr|by left|exact C1].
  - intros x I. rewrite fupd_ne by (intros ->; done). by apply L.
  - rewrite orb_false_iff, negb_false_iff, bool_decide_eq_true. intros [_ Eq] x I. unfold spec_headers in P. rewrite Eq in P. apply Forall2_nil_inv_r in P.
    subst hs. by apply not_elem_of_nil in I.
  - eapply buffers_frame_set; eauto.
    + intros _. exists (set_assoc (ps_header_pages s) r). split_and!; try done; [apply lookup_insert_eq| |].
      * rewrite E2, H2, occ_not_in by done. lia.
      * cbn. by rewrite fupd_eq.
    + intros q Nq [rq Hq] Zq Nhs _. split_and!; try done.
      * exists rq, rq. rewrite lookup_insert_ne, H1 by done. done.
      * rewrite E2, H2, occ_not_in by done. lia.
      * by rewrite fupd_ne.
  - by eapply distinct_set.
Qed.

(** *** A header page *)

(** The buffer before the place in the list points to the new one. *)
Definition relink (l1 : list ptr) (p : ptr) (h : heap) : heap :=
  match last l1 with
  | Some x => match h !! x with Some r => <[x := set_next (Some p) r]> h | None => h end
  | None => h
  end.

Lemma chain_split h a l1 l2 :
  chain h a (l1 ++ l2) ->
  exists m, chain h m l2 /\ (l1 = [] -> m = a) /\
    forall x, last l1 = Some x -> exists r, h !! x = Some r /\ rb_next r = m.
Proof.
  revert a. induction l1 as [|y l1 IH]; intros a C; cbn in C; [by exists a|].
  inversion C as [|y' r l Hy Hn N]; subst. destruct (IH _ Hn) as (m & Cm & E & K). exists m. split; [done|].
  split; [done|]. intros x. destruct l1 as [|z l1]; [intros [= <-]|].
  - exists r. split; [done|]. by rewrite E.
  - rewrite last_cons_cons. apply K.
Qed.

(** The chain with the new buffer in it. *)
Lemma chain_join h h' a l1 l2 p m rp :
  chain h a (l1 ++ l2) -> chain h m l2 -> (p ∉ l1 ++ l2) ->
  h' !! p = Some rp -> rb_next rp = m ->
  (forall x, last l1 = Some x -> exists r, h' !! x = Some r /\ rb_next r = Some p) ->
  (forall x r, x ∈ l1 ++ l2 -> last l1 <> Some x -> h !! x = Some r -> exists r', h' !! x = Some r' /\ rb_next r' = rb_next r) ->
  chain h' (match l1 with [] => Some p | _ => a end) (l1 ++ p :: l2).
Proof.
  intros C Cm N Hp En Hx Ho. pose proof (chain_NoDup _ _ _ C) as ND.
  assert (chain h' (Some p) (p :: l2)) as C2.
  { econstructor; [done| |intros I; apply N, elem_of_app; by right]. rewrite En. eapply chain_ext; [|exact Cm].
    intros x r I Hr. apply Ho; [apply elem_of_app; by right| |done]. intros E. apply NoDup_app in ND as (_ & D & _).
    apply (D x); [by apply last_Some_elem_of|done]. }
  clear Hp En Cm. revert a C ND N Hx Ho. induction l1 as [|y l1 IH]; intros a C ND N Hx Ho; [exact C2|].
  cbn [app] in *. inversion C as [|y' r l Hy Hn Ny]; subst. apply not_elem_of_cons in N as [Np N]. apply NoDup_cons in ND as [_ ND].
  destruct l1 as [|z l1].
  - destruct (Hx y eq_refl) as (r' & Hr' & E'). econstructor; [exact Hr'|by rewrite E'|].
    cbn. apply not_elem_of_cons. split; [congruence|done].
  - destruct (Ho y r ltac:(left) ltac:(rewrite last_cons_cons; intros E; apply Ny, elem_of_app; left; by apply last_Some_elem_of) Hy)
      as (r' & Hr' & E').
    econstructor; [exact Hr'| |].
    + rewrite E'. apply (IH (rb_next r)); try done. intros x s I NL Hs. apply Ho; [by right|by rewrite last_cons_cons|done].
    + intros I. change (y ∈ (z :: l1) ++ p :: l2) in I. apply elem_of_app in I as [I|I]; [apply Ny, elem_of_app; by left|].
      apply elem_of_cons in I as [->|I]; [done|apply Ny, elem_of_app; by right].
Qed.

Lemma insert_page_ok s sp own l1 l2 page p s1 m :
  store_ok s sp own (l1 ++ l2) -> sp_used sp = false -> make_refbuf_with_page page s = (p, s1) ->
  chain (ps_heap s) m l2 -> (l1 = [] -> m = ps_header_pages s) ->
  (forall x, last l1 = Some x -> exists r, ps_heap s !! x = Some r /\ rb_next r = m) ->
  let h := relink l1 p (<[p := Refbuf (lenZ (page_bytes page)) 1 None m false]> (ps_heap s)) in
  forall sp', sp_buffers sp' = sp_buffers sp -> sp_used sp' = false ->
  forall a tail, a = match l1 with [] => Some p | _ => ps_header_pages s end ->
  tail = last (l1 ++ p :: l2) ->
  forall bos, bos = last (take (length (sp_bos sp')) (l1 ++ p :: l2)) ->
  Forall2 (bytes_of (<[p := page_bytes page]> (ps_data s))) (l1 ++ p :: l2) (spec_headers sp') ->
  store_ok (PageStore h (<[p := page_bytes page]> (ps_data s)) a tail bos (ps_buffers s)) sp' own (l1 ++ p :: l2).
Proof.
  intros K U Em Cm Hm Hl h sp' Eb U' a tail -> -> bos -> P'.
  destruct (new_page_ok _ _ _ _ _ _ _ K Em) as (Hp & N & Zr & Es & R1 & O & Eo & Zo).
  destruct K as [R C P T B L F Bu D]. subst s1. cbn [ps_heap] in *.
  set (r0 := Refbuf (lenZ (page_bytes page)) 1 None None false) in *.
  set (r1 := Refbuf (lenZ (page_bytes page)) 1 None m false) in *. set (h1 := <[p := r1]> (ps_heap s)) in *.
  assert (refs_ok h1 own (ext_add p (ext_of (l1 ++ l2) (ps_buffers s) (sp_buffers sp)))) as R2.
  { unfold h1. rewrite <- (insert_insert_eq (ps_heap s) p r1 r0). eapply (refs_ok_update _ _ _ _ p r0 r1); try done; [by rewrite lookup_insert_eq| |cbn; lia].
    left. by rewrite Eo. }
  assert (forall q, owned h1 own q = owned (ps_heap s) own q) as Eo1.
  { intros q. rewrite <- Eo. assert (dom h1 = dom (<[p := r0]> (ps_heap s))) as Ed by (unfold h1; by rewrite !dom_insert_L).
    unfold owned. by rewrite Ed. }
  assert (last l1 = None /\ h = h1 \/ exists x rx, last l1 = Some x /\ ps_heap s !! x = Some rx /\ x <> p /\ x ∈ l1 ++ l2 /\
            h = <[x := set_next (Some p) rx]> h1) as Hh.
  { unfold h, relink. destruct (last l1) as [x|] eqn:El; [right|by left].
    destruct (Hl x eq_refl) as (rx & Hx & _). assert (x <> p) as Nx by congruence.
    exists x, rx. assert (h1 !! x = Some rx) as -> by (unfold h1; by rewrite lookup_insert_ne).
    split_and!; try done. apply elem_of_app. left. by apply last_Some_elem_of. }
  assert (refs_ok h own (ext_add p (ext_of (l1 ++ l2) (ps_buffers s) (sp_buffers sp)))) as R3.
  { destruct Hh as [[_ ->]|(x & rx & _ & Hx & Nx & Ix & ->)]; [done|]. destruct (ro_live _ _ _ R2 x rx) as [? ?].
    { unfold h1. by rewrite lookup_insert_ne. }
    eapply (refs_ok_update _ _ _ _ x rx); try done; [unfold h1; by rewrite lookup_insert_ne| |cbn; lia].
    left. rewrite Eo1. by apply F. }
  assert (forall q, owned h own q = owned (ps_heap s) own q) as Eo2.
  { intros q. rewrite <- Eo1. destruct Hh as [[_ ->]|(x & rx & _ & Hx & Nx & _ & ->)]; [done|]. apply (owned_same _ x rx).
    unfold h1. by rewrite lookup_insert_ne. }
  split; cbn [ps_heap ps_data ps_header_pages ps_header_pages_tail ps_bos_end ps_buffers]; try done.
  - rewrite Eb. eapply refs_ok_ext; [done| |exact R3]. intros q. unfold ext_of, ext_add, fupd. rewrite !occ_app, occ_cons.
    rewrite (decide_swap q p). case_decide; [subst|]; lia.
  - eapply (chain_join _ h _ l1 l2 p m r1 C Cm N); try done.
    + destruct Hh as [[_ ->]|(x & rx & _ & Hx & Nx & _ & ->)]; [apply lookup_insert_eq|].
      rewrite lookup_insert_ne by done. apply lookup_insert_eq.
    + intros x El. destruct Hh as [[El' _]|(y & ry & El' & Hy & _ & _ & ->)]; [congruence|].
      rewrite El in El'. injection El' as <-. exists (set_next (Some p) ry). by rewrite lookup_insert_eq.
    + intros x r I NL Hx. assert (x <> p) as Nx by congruence.
      destruct Hh as [[_ ->]|(y & ry & El' & Hy & _ & _ & ->)].
      * unfold h1. rewrite lookup_insert_ne by done. eauto.
      * unfold h1. rewrite !lookup_insert_ne by congruence. eauto.
  - intros x. rewrite elem_of_app, elem_of_cons. intros [I|[->|I]]; [apply L, elem_of_app; by left|done|apply L, elem_of_app; by right].
  - intros _ x. rewrite Eo2, elem_of_app, elem_of_cons.
    intros [I|[->|I]]; [|done|]; (apply F; [done|]); apply elem_of_app; [by left|by right].
  - rewrite Eb. eapply buffers_frame; [exact Bu|]. intros q [rq Hq] Z Nq _. assert (q <> p) as Npq by congruence.
    split_and!; try done.
    + exists rq, rq. destruct Hh as [[_ ->]|(y & ry & El' & Hy & _ & Iy & ->)]; unfold h1; rewrite ?lookup_insert_ne by (intros ->; done); done.
    + by rewrite Eo2.
    + intros I. apply Nq, elem_of_app. apply elem_of_app in I as [I|I]; [by left|].
      apply elem_of_cons in I as [->|I]; [done|by right].
    + by rewrite lookup_insert_ne.
    + intros x I. rewrite lookup_insert_ne; [done|]. intros ->.
      destruct (chain_lookup _ _ _ _ (ro_chain _ _ _ R q rq Hq) I). congruence.
  - by rewrite Eb.
Qed.

Lemma forall2_last_nil {A B} (R : A -> B -> Prop) (l : list A) (k : list B) : Forall2 R l k -> last l = None -> k = [].
Proof. intros F E. apply last_None in E. subst. by inversion F. Qed.

(** What attaching does to the heap, as [relink]. *)
Lemma attach_exec_bos (s : page_store) page p d l1 m :
  ps_heap s !! p = None -> ps_bos_end s = last l1 -> (l1 = [] -> m = ps_header_pages s) ->
  (forall x, last l1 = Some x -> exists r, ps_heap s !! x = Some r /\ rb_next r = m) ->
  make_refbuf_with_page page s =
    (p, PageStore (<[p := Refbuf (lenZ (page_bytes page)) 1 None None false]> (ps_heap s)) d (ps_header_pages s)
          (ps_header_pages_tail s) (ps_bos_end s) (ps_buffers s)) ->
  ogg_page_bos page = true ->
  format_ogg_attach_header page s =
    Some (PageStore (relink l1 p (<[p := Refbuf (lenZ (page_bytes page)) 1 None m false]> (ps_heap s))) d
            (match l1 with [] => Some p | _ => ps_header_pages s end)
            (match m with None => Some p | Some _ => ps_header_pages_tail s end) (Some p) (ps_buffers s)).
Proof.
  intros Hp Eb Hm Hl Em B. unfold format_ogg_attach_header. rewrite Em, B. unfold bos_get, bos_set, upd_ptr, relink.
  cbn [ps_bos_end ps_heap ps_header_pages ps_header_pages_tail]. rewrite Eb. destruct (last l1) as [x|] eqn:El.
  - destruct (Hl x eq_refl) as (r & Hx & En). assert (p <> x) as Nx by congruence.
    assert (forall r', <[p := r']> (ps_heap s) !! x = Some r) as Hx' by (intros r'; by rewrite lookup_insert_ne).
    rewrite Hx'. run_bind. rewrite En, lookup_insert_eq, insert_insert_eq. run_bind. cbn. rewrite !Hx'.
    cbn. by destruct l1.
  - apply last_None in El. subst l1. rewrite (Hm eq_refl). run_bind. cbn. rewrite lookup_insert_eq, insert_insert_eq. run_bind.
    done.
Qed.

Lemma attach_exec_other (s : page_store) page p d :
  ps_heap s !! p = None ->
  (forall x, ps_header_pages_tail s = Some x -> is_Some (ps_heap s !! x)) ->
  make_refbuf_with_page page s =
    (p, PageStore (<[p := Refbuf (lenZ (page_bytes page)) 1 None None false]> (ps_heap s)) d (ps_header_pages s)
          (ps_header_pages_tail s) (ps_bos_end s) (ps_buffers s)) ->
  ogg_page_bos page = false ->
  forall hs, ps_header_pages_tail s = last hs -> (hs = [] <-> ps_header_pages s = None) ->
  format_ogg_attach_header page s =
    Some (PageStore (relink hs p (<[p := Refbuf (lenZ (page_bytes page)) 1 None None false]> (ps_heap s))) d
            (match hs with [] => Some p | _ => ps_header_pages s end) (Some p) (ps_bos_end s) (ps_buffers s)).
Proof.
  intros Hp Ht Em B hs T E. unfold format_ogg_attach_header. rewrite Em, B. unfold upd_ptr, relink.
  cbn [ps_bos_end ps_heap ps_header_pages ps_header_pages_tail ps_data ps_buffers]. rewrite <- T.
  assert (match ps_header_pages s with Some p' => Some p' | None => Some p end =
          match hs with [] => Some p | _ => ps_header_pages s end) as Ea.
  { destruct hs, (ps_header_pages s) as [a|]; try done; [by pose proof (proj1 E eq_refl)|by pose proof (proj2 E eq_refl)]. }
  destruct (ps_header_pages_tail s) as [x|].
  - destruct (Ht x eq_refl) as [r Hx]. rewrite lookup_insert_ne by congruence. rewrite Hx. run_bind. by rewrite <- Ea.
  - run_bind. by rewrite <- Ea.
Qed.

Lemma attach_ok s sp own hs page sp' :
  store_ok s sp own hs -> spec_exec (Attach page) sp = Some sp' ->
  exists s' own' hs', store_exec (Attach page) s = Some s' /\ store_ok s' sp' own' hs'.
Proof.
  intros K E. cbn [spec_exec] in E. destruct (sp_used sp) eqn:U; [done|].
  destruct (make_refbuf_with_page page s) as [p s1] eqn:Em. cbn [store_exec].
  destruct (new_page_ok _ _ _ _ _ _ _ K Em) as (Hp & N & _ & Es & _). rewrite Es in Em. pose proof K as [R C P T B L F Bu D].
  destruct (ogg_page_bos page) eqn:Bos; injection E as <-.
  - set (k := length (sp_bos sp)) in *.
    assert (length (take k hs) = k) as Lk.
    { apply length_take_le. pose proof (Forall2_length _ _ _ P) as Q. unfold spec_headers in Q. rewrite length_app in Q. lia. }
    rewrite <- (take_drop k hs) in K, C. destruct (chain_split _ _ _ _ C) as (m & Cm & Hm & Hl).
    rewrite (attach_exec_bos s page p _ (take k hs) m Hp B Hm Hl Em Bos).
    eexists _, own, _. split; [done|]. eapply insert_page_ok; [exact K|done|exact Em| | | | | | | | |]; try done.
    + rewrite last_app_cons. destruct (drop k hs) as [|y l2] eqn:El.
      * inversion Cm; subst. done.
      * inversion Cm; subst. rewrite last_cons_cons, T. rewrite <- (take_drop k hs), El, last_app_cons. done.
    + cbn [sp_bos]. rewrite length_app. cbn [length]. fold k. rewrite take_app, Lk, take_ge by lia.
      replace (k + 1 - k)%nat with 1%nat by lia. rewrite firstn_cons, firstn_O. by rewrite last_snoc.
    + unfold spec_headers in *. cbn [sp_bos sp_rest]. rewrite <- app_assoc.
      rewrite <- (take_drop k hs) in P. apply Forall2_app_inv in P as [P1 P2]; [|done].
      rewrite <- (take_drop k hs) in N. apply not_elem_of_app in N as [N1 N2].
      apply Forall2_app; [by apply pages_frame|]. constructor; [apply lookup_insert_eq|by apply pages_frame].
  - assert (last hs = None <-> hs = []) as Eh by apply last_None.
    erewrite (attach_exec_other s page p); [|exact Hp| |exact Em|exact Bos|exact T|].
    + eexists _, own, _. split; [done|]. rewrite <- (app_nil_r hs) in K.
      eapply (insert_page_ok s sp own hs [] page p _ None); [exact K|done|exact Em| | | | | | | | |]; try done.
      * constructor.
      * intros ->. by inversion C.
      * rewrite <- (app_nil_r hs) in C. destruct (chain_split _ _ _ _ C) as (m & Cm & _ & Hl). inversion Cm; subst. done.
      * by rewrite last_snoc.
      * cbn [sp_bos]. rewrite B. f_equal. rewrite take_app_le; [done|].
        pose proof (Forall2_length _ _ _ P) as Q. unfold spec_headers in Q. rewrite length_app in Q. lia.
      * unfold spec_headers in *. cbn [sp_bos sp_rest]. rewrite app_assoc.
        apply Forall2_app; [by apply pages_frame|]. constructor; [apply lookup_insert_eq|constructor].
    + intros x Hx. rewrite T in Hx. apply last_Some_elem_of in Hx.
      destruct (chain_lookup _ _ _ _ C Hx) as [? ?]. eauto.
    + split; [intros ->; by inversion C|]. intros Ec. rewrite Ec in C. by inversion C.
Qed.

Lemma store_exec_ok a s sp own hs sp' :
  store_ok s sp own hs -> spec_exec a sp = Some sp' ->
  exists s' own' hs', store_exec a s = Some s' /\ store_ok s' sp' own' hs'.
Proof.
  intros K E. destruct a as [page| |page|n|n|n|n]; [by eapply attach_ok| | | | | |].
  - destruct (free_ok _ _ _ _ _ K E) as (? & ? & ?). eauto.
  - destruct (make_ok _ _ _ _ _ _ K E) as (? & ? & ?). eauto.
  - destruct (store_addref_ok _ _ _ _ _ _ K E) as (? & ? & ?). eauto.
  - destruct (store_release_ok _ _ _ _ _ _ K E) as (? & ? & ?). eauto.
  - destruct (mark_ok _ _ _ _ _ _ K E) as (? & ? & ?). eauto.
  - destruct (complete_ok _ _ _ _ _ _ K E) as (? & ? & ?). eauto.
Qed.

Lemma store_run_ok acts s sp own hs sp' :
  store_ok s sp own hs -> spec_run acts sp = Some sp' ->
  exists s' own' hs', store_run acts s = Some s' /\ store_ok s' sp' own' hs'.
Proof.
  revert s sp own hs. induction acts as [|a acts IH]; intros s sp own hs K E; cbn [spec_run store_run] in *.
  - injection E as <-. eauto.
  - destruct (spec_exec a sp) as [sp1|] eqn:E1; [|done]. run_bind.
    destruct (store_exec_ok _ _ _ _ _ _ K E1) as (s1 & own1 & hs1 & -> & K1). run_bind. by eapply IH.
Qed.

Lemma store_run_app a1 a2 s : store_run (a1 ++ a2) s = s ← store_run a1 s; store_run a2 s.
Proof.
  revert s. induction a1 as [|a a1 IH]; intros s; [done|]. cbn [app store_run].
  destruct (store_exec a s) as [s1|]; [|done]. run_bind. apply IH.
Qed.
Lemma spec_run_app a1 a2 s : spec_run (a1 ++ a2) s = s ← spec_run a1 s; spec_run a2 s.
Proof.
  revert s. induction a1 as [|a a1 IH]; intros s; [done|]. cbn [app spec_run].
  destruct (spec_exec a s) as [s1|]; [|done]. run_bind. apply IH.
Qed.

Lemma empty_store_ok : store_ok empty_store empty_spec (fun _ => []) [].
Proof.
  split; cbn; try done; try by constructor.
Qed.

(** What a listener reads of the page at [p]. *)
Definition page_shows (s : page_store) (p : ptr) (b : spec_buffer) : Prop :=
  exists r l, ps_heap s !! p = Some r /\ ps_data s !! p = Some (sb_data b) /\ rb_sync r = sb_sync b /\
    chain (ps_heap s) (rb_assoc r) l /\ Forall2 (bytes_of (ps_data s)) l (default [] (sb_headers b)).

Lemma store_ok_shows s sp own hs n b :
  store_ok s sp own hs -> held n sp = Some b -> exists p, ps_buffers s !! n = Some p /\ page_shows s p b.
Proof.
  intros K Hn. destruct (held_page _ _ _ _ _ _ K Hn) as (p & r & Hp & Hb & Pb & Hr & Hd & Hs & N & Z & Rp & Ep & A).
  exists p. split; [done|]. exists r, (own p). pose proof (ro_chain _ _ _ (so_refs _ _ _ _ K) p r Hr) as C.
  split_and!; try done. destruct (sb_headers b) as [l|]; [done|]. rewrite A in C. inversion C. constructor.
Qed.

Lemma store_ok_drained s sp own hs :
  store_ok s sp own hs -> spec_headers sp = [] -> (forall n, held n sp = None) -> ps_heap s = ∅.
Proof.
  intros [R C P T B L F Bu D] Eh N. eapply refs_ok_drained; [exact R|]. intros p. unfold ext_of.
  rewrite Eh in P. apply Forall2_nil_inv_r in P. subst hs. cbn. apply refs_at_zero. intros i b _ Hb.
  specialize (N i). unfold held in N. rewrite Hb in N. cbn [mbind option_bind] in N.
  destruct (Nat.ltb_spec 0 (sb_refs b)); [done|lia].
Qed.

(** C11: the buffers of the Ogg plugin are as good as copies.  Take any order
    of header pages put on the list, the list given up, pages made for the
    queue, marked, given the list, and their references taken and given back,
    in which only pages that are referred to are touched and no header page
    comes after a page that has got the list.  Then no step reads or releases a
    buffer that is gone; every page still referred to shows its own bytes, its
    mark and, in order, first pages before the others, exactly the header
    pages that were on the list when it got it, whatever became of the list
    later; and when nothing is referred to and the list is empty, no buffer is
    left. *)
Theorem ogg_store_refines acts sp :
  spec_run acts empty_spec = Some sp ->
  exists s, store_run acts empty_store = Some s /\
    (forall n b, held n sp = Some b -> exists p, ps_buffers s !! n = Some p /\ page_shows s p b) /\
    (spec_headers sp = [] -> (forall n, held n sp = None) -> ps_heap s = ∅).
Proof.
  intros E. destruct (store_run_ok _ _ _ _ _ _ empty_store_ok E) as (s & own & hs & -> & K).
  exists s. split; [done|]. split; [intros n b; by apply (store_ok_shows s sp own hs)|by apply (store_ok_drained s sp own hs)].
Qed.
End spec.

(** A list of two header pages, the first page second, that two pages get; it
    is given up while one of them is still in the queue, and another list
    begins. *)
Definition example_actions : list store_action :=
  [Attach (toy_page 1 false "h"); Attach (toy_page 2 true "b"); Make (toy_page 1 false "one"); Complete 0; Mark 0;
   Make (toy_page 1 false "two"); Complete 1; Addref 1; Release 0; Release 1; FreeHeaders; Attach (toy_page 3 true "c")].

Lemma ogg_store_refines_witness :
  (forall sp, spec_run example_actions empty_spec = Some sp ->
     exists s, store_run example_actions empty_store = Some s /\
       (forall n b, held n sp = Some b -> exists p, ps_buffers s !! n = Some p /\ page_shows s p b) /\
       (spec_headers sp = [] -> (forall n, held n sp = None) -> ps_heap s = ∅)) /\
  exists sp, spec_run example_actions empty_spec = Some sp /\ held 0 sp = None /\
    held 1 sp = Some (SpecBuffer (page_bytes (toy_page 1 false "two"))
                        (Some [page_bytes (toy_page 2 true "b"); page_bytes (toy_page 1 false "h")]) false 1).
Proof.
  split.
  - intros sp. exact (ogg_store_refines example_actions sp).
  - eexists. split; [reflexivity|]. split; reflexivity.
Defined.
