(* ===== verification/OggFacts.v ===== *)
(** The Ogg plugin and its buffers: whatever pages come, what it asks of the
    store of [OggStore.v] is in order, unless a header page comes after a
    completed page; every call for a buffer comes to an end; the headers of
    Opus are read within their bounds. *)

From S2P Require Import Prelude Refbuf Ebml Ogg OggExample OggVorbis OggPlugin OggStore.
Local Open Scope Z_scope.

(** ** References as a list of holders *)

Definition refs (n : nat) (sp : spec_store) : nat := match sp_buffers sp !! n with Some b => sb_refs b | None => 0%nat end.

(** The references to every page are those of the list. *)
Definition held_by (sp : spec_store) (l : list nat) : Prop := forall n, refs n sp = count_occ Nat.eq_dec l n.

(** Which pages have got the list of header pages. *)
Definition lists (sp : spec_store) : list (option (list bytes)) := sb_headers <$> sp_buffers sp.
Definition same_lists (sp sp' : spec_store) : Prop := spec_headers sp' = spec_headers sp /\ lists sp' = lists sp.

Lemma counts_perm sp l l' : l ≡ₚ l' -> held_by sp l -> held_by sp l'.
Proof. intros P C n. rewrite C. revert n. by apply Permutation_count_occ. Qed.

#[export] Instance counts_proper sp : Proper (Permutation ==> iff) (held_by sp).
Proof. intros l l' P. split; apply counts_perm; by rewrite P. Qed.

Lemma count_cons n l k : count_occ Nat.eq_dec (n :: l) k = ((if decide (n = k) then 1 else 0) + count_occ Nat.eq_dec l k)%nat.
Proof. cbn. destruct (Nat.eq_dec n k); case_decide; done. Qed.

Lemma counts_held sp n l : held_by sp (n :: l) -> exists b, held n sp = Some b /\ sp_buffers sp !! n = Some b /\ (0 < sb_refs b)%nat.
Proof.
  intros C. specialize (C n). rewrite count_cons, decide_True in C by done. unfold refs in C. unfold held.
  destruct (sp_buffers sp !! n) as [b|]; [|lia]. run_bind. exists b.
  destruct (Nat.ltb_spec 0 (sb_refs b)); [done|lia].
Qed.

Lemma refs_set n b sp k : is_Some (sp_buffers sp !! n) -> refs k (set_buffer n b sp) = if decide (n = k) then sb_refs b else refs k sp.
Proof.
  intros L. unfold refs, set_buffer. cbn. case_decide as E.
  - subst. by rewrite list_lookup_insert_eq by by apply lookup_lt_is_Some.
  - by rewrite list_lookup_insert_ne.
Qed.

Lemma lists_set n b sp : (exists b', sp_buffers sp !! n = Some b' /\ sb_headers b' = sb_headers b) -> lists (set_buffer n b sp) = lists sp.
Proof.
  intros (b' & Hb & E). unfold lists, set_buffer. cbn. rewrite list_fmap_insert, <- E. apply list_insert_id.
  by rewrite list_lookup_fmap, Hb.
Qed.

Lemma addref_counts sp n l :
  held_by sp (n :: l) -> exists sp', spec_exec (Addref n) sp = Some sp' /\ held_by sp' (n :: n :: l) /\ same_lists sp sp'.
Proof.
  intros C. destruct (counts_held _ _ _ C) as (b & H & Hb & P). cbn [spec_exec]. rewrite H. run_bind.
  eexists. split; [done|]. split; [|split; [done|apply lists_set; eauto]].
  intros k. rewrite refs_set by eauto. specialize (C k). rewrite !count_cons in *. unfold refs in *. case_decide as E; cbn [sb_refs set_refs].
  - subst. rewrite Hb in C. lia.
  - lia.
Qed.

Lemma release_counts sp n l :
  held_by sp (n :: l) -> exists sp', spec_exec (Release n) sp = Some sp' /\ held_by sp' l /\ same_lists sp sp'.
Proof.
  intros C. destruct (counts_held _ _ _ C) as (b & H & Hb & P). cbn [spec_exec]. rewrite H. run_bind.
  eexists. split; [done|]. split; [|split; [done|apply lists_set; eauto]].
  intros k. rewrite refs_set by eauto. specialize (C k). rewrite count_cons in *. unfold refs in *. case_decide as E; cbn [sb_refs set_refs].
  - subst. rewrite Hb in C. lia.
  - lia.
Qed.

Lemma mark_counts sp n l :
  held_by sp (n :: l) -> exists sp', spec_exec (Mark n) sp = Some sp' /\ held_by sp' (n :: l) /\ same_lists sp sp'.
Proof.
  intros C. destruct (counts_held _ _ _ C) as (b & H & Hb & P). cbn [spec_exec]. rewrite H. run_bind.
  eexists. split; [done|]. split; [|split; [done|apply lists_set; eauto]].
  intros k. rewrite refs_set by eauto. case_decide as E; [|apply C]. subst. rewrite <- C. unfold refs. by rewrite Hb.
Qed.

Lemma make_counts `{LibOgg} sp page l :
  held_by sp l -> exists sp', spec_exec (Make page) sp = Some sp' /\ held_by sp' (length (sp_buffers sp) :: l) /\
    sp_used sp' = sp_used sp /\ lists sp' = lists sp ++ [None].
Proof.
  intros C. eexists. split; [done|]. split; [|split; [done|unfold lists; cbn; by rewrite fmap_app]].
  intros k. specialize (C k). rewrite count_cons. unfold refs in *. cbn. case_decide as E.
  - subst. rewrite lookup_ge_None_2 in C by done. rewrite lookup_app_r, Nat.sub_diag by done. cbn. lia.
  - destruct (decide (k < length (sp_buffers sp))%nat).
    + rewrite lookup_app_l by done. lia.
    + rewrite (lookup_ge_None_2 (_ ++ _)) by (rewrite length_app; cbn; lia). rewrite lookup_ge_None_2 in C by lia. lia.
Qed.

Lemma complete_counts sp n l :
  held_by sp (n :: l) -> lists sp !! n = Some None ->
  exists sp' hs, spec_exec (Complete n) sp = Some sp' /\ held_by sp' (n :: l) /\ lists sp' = <[n := Some hs]> (lists sp).
Proof.
  intros C N. destruct (counts_held _ _ _ C) as (b & H & Hb & P). cbn [spec_exec]. rewrite H. run_bind.
  unfold lists in N. rewrite list_lookup_fmap, Hb in N. injection N as ->. eexists _, _. split; [done|]. split.
  - intros k. unfold refs at 1. cbn [sp_buffers set_buffer].
    rewrite <- C. unfold refs. destruct (decide (k = n)) as [->|E].
    + rewrite Hb, list_lookup_insert_eq by by eapply lookup_lt_Some. done.
    + by rewrite list_lookup_insert_ne.
  - unfold lists. cbn. by rewrite list_fmap_insert.
Qed.

(** ** Actions in order *)

Section actions.
Context {lib : LibOgg} {codecs : CodecLibs}.

(** A header page comes after a page that has got the list. *)
Definition late (acts : list store_action) (sp : spec_store) : Prop :=
  exists pre page post sp1, acts = pre ++ Attach page :: post /\ spec_run pre sp = Some sp1 /\ sp_used sp1 = true.

Definition runs (acts : list store_action) (sp : spec_store) (P : spec_store -> Prop) : Prop :=
  late acts sp \/ exists sp', spec_run acts sp = Some sp' /\ P sp'.

Lemma runs_nil sp (P : spec_store -> Prop) : P sp -> runs [] sp P.
Proof. right. exists sp. by split. Qed.
Lemma runs_mono acts sp (P Q : spec_store -> Prop) : runs acts sp P -> (forall sp', P sp' -> Q sp') -> runs acts sp Q.
Proof. intros [L|(sp' & E & H)] M; [by left|right; eauto]. Qed.

Lemma late_app_l a1 a2 sp : late a1 sp -> late (a1 ++ a2) sp.
Proof.
  intros (pre & page & post & sp1 & -> & E & U). exists pre, page, (post ++ a2), sp1. split; [by rewrite <- app_assoc|done].
Qed.
Lemma late_app_r a1 a2 sp sp1 : spec_run a1 sp = Some sp1 -> late a2 sp1 -> late (a1 ++ a2) sp.
Proof.
  intros E1 (pre & page & post & sp2 & -> & E & U). exists (a1 ++ pre), page, post, sp2. split; [by rewrite app_assoc|].
  rewrite spec_run_app, E1. run_bind. done.
Qed.
Lemma runs_app a1 a2 sp (P Q : spec_store -> Prop) :
  runs a1 sp P -> (forall sp', P sp' -> runs a2 sp' Q) -> runs (a1 ++ a2) sp Q.
Proof.
  intros [L|(sp1 & E1 & H1)] R; [left; by apply late_app_l|]. destruct (R sp1 H1) as [L|(sp2 & E2 & H2)].
  - left. by eapply late_app_r.
  - right. exists sp2. split; [|done]. rewrite spec_run_app, E1. run_bind. done.
Qed.
Lemma runs_exec a sp sp' (P : spec_store -> Prop) : spec_exec a sp = Some sp' -> P sp' -> runs [a] sp P.
Proof. intros E H. right. exists sp'. cbn [spec_run]. rewrite E. by run_bind. Qed.
Lemma runs_cons a l sp (P Q : spec_store -> Prop) : runs [a] sp P -> (forall sp', P sp' -> runs l sp' Q) -> runs (a :: l) sp Q.
Proof. apply (runs_app [a]). Qed.

(** Header pages put on the list, and lists given up. *)
Definition plain (a : store_action) : bool := match a with Attach _ | FreeHeaders => true | _ => false end.

Lemma plain_runs acts sp l :
  Forall plain acts -> held_by sp l -> runs acts sp (fun sp' => held_by sp' l /\ lists sp' = lists sp).
Proof.
  intros F. revert sp. induction F as [|a acts Pa F IH]; intros sp C; [by apply runs_nil|].
  eapply (runs_cons _ _ _ (fun sp' => held_by sp' l /\ lists sp' = lists sp)).
  - destruct a as [page| | | | | |]; try done.
    + destruct (sp_used sp) eqn:U; [left; exists [], page, [], sp; done|].
      destruct (ogg_page_bos page) eqn:B; (eapply runs_exec; [cbn; by rewrite U, B|]); done.
    + eapply runs_exec; [done|]. done.
  - intros sp' [C' E]. eapply runs_mono; [by apply IH|]. cbn. intros sp2 [? ?]. split; [done|congruence].
Qed.

(** *** The page to start with *)

Definition start_of (s : option nat) : list nat := match s with Some n => [n] | None => [] end.
Inductive start_run (made : nat) : option nat -> list store_action -> option nat -> Prop :=
| start_same s : start_run made s [] s
| start_new s l s' : start_run made (Some made) l s' -> start_run made s (new_start made s ++ l) s'
| start_mark s l s' : start_run made None l s' -> start_run made s (mark_start s ++ l) s'.

Lemma start_run_runs made s l s' :
  start_run made s l s' -> forall sp q P, held_by sp (made :: start_of s ++ q) ->
  (forall sp', held_by sp' (made :: start_of s' ++ q) -> lists sp' = lists sp -> P sp') -> runs l sp P.
Proof.
  induction 1 as [s|s l s' H IH|s l s' H IH]; intros sp q P C K.
  - apply runs_nil. by apply K.
  - eapply (runs_app _ _ _ (fun sp1 => held_by sp1 (made :: [made] ++ q) /\ lists sp1 = lists sp)).
    + destruct s as [n|]; cbn [new_start app] in *.
      * apply (counts_perm _ _ (n :: made :: q)) in C; [|constructor].
        destruct (release_counts _ _ _ C) as (sp1 & E1 & C1 & _ & L1).
        destruct (addref_counts _ _ _ C1) as (sp2 & E2 & C2 & _ & L2).
        eapply runs_cons; [by eapply (runs_exec _ _ sp1 (fun s => s = sp1))|]. intros ? ->.
        eapply runs_exec; [done|]. split; [done|congruence].
      * destruct (addref_counts _ _ _ C) as (sp2 & E2 & C2 & _ & L2). eapply runs_exec; done.
    + intros sp1 [C1 L1]. eapply IH; [exact C1|]. intros sp2 C2 L2. apply K; [done|congruence].
  - eapply (runs_app _ _ _ (fun sp1 => held_by sp1 (made :: q) /\ lists sp1 = lists sp)).
    + destruct s as [n|]; cbn [mark_start start_of app] in *; [|by apply runs_nil].
      apply (counts_perm _ _ (n :: made :: q)) in C; [|constructor].
      destruct (mark_counts _ _ _ C) as (sp1 & E1 & C1 & _ & L1).
      destruct (release_counts _ _ _ C1) as (sp2 & E2 & C2 & _ & L2).
      eapply runs_cons; [by eapply (runs_exec _ _ sp1 (fun s => s = sp1))|]. intros ? ->.
      eapply runs_exec; [done|]. split; [done|congruence].
    + intros sp1 [C1 L1]. eapply IH; [exact C1|]. intros sp2 C2 L2. apply K; [done|congruence].
Qed.

(** ** Pages *)

Inductive reply_ok (made : nat) (codec codec' : ogg_codec) : reply -> Prop :=
| reply_plain l e :
    Forall plain l -> oc_possible_start codec' = oc_possible_start codec -> reply_ok made codec codec' (Reply l false e)
| reply_page page l :
    start_run made (oc_possible_start codec) l (oc_possible_start codec') ->
    reply_ok made codec codec' (Reply (Make page :: l) true false).

Definition page_ok (made : nat) (codec : ogg_codec) (r : option (reply * ogg_codec * plugin)) : Prop :=
  forall rp codec' pl, r = Some (rp, codec', pl) -> oc_id codec' = oc_id codec /\ reply_ok made codec codec' rp.

Lemma page_plain made codec codec' l e pl :
  Forall plain l -> oc_id codec' = oc_id codec -> oc_possible_start codec' = oc_possible_start codec ->
  page_ok made codec (Some (Reply l false e, codec', pl)).
Proof. intros F I P rp c p [= <- <- <-]. split; [done|by constructor]. Qed.
Lemma page_queue made codec codec' page l pl :
  oc_id codec' = oc_id codec -> start_run made (oc_possible_start codec) l (oc_possible_start codec') ->
  page_ok made codec (Some (queue_page page l, codec', pl)).
Proof. intros I P rp c p [= <- <- <-]. split; [done|by constructor]. Qed.
Lemma page_none made codec : page_ok made codec None.
Proof. by intros rp c p. Qed.
Lemma plain_headers l : Forall plain (Attach <$> l).
Proof. induction l; by constructor. Qed.

Ltac page_case :=
  cbn zeta; run_bind;
  first [ apply page_none
        | apply page_plain; [first [apply plain_headers | by constructor]|done|done]
        | apply page_queue; [done|by constructor] ].

Lemma process_theora_ok made codec ti prev page pl : page_ok made codec (process_theora_page made codec ti prev page pl).
Proof.
  unfold process_theora_page. destruct (ogg_stream_pagein _ _) as [[] os]; [|page_case].
  destruct (packets _ _ _) as [[os' l]|]; [|page_case]. run_bind. destruct (tl_failed l); [page_case|].
  destruct (tl_header_page l); [page_case|].
  assert (forall acts start,
            (forall s' l', start_run made start l' s' -> start_run made (oc_possible_start codec) (acts ++ l') s') ->
            let '(acts, start) := if tl_has_keyframe l then (acts ++ mark_start start, None) else (acts, start) in
            start_run made (oc_possible_start codec) acts start) as M.
  { intros acts start M. destruct (tl_has_keyframe l).
    - apply M. rewrite <- (app_nil_r (mark_start _)). constructor. constructor.
    - rewrite <- (app_nil_r acts). apply M. constructor. }
  destruct (negb _ || _).
  - specialize (M (new_start made (oc_possible_start codec)) (Some made) (fun s' l' H => start_new _ _ _ _ H)).
    destruct (tl_has_keyframe l); by apply page_queue.
  - specialize (M [] (oc_possible_start codec) (fun s' l' H => H)). destruct (tl_has_keyframe l); by apply page_queue.
Qed.

Lemma process_kate_ok made codec done ki n prev page pl : page_ok made codec (process_kate_page made codec done ki n prev page pl).
Proof.
  unfold process_kate_page. destruct (ogg_stream_pagein _ _) as [[] os]; [|page_case].
  destruct (packets _ _ _) as [[os' l]|]; [|page_case]. run_bind. destruct (kl_end l); try page_case.
  destruct (kl_header_page l); [page_case|]. destruct (negb _ || _); apply page_queue; try done.
  - apply start_mark. rewrite <- (app_nil_r (new_start _ _)). constructor. constructor.
  - rewrite <- (app_nil_r (mark_start _)). constructor. constructor.
Qed.

Lemma process_vorbis_page_ok made alone codec v page pl : page_ok made codec (Some (process_vorbis_page alone codec v page pl)).
Proof.
  unfold process_vorbis_page. destruct (ogg_stream_pagein _ _) as [[] os]; [|page_case]. cbn [negb].
  cbn zeta. destruct (oc_headers _ =? 3); [destruct (vb_initial_audio_page v); page_case|].
  destruct (vorbis_header_packets _ _ _) as [os' h]. destruct (vh_failed h); [page_case|].
  destruct (_ <? 3); [destruct alone; [page_case|apply page_plain; [repeat constructor|done|done]]|].
  destruct alone; [page_case|]. apply page_plain; [repeat constructor|done|done].
Qed.

Lemma process_page_ok made alone codec page pl : page_ok made codec (process_page made alone codec page pl).
Proof.
  unfold process_page. destruct (oc_kind codec) as [v []| | | | | | |].
  - page_case.
  - apply process_vorbis_page_ok.
  - apply process_theora_ok.
  - unfold process_midi_page. destruct (ogg_stream_pagein _ _) as [[] os]; page_case.
  - unfold process_flac_page. destruct (oc_headers codec =? 0); [page_case|].
    destruct (ogg_stream_pagein _ _) as [[] os]; [|page_case]. cbn [negb].
    destruct (flac_packets _ _ _) as [[[os' h] []]|]; [page_case| |page_case]. run_bind.
    destruct (negb (h =? 0)); [|page_case]. apply page_plain; [repeat constructor|done|done].
  - unfold process_speex_page. destruct (oc_headers codec <? 2); [|page_case]. destruct (ogg_stream_pagein _ _) as [ok os].
    destruct (packets _ _ _) as [[os' h]|]; [|page_case]. run_bind. apply page_plain; [repeat constructor|done|done].
  - apply process_kate_ok.
  - unfold process_skeleton_page. destruct (ogg_stream_pagein _ _) as [[] os]; [|page_case]. cbn [negb].
    destruct (packets _ _ _) as [[os' h]|]; [|page_case]. run_bind. apply page_plain; [repeat constructor|done|done].
  - unfold process_opus_page. destruct (oc_headers codec <? 2); [|page_case]. destruct (ogg_stream_pagein _ _) as [ok os].
    destruct (packets _ _ _) as [[os' h]|]; [|page_case]. run_bind. apply page_plain; [repeat constructor|done|done].
Qed.

(** ** The plugin *)

Definition starts (l : list ogg_codec) : list nat := concat ((fun c => start_of (oc_possible_start c)) <$> l).

Record ogg_ok (s : ogg_state) : Prop := {
  oo_ids : NoDup (oc_id <$> og_codecs s);
  oo_next : Forall (fun i => i < og_next_id s) (oc_id <$> og_codecs s);
  oo_error : og_running s = true -> og_error s = false
}.

Lemma starts_app l k : starts (l ++ k) = starts l ++ starts k.
Proof. unfold starts. by rewrite fmap_app, concat_app. Qed.

(** What a step does to the store: [buffer], whether it has made a page. *)
Definition after (buffer : bool) (s s' : ogg_state) (q : list nat) (sp sp' : spec_store) : Prop :=
  held_by sp' ((if buffer then [og_made s] else []) ++ starts (og_codecs s') ++ q) /\
  lists sp' = lists sp ++ (if buffer then [None] else []) /\
  og_made s' = ((if buffer then 1 else 0) + og_made s)%nat.

Lemma replace_split c c' l :
  NoDup (oc_id <$> l) -> c ∈ l -> oc_id c' = oc_id c ->
  exists l1 l2, l = l1 ++ c :: l2 /\ replace_codec c' l = l1 ++ c' :: l2.
Proof.
  intros ND I E. induction l as [|d l IH]; [by apply elem_of_nil in I|]. cbn [replace_codec].
  cbn in ND. apply NoDup_cons in ND as [N ND]. rewrite E. destruct (Z.eqb_spec (oc_id d) (oc_id c)) as [Ed|Ed].
  - apply elem_of_cons in I as [->|I]; [by exists [], l|]. exfalso. apply N. rewrite Ed. by apply list_elem_of_fmap_2.
  - apply elem_of_cons in I as [->|I]; [done|]. destruct (IH ND I) as (l1 & l2 & -> & ->). by exists (d :: l1), l2.
Qed.

Lemma find_elem {A} (f : A -> bool) (l : list A) x : find f l = Some x -> x ∈ l /\ f x = true.
Proof. intros H. apply find_some in H as [I E]. by rewrite list_elem_of_In. Qed.

(** A codec is put in the place of itself. *)
Lemma replace_ok s c c' s' :
  ogg_ok s -> c ∈ og_codecs s -> oc_id c' = oc_id c ->
  og_codecs s' = replace_codec c' (og_codecs s) -> og_next_id s' = og_next_id s ->
  (og_running s' = true -> og_error s' = false) ->
  ogg_ok s' /\ exists r, starts (og_codecs s) ≡ₚ start_of (oc_possible_start c) ++ r /\
    starts (og_codecs s') ≡ₚ start_of (oc_possible_start c') ++ r.
Proof.
  intros [ND Nx Er] I E Es En Er'. destruct (replace_split c c' _ ND I E) as (l1 & l2 & E1 & E2).
  assert (oc_id <$> og_codecs s' = oc_id <$> og_codecs s) as Ei.
  { rewrite Es, E2, E1, !fmap_app, !fmap_cons, E. done. }
  split; [split; [by rewrite Ei|by rewrite Ei, En|done]|]. exists (starts l1 ++ starts l2). rewrite Es, E2, E1, !starts_app.
  unfold starts at 2 5. cbn [fmap list_fmap concat]. fold (starts l2). split; solve_Permutation.
Qed.

Lemma length_lists sp : length (sp_buffers sp) = length (lists sp).
Proof. unfold lists. by rewrite length_fmap. Qed.

Lemma process_ogg_page_runs page s acts buffer s' q sp :
  ogg_ok s -> og_running s = true -> process_ogg_page page s = Some (acts, buffer, s') ->
  held_by sp (starts (og_codecs s) ++ q) -> og_made s = length (lists sp) ->
  runs acts sp (after buffer s s' q sp) /\ og_running s' = true /\
  (buffer = true -> og_error s' = false) /\ (og_error s' = false -> ogg_ok s') /\
  NoDup (oc_id <$> og_codecs s') /\ Forall (fun i => i < og_next_id s') (oc_id <$> og_codecs s').
Proof.
  intros K Ru E C M. pose proof K as [ND Nx Er]. unfold process_ogg_page in E. destruct (find _ (og_codecs s)) as [c|] eqn:F.
  2: { injection E as <- <- <-. split; [|by split_and!]. apply runs_nil. split_and!; cbn; [done|by rewrite app_nil_r|done]. }
  apply find_elem in F as [I _]. destruct (process_page _ _ _ _ _) as [[[r c'] pl]|] eqn:P; [|done]. run_bind.
  destruct (process_page_ok _ _ _ _ _ _ _ _ P) as [Ei R]. injection E as <- <- <-.
  set (s1 := set_current _ _). set (s2 := if rp_error r then set_og_error s1 else s1).
  set (s3 := if rp_queued r then made_one s2 else s2).
  assert (og_codecs s3 = replace_codec c' (og_codecs s) /\ og_next_id s3 = og_next_id s /\ og_running s3 = true /\
          og_made s3 = ((if rp_queued r then 1 else 0) + og_made s)%nat /\ og_error s3 = rp_error r) as (Ec & En & Er3 & Em & Ee).
  { unfold s3, s2. destruct (rp_queued r), (rp_error r); cbn; rewrite ?(Er Ru); done. }
  destruct (replace_ok s c c' (set_og_error (set_codecs (og_codecs s3) (stop_running s))) K I Ei) as [K3 (x & S1 & S2)].
  { done. } { done. } { done. }
  cbn [og_codecs set_og_error set_codecs] in S2. destruct K3 as [ND3 Nx3 _]. cbn in ND3, Nx3.
  split; [|split_and!; try done].
  - rewrite S1 in C. rewrite <- app_assoc in C. destruct R as [l e F Ep|page' l R]; cbn [rp_actions rp_queued] in *.
    + eapply runs_mono; [by eapply plain_runs|]. cbn. intros sp' [C' L']. split_and!; [|by rewrite app_nil_r|done].
      cbn [app]. rewrite S2, Ep, <- app_assoc. exact C'.
    + eapply (runs_cons _ _ _ (fun sp1 => held_by sp1 (og_made s :: start_of (oc_possible_start c) ++ x ++ q) /\
                                          lists sp1 = lists sp ++ [None])).
      * destruct (make_counts sp page' _ C) as (sp1 & E1 & C1 & _ & L1). eapply runs_exec; [exact E1|].
        rewrite length_lists, <- M in C1. done.
      * intros sp1 [C1 L1]. eapply (start_run_runs _ _ _ _ R sp1 (x ++ q)); [exact C1|].
        intros sp2 C2 L2. split_and!; [|congruence|done]. cbn [app]. rewrite S2, <- app_assoc. exact C2.
  - intros B. rewrite Ee. destruct R; [discriminate B|done].
  - split; try done. by rewrite En.
  - by rewrite En.
Qed.

(** *** The rebuilding of Vorbis *)

Lemma call_get_buffer_plain rand v page acts v' : call_get_buffer_page rand v = Some (page, acts, v') -> Forall plain acts.
Proof.
  unfold call_get_buffer_page. destruct (vb_get_buffer_page v).
  - intros [= _ <- _]. constructor.
  - destruct (get_buffer_header v) as [[l v1]|]; [|done]. run_bind. intros [= _ <- _]. apply plain_headers.
  - destruct (get_buffer_audio v) as [p v1]. intros [= _ <- _]. constructor.
  - unfold get_buffer_finished. destruct (ogg_stream_flush _) as [[p|] os]; intros [= _ <- _]; repeat constructor.
Qed.

Lemma process_vorbis_plain rand server_id fuel os v pl acts page os' v' pl' :
  process_vorbis rand server_id fuel os v pl = Some (acts, page, os', v', pl') -> Forall plain acts.
Proof.
  revert os v pl acts. induction fuel as [|fuel IH]; intros os v pl acts; cbn [process_vorbis]; [done|].
  destruct (call_get_buffer_page rand v) as [[[p a] v1]|] eqn:E; [|done]. apply call_get_buffer_plain in E. run_bind.
  destruct p; [by intros [= <- _ _ _ _]|]. destruct (call_process_packet _ _ _ _) as [[[[more os1] v2] pl1]|]; [|done]. run_bind.
  destruct more; [|by intros [= <- _ _ _ _]].
  destruct (process_vorbis _ _ fuel os1 v2 pl1) as [[[[[a' p] os2] v3] pl2]|] eqn:E2; [|done]. run_bind.
  intros [= <- <- <- <- <-]. apply Forall_app. split; [done|]. by eapply IH.
Qed.

Lemma process_current_runs rand server_id s acts buffer s' q sp :
  ogg_ok s -> process_current rand server_id s = Some (acts, buffer, s') ->
  held_by sp (starts (og_codecs s) ++ q) -> og_made s = length (lists sp) ->
  runs acts sp (after buffer s s' q sp) /\ ogg_ok s' /\ og_running s' = og_running s.
Proof.
  intros K E C M. unfold process_current in E. destruct (current_codec s) as [[[c v] b]|] eqn:Ec.
  2: { injection E as <- <- <-. split; [|done]. apply runs_nil. split_and!; [done|by rewrite app_nil_r|done]. }
  destruct (process_vorbis _ _ _ _ _ _) as [[[[[a page] os] v1] pl]|] eqn:Ev; [|done]. run_bind.
  apply process_vorbis_plain in Ev. unfold current_codec in Ec. destruct (og_current s) as [id|]; [|done].
  cbn [mbind option_bind] in Ec, E. destruct (find _ (og_codecs s)) as [c0|] eqn:F; [|done]. apply find_elem in F as [I _]. cbn [mbind option_bind] in Ec.
  destruct (oc_kind c0) as [v0 b0| | | | | | |]; try discriminate Ec. injection Ec as -> -> ->.
  set (c' := set_kind _ _) in *.
  assert (forall s1, og_codecs s1 = replace_codec c' (og_codecs s) -> og_next_id s1 = og_next_id s ->
            og_running s1 = og_running s -> og_error s1 = og_error s ->
            ogg_ok s1 /\ starts (og_codecs s1) ≡ₚ starts (og_codecs s)) as R.
  { intros s1 H1 H2 H3 H4. destruct (replace_ok s c c' s1 K I) as [K1 (x & S1 & S2)]; try done.
    - rewrite H3, H4. apply (oo_error _ K).
    - split; [done|]. by rewrite S2, S1. }
  destruct page as [page|]; injection E as <- <- <-.
  - edestruct (R (made_one (set_plugin pl (set_codecs (replace_codec c' (og_codecs s)) s)))) as [K1 P]; try done.
    split; [|done]. eapply (runs_app _ _ _ (fun sp1 => held_by sp1 (starts (og_codecs s) ++ q) /\ lists sp1 = lists sp)).
    + by eapply plain_runs.
    + intros sp1 [C1 L1]. destruct (make_counts sp1 page _ C1) as (sp2 & E2 & C2 & _ & L2). eapply runs_exec; [exact E2|].
      split_and!; [|congruence|done]. rewrite P. rewrite length_lists, L1, <- M in C2. exact C2.
  - edestruct (R (set_current None (set_plugin pl (set_codecs (replace_codec c' (og_codecs s)) s)))) as [K1 P]; try done.
    split; [|done]. eapply runs_mono; [by eapply plain_runs|]. intros sp1 [C1 L1]. split_and!; [|by rewrite app_nil_r|done].
    rewrite P. exact C1.
Qed.

(** *** First pages *)

Lemma releases_runs (P : spec_store -> Prop) l q sp :
  held_by sp (starts l ++ q) -> (forall sp', held_by sp' q -> same_lists sp sp' -> P sp') ->
  runs (concat (release_start <$> l)) sp P.
Proof.
  revert sp. induction l as [|c l IH]; intros sp C H; [apply runs_nil; by apply H|].
  cbn [fmap list_fmap concat]. unfold starts in C. cbn [fmap list_fmap concat] in C. fold (starts l) in C.
  unfold release_start at 1. destruct (oc_possible_start c) as [n|]; cbn [start_of app] in *; [|by apply IH].
  destruct (release_counts _ _ _ C) as (sp1 & E1 & C1 & H1 & L1).
  eapply (runs_cons _ _ _ (fun s => s = sp1)); [by eapply runs_exec|]. intros ? ->. apply IH; [done|].
  intros sp2 C2 [H2 L2]. apply H; [done|split; congruence].
Qed.

Lemma free_ogg_codecs_runs s q sp :
  held_by sp (starts (og_codecs s) ++ q) ->
  runs (free_ogg_codecs s).1 sp (fun sp' => held_by sp' q /\ lists sp' = lists sp /\ spec_headers sp' = []).
Proof.
  intros C. cbn [free_ogg_codecs fst].
  eapply (runs_cons _ _ _ (fun s1 => s1 = SpecStore [] [] false (sp_buffers sp))); [by eapply runs_exec|].
  intros ? ->. eapply releases_runs; [exact C|]. intros sp2 C2 [H2 L2]. done.
Qed.

Lemma process_initial_page_runs rand page s acts s' q sp :
  ogg_ok s -> og_running s = true -> process_initial_page rand page s = Some (acts, s') ->
  held_by sp (starts (og_codecs s) ++ q) -> og_made s = length (lists sp) ->
  runs acts sp (after false s s' q sp) /\ og_running s' = true /\ (og_error s' = false -> ogg_ok s') /\
  NoDup (oc_id <$> og_codecs s') /\ Forall (fun i => i < og_next_id s') (oc_id <$> og_codecs s').
Proof.
  intros K Ru E C M. unfold process_initial_page in E. revert E.
  match goal with |- context [if og_bos_completed s then ?x else ?y] => set (z := if og_bos_completed s then x else y) end.
  assert (exists a s0, z = (a, s0) /\ runs a sp (after false s s0 q sp) /\ ogg_ok s0 /\ og_running s0 = true /\
                       og_error s0 = false /\ og_made s0 = og_made s) as (a & s0 & -> & R0 & K0 & Ru0 & Er0 & M0).
  { unfold z. pose proof K as [ND Nx Er]. destruct (og_bos_completed s).
    - eexists _, _. split; [done|]. split; [|split; [split; [constructor|constructor|done]|split_and!; try done; by apply Er]].
      eapply runs_mono; [apply (free_ogg_codecs_runs s q sp C)|]. intros sp' (C' & L' & _). split_and!; [done|by rewrite app_nil_r|done].
    - exists [], s. split; [done|]. split; [|split_and!; try done; by apply Er]. apply runs_nil.
      split_and!; [done|by rewrite app_nil_r|done]. }
  pose proof K0 as [ND0 Nx0 _]. destruct (10 <? og_codec_count s0); [intros [= <- <-]; by split_and!|].
  destruct (first_packet page) as [[packet| |] os]; [|done|done].
  destruct (recognise _ _ _ _) as [[[r|] pl]|]; [|intros [= <- <-]; by split_and!|done]. run_bind. intros [= <- <-].
  assert (NoDup (og_next_id s0 :: (oc_id <$> og_codecs s0))) as ND1.
  { apply NoDup_cons. split; [|done]. intros I. rewrite Forall_forall in Nx0. specialize (Nx0 _ I). cbn in Nx0. lia. }
  assert (Forall (fun i => i < og_next_id s0 + 1) (og_next_id s0 :: (oc_id <$> og_codecs s0))) as Nx1.
  { constructor; [lia|]. eapply Forall_impl; [exact Nx0|]. cbn. lia. }
  split_and!; try done.
  eapply runs_app; [exact R0|]. intros sp1 (C1 & L1 & _).
  eapply runs_mono; [apply plain_runs; [destruct (rc_attach r); repeat constructor|exact C1]|].
  intros sp2 [C2 L2]. split_and!; [exact C2|congruence|done].
Qed.

(** *** Turns and calls *)

Variables (rand : Z) (server_id : string).

(** A page that was queued has got its list. *)
Definition completed (sp : spec_store) (n : nat) : Prop := exists hs, lists sp !! n = Some (Some hs).

(** The queue and the codecs hold the references there are. *)
Record pages_ok (s : ogg_state) (q : list nat) (sp : spec_store) : Prop := {
  po_counts : held_by sp (starts (og_codecs s) ++ q);
  po_made : og_made s = length (lists sp);
  po_done : Forall (completed sp) q
}.

Lemma completed_lists sp sp' l q : lists sp' = lists sp ++ l -> Forall (completed sp) q -> Forall (completed sp') q.
Proof.
  intros L F. eapply Forall_impl; [exact F|]. intros n [hs H]. exists hs. rewrite L. by apply lookup_app_l_Some.
Qed.

Lemma complete_ogg_ok n s : ogg_ok s -> ogg_ok (complete_buffer n s).2.
Proof. intros [? ? ?]. unfold complete_buffer. by destruct (pl_log_metadata _). Qed.
Lemma complete_same n s :
  og_codecs (complete_buffer n s).2 = og_codecs s /\ og_made (complete_buffer n s).2 = og_made s.
Proof. unfold complete_buffer. by destruct (pl_log_metadata _). Qed.

Lemma complete_buffer_runs s s0 q sp sp0 :
  after true s0 s q sp0 sp -> pages_ok s0 q sp0 \/ og_made s0 = length (lists sp0) -> Forall (completed sp0) q ->
  runs (complete_buffer (og_made s - 1) s).1 sp (pages_ok (complete_buffer (og_made s - 1) s).2 ((og_made s - 1)%nat :: q)).
Proof.
  intros (C & L & M) M0 F. destruct (complete_same (og_made s - 1) s) as [Ec Em].
  assert (og_made s0 = length (lists sp0)) as Ml by (destruct M0 as [[]|]; done). clear M0.
  assert ((og_made s - 1)%nat = og_made s0) as E by lia. rewrite E in *. cbn [app] in C.
  destruct (complete_counts sp (og_made s0) _ C) as (sp1 & hs & E1 & C1 & L1).
  { rewrite L, Ml. rewrite lookup_app_r, Nat.sub_diag by done. done. }
  assert (lists sp1 = lists sp0 ++ [Some hs]) as L1'.
  { rewrite L1, L, Ml, insert_app_r_alt, Nat.sub_diag by done. done. }
  assert (forall sp2, held_by sp2 (og_made s0 :: starts (og_codecs s) ++ q) -> lists sp2 = lists sp1 ->
            pages_ok (complete_buffer (og_made s0) s).2 (og_made s0 :: q) sp2) as K.
  { intros sp2 C2 L2. split.
    - rewrite Ec. eapply counts_perm; [|exact C2]. solve_Permutation.
    - rewrite Em, L2, L1', M, Ml, length_app. cbn. lia.
    - constructor; [|apply (completed_lists sp0 sp2 [Some hs]); [congruence|exact F]].
      exists hs. rewrite L2, L1', Ml, lookup_app_r, Nat.sub_diag by done. done. }
  unfold complete_buffer in *. cbn [fst snd] in *. eapply runs_cons; [by eapply (runs_exec _ _ sp1 (fun s => s = sp1))|]. intros ? ->.
  destruct (og_codec_sync _).
  - apply runs_nil. by apply K.
  - destruct (mark_counts sp1 (og_made s0) _ C1) as (sp2 & E2 & C2 & _ & L2). eapply runs_exec; [exact E2|]. by apply K.
Qed.

(** The pages a turn gives to the queue. *)
Definition given (t : turn) : list nat := match t with Return (Some n) => [n] | _ => [] end.

Lemma after_pages s s' q sp sp' : after false s s' q sp sp' -> pages_ok s q sp -> pages_ok s' q sp'.
Proof.
  intros (C & L & M) [_ Ml F]. rewrite app_nil_r in L. split; [exact C|by rewrite M, L|].
  apply (completed_lists sp sp' []); [by rewrite L, app_nil_r|exact F].
Qed.

Lemma page_turn_runs page s c acts t s' c' q sp :
  ogg_ok s -> og_running s = true -> page_turn rand page s c = Some (acts, t, s', c') -> pages_ok s q sp ->
  runs acts sp (pages_ok s' (given t ++ q)) /\ ogg_ok s' /\ (t = Again -> og_running s' = true).
Proof.
  intros K Ru E P. pose proof P as [C M F]. unfold page_turn in E.
  assert (forall acts0 buffer s0,
    runs acts0 sp (after buffer s s0 q sp) -> og_running s0 = true -> (buffer = true -> og_error s0 = false) ->
    (og_error s0 = false -> ogg_ok s0) ->
    NoDup (oc_id <$> og_codecs s0) -> Forall (fun i => i < og_next_id s0) (oc_id <$> og_codecs s0) ->
    (if og_error s0 then Some (acts0, Return None, stop_running s0, c)
     else if buffer : bool then return_buffer acts0 s0 c else Some (acts0, Again, s0, c)) = Some (acts, t, s', c') ->
    runs acts sp (pages_ok s' (given t ++ q)) /\ ogg_ok s' /\ (t = Again -> og_running s' = true)) as D.
  { intros acts0 buffer s0 R Ru0 B K0 ND Nx. destruct (og_error s0) eqn:Er.
    - intros [= <- <- <- _]. destruct buffer; [by specialize (B eq_refl)|]. split; [|by split; [split|]].
      eapply runs_mono; [exact R|]. intros sp' A. by apply (after_pages s (stop_running s0) q sp).
    - destruct buffer; [|intros [= <- <- <- _]; split; [|by split; [apply K0|]]; eapply runs_mono; [exact R|]; intros sp' A; by apply (after_pages s _ q sp)].
      unfold return_buffer. destruct (complete_buffer _ s0) as [more s1] eqn:Ec. intros [= <- <- <- _].
      split; [|split; [|done]; pose proof (complete_ogg_ok (og_made s0 - 1) s0 (K0 eq_refl)) as K1; by rewrite Ec in K1].
      eapply runs_app; [exact R|]. intros sp1 A.
      pose proof (complete_buffer_runs s0 s q sp1 sp A (or_intror M) F) as H. by rewrite Ec in H. }
  destruct (ogg_page_bos page).
  - destruct (process_initial_page _ _ _) as [[a s0]|] eqn:E1; [|done]. revert E. run_bind. intros E.
    destruct (process_initial_page_runs _ _ _ _ _ q sp K Ru E1 C M) as (R & ? & ? & ? & ?). by eapply (D a false s0).
  - destruct (process_ogg_page _ _) as [[[a b] s0]|] eqn:E1; [|done]. revert E. run_bind. intros E.
    assert (ogg_ok (set_bos_completed s)) as K1 by (by destruct K).
    destruct (process_ogg_page_runs _ _ _ _ _ q sp K1 Ru E1 C M) as (R & ? & ? & ? & ? & ?). by eapply (D a b s0).
Qed.

Lemma ogg_turn_runs s c acts t s' c' q sp :
  ogg_ok s -> og_running s = true -> ogg_turn rand server_id s c = Some (acts, t, s', c') -> pages_ok s q sp ->
  runs acts sp (fun sp' => pages_ok s' (given t ++ q) sp' /\ ogg_ok s' /\ (t = Again -> og_running s' = true)).
Proof.
  intros K Ru E P. pose proof P as [C M F]. unfold ogg_turn in E.
  destruct (process_current _ _ _) as [[[a b] s0]|] eqn:E1; [|done]. revert E. run_bind. intros E.
  destruct (process_current_runs _ _ _ _ _ _ q sp K E1 C M) as (R & K0 & Ru0). rewrite Ru in Ru0. destruct b.
  - unfold return_buffer in E. destruct (complete_buffer _ s0) as [more s1] eqn:Ec. injection E as <- <- <- _.
    eapply runs_app; [exact R|]. intros sp1 A. pose proof (complete_buffer_runs s0 s q sp1 sp A (or_intror M) F) as H.
    pose proof (complete_ogg_ok (og_made s0 - 1) s0 K0) as K1. rewrite Ec in H, K1. eapply runs_mono; [exact H|]. by intros sp' ?.
  - assert (forall s1 sp1, og_codecs s1 = og_codecs s0 -> og_made s1 = og_made s0 -> after false s s0 q sp sp1 -> pages_ok s1 q sp1) as P1.
    { intros s1 sp1 H1 H2 A. apply (after_pages s s1 q sp); [|done]. unfold after in *. by rewrite H1, H2. }
    assert (forall oy, ogg_ok (set_oy oy s0)) as K1 by (intros oy; by destruct K0).
    destruct (ogg_sync_pageout (og_oy s0)) as [[page|] oy].
    + destruct (page_turn _ _ _ _) as [[[[a2 t2] s2] c2]|] eqn:E2; [|done]. revert E. run_bind. intros [= <- <- <- _].
      eapply runs_app; [exact R|]. intros sp1 A.
      destruct (page_turn_runs _ _ _ _ _ _ _ _ _ (K1 oy) Ru0 E2 (P1 (set_oy oy s0) sp1 eq_refl eq_refl A)) as (R2 & K2 & Ru2).
      eapply runs_mono; [exact R2|]. by intros sp2 ?.
    + revert E. run_bind. unfold read_turn. destruct (connection_read 4096 c) as [[[|x d]|] c2]; intros [= <- <- <- _];
        (eapply runs_app; [exact R|]; intros sp1 A; apply runs_nil; split_and!; [by apply P1|by destruct K0|done]).
Qed.

Lemma ogg_get_buffer_runs fuel s c acts r s' c' q sp :
  ogg_ok s -> og_running s = true -> ogg_get_buffer rand server_id fuel s c = Some (acts, r, s', c') -> pages_ok s q sp ->
  runs acts sp (fun sp' => pages_ok s' (given (Return r) ++ q) sp' /\ ogg_ok s').
Proof.
  revert s c acts sp c'. induction fuel as [|fuel IH]; intros s c acts sp c' K Ru; cbn [ogg_get_buffer]; [done|].
  destruct (ogg_turn _ _ s c) as [[[[a t] s1] c1]|] eqn:E1; [|done]. run_bind. intros E P.
  pose proof (ogg_turn_runs _ _ _ _ _ _ _ _ K Ru E1 P) as R. destruct t as [b|].
  - injection E as <- <- <- _. eapply runs_mono; [exact R|]. by intros sp' (? & ? & _).
  - destruct (ogg_get_buffer _ _ fuel s1 c1) as [[[[a2 r2] s2] c2]|] eqn:E2; [|done]. revert E. run_bind. intros [= <- <- <- _].
    eapply runs_app; [exact R|]. intros sp1 (P1 & K1 & Ru1). by eapply IH; [| |exact E2|]; auto.
Qed.
End actions.

(** ** The plugin, its queue and the store *)

Section world.
Context {lib : LibOgg} {codecs : CodecLibs}.
Variables (rand : Z) (server_id : string).

(** The plugin, the references the rest of the server holds to pages, and what
    was done to buffers. *)
Record world := World { w_ogg : ogg_state; w_queue : list nat; w_log : list store_action }.

(** A call for the next buffer, with whatever the connection brings; the
    taking and the giving back of a reference to a page from the queue. *)
Inductive world_step : world -> world -> Prop :=
| step_get fuel s c acts r s' c' q log :
    og_running s = true -> ogg_get_buffer rand server_id fuel s c = Some (acts, r, s', c') ->
    world_step (World s q log) (World s' (given (Return r) ++ q) (log ++ acts))
| step_take s n q log : n ∈ q -> world_step (World s q log) (World s (n :: q) (log ++ [Addref n]))
| step_give s q1 n q2 log : world_step (World s (q1 ++ n :: q2) log) (World s (q1 ++ q2) (log ++ [Release n])).

Definition new_world (contenttype : string) : world := World (format_ogg_get_plugin contenttype).2 [] [].

Lemma world_step_runs w w' sp :
  world_step w w' -> pages_ok (w_ogg w) (w_queue w) sp -> ogg_ok (w_ogg w) ->
  exists acts, w_log w' = w_log w ++ acts /\
    runs acts sp (fun sp' => pages_ok (w_ogg w') (w_queue w') sp' /\ ogg_ok (w_ogg w')).
Proof.
  intros S P K. destruct S as [fuel s c acts r s' c' q log Ru E|s n q log I|s q1 n q2 log]; cbn in *.
  - exists acts. split; [done|]. by eapply ogg_get_buffer_runs.
  - exists [Addref n]. split; [done|]. destruct P as [C M F]. apply elem_of_Permutation in I as [q' I].
    assert (held_by sp (n :: starts (og_codecs s) ++ q')) as C1 by (eapply counts_perm; [|exact C]; rewrite I; solve_Permutation).
    destruct (addref_counts _ _ _ C1) as (sp1 & E1 & C2 & _ & L1). eapply runs_exec; [exact E1|]. split; [|done].
    assert (Forall (completed sp1) q) as F1 by (apply (completed_lists sp sp1 []); [by rewrite app_nil_r|done]).
    split; [eapply counts_perm; [|exact C2]; rewrite I; solve_Permutation|by rewrite L1|constructor; [|done]].
    rewrite I in F1. by inversion F1.
  - exists [Release n]. split; [done|]. destruct P as [C M F].
    assert (held_by sp (n :: starts (og_codecs s) ++ q1 ++ q2)) as C1 by (eapply counts_perm; [|exact C]; solve_Permutation).
    destruct (release_counts _ _ _ C1) as (sp1 & E1 & C2 & _ & L1). eapply runs_exec; [exact E1|]. split; [|done].
    split; [exact C2|by rewrite L1|]. apply (completed_lists sp sp1 []); [by rewrite app_nil_r|].
    apply Forall_app in F as [F1 F2]. inversion F2. by apply Forall_app.
Qed.

Lemma world_runs contenttype w :
  rtc world_step (new_world contenttype) w ->
  runs (w_log w) empty_spec (fun sp => pages_ok (w_ogg w) (w_queue w) sp /\ ogg_ok (w_ogg w)).
Proof.
  revert w. apply rtc_ind_r; [|intros w w' _ S IH].
  - apply runs_nil. split; [split; [done|done|constructor]|split; [constructor|constructor|done]].
  - destruct IH as [L|(sp & E & P & K)].
    + left. destruct S; by apply late_app_l.
    + destruct (world_step_runs _ _ _ S P K) as (acts & -> & [L|(sp' & E' & P')]).
      * left. by eapply late_app_r.
      * right. exists sp'. rewrite spec_run_app, E. by run_bind.
Qed.

Lemma no_attach_not_late acts sp : Forall (fun a => match a with Attach _ => False | _ => True end) acts -> ~ late acts sp.
Proof. intros F (pre & page & post & sp1 & -> & _). apply Forall_app in F as [_ F]. by inversion F. Qed.

Lemma free_plugin_no_attach s : Forall (fun a => match a with Attach _ => False | _ => True end) (format_ogg_free_plugin s).
Proof.
  unfold format_ogg_free_plugin. cbn. constructor; [done|]. induction (og_codecs s) as [|c l IH]; [constructor|].
  cbn. apply Forall_app. split; [|done]. unfold release_start. destruct (oc_possible_start c); repeat constructor.
Qed.

(** C10: the Ogg plugin never misuses its buffers.  Let a source deliver any
    bytes in any portions, and let the rest of the server take and give back
    references to the pages it was given, as often and in whatever order: then
    either some page of headers came after a page that already had its list of
    header pages, or every step was done on buffers that were there, every
    page the server still refers to shows its bytes and carries a list of
    header pages, and once the server has given everything back the end of the
    plugin leaves no buffer behind. *)
Theorem ogg_pages_safe contenttype w :
  rtc world_step (new_world contenttype) w ->
  late (w_log w) empty_spec \/
  exists sp s, spec_run (w_log w) empty_spec = Some sp /\ store_run (w_log w) empty_store = Some s /\
    (forall n, n ∈ w_queue w -> exists b hs p, held n sp = Some b /\ sb_headers b = Some hs /\
       ps_buffers s !! n = Some p /\ page_shows s p b) /\
    (w_queue w = [] -> exists s', store_run (format_ogg_free_plugin (w_ogg w)) s = Some s' /\ ps_heap s' = ∅).
Proof.
  intros R. destruct (world_runs _ _ R) as [L|(sp & E & P & K)]; [by left|right].
  destruct (store_run_ok _ _ _ _ _ _ empty_store_ok E) as (s & own & hs & Es & Ok). exists sp, s.
  split; [done|]. split; [done|]. split.
  - intros n I. destruct P as [C M F]. rewrite Forall_forall in F. destruct (F n I) as [h Hh].
    apply elem_of_Permutation in I as [q I].
    destruct (counts_held sp n (starts (og_codecs (w_ogg w)) ++ q)) as (b & Hb & Hl & _).
    { eapply counts_perm; [|exact C]. rewrite I. solve_Permutation. }
    destruct (store_ok_shows _ _ _ _ _ _ Ok Hb) as (p & Hp & Sh). exists b, h, p. split_and!; try done.
    unfold lists in Hh. rewrite list_lookup_fmap, Hl in Hh. by injection Hh.
  - intros Q. destruct P as [C _ _]. rewrite Q in C.
    destruct (free_ogg_codecs_runs _ _ _ C) as [L|(sp1 & E1 & C1 & L1 & H1)].
    { by destruct (no_attach_not_late _ sp (free_plugin_no_attach (w_ogg w))). }
    destruct (store_run_ok _ _ _ _ _ _ Ok E1) as (s1 & own1 & hs1 & Es1 & Ok1). exists s1. split; [done|].
    eapply (store_ok_drained _ _ _ _ Ok1 H1). intros n. specialize (C1 n). unfold refs in C1. unfold held.
    destruct (sp_buffers sp1 !! n) as [b|]; [|done]. cbn in C1 |- *. by rewrite C1.
Qed.
End world.

(** A stream with three header pages and two pages of data, the second of
    which is one to start with; both are put in the queue, and one is given
    back. *)
Definition example_stream : bytes :=
  concat (page_bytes <$> [toy_page 7 true "t1"; toy_page 7 false "t2"; toy_page 7 false "t3"; toy_page 7 false "x";
                          toy_page 7 false "kk"]).
Definition example_conn : conn := Conn [Some example_stream] false.

Definition example_get (s : ogg_state) (c : conn) :=
  default ([], None, s, c) (ogg_get_buffer 5 "server" 20 s c).
Definition example_1 := example_get (w_ogg (new_world "application/ogg")) example_conn.
Definition example_2 := example_get example_1.1.2 example_1.2.
Definition example_world : world :=
  World example_2.1.2 [1%nat] ((example_1.1.1.1 ++ example_2.1.1.1) ++ [Release 0]).

Lemma example_reached : rtc (world_step 5 "server") (new_world "application/ogg") example_world.
Proof.
  eapply rtc_l; [apply (step_get _ _ 20 _ example_conn example_1.1.1.1 (Some 0%nat) example_1.1.2 example_1.2);
                 vm_compute; reflexivity|].
  eapply rtc_l; [apply (step_get _ _ 20 _ example_1.2 example_2.1.1.1 (Some 1%nat) example_2.1.2 example_2.2);
                 vm_compute; reflexivity|].
  eapply rtc_l; [apply (step_give _ _ example_2.1.2 [1%nat] 0 [])|]. apply rtc_refl.
Qed.

Lemma ogg_pages_safe_witness :
  rtc (world_step 5 "server") (new_world "application/ogg") example_world /\
  w_log example_world =
    [Attach (toy_page 7 true "t1"); Attach (toy_page 7 false "t2"); Attach (toy_page 7 false "t3");
     Make (toy_page 7 false "x"); Addref 0; Complete 0;
     Make (toy_page 7 false "kk"); Release 0; Addref 1; Mark 1; Release 1; Complete 1; Release 0] /\
  (late (w_log example_world) empty_spec \/
   exists sp s, spec_run (w_log example_world) empty_spec = Some sp /\ store_run (w_log example_world) empty_store = Some s /\
     (forall n, n ∈ w_queue example_world -> exists b hs p, held n sp = Some b /\ sb_headers b = Some hs /\
        ps_buffers s !! n = Some p /\ page_shows s p b) /\
     (w_queue example_world = [] ->
        exists s', store_run (format_ogg_free_plugin (w_ogg example_world)) s = Some s' /\ ps_heap s' = ∅)).
Proof.
  split; [exact example_reached|]. split; [vm_compute; reflexivity|].
  exact (ogg_pages_safe 5 "server" "application/ogg" example_world example_reached).
Defined.

(** A stream of two Speex streams, the second of which sends its comments
    after data of the first. *)
Definition speex_head : string := String.string_of_list_ascii (replicate 80 "S"%char).
Definition late_stream : bytes :=
  concat (page_bytes <$> [toy_page 1 true speex_head; toy_page 2 true speex_head; toy_page 1 false "c1"; toy_page 1 false "d";
                          toy_page 2 false "c2"; toy_page 2 false "e"]).
Definition late_1 := example_get (w_ogg (new_world "application/ogg")) (Conn [Some late_stream] false).
Definition late_2 := example_get late_1.1.2 late_1.2.
Definition late_world : world :=
  World late_2.1.2 [1%nat] ((late_1.1.1.1 ++ late_2.1.1.1) ++ [Release 0]).

Lemma late_reached : rtc (world_step 5 "server") (new_world "application/ogg") late_world.
Proof.
  eapply rtc_l; [apply (step_get _ _ 20 _ (Conn [Some late_stream] false) late_1.1.1.1 (Some 0%nat) late_1.1.2 late_1.2);
                 vm_compute; reflexivity|].
  eapply rtc_l; [apply (step_get _ _ 20 _ late_1.2 late_2.1.1.1 (Some 1%nat) late_2.1.2 late_2.2);
                 vm_compute; reflexivity|].
  eapply rtc_l; [apply (step_give _ _ late_2.1.2 [1%nat] 0 [])|]. apply rtc_refl.
Qed.

(** A header page that comes late is freed with the first page that carries
    the list, and is still on the list: the next page of the queue, when it is
    given back, reaches it. *)
Lemma ogg_late_header :
  rtc (world_step 5 "server") (new_world "application/ogg") late_world /\
  is_Some (store_run (w_log late_world) empty_store) /\
  store_run (w_log late_world ++ [Release 1] ++ format_ogg_free_plugin (w_ogg late_world)) empty_store = None.
Proof. split; [exact late_reached|]. split; [eexists; vm_compute; reflexivity|vm_compute; reflexivity]. Qed.
