(* ===== verification/OggOpus.v ===== *)
(** The headers of Opus streams: they are read within their bounds, and the
    comments that were written come back. *)

From S2P Require Import Prelude Refbuf Ebml Ogg OggExample.
Local Open Scope Z_scope.

Section opus.
Context {lib : LibOgg} {codecs : CodecLibs}.

Lemma lenZ_app_bytes (l k : bytes) : lenZ (l ++ k) = lenZ l + lenZ k.
Proof. unfold lenZ. rewrite length_app. lia. Qed.
Lemma lenZ_drop_bytes (l : bytes) n : 0 <= n <= lenZ l -> lenZ (drop (Z.to_nat n) l) = lenZ l - n.
Proof. unfold lenZ. rewrite length_drop. lia. Qed.

Lemma read_u32_some l : 4 <= lenZ l -> exists z, read_header_u32 l = Some z /\ 0 <= z < 2 ^ 32.
Proof.
  unfold lenZ. destruct l as [|a [|b [|c [|d l]]]]; cbn [length]; try lia. intros _. cbn. eexists. split; [done|].
  pose proof (code_range a). pose proof (code_range b). pose proof (code_range c). pose proof (code_range d). lia.
Qed.

Lemma opus_comments_some n p vc : (n <> 0%nat -> 4 <= lenZ p) -> is_Some (opus_comments n p (lenZ p) vc).
Proof.
  revert p vc. induction n as [|n IH]; intros p vc H; cbn [opus_comments]; [eauto|].
  destruct (read_u32_some p (H ltac:(done))) as (next & -> & Hn). run_bind. specialize (H ltac:(done)).
  pose proof (lenZ_drop_bytes p 4 ltac:(lia)) as L4. change (Z.to_nat 4) with 4%nat in L4. rewrite <- L4.
  destruct (Z.ltb_spec (lenZ (drop 4 p)) next); [eauto|].
  rewrite <- (lenZ_drop_bytes (drop 4 p) next) by lia.
  destruct (negb (Nat.eqb n 0) && _) eqn:E; [eauto|]. apply IH. intros N.
  apply andb_false_iff in E as [E|E]; [|lia]. by destruct n.
Qed.

(** A header is read within the packet, whatever it says. *)
Lemma handle_header_some packet pl : is_Some (handle_header packet pl).
Proof.
  unfold handle_header. set (l := op_packet packet). destruct (lenZ l <? 8); [eauto|].
  case_bool_decide.
  - unfold handle_header_opushead. destruct (Z.ltb_spec (lenZ l) 19) as [|L]; [eauto|].
    destruct (lookup_lt_is_Some_2 l 8) as [v ->]; [unfold lenZ in L; lia|]. run_bind. destruct (negb _); [eauto|].
    destruct (lookup_lt_is_Some_2 l 9) as [c ->]; [unfold lenZ in L; lia|]. run_bind.
    destruct (read_u32_some (drop 12 l)) as (z & -> & _); [|run_bind; eauto]. unfold lenZ in *. rewrite length_drop. lia.
  - case_bool_decide; [|eauto]. unfold handle_header_opustags. destruct (Z.ltb_spec (lenZ l) 16) as [|L]; [eauto|].
    pose proof (lenZ_drop_bytes l 8 ltac:(lia)) as L8. change (Z.to_nat 8) with 8%nat in L8. rewrite <- L8.
    destruct (read_u32_some (drop 8 l)) as (next & -> & Hn); [lia|]. run_bind.
    pose proof (lenZ_drop_bytes (drop 8 l) 4 ltac:(lia)) as L12. change (Z.to_nat 4) with 4%nat in L12. rewrite <- L12.
    rewrite wrap_small by lia. destruct (Z.ltb_spec (lenZ (drop 4 (drop 8 l))) (next + 4)); [eauto|].
    rewrite <- (lenZ_drop_bytes (drop 4 (drop 8 l)) next) by lia. set (p := drop (Z.to_nat next) _).
    assert (lenZ p = lenZ (drop 4 (drop 8 l)) - next) as Lp by (apply lenZ_drop_bytes; lia).
    destruct (read_u32_some p) as (n & -> & Hc); [lia|]. run_bind.
    pose proof (lenZ_drop_bytes p 4 ltac:(lia)) as Lq. change (Z.to_nat 4) with 4%nat in Lq. rewrite <- Lq.
    rewrite wrap_small by lia. destruct (Z.ltb_spec (lenZ (drop 4 p)) (n * 4)); [eauto|].
    destruct (opus_comments_some (Z.to_nat n) (drop 4 p) []) as [[vc|] ->]; [lia| |]; run_bind; eauto.
Qed.

(** ** Writing comments *)

Definition u32_bytes (z : Z) : bytes := [chr z; chr (z / 256); chr (z / 65536); chr (z / 16777216)].
Definition opus_block (s : bytes) : bytes := u32_bytes (lenZ s) ++ s.
Definition opus_comment_header (vendor : bytes) (comments : list string) (rest : bytes) : bytes :=
  opus_tags ++ opus_block vendor ++ u32_bytes (Z.of_nat (length comments)) ++
  concat ((fun c => opus_block (String.list_ascii_of_string c)) <$> comments) ++ rest.

Lemma read_u32_bytes z l : 0 <= z < 2 ^ 32 -> read_header_u32 (u32_bytes z ++ l) = Some z.
Proof.
  intros H. cbn. rewrite !code_chr. f_equal. unfold wrap. change (2 ^ 8) with 256.
  assert (z = z mod 256 + 256 * ((z / 256) mod 256) + 65536 * ((z / 65536) mod 256) + 16777216 * ((z / 16777216) mod 256)) as <-; [|done].
  pose proof (Z.div_mod z 256 ltac:(lia)). pose proof (Z.div_mod (z / 256) 256 ltac:(lia)).
  pose proof (Z.div_mod (z / 65536) 256 ltac:(lia)).
  rewrite Z.div_div in * by lia. change (256 * 256) with 65536 in *. change (65536 * 256) with 16777216 in *.
  rewrite (Z.mod_small (z / 16777216)); [lia|]. split; [apply Z.div_pos; lia|apply Z.div_lt_upper_bound; lia].
Qed.
Lemma drop_u32 z l : drop 4 (u32_bytes z ++ l) = l.
Proof. done. Qed.
Lemma lenZ_u32 z : lenZ (u32_bytes z) = 4.
Proof. done. Qed.
Lemma to_nat_lenZ (s : bytes) : Z.to_nat (lenZ s) = length s.
Proof. unfold lenZ. lia. Qed.

Definition short (c : string) : Prop := lenZ (String.list_ascii_of_string c) < 2 ^ 32.

Lemma concat_blocks_len (cs : list string) : 4 * Z.of_nat (length cs) <= lenZ (concat ((fun c => opus_block (String.list_ascii_of_string c)) <$> cs)).
Proof.
  induction cs as [|c cs IH]; [done|]. cbn [fmap list_fmap concat]. unfold opus_block at 1.
  rewrite !lenZ_app_bytes, lenZ_u32. cbn [length]. unfold lenZ at 1. fold (lenZ). lia.
Qed.

Lemma opus_comments_blocks cs rest vc :
  Forall (fun c => short c /\ nul_free c = true) cs ->
  let p := concat ((fun c => opus_block (String.list_ascii_of_string c)) <$> cs) ++ rest in
  opus_comments (length cs) p (lenZ p) vc = Some (Some (vc ++ cs)).
Proof.
  intros F. revert vc. induction F as [|c cs [Sc Nc] F IH]; intros vc; cbn zeta; [by rewrite app_nil_r|].
  set (s := String.list_ascii_of_string c) in *.
  set (q := concat ((fun c => opus_block (String.list_ascii_of_string c)) <$> cs) ++ rest) in *.
  replace (concat _ ++ rest) with (u32_bytes (lenZ s) ++ s ++ q)
    by (cbn [fmap list_fmap concat]; unfold opus_block at 1; by rewrite <- !app_assoc).
  cbn [length opus_comments].
  rewrite read_u32_bytes by (unfold short in Sc; fold s in Sc; unfold lenZ in *; lia). run_bind. rewrite drop_u32.
  rewrite lenZ_app_bytes, lenZ_u32, lenZ_app_bytes. replace (4 + (lenZ s + lenZ q) - 4) with (lenZ s + lenZ q) by lia.
  destruct (Z.ltb_spec (lenZ s + lenZ q) (lenZ s)) as [X|_]; [unfold lenZ in X; lia|].
  rewrite to_nat_lenZ, take_app_length, drop_app_length. replace (lenZ s + lenZ q - lenZ s) with (lenZ q) by lia.
  unfold s at 1. rewrite String.string_of_list_ascii_of_string, cstr_nul_free by done.
  replace (negb (Nat.eqb (length cs) 0) && (lenZ q <? 4)) with false.
  - rewrite (IH (vc ++ [c])). by rewrite <- app_assoc.
  - symmetry. apply andb_false_iff. destruct cs as [|c' cs]; [by left|right]. apply Z.ltb_ge.
    unfold q. rewrite lenZ_app_bytes. pose proof (concat_blocks_len (c' :: cs)) as L. cbn [length] in L.
    unfold lenZ at 2. lia.
Qed.

(** C14: comments survive an Opus header.  Take a vendor and comments without
    NUL bytes, each shorter than 2^32 bytes and fewer than 2^32 of them, and
    write them in the form of an [OpusTags] packet, with any bytes after
    them: the plugin then has exactly these comments, in order, and will
    announce them. *)
Theorem opus_tags_roundtrip vendor comments rest packet pl :
  lenZ vendor < 2 ^ 32 -> Z.of_nat (length comments) < 2 ^ 32 ->
  Forall (fun c => short c /\ nul_free c = true) comments ->
  op_packet packet = opus_comment_header vendor comments rest ->
  handle_header packet pl = Some (set_log_metadata true (set_vc comments pl)).
Proof.
  intros Hv Hc F E. unfold handle_header. rewrite E. unfold opus_comment_header.
  set (blocks := concat _). set (n := Z.of_nat (length comments)) in *.
  assert (lenZ (opus_tags ++ opus_block vendor ++ u32_bytes n ++ blocks ++ rest) = 16 + lenZ vendor + lenZ blocks + lenZ rest) as L.
  { rewrite !lenZ_app_bytes. unfold opus_block. rewrite lenZ_app_bytes, !lenZ_u32. change (lenZ opus_tags) with 8. lia. }
  assert (0 <= lenZ vendor /\ 0 <= lenZ blocks /\ 0 <= lenZ rest) as (V0 & B0 & R0) by (unfold lenZ; lia).
  rewrite L. destruct (Z.ltb_spec (16 + lenZ vendor + lenZ blocks + lenZ rest) 8); [lia|].
  change (take 8 (opus_tags ++ ?l)) with opus_tags.
  rewrite (bool_decide_eq_false_2 (opus_tags = opus_head)) by done. rewrite bool_decide_eq_true_2 by done.
  unfold handle_header_opustags. rewrite L. destruct (Z.ltb_spec (16 + lenZ vendor + lenZ blocks + lenZ rest) 16); [lia|].
  change (drop 8 (opus_tags ++ ?l)) with l. unfold opus_block. rewrite <- app_assoc, read_u32_bytes by lia. run_bind. rewrite drop_u32.
  rewrite wrap_small by lia. destruct (Z.ltb_spec (16 + lenZ vendor + lenZ blocks + lenZ rest - 8 - 4) (lenZ vendor + 4)); [lia|].
  rewrite to_nat_lenZ, drop_app_length, read_u32_bytes by lia. run_bind. rewrite drop_u32. rewrite wrap_small by lia.
  pose proof (concat_blocks_len comments) as Lb. fold blocks n in Lb.
  destruct (Z.ltb_spec (16 + lenZ vendor + lenZ blocks + lenZ rest - 8 - 4 - lenZ vendor - 4) (n * 4)); [lia|].
  replace (16 + lenZ vendor + lenZ blocks + lenZ rest - 8 - 4 - lenZ vendor - 4) with (lenZ (blocks ++ rest)) by (rewrite lenZ_app_bytes; lia).
  unfold n. rewrite Nat2Z.id. unfold blocks. rewrite (opus_comments_blocks comments rest []) by done. by run_bind.
Qed.
End opus.

Lemma opus_tags_roundtrip_witness :
  let packet := OggPacket (opus_comment_header (String.list_ascii_of_string "libopus") ["ARTIST=me"; "TITLE=it"]%string [NUL]) false 0 1 in
  handle_header packet (Plugin ["OLD=x"%string] false false 0 []) = Some (Plugin ["ARTIST=me"; "TITLE=it"]%string false true 0 []).
Proof.
  apply (opus_tags_roundtrip (String.list_ascii_of_string "libopus") ["ARTIST=me"; "TITLE=it"]%string [NUL]);
    [reflexivity|reflexivity|repeat constructor|reflexivity].
Defined.
