(* ===== verification/OggLoops.v ===== *)
(** The loops of the Ogg plugin end: the rebuilding of a Vorbis stream within
    the turns it is given, and every call for a buffer; a page of a codec is
    worked off, unless a packet is not there. *)

From S2P Require Import Prelude Refbuf Ebml Ogg OggExample OggOpus OggVorbis OggPlugin.
Local Open Scope Z_scope.

Section loops.
Context {lib : LibOgg} {codecs : CodecLibs} {lib_ok : LibOggOk}.

(** ** Vorbis *)

(** What is left to do for a stream: its packets, and the changes from one
    stream to the next. *)
Definition finishing (v : vorbis_codec) : bool := match vb_get_buffer_page v with BufferFinished => true | _ => false end.
Definition notify_left (v : vorbis_codec) : nat := if vb_stream_notify v then 4 else 0.
Definition finish_left (v : vorbis_codec) : nat :=
  match vb_get_buffer_page v, vb_prev_packet v with BufferFinished, Some _ => 2 | _, _ => 0 end.
Definition headers_left (v : vorbis_codec) : nat := match vb_process_packet v with ProcessHeaders => 1 | _ => 0 end.
Definition vorbis_left (os : ogg_stream) (v : vorbis_codec) : nat :=
  (ogg_stream_waiting os + notify_left v + finish_left v + headers_left v)%nat.

(** The header packets are there when they are needed. *)
Definition vorbis_ready (v : vorbis_codec) : Prop :=
  (vb_process_packet v = NoProcess /\ vb_get_buffer_page v = NoBuffer) \/ length (vb_header v) = 3%nat.

(** What the packets of audio leave as it is. *)
Definition audio_core (v : vorbis_codec) : list ogg_packet * process_packet * get_buffer_page * bool :=
  (vb_header v, vb_process_packet v, vb_get_buffer_page v, vb_stream_notify v).

Lemma audio_core_granulepos g v : audio_core (set_granulepos g v) = audio_core v.
Proof. by destruct v. Qed.
Lemma audio_core_samples n v : audio_core (set_samples_in_page n v) = audio_core v.
Proof. by destruct v. Qed.
Lemma audio_core_window n v : audio_core (set_prev_window n v) = audio_core v.
Proof. by destruct v. Qed.
Lemma audio_core_prev p v : audio_core (set_prev_packet p v) = audio_core v.
Proof. by destruct v. Qed.
Lemma audio_core_add_audio packet v : audio_core (add_audio_packet packet v).2 = audio_core v.
Proof. destruct v as [? ? ? ? ? ? ? ? ? ? ? ? b ? ? ? ? ?]. by destruct b. Qed.

Lemma audio_core_flush v : audio_core (initiate_flush v) = (vb_header v, vb_process_packet v, BufferFinished, vb_stream_notify v).
Proof.
  unfold initiate_flush. assert (forall w, audio_core w = audio_core v ->
    audio_core (set_initial_audio_packet true (set_get_buffer_page BufferFinished w)) =
      (vb_header v, vb_process_packet v, BufferFinished, vb_stream_notify v)) as S.
  { intros w. unfold audio_core. destruct w. cbn. by intros [= -> -> _ ->]. }
  destruct (vb_prev_packet v) as [p|]; [|by apply S].
  pose proof (audio_core_add_audio (set_e_o_s true p) v) as C. destruct (add_audio_packet _ v) as [p' v']. apply S. by rewrite audio_core_prev.
Qed.

Lemma audio_packet_core packet v stop v' :
  vorbis_audio_packet packet v = (stop, v') ->
  (vb_get_buffer_page v' = BufferFinished /\ vb_prev_packet v' = None /\ stop = true /\
   (vb_header v', vb_process_packet v', vb_stream_notify v') = (vb_header v, vb_process_packet v, vb_stream_notify v)) \/
  audio_core v' = audio_core v.
Proof.
  unfold vorbis_audio_packet. intros E.
  match type of E with context [let '(p, v) := ?m in _] => set (x := m) in E end.
  assert (audio_core x.2 = audio_core v) as S.
  { unfold x. destruct (vb_prev_packet _) as [prev|]; [|apply audio_core_granulepos].
    match goal with |- context [add_audio_packet prev ?w] => pose proof (audio_core_add_audio prev w) as S; destruct (add_audio_packet prev w) as [? v1] end.
    rewrite audio_core_granulepos in S. cbn [snd] in *. repeat case_match; by rewrite ?audio_core_granulepos, ?audio_core_samples, ?audio_core_granulepos. }
  destruct x as [p w]. cbn [snd] in S. set (w' := set_prev_packet (Some p) _) in E.
  assert (audio_core w' = audio_core v) as S' by (unfold w'; by rewrite audio_core_prev, audio_core_window). destruct (op_e_o_s p).
  - injection E as <- <-. left. pose proof (audio_core_flush w') as F. unfold audio_core in *. destruct (initiate_flush w'). cbn in *.
    injection F as -> -> -> ->. injection S' as -> -> _ ->. done.
  - injection E as _ <-. by right.
Qed.

Lemma left_core os v os' v' :
  audio_core v' = audio_core v -> vb_get_buffer_page v <> BufferFinished -> (ogg_stream_waiting os' < ogg_stream_waiting os)%nat ->
  (vorbis_left os' v' < vorbis_left os v)%nat.
Proof.
  unfold audio_core, vorbis_left, notify_left, finish_left, headers_left. intros [= _ -> -> ->] N W.
  destruct (vb_get_buffer_page v); (lia || done).
Qed.

Lemma process_vorbis_audio_ends fuel os v :
  (ogg_stream_waiting os < fuel)%nat -> vorbis_ready v -> vb_get_buffer_page v <> BufferFinished -> vb_process_packet v = ProcessAudio ->
  exists more os' v', process_vorbis_audio fuel os v = Some (more, os', v') /\ vorbis_ready v' /\
    vb_header v' = vb_header v /\ (more = true -> (vorbis_left os' v' < vorbis_left os v)%nat).
Proof.
  revert os v. induction fuel as [|fuel IH]; intros os v Hf R N A; [lia|]. cbn [process_vorbis_audio].
  assert (length (vb_header v) = 3%nat) as H3 by (destruct R as [[? _]|]; [congruence|done]).
  destruct (ogg_stream_packetout os) as [r os1] eqn:E.
  assert ((ogg_stream_waiting os1 <= ogg_stream_waiting os)%nat) as W.
  { destruct r; [|by apply ogg_stream_packetout_none|]; apply Nat.lt_le_incl; by eapply ogg_stream_packetout_less. }
  assert (exists more os' v', (if vb_stream_notify v then Some (true, os1, set_notify (vb_rebuild_comment v) false (initiate_flush v))
             else Some (false, os1, v)) = Some (more, os', v') /\ vorbis_ready v' /\ vb_header v' = vb_header v /\
            (more = true -> (vorbis_left os' v' < vorbis_left os v)%nat)) as D.
  { destruct (vb_stream_notify v) eqn:Nt.
    - eexists _, _, _. split; [done|]. pose proof (audio_core_flush v) as F. unfold audio_core in F. unfold vorbis_ready, vorbis_left, notify_left, finish_left, headers_left.
      rewrite Nt, A. destruct (initiate_flush v). cbn in *. injection F as -> -> -> ->. rewrite A. split; [by right|]. split; [done|].
      intros _. destruct (vb_get_buffer_page v), vb_prev_packet; try lia; done.
    - eexists _, _, _. split; [done|]. by split_and!. }
  destruct r as [packet| |]; [|exact D|exact D]. clear D.
  assert ((ogg_stream_waiting os1 < ogg_stream_waiting os)%nat) as W1 by by eapply ogg_stream_packetout_less.
  destruct (vorbis_audio_packet packet v) as [stop v1] eqn:Ea. destruct (audio_packet_core _ _ _ _ Ea) as [(G & P & -> & C)|C].
  - eexists _, _, _. split; [done|]. injection C as C1 C2 C3. split; [right; by rewrite C1|]. split; [done|]. intros _.
    unfold vorbis_left, notify_left, finish_left, headers_left. rewrite G, P, C2, C3. destruct (vb_get_buffer_page v); (lia || done).
  - pose proof (left_core os v os1 v1 C N W1) as L. injection C as C1 C2 C3 C4. destruct stop.
    + eexists _, _, _. split; [done|]. split; [right; by rewrite C1|]. split; [done|]. done.
    + destruct (IH os1 v1) as (more & os' & v' & -> & R' & H' & L'); [lia|right; by rewrite C1|congruence|congruence|].
      eexists _, _, _. split; [done|]. split; [done|]. split; [congruence|]. intros M. specialize (L' M). lia.
Qed.

Lemma flush_headers_ends fuel os : (ogg_stream_unsent os < fuel)%nat -> is_Some (flush_headers fuel os).
Proof.
  revert os. induction fuel as [|fuel IH]; intros os Hf; [lia|]. cbn [flush_headers].
  destruct (ogg_stream_flush os) as [[page|] os1] eqn:E; [|eauto]. apply ogg_stream_flush_less in E.
  destruct (IH os1) as [[l os2] ->]; [lia|]. run_bind. eauto.
Qed.

Variables (rand : Z) (server_id : string).

Lemma call_get_buffer_ends v :
  vorbis_ready v -> exists page acts v', call_get_buffer_page rand v = Some (page, acts, v') /\ vorbis_ready v' /\
    vb_header v' = vb_header v /\
    (page = None -> vb_get_buffer_page v' <> BufferFinished /\ forall os, (vorbis_left os v' <= vorbis_left os v)%nat).
Proof.
  intros R. unfold call_get_buffer_page. destruct (vb_get_buffer_page v) eqn:G.
  - eexists _, _, _. split; [done|]. split_and!; try done. intros _. by rewrite G.
  - unfold get_buffer_header. destruct (flush_headers_ends _ (vb_new_os v) (Nat.lt_succ_diag_r _)) as [[l os] ->]. run_bind.
    eexists _, _, _. split; [done|]. unfold vorbis_ready, vorbis_left, notify_left, finish_left, headers_left in *. rewrite G in *.
    destruct R as [[_ ?]|R]; [done|]. destruct l, v; cbn in *; subst; by split_and!; try right.
  - unfold get_buffer_audio. match goal with |- context [match ?f (vb_new_os v) with _ => _ end] => destruct (f (vb_new_os v)) as [[page|] os] end;
      (eexists _, _, _; split; [done|]; unfold vorbis_ready, vorbis_left, notify_left, finish_left, headers_left in *; rewrite G in *;
       destruct R as [[_ ?]|R]; [done|]; destruct v; cbn in *; subst; by split_and!; try right).
  - unfold get_buffer_finished. destruct (ogg_stream_flush _) as [[page|] os].
    + eexists _, _, _. split; [done|]. destruct R as [[_ ?]|R]; [congruence|]. destruct v; cbn in *. by split_and!; try right.
    + eexists _, _, _. split; [done|]. unfold vorbis_ready, vorbis_left, notify_left, finish_left, headers_left in *. rewrite G in *.
      destruct R as [[_ ?]|R]; [done|]. destruct v as [? ? ? ? ? ? ? pp ? ? ? ? ip ? ? ? ? ?]. cbn in *. subst.
      destruct pp, ip; cbn; split_and!; try done; try (by right); intros _; split; try done; intros os'; lia.
Qed.

Lemma call_process_ends os v pl :
  vorbis_ready v -> vb_get_buffer_page v <> BufferFinished ->
  exists more os' v' pl', call_process_packet server_id os v pl = Some (more, os', v', pl') /\ vorbis_ready v' /\
    vb_header v' = vb_header v /\ (more = true -> (vorbis_left os' v' < vorbis_left os v)%nat).
Proof.
  intros R N. unfold call_process_packet. destruct (vb_process_packet v) eqn:P.
  - eexists _, _, _, _. split; [done|]. by split_and!.
  - assert (length (vb_header v) = 3%nat) as H3 by (destruct R as [[? _]|]; [congruence|done]).
    unfold process_vorbis_headers. destruct (vb_header v) as [|h0 [|h1 [|h2 [|]]]] eqn:Eh; try discriminate H3.
    unfold vorbis_left, notify_left, finish_left, headers_left. rewrite P.
    destruct (vb_rebuild_comment v); (eexists _, _, _, _; split; [done|]; destruct v; cbn in *; subst; split_and!; [by right|done|intros _; destruct vb_get_buffer_page; (lia || done)]).
  - destruct (process_vorbis_audio_ends _ os v (Nat.lt_succ_diag_r _) R N P) as (more & os' & v' & -> & R' & H' & L). run_bind.
    eexists _, _, _, _. by split.
Qed.

Lemma process_vorbis_ends fuel os v pl :
  vorbis_ready v -> (vorbis_left os v < fuel)%nat ->
  exists acts page os' v' pl', process_vorbis rand server_id fuel os v pl = Some (acts, page, os', v', pl') /\ vorbis_ready v' /\
    vb_header v' = vb_header v.
Proof.
  revert os v pl. induction fuel as [|fuel IH]; intros os v pl R Hf; [lia|]. cbn [process_vorbis].
  destruct (call_get_buffer_ends v R) as (page & acts & v1 & -> & R1 & H1 & L1). run_bind. destruct page as [page|].
  { eexists _, _, _, _, _. by split. }
  destruct (L1 eq_refl) as [N1 L]. destruct (call_process_ends os v1 pl R1 N1) as (more & os2 & v2 & pl2 & -> & R2 & H2 & L2). run_bind.
  destruct more; [|eexists _, _, _, _, _; split; [done|]; split; [done|congruence]].
  destruct (IH os2 v2 pl2 R2) as (a & page & os3 & v3 & pl3 & -> & R3 & H3); [specialize (L os); specialize (L2 eq_refl); lia|].
  run_bind. eexists _, _, _, _, _. split; [done|]. split; [done|congruence].
Qed.

Lemma vorbis_turns_enough os v : (vorbis_left os v < vorbis_turns os)%nat.
Proof.
  unfold vorbis_left, vorbis_turns, notify_left, finish_left, headers_left.
  destruct (vb_stream_notify v), (vb_get_buffer_page v), (vb_prev_packet v), (vb_process_packet v); lia.
Qed.

(** ** Pages *)

Lemma each_packet_ends {A} (step : ogg_packet -> A -> option (bool * A)) fuel os a :
  (forall p a, is_Some (step p a)) -> (ogg_stream_waiting os < fuel)%nat -> is_Some (each_packet step fuel os a).
Proof.
  intros S. revert os a. induction fuel as [|fuel IH]; intros os a Hf; [lia|]. cbn [each_packet].
  destruct (ogg_stream_packetout os) as [[p| |] os1] eqn:E; [|by eexists..].
  apply ogg_stream_packetout_less in E; [|done]. destruct (S p a) as [[go a'] ->]. run_bind.
  destruct go; [|by eexists]. apply IH. lia.
Qed.
Lemma packets_end {A} (step : ogg_packet -> A -> option (bool * A)) os a :
  (forall p a, is_Some (step p a)) -> is_Some (packets step os a).
Proof. intros S. apply each_packet_ends; [done|lia]. Qed.

(** The codecs are in order: a Vorbis codec has the header packets it has
    counted. *)
Definition codec_ready (c : ogg_codec) : Prop :=
  match oc_kind c with
  | Vorbis v _ => oc_headers c = Z.of_nat (length (vb_header v)) /\ (length (vb_header v) <= 3)%nat /\ vorbis_ready v
  | _ => True
  end.
Definition codecs_ready (s : ogg_state) : Prop := Forall codec_ready (og_codecs s).

Lemma vorbis_header_packets_len n os h :
  let h' := (vorbis_header_packets n os h).2 in
  (length (vh_header h) <= length (vh_header h') <= length (vh_header h) + n)%nat.
Proof.
  revert os h. induction n as [|n IH]; intros os h; cbn [vorbis_header_packets]; [cbn; lia|].
  destruct (ogg_stream_packetout os) as [[p| |] os1]; [|cbn; lia|cbn; lia].
  destruct (vorbis_synthesis_headerin _ _) as [[vi vc]|]; [|cbn; lia].
  match goal with |- context [vorbis_header_packets n os1 ?h1] => pose proof (IH os1 h1) as L end.
  cbn zeta in *. cbn [vh_header] in *. rewrite length_app in L. cbn [length] in L. lia.
Qed.

Lemma process_vorbis_page_ready alone c v page pl :
  oc_kind c = Vorbis v false -> codec_ready c -> codec_ready (process_vorbis_page alone c v page pl).1.2.
Proof.
  intros Ek R. pose proof R as R'. unfold codec_ready in R'. rewrite Ek in R'. destruct R' as (Eh & Le & Rv). unfold process_vorbis_page.
  destruct (ogg_stream_pagein _ _) as [ok os].
  assert (codec_ready (set_stream os c)) as Rs by (unfold codec_ready; cbn; by rewrite Ek). destruct ok; cbn [negb fst snd]; [|exact Rs].
  cbn zeta. change (oc_headers (set_stream os c)) with (oc_headers c). destruct (Z.eqb_spec (oc_headers c) 3) as [E3|N3].
  - destruct (vb_initial_audio_page v); [|exact Rs]. unfold codec_ready. cbn. destruct v. cbn in *. done.
  - pose proof (vorbis_header_packets_len (Z.to_nat (3 - oc_headers c)) os (VorbisHeaders (vb_vi v) (pl_vc pl) (vb_header v) false)) as L.
    destruct (vorbis_header_packets _ _ _) as [os' h]. cbn [snd vh_header] in L. cbn zeta in L.
    destruct Rv as [[P G]|L3]; [|rewrite L3 in Eh; lia].
    destruct (vh_failed h); [|destruct (Z.ltb_spec (Z.of_nat (length (vh_header h))) 3) as [|L3]; [destruct alone|destruct alone]];
      unfold codec_ready; cbn; destruct v; cbn in *; subst; (split; [done|]; split; [lia|]); unfold vorbis_ready; cbn;
      [by left|by left|by left|right; lia|by left].
Qed.

Lemma process_page_ready made alone c page pl r c' pl' :
  codec_ready c -> process_page made alone c page pl = Some (r, c', pl') -> codec_ready c'.
Proof.
  intros R. unfold process_page. destruct (oc_kind c) as [v []| | | | | | |] eqn:Ek.
  - intros [= _ <- _]. done.
  - intros [= E]. pose proof (process_vorbis_page_ready alone c v page pl Ek R) as K. by rewrite E in K.
  - unfold process_theora_page. destruct (ogg_stream_pagein _ _) as [[] os]; [|intros [= _ <- _]; unfold codec_ready; cbn; by rewrite Ek].
    destruct (packets _ _ _) as [[os' l]|]; [|done]. run_bind. repeat case_match; by intros [= _ <- _].
  - unfold process_midi_page. destruct (ogg_stream_pagein _ _) as [ok os]. intros [= _ <- _]. unfold codec_ready. cbn. by rewrite Ek.
  - unfold process_flac_page. destruct (oc_headers c =? 0); [by intros [= _ <- _]|].
    destruct (ogg_stream_pagein _ _) as [[] os]; [|intros [= _ <- _]; unfold codec_ready; cbn; by rewrite Ek]. cbn [negb].
    destruct (flac_packets _ _ _) as [[[os' h] b]|]; [|done]. run_bind. repeat case_match; intros [= _ <- _]; unfold codec_ready; cbn; by rewrite Ek.
  - unfold process_speex_page. destruct (oc_headers c <? 2); [|by intros [= _ <- _]]. destruct (ogg_stream_pagein _ _) as [ok os].
    destruct (packets _ _ _) as [[os' h]|]; [|done]. run_bind. intros [= _ <- _]. unfold codec_ready. cbn. by rewrite Ek.
  - unfold process_kate_page. destruct (ogg_stream_pagein _ _) as [[] os]; [|intros [= _ <- _]; unfold codec_ready; cbn; by rewrite Ek].
    destruct (packets _ _ _) as [[os' l]|]; [|done]. run_bind. repeat case_match; by intros [= _ <- _].
  - unfold process_skeleton_page. destruct (ogg_stream_pagein _ _) as [[] os]; [|intros [= _ <- _]; unfold codec_ready; cbn; by rewrite Ek]. cbn [negb].
    destruct (packets _ _ _) as [[os' h]|]; [|done]. run_bind. intros [= _ <- _]. unfold codec_ready. cbn. by rewrite Ek.
  - unfold process_opus_page. destruct (oc_headers c <? 2); [|by intros [= _ <- _]]. destruct (ogg_stream_pagein _ _) as [ok os].
    destruct (packets _ _ _) as [[os' h]|]; [|done]. run_bind. intros [= _ <- _]. unfold codec_ready. cbn. by rewrite Ek.
Qed.

(** *** What a page needs *)

(** The packets of a FLAC page are there, and none is empty. *)
Definition flac_readable (c : ogg_codec) (page : ogg_page) : Prop :=
  let os := (ogg_stream_pagein page (oc_os c)).2 in
  is_Some (flac_packets (S (ogg_stream_waiting os)) os (oc_headers c)).

(** The first page of a stream holds a whole packet, and one of the size of a
    FLAC header enough of it; FLAC pages are readable. *)
Definition page_readable (s : ogg_state) (page : ogg_page) : Prop :=
  if ogg_page_bos page then
    exists p os, first_packet page = (PacketOut p, os) /\ (lenZ (page_bytes page) = 79 -> 7 <= lenZ (op_packet p))
  else
    forall c, find (fun c => oc_serialno c =? ogg_page_serialno page) (og_codecs s) = Some c ->
      oc_kind c = Flac -> flac_readable c page.

Lemma kate_packet_some p l : is_Some (kate_packet p l).
Proof.
  destruct l as [done ki n h hp e]. unfold kate_packet. destruct done; [case_match; eauto|]. destruct have_kate.
  { destruct (kate_ogg_decode_headerin p ki) as [ret ki']. case_match; eauto. }
  destruct (op_packet p) as [|x l] eqn:E; [eauto|]. case_match; [eauto|]. case_match; [|eauto]. rewrite <- E.
  destruct (Z.ltb_spec (lenZ (op_packet p)) 64) as [|L]; [eauto|].
  destruct (lookup_lt_is_Some_2 (op_packet p) 11) as [y ->]; [unfold lenZ in L; lia|]. run_bind. eauto.
Qed.
Lemma theora_packet_some p l : is_Some (theora_packet p l).
Proof. destruct l. unfold theora_packet. repeat case_match; eauto. Qed.

Lemma process_page_some made alone c page pl :
  (oc_kind c = Flac -> flac_readable c page) -> is_Some (process_page made alone c page pl).
Proof.
  intros F. unfold process_page. destruct (oc_kind c) as [v []| | | | | | |]; eauto.
  - unfold process_theora_page. destruct (ogg_stream_pagein _ _) as [[] os]; cbn [negb]; [|eauto].
    match goal with |- context [packets ?f ?o ?a] => destruct (packets_end f o a theora_packet_some) as [[os' l] ->] end.
    run_bind. repeat case_match; eauto.
  - unfold process_midi_page. case_match. eauto.
  - unfold process_flac_page. destruct (oc_headers c =? 0); [eauto|]. specialize (F eq_refl). unfold flac_readable in F.
    destruct (ogg_stream_pagein _ _) as [[] os]; cbn [negb]; [|eauto]. cbn [snd] in F. destruct F as [[[os' h] b] ->]. run_bind.
    repeat case_match; eauto.
  - unfold process_speex_page. destruct (oc_headers c <? 2); [|eauto]. destruct (ogg_stream_pagein _ _) as [ok os].
    destruct (packets_end count_packet os (oc_headers c)) as [[os' h] ->]; [unfold count_packet; eauto|]. run_bind. eauto.
  - unfold process_kate_page. destruct (ogg_stream_pagein _ _) as [[] os]; cbn [negb]; [|eauto].
    match goal with |- context [packets ?f ?o ?a] => destruct (packets_end f o a kate_packet_some) as [[os' l] ->] end.
    run_bind. repeat case_match; eauto.
  - unfold process_skeleton_page. destruct (ogg_stream_pagein _ _) as [[] os]; cbn [negb]; [|eauto].
    destruct (packets_end count_packet os (oc_headers c)) as [[os' h] ->]; [unfold count_packet; eauto|]. run_bind. eauto.
  - unfold process_opus_page. destruct (oc_headers c <? 2); [|eauto]. destruct (ogg_stream_pagein _ _) as [ok os].
    destruct (packets_end opus_packet os (oc_headers c, pl)) as [[os' h] ->]; [|run_bind; eauto].
    intros p [n q]. unfold opus_packet. cbn [fst snd]. destruct (handle_header_some p q) as [q' ->]. run_bind. eauto.
Qed.

(** A first page is recognised, or not, with a codec in order. *)
Definition kind_ready (k : codec_kind) : Prop :=
  match k with
  | Vorbis v _ => length (vb_header v) = 1%nat /\ vb_process_packet v = NoProcess /\ vb_get_buffer_page v = NoBuffer
  | _ => True
  end.
Definition answered (r : option (option recognised * plugin)) : Prop :=
  exists c pl, r = Some (c, pl) /\ match c with Some c => kind_ready (rc_kind c) | None => True end.

Lemma answered_some c pl : match c with Some c => kind_ready (rc_kind c) | None => True end -> answered (Some (c, pl)).
Proof. intros H. by exists c, pl. Qed.
Lemma ask_answered r next : answered r -> (forall pl, answered (next pl)) -> answered (r ← r; ask_codec r next).
Proof. intros (c & pl & -> & H) N. run_bind. unfold ask_codec. destruct c; [by apply answered_some|apply N]. Qed.

Ltac answer := repeat case_match; simplify_eq; by apply answered_some.

Lemma initial_flac_answered page packet pl :
  (lenZ (page_bytes page) = 79 -> 7 <= lenZ (op_packet packet)) -> answered (initial_flac_page page packet pl).
Proof.
  intros L. unfold initial_flac_page. destruct (Z.eqb_spec (lenZ (page_bytes page)) 79) as [E|]; [|by apply answered_some]. cbn [negb].
  specialize (L E). set (l := op_packet packet) in *.
  assert (forall i, (i < 7)%nat -> is_Some (l !! i)) as A by (intros i Hi; apply lookup_lt_is_Some; unfold lenZ in L; lia).
  destruct (A 0%nat ltac:(lia)) as [x0 ->]. run_bind. destruct (negb _); [by apply answered_some|].
  destruct (Z.ltb_spec (lenZ l) 5); [lia|]. destruct (negb _); [by apply answered_some|].
  destruct (A 5%nat ltac:(lia)) as [x5 ->]. run_bind. destruct (A 6%nat ltac:(lia)) as [x6 ->]. run_bind. by apply answered_some.
Qed.
Lemma initial_opus_answered packet pl : answered (initial_opus_page packet pl).
Proof.
  unfold initial_opus_page. destruct (_ && _); [|by apply answered_some].
  destruct (handle_header_some packet pl) as [pl' ->]. run_bind. by apply answered_some.
Qed.

Lemma recognise_answered page packet pl :
  (lenZ (page_bytes page) = 79 -> 7 <= lenZ (op_packet packet)) -> answered (recognise rand page packet pl).
Proof.
  intros L. unfold recognise. apply (ask_answered (Some _)).
  { unfold initial_vorbis_page. destruct (vorbis_synthesis_headerin _ _) as [[vi vc]|]; by apply answered_some. }
  intros pl1. apply ask_answered; [unfold initial_theora_page; answer|].
  intros pl2. apply ask_answered; [unfold initial_midi_page; answer|].
  intros pl3. apply ask_answered; [by apply initial_flac_answered|].
  intros pl4. apply ask_answered; [unfold initial_speex_page; answer|].
  intros pl5. apply ask_answered; [unfold initial_kate_page; answer|].
  intros pl6. apply ask_answered; [unfold initial_skeleton_page; answer|].
  intros pl7. apply initial_opus_answered.
Qed.

(** ** Turns *)

Lemma replace_ready c l : codec_ready c -> Forall codec_ready l -> Forall codec_ready (replace_codec c l).
Proof.
  intros R F. induction F as [|d l Rd F IH]; cbn [replace_codec]; [constructor|]. case_match; by constructor.
Qed.

Lemma find_ready f s c : codecs_ready s -> find f (og_codecs s) = Some c -> codec_ready c.
Proof.
  intros F H. apply find_some in H as [I _]. unfold codecs_ready in F. rewrite Forall_forall in F. apply F. by rewrite list_elem_of_In.
Qed.

Lemma process_initial_ends page s :
  codecs_ready s -> ogg_page_bos page = true -> page_readable s page ->
  exists acts s', process_initial_page rand page s = Some (acts, s') /\ codecs_ready s' /\ og_oy s' = og_oy s.
Proof.
  intros K B R. unfold page_readable in R. rewrite B in R. destruct R as (p & os & Ef & L). unfold process_initial_page.
  match goal with |- context [if og_bos_completed s then ?x else ?y] => set (z := if og_bos_completed s then x else y) end.
  assert (codecs_ready z.2 /\ og_oy z.2 = og_oy s) as [Kz Ez].
  { unfold z. destruct (og_bos_completed s); [|done]. split; [constructor|done]. }
  destruct z as [acts s0]. cbn [snd] in Kz, Ez. destruct (10 <? og_codec_count s0); [by eexists _, _|]. rewrite Ef.
  destruct (recognise_answered page p (og_plugin s0) L) as (c & pl & -> & Rc). run_bind. destruct c as [c|].
  - eexists _, _. split; [done|]. split; [|done]. constructor; [|done]. unfold codec_ready. cbn. unfold kind_ready in Rc.
    destruct (rc_kind c); try done. destruct Rc as (H1 & H2 & H3). rewrite H1. split; [done|]. split; [lia|]. by left.
  - by eexists _, _.
Qed.

Lemma process_ogg_page_ends page s :
  codecs_ready s -> ogg_page_bos page = false -> page_readable s page ->
  exists acts b s', process_ogg_page page s = Some (acts, b, s') /\ codecs_ready s' /\ og_oy s' = og_oy s.
Proof.
  intros K B R. unfold page_readable in R. rewrite B in R. unfold process_ogg_page.
  destruct (find _ (og_codecs s)) as [c|] eqn:F; [|by eexists _, _, _].
  destruct (process_page_some (og_made s) (match og_codecs s with [_] => true | _ => false end) c page (og_plugin s) (R c eq_refl))
    as [[[r c'] pl] E].
  rewrite E. run_bind. apply process_page_ready in E; [|by eapply find_ready].
  eexists _, _, _. split; [done|].
  split; destruct (rp_queued r), (rp_error r); try done; by apply replace_ready.
Qed.

Lemma complete_ready n s : codecs_ready s -> codecs_ready (complete_buffer n s).2.
Proof. unfold complete_buffer. by destruct (pl_log_metadata _). Qed.

Lemma process_current_ends s :
  codecs_ready s -> exists acts b s', process_current rand server_id s = Some (acts, b, s') /\ codecs_ready s' /\ og_oy s' = og_oy s.
Proof.
  intros K. unfold process_current. destruct (current_codec s) as [[[c v] b]|] eqn:Ec; [|by eexists _, _, _].
  unfold current_codec in Ec. destruct (og_current s) as [id|]; [|done]. cbn [mbind option_bind] in Ec.
  destruct (find _ (og_codecs s)) as [c0|] eqn:F; [|done]. apply find_ready in F; [|done]. cbn [mbind option_bind] in Ec.
  destruct (oc_kind c0) as [v0 b0| | | | | | |] eqn:Ek; try discriminate Ec. injection Ec as -> -> ->.
  unfold codec_ready in F. rewrite Ek in F. destruct F as (E1 & E2 & Rv).
  destruct (process_vorbis_ends _ (oc_os c) v (og_plugin s) Rv (vorbis_turns_enough (oc_os c) v)) as (a & page & os & v' & pl & -> & R' & H').
  run_bind. assert (codec_ready (set_kind (Vorbis v' b) (set_stream os c))) as Rc.
  { unfold codec_ready. cbn. by rewrite H'. }
  destruct page; (eexists _, _, _; split; [done|]; split; [|done]); by apply replace_ready.
Qed.

(** The page that is examined next, if one is. *)
Definition next_page (s : ogg_state) : option (ogg_state * ogg_page) :=
  match process_current rand server_id s with
  | Some (_, false, s) => match ogg_sync_pageout (og_oy s) with (Some page, oy) => Some (set_oy oy s, page) | _ => None end
  | _ => None
  end.

(** What is left to read: the bytes to come, and the pages that came. *)
Definition to_come (c : conn) : nat := sum_list_with (fun a => match a with Some b => S (length b) | None => 1%nat end) (arriving c).

Lemma read_less c x d c' : connection_read 4096 c = (Some (x :: d), c') -> (to_come c' < to_come c)%nat.
Proof.
  unfold connection_read, to_come. cbn [Z.eqb]. destruct (arriving c) as [|[b|] r]; [done| |done]. intros [= E <-]. cbn [arriving].
  destruct (drop (Z.to_nat 4096) b) as [|y k] eqn:Ed; cbn [sum_list_with]; [lia|].
  pose proof (f_equal length Ed) as L. rewrite length_drop in L. cbn [length] in *. lia.
Qed.

Lemma ogg_turn_ends s c :
  codecs_ready s -> (forall s1 page, next_page s = Some (s1, page) -> page_readable s1 page) ->
  exists acts t s' c', ogg_turn rand server_id s c = Some (acts, t, s', c') /\ codecs_ready s' /\
    (t = Again -> (to_come c' < to_come c)%nat \/ c' = c /\ (ogg_sync_waiting (og_oy s') < ogg_sync_waiting (og_oy s))%nat).
Proof.
  intros K R. unfold ogg_turn. unfold next_page in R.
  destruct (process_current_ends s K) as (acts & b & s0 & E0 & K0 & Eo). rewrite E0 in R |- *. run_bind. destruct b.
  { unfold return_buffer. pose proof (complete_ready (og_made s0 - 1) s0 K0) as Kc. destruct (complete_buffer _ s0) as [more s1].
    by eexists _, _, _, _. }
  destruct (ogg_sync_pageout (og_oy s0)) as [[page|] oy] eqn:Ey.
  - specialize (R (set_oy oy s0) page eq_refl). apply ogg_sync_pageout_less in Ey. rewrite Eo in Ey. unfold page_turn.
    assert (exists a b s1, (if ogg_page_bos page then '(acts, s) ← process_initial_page rand page (set_oy oy s0); Some (acts, false, s)
                            else process_ogg_page page (set_bos_completed (set_oy oy s0))) = Some (a, b, s1) /\
            codecs_ready s1 /\ og_oy s1 = oy) as (a & b & s1 & -> & K1 & E1).
    { destruct (ogg_page_bos page) eqn:B.
      - destruct (process_initial_ends page (set_oy oy s0) K0 B R) as (a & s1 & -> & ? & ?). run_bind. by eexists _, _, _.
      - assert (page_readable (set_bos_completed (set_oy oy s0)) page) as R' by (unfold page_readable in *; by rewrite B in *).
        destruct (process_ogg_page_ends page (set_bos_completed (set_oy oy s0)) K0 B R') as (a & b & s1 & -> & ? & ?). by eexists _, _, _. }
    run_bind. destruct (og_error s1); [by eexists _, _, _, _|]. destruct b.
    + unfold return_buffer. pose proof (complete_ready (og_made s1 - 1) s1 K1) as Kc. destruct (complete_buffer _ s1) as [more s2].
      run_bind. by eexists _, _, _, _.
    + run_bind. eexists _, _, _, _. split; [done|]. split; [done|]. intros _. right. split; [done|]. by rewrite E1.
  - unfold read_turn. destruct (connection_read 4096 c) as [[[|x d]|] c1] eqn:Ec; run_bind; eexists _, _, _, _; (split; [done|]);
      (split; [done|]); try done. intros _. left. by eapply read_less.
Qed.

(** ** Calls *)

(** Some turn comes to a page that cannot be read. *)
Inductive unreadable : ogg_state -> conn -> Prop :=
| unreadable_here s c s1 page : next_page s = Some (s1, page) -> ~ page_readable s1 page -> unreadable s c
| unreadable_later s c acts s1 c1 : ogg_turn rand server_id s c = Some (acts, Again, s1, c1) -> unreadable s1 c1 -> unreadable s c.

Lemma page_readable_dec s page : page_readable s page \/ ~ page_readable s page.
Proof.
  unfold page_readable. destruct (ogg_page_bos page).
  - destruct (first_packet page) as [[p| |] os]; [|right; by intros (? & ? & [=] & _)|right; by intros (? & ? & [=] & _)].
    destruct (decide (lenZ (page_bytes page) = 79 -> 7 <= lenZ (op_packet p))) as [L|L]; [left; by exists p, os|].
    right. by intros (? & ? & [= <- _] & ?).
  - destruct (find _ (og_codecs s)) as [c|]; [|by left].
    destruct (oc_kind c) eqn:Ek; try (left; intros c' [= <-] ?; congruence).
    assert (flac_readable c page \/ ~ flac_readable c page) as [F|F].
    { unfold flac_readable. cbn zeta. case (flac_packets _ _ _); [left; eauto|right; by intros [? [=]]]. }
    + left. by intros c' [= <-].
    + right. intros H. by apply F, H.
Qed.

(** A change of the title keeps the codecs in order. *)
Lemma set_tag_ready conv tag s s' : vorbis_set_tag conv tag s = Some s' -> codecs_ready s -> codecs_ready s'.
Proof.
  unfold vorbis_set_tag. destruct (og_codecs s) as [|c [|? ?]] eqn:Ec; intros E K; [by injection E as <-| |by injection E as <-].
  unfold codecs_ready in K. rewrite Ec in K. destruct tag as [[t v]|].
  - injection E as <-. unfold codecs_ready. cbn. by rewrite Ec.
  - destruct (oc_kind c) as [v b| | | | | | |] eqn:Ek; try discriminate E. injection E as <-. inversion K as [|? ? R _]. subst.
    constructor; [|constructor]. unfold codec_ready in *. rewrite Ek in R. cbn. destruct v. done.
Qed.

End loops.

(** A rebuilt stream: the headers of a Vorbis stream and a packet of audio. *)
Definition vorbis_stream : bytes :=
  concat (page_bytes <$> [toy_page 4 true "v1"; toy_page 4 false "v2"; toy_page 4 false "v3"; toy_page 4 false "audio...";
                          toy_page 4 false "more...."; toy_page 4 false "last...."]).
Definition new_plugin : ogg_state := (format_ogg_get_plugin "application/ogg").2.

