(* ===== verification/OggClient.v ===== *)
(** What a listener of an Ogg stream is sent: the header pages of the page it
    is at, whole and in order though some may begin again, and then the page
    itself byte for byte. *)

From S2P Require Import Prelude Refbuf Ebml Ogg OggExample OggVorbis OggPlugin OggStore.
Local Open Scope Z_scope.

(** From the pages [l] to be sent, the bytes [x] go out and [l'] are left: a
    page may be cut short, and is then sent from its start once more. *)
Inductive wire : list bytes -> bytes -> list bytes -> Prop :=
| wire_stop l : wire l [] l
| wire_cut n p l x l' : wire (p :: l) x l' -> wire (p :: l) (take n p ++ x) l'
| wire_page p l x l' : wire l x l' -> wire (p :: l) (p ++ x) l'.

Lemma wire_app l x m y k : wire l x m -> wire m y k -> wire l (x ++ y) k.
Proof.
  intros W V. induction W as [l|n p l x l' W IH|p l x l' W IH]; [exact V| |]; rewrite <- app_assoc; constructor; auto.
Qed.

(** Every page is on the wire as a whole. *)
Lemma wire_whole l x l' : wire l x l' -> forall p, p ∈ l -> p ∈ l' \/ exists a b, x = a ++ p ++ b.
Proof.
  induction 1 as [l|n p l x l' W IH|p l x l' W IH]; intros q I; [by left| |].
  - destruct (IH q I) as [?|(a & b & ->)]; [by left|right]. exists (take n p ++ a), b. by rewrite app_assoc.
  - apply elem_of_cons in I as [->|I]; [right; by exists [], x|].
    destruct (IH q I) as [?|(a & b & ->)]; [by left|right]. exists (p ++ a), b. by rewrite app_assoc.
Qed.

Section client.
Context {lib : LibOgg} {codecs : CodecLibs}.

Lemma send_bytes_spec data w :
  exists ret net, ogg_send_bytes data w = (ret, OggListener (ol_client w) (ol_pos w) net (ol_sent w ++ take (Z.to_nat ret) data)) /\
    (ret = -1 \/ 0 <= ret <= lenZ data).
Proof.
  unfold ogg_send_bytes. destruct (ol_net w) as [|a net]; [eexists _, _; split; [done|by left]|].
  eexists _, _. split; [done|]. destruct (Z.ltb_spec a 0); [by left|right]. unfold lenZ. lia.
Qed.

Lemma taken ret (d : bytes) : ret = -1 \/ 0 <= ret <= lenZ d -> (if 0 <? ret then ret else 0) = lenZ (take (Z.to_nat ret) d).
Proof. unfold lenZ. rewrite length_take. destruct (Z.ltb_spec 0 ret); lia. Qed.

Section header_pages.
Variables (s : page_store) (headers : option ptr).

Lemma send_pages l lb fuel written w :
  chain (ps_heap s) (lc_header_page (ol_client w)) l -> Forall2 (bytes_of (ps_data s)) l lb -> (length l <= fuel)%nat ->
  lc_pos (ol_client w) = 0 -> 0 <= written ->
  exists ret w' x k, send_header_pages fuel s headers written w = Some (ret, w') /\ wire lb x (drop k lb) /\
    ol_sent w' = ol_sent w ++ x /\ ol_pos w' = ol_pos w /\
    ((drop k lb = [] /\ ol_client w' = OggClient headers None 0 true /\ ret = written + lenZ x) \/
     (exists hp, ol_client w' = OggClient (lc_headers (ol_client w)) hp 0 (lc_headers_sent (ol_client w)) /\
        chain (ps_heap s) hp (drop k l) /\ ret = (if written + lenZ x =? 0 then -1 else written + lenZ x) /\ drop k lb <> [])).
Proof.
  revert lb fuel written w. induction l as [|p l IH]; intros lb fuel written w C F L P W.
  - inversion C as [E|]. inversion F. subst. destruct w as [[hd hp pos sent] pos' net out]. cbn in *. subst.
    exists written, (OggListener (OggClient headers None 0 true) pos' net out), [], 0%nat.
    split; [by destruct fuel|]. split; [constructor|]. split; [by rewrite app_nil_r|]. split; [done|].
    left. split_and!; try done. unfold lenZ. cbn. lia.
  - inversion C as [|p' r l' Hp Hn N]; subst. inversion F as [|? d ? lb' Hd F']; subst. destruct fuel as [|fuel]; [cbn in L; lia|].
    cbn [send_header_pages]. match goal with H : Some p = lc_header_page _ |- _ => rewrite <- H | H : lc_header_page _ = Some p |- _ => rewrite H end.
    unfold read_page. rewrite Hp. run_bind. rewrite Hd. run_bind. rewrite P. change (drop (Z.to_nat 0) d) with d.
    destruct (send_bytes_spec d w) as (ret & net & -> & R). pose proof (taken ret d R) as T.
    assert ((if 0 <? ret then written + ret else written) = written + lenZ (take (Z.to_nat ret) d)) as ->.
    { rewrite <- T. destruct (0 <? ret); lia. }
    destruct (Z.ltb_spec ret (lenZ d)) as [Lt|Ge].
    + eexists _, _, (take (Z.to_nat ret) d), 0%nat. split; [done|].
      split; [rewrite <- (app_nil_r (take _ _)); constructor; constructor|]. split; [done|]. split; [done|]. right.
      exists (Some p). cbn [ol_client drop]. split_and!; try done. destruct w as [[hd hp pos sent] pos' net' out]. cbn in *. by subst. by econstructor.
    + rewrite take_ge by (unfold lenZ in *; lia).
      match goal with |- context [send_header_pages fuel s headers ?wr ?w1] =>
        destruct (IH lb' fuel wr w1 Hn F' ltac:(cbn in L; lia) eq_refl ltac:(unfold lenZ; lia))
          as (ret' & w' & x & k & -> & Wx & Sx & Px & E) end.
      exists ret', w', (d ++ x), (S k). split; [done|]. split; [by constructor|]. cbn [ol_sent ol_pos set_client] in *.
      rewrite Sx, <- app_assoc. split; [done|]. split; [done|]. unfold lenZ in *. rewrite length_app.
      replace (written + Z.of_nat (length d + length x)) with (written + Z.of_nat (length d) + Z.of_nat (length x)) by lia. exact E.
Qed.
End header_pages.

(** *** One call *)

(** A listener at a page with header pages [hs], of which [lb] are still to be
    sent. *)
Definition listener_at (s : page_store) (headers : option ptr) (hs : list ptr) (hb : list bytes) (c : ogg_client) (lb : list bytes) : Prop :=
  (lc_headers c = headers /\ lb = []) \/
  (lc_headers c <> headers /\ lc_headers_sent c = true /\ lb = hb) \/
  (lc_headers c <> headers /\ lc_headers_sent c = false /\ lc_pos c = 0 /\
   exists k, chain (ps_heap s) (lc_header_page c) (drop k hs) /\ lb = drop k hb /\ lb <> []).

Lemma write_page_spec d written w :
  0 <= ol_pos w <= lenZ d ->
  exists w' y, write_ogg_page d written w = (written + lenZ y, w') /\ ol_sent w' = ol_sent w ++ y /\
    ol_client w' = ol_client w /\ ol_pos w' = ol_pos w + lenZ y /\ y = take (length y) (drop (Z.to_nat (ol_pos w)) d).
Proof.
  intros P. unfold write_ogg_page. set (data := drop _ d). destruct (send_bytes_spec data w) as (ret & net & -> & R).
  pose proof (taken ret data R) as T. eexists _, (take (Z.to_nat ret) data). rewrite <- T.
  split; [f_equal; destruct (0 <? ret); lia|]. split; [by destruct (0 <? ret)|]. split; [by destruct (0 <? ret)|].
  split; [destruct (0 <? ret); cbn; lia|]. rewrite length_take. destruct (decide (Z.to_nat ret <= length data)%nat).
  - by rewrite Nat.min_l by done.
  - rewrite Nat.min_r by lia. rewrite !take_ge by lia. done.
Qed.

Lemma write_buf_spec s p r d hs hb w lb :
  ps_heap s !! p = Some r -> ps_data s !! p = Some d -> chain (ps_heap s) (rb_assoc r) hs ->
  Forall2 (bytes_of (ps_data s)) hs hb -> 0 <= ol_pos w <= lenZ d -> listener_at s (rb_assoc r) hs hb (ol_client w) lb ->
  exists w' x y lb', write_buf_to_client s p w = Some (lenZ (x ++ y), w') /\ ol_sent w' = ol_sent w ++ x ++ y /\
    wire lb x lb' /\ listener_at s (rb_assoc r) hs hb (ol_client w') lb' /\ (lb' <> [] -> y = []) /\
    y = take (length y) (drop (Z.to_nat (ol_pos w)) d) /\ ol_pos w' = ol_pos w + lenZ y.
Proof.
  intros Hp Hd C F P A. unfold write_buf_to_client, read_page. rewrite Hp. run_bind. rewrite Hd. run_bind.
  assert (forall w1 x written, written = lenZ x -> ol_pos w1 = ol_pos w -> ol_sent w1 = ol_sent w ++ x -> lc_headers (ol_client w1) = rb_assoc r ->
            wire lb x [] ->
            exists w' x y lb', Some (write_ogg_page d written w1) = Some (lenZ (x ++ y), w') /\ ol_sent w' = ol_sent w ++ x ++ y /\
              wire lb x lb' /\ listener_at s (rb_assoc r) hs hb (ol_client w') lb' /\ (lb' <> [] -> y = []) /\
              y = take (length y) (drop (Z.to_nat (ol_pos w)) d) /\ ol_pos w' = ol_pos w + lenZ y) as D.
  { intros w1 x written -> P1 S1 H1 Wx. destruct (write_page_spec d (lenZ x) w1) as (w' & y & -> & S2 & C2 & P2 & Y); [by rewrite P1|].
    exists w', x, y, []. rewrite P1 in *. split; [f_equal; f_equal; unfold lenZ; rewrite length_app; lia|].
    split_and!; try done; [by rewrite S2, S1, app_assoc|left; by rewrite C2]. }
  destruct A as [[E ->]|A].
  { rewrite bool_decide_eq_true_2 by done. apply (D w [] 0); try done; [by rewrite app_nil_r|constructor]. }
  assert (lc_headers (ol_client w) <> rb_assoc r) as Nh by (destruct A as [[? _]|[? _]]; done).
  rewrite bool_decide_eq_false_2 by done. unfold send_ogg_headers.
  set (w0 := if lc_headers_sent (ol_client w) then _ else w).
  assert (exists k, chain (ps_heap s) (lc_header_page (ol_client w0)) (drop k hs) /\ lb = drop k hb /\ lc_pos (ol_client w0) = 0 /\
            lc_headers (ol_client w0) = lc_headers (ol_client w) /\ lc_headers_sent (ol_client w0) = false /\
            ol_sent w0 = ol_sent w /\ ol_pos w0 = ol_pos w) as (k & C0 & El & P0 & H0 & Hs0 & S0 & Po0).
  { unfold w0. destruct A as [(_ & Hs & ->)|(_ & Hs & Ps & k & Ck & -> & _)]; rewrite Hs.
    - by exists 0%nat.
    - by exists k. }
  destruct (send_pages s (rb_assoc r) (drop k hs) lb (size (ps_heap s)) 0 w0 C0) as (ret & w' & x & j & -> & Wx & Sx & Px & E).
  { rewrite El. by apply Forall2_drop. } { rewrite length_drop. apply chain_size in C. lia. } { done. } { done. }
  run_bind. rewrite S0 in Sx. rewrite Po0 in Px. destruct E as [(Ej & Ec & Er)|(hp & Ec & Ch & Er & Nj)].
  - rewrite Ec. cbn [lc_headers_sent negb]. rewrite Ej in Wx. apply (D w' x ret); try done. by rewrite Ec.
  - rewrite Ec, Hs0. cbn [lc_headers_sent negb]. exists w', x, [], (drop j lb). rewrite app_nil_r. split_and!; try done.
    + f_equal. f_equal. rewrite Er. destruct (Z.eqb_spec (0 + lenZ x) 0); [cbn; lia|]. unfold lenZ in *. destruct (Z.ltb_spec 0 (0 + Z.of_nat (length x))); lia.
    + rewrite Ec. right. right. cbn. split_and!; try done; [by rewrite H0|]. exists (k + j)%nat.
      rewrite <- !drop_drop, <- El. done.
    + unfold lenZ. cbn. lia.
Qed.

(** *** A page *)

(** Calls for one page, as the connection has room. *)
Fixpoint write_calls (n : nat) (s : page_store) (p : ptr) (w : ogg_listener) : option ogg_listener :=
  match n with
  | O => Some w
  | S n => '(_, w) ← write_buf_to_client s p w; write_calls n s p w
  end.

(** The header pages a listener needs before the page [p]. *)
Definition headers_due (s : page_store) (p : ptr) (b : spec_buffer) (c : ogg_client) : list bytes :=
  match ps_heap s !! p with
  | Some r => if bool_decide (lc_headers c = rb_assoc r) then [] else default [] (sb_headers b)
  | None => []
  end.

Lemma write_calls_spec s p r d hs hb n w lb :
  ps_heap s !! p = Some r -> ps_data s !! p = Some d -> chain (ps_heap s) (rb_assoc r) hs ->
  Forall2 (bytes_of (ps_data s)) hs hb -> 0 <= ol_pos w <= lenZ d -> listener_at s (rb_assoc r) hs hb (ol_client w) lb ->
  exists w' x y lb', write_calls n s p w = Some w' /\ ol_sent w' = ol_sent w ++ x ++ y /\ wire lb x lb' /\
    (lb' <> [] -> y = []) /\ y = take (length y) (drop (Z.to_nat (ol_pos w)) d) /\ ol_pos w' = ol_pos w + lenZ y /\ ol_pos w' <= lenZ d.
Proof.
  intros Hp Hd C F. revert w lb. induction n as [|n IH]; intros w lb P A; cbn [write_calls].
  - exists w, [], [], lb. split_and!; try done; [by rewrite app_nil_r|apply wire_stop|unfold lenZ; cbn; lia|lia].
  - destruct (write_buf_spec s p r d hs hb w lb Hp Hd C F P A) as (w1 & x1 & y1 & l1 & -> & S1 & W1 & A1 & N1 & Y1 & P1). run_bind.
    assert (lenZ y1 <= lenZ d - ol_pos w) as Ly.
    { unfold lenZ in *. pose proof (f_equal length Y1) as Q. rewrite length_take, length_drop in Q. lia. }
    destruct (IH w1 l1) as (w2 & x2 & y2 & l2 & -> & S2 & W2 & N2 & Y2 & P2 & L2); [unfold lenZ in *; lia|done|].
    destruct l1 as [|q l1].
    + inversion W2; subst. exists w2, x1, (y1 ++ y2), []. split_and!; try done.
      * by rewrite S2, S1, !app_nil_l, <- !app_assoc.
      * rewrite P1 in Y2. rewrite length_app, <- (take_take_drop _ (length y1) (length y2)), <- Y1. f_equal. rewrite drop_drop.
        rewrite Y2 at 1. f_equal. f_equal. unfold lenZ. lia.
      * rewrite P2, P1. unfold lenZ. rewrite length_app. lia.
    + specialize (N1 ltac:(done)). subst y1. exists w2, (x1 ++ x2), y2, l2. split_and!; try done.
      * by rewrite S2, S1, app_nil_r, <- !app_assoc.
      * by eapply wire_app.
      * rewrite P1 in Y2. unfold lenZ in Y2. cbn in Y2. by rewrite Z.add_0_r in Y2.
      * rewrite P2, P1. unfold lenZ. cbn. lia.
Qed.

(** C13: what an Ogg listener gets.  Let a listener that is not in the middle of
    header pages come to a page of the queue, and let its connection take, call
    by call, as many or as few bytes as it likes.  No call fails; the bytes it
    is sent are header pages of that page's list, in order, each of them as a
    whole at its turn, though perhaps begun more than once before, and none if
    it has this list already; and then, once all of them are sent and not
    before, exactly the bytes of the page up to the listener's position. *)
Theorem ogg_listener_sent s p b w n :
  page_shows s p b -> ol_pos w = 0 -> lc_headers_sent (ol_client w) = true ->
  exists w' x left, write_calls n s p w = Some w' /\
    ol_sent w' = ol_sent w ++ x ++ take (Z.to_nat (ol_pos w')) (sb_data b) /\
    wire (headers_due s p b (ol_client w)) x left /\
    (left <> [] -> ol_pos w' = 0) /\ 0 <= ol_pos w' <= lenZ (sb_data b).
Proof.
  intros (r & hs & Hp & Hd & _ & C & F) P0 Hs. unfold headers_due. rewrite Hp.
  destruct (write_calls_spec s p r (sb_data b) hs _ n w (if bool_decide (lc_headers (ol_client w) = rb_assoc r) then [] else default [] (sb_headers b))
              Hp Hd C F) as (w' & x & y & l & -> & S & W & N & Y & P & L).
  - rewrite P0. unfold lenZ. lia.
  - case_bool_decide; [by left|right; by left].
  - rewrite P0 in *. change (drop (Z.to_nat 0) (sb_data b)) with (sb_data b) in Y.
    assert (ol_pos w' = lenZ y) as Ep by lia. exists w', x, l. split_and!; try done; try (unfold lenZ in *; lia).
    + rewrite Ep. unfold lenZ. rewrite Nat2Z.id, <- Y. exact S.
    + intros Nl. rewrite (N Nl) in Ep. exact Ep.
Qed.
End client.

(** A page with two header pages, and a new listener whose connection takes two
    bytes, then two more, and then all there is. *)
Definition example_store : page_store :=
  default empty_store (store_run [Attach (toy_page 1 false "h"); Attach (toy_page 2 true "b"); Make (toy_page 1 false "one"); Complete 0] empty_store).
Definition example_listener : ogg_listener := OggListener create_ogg_client_data 0 [2; 2; 100; 100; 100] [].
Definition example_buffer : spec_buffer :=
  SpecBuffer (page_bytes (toy_page 1 false "one")) (Some [page_bytes (toy_page 2 true "b"); page_bytes (toy_page 1 false "h")]) false 1.

Lemma example_page_shows : page_shows example_store 3%positive example_buffer.
Proof.
  exists (Refbuf 6 1 (Some 2%positive) None false), [2; 1]%positive. split_and!; try (vm_compute; reflexivity).
  - econstructor; [vm_compute; reflexivity| |by intros [?|[]%elem_of_nil]%elem_of_cons].
    econstructor; [vm_compute; reflexivity|constructor|by intros []%elem_of_nil].
  - repeat constructor; vm_compute; reflexivity.
Qed.

Lemma ogg_listener_sent_witness :
  (exists w' x left, write_calls 3 example_store 3 example_listener = Some w' /\
     ol_sent w' = [] ++ x ++ take (Z.to_nat (ol_pos w')) (sb_data example_buffer) /\
     wire (headers_due example_store 3 example_buffer create_ogg_client_data) x left /\
     (left <> [] -> ol_pos w' = 0) /\ 0 <= ol_pos w' <= lenZ (sb_data example_buffer)) /\
  headers_due example_store 3 example_buffer create_ogg_client_data =
    [page_bytes (toy_page 2 true "b"); page_bytes (toy_page 1 false "h")].
Proof.
  split; [|vm_compute; reflexivity].
  exact (ogg_listener_sent example_store 3 example_buffer example_listener 3 example_page_shows eq_refl eq_refl).
Defined.

(** The listener gets the first two bytes of the first header page three
    times. *)
Lemma ogg_header_resent :
  ol_sent <$> write_calls 3 example_store 3 example_listener =
    Some (take 2 (page_bytes (toy_page 2 true "b")) ++ take 2 (page_bytes (toy_page 2 true "b")) ++
          page_bytes (toy_page 2 true "b") ++ page_bytes (toy_page 1 false "h") ++ page_bytes (toy_page 1 false "one")).
Proof. vm_compute. reflexivity. Qed.
