(* ===== verification/AvlTree.v ===== *)
(** The interface of the ordered trees of the [common/avl] submodule, whose
    code is not part of this repository: what [source.c] relies on when it
    keeps the listeners of a mount in trees ordered by connection id. *)

From S2P Require Import Prelude.
From Stdlib Require Import Sorted.

(** [avl_tree_new], [avl_insert], [avl_delete], and the keys in the order in
    which [avl_get_first] and [avl_get_next] visit them. *)
Class AvlTree (T : Type) := {
  avl_new : T;
  avl_insert : Z -> T -> T;
  avl_delete : Z -> T -> T;
  avl_elements : T -> list Z
}.

(** The documented behaviour: a set, visited in increasing order. *)
Class AvlTreeOk (T : Type) `{AvlTree T} : Prop := {
  avl_elements_new : avl_elements avl_new = [];
  avl_elements_sorted t : StronglySorted Z.lt (avl_elements t);
  elem_of_avl_insert k t x :
    x ∈ avl_elements (avl_insert k t) <-> x = k \/ x ∈ avl_elements t;
  elem_of_avl_delete k t x :
    x ∈ avl_elements (avl_delete k t) <-> x <> k /\ x ∈ avl_elements t
}.

Section facts.
Context `{AvlTreeOk T}.

Lemma sorted_NoDup (l : list Z) : StronglySorted Z.lt l -> NoDup l.
Proof.
  induction 1 as [|x l S IH F]; constructor; [|done].
  intros I. rewrite Forall_forall in F. specialize (F x I). lia.
Qed.

Lemma avl_NoDup t : NoDup (avl_elements t).
Proof. apply sorted_NoDup, avl_elements_sorted. Qed.

Lemma avl_insert_perm k t :
  k ∉ avl_elements t -> avl_elements (avl_insert k t) ≡ₚ k :: avl_elements t.
Proof.
  intros N. apply NoDup_Permutation; [apply avl_NoDup|by constructor; [|apply avl_NoDup]|].
  intros x. by rewrite elem_of_avl_insert, elem_of_cons.
Qed.

Lemma avl_delete_perm k t :
  k ∈ avl_elements t -> avl_elements t ≡ₚ k :: avl_elements (avl_delete k t).
Proof.
  intros I. apply NoDup_Permutation; [apply avl_NoDup| |].
  - constructor; [|apply avl_NoDup]. rewrite elem_of_avl_delete. tauto.
  - intros x. rewrite elem_of_cons, elem_of_avl_delete.
    destruct (decide (x = k)) as [->|]; tauto.
Qed.
End facts.

(** A sorted list is such a tree. *)
Fixpoint sorted_insert (k : Z) (l : list Z) : list Z :=
  match l with
  | [] => [k]
  | x :: r => if (k <? x)%Z then k :: l else if (k =? x)%Z then l else x :: sorted_insert k r
  end.

Definition sorted_list : Type := { l : list Z | StronglySorted Z.lt l }.

Lemma elem_of_sorted_insert k l x : x ∈ sorted_insert k l <-> x = k \/ x ∈ l.
Proof.
  induction l as [|y l IH]; simpl; [by rewrite elem_of_cons|].
  destruct (Z.ltb_spec k y); [by rewrite !elem_of_cons|].
  destruct (Z.eqb_spec k y) as [->|N]; rewrite !elem_of_cons; [|rewrite IH]; tauto.
Qed.

Lemma sorted_insert_sorted k l :
  StronglySorted Z.lt l -> StronglySorted Z.lt (sorted_insert k l).
Proof.
  induction 1 as [|y l S IH F]; simpl; [by repeat constructor|].
  destruct (Z.ltb_spec k y) as [L|L].
  - constructor; [by constructor|]. constructor; [done|].
    eapply Forall_impl; [done|]. simpl. lia.
  - destruct (Z.eqb_spec k y) as [->|N]; [by constructor|].
    constructor; [done|]. apply Forall_forall. intros x [->|I]%elem_of_sorted_insert; [lia|].
    rewrite Forall_forall in F. auto.
Qed.

Lemma filter_sorted (P : Z -> Prop) `{forall x, Decision (P x)} l :
  StronglySorted Z.lt l -> StronglySorted Z.lt (filter P l).
Proof.
  induction 1 as [|y l S IH F]; [constructor|]. rewrite filter_cons. case_decide; [|done].
  constructor; [done|]. apply Forall_forall. intros x [_ I]%list_elem_of_filter.
  rewrite Forall_forall in F. auto.
Qed.

Definition sl_insert (k : Z) (t : sorted_list) : sorted_list :=
  exist _ (sorted_insert k (`t))
    (sorted_insert_sorted k _ (proj2_sig t)).

Definition sl_delete (k : Z) (t : sorted_list) : sorted_list :=
  exist _ (filter (fun x => x <> k) (`t))
    (filter_sorted _ _ (proj2_sig t)).

#[export] Instance sorted_list_tree : AvlTree sorted_list := {
  avl_new := exist _ [] (SSorted_nil Z.lt);
  avl_insert := sl_insert;
  avl_delete := sl_delete;
  avl_elements t := `t
}.

#[export] Instance sorted_list_ok : AvlTreeOk sorted_list.
Proof.
  split.
  - done.
  - intros [l H]. exact H.
  - intros k [l H] x. apply elem_of_sorted_insert.
  - intros k [l H] x. simpl. rewrite list_elem_of_filter. done.
Qed.
