(* ===== verification/Source.v ===== *)
(** The streaming core of [source.c] and [format.c]: the queue of stream
    buffers of a mount with its burst, the listeners that walk it, and the
    main loop that feeds, trims and serves it.

    The state is explicit: the heap of buffers, the clients by connection id,
    the source, the messages sent to the statistics thread.  [None] is a
    memory error or a loop that does not end; the theorems show it does not
    happen.  Locks and log messages are left out. *)

From S2P Require Import Prelude Errors Refbuf AvlTree.
Local Open Scope Z_scope.

(** ** State *)

(** The [check_buffer] callback of a client. *)
Inductive check_fn :=
| format_check_http_buffer_fn
| format_check_file_buffer_fn
| format_advance_queue_fn.

(** The fields of [client_t] the source works with; [cl_error] and
    [cl_discon_time] are those of its connection. *)
Record client := Client {
  cl_refbuf : option ptr;
  cl_pos : Z;
  cl_intro_offset : Z;
  cl_check : check_fn;
  cl_respcode : Z;
  cl_error : bool;
  cl_discon_time : Z
}.

Definition cl_set_refbuf (b : option ptr) (c : client) : client :=
  Client b (cl_pos c) (cl_intro_offset c) (cl_check c) (cl_respcode c) (cl_error c) (cl_discon_time c).
Definition cl_set_pos (n : Z) (c : client) : client :=
  Client (cl_refbuf c) n (cl_intro_offset c) (cl_check c) (cl_respcode c) (cl_error c) (cl_discon_time c).
Definition cl_set_intro (n : Z) (c : client) : client :=
  Client (cl_refbuf c) (cl_pos c) n (cl_check c) (cl_respcode c) (cl_error c) (cl_discon_time c).
Definition cl_set_check (f : check_fn) (c : client) : client :=
  Client (cl_refbuf c) (cl_pos c) (cl_intro_offset c) f (cl_respcode c) (cl_error c) (cl_discon_time c).
Definition cl_set_respcode (n : Z) (c : client) : client :=
  Client (cl_refbuf c) (cl_pos c) (cl_intro_offset c) (cl_check c) n (cl_error c) (cl_discon_time c).
Definition cl_set_error (c : client) : client :=
  Client (cl_refbuf c) (cl_pos c) (cl_intro_offset c) (cl_check c) (cl_respcode c) true (cl_discon_time c).

(** [format_type_t] of a source that can be processed. *)
Inductive format_type := FORMAT_TYPE_OGG | FORMAT_TYPE_EBML | FORMAT_TYPE_GENERIC.

#[export] Instance format_type_eq_dec : EqDecision format_type.
Proof. solve_decision. Defined.

(** The queue: [stream_data], [stream_data_tail], [burst_point],
    [burst_offset] and [queue_size] of [source_t]. *)
Record queue := Queue {
  q_data : option ptr;
  q_tail : option ptr;
  q_burst : option ptr;
  q_burst_offset : Z;
  q_size : Z
}.

(** The settings: [burst_size], [queue_size_limit], [timeout] and
    [max_listeners]. *)
Record settings := Settings {
  burst_size : Z;
  queue_size_limit : Z;
  timeout : Z;
  max_listeners : Z
}.

(** [listeners], [prev_listeners] and [peak_listeners]. *)
Record counts := Counts { n_listeners : Z; n_prev : Z; n_peak : Z }.

(** [source_t]; [s_client] and [s_con] say whether the pointers are set, and
    [s_intro] is the length of the intro file when there is one. *)
Record source (T : Type) := Source {
  s_mount : string;
  s_settings : settings;
  s_queue : queue;
  s_counts : counts;
  s_clients : T;
  s_pending : T;
  s_running : bool;
  s_on_demand : bool;
  s_on_demand_req : bool;
  s_client : bool;
  s_con : bool;
  s_format : option format_type;
  s_short_delay : bool;
  s_last_read : Z;
  s_stats_update : Z;
  s_intro : option Z;
  s_sent_bytes : Z
}.
Arguments Source {T}.
Arguments s_mount {T}.
Arguments s_settings {T}.
Arguments s_queue {T}.
Arguments s_counts {T}.
Arguments s_clients {T}.
Arguments s_pending {T}.
Arguments s_running {T}.
Arguments s_on_demand {T}.
Arguments s_on_demand_req {T}.
Arguments s_client {T}.
Arguments s_con {T}.
Arguments s_format {T}.
Arguments s_short_delay {T}.
Arguments s_last_read {T}.
Arguments s_stats_update {T}.
Arguments s_intro {T}.
Arguments s_sent_bytes {T}.

(** The messages to the statistics thread that the loop sends: the mount
    ([None] for the global group), the name, and what happens to it. *)
Inductive stat_action := StatInc | StatDec | StatSub (n : Z) | StatSet (n : Z) | StatSetText (s : string) | StatDelete.
Definition stat : Type := option string * string * stat_action.

(** The buffers, the clients, the source at work, the messages sent, and the
    clients handed to the file server with an error answer. *)
Record world (T : Type) := World {
  w_heap : heap;
  w_conns : gmap Z client;
  w_src : source T;
  w_stats : list stat;
  w_answers : list (Z * Z)
}.
Arguments World {T}.
Arguments w_heap {T}.
Arguments w_conns {T}.
Arguments w_src {T}.
Arguments w_stats {T}.
Arguments w_answers {T}.

Section setters.
Context {T : Type}.

Definition src_set_queue (q : queue) (s : source T) : source T :=
  Source (s_mount s) (s_settings s) q (s_counts s) (s_clients s) (s_pending s) (s_running s)
    (s_on_demand s) (s_on_demand_req s) (s_client s) (s_con s) (s_format s) (s_short_delay s)
    (s_last_read s) (s_stats_update s) (s_intro s) (s_sent_bytes s).
Definition src_set_counts (n : counts) (s : source T) : source T :=
  Source (s_mount s) (s_settings s) (s_queue s) n (s_clients s) (s_pending s) (s_running s)
    (s_on_demand s) (s_on_demand_req s) (s_client s) (s_con s) (s_format s) (s_short_delay s)
    (s_last_read s) (s_stats_update s) (s_intro s) (s_sent_bytes s).
Definition src_set_trees (a b : T) (s : source T) : source T :=
  Source (s_mount s) (s_settings s) (s_queue s) (s_counts s) a b (s_running s)
    (s_on_demand s) (s_on_demand_req s) (s_client s) (s_con s) (s_format s) (s_short_delay s)
    (s_last_read s) (s_stats_update s) (s_intro s) (s_sent_bytes s).
Definition src_set_running (b : bool) (s : source T) : source T :=
  Source (s_mount s) (s_settings s) (s_queue s) (s_counts s) (s_clients s) (s_pending s) b
    (s_on_demand s) (s_on_demand_req s) (s_client s) (s_con s) (s_format s) (s_short_delay s)
    (s_last_read s) (s_stats_update s) (s_intro s) (s_sent_bytes s).
Definition src_set_on_demand_req (b : bool) (s : source T) : source T :=
  Source (s_mount s) (s_settings s) (s_queue s) (s_counts s) (s_clients s) (s_pending s) (s_running s)
    (s_on_demand s) b (s_client s) (s_con s) (s_format s) (s_short_delay s)
    (s_last_read s) (s_stats_update s) (s_intro s) (s_sent_bytes s).
Definition src_set_short_delay (b : bool) (s : source T) : source T :=
  Source (s_mount s) (s_settings s) (s_queue s) (s_counts s) (s_clients s) (s_pending s) (s_running s)
    (s_on_demand s) (s_on_demand_req s) (s_client s) (s_con s) (s_format s) b
    (s_last_read s) (s_stats_update s) (s_intro s) (s_sent_bytes s).
Definition src_set_times (lr su : Z) (s : source T) : source T :=
  Source (s_mount s) (s_settings s) (s_queue s) (s_counts s) (s_clients s) (s_pending s) (s_running s)
    (s_on_demand s) (s_on_demand_req s) (s_client s) (s_con s) (s_format s) (s_short_delay s)
    lr su (s_intro s) (s_sent_bytes s).
Definition src_set_sent (n : Z) (s : source T) : source T :=
  Source (s_mount s) (s_settings s) (s_queue s) (s_counts s) (s_clients s) (s_pending s) (s_running s)
    (s_on_demand s) (s_on_demand_req s) (s_client s) (s_con s) (s_format s) (s_short_delay s)
    (s_last_read s) (s_stats_update s) (s_intro s) n.

Definition w_set_heap (h : heap) (w : world T) : world T :=
  World h (w_conns w) (w_src w) (w_stats w) (w_answers w).
Definition w_set_conns (m : gmap Z client) (w : world T) : world T :=
  World (w_heap w) m (w_src w) (w_stats w) (w_answers w).
Definition w_set_src (s : source T) (w : world T) : world T :=
  World (w_heap w) (w_conns w) s (w_stats w) (w_answers w).
Definition w_upd_src (f : source T -> source T) (w : world T) : world T :=
  w_set_src (f (w_src w)) w.
Definition w_answer (id : Z) (e : Z) (w : world T) : world T :=
  World (w_heap w) (w_conns w) (w_src w) (w_stats w) (w_answers w ++ [(id, e)]).
(** [stats_event] and its variants. *)
Definition stats_event (mount : option string) (name : string) (a : stat_action) (w : world T) : world T :=
  World (w_heap w) (w_conns w) (w_src w) (w_stats w ++ [(mount, name, a)]) (w_answers w).
End setters.

Section source.
Context {T : Type} `{AvlTree T}.
Implicit Types w : world T.

(** ** Clients in the queue *)

Definition upd_client (id : Z) (f : client -> client) w : option (world T) :=
  match w_conns w !! id with
  | Some c => Some (w_set_conns (<[id := f c]> (w_conns w)) w)
  | None => None
  end.

Definition with_heap (f : heap -> option heap) w : option (world T) :=
  match f (w_heap w) with Some h => Some (w_set_heap h w) | None => None end.

Definition client_set_queue (id : Z) (refbuf : option ptr) w : option (world T) :=
  c ← w_conns w !! id;
  let to_release := cl_refbuf c in
  w ← upd_client id (cl_set_refbuf refbuf) w;
  w ← match refbuf with
      | Some p => with_heap (refbuf_addref p) w
      | None => Some w
      end;
  w ← upd_client id (cl_set_pos 0) w;
  match to_release with
  | Some _ => with_heap (refbuf_release to_release) w
  | None => Some w
  end.

(** The first loop of [find_client_start]: [size] is a [size_t]. *)
Fixpoint skip_burst (fuel : nat) (size : Z) (refbuf : option ptr) (h : heap) :
    option (option ptr) :=
  match fuel with
  | O => None
  | S fuel' =>
      if size >? 0 then
        match refbuf with
        | None => Some None
        | Some p =>
            r ← h !! p;
            match rb_next r with
            | None => Some refbuf
            | Some _ => skip_burst fuel' (u64 (size - rb_len r)) (rb_next r) h
            end
        end
      else Some refbuf
  end.

(** The second loop: the first sync point from [refbuf] on. *)
Fixpoint find_sync_point (fuel : nat) (refbuf : option ptr) (h : heap) :
    option (option ptr) :=
  match fuel with
  | O => None
  | S fuel' =>
      match refbuf with
      | None => Some None
      | Some p =>
          r ← h !! p;
          if rb_sync r then Some (Some p) else find_sync_point fuel' (rb_next r) h
      end
  end.

Definition walk_fuel (h : heap) : nat := S (size h).
Arguments walk_fuel : simpl never.

Definition find_client_start (id : Z) w : option (world T) :=
  c ← w_conns w !! id;
  let q := s_queue (w_src w) in
  let h := w_heap w in
  at_tail ←
    match q_tail q with
    | Some t => if cl_intro_offset c =? -1 then r ← h !! t; Some (rb_sync r) else Some false
    | None => Some false
    end;
  start ←
    (if (at_tail : bool) then Some (q_tail q)
     else skip_burst (walk_fuel h) (u64 (cl_intro_offset c)) (q_burst q) h);
  found ← find_sync_point (walk_fuel h) start h;
  match found with
  | None => Some w
  | Some p =>
      w ← client_set_queue id (Some p) w;
      w ← upd_client id (cl_set_check format_advance_queue_fn) w;
      upd_client id (cl_set_intro (-1)) w
  end.

(** [get_file_data]: the bytes read from an intro file of length [s_intro] at
    the offset of the client, [0] when there is nothing to read. *)
Definition get_file_data (intro : option Z) (offset : Z) : Z :=
  match intro with
  | None => 0
  | Some n => if offset <? 0 then 0 else Z.max 0 (Z.min 4096 (n - offset))
  end.

(** The second half of [format_check_file_buffer], from the test of
    [client->pos] on: the client has a buffer. *)
Definition refill_file_buffer (id : Z) w : option (Z * world T) :=
  c ← w_conns w !! id;
  p ← cl_refbuf c;
  r ← w_heap w !! p;
  if cl_pos c =? rb_len r then
    let bytes := get_file_data (s_intro (w_src w)) (cl_intro_offset c) in
    if 0 <? bytes then
      w ← with_heap (upd_ptr p (set_len bytes)) w;
      w ← upd_client id (fun c => cl_set_intro (cl_intro_offset c + bytes) (cl_set_pos 0 c)) w;
      Some (0, w)
    else
      match q_tail (s_queue (w_src w)) with
      | Some _ =>
          w ← client_set_queue id None w;
          w ← find_client_start id w;
          Some (-1, w)
      | None => w ← upd_client id (cl_set_intro 0) w; Some (-1, w)
      end
  else Some (0, w).

Definition format_check_file_buffer (id : Z) w : option (Z * world T) :=
  c ← w_conns w !! id;
  match cl_refbuf c, s_client (w_src w) with
  | None, true => w ← find_client_start id w; Some (-1, w)
  | None, false =>
      let '(p, h) := refbuf_new PER_CLIENT_REFBUF_SIZE (w_heap w) in
      w ← upd_client id
            (fun c => cl_set_intro 0 (cl_set_pos PER_CLIENT_REFBUF_SIZE (cl_set_refbuf (Some p) c)))
            (w_set_heap h w);
      refill_file_buffer id w
  | Some _, _ => refill_file_buffer id w
  end.

(** [format_check_http_buffer]; [headers] is the outcome of
    [format_prepare_headers]: the length of the answer, or its failure. *)
Definition format_check_http_buffer (headers : option nat) (id : Z) w : option (Z * world T) :=
  c ← w_conns w !! id;
  match cl_refbuf c with
  | None => Some (-1, w)
  | Some p =>
      '(ok, w) ←
        (if cl_respcode c =? 0 then
           match headers with
           | None =>
               w ← upd_client id (fun c => cl_set_error (cl_set_respcode 500 c)) w;
               Some (false, w)
           | Some len =>
               w ← with_heap (upd_ptr p (set_len (Z.of_nat len))) w;
               w ← upd_client id (cl_set_respcode 200) w;
               let w := stats_event None "listeners" StatInc w in
               let w := stats_event None "listener_connections" StatInc w in
               Some (true, stats_event (Some (s_mount (w_src w))) "listener_connections" StatInc w)
           end
         else Some (true, w));
      if (ok : bool) then
        c ← w_conns w !! id;
        r ← w_heap w !! p;
        if cl_pos c =? rb_len r then
          w ← with_heap (upd_ptr p (set_len 4096)) w;
          w ← upd_client id
                (fun c => cl_set_pos 4096 (cl_set_intro 0 (cl_set_check format_check_file_buffer_fn c))) w;
          Some (-1, w)
        else Some (0, w)
      else Some (-1, w)
  end.

Definition format_advance_queue (id : Z) w : option (Z * world T) :=
  c ← w_conns w !! id;
  match cl_refbuf c with
  | None => Some (-1, w)
  | Some p =>
      r ← w_heap w !! p;
      match rb_next r with
      | None => if cl_pos c =? rb_len r then Some (-1, w) else Some (0, w)
      | Some n =>
          if cl_pos c =? rb_len r then
            w ← client_set_queue id (Some n) w; Some (0, w)
          else Some (0, w)
      end
  end.

(** ** Sending *)

(** What the outside does to one turn of the sending loop: the time, the
    outcome of building the headers, and the result of [send] with the error
    it may set.  [send] never takes more bytes than it is offered. *)
Record io := Io {
  io_time : Z;
  io_headers : option nat;
  io_sent : Z;
  io_error : bool
}.

Definition check_buffer (o : io) (id : Z) w : option (Z * world T) :=
  c ← w_conns w !! id;
  match cl_check c with
  | format_check_http_buffer_fn => format_check_http_buffer (io_headers o) id w
  | format_check_file_buffer_fn => format_check_file_buffer id w
  | format_advance_queue_fn => format_advance_queue id w
  end.

Definition format_generic_write_to_client (o : io) (id : Z) w : option (Z * world T) :=
  c ← w_conns w !! id;
  p ← cl_refbuf c;
  r ← w_heap w !! p;
  let len := u32 (rb_len r - cl_pos c) in
  let ret := Z.min (io_sent o) len in
  w ← upd_client id (fun c => if io_error o then cl_set_error c else c) w;
  w ← upd_client id (fun c => if 0 <? ret then cl_set_pos (u32 (cl_pos c + ret)) c else c) w;
  Some (ret, w).

(** The loop of [send_to_listener]: [loop] turns are left, [ios n] is what
    happens in the turn with [n] turns left. *)
Fixpoint send_loop (loop : nat) (ios : nat -> io) (total : Z) (id : Z) w : option (Z * world T) :=
  c ← w_conns w !! id;
  w ← (if negb (cl_discon_time c =? 0) && (cl_discon_time c <=? io_time (ios loop))
       then upd_client id cl_set_error w else Some w);
  c ← w_conns w !! id;
  if cl_error c then Some (total, w)
  else
    let stopped :=
      match cl_check c with
      | format_check_file_buffer_fn => w
      | _ => w_upd_src (src_set_short_delay true) w
      end in
    match loop with
    | O => Some (total, stopped)
    | S loop' =>
        if 20000 <? total then Some (total, stopped)
        else
          '(ret, w) ← check_buffer (ios loop) id w;
          if ret <? 0 then Some (total, w)
          else
            '(bytes, w) ← format_generic_write_to_client (ios loop) id w;
            if bytes <=? 0 then Some (total, w)
            else send_loop loop' ios (total + bytes) id w
    end.

Definition send_to_listener (id : Z) (deletion_expected : bool) (ios : nat -> io) w :
    option (world T) :=
  '(total, w) ← send_loop 10 ios 0 id w;
  let w := w_upd_src (fun s => src_set_sent (u64 (s_sent_bytes s + total)) s) w in
  c ← w_conns w !! id;
  match cl_refbuf c with
  | Some p =>
      if deletion_expected && bool_decide (q_data (s_queue (w_src w)) = Some p) then
        let w := stats_event (Some (s_mount (w_src w))) "slow_listeners" StatInc w in
        upd_client id cl_set_error w
      else Some w
  | None => Some w
  end.

(** ** Dropping clients *)

(** [client_destroy] as far as the queue is concerned: the buffer goes back
    and the client is no more. *)
Definition client_destroy (id : Z) w : option (world T) :=
  c ← w_conns w !! id;
  w ← match cl_refbuf c with
      | Some _ => with_heap (refbuf_release (cl_refbuf c)) w
      | None => Some w
      end;
  Some (w_set_conns (delete id (w_conns w)) w).

(** [_free_client]: a client that has had no answer is handed on with one,
    which is built in its buffer. *)
Definition free_client (id : Z) w : option (world T) :=
  c ← w_conns w !! id;
  if cl_respcode c =? 0 then
    p ← cl_refbuf c;
    _ ← w_heap w !! p;
    Some (w_answer id ICECAST_ERROR_SOURCE_MOUNT_UNAVAILABLE w)
  else client_destroy id w.

(** ** The main loop *)

(** The loop that moves the burst point while the burst is too long. *)
Fixpoint trim_burst (fuel : nat) w : option (world T) :=
  match fuel with
  | O => None
  | S fuel' =>
      let q := s_queue (w_src w) in
      if burst_size (s_settings (w_src w)) <? q_burst_offset q then
        to_release ← q_burst q;
        r ← w_heap w !! to_release;
        match rb_next r with
        | None => Some w
        | Some n =>
            let w := w_upd_src (src_set_queue (Queue (q_data q) (q_tail q) (Some n)
                       (u32 (q_burst_offset q - rb_len r)) (q_size q))) w in
            w ← with_heap (refbuf_release (Some to_release)) w;
            trim_burst fuel' w
        end
      else Some w
  end.

(** The buffer becomes the tail of the queue, and is referenced for the
    burst. *)
Definition link_buffer (refbuf : ptr) w : option (world T) :=
  let q := s_queue (w_src w) in
  let q := match q_data q with
           | None => Queue (Some refbuf) (q_tail q) (Some refbuf) (q_burst_offset q) (q_size q)
           | Some _ => q
           end in
  w ← match q_tail q with
      | Some t => with_heap (upd_ptr t (set_next (Some refbuf))) w
      | None => Some w
      end;
  r ← w_heap w !! refbuf;
  let q := Queue (q_data q) (Some refbuf) (q_burst q) (u32 (q_burst_offset q + rb_len r))
             (u32 (q_size q + rb_len r)) in
  w ← with_heap (refbuf_addref refbuf) w;
  Some (w_upd_src (src_set_queue q) w).

Definition append_buffer (refbuf : ptr) w : option (world T) :=
  w ← link_buffer refbuf w;
  trim_burst (walk_fuel (w_heap w)) w.

(** A listener whose connection is in error leaves the mount. *)
Definition drop_listener (id : Z) w : option (world T) :=
  c ← w_conns w !! id;
  let w := if cl_respcode c =? 200 then stats_event None "listeners" StatDec w else w in
  let s := w_src w in
  let w := w_set_src (src_set_trees (avl_delete id (s_clients s)) (s_pending s) s) w in
  w ← free_client id w;
  let n := s_counts (w_src w) in
  Some (w_upd_src (src_set_counts (Counts (u64 (n_listeners n - 1)) (n_prev n) (n_peak n))) w).

(** One listener of the sending pass; the client may be dropped. *)
Definition serve_listener (remove_from_q : bool) (ios : nat -> io) (id : Z) w : option (world T) :=
  w ← send_to_listener id remove_from_q ios w;
  c ← w_conns w !! id;
  if cl_error c then drop_listener id w else Some w.

Fixpoint serve_listeners (remove_from_q : bool) (ios : Z -> nat -> io) (ids : list Z) w :
    option (world T) :=
  match ids with
  | [] => Some w
  | id :: r => w ← serve_listener remove_from_q (ios id) id w; serve_listeners remove_from_q ios r w
  end.

(** One pending client: dropped when the mount is full, admitted otherwise. *)
Definition admit_client (id : Z) w : option (world T) :=
  let s := w_src w in
  let n := s_counts s in
  let max := max_listeners (s_settings s) in
  if negb (max =? -1) && (u64 max <=? n_listeners n) then
    free_client id (w_set_src (src_set_trees (s_clients s) (avl_delete id (s_pending s)) s) w)
  else
    let s := src_set_trees (avl_insert id (s_clients s)) (s_pending s) s in
    let s := src_set_counts (Counts (u64 (n_listeners n + 1)) (n_prev n) (n_peak n)) s in
    Some (stats_event (Some (s_mount s)) "connections" StatInc (w_set_src s w)).

Fixpoint admit_clients (ids : list Z) w : option (world T) :=
  match ids with
  | [] => Some w
  | id :: r => w ← admit_client id w; admit_clients r w
  end.

(** Emptying the pending tree, whose clients have all been admitted or
    dropped: [source_remove_client] does not touch them. *)
Definition clear_pending w : world T :=
  w_upd_src (fun s => src_set_trees (s_clients s)
    (fold_left (fun t id => avl_delete id t) (avl_elements (s_pending s)) (s_pending s)) s) w.

Definition update_counts w : world T :=
  let s := w_src w in
  let n := s_counts s in
  if n_listeners n =? n_prev n then w
  else
    let peak := Z.max (n_peak n) (n_listeners n) in
    let w := if n_peak n <? n_listeners n
             then stats_event (Some (s_mount s)) "listener_peak" (StatSet peak) w else w in
    let w := stats_event (Some (s_mount s)) "listeners" (StatSet (n_listeners n)) w in
    let w := w_upd_src (src_set_counts (Counts (n_listeners n) (n_listeners n) peak)) w in
    if (n_listeners n =? 0) && s_on_demand s then w_upd_src (src_set_running false) w else w.

(** The loop that removes unreferenced buffers from the head of the queue;
    the flag is set when the state is not the expected one. *)
Fixpoint trim_queue (fuel : nat) w : option (bool * world T) :=
  match fuel with
  | O => None
  | S fuel' =>
      let q := s_queue (w_src w) in
      to_go ← q_data q;
      r ← w_heap w !! to_go;
      if rb_count r =? 1 then
        if bool_decide (rb_next r = None) || bool_decide (q_burst q = Some to_go) then
          Some (true, w_upd_src (src_set_running false) w)
        else
          let w := w_upd_src (src_set_queue (Queue (rb_next r) (q_tail q) (q_burst q)
                     (q_burst_offset q) (u32 (q_size q - rb_len r)))) w in
          w ← with_heap (upd_ptr to_go (set_next None)) w;
          w ← with_heap (refbuf_release (Some to_go)) w;
          trim_queue fuel' w
      else Some (false, w)
  end.

(** The body of the loop of [source_main] after [get_next_buffer], with the
    flag of [trim_queue]. *)
Definition source_iteration (refbuf : option ptr) (ios : Z -> nat -> io) w :
    option (bool * world T) :=
  let w := w_upd_src (src_set_short_delay false) w in
  w ← match refbuf with Some p => append_buffer p w | None => Some w end;
  let remove_from_q := queue_size_limit (s_settings (w_src w)) <? q_size (s_queue (w_src w)) in
  w ← serve_listeners remove_from_q ios (avl_elements (s_clients (w_src w))) w;
  w ← admit_clients (avl_elements (s_pending (w_src w))) w;
  let w := clear_pending w in
  let w := update_counts w in
  match q_data (s_queue (w_src w)) with
  | Some _ => trim_queue (walk_fuel (w_heap w)) w
  | None => Some (false, w)
  end.

(** ** Clearing a source *)

(** Every client of a tree is handed to [free_client] on its way out. *)
Fixpoint free_clients (ids : list Z) w : option (world T) :=
  match ids with
  | [] => Some w
  | id :: r => w ← free_client id w; free_clients r w
  end.

(** [while (p->_count > 1) refbuf_release (p)]. *)
Fixpoint release_to_one (fuel : nat) (p : ptr) (h : heap) : option heap :=
  match fuel with
  | O => None
  | S fuel' =>
      r ← h !! p;
      if 1 <? rb_count r then h ← refbuf_release (Some p) h; release_to_one fuel' p h else Some h
  end.

(** The loop that empties the queue; the tail follows the C code in being
    reset only afterwards. *)
Fixpoint clear_queue (fuel : nat) w : option (world T) :=
  match fuel with
  | O => None
  | S fuel' =>
      let q := s_queue (w_src w) in
      match q_data q with
      | None => Some w
      | Some p =>
          r ← w_heap w !! p;
          let w := w_upd_src (src_set_queue (Queue (rb_next r) (q_tail q) (q_burst q)
                     (q_burst_offset q) (q_size q))) w in
          w ← with_heap (upd_ptr p (set_next None)) w;
          w ← with_heap (release_to_one (Z.to_nat (rb_count r)) p) w;
          w ← with_heap (refbuf_release (Some p)) w;
          clear_queue fuel' w
      end
  end.

Definition clear_tree (t : T) : T :=
  fold_left (fun t id => avl_delete id t) (avl_elements t) t.

(** [source_clear_source] from the listeners on; the client of the source
    itself is not part of the state. *)
Definition source_clear_source w : option (world T) :=
  let active := existsb (fun id =>
    match w_conns w !! id with Some c => cl_respcode c =? 200 | None => false end)
    (avl_elements (s_clients (w_src w))) in
  w ← free_clients (avl_elements (s_clients (w_src w))) w;
  let w := if active
           then stats_event None "listeners" (StatSub (n_listeners (s_counts (w_src w)))) w
           else w in
  w ← free_clients (avl_elements (s_pending (w_src w))) w;
  let w := w_upd_src (fun s => src_set_trees (clear_tree (s_clients s)) (clear_tree (s_pending s)) s) w in
  w ← clear_queue (walk_fuel (w_heap w)) w;
  let s := w_src w in
  Some (w_set_src (Source (s_mount s) (Settings 0 0 (timeout (s_settings s)) (-1))
    (Queue None None None 0 0) (Counts 0 0 (n_peak (s_counts s))) (s_clients s) (s_pending s)
    (s_running s) (s_on_demand s) false false false None (s_short_delay s)
    (s_last_read s) 0 None (s_sent_bytes s)) w).

(** ** Listeners arriving *)

(** The queue part of [client_create]. *)
Definition client_create (id : Z) w : world T :=
  let '(p, h) := refbuf_new 0 (w_heap w) in
  w_set_conns (<[id := Client (Some p) 0 0 format_check_http_buffer_fn 0 false 0]> (w_conns w))
    (w_set_heap h w).

(** The end of [__add_listener_to_source], when the source is found. *)
Definition add_listener (id : Z) w : option (world T) :=
  w ← upd_client id (cl_set_check format_check_http_buffer_fn) w;
  c ← w_conns w !! id;
  p ← cl_refbuf c;
  w ← with_heap (upd_ptr p (set_len PER_CLIENT_REFBUF_SIZE)) w;
  let s := w_src w in
  let s := src_set_trees (s_clients s) (avl_insert id (s_pending s)) s in
  let s := if negb (s_running s) && s_on_demand s then src_set_on_demand_req true s else s in
  Some (w_set_src s w).

End source.
