(* ===== verification/SourceInv.v ===== *)
(** The invariant of a source at work and its preservation by the operations
    of one client: every buffer is counted exactly, the queue is the chain
    from its head to its tail, and every client reads from a buffer it may
    read from. *)

From S2P Require Import Prelude Refbuf AvlTree Source.
Local Open Scope Z_scope.

(** ** References held by clients *)

Definition ref_of (p : ptr) (c : client) : nat :=
  if decide (cl_refbuf c = Some p) then 1%nat else 0%nat.

Definition crefs (m : gmap Z client) (p : ptr) : nat :=
  sum_list_with (fun kc => ref_of p (snd kc)) (map_to_list m).

Lemma crefs_new m k c p :
  m !! k = None -> crefs (<[k := c]> m) p = (ref_of p c + crefs m p)%nat.
Proof.
  intros Hm. unfold crefs.
  by rewrite (sum_list_with_Permutation _ _ _ (map_to_list_insert m k c Hm)).
Qed.

Lemma crefs_delete m k c p :
  m !! k = Some c -> crefs m p = (ref_of p c + crefs (delete k m) p)%nat.
Proof.
  intros Hm. rewrite <- (insert_delete_id m k c Hm) at 1.
  apply crefs_new, lookup_delete_eq.
Qed.

Lemma crefs_insert m k c c' p :
  m !! k = Some c ->
  (crefs (<[k := c']> m) p + ref_of p c = crefs m p + ref_of p c')%nat.
Proof.
  intros Hm. rewrite (crefs_delete m k c) by done.
  rewrite <- insert_delete_eq, crefs_new by apply lookup_delete_eq. lia.
Qed.

Lemma crefs_same m k c c' p :
  m !! k = Some c -> cl_refbuf c' = cl_refbuf c -> crefs (<[k := c']> m) p = crefs m p.
Proof.
  intros Hm E. pose proof (crefs_insert m k c c' p Hm).
  assert (ref_of p c' = ref_of p c) by (unfold ref_of; by rewrite E). lia.
Qed.

Lemma ref_of_eq p c : cl_refbuf c = Some p -> ref_of p c = 1%nat.
Proof. intros E. unfold ref_of. by rewrite decide_True. Qed.

Lemma ref_of_ne p c : cl_refbuf c <> Some p -> ref_of p c = 0%nat.
Proof. intros E. unfold ref_of. by rewrite decide_False. Qed.

(** Only one client refers to a buffer that is referred to once. *)
Lemma crefs_one m i j c d p :
  m !! i = Some c -> m !! j = Some d -> i <> j -> crefs m p = 1%nat ->
  cl_refbuf c = Some p -> cl_refbuf d <> Some p.
Proof.
  intros Hi Hj N C Ec Ed. rewrite (crefs_delete m i c) in C by done.
  rewrite (crefs_delete (delete i m) j d) in C by by rewrite lookup_delete_ne.
  rewrite (ref_of_eq p c), (ref_of_eq p d) in C by done. lia.
Qed.

(** ** The invariant *)

Definition sum_len (h : heap) (l : list ptr) : Z :=
  fold_right (fun p n => (match h !! p with Some r => rb_len r | None => 0 end) + n) 0 l.

Arguments sum_len : simpl never.

(** All the references outside the heap: the queue, the burst, the clients
    and the rest of the program. *)
Definition ext_of (pre burst : list ptr) (m : gmap Z client) (frame : ptr -> nat) (p : ptr) : nat :=
  (occ p (pre ++ burst) + occ p burst + crefs m p + frame p)%nat.

(** Up to the count, two states of one buffer. *)
Definition same_fields (r r' : refbuf) : Prop :=
  rb_len r' = rb_len r /\ rb_next r' = rb_next r /\ rb_sync r' = rb_sync r /\
  rb_assoc r' = rb_assoc r.

Section invariant.
Context {T : Type} `{AvlTree T}.
Implicit Types w : world T.

(** [pre ++ burst] is the queue, [burst] the part from the burst point on. *)
Record queue_ok w (own : ptr -> list ptr) (frame : ptr -> nat) (pre burst : list ptr) : Prop := {
  qo_refs : refs_ok (w_heap w) own (ext_of pre burst (w_conns w) frame);
  qo_chain : chain (w_heap w) (q_data (s_queue (w_src w))) (pre ++ burst);
  qo_burst : q_burst (s_queue (w_src w)) = hd_error burst;
  qo_tail : q_tail (s_queue (w_src w)) = last (pre ++ burst);
  qo_nonempty : burst = [] -> pre = [];
  qo_free : forall p, p ∈ pre ++ burst -> owned (w_heap w) own p = 0%nat /\ frame p = 0%nat;
  qo_size : q_size (s_queue (w_src w)) = u32 (sum_len (w_heap w) (pre ++ burst));
  qo_offset : q_burst_offset (s_queue (w_src w)) = u32 (sum_len (w_heap w) burst);
  qo_len : forall p r, p ∈ pre ++ burst -> w_heap w !! p = Some r -> 0 <= rb_len r < 2 ^ 32
}.

(** A buffer that one client and nothing else refers to. *)
Definition private w (own : ptr -> list ptr) (frame : ptr -> nat) (q : list ptr) (p : ptr) : Prop :=
  (p ∉ q) /\ frame p = 0%nat /\ owned (w_heap w) own p = 0%nat /\ crefs (w_conns w) p = 1%nat.

(** The client can read from [cl_pos] on in its buffer, which is the head of
    its own answer or file data, or a buffer of the queue. *)
Definition client_ok w own frame (q : list ptr) (c : client) : Prop :=
  (match cl_refbuf c with
   | None => cl_check c = format_check_file_buffer_fn
   | Some p =>
       (exists r, w_heap w !! p = Some r /\ 0 <= cl_pos c <= rb_len r) /\
       match cl_check c with
       | format_advance_queue_fn => p ∈ q
       | _ => private w own frame q p
       end
   end) /\
  (cl_respcode c = 0 -> cl_check c = format_check_http_buffer_fn /\ cl_pos c = 0).

Definition clients_ok w own frame q (ids : list Z) : Prop :=
  forall id, id ∈ ids -> exists c, w_conns w !! id = Some c /\ client_ok w own frame q c.

(** *** Preservation *)

(** The heap changed outside [X] in counts only, and no buffer joined an
    associated list. *)
Definition heap_rel (h h' : heap) (own own' : ptr -> list ptr) (X : list ptr) : Prop :=
  (forall x, owned h own x = 0%nat -> owned h' own' x = 0%nat) /\
  (forall x r r', x ∉ X -> owned h own x = 0%nat -> h !! x = Some r -> h' !! x = Some r' ->
     same_fields r r').

Lemma same_fields_refl r : same_fields r r.
Proof. done. Qed.

Lemma same_fields_trans r s t : same_fields r s -> same_fields s t -> same_fields r t.
Proof. unfold same_fields. intuition congruence. Qed.

Lemma heap_rel_refl h own X : heap_rel h h own own X.
Proof. split; [done|]. intros x r r' _ _ ? ?. by simplify_eq. Qed.

Lemma heap_rel_released h h' own own' p :
  released h h' own own' p -> heap_rel h h' own own' [].
Proof.
  intros [Ro Rs Rw]. split.
  - intros x Ox. specialize (Rw x). lia.
  - intros x r r' _ Ox Hx Hx'. destruct (decide (x = p)) as [->|N].
    + rewrite (Rs r Hx Ox) in Hx'. case_match; [done|]. by injection Hx' as <-.
    + rewrite (Ro x N Ox), Hx in Hx'. by simplify_eq.
Qed.

Lemma refs_ok_alive h own ext p :
  refs_ok h own ext -> (1 <= ext p)%nat -> is_Some (h !! p).
Proof.
  intros R E. destruct (h !! p) as [r|] eqn:Hp; [eauto|].
  destruct (ro_dead _ _ _ R p Hp). lia.
Qed.

Lemma sum_len_ext h h' l :
  (forall p, p ∈ l -> exists r r', h !! p = Some r /\ h' !! p = Some r' /\ rb_len r' = rb_len r) ->
  sum_len h' l = sum_len h l.
Proof.
  unfold sum_len. induction l as [|p l IH]; intros E; [done|]. cbn [fold_right].
  destruct (E p ltac:(left)) as (r & r' & -> & -> & ->).
  rewrite IH; [done|]. intros x I. apply E. by right.
Qed.

Lemma ext_of_queue pre burst m frame p :
  p ∈ pre ++ burst -> (1 <= ext_of pre burst m frame p)%nat.
Proof. intros I%occ_in. unfold ext_of. lia. Qed.

(** Any change that leaves the queue and its buffers alone. *)
Lemma queue_ok_preserve w w' own own' frame pre burst X :
  queue_ok w own frame pre burst ->
  heap_rel (w_heap w) (w_heap w') own own' X ->
  (forall x, x ∈ X -> x ∉ pre ++ burst) ->
  s_queue (w_src w') = s_queue (w_src w) ->
  refs_ok (w_heap w') own' (ext_of pre burst (w_conns w') frame) ->
  queue_ok w' own' frame pre burst.
Proof.
  intros [R C B Tl N F S O L] [Hown Hf] HX Eq R'.
  assert (forall p, p ∈ pre ++ burst ->
    exists r r', w_heap w !! p = Some r /\ w_heap w' !! p = Some r' /\ same_fields r r') as K.
  { intros p I. destruct (refs_ok_alive _ _ _ p R (ext_of_queue _ _ _ _ p I)) as [r Hr].
    destruct (refs_ok_alive _ _ _ p R' (ext_of_queue _ _ _ _ p I)) as [r' Hr'].
    exists r, r'. split; [done|]. split; [done|]. eapply Hf; try done.
    - intros I'. by apply (HX p).
    - apply (F p I). }
  split; rewrite ?Eq; try done.
  - eapply chain_ext; [|exact C]. intros x r I Hx.
    destruct (K x I) as (r0 & r' & E0 & E1 & (_ & E2 & _)). simplify_eq. eauto.
  - intros p I. destruct (F p I). split; [by apply Hown|done].
  - rewrite S. f_equal. symmetry. apply sum_len_ext. intros p I.
    destruct (K p I) as (r & r' & ? & ? & (? & _)). eauto.
  - rewrite O. f_equal. symmetry. apply sum_len_ext. intros p I.
    destruct (K p) as (r & r' & ? & ? & (? & _)); [|by eauto]. apply elem_of_app. by right.
  - intros p r' I Hr'. destruct (K p I) as (r & r1 & Hr & Hr1 & (El & _)). simplify_eq.
    rewrite El. by eapply L.
Qed.

Lemma client_ok_preserve w w' own own' frame pre burst X c :
  client_ok w own frame (pre ++ burst) c ->
  heap_rel (w_heap w) (w_heap w') own own' X ->
  refs_ok (w_heap w') own' (ext_of pre burst (w_conns w') frame) ->
  (forall p, p ∈ pre ++ burst -> owned (w_heap w) own p = 0%nat) ->
  (forall p, cl_refbuf c = Some p -> p ∉ X) ->
  (forall p, cl_refbuf c = Some p -> crefs (w_conns w) p = 1%nat -> p ∉ pre ++ burst ->
     crefs (w_conns w') p = 1%nat) ->
  client_ok w' own' frame (pre ++ burst) c.
Proof.
  intros [A B] [Hown Hf] R' F HX HC. split; [|done].
  destruct (cl_refbuf c) as [p|]; [|done]. destruct A as [(r & Hr & Hpos) A].
  assert (owned (w_heap w) own p = 0%nat /\ (1 <= ext_of pre burst (w_conns w') frame p)%nat) as [Op Ep].
  { destruct (cl_check c); [| |by split; [apply F|apply ext_of_queue]];
      destruct A as (N & Hfr & Ho & Hc); (split; [done|]);
      unfold ext_of; rewrite (HC p eq_refl Hc N); lia. }
  destruct (refs_ok_alive _ _ _ p R' Ep) as [r' Hr'].
  destruct (Hf p r r' (HX p eq_refl) Op Hr Hr') as (El & _).
  split; [exists r'; rewrite El; eauto|].
  destruct (cl_check c); [| |done]; destruct A as (N & Hfr & Ho & Hc);
    (split_and!; [done|done|by apply Hown|by apply HC]).
Qed.

(** ** The operations of one client *)

(** The parts of the source that no operation of a client changes. *)
Definition src_same (s s' : source T) : Prop :=
  s_queue s' = s_queue s /\ s_settings s' = s_settings s /\ s_counts s' = s_counts s /\
  s_clients s' = s_clients s /\ s_pending s' = s_pending s /\ s_running s' = s_running s /\
  s_on_demand s' = s_on_demand s /\ s_mount s' = s_mount s /\ s_client s' = s_client s.

Section one_client.
Variables (frame : ptr -> nat) (pre burst : list ptr).
Abbreviation Q := (pre ++ burst).

(** What an operation of the client [id] leaves unchanged. *)
Record cstep (id : Z) w own w' own' : Prop := {
  cs_queue : queue_ok w' own' frame pre burst;
  cs_others : forall i d, i <> id -> w_conns w !! i = Some d ->
    w_conns w' !! i = Some d /\
    (client_ok w own frame Q d -> client_ok w' own' frame Q d);
  cs_dom : forall i, is_Some (w_conns w' !! i) -> is_Some (w_conns w !! i);
  cs_src : src_same (w_src w) (w_src w')
}.

Lemma src_same_refl s : src_same s s.
Proof. done. Qed.

Lemma src_same_trans s t u : src_same s t -> src_same t u -> src_same s u.
Proof. unfold src_same. intuition congruence. Qed.

Lemma cstep_refl id w own : queue_ok w own frame pre burst -> cstep id w own w own.
Proof. intros Hq. split; try done. Qed.

Lemma cstep_trans id w own w1 own1 w2 own2 :
  cstep id w own w1 own1 -> cstep id w1 own1 w2 own2 -> cstep id w own w2 own2.
Proof.
  intros [Q1 O1 D1 S1] [Q2 O2 D2 S2]. split; [done| |by auto|by eapply src_same_trans].
  intros i d N Hd. destruct (O1 i d N Hd) as [Hd1 K1]. destruct (O2 i d N Hd1) as [Hd2 K2]. auto.
Qed.

(** The change of one client record and of the heap, as seen by the others:
    the buffer given up or taken is shared with none of them. *)
Lemma cstep_intro id w own w' own' c c' X :
  queue_ok w own frame pre burst ->
  w_conns w !! id = Some c ->
  w_conns w' = <[id := c']> (w_conns w) ->
  src_same (w_src w) (w_src w') ->
  heap_rel (w_heap w) (w_heap w') own own' X ->
  refs_ok (w_heap w') own' (ext_of pre burst (w_conns w') frame) ->
  (forall x, x ∈ X -> cl_refbuf c = Some x /\ private w own frame Q x \/ w_heap w !! x = None) ->
  (cl_refbuf c' = cl_refbuf c \/ cl_refbuf c' = None \/
   exists p, cl_refbuf c' = Some p /\ (p ∈ Q \/ w_heap w !! p = None)) ->
  cstep id w own w' own'.
Proof.
  intros Hq Hc Em Es Hr R' HX Hn. pose proof Hq as [R C _ _ _ F _ _ _].
  assert (forall x, x ∈ Q -> is_Some (w_heap w !! x)) as AQ by (intros; by eapply chain_lookup).
  split; [| | |done].
  3: { intros i. rewrite Em. destruct (decide (i = id)) as [->|]; [eauto|by rewrite lookup_insert_ne]. }
  - eapply queue_ok_preserve; try done; [|apply Es]. intros x I IQ.
    destruct (HX x I) as [[_ (N & _)]|N]; [done|]. destruct (AQ x IQ). congruence.
  - intros i d Ni Hd. split; [by rewrite Em, lookup_insert_ne|]. intros Hok.
    eapply client_ok_preserve; try done.
    + intros p I. apply (F p I).
    + intros p Ep I. destruct (HX p I) as [[Ec (_ & _ & _ & P)]|N].
      * by eapply (crefs_one _ id i).
      * destruct Hok as [A _]. rewrite Ep in A. destruct A as [(r & Hr' & _) _]. congruence.
    + intros p Ep Hp NQ. rewrite Em. pose proof (crefs_insert (w_conns w) id c c' p Hc) as E.
      rewrite (ref_of_ne p c), (ref_of_ne p c') in E; [lia| |].
      * destruct Hn as [->|[->|(q & -> & Hq')]]; [|done|].
        { by eapply (crefs_one _ i id). }
        intros [= ->]. destruct Hq' as [|N]; [done|].
        destruct Hok as [A _]. rewrite Ep in A. destruct A as [(r & Hr' & _) _]. congruence.
      * by eapply (crefs_one _ i id).
Qed.

Lemma upd_client_eq id f w c :
  w_conns w !! id = Some c ->
  upd_client id f w = Some (w_set_conns (<[id := f c]> (w_conns w)) w).
Proof. intros Hc. unfold upd_client. by rewrite Hc. Qed.

(** Changing fields of the client other than its buffer. *)
Lemma upd_client_ok id f w own c :
  queue_ok w own frame pre burst -> w_conns w !! id = Some c ->
  (forall c, cl_refbuf (f c) = cl_refbuf c) ->
  exists w', upd_client id f w = Some w' /\ cstep id w own w' own /\
    w_conns w' !! id = Some (f c) /\ w_heap w' = w_heap w /\ w_src w' = w_src w /\
    (forall p, crefs (w_conns w') p = crefs (w_conns w) p).
Proof.
  intros Hq Hc Hf. unfold upd_client. rewrite Hc. eexists. split; [done|].
  assert (forall p, crefs (<[id := f c]> (w_conns w)) p = crefs (w_conns w) p) as E.
  { intros p. by apply (crefs_same _ _ c). }
  split_and!; cbn; try done; [|by rewrite lookup_insert_eq].
  eapply (cstep_intro id w own _ own c (f c) []); cbn; try done.
  - apply heap_rel_refl.
  - eapply refs_ok_ext; [done| |apply Hq]. intros p. unfold ext_of. cbn. by rewrite E.
  - intros x I. by apply not_elem_of_nil in I.
  - left. done.
Qed.

Lemma heap_rel_addref h own p r :
  h !! p = Some r -> heap_rel h (<[p := set_count (rb_count r + 1) r]> h) own own [].
Proof.
  intros Hp. split; [intros x Ox; by rewrite (owned_same h p r)|].
  intros x s s' _ _ Hx Hx'. destruct (decide (p = x)) as [<-|N].
  - rewrite lookup_insert_eq in Hx'. simplify_eq. done.
  - rewrite lookup_insert_ne in Hx' by done. by simplify_eq.
Qed.

Lemma heap_rel_trans h h1 h2 own own1 own2 X :
  (forall x, is_Some (h !! x) -> is_Some (h1 !! x)) ->
  heap_rel h h1 own own1 X -> heap_rel h1 h2 own1 own2 X -> heap_rel h h2 own own2 X.
Proof.
  intros D [O1 F1] [O2 F2]. split; [auto|]. intros x r r2 N Ox Hx Hx2.
  destruct (D x ltac:(eauto)) as [r1 Hx1].
  eapply same_fields_trans; [by eapply F1|]. eapply F2; eauto.
Qed.

(** Taking a reference on the buffer a client moves to. *)
Lemma opt_addref_ok nb h own ext :
  refs_ok h own ext ->
  (forall q, nb = Some q -> (1 <= ext q)%nat) ->
  exists h', (match nb with Some q => refbuf_addref q h | None => Some h end) = Some h' /\
    refs_ok h' own (fun x => match nb with Some q => ext_add q ext x | None => ext x end) /\
    heap_rel h h' own own [] /\ dom h' = dom h.
Proof.
  intros R Hq. destruct nb as [q|].
  - destruct (refs_ok_alive _ _ _ q R (Hq q eq_refl)) as [r Hr].
    destruct (refbuf_addref_ok h own ext q r R Hr) as [-> R'].
    eexists. split; [done|]. split; [done|]. split; [by apply heap_rel_addref|].
    by apply (dom_insert_same h q r).
  - exists h. split; [done|]. split; [done|]. split; [apply heap_rel_refl|done].
Qed.

Lemma opt_release_ok b h own ext :
  refs_ok h own ext ->
  (forall p, b = Some p -> (1 <= ext p)%nat) ->
  exists h' own', (match b with Some _ => refbuf_release b h | None => Some h end) = Some h' /\
    refs_ok h' own' (fun x => match b with Some p => ext_del p ext x | None => ext x end) /\
    heap_rel h h' own own' [].
Proof.
  intros R Hp. destruct b as [p|].
  - destruct (refbuf_release_ok h own ext p R (Hp p eq_refl)) as (h' & own' & -> & R' & Rel).
    eexists _, own'. split; [done|]. split; [done|]. by eapply heap_rel_released.
  - exists h, own. split; [done|]. split; [done|apply heap_rel_refl].
Qed.

Lemma with_heap_opt {A} (o : option A) (f : A -> heap -> option heap) w h' :
  (match o with Some p => f p (w_heap w) | None => Some (w_heap w) end) = Some h' ->
  (match o with Some p => with_heap (f p) w | None => Some w end) = Some (w_set_heap h' w).
Proof.
  destruct o as [p|]; unfold with_heap.
  - by intros ->.
  - intros [= <-]. by destruct w.
Qed.

(** The references a client holds move from its old buffer to the new. *)
Lemma client_set_queue_ok id nb w own c :
  queue_ok w own frame pre burst -> w_conns w !! id = Some c ->
  (forall q, nb = Some q -> q ∈ Q) ->
  exists w' own', client_set_queue id nb w = Some w' /\ cstep id w own w' own' /\
    w_conns w' !! id = Some (cl_set_pos 0 (cl_set_refbuf nb c)).
Proof.
  intros Hq Hc Hnb. pose proof Hq as [R _ _ _ _ _ _ _ _].
  set (ext := ext_of pre burst (w_conns w) frame) in *.
  destruct (opt_addref_ok nb (w_heap w) own ext R) as (h1 & E1 & R1 & HR1 & D1).
  { intros q Eq. by apply ext_of_queue, Hnb. }
  set (ext1 := fun x => match nb with Some q => ext_add q ext x | None => ext x end) in *.
  assert (forall p, cl_refbuf c = Some p -> 1 <= ext1 p)%nat as Hext1.
  { intros p Ep. assert (1 <= ext p)%nat.
    { unfold ext, ext_of. rewrite (crefs_delete (w_conns w) id c) by done.
      rewrite (ref_of_eq p c) by done. lia. }
    unfold ext1. destruct nb as [q|]; [|done]. unfold ext_add, fupd. case_decide; lia. }
  destruct (opt_release_ok (cl_refbuf c) h1 own ext1 R1 Hext1) as (h2 & own2 & E2 & R2 & HR2).
  unfold client_set_queue. rewrite Hc. cbn.
  rewrite (upd_client_eq id _ w c Hc). cbn.
  set (w1 := w_set_conns (<[id := cl_set_refbuf nb c]> (w_conns w)) w).
  rewrite (with_heap_opt nb refbuf_addref w1 h1 E1). cbn.
  rewrite (upd_client_eq id _ _ (cl_set_refbuf nb c)) by apply lookup_insert_eq. cbn.
  rewrite insert_insert_eq.
  set (c' := cl_set_pos 0 (cl_set_refbuf nb c)).
  set (w2 := w_set_conns (<[id := c']> (w_conns w)) (w_set_heap h1 w1)).
  assert ((match cl_refbuf c with Some _ => with_heap (refbuf_release (cl_refbuf c)) w2 | None => Some w2 end)
          = Some (w_set_heap h2 w2)) as ->.
  { unfold with_heap. destruct (cl_refbuf c); cbn in *; [by rewrite E2|].
    injection E2 as <-. by destruct w. }
  eexists _, own2. split; [done|]. split; [|by cbn; rewrite lookup_insert_eq].
  eapply (cstep_intro id w own _ own2 c c' []); cbn; try done.
  - eapply heap_rel_trans; [|exact HR1|exact HR2]. intros x.
    by rewrite <- !elem_of_dom, D1.
  - eapply refs_ok_ext; [done| |exact R2]. intros p. cbn.
    pose proof (crefs_insert (w_conns w) id c c' p Hc) as E.
    assert (ext_of pre burst (<[id := c']> (w_conns w)) frame p + crefs (w_conns w) p =
            ext p + crefs (<[id := c']> (w_conns w)) p)%nat as Ee by (unfold ext, ext_of; lia).
    assert (cl_refbuf c' = nb) as Eb by done.
    unfold ref_of in E. rewrite Eb in E. clear -E Ee Hext1.
    unfold ext1, ext_add, ext_del, fupd in *.
    destruct (cl_refbuf c) as [b|]; [pose proof (Hext1 b eq_refl) as Hb|]; clear Hext1;
      destruct nb as [q|]; repeat case_decide; simplify_eq; lia.
  - intros x I. by apply not_elem_of_nil in I.
  - destruct nb as [q|]; [|by right; left]. right; right. exists q. split; [done|]. left. by apply Hnb.
Qed.

(** A client without buffer is given a new one. *)
Lemma client_new_buffer_ok id f w own c len :
  queue_ok w own frame pre burst -> w_conns w !! id = Some c -> cl_refbuf c = None ->
  (forall p, cl_refbuf (f p c) = Some p) ->
  exists p h own', refbuf_new len (w_heap w) = (p, h) /\
    upd_client id (f p) (w_set_heap h w) =
      Some (w_set_conns (<[id := f p c]> (w_conns w)) (w_set_heap h w)) /\
    let w' := w_set_conns (<[id := f p c]> (w_conns w)) (w_set_heap h w) in
    cstep id w own w' own' /\ private w' own' frame Q p /\
    w_heap w' !! p = Some (Refbuf len 1 None None false).
Proof.
  intros Hq Hc Ec Hf. pose proof Hq as [R C _ _ _ F _ _ _].
  unfold refbuf_new. set (p := fresh (dom (w_heap w))).
  assert (w_heap w !! p = None) as Hp by apply fresh_dead.
  destruct (ro_dead _ _ _ R p Hp) as [Dp Op].
  exists p, (<[p := Refbuf len 1 None None false]> (w_heap w)), (fupd p [] own).
  split; [done|]. split; [by unfold upd_client; cbn; rewrite Hc|]. cbn.
  assert (forall x, owned (<[p := Refbuf len 1 None None false]> (w_heap w)) (fupd p [] own) x =
                    owned (w_heap w) own x) as Eo.
  { intros x. unfold owned. rewrite sum_dom_insert, fupd_eq by done. by apply owned_fupd_dead. }
  assert (forall x, crefs (<[id := f p c]> (w_conns w)) x =
                    (if decide (p = x) then 1 else 0) + crefs (w_conns w) x)%nat as Ecr.
  { intros x. pose proof (crefs_insert (w_conns w) id c (f p c) x Hc) as E.
    rewrite (ref_of_ne x c) in E by congruence. unfold ref_of in E. rewrite Hf in E.
    repeat case_decide; simplify_eq; lia. }
  unfold ext_of in Dp. split; [|split; [|by rewrite lookup_insert_eq]].
  - eapply (cstep_intro id w own _ _ c (f p c) [p]); cbn; try done.
    + split; [intros x; by rewrite Eo|]. intros x r r' N _ Hx Hx'.
      rewrite lookup_insert_ne in Hx' by (intros ->; apply N; by left). by simplify_eq.
    + eapply refs_ok_ext; [done| |].
      2: { eapply (refs_ok_new _ own (ext_of pre burst (w_conns w) frame) p []); cbn; try done.
           - eapply refs_ok_ext; [done| |exact R]. intros q. cbn. lia.
           - constructor.
           - by intros x I%not_elem_of_nil. }
      intros x. unfold ext_add, fupd, ext_of. rewrite Ecr.
      repeat case_decide; subst; try done; lia.
    + intros x ->%list_elem_of_singleton. by right.
    + right; right. exists p. split; [done|by right].
  - split_and!; cbn.
    + intros I%occ_in. lia.
    + lia.
    + rewrite Eo. lia.
    + rewrite Ecr, decide_True by done. lia.
Qed.

(** A client changes the length of its own buffer. *)
Lemma client_set_len_ok id n w own c p r :
  queue_ok w own frame pre burst -> w_conns w !! id = Some c ->
  cl_refbuf c = Some p -> private w own frame Q p -> w_heap w !! p = Some r ->
  exists w', with_heap (upd_ptr p (set_len n)) w = Some w' /\ cstep id w own w' own /\
    w_conns w' = w_conns w /\ w_heap w' !! p = Some (set_len n r) /\
    w_src w' = w_src w /\ private w' own frame Q p.
Proof.
  intros Hq Hc Ec Hp Hr. pose proof Hq as [R _ _ _ _ _ _ _ _].
  destruct (ro_live _ _ _ R p r Hr).
  unfold with_heap, upd_ptr. rewrite Hr. eexists. split; [done|].
  split; [|split_and!; cbn; try done; [by rewrite lookup_insert_eq|]].
  - eapply (cstep_intro id w own _ own c c [p]); cbn; try done.
    + by rewrite insert_id.
    + split; [intros x Ox; by rewrite (owned_same _ p r)|]. intros x s s' N _ Hx Hx'.
      rewrite lookup_insert_ne in Hx' by (intros ->; apply N; by left). by simplify_eq.
    + eapply (refs_ok_update _ own _ _ p r); cbn; try done; [by right|lia].
    + intros x ->%list_elem_of_singleton. by left.
    + by left.
  - destruct Hp as (? & ? & ? & ?). unfold private. cbn. by rewrite (owned_same _ p r).
Qed.

(** The lists below carry a client through the loops that walk the queue. *)
Lemma chain_suffix h a l1 l2 : chain h a (l1 ++ l2) -> chain h (hd_error l2) l2.
Proof.
  revert a. induction l1 as [|x l1 IH]; intros a C; simpl in C.
  - destruct l2; inversion C; subst; [constructor|]. done.
  - inversion C; subst. eauto.
Qed.

Lemma skip_burst_ok l fuel sz a h :
  chain h a l -> (length l < fuel)%nat ->
  exists l1 l2, skip_burst fuel sz a h = Some (hd_error l2) /\ l = l1 ++ l2.
Proof.
  revert l sz a. induction fuel as [|fuel IH]; intros l sz a C L; [lia|].
  cbn [skip_burst]. assert (a = hd_error l) as Ea by (inversion C; done).
  destruct (sz >? 0); [|by exists [], l; subst].
  destruct C as [|p r l Hp C N]; [by exists [], []|].
  rewrite Hp. cbn. destruct (rb_next r) as [n|] eqn:En; [|by exists [], (p :: l)].
  simpl in L. rewrite <- En in C.
  destruct (IH l (u64 (sz - rb_len r)) (rb_next r) C ltac:(lia)) as (l1 & l2 & E & ->).
  rewrite En in E. exists (p :: l1), l2. done.
Qed.

Lemma find_sync_point_ok l fuel a h :
  chain h a l -> (length l < fuel)%nat ->
  exists o, find_sync_point fuel a h = Some o /\
    (forall p, o = Some p -> p ∈ l /\ exists r, h !! p = Some r /\ rb_sync r = true).
Proof.
  revert l a. induction fuel as [|fuel IH]; intros l a C L; [lia|].
  destruct C as [|p r l Hp C N]; [by exists None|].
  cbn [find_sync_point]. rewrite Hp. cbn. destruct (rb_sync r) eqn:Es.
  - exists (Some p). split; [done|]. intros q [= <-]. split; [by left|eauto].
  - simpl in L. destruct (IH l (rb_next r) C ltac:(lia)) as (o & -> & Ho).
    exists o. split; [done|]. intros q Eq. destruct (Ho q Eq). split; [by right|done].
Qed.
End one_client.
End invariant.
