(* ===== verification/SourceClient.v ===== *)
(** The operations of one listener keep the invariant of the source: finding
    a place in the queue, the three buffer checks, the write, the loop of
    [send_to_listener] and the dropping of a client. *)

From S2P Require Import Prelude Refbuf AvlTree Source SourceInv.
Local Open Scope Z_scope.

Section client_ops.
Context {T : Type} `{AvlTree T}.
Implicit Types w : world T.
Variables (frame : ptr -> nat) (pre burst : list ptr).
Abbreviation Q := (pre ++ burst).
Abbreviation ok w own := (queue_ok w own frame pre burst).
Abbreviation cl_ok w own := (client_ok w own frame Q).
Abbreviation step := (cstep frame pre burst).

(** The outcome of an operation of the client [id] that may change what it
    reads from: the client is still sound. *)
Definition lands (id : Z) w own (w' : world T) : Prop :=
  exists own' c', step id w own w' own' /\ w_conns w' !! id = Some c' /\ cl_ok w' own' c'.

Lemma lands_intro id w own w' own' c' :
  step id w own w' own' -> w_conns w' !! id = Some c' -> cl_ok w' own' c' -> lands id w own w'.
Proof. unfold lands. eauto. Qed.

(** A buffer of the queue is alive and belongs to nothing else. *)
Lemma queue_alive w own p : ok w own -> p ∈ Q -> is_Some (w_heap w !! p).
Proof. intros Hq I. eapply refs_ok_alive; [apply Hq|]. by apply ext_of_queue. Qed.

(** A client that stands at the start of a buffer of the queue is sound. *)
Lemma at_queue_ok w own c p :
  ok w own -> p ∈ Q -> cl_refbuf c = Some p -> cl_pos c = 0 ->
  cl_check c = format_advance_queue_fn -> cl_respcode c <> 0 -> cl_ok w own c.
Proof.
  intros Hq I Ec Ep Ek Er. destruct (queue_alive w own p Hq I) as [r Hr].
  pose proof (qo_len _ _ _ _ _ Hq p r I Hr). split; [|done]. rewrite Ec, Ek.
  split; [|done]. exists r. split; [done|lia].
Qed.

Lemma chain_fuel w a l : chain (w_heap w) a l -> (length l < walk_fuel (w_heap w))%nat.
Proof. intros C%chain_size. unfold walk_fuel. lia. Qed.

Lemma hd_error_in {A} (l : list A) x : hd_error l = Some x -> x ∈ l.
Proof. destruct l; [done|]. intros [= ->]. by left. Qed.

(** The search for a place in the queue only finds buffers of the queue. *)
Lemma find_start_ok w own (at_tail : bool) sz :
  ok w own ->
  exists start o,
    (if at_tail then Some (q_tail (s_queue (w_src w)))
     else skip_burst (walk_fuel (w_heap w)) sz (q_burst (s_queue (w_src w))) (w_heap w)) = Some start /\
    find_sync_point (walk_fuel (w_heap w)) start (w_heap w) = Some o /\
    (forall p, o = Some p -> p ∈ Q).
Proof.
  intros Hq. pose proof Hq as [R C B Tl N F S O L].
  assert (exists start l1 l2, (if at_tail then Some (q_tail (s_queue (w_src w)))
     else skip_burst (walk_fuel (w_heap w)) sz (q_burst (s_queue (w_src w))) (w_heap w)) = Some start /\
     (pre ++ burst) = (l1 ++ l2) /\ (start = hd_error l2)) as (start & l1 & l2 & E & EQ & Es).
  { destruct at_tail.
    - rewrite Tl. destruct Q as [|x k _] using rev_ind; [by exists None, [], []|].
      exists (Some x), k, [x]. by rewrite last_snoc.
    - rewrite B. pose proof (chain_suffix _ _ _ _ C) as Cb.
      destruct (skip_burst_ok burst (walk_fuel (w_heap w)) sz _ _ Cb (chain_fuel _ _ _ Cb))
        as (l1 & l2 & E & ->).
      exists (hd_error l2), (pre ++ l1), l2. by rewrite <- app_assoc. }
  pose proof C as C'. rewrite EQ in C'. apply chain_suffix in C'.
  destruct (find_sync_point_ok l2 (walk_fuel (w_heap w)) _ _ C' (chain_fuel _ _ _ C'))
    as (o & Eo & Ho).
  exists start, o. rewrite Es. split_and!; [by rewrite <- Es|done|].
  intros p Ep. destruct (Ho p Ep) as [I _]. rewrite EQ. apply elem_of_app. by right.
Qed.

Lemma find_client_start_ok id w own c :
  ok w own -> w_conns w !! id = Some c -> cl_ok w own c -> cl_respcode c <> 0 ->
  exists w', find_client_start id w = Some w' /\ lands id w own w'.
Proof.
  intros Hq Hc Hok Hr. unfold find_client_start. rewrite Hc. run_bind.
  set (at_tail := match q_tail (s_queue (w_src w)) with Some _ => _ | None => _ end).
  assert (exists b, at_tail = Some b) as [b ->].
  { unfold at_tail. destruct (q_tail _) as [t|] eqn:Et; [|eauto]. case_match; [|eauto].
    rewrite (qo_tail _ _ _ _ _ Hq) in Et.
    destruct (queue_alive w own t Hq) as [r ->]; [by apply last_Some_elem_of|]. eauto. }
  run_bind.
  destruct (find_start_ok w own b (u64 (cl_intro_offset c)) Hq) as (start & o & -> & E2 & Ho).
  run_bind. rewrite E2. run_bind. destruct o as [p|].
  2: { eexists. split; [done|]. eapply lands_intro; [by apply cstep_refl|done|done]. }
  destruct (client_set_queue_ok frame pre burst id (Some p) w own c Hq Hc) as (w1 & own1 & -> & S1 & Hc1).
  { intros q [= <-]. by apply Ho. }
  run_bind. pose proof (cs_queue _ _ _ _ _ _ _ _ S1) as Hq1.
  destruct (upd_client_ok frame pre burst id (cl_set_check format_advance_queue_fn) w1 own1 _ Hq1 Hc1)
    as (w2 & -> & S2 & Hc2 & _); [done|].
  run_bind. pose proof (cs_queue _ _ _ _ _ _ _ _ S2) as Hq2.
  destruct (upd_client_ok frame pre burst id (cl_set_intro (-1)) w2 own1 _ Hq2 Hc2)
    as (w3 & -> & S3 & Hc3 & _); [done|].
  pose proof (cs_queue _ _ _ _ _ _ _ _ S3) as Hq3.
  eexists. split; [done|]. eapply lands_intro; [|done|].
  - eapply cstep_trans; [done|]. by eapply cstep_trans.
  - eapply (at_queue_ok w3 own1 _ p); try done. by apply Ho.
Qed.

(** ** The buffer checks *)

(** The same with a result: a result that is not negative leaves the client
    with a buffer to send from. *)
Definition lands_with (ret : Z) (id : Z) w own (w' : world T) : Prop :=
  exists own' c', step id w own w' own' /\ w_conns w' !! id = Some c' /\ cl_ok w' own' c' /\
    (0 <= ret -> cl_refbuf c' <> None /\ cl_respcode c' <> 0).

Lemma lands_neg id w own w' : lands id w own w' -> lands_with (-1) id w own w'.
Proof. intros (own' & c' & ? & ? & ?). exists own', c'. split_and!; try done. Qed.

Lemma lands_trans id w own w1 own1 w' ret :
  step id w own w1 own1 -> lands_with ret id w1 own1 w' -> lands_with ret id w own w'.
Proof.
  intros S1 (own' & c' & S2 & ? & ? & ?). exists own', c'. split_and!; try done.
  by eapply cstep_trans.
Qed.

Lemma lands_refl ret id w own c :
  ok w own -> w_conns w !! id = Some c -> cl_ok w own c ->
  (0 <= ret -> cl_refbuf c <> None /\ cl_respcode c <> 0) -> lands_with ret id w own w.
Proof. intros. exists own, c. split_and!; try done; by apply cstep_refl. Qed.

Lemma client_ok_same w w' own c c' :
  w_heap w' = w_heap w -> (forall p, crefs (w_conns w') p = crefs (w_conns w) p) ->
  cl_refbuf c' = cl_refbuf c -> cl_pos c' = cl_pos c -> cl_check c' = cl_check c ->
  (cl_respcode c' = 0 -> cl_respcode c = 0) -> cl_ok w own c -> cl_ok w' own c'.
Proof.
  intros Eh Ec E1 E2 E3 E4 [A B]. split.
  - rewrite E1, E2, E3, Eh. destruct (cl_refbuf c) as [p|]; [|done].
    destruct A as [A1 A2]. split; [done|].
    destruct (cl_check c); try done; unfold private in *; by rewrite Eh, Ec.
  - rewrite E2, E3. auto.
Qed.

(** Changes of the world that an operation on clients cannot see. *)
Lemma cstep_frame id w own w1 own1 w2 :
  step id w own w1 own1 -> w_heap w2 = w_heap w1 -> w_conns w2 = w_conns w1 ->
  src_same (w_src w1) (w_src w2) -> step id w own w2 own1.
Proof.
  intros [Q1 O1 D1 S1] Eh Ec Es. split; [| |by rewrite Ec|by eapply src_same_trans].
  - destruct Q1. destruct Es as (Eq & _). split; by rewrite ?Eh, ?Ec, ?Eq.
  - intros i d N Hd. destruct (O1 i d N Hd) as [Hd1 K]. rewrite Ec. split; [done|].
    intros Hok. eapply client_ok_same; [| | | | | |by apply K]; try done. by rewrite Ec.
Qed.

Lemma chain_next_in h a l p r n :
  chain h a l -> p ∈ l -> h !! p = Some r -> rb_next r = Some n -> n ∈ l.
Proof.
  induction 1 as [|q s l Hq C IH N]; [by intros ?%not_elem_of_nil|].
  intros [->|I]%elem_of_cons Hp En; [|right; auto].
  simplify_eq. rewrite En in C. inversion C; subst. right; left.
Qed.

Lemma format_advance_queue_ok id w own c :
  ok w own -> w_conns w !! id = Some c -> cl_ok w own c ->
  cl_check c = format_advance_queue_fn ->
  exists ret w', format_advance_queue id w = Some (ret, w') /\ lands_with ret id w own w'.
Proof.
  intros Hq Hc Hok Ek. unfold format_advance_queue. rewrite Hc. run_bind.
  pose proof Hok as [A B]. rewrite Ek in A. destruct (cl_refbuf c) as [p|] eqn:Ec.
  2: { done. }
  destruct A as [(r & Hr & Hpos) I]. rewrite Hr. run_bind.
  assert (forall ret, lands_with ret id w own w) as Stay.
  { intros ret. eapply lands_refl; try done. rewrite Ec. intros _. split; [done|].
    intros Z. destruct (B Z). congruence. }
  destruct (rb_next r) as [n|] eqn:En; case_match; eauto.
  destruct (client_set_queue_ok frame pre burst id (Some n) w own c Hq Hc) as (w1 & own1 & -> & S1 & Hc1).
  { intros q [= <-]. eapply chain_next_in; [apply Hq| | |]; done. }
  run_bind. eexists _, _. split; [done|]. eexists own1, _. split_and!; try done.
  - eapply (at_queue_ok w1 own1 _ n); try done.
    + by eapply cs_queue.
    + eapply chain_next_in; [apply Hq| | |]; done.
    + intros Z. destruct (B Z). congruence.
  - intros _. split; [done|]. intros Z. destruct (B Z). congruence.
Qed.

(** A client that reads from a buffer of its own. *)
Lemma private_ok w own c p r :
  cl_refbuf c = Some p -> w_heap w !! p = Some r -> 0 <= cl_pos c <= rb_len r ->
  private w own frame Q p -> cl_check c <> format_advance_queue_fn ->
  (cl_respcode c = 0 -> cl_check c = format_check_http_buffer_fn /\ cl_pos c = 0) ->
  cl_ok w own c.
Proof.
  intros Ec Hr Hpos P N B. split; [|done]. rewrite Ec. split; [by eauto|].
  by destruct (cl_check c).
Qed.

Lemma private_same w w' own p :
  w_heap w' = w_heap w -> (forall p, crefs (w_conns w') p = crefs (w_conns w) p) ->
  private w own frame Q p -> private w' own frame Q p.
Proof. intros Eh Ec. unfold private. by rewrite Eh, Ec. Qed.

Lemma get_file_data_range intro offset : 0 <= get_file_data intro offset <= 4096.
Proof. unfold get_file_data. destruct intro; [|lia]. case_match; lia. Qed.

Lemma refill_file_buffer_ok id w own c p r :
  ok w own -> w_conns w !! id = Some c ->
  cl_refbuf c = Some p -> w_heap w !! p = Some r -> 0 <= cl_pos c <= rb_len r ->
  private w own frame Q p -> cl_check c = format_check_file_buffer_fn -> cl_respcode c <> 0 ->
  exists ret w', refill_file_buffer id w = Some (ret, w') /\ lands_with ret id w own w'.
Proof.
  intros Hq Hc Ec Hr Hpos P Ek Er. unfold refill_file_buffer.
  rewrite Hc. run_bind. rewrite Ec. run_bind. rewrite Hr. run_bind.
  assert (cl_ok w own c) as Hok by (eapply private_ok; try done; congruence).
  case_match; [|exists 0, w; split; [done|]; eapply lands_refl; try done; by rewrite Ec].
  set (bytes := get_file_data _ _). pose proof (get_file_data_range (s_intro (w_src w)) (cl_intro_offset c)).
  fold bytes in H1. destruct (0 <? bytes) eqn:Eb; [|destruct (q_tail _) eqn:Et].
  - destruct (client_set_len_ok frame pre burst id bytes w own c p r) as (w1 & -> & S1 & M1 & R1 & _ & P1);
      try done. run_bind. pose proof (cs_queue _ _ _ _ _ _ _ _ S1) as Hq1.
    destruct (upd_client_ok frame pre burst id
      (fun c => cl_set_intro (cl_intro_offset c + bytes) (cl_set_pos 0 c)) w1 own c Hq1)
      as (w2 & -> & S2 & Hc2 & Eh & _ & Ecr); [by rewrite M1|done|].
    run_bind. exists 0, w2. split; [done|]. eexists own, _. split_and!; [by eapply cstep_trans|done| |].
    + eapply (private_ok w2 own _ p); cbn; try done; [by rewrite Eh|cbn; lia| |].
      * by eapply private_same.
      * by rewrite Ek.
    + intros _. cbn. by rewrite Ec.
  - destruct (client_set_queue_ok frame pre burst id None w own c Hq Hc) as (w1 & own1 & -> & S1 & Hc1);
      [done|]. run_bind.
    destruct (find_client_start_ok id w1 own1 _ (cs_queue _ _ _ _ _ _ _ _ S1) Hc1) as (w2 & -> & L2).
    { split; cbn; [done|]. done. }
    { done. }
    run_bind. exists (-1), w2. split; [done|]. eapply lands_trans; [done|]. by apply lands_neg.
  - destruct (upd_client_ok frame pre burst id (cl_set_intro 0) w own c Hq Hc)
      as (w2 & -> & S2 & Hc2 & Eh & _ & Ecr); [done|].
    run_bind. exists (-1), w2. split; [done|]. apply lands_neg. eapply lands_intro; try done.
    by eapply client_ok_same.
Qed.

Lemma format_check_file_buffer_ok id w own c :
  ok w own -> w_conns w !! id = Some c -> cl_ok w own c ->
  cl_check c = format_check_file_buffer_fn ->
  exists ret w', format_check_file_buffer id w = Some (ret, w') /\ lands_with ret id w own w'.
Proof.
  intros Hq Hc Hok Ek. unfold format_check_file_buffer. rewrite Hc. run_bind.
  pose proof Hok as [A B].
  assert (cl_respcode c <> 0) as Er by (intros Z; destruct (B Z); congruence).
  destruct (cl_refbuf c) as [p|] eqn:Ec; [|destruct (s_client _)].
  - rewrite Ek in A. destruct A as [(r & Hr & Hpos) P]. by eapply refill_file_buffer_ok.
  - destruct (find_client_start_ok id w own c Hq Hc Hok Er) as (w1 & -> & L).
    run_bind. exists (-1), w1. split; [done|]. by apply lands_neg.
  - set (f := fun p c => cl_set_intro 0 (cl_set_pos PER_CLIENT_REFBUF_SIZE (cl_set_refbuf (Some p) c))).
    destruct (client_new_buffer_ok frame pre burst id f w own c PER_CLIENT_REFBUF_SIZE)
      as (p & h & own1 & -> & E & S1 & P1 & Hp); try done.
    fold (f p). rewrite E. run_bind. set (w1 := w_set_conns _ _) in *.
    assert (w_conns w1 !! id = Some (f p c)) as Hc1 by (cbn; apply lookup_insert_eq).
    destruct (refill_file_buffer_ok id w1 own1 (f p c) p _ (cs_queue _ _ _ _ _ _ _ _ S1) Hc1
      eq_refl Hp) as (ret & w2 & E2 & L2); try done.
    exists ret, w2. split; [done|]. by eapply lands_trans.
Qed.

Lemma format_check_http_buffer_ok headers id w own c :
  ok w own -> w_conns w !! id = Some c -> cl_ok w own c ->
  cl_check c = format_check_http_buffer_fn ->
  exists ret w', format_check_http_buffer headers id w = Some (ret, w') /\ lands_with ret id w own w'.
Proof.
  intros Hq Hc Hok Ek. unfold format_check_http_buffer. rewrite Hc. run_bind.
  pose proof Hok as [A B]. rewrite Ek in A. destruct (cl_refbuf c) as [p|] eqn:Ec; [|done].
  destruct A as [(r & Hr & Hpos) P].
  set (prepared := if cl_respcode c =? 0 then _ else _).
  assert (exists b w1 c1 r1, prepared = Some (b, w1) /\ step id w own w1 own /\
    w_conns w1 !! id = Some c1 /\ cl_refbuf c1 = Some p /\ w_heap w1 !! p = Some r1 /\
    0 <= cl_pos c1 <= rb_len r1 /\ private w1 own frame Q p /\
    cl_check c1 = format_check_http_buffer_fn /\ cl_respcode c1 <> 0)
    as (b & w1 & c1 & r1 & -> & S1 & Hc1 & Ec1 & Hr1 & Hpos1 & P1 & Ek1 & Er1).
  { unfold prepared. destruct (Z.eqb_spec (cl_respcode c) 0) as [Z|NZ].
    2: { exists true, w, c, r. split_and!; try done; lia || by apply cstep_refl. }
    destruct (B Z) as [_ Ep]. destruct headers as [len|].
    - destruct (client_set_len_ok frame pre burst id (Z.of_nat len) w own c p r)
        as (w1 & -> & S1 & M1 & R1 & _ & P1); try done.
      run_bind. destruct (upd_client_ok frame pre burst id (cl_set_respcode 200) w1 own c)
        as (w2 & -> & S2 & Hc2 & Eh & _ & Ecr); [by eapply cs_queue|by rewrite M1|done|].
      run_bind. eexists true, _, _, _. split; [done|].
      split; [eapply cstep_frame; [by eapply cstep_trans|done..]|].
      split_and!; cbn; try done; [by rewrite Eh|cbn; lia|cbn; lia|].
      by eapply private_same; [| |exact P1].
    - destruct (upd_client_ok frame pre burst id (fun c => cl_set_error (cl_set_respcode 500 c)) w own c)
        as (w2 & -> & S2 & Hc2 & Eh & _ & Ecr); [done..|].
      run_bind. eexists false, w2, _, r. split_and!; try done; [by rewrite Eh|cbn; lia|cbn; lia|].
      by eapply private_same. }
  run_bind. pose proof (cs_queue _ _ _ _ _ _ _ _ S1) as Hq1.
  assert (cl_ok w1 own c1) as Hok1 by (eapply private_ok; try done; congruence).
  assert (forall ret, lands_with ret id w own w1) as Stay.
  { intros ret. eapply lands_trans; [done|]. eapply lands_refl; try done. by rewrite Ec1. }
  destruct b; [|eauto]. rewrite Hc1. run_bind. rewrite Hr1. run_bind. case_match; [|eauto].
  destruct (client_set_len_ok frame pre burst id 4096 w1 own c1 p r1)
    as (w2 & -> & S2 & M2 & R2 & _ & P2); try done.
  run_bind. destruct (upd_client_ok frame pre burst id
    (fun c => cl_set_pos 4096 (cl_set_intro 0 (cl_set_check format_check_file_buffer_fn c))) w2 own c1)
    as (w3 & -> & S3 & Hc3 & Eh & _ & Ecr); [by eapply cs_queue|by rewrite M2|done|].
  run_bind. exists (-1), w3. split; [done|]. apply lands_neg. eapply lands_intro; [|done|].
  - eapply cstep_trans; [done|]. by eapply cstep_trans.
  - eapply (private_ok w3 own _ p); cbn; try done; [by rewrite Eh|done|].
    by eapply private_same.
Qed.

(** ** Sending *)

Lemma check_buffer_ok o id w own c :
  ok w own -> w_conns w !! id = Some c -> cl_ok w own c ->
  exists ret w', check_buffer o id w = Some (ret, w') /\ lands_with ret id w own w'.
Proof.
  intros Hq Hc Hok. unfold check_buffer. rewrite Hc. run_bind. destruct (cl_check c) eqn:Ek.
  - by eapply format_check_http_buffer_ok.
  - by eapply format_check_file_buffer_ok.
  - by eapply format_advance_queue_ok.
Qed.

(** Moving on in the buffer, but not beyond its end. *)
Lemma client_ok_pos w w' own c c' :
  w_heap w' = w_heap w -> (forall p, crefs (w_conns w') p = crefs (w_conns w) p) ->
  cl_refbuf c' = cl_refbuf c -> cl_check c' = cl_check c -> cl_respcode c' = cl_respcode c ->
  cl_respcode c <> 0 ->
  (forall p r, cl_refbuf c = Some p -> w_heap w !! p = Some r -> 0 <= cl_pos c <= rb_len r ->
     0 <= cl_pos c' <= rb_len r) ->
  cl_ok w own c -> cl_ok w' own c'.
Proof.
  intros Eh Ec E1 E2 E3 N E4 [A B]. split; [|congruence].
  rewrite E1, E2, Eh. destruct (cl_refbuf c) as [p|]; [|done].
  destruct A as [(r & Hr & Hpos) A2]. split; [by eauto|].
  destruct (cl_check c); try done; unfold private in *; by rewrite Eh, Ec.
Qed.

Lemma u32_le z : 0 <= z -> 0 <= u32 z <= z.
Proof. intros. unfold u32, wrap. split; [by apply Z.mod_pos_bound|]. by apply Z.mod_le. Qed.

Lemma format_generic_write_to_client_ok o id w own c :
  ok w own -> w_conns w !! id = Some c -> cl_ok w own c ->
  cl_refbuf c <> None -> cl_respcode c <> 0 ->
  exists ret w', format_generic_write_to_client o id w = Some (ret, w') /\ lands id w own w'.
Proof.
  intros Hq Hc Hok Ec Er. unfold format_generic_write_to_client. rewrite Hc. run_bind.
  destruct (cl_refbuf c) as [p|] eqn:Eb; [|done]. run_bind.
  pose proof Hok as [A _]. rewrite Eb in A. destruct A as [(r & Hr & Hpos) _].
  rewrite Hr. run_bind.
  destruct (upd_client_ok frame pre burst id (fun c => if io_error o then cl_set_error c else c) w own c)
    as (w1 & -> & S1 & Hc1 & Eh1 & _ & Ecr1); [done..|by intros ?; case_match|].
  run_bind. set (ret := Z.min _ _).
  destruct (upd_client_ok frame pre burst id
    (fun c => if 0 <? ret then cl_set_pos (u32 (cl_pos c + ret)) c else c) w1 own _
    (cs_queue _ _ _ _ _ _ _ _ S1) Hc1) as (w2 & -> & S2 & Hc2 & Eh2 & _ & Ecr2);
    [intros d; cbv beta; by destruct (0 <? ret)|].
  run_bind. eexists _, w2. split; [done|]. eapply lands_intro; [by eapply cstep_trans|done|].
  pose proof (u32_le (rb_len r - cl_pos c) ltac:(lia)).
  destruct (Z.ltb_spec 0 ret) as [Hret|Hret]; eapply (client_ok_pos w w2 own c); try done;
    try (by rewrite Eh2); try (intros ?; by rewrite Ecr2); try (by destruct (io_error o)).
  - intros q s Eq Hs Hp. simplify_eq. destruct (io_error o); cbn;
      pose proof (u32_le (cl_pos c + ret) ltac:(lia)); lia.
Qed.

Lemma lands_frame id w own w1 w2 :
  lands id w own w1 -> w_heap w2 = w_heap w1 -> w_conns w2 = w_conns w1 ->
  src_same (w_src w1) (w_src w2) -> lands id w own w2.
Proof.
  intros (own' & c' & S & Hc & Hok) Eh Ec Es. exists own', c'. split_and!.
  - by eapply cstep_frame.
  - by rewrite Ec.
  - eapply client_ok_same; [| | | | | |exact Hok]; try done. by rewrite Ec.
Qed.

Lemma lands_step id w own w1 own1 w' :
  step id w own w1 own1 -> lands id w1 own1 w' -> lands id w own w'.
Proof.
  intros S1 (own' & c' & S2 & ? & ?). exists own', c'. split_and!; try done.
  by eapply cstep_trans.
Qed.

Lemma send_loop_ok loop ios total id w own c :
  ok w own -> w_conns w !! id = Some c -> cl_ok w own c ->
  exists n w', send_loop loop ios total id w = Some (n, w') /\ lands id w own w'.
Proof.
  revert total w own c. induction loop as [|loop IH]; intros total w own c Hq Hc Hok;
    cbn [send_loop]; rewrite Hc; run_bind;
    match goal with |- context [mbind _ ?e] => set (timed := e) end;
    (assert (exists w1 c1, timed = Some w1 /\ step id w own w1 own /\
       w_conns w1 !! id = Some c1 /\ cl_ok w1 own c1) as (w1 & c1 & -> & S1 & Hc1 & Hok1);
     [unfold timed; case_match;
      [destruct (upd_client_ok frame pre burst id cl_set_error w own c Hq Hc)
         as (w1 & -> & S1 & Hc1 & Eh & _ & Ecr); [done|];
       exists w1, (cl_set_error c); split_and!; try done; by eapply client_ok_same
      |exists w, c; split_and!; try done; by apply cstep_refl]|]);
    run_bind; rewrite Hc1; run_bind;
    pose proof (cs_queue _ _ _ _ _ _ _ _ S1) as Hq1;
    (assert (lands id w own w1) as L1 by by eapply lands_intro);
    (destruct (cl_error c1); [by eexists _, w1|]);
    match goal with |- context [Some (total, ?e)] => set (stopped := e) end;
    (assert (lands id w own stopped) as L2;
     [unfold stopped; destruct (cl_check c1); by eapply lands_frame|]).
  { by eexists _, stopped. }
  case_match; [by eexists _, stopped|].
  destruct (check_buffer_ok (ios (S loop)) id w1 own c1 Hq1 Hc1 Hok1)
    as (ret & w2 & -> & (own2 & c2 & S2 & Hc2 & Hok2 & Hb)).
  run_bind. assert (lands id w own w2) as L3.
  { eapply lands_intro; [by eapply cstep_trans|done|done]. }
  destruct (Z.ltb_spec ret 0) as [|Hret]; [by eexists _, w2|].
  destruct (Hb Hret) as [Hb1 Hb2].
  destruct (format_generic_write_to_client_ok (ios (S loop)) id w2 own2 c2
    (cs_queue _ _ _ _ _ _ _ _ S2) Hc2 Hok2 Hb1 Hb2) as (n & w3 & -> & L4).
  run_bind. assert (lands id w own w3) as L5.
  { eapply lands_step; [by eapply cstep_trans|done]. }
  case_match; [by eexists _, w3|].
  destruct L5 as (own3 & c3 & S3 & Hc3 & Hok3).
  destruct (IH (total + n) w3 own3 c3 (cs_queue _ _ _ _ _ _ _ _ S3) Hc3 Hok3)
    as (m & w4 & E & L).
  exists m, w4. split; [done|]. by eapply lands_step.
Qed.

Lemma send_to_listener_ok id del ios w own c :
  ok w own -> w_conns w !! id = Some c -> cl_ok w own c ->
  exists w', send_to_listener id del ios w = Some w' /\ lands id w own w' /\
    (del = true ->
     forall c', w_conns w' !! id = Some c' -> cl_error c' = false ->
       cl_refbuf c' <> q_data (s_queue (w_src w')) \/ cl_refbuf c' = None).
Proof.
  intros Hq Hc Hok. unfold send_to_listener.
  destruct (send_loop_ok 10 ios 0 id w own c Hq Hc Hok) as (n & w1 & -> & L1).
  run_bind. set (w2 := w_upd_src _ w1).
  assert (lands id w own w2) as L2 by by eapply lands_frame.
  destruct L2 as (own2 & c2 & S2 & Hc2 & Hok2). rewrite Hc2. run_bind.
  pose proof (cs_queue _ _ _ _ _ _ _ _ S2) as Hq2.
  assert (lands id w own w2) as L2 by by eapply lands_intro.
  destruct (cl_refbuf c2) as [p|] eqn:Ec.
  2: { eexists. split; [done|]. split; [done|]. intros _ c' Hc' _. right. congruence. }
  destruct (del && _) eqn:Ed.
  - set (w3 := stats_event _ _ _ w2).
    assert (step id w own w3 own2) as S3 by by eapply cstep_frame.
    destruct (upd_client_ok frame pre burst id cl_set_error w3 own2 c2)
      as (w4 & -> & S4 & Hc3 & Eh & _ & Ecr); [by eapply cs_queue|done..|].
    exists w4. split; [done|]. split.
    + eapply lands_intro; [by eapply cstep_trans|done|]. by eapply client_ok_same.
    + intros _ c' Hc' He. rewrite Hc3 in Hc'. by injection Hc' as <-.
  - eexists. split; [done|]. split; [done|]. intros -> c' Hc' _. left.
    rewrite Hc2 in Hc'. injection Hc' as <-. rewrite Ec. intros E. simpl in Ed.
    by rewrite bool_decide_eq_false in Ed.
Qed.

End client_ops.
