(* ===== verification/SourceLoop.v ===== *)
(** The main loop of a source keeps its invariant: the sending pass, the
    admission of pending clients, the append of a buffer with its burst, and
    the trimming of the queue, put together in [source_iteration]. *)

From S2P Require Import Prelude Refbuf AvlTree Source SourceInv SourceClient.
Local Open Scope Z_scope.

(** ** Dropping a client *)

Section drop.
Context {T : Type} `{AvlTree T}.
Implicit Types w : world T.
Variables (frame : ptr -> nat) (pre burst : list ptr).
Abbreviation Q := (pre ++ burst).
Abbreviation ok w own := (queue_ok w own frame pre burst).
Abbreviation cl_ok w own := (client_ok w own frame Q).
Abbreviation step := (cstep frame pre burst).

(** A client without buffer can be forgotten. *)
Lemma cstep_delete id w own w1 own1 c :
  step id w own w1 own1 -> w_conns w1 !! id = Some c -> cl_refbuf c = None ->
  step id w own (w_set_conns (delete id (w_conns w1)) w1) own1.
Proof.
  intros [Q1 O1 D1 S1] Hc Ec.
  assert (forall p, crefs (delete id (w_conns w1)) p = crefs (w_conns w1) p) as E.
  { intros p. rewrite (crefs_delete (w_conns w1) id c p Hc), ref_of_ne by by rewrite Ec. done. }
  split; [| | |done].
  3: { intros i. cbn. intros [d [_ Hd]%lookup_delete_Some]. eauto. }
  - destruct Q1. split; cbn; try done.
    eapply refs_ok_ext; [done| |done]. intros p. unfold ext_of. by rewrite E.
  - intros i d N Hd. destruct (O1 i d N Hd) as [Hd1 K]. cbn.
    rewrite lookup_delete_ne by done. split; [done|]. intros Hok.
    eapply client_ok_same; [| | | | | |by apply K]; try done.
Qed.

(** Giving back the buffer is what [client_set_queue] with no buffer does. *)
Lemma client_destroy_ok id w own c :
  ok w own -> w_conns w !! id = Some c ->
  exists w' own', client_destroy id w = Some w' /\ step id w own w' own' /\
    w_conns w' !! id = None.
Proof.
  intros Hq Hc.
  destruct (client_set_queue_ok frame pre burst id None w own c Hq Hc) as (w1 & own1 & E & S1 & Hc1);
    [done|].
  assert (exists h, (match cl_refbuf c with Some _ => with_heap (refbuf_release (cl_refbuf c)) w
                     | None => Some w end) = Some (w_set_heap h w) /\
    w1 = w_set_conns (<[id := cl_set_pos 0 (cl_set_refbuf None c)]> (w_conns w)) (w_set_heap h w))
    as (h & E1 & ->).
  { unfold client_set_queue in E. rewrite Hc in E. cbn in E.
    rewrite (upd_client_eq id _ w c Hc) in E. cbn in E.
    rewrite (upd_client_eq id _ _ (cl_set_refbuf None c)) in E by apply lookup_insert_eq.
    cbn in E. rewrite insert_insert_eq in E. unfold with_heap in *. cbn in E.
    destruct (cl_refbuf c) as [p|].
    - destruct (refbuf_release (Some p) (w_heap w)) as [h|]; cbn in E; [|discriminate].
      injection E as <-. by exists h.
    - injection E as <-. exists (w_heap w). by destruct w. }
  unfold client_destroy. rewrite Hc. run_bind. rewrite E1. run_bind.
  eexists _, own1. split; [done|].
  pose proof (cstep_delete id w own _ own1 _ S1 Hc1 eq_refl) as S2. cbn in S2.
  rewrite delete_insert_eq in S2. split; [exact S2|]. cbn. apply lookup_delete_eq.
Qed.

Lemma free_client_ok id w own c :
  ok w own -> w_conns w !! id = Some c -> cl_ok w own c ->
  exists w' own', free_client id w = Some w' /\ step id w own w' own' /\
    (forall c' p, w_conns w' !! id = Some c' -> cl_refbuf c' = Some p -> p ∉ Q).
Proof.
  intros Hq Hc [A B]. unfold free_client. rewrite Hc. run_bind.
  destruct (Z.eqb_spec (cl_respcode c) 0) as [Z|_].
  2: { destruct (client_destroy_ok id w own c Hq Hc) as (w' & own' & -> & S & Hn).
       exists w', own'. split_and!; try done. intros c' p. by rewrite Hn. }
  destruct (B Z) as [Ek _]. rewrite Ek in A.
  destruct (cl_refbuf c) as [p|] eqn:Ec; [|done]. destruct A as [(r & Hr & _) P].
  run_bind. rewrite Hr. run_bind. eexists _, own. split; [done|].
  split; [eapply cstep_frame; [by apply cstep_refl|done..]|].
  intros c' q Hc' Eq. cbn in Hc'. simplify_eq. apply P.
Qed.
End drop.

(** ** The sending pass and the admission of clients *)

Section passes.
Context {T : Type} `{AvlTreeOk T}.
Implicit Types w : world T.
Variables (frame : ptr -> nat) (pre burst : list ptr).
Abbreviation Q := (pre ++ burst).
Abbreviation ok w own := (queue_ok w own frame pre burst).
Abbreviation cl_ok w own := (client_ok w own frame Q).
Abbreviation step := (cstep frame pre burst).
Abbreviation listeners_of w := (avl_elements (s_clients (w_src w))).
Abbreviation pending_of w := (avl_elements (s_pending (w_src w))).
Abbreviation counted w := (n_listeners (s_counts (w_src w)) = u64 (Z.of_nat (length (listeners_of w)))).

(** The source is sound, and so are the clients [rest] that are not among its
    listeners yet. *)
Record loop_ok w own (rest : list Z) : Prop := {
  lo_queue : ok w own;
  lo_clients : clients_ok w own frame Q (listeners_of w);
  lo_rest : clients_ok w own frame Q rest;
  lo_disjoint : forall id, id ∈ listeners_of w -> id ∉ rest;
  lo_outside : forall i c p, i ∉ listeners_of w -> w_conns w !! i = Some c ->
    cl_refbuf c = Some p -> p ∉ Q;
  lo_count : counted w
}.

(** What a pass over the clients leaves alone. *)
Definition pass_same (s s' : source T) : Prop :=
  s_queue s' = s_queue s /\ s_settings s' = s_settings s /\
  s_on_demand s' = s_on_demand s /\ s_running s' = s_running s /\
  s_mount s' = s_mount s /\ s_client s' = s_client s.

Lemma pass_same_trans s t u : pass_same s t -> pass_same t u -> pass_same s u.
Proof. unfold pass_same. intuition congruence. Qed.

Lemma src_pass_same s s' : src_same s s' -> pass_same s s'.
Proof. unfold src_same, pass_same. intuition congruence. Qed.

(** Nothing outside [ids] is touched. *)
Definition others_kept (ids : list Z) w w' : Prop :=
  forall i, i ∉ ids -> is_Some (w_conns w !! i) -> w_conns w' !! i = w_conns w !! i.

Lemma step_others id w own w' own' : step id w own w' own' -> others_kept [id] w w'.
Proof.
  intros [_ O _ _] i N [d Hd]. destruct (O i d) as [-> _]; [|done..].
  intros ->. apply N. by left.
Qed.

Lemma others_kept_trans i ids w w1 w' :
  others_kept [i] w w1 -> others_kept ids w1 w' -> others_kept (i :: ids) w w'.
Proof.
  intros A B j N Hj. assert (w_conns w1 !! j = w_conns w !! j) as E.
  { apply A; [|done]. intros ->%list_elem_of_singleton. apply N. by left. }
  rewrite <- E in Hj |- *. apply B; [|done]. intros I. apply N. by right.
Qed.

Lemma clients_ok_step id w own w' own' ids :
  step id w own w' own' -> id ∉ ids ->
  clients_ok w own frame Q ids -> clients_ok w' own' frame Q ids.
Proof.
  intros [_ O _ _] N C i I. destruct (C i I) as (d & Hd & Hok).
  destruct (O i d) as [Hd' K]; [congruence|done|]. eauto.
Qed.

(** The same when the client itself is still sound. *)
Lemma clients_ok_lands id w own w' own' ids c :
  step id w own w' own' -> w_conns w' !! id = Some c -> cl_ok w' own' c ->
  clients_ok w own frame Q ids -> clients_ok w' own' frame Q ids.
Proof.
  intros [_ O _ _] Hc Hok C i I. destruct (decide (i = id)) as [->|N]; [by exists c|].
  destruct (C i I) as (d & Hd & Hd'). destruct (O i d) as [? K]; eauto.
Qed.

Lemma u64_pred n : u64 (u64 (Z.of_nat (S n)) - 1) = u64 (Z.of_nat n).
Proof.
  unfold u64, wrap. rewrite Zminus_mod_idemp_l. f_equal. lia.
Qed.

Lemma u64_succ n : u64 (u64 (Z.of_nat n) + 1) = u64 (Z.of_nat (S n)).
Proof. unfold u64, wrap. rewrite Zplus_mod_idemp_l. f_equal. lia. Qed.

(** The world seen by the queue and the clients. *)
Lemma queue_ok_frame w w' own :
  ok w own -> w_heap w' = w_heap w -> w_conns w' = w_conns w ->
  s_queue (w_src w') = s_queue (w_src w) -> ok w' own.
Proof. intros [] Eh Ec Eq. split; by rewrite ?Eh, ?Ec, ?Eq. Qed.

Lemma clients_ok_frame w w' own ids ids' :
  clients_ok w own frame Q ids -> w_heap w' = w_heap w -> w_conns w' = w_conns w ->
  (forall i, i ∈ ids' -> i ∈ ids) -> clients_ok w' own frame Q ids'.
Proof.
  intros C Eh Ec S i I. destruct (C i (S i I)) as (c & Hc & Hok).
  exists c. rewrite Ec. split; [done|]. eapply client_ok_same; [| | | | | |exact Hok]; try done.
  by rewrite Ec.
Qed.

(** A client may only stay at the head of the queue when it is not to be
    removed. *)
Definition not_at_head (w : world T) (id : Z) : Prop :=
  forall c, w_conns w !! id = Some c ->
    cl_refbuf c <> q_data (s_queue (w_src w)) \/ cl_refbuf c = None.

(** What a pass over the clients [ids] does. *)
Record pass (ids : list Z) w w' : Prop := {
  ps_same : pass_same (w_src w) (w_src w');
  ps_pending : s_pending (w_src w') = s_pending (w_src w);
  ps_others : others_kept ids w w';
  ps_dom : forall i, is_Some (w_conns w' !! i) -> is_Some (w_conns w !! i);
  ps_in : forall i, i ∈ listeners_of w' -> i ∈ listeners_of w;
  ps_stay : forall i, i ∈ listeners_of w -> i ∉ ids -> i ∈ listeners_of w'
}.

Lemma drop_listener_ok id rest w own :
  loop_ok w own rest -> id ∈ listeners_of w ->
  exists w' own', drop_listener id w = Some w' /\ loop_ok w' own' rest /\ pass [id] w w' /\
    id ∉ listeners_of w'.
Proof.
  intros [Hq HC HR HD HO HN] I. destruct (HC id I) as (c & Hc & Hok).
  unfold drop_listener. rewrite Hc. run_bind.
  set (w2 := if cl_respcode c =? 200 then _ else _).
  assert (w_heap w2 = w_heap w /\ w_conns w2 = w_conns w /\ w_src w2 = w_src w) as (Eh2 & Ec2 & Es2).
  { unfold w2. by case_match. }
  set (w3 := w_set_src _ w2).
  assert (ok w3 own) as Hq3.
  { eapply queue_ok_frame; [done..|]. unfold w3. cbn. by rewrite Es2. }
  assert (w_conns w3 !! id = Some c) as Hc3 by (cbn; by rewrite Ec2).
  assert (cl_ok w3 own c) as Hok3.
  { eapply client_ok_same; [| | | | | |exact Hok]; try done. cbn. by rewrite Ec2. }
  destruct (free_client_ok frame pre burst id w3 own c Hq3 Hc3 Hok3) as (w4 & own4 & -> & S4 & H4).
  run_bind. pose proof (cs_src _ _ _ _ _ _ _ _ S4) as Es4.
  pose proof Es4 as (Eq4 & _ & Ecnt4 & Ecl4 & Ep4 & _). cbn in Ecnt4, Ecl4, Ep4, Eq4.
  rewrite Es2 in Ecnt4, Ecl4, Ep4, Eq4.
  assert (forall i, i ∈ avl_elements (avl_delete id (s_clients (w_src w))) <->
            i <> id /\ i ∈ listeners_of w) as EL by (intros i; by rewrite elem_of_avl_delete).
  assert (forall ids, id ∉ ids -> clients_ok w own frame Q ids -> clients_ok w4 own4 frame Q ids) as K.
  { intros ids N C. eapply clients_ok_step; [exact S4|done|]. by eapply clients_ok_frame. }
  eexists _, own4. split; [done|]. split; [split; cbn|split; [split|]; cbn].
  - eapply queue_ok_frame; [by eapply cs_queue|done..].
  - rewrite Ecl4. eapply clients_ok_frame with (w := w4); [|done..|done].
    apply K; [by rewrite EL; intros []|]. intros i Ii%EL. apply HC, Ii.
  - eapply clients_ok_frame with (w := w4); [|done..|done]. apply K; [by apply HD|done].
  - intros i. rewrite Ecl4, EL. intros []. by apply HD.
  - intros i d p. rewrite Ecl4, EL. destruct (decide (i = id)) as [->|Ni]; [by intros _; apply H4|].
    intros N Hd. destruct (cs_dom _ _ _ _ _ _ _ _ S4 i ltac:(eauto)) as [d0 Hd0].
    destruct (cs_others _ _ _ _ _ _ _ _ S4 i d0 Ni Hd0) as [Hd1 _]. rewrite Hd in Hd1.
    injection Hd1 as ->. apply (HO i d0); [tauto|]. by rewrite <- Ec2.
  - rewrite Ecnt4, Ecl4, HN, (Permutation_length (avl_delete_perm _ _ I)). apply u64_pred.
  - pose proof (src_pass_same _ _ Es4) as P4. unfold pass_same in *. cbn in P4 |- *.
    by rewrite Es2 in P4.
  - by rewrite Ep4.
  - intros i Ni [d Hd]. cbn.
    destruct (cs_others _ _ _ _ _ _ _ _ S4 i d) as [Hd4 _]; [|by cbn; rewrite Ec2|congruence].
    intros ->. apply Ni. by left.
  - intros i Hi. rewrite <- Ec2. by apply (cs_dom _ _ _ _ _ _ _ _ S4).
  - intros i. rewrite Ecl4, EL. tauto.
  - intros i. rewrite Ecl4, EL, list_elem_of_singleton. tauto.
  - rewrite Ecl4, EL. tauto.
Qed.

Lemma lands_loop_ok id w own w' own' c rest :
  loop_ok w own rest -> id ∈ listeners_of w ->
  step id w own w' own' -> w_conns w' !! id = Some c -> cl_ok w' own' c ->
  loop_ok w' own' rest.
Proof.
  intros [Hq HC HR HD HO HN] I S Hc Hok.
  pose proof (cs_src _ _ _ _ _ _ _ _ S) as (_ & _ & Ecnt & Ecl & _). split; rewrite ?Ecl, ?Ecnt.
  - by eapply cs_queue.
  - by eapply clients_ok_lands.
  - by eapply clients_ok_lands.
  - done.
  - intros i d p N Hd. destruct (cs_dom _ _ _ _ _ _ _ _ S i ltac:(eauto)) as [d0 Hd0].
    destruct (cs_others _ _ _ _ _ _ _ _ S i d0) as [Hd1 _]; [congruence|done|].
    rewrite Hd in Hd1. injection Hd1 as ->. by apply (HO i d0).
  - done.
Qed.

Lemma pass_trans i ids w w1 w' : pass [i] w w1 -> pass ids w1 w' -> pass (i :: ids) w w'.
Proof.
  intros [A1 A2 A3 A6 A4 A5] [B1 B2 B3 B6 B4 B5]. split.
  - by eapply pass_same_trans.
  - congruence.
  - by eapply others_kept_trans.
  - auto.
  - auto.
  - intros j I N. apply not_elem_of_cons in N as [N1 N2]. apply B5; [|done].
    apply A5; [done|]. intros ->%list_elem_of_singleton. done.
Qed.

Lemma pass_step id w own w' own' : step id w own w' own' -> pass [id] w w'.
Proof.
  intros S. pose proof (cs_src _ _ _ _ _ _ _ _ S) as Es. pose proof Es as (_ & _ & _ & Ecl & Ep & _).
  split; rewrite ?Ecl; try done;
    [by apply src_pass_same|by eapply step_others|by eapply cs_dom].
Qed.

Lemma serve_listener_ok remove ios id rest w own :
  loop_ok w own rest -> id ∈ listeners_of w ->
  exists w' own', serve_listener remove ios id w = Some w' /\ loop_ok w' own' rest /\
    pass [id] w w' /\ (remove = true -> id ∈ listeners_of w' -> not_at_head w' id).
Proof.
  intros L I. pose proof L as [Hq HC _ _ _ _]. destruct (HC id I) as (c & Hc & Hok).
  destruct (send_to_listener_ok frame pre burst id remove ios w own c Hq Hc Hok)
    as (w1 & E1 & (own1 & c1 & S1 & Hc1 & Hok1) & Hhead).
  unfold serve_listener. rewrite E1. run_bind. rewrite Hc1. run_bind.
  pose proof (pass_step _ _ _ _ _ S1) as P1.
  pose proof (lands_loop_ok _ _ _ _ _ _ _ L I S1 Hc1 Hok1) as L1.
  destruct (cl_error c1) eqn:He.
  - destruct (drop_listener_ok id rest w1 own1 L1) as (w2 & own2 & -> & L2 & P2 & N2).
    { by destruct (cs_src _ _ _ _ _ _ _ _ S1) as (_ & _ & _ & -> & _). }
    exists w2, own2. split_and!; try done. destruct P1, P2. split; try (by eapply pass_same_trans).
    + congruence.
    + intros i Ni Hi. rewrite ps_others1; [by apply ps_others0|done|].
      by rewrite ps_others0.
    + auto.
    + auto.
    + auto.
  - exists w1, own1. split_and!; try done. intros -> _ c' Hc'.
    rewrite Hc1 in Hc'. injection Hc' as <-. by apply Hhead.
Qed.

Lemma serve_listeners_ok remove ios ids rest w own :
  loop_ok w own rest -> NoDup ids -> (forall i, i ∈ ids -> i ∈ listeners_of w) ->
  exists w' own', serve_listeners remove ios ids w = Some w' /\ loop_ok w' own' rest /\
    pass ids w w' /\
    (remove = true -> forall i, i ∈ ids -> i ∈ listeners_of w' -> not_at_head w' i).
Proof.
  revert w own. induction ids as [|id ids IH]; intros w own L ND S.
  - exists w, own. split_and!; try done. by intros _ i ?%not_elem_of_nil.
  - inversion ND as [|? ? N ND']; subst.
    destruct (serve_listener_ok remove (ios id) id rest w own L) as (w1 & own1 & E & L1 & P1 & H1).
    { apply S. by left. }
    destruct (IH w1 own1 L1 ND') as (w2 & own2 & E2 & L2 & P2 & H2).
    { intros i I. apply (ps_stay _ _ _ P1); [apply S; by right|].
      intros ->%list_elem_of_singleton. done. }
    cbn [serve_listeners]. rewrite E. run_bind.
    exists w2, own2. split_and!; try done; [by eapply pass_trans|].
    intros Hr i [->|I]%elem_of_cons Hi; [|by apply H2].
    assert (id ∈ listeners_of w1) as I1 by by apply (ps_in _ _ _ P2).
    destruct (lo_clients _ _ _ L1 id I1) as (d & Hd & _).
    intros c Hc. destruct (ps_same _ _ _ P2) as (-> & _).
    rewrite (ps_others _ _ _ P2) in Hc by eauto. by apply (H1 Hr I1).
Qed.
(** One pending client. *)
Lemma admit_client_ok id ids w own :
  loop_ok w own (id :: ids) -> id ∉ ids ->
  exists w' own', admit_client id w = Some w' /\ loop_ok w' own' ids /\
    pass_same (w_src w) (w_src w') /\ others_kept [id] w w' /\
    (forall M, max_listeners (s_settings (w_src w)) = M -> 0 <= M < 2 ^ 64 ->
       Z.of_nat (length (listeners_of w)) <= M -> Z.of_nat (length (listeners_of w')) <= M) /\
    (forall i, i ∈ listeners_of w' -> i = id \/ i ∈ listeners_of w) /\
    (forall c, id ∈ listeners_of w' -> w_conns w' !! id = Some c ->
       forall p, cl_refbuf c = Some p -> p ∉ Q).
Proof.
  intros [Hq HC HR HD HO HN] N.
  assert (id ∉ listeners_of w) as NI by (intros I; by apply (HD id I); left).
  destruct (HR id ltac:(by left)) as (c & Hc & Hok).
  assert (clients_ok w own frame Q ids) as HR' by (intros i I; apply HR; by right).
  unfold admit_client. set (full := negb _ && _).
  destruct full eqn:Ef.
  - set (w1 := w_set_src _ w).
    assert (ok w1 own) as Hq1 by by eapply queue_ok_frame.
    assert (cl_ok w1 own c) as Hok1 by by eapply client_ok_same.
    assert (forall ids, clients_ok w own frame Q ids -> clients_ok w1 own frame Q ids) as K.
    { intros l C. by eapply clients_ok_frame. }
    destruct (free_client_ok frame pre burst id w1 own c Hq1 Hc Hok1) as (w2 & own2 & E & S2 & H2).
    rewrite E. exists w2, own2. split; [done|].
    pose proof (cs_src _ _ _ _ _ _ _ _ S2) as Es. pose proof Es as (_ & _ & Ecnt & Ecl & _). cbn in Ecl, Ecnt.
    pose proof (pass_step _ _ _ _ _ S2) as P.
    split; [split; rewrite ?Ecl, ?Ecnt|split_and!; rewrite ?Ecl].
    + by eapply cs_queue.
    + eapply clients_ok_step; [exact S2|done|by apply K].
    + eapply clients_ok_step; [exact S2|done|by apply K].
    + intros i I I'. apply (HD i I). by right.
    + intros i d p Ni Hd. destruct (decide (i = id)) as [->|Nid]; [by apply H2|].
      destruct (cs_dom _ _ _ _ _ _ _ _ S2 i ltac:(eauto)) as [d0 Hd0].
      destruct (cs_others _ _ _ _ _ _ _ _ S2 i d0 Nid Hd0) as [Hd1 _].
      rewrite Hd in Hd1. injection Hd1 as ->. by apply (HO i d0).
    + done.
    + apply (ps_same _ _ _ P).
    + apply (ps_others _ _ _ P).
    + done.
    + auto.
    + done.
  - eexists _, own. split; [done|].
    assert (forall i, i ∈ avl_elements (avl_insert id (s_clients (w_src w))) <->
              i = id \/ i ∈ listeners_of w) as EL by (intros i; by rewrite elem_of_avl_insert).
    pose proof (Permutation_length (avl_insert_perm id _ NI)) as Elen. cbn [length] in Elen.
    split; [split; cbn|split_and!; cbn; try done].
    + by eapply queue_ok_frame.
    + eapply clients_ok_frame with (ids := id :: listeners_of w); try done.
      * intros i [->|I]%elem_of_cons; [by exists c|by apply HC].
      * intros i. rewrite EL. intros [->|I]; [by left|by right].
    + by eapply clients_ok_frame.
    + intros i. rewrite EL. intros [->|I] I'; [done|]. apply (HD i I). by right.
    + intros i d p. rewrite EL. intros Ni. apply HO. tauto.
    + rewrite HN, Elen. apply u64_succ.
    + intros M EM HM Hlen. rewrite Elen. unfold full in Ef. rewrite EM, HN in Ef.
      unfold u64, wrap in Ef. rewrite !Z.mod_small in Ef by lia.
      destruct (Z.eqb_spec M (-1)); [lia|]. cbn in Ef. apply Z.leb_gt in Ef. lia.
    + intros i. by rewrite EL.
    + intros d _ Hd p Ep. by eapply HO.
Qed.

Lemma admit_clients_ok ids w own :
  loop_ok w own ids -> NoDup ids ->
  exists w' own', admit_clients ids w = Some w' /\ loop_ok w' own' [] /\
    pass_same (w_src w) (w_src w') /\ others_kept ids w w' /\
    (forall M, max_listeners (s_settings (w_src w)) = M -> 0 <= M < 2 ^ 64 ->
       Z.of_nat (length (listeners_of w)) <= M -> Z.of_nat (length (listeners_of w')) <= M) /\
    (forall i, i ∈ listeners_of w' -> i ∈ ids \/ i ∈ listeners_of w) /\
    (forall i c, i ∈ ids -> i ∈ listeners_of w' -> w_conns w' !! i = Some c ->
       forall p, cl_refbuf c = Some p -> p ∉ Q).
Proof.
  revert w own. induction ids as [|id ids IH]; intros w own L ND.
  - exists w, own. split_and!; try done; [by right|by intros i c ?%not_elem_of_nil].
  - inversion ND as [|? ? N ND']; subst.
    destruct (admit_client_ok id ids w own L N) as (w1 & own1 & E & L1 & P1 & K1 & M1 & I1 & F1).
    destruct (IH w1 own1 L1 ND') as (w2 & own2 & E2 & L2 & P2 & K2 & M2 & I2 & F2).
    cbn [admit_clients]. rewrite E. run_bind. exists w2, own2. split_and!; try done.
    + by eapply pass_same_trans.
    + by eapply others_kept_trans.
    + intros M EM HM Hlen. apply M2; [|done|by apply M1]. by destruct P1 as (_ & -> & _).
    + intros i [I|I]%I2; [left; by right|]. apply I1 in I as [->|I]; [left; by left|by right].
    + intros i c [->|I]%elem_of_cons Hi Hc; [|by eapply F2].
      destruct (I2 id Hi) as [?|I]; [done|].
      destruct (lo_clients _ _ _ L1 id I) as (d & Hd & _).
      assert (w_conns w2 !! id = w_conns w1 !! id) as Ed by (apply K2; eauto).
      rewrite Ed in Hc. by apply F1.
Qed.

Lemma delete_all ids (t : T) :
  (forall i, i ∈ avl_elements t -> i ∈ ids) ->
  avl_elements (fold_left (fun t id => avl_delete id t) ids t) = [].
Proof.
  revert t. induction ids as [|id ids IH]; intros t S; cbn.
  - destruct (avl_elements t) as [|i l]; [done|]. by specialize (S i ltac:(left)) as ?%not_elem_of_nil.
  - apply IH. intros i. rewrite elem_of_avl_delete. intros [N I].
    apply S, elem_of_cons in I as [->|I]; [done|done].
Qed.
End passes.

(** ** The two ends of the queue *)

Lemma chain_snoc h a l p r t rt :
  chain h a l -> last l = Some t -> h !! t = Some rt ->
  h !! p = Some r -> rb_next r = None -> p ∉ l ->
  chain (<[t := set_next (Some p) rt]> h) a (l ++ [p]).
Proof.
  intros C. induction C as [|x s l Hx C IH N]; intros El Ht Hp En NP; [done|].
  apply not_elem_of_cons in NP as [NP1 NP2]. cbn [app].
  assert (x ∉ l ++ [p]) as Nx.
  { rewrite elem_of_app, list_elem_of_singleton. intros [?|?]; [done|congruence]. }
  destruct l as [|y l'].
  - cbn in El. injection El as <-. rewrite Hx in Ht. injection Ht as <-.
    apply (chain_cons _ x (set_next (Some p) s)); [apply lookup_insert_eq| |done].
    cbn. apply (chain_cons _ p r); [by rewrite lookup_insert_ne by congruence| |].
    + rewrite En. constructor.
    + by apply not_elem_of_nil.
  - rewrite last_cons_cons in El.
    assert (t ≠ x) as Ntx.
    { intros ->. apply N. by apply last_Some_elem_of. }
    apply (chain_cons _ x s); [by rewrite lookup_insert_ne|by apply IH|done].
Qed.

Lemma crefs_pos m i c p : m !! i = Some c -> cl_refbuf c = Some p -> (1 <= crefs m p)%nat.
Proof. intros Hi Ec. rewrite (crefs_delete m i c p Hi), ref_of_eq by done. lia. Qed.

Lemma sum_len_app h l k : sum_len h (l ++ k) = sum_len h l + sum_len h k.
Proof. unfold sum_len. induction l as [|x l IH]; [done|]. cbn [app fold_right]. rewrite IH. lia. Qed.

Lemma sum_len_cons h x l :
  sum_len h (x :: l) = (match h !! x with Some r => rb_len r | None => 0 end) + sum_len h l.
Proof. done. Qed.

Lemma u32_add_l a b : u32 (u32 a + b) = u32 (a + b).
Proof. unfold u32, wrap. by rewrite Zplus_mod_idemp_l. Qed.

Lemma u32_sub_l a b : u32 (u32 a - b) = u32 (a - b).
Proof. unfold u32, wrap. by rewrite Zminus_mod_idemp_l. Qed.

Section ends.
Context {T : Type} `{AvlTreeOk T}.
Implicit Types w : world T.

Record refers_same w w' own own' (frame frame' : ptr -> nat) (q q' : list ptr) : Prop := {
  rs_conns : w_conns w' = w_conns w;
  rs_heap : forall p r, (1 <= crefs (w_conns w) p)%nat -> owned (w_heap w) own p = 0%nat ->
    w_heap w !! p = Some r -> exists r', w_heap w' !! p = Some r' /\ rb_len r' = rb_len r;
  rs_owned : forall p, (1 <= crefs (w_conns w) p)%nat -> owned (w_heap w) own p = 0%nat ->
    owned (w_heap w') own' p = 0%nat;
  rs_frame : forall p, (1 <= crefs (w_conns w) p)%nat -> frame p = 0%nat -> frame' p = 0%nat;
  rs_queue : forall p, (1 <= crefs (w_conns w) p)%nat -> p ∈ q <-> p ∈ q'
}.

(** A client whose buffer is left alone stays sound when the queue changes. *)
Lemma client_ok_transport w w' own own' frame frame' q q' i c :
  refers_same w w' own own' frame frame' q q' ->
  (forall p, p ∈ q -> owned (w_heap w) own p = 0%nat) ->
  w_conns w !! i = Some c -> client_ok w own frame q c -> client_ok w' own' frame' q' c.
Proof.
  intros [Ec Kh Ko Kf Kq] F Hi [A B]. split; [|done].
  destruct (cl_refbuf c) as [p|] eqn:Ep; [|done]. destruct A as [(r & Hr & Hpos) A].
  pose proof (crefs_pos _ _ _ _ Hi Ep) as Hc.
  assert (owned (w_heap w) own p = 0%nat) as Ho.
  { destruct (cl_check c); [apply A|apply A|by apply F]. }
  destruct (Kh p r Hc Ho Hr) as (r' & Hr' & El).
  split; [exists r'; by rewrite El|]. specialize (Kq p Hc).
  destruct (cl_check c); [| |by apply Kq]; destruct A as (A1 & A2 & A3 & A4);
    (split; [by rewrite <- Kq|]; split; [by apply Kf|]; split; [by apply Ko|by rewrite Ec]).
Qed.

Lemma loop_ok_transport w w' own own' frame frame' pre pre' burst burst' rest :
  loop_ok frame pre burst w own rest ->
  queue_ok w' own' frame' pre' burst' ->
  refers_same w w' own own' frame frame' (pre ++ burst) (pre' ++ burst') ->
  s_clients (w_src w') = s_clients (w_src w) -> s_counts (w_src w') = s_counts (w_src w) ->
  loop_ok frame' pre' burst' w' own' rest.
Proof.
  intros [Hq HC HR HD HO HN] Hq' K El En. pose proof (rs_conns _ _ _ _ _ _ _ _ K) as Ec.
  assert (forall ids, clients_ok w own frame (pre ++ burst) ids ->
    clients_ok w' own' frame' (pre' ++ burst') ids) as KC.
  { intros ids C i I. destruct (C i I) as (c & Hc & Hok). exists c. rewrite Ec. split; [done|].
    eapply client_ok_transport; try done. intros p. apply (qo_free _ _ _ _ _ Hq p). }
  split; rewrite ?El, ?En; try done; [by apply KC|by apply KC|].
  rewrite Ec. intros i c p N Hc Ep. rewrite <- (rs_queue _ _ _ _ _ _ _ _ K).
  - by eapply HO.
  - by eapply crefs_pos.
Qed.

(** A buffer as the source hands it over: only the source refers to it. *)
Record delivered w (frame : ptr -> nat) (p : ptr) : Prop := {
  dl_live : exists r, w_heap w !! p = Some r /\ rb_count r = 1 /\ rb_next r = None /\
    0 <= rb_len r < 2 ^ 32;
  dl_frame : frame p = 1%nat
}.

Lemma delivered_fresh w own frame pre burst p :
  queue_ok w own frame pre burst -> delivered w frame p ->
  (p ∉ pre ++ burst) /\ owned (w_heap w) own p = 0%nat /\ crefs (w_conns w) p = 0%nat.
Proof.
  intros Hq [(r & Hr & Hc & _) Hf].
  destruct (ro_live _ _ _ (qo_refs _ _ _ _ _ Hq) p r Hr) as [L _].
  unfold ext_of in L. split; [|lia]. intros I%occ_in. lia.
Qed.

(** Linking a buffer behind the tail: only the [next] of the tail changes. *)
Lemma link_tail_ok w own frame pre burst p :
  queue_ok w own frame pre burst -> delivered w frame p ->
  exists h1, (match q_tail (s_queue (w_src w)) with
              | Some t => with_heap (upd_ptr t (set_next (Some p))) w
              | None => Some w
              end) = Some (w_set_heap h1 w) /\
    refs_ok h1 own (ext_of pre burst (w_conns w) frame) /\
    chain h1 (hd_error ((pre ++ burst) ++ [p])) ((pre ++ burst) ++ [p]) /\
    h1 !! p = w_heap w !! p /\
    (forall x, owned h1 own x = owned (w_heap w) own x) /\
    (forall x r, w_heap w !! x = Some r -> exists r', h1 !! x = Some r' /\ rb_len r' = rb_len r) /\
    (forall x r', h1 !! x = Some r' -> exists r, w_heap w !! x = Some r /\ rb_len r' = rb_len r).
Proof.
  intros Hq D. destruct (delivered_fresh _ _ _ _ _ _ Hq D) as (NQ & _ & _).
  destruct D as [(r & Hr & Hcnt & Hn & Hlen) _].
  pose proof Hq as [R C B Tl N F S O L]. rewrite Tl.
  destruct (last (pre ++ burst)) as [t|] eqn:El.
  - assert (t ∈ pre ++ burst) as It by by apply last_Some_elem_of.
    destruct (refs_ok_alive _ _ _ t R (ext_of_queue _ _ _ _ t It)) as [rt Ht].
    destruct (F t It) as [Ot _]. destruct (ro_live _ _ _ R t rt Ht).
    unfold with_heap, upd_ptr. rewrite Ht. eexists. split; [done|].
    assert (forall x s, <[t := set_next (Some p) rt]> (w_heap w) !! x = Some s ->
      exists s', w_heap w !! x = Some s' /\ rb_len s = rb_len s') as K1.
    { intros x s Hx. destruct (decide (t = x)) as [<-|Nx].
      - rewrite lookup_insert_eq in Hx. injection Hx as <-. eauto.
      - rewrite lookup_insert_ne in Hx by done. eauto. }
    split_and!.
    + by eapply (refs_ok_update _ own _ _ t rt); cbn; try done; [left|lia].
    + pose proof (chain_snoc _ _ _ p r t rt C El Ht Hr Hn NQ) as C'.
      assert (hd_error ((pre ++ burst) ++ [p]) = q_data (s_queue (w_src w))) as ->; [|done].
      destruct (pre ++ burst); [done|]. by inversion C.
    + rewrite lookup_insert_ne; [done|]. by intros ->.
    + intros x. by apply (owned_same _ t rt).
    + intros x s Hx. destruct (decide (t = x)) as [<-|Nx].
      * rewrite lookup_insert_eq. simplify_eq. eauto.
      * rewrite lookup_insert_ne by done. eauto.
    + exact K1.
  - apply last_None in El. rewrite El. exists (w_heap w).
    split_and!; try done; [by destruct w| |by eauto|by eauto].
    apply (chain_cons _ p r); [done| |by apply not_elem_of_nil]. rewrite Hn. constructor.
Qed.

Lemma u32_small z : 0 <= z < 2 ^ 32 -> u32 z = z.
Proof. apply Z.mod_small. Qed.

(** What the ends of the queue do not change. *)
Definition ends_same (s s' : source T) : Prop :=
  s_settings s' = s_settings s /\ s_counts s' = s_counts s /\ s_clients s' = s_clients s /\
  s_pending s' = s_pending s /\ s_running s' = s_running s /\ s_on_demand s' = s_on_demand s /\
  s_mount s' = s_mount s /\ s_client s' = s_client s.

Lemma link_buffer_ok w own frame pre burst rest p :
  loop_ok frame pre burst w own rest -> delivered w frame p ->
  exists w', link_buffer p w = Some w' /\
    loop_ok (fupd p 0%nat frame) pre (burst ++ [p]) w' own rest /\
    ends_same (w_src w) (w_src w') /\
    (forall r, w_heap w !! p = Some r ->
       q_size (s_queue (w_src w')) = u32 (q_size (s_queue (w_src w)) + rb_len r)).
Proof.
  intros L D. pose proof (lo_queue _ _ _ _ _ _ L) as Hq.
  destruct (delivered_fresh _ _ _ _ _ _ Hq D) as (NQ & Op & Cp).
  destruct (link_tail_ok _ _ _ _ _ _ Hq D) as (h1 & E1 & R1 & C1 & Hp1 & Ho1 & K1 & K1').
  destruct D as [(r & Hr & Hcnt & Hn & Hlen) Hf].
  pose proof Hq as [R C B Tl N F S O Ln].
  unfold link_buffer. set (q := match q_data _ with Some _ => _ | None => _ end).
  assert (q_tail q = q_tail (s_queue (w_src w)) /\ q_data q = hd_error ((pre ++ burst) ++ [p]) /\
    q_burst q = hd_error (burst ++ [p]) /\ q_burst_offset q = q_burst_offset (s_queue (w_src w)) /\
    q_size q = q_size (s_queue (w_src w))) as (Et & Ed & Eb & Eo & Es).
  { unfold q. destruct burst as [|b burst'].
    - rewrite (N eq_refl) in C |- *. inversion C. done.
    - destruct (pre ++ b :: burst') as [|x l] eqn:EQ; [by destruct pre|].
      inversion C; subst. by rewrite B. }
  rewrite Et, E1. run_bind. cbn [w_heap w_set_heap]. rewrite Hp1, Hr. run_bind.
  destruct (refbuf_addref_ok h1 own _ p r R1 ltac:(by rewrite Hp1)) as [E2 R2].
  unfold with_heap. cbn [w_heap w_set_heap]. rewrite E2. run_bind.
  set (h2 := <[p := set_count (rb_count r + 1) r]> h1) in *.
  assert (forall x s, w_heap w !! x = Some s -> exists s', h2 !! x = Some s' /\ rb_len s' = rb_len s) as K2.
  { intros x s Hx. unfold h2. destruct (decide (p = x)) as [<-|Nx].
    - rewrite lookup_insert_eq. simplify_eq. eauto.
    - rewrite lookup_insert_ne by done. by apply K1. }
  assert (forall l, (forall x, x ∈ l -> x ∈ pre ++ burst) ->
     sum_len h2 (l ++ [p]) = sum_len (w_heap w) l + rb_len r) as KS.
  { intros l Sl. rewrite sum_len_app. f_equal.
    - apply sum_len_ext. intros x I.
      destruct (refs_ok_alive _ _ _ x R (ext_of_queue _ _ _ _ x (Sl x I))) as [s Hs].
      destruct (K2 x s Hs) as (s' & ? & ?). eauto.
    - unfold sum_len, h2. cbn. rewrite lookup_insert_eq. cbn. lia. }
  eexists. split; [done|]. split; [|split; [done|by cbn; rewrite Es; intros ? [= <-]]].
  eapply loop_ok_transport; [exact L| | |done|done].
  - split; cbn.
    + eapply refs_ok_ext; [done| |exact R2]. intros x. unfold ext_add, fupd, ext_of.
      rewrite app_assoc, (occ_app x (pre ++ burst)), (occ_app x burst), occ_cons, occ_nil.
      apply not_elem_of_app in NQ as [NQ1 NQ2].
      repeat case_decide; subst; try done; [|lia]. rewrite occ_app, !occ_not_in, Cp by done. lia.
    + rewrite app_assoc. cbn. rewrite Ed. unfold h2.
      eapply chain_insert; [by rewrite Hp1|by right|done].
    + done.
    + rewrite app_assoc. by rewrite last_snoc.
    + by destruct burst.
    + intros x. rewrite app_assoc, elem_of_app, list_elem_of_singleton. intros Ix.
      assert (owned h2 own x = owned (w_heap w) own x) as ->.
      { unfold h2. rewrite (owned_same h1 p r) by (by rewrite Hp1). apply Ho1. }
      unfold fupd. destruct Ix as [Ix| ->]; [|by rewrite decide_True].
      destruct (F x Ix). case_decide; auto.
    + rewrite app_assoc, KS by done. rewrite Es, S. apply u32_add_l.
    + rewrite KS by (intros x I; apply elem_of_app; by right). rewrite Eo, O. apply u32_add_l.
    + intros x s. rewrite app_assoc, elem_of_app, list_elem_of_singleton. intros Ix.
      unfold h2. destruct (decide (p = x)) as [<-|Nx].
      * rewrite lookup_insert_eq. intros [= <-]. done.
      * rewrite lookup_insert_ne by done. intros Hs. destruct Ix as [Ix| ->]; [|done].
        destruct (K1' x s Hs) as (s' & Hs' & ->). by eapply Ln.
  - split; cbn.
    + done.
    + intros x s _ _ Hs. by apply K2.
    + intros x _ Hx. unfold h2. rewrite (owned_same h1 p r) by (by rewrite Hp1). by rewrite Ho1.
    + intros x _ Hx. unfold fupd. by case_decide.
    + intros x Hx. rewrite app_assoc, (elem_of_app (pre ++ burst)), list_elem_of_singleton.
      split; [by left|]. intros [?| ->]; [done|lia].
Qed.

(** The burst gives up its first buffer, which stays in the queue. *)
Lemma release_burst_ok w own frame pre x n b r rest :
  loop_ok frame pre (x :: n :: b) w own rest -> w_heap w !! x = Some r ->
  rb_next r = Some n /\
  exists h' own', refbuf_release (Some x) (w_heap w) = Some h' /\
    let q := s_queue (w_src w) in
    let q' := Queue (q_data q) (q_tail q) (Some n) (u32 (q_burst_offset q - rb_len r)) (q_size q) in
    loop_ok frame (pre ++ [x]) (n :: b) (w_set_heap h' (w_upd_src (src_set_queue q') w)) own' rest.
Proof.
  intros L Hr. pose proof (lo_queue _ _ _ _ _ _ L) as Hq. pose proof Hq as [R C B Tl N F S O Ln].
  assert (pre ++ x :: n :: b = (pre ++ [x]) ++ n :: b) as EQ by by rewrite <- app_assoc.
  split.
  { apply chain_suffix in C. inversion C as [|? ? ? Hx C' _]; subst.
    rewrite Hr in Hx. injection Hx as <-. by inversion C'. }
  assert (x ∈ pre ++ x :: n :: b) as Ix by (apply elem_of_app; right; left).
  destruct (F x Ix) as [Ox _].
  destruct (refbuf_release_ok (w_heap w) own _ x R (ext_of_queue _ _ _ _ x Ix))
    as (h' & own' & E & R' & [Ro Rs Rw]).
  exists h', own'. split; [done|]. cbv zeta.
  destruct (ro_live _ _ _ R x r Hr) as [Lc _].
  assert (2 <= ext_of pre (x :: n :: b) (w_conns w) frame x)%nat as E2.
  { unfold ext_of. rewrite occ_app, occ_cons, decide_True by done. lia. }
  assert (h' !! x = Some (set_count (rb_count r - 1) r)) as Hx'.
  { rewrite (Rs r Hr Ox). destruct (Z.eqb_spec (rb_count r) 1); [lia|done]. }
  assert (forall y s, owned (w_heap w) own y = 0%nat -> w_heap w !! y = Some s ->
    exists s', h' !! y = Some s' /\ rb_len s' = rb_len s /\ rb_next s' = rb_next s) as K.
  { intros y s Oy Hy. destruct (decide (y = x)) as [->|Ny].
    - simplify_eq. eauto.
    - rewrite (Ro y Ny Oy). eauto. }
  assert (forall l, (forall y, y ∈ l -> y ∈ pre ++ x :: n :: b) -> sum_len h' l = sum_len (w_heap w) l) as KS.
  { intros l Sl. apply sum_len_ext. intros y I. destruct (F y (Sl y I)) as [Oy _].
    destruct (refs_ok_alive _ _ _ y R (ext_of_queue _ _ _ _ y (Sl y I))) as [s Hs].
    destruct (K y s Oy Hs) as (s' & ? & ? & _). eauto. }
  eapply loop_ok_transport; [exact L| | |done|done].
  - split; cbn.
    + eapply refs_ok_ext; [done| |exact R']. intros y. unfold ext_del, fupd, ext_of.
      rewrite EQ. case_decide; subst; rewrite (occ_cons _ x (n :: b)); case_decide; subst; try done; lia.
    + rewrite <- EQ. eapply chain_ext; [|exact C]. intros y s Iy Hs.
      destruct (F y Iy) as [Oy _]. destruct (K y s Oy Hs) as (s' & ? & _ & ?). eauto.
    + done.
    + by rewrite <- EQ.
    + done.
    + intros y Iy. rewrite <- EQ in Iy. destruct (F y Iy) as [Oy ?]. specialize (Rw y). split; [lia|done].
    + rewrite <- EQ, KS by done. done.
    + rewrite O, KS by (intros y Iy; apply elem_of_app; right; by right).
      rewrite u32_sub_l, sum_len_cons, Hr. f_equal. lia.
    + intros y s' Iy Hs'. rewrite <- EQ in Iy. destruct (F y Iy) as [Oy _].
      destruct (refs_ok_alive _ _ _ y R (ext_of_queue _ _ _ _ y Iy)) as [s Hs].
      destruct (K y s Oy Hs) as (s1 & Hs1 & El & _).
      simplify_eq. rewrite El. by eapply Ln.
  - rewrite <- EQ. split; cbn; try done.
    + intros y s _ Oy Hs. destruct (K y s Oy Hs) as (s' & ? & ? & _). eauto.
    + intros y _ Oy. specialize (Rw y). lia.
Qed.

Lemma trim_burst_ok fuel w own frame pre burst rest :
  loop_ok frame pre burst w own rest -> burst <> [] -> (length burst <= fuel)%nat ->
  exists w' own' pre' burst', trim_burst fuel w = Some w' /\
    loop_ok frame pre' burst' w' own' rest /\ pre' ++ burst' = pre ++ burst /\ burst' <> [] /\
    ends_same (w_src w) (w_src w') /\
    q_size (s_queue (w_src w')) = q_size (s_queue (w_src w)) /\
    (q_burst_offset (s_queue (w_src w')) <= burst_size (s_settings (w_src w')) \/
     exists x, burst' = [x]).
Proof.
  revert w own pre burst. induction fuel as [|fuel IH]; intros w own pre burst L Nb Hf.
  { destruct burst; [done|]. cbn in Hf. lia. }
  cbn [trim_burst]. destruct (Z.ltb_spec (burst_size (s_settings (w_src w)))
    (q_burst_offset (s_queue (w_src w)))) as [Hlt|Hge].
  2: { exists w, own, pre, burst. split_and!; try done. by left. }
  pose proof (lo_queue _ _ _ _ _ _ L) as Hq. rewrite (qo_burst _ _ _ _ _ Hq).
  destruct burst as [|x burst]; [done|]. cbn [hd_error]. run_bind.
  destruct (queue_alive frame pre (x :: burst) w own x Hq) as [r Hr].
  { apply elem_of_app. right. left. }
  rewrite Hr. run_bind. destruct burst as [|n b].
  - pose proof (chain_suffix _ _ _ _ (qo_chain _ _ _ _ _ Hq)) as C.
    inversion C as [|? ? ? Hx C' _]; subst. rewrite Hr in Hx. injection Hx as <-.
    inversion C'. exists w, own, pre, [x]. split_and!; try done. right. by exists x.
  - destruct (release_burst_ok _ _ _ _ _ _ _ _ _ L Hr) as (-> & h' & own' & E & L').
    cbv zeta in L'. unfold with_heap. cbn [w_heap w_upd_src w_set_src]. rewrite E. run_bind.
    destruct (IH _ _ _ _ L' ltac:(done) ltac:(cbn in *; lia))
      as (w2 & own2 & pre2 & burst2 & -> & L2 & EQ2 & Nb2 & Es2 & Eq2 & Hb2).
    exists w2, own2, pre2, burst2. split_and!; try done.
    by rewrite EQ2, <- app_assoc.
Qed.

(** A buffer at the head of the queue with a count of one is referenced by the
    queue only. *)
Lemma head_unreferenced w own frame pre burst x l r :
  queue_ok w own frame pre burst -> pre ++ burst = x :: l -> burst <> [] ->
  w_heap w !! x = Some r -> rb_count r = 1 ->
  exists pre', pre = x :: pre' /\ (x ∉ pre' ++ burst) /\ crefs (w_conns w) x = 0%nat.
Proof.
  intros Hq EQ Nb Hr Hc. pose proof Hq as [R C _ _ _ F _ _ _].
  destruct (ro_live _ _ _ R x r Hr) as [Lc _].
  assert (x ∈ pre ++ burst) as Ix by (rewrite EQ; left).
  pose proof (occ_in _ _ Ix) as O1. unfold ext_of in Lc.
  assert (x ∉ burst) as Nx by (intros I%occ_in; lia).
  destruct pre as [|y pre']; cbn in EQ.
  - destruct burst; [done|]. injection EQ as -> _. exfalso. apply Nx. left.
  - injection EQ as -> <-. exists pre'. split; [done|]. split; [|lia].
    pose proof (chain_NoDup _ _ _ C) as ND. by inversion ND.
Qed.

(** Dropping the head of the queue. *)
Lemma drop_head_ok w own frame x pre burst rest r :
  loop_ok frame (x :: pre) burst w own rest -> burst <> [] ->
  w_heap w !! x = Some r -> rb_count r = 1 ->
  rb_next r = hd_error (pre ++ burst) /\
  exists h' own', refbuf_release (Some x) (<[x := set_next None r]> (w_heap w)) = Some h' /\
    let q := s_queue (w_src w) in
    let q' := Queue (rb_next r) (q_tail q) (q_burst q) (q_burst_offset q) (u32 (q_size q - rb_len r)) in
    loop_ok frame pre burst (w_set_heap h' (w_upd_src (src_set_queue q') w)) own' rest.
Proof.
  intros L Nb Hr Hc. pose proof (lo_queue _ _ _ _ _ _ L) as Hq.
  pose proof Hq as [R C B Tl N F S O Ln].
  destruct (head_unreferenced _ _ _ _ _ x (pre ++ burst) r Hq eq_refl Nb Hr Hc)
    as (pre' & [= <-] & Nx & Cx).
  assert (rb_next r = hd_error (pre ++ burst)) as En.
  { cbn in C. inversion C as [|? ? ? Hx C' _]; subst. rewrite Hr in Hx. injection Hx as <-.
    by inversion C'. }
  split; [done|].
  assert (x ∈ (x :: pre) ++ burst) as Ix by left. destruct (F x Ix) as [Ox Fx].
  set (h1 := <[x := set_next None r]> (w_heap w)).
  assert (refs_ok h1 own (ext_of (x :: pre) burst (w_conns w) frame)) as R1.
  { eapply (refs_ok_update _ own (ext_of (x :: pre) burst (w_conns w) frame) _ x r); cbn; try done; [by left| |]; lia. }
  destruct (refbuf_release_ok h1 own _ x R1 (ext_of_queue _ _ _ _ x Ix))
    as (h' & own' & E & R' & [Ro Rs Rw]).
  assert (forall y, owned h1 own y = owned (w_heap w) own y) as Oe by (intros y; by apply (owned_same _ x r)).
  exists h', own'. split; [done|]. cbv zeta.
  assert (forall y, y <> x -> owned (w_heap w) own y = 0%nat -> h' !! y = w_heap w !! y) as K.
  { intros y Ny Oy. rewrite Ro by (rewrite ?Oe; done). unfold h1. by rewrite lookup_insert_ne. }
  assert (forall y, y ∈ pre ++ burst -> h' !! y = w_heap w !! y) as KQ.
  { intros y Iy. apply K; [by intros ->|]. apply F. by right. }
  assert (forall l, (forall y, y ∈ l -> y ∈ pre ++ burst) -> sum_len h' l = sum_len (w_heap w) l) as KS.
  { intros l Sl. apply sum_len_ext. intros y I. rewrite (KQ y) by auto.
    destruct (refs_ok_alive _ _ _ y R (ext_of_queue (x :: pre) burst _ frame y ltac:(right; auto))) as [s Hs]. eauto. }
  assert (forall y, (1 <= crefs (w_conns w) y)%nat -> y <> x) as KC by (intros y Hy ->; lia).
  eapply loop_ok_transport; [exact L| | |done|done].
  - split; cbn.
    + eapply refs_ok_ext; [done| |exact R']. intros y. unfold ext_del, fupd, ext_of. cbn [app].
      apply not_elem_of_app in Nx as [Nx1 Nx2].
      rewrite !occ_cons. repeat case_decide; subst; try done; lia.
    + rewrite En. cbn in C. inversion C as [|? ? ? Hx C' _]; subst. rewrite Hr in Hx.
      injection Hx as <-. rewrite En in C'. eapply chain_ext; [|exact C'].
      intros y s Iy Hs. rewrite (KQ y Iy). eauto.
    + done.
    + rewrite Tl. cbn. destruct (pre ++ burst) eqn:EQ; [|done]. by destruct pre, burst.
    + done.
    + intros y Iy. destruct (F y ltac:(by right)) as [Oy ?]. specialize (Rw y).
      rewrite Oe in Rw. split; [lia|done].
    + rewrite KS by done. rewrite S, u32_sub_l. cbn [app]. rewrite sum_len_cons, Hr. f_equal. lia.
    + rewrite KS; [done|]. intros y Iy. apply elem_of_app. by right.
    + intros y s Iy. rewrite (KQ y Iy). apply Ln. by right.
  - split; cbn; try done.
    + intros y s Hy Oy Hs. rewrite (K y (KC y Hy) Oy). eauto.
    + intros y _ Oy. specialize (Rw y). rewrite Oe in Rw. lia.
    + intros y Hy. rewrite elem_of_cons. split; [|by right]. intros [->|?]; [by destruct (KC x Hy)|done].
Qed.

Lemma trim_queue_ok fuel w own frame pre burst rest :
  loop_ok frame pre burst w own rest -> burst <> [] -> (length pre < fuel)%nat ->
  exists w' own' gone pre', trim_queue fuel w = Some (false, w') /\
    loop_ok frame pre' burst w' own' rest /\ pre = gone ++ pre' /\
    ends_same (w_src w) (w_src w') /\ w_conns w' = w_conns w /\
    q_burst_offset (s_queue (w_src w')) = q_burst_offset (s_queue (w_src w)) /\
    (forall x l, pre' = x :: l -> (1 <= crefs (w_conns w') x)%nat).
Proof.
  revert w own pre. induction fuel as [|fuel IH]; intros w own pre L Nb Hf; [lia|].
  pose proof (lo_queue _ _ _ _ _ _ L) as Hq.
  cbn [trim_queue]. destruct (pre ++ burst) as [|x l] eqn:EQ; [by destruct pre, burst|].
  pose proof (qo_chain _ _ _ _ _ Hq) as C. rewrite EQ in C.
  inversion C as [|? r ? Hr _ _ E1]; subst. run_bind. rewrite Hr. run_bind.
  destruct (Z.eqb_spec (rb_count r) 1) as [Hc|Hc].
  - destruct (head_unreferenced _ _ _ _ _ x l r Hq EQ Nb Hr Hc) as (pre1 & -> & Nx & _).
    destruct (drop_head_ok _ _ _ _ _ _ _ _ L Nb Hr Hc) as (En & h' & own' & E & L').
    cbv zeta in L'.
    rewrite (bool_decide_eq_false_2 (rb_next r = None)) by (rewrite En; by destruct pre1, burst).
    rewrite (bool_decide_eq_false_2 (q_burst _ = _)).
    2: { rewrite (qo_burst _ _ _ _ _ Hq). intros Eb%hd_error_in. apply Nx, elem_of_app. by right. }
    cbn [orb]. unfold with_heap, upd_ptr. cbn [w_heap w_upd_src w_set_src]. rewrite Hr. run_bind.
    cbn [w_heap w_set_heap]. rewrite E. run_bind.
    destruct (IH _ _ _ L' Nb ltac:(cbn in Hf; lia)) as (w2 & own2 & gone & pre2 & E2 & L2 & -> & Es & Ec & Eo & Hh).
    exists w2, own2, (x :: gone), pre2. split_and!; try done.
  - exists w, own, [], pre. split_and!; try done. intros y k ->. cbn in EQ. injection EQ as -> <-.
    destruct (ro_live _ _ _ (qo_refs _ _ _ _ _ Hq) x r Hr) as [Lc ?].
    destruct (qo_free _ _ _ _ _ Hq x) as [Ox Fx]; [by left|].
    unfold ext_of in Lc. rewrite Ox, Fx in Lc.
    pose proof (chain_NoDup _ _ _ (qo_chain _ _ _ _ _ Hq)) as ND. inversion ND as [|? ? Nx _]; subst.
    cbn [app] in Lc. rewrite occ_cons, decide_True, (occ_not_in x (k ++ burst)), (occ_not_in x burst) in Lc;
      try done; [lia|]. intros I. apply Nx, elem_of_app. by right.
Qed.

End ends.
