(* ===== verification/SourceSpec.v ===== *)
(** What the main loop of a source promises: from a sound state every turn
    succeeds and leaves a sound state, slow listeners do not hold up the
    queue, the burst and the number of listeners stay within their limits,
    and clearing a source gives every buffer back. *)

From S2P Require Import Prelude Refbuf AvlTree Source SourceInv SourceClient SourceLoop.
Local Open Scope Z_scope.

(** ** Clearing *)

(** Releasing all the references of one buffer. *)
Lemma release_all_ok p fuel h own ext r :
  refs_ok h own ext -> h !! p = Some r -> owned h own p = 0%nat -> Z.to_nat (rb_count r) = fuel ->
  exists h1 h' own', release_to_one fuel p h = Some h1 /\ refbuf_release (Some p) h1 = Some h' /\
    refs_ok h' own' (fupd p 0%nat ext) /\ h' !! p = None /\
    (forall q, q <> p -> owned h own q = 0%nat -> h' !! q = h !! q) /\
    (forall q, (owned h' own' q <= owned h own q)%nat).
Proof.
  revert h own ext r. induction fuel as [|fuel IH]; intros h own ext r R Hr Ho Hf.
  { destruct (ro_live _ _ _ R p r Hr). lia. }
  destruct (ro_live _ _ _ R p r Hr) as [Lc Lp]. rewrite Ho in Lc.
  destruct (refbuf_release_ok h own ext p R ltac:(lia)) as (h2 & own2 & E2 & R2 & [Ro Rs Rw]).
  cbn [release_to_one]. rewrite Hr. run_bind. destruct (Z.ltb_spec 1 (rb_count r)) as [H1|H1].
  - rewrite E2. run_bind.
    assert (h2 !! p = Some (set_count (rb_count r - 1) r)) as Hr2.
    { rewrite (Rs r Hr Ho). case_match; [lia|done]. }
    destruct (IH h2 own2 _ _ R2 Hr2) as (h3 & h4 & own4 & E3 & E4 & R4 & D4 & K4 & W4).
    { specialize (Rw p). lia. }
    { cbn. lia. }
    exists h3, h4, own4. split_and!; try done.
    + eapply refs_ok_ext; [done| |exact R4]. intros q. unfold ext_del, fupd. by repeat case_decide.
    + intros q Nq Oq. rewrite K4; [by apply Ro|done|]. specialize (Rw q). lia.
    + intros q. specialize (Rw q). specialize (W4 q). lia.
  - exists h, h2, own2. split_and!; try done.
    + eapply refs_ok_ext; [done| |exact R2]. intros q. unfold ext_del, fupd.
      case_decide; subst; [lia|done].
    + rewrite (Rs r Hr Ho). case_match; [done|lia].
Qed.

Lemma with_heap_Some {T} (f : heap -> option heap) (w : world T) h :
  f (w_heap w) = Some h -> with_heap f w = Some (w_set_heap h w).
Proof. unfold with_heap. by intros ->. Qed.

Section clear.
Context {T : Type} `{AvlTreeOk T}.
Implicit Types w : world T.

(** Everything but the queue. *)
Definition queue_only (s s' : source T) : Prop := src_set_queue (s_queue s') s = s'.

Lemma clear_queue_ok l fuel w own (ext : ptr -> nat) :
  chain (w_heap w) (q_data (s_queue (w_src w))) l -> (length l < fuel)%nat ->
  refs_ok (w_heap w) own ext ->
  (forall x, x ∈ l -> owned (w_heap w) own x = 0%nat) ->
  exists w' own', clear_queue fuel w = Some w' /\
    refs_ok (w_heap w') own' (fun x => if decide (x ∈ l) then 0%nat else ext x) /\
    (forall x, (owned (w_heap w') own' x <= owned (w_heap w) own x)%nat) /\
    w_conns w' = w_conns w /\ queue_only (w_src w) (w_src w').
Proof.
  revert w own ext l. induction fuel as [|fuel IH]; intros w own ext l C Hl R Ho; [lia|].
  cbn [clear_queue]. inversion C as [E|p r k Hr Ck Nk E]; subst.
  { exists w, own. split_and!; try done.
    unfold queue_only. by destruct (w_src w). }
  run_bind. rewrite Hr. run_bind. set (h1 := <[p := set_next None r]> (w_heap w)).
  assert (owned (w_heap w) own p = 0%nat) as Op by (apply Ho; left).
  destruct (ro_live _ _ _ R p r Hr).
  assert (refs_ok h1 own ext) as R1.
  { eapply (refs_ok_update _ own ext ext p r); cbn; try done; [by left|lia]. }
  assert (forall y, owned h1 own y = owned (w_heap w) own y) as Oe by (intros y; by apply (owned_same _ p r)).
  destruct (release_all_ok p (Z.to_nat (rb_count r)) h1 own ext (set_next None r) R1)
    as (h2 & h3 & own3 & E2 & E3 & R3 & D3 & K3 & W3); [apply lookup_insert_eq|by rewrite Oe|done|].
  rewrite (with_heap_Some _ _ h1) by (unfold upd_ptr; cbn; by rewrite Hr). run_bind.
  rewrite (with_heap_Some _ _ h2) by done. run_bind.
  rewrite (with_heap_Some _ _ h3) by done. run_bind.
  set (w3 := w_set_heap h3 _).
  assert (forall x, x ∈ k -> h3 !! x = w_heap w !! x) as Kk.
  { intros x I. rewrite K3; [unfold h1; rewrite lookup_insert_ne; [done|]| |];
      try (by intros ->). rewrite Oe. apply Ho. by right. }
  destruct (IH w3 own3 (fupd p 0%nat ext) k) as (w4 & own4 & E4 & R4 & D4 & Ec4 & Es4).
  - cbn. eapply chain_ext; [|exact Ck]. intros x s I Hs. rewrite Kk by done. eauto.
  - cbn in Hl. lia.
  - done.
  - intros x I. cbn. specialize (W3 x). rewrite Oe, Ho in W3 by (by right). lia.
  - exists w4, own4. split_and!; try done.
    + eapply refs_ok_ext; [done| |exact R4]. intros x. cbn. unfold fupd.
      pose proof (elem_of_cons k x p) as Ix. repeat case_decide; try done; exfalso; intuition congruence.
    + intros x. specialize (D4 x). specialize (W3 x). rewrite Oe in W3. cbn in D4. lia.
Qed.
(** Every listed client is dropped, or handed on with the buffer of its own. *)
Lemma free_clients_ok frame pre burst ids rest w own :
  queue_ok w own frame pre burst -> NoDup ids ->
  clients_ok w own frame (pre ++ burst) ids -> clients_ok w own frame (pre ++ burst) rest ->
  (forall i, i ∈ ids -> i ∉ rest) ->
  (forall i c p, i ∉ ids -> i ∉ rest -> w_conns w !! i = Some c -> cl_refbuf c = Some p -> p ∉ pre ++ burst) ->
  exists w' own', free_clients ids w = Some w' /\ queue_ok w' own' frame pre burst /\
    clients_ok w' own' frame (pre ++ burst) rest /\ src_same (w_src w) (w_src w') /\
    (forall i c p, i ∉ rest -> w_conns w' !! i = Some c -> cl_refbuf c = Some p -> p ∉ pre ++ burst).
Proof.
  revert w own. induction ids as [|id ids IH]; intros w own Hq ND C1 C2 Hd Ho.
  { exists w, own. split_and!; try done. intros i c p. apply Ho, not_elem_of_nil. }
  inversion ND as [|? ? N ND']; subst.
  destruct (C1 id ltac:(left)) as (c & Hc & Hok).
  destruct (free_client_ok frame pre burst id w own c Hq Hc Hok) as (w1 & own1 & E & S1 & H1).
  cbn [free_clients]. rewrite E. run_bind.
  destruct (IH w1 own1) as (w2 & own2 & E2 & Hq2 & C2' & Es & Ho2); try done.
  - by eapply cs_queue.
  - eapply clients_ok_step; [exact S1|done|]. intros i I. apply C1. by right.
  - eapply clients_ok_step; [exact S1| |done]. apply Hd. left.
  - intros i I. apply Hd. by right.
  - intros i d p Ni Nr Hi. destruct (decide (i = id)) as [->|Nid]; [by apply H1|].
    destruct (cs_dom _ _ _ _ _ _ _ _ S1 i ltac:(eauto)) as [d0 Hd0].
    destruct (cs_others _ _ _ _ _ _ _ _ S1 i d0 Nid Hd0) as [Hd1 _].
    rewrite Hi in Hd1. injection Hd1 as ->. apply (Ho i d0); [|done|done].
    intros [->|I]%elem_of_cons; done.
  - exists w2, own2. split_and!; try done. eapply src_same_trans; [by eapply cs_src|done].
Qed.
End clear.

(** ** The invariant of a source *)

Section spec.
Context {T : Type} `{AvlTreeOk T}.
Implicit Types w : world T.
Abbreviation listeners_of w := (avl_elements (s_clients (w_src w))).
Abbreviation pending_of w := (avl_elements (s_pending (w_src w))).

(** [pre ++ burst] is the queue, the pending clients are not listeners yet,
    and [frame] counts the references of the rest of the program. *)
Definition source_ok w own frame pre burst : Prop :=
  loop_ok frame pre burst w own (pending_of w).

Definition sound w (frame : ptr -> nat) : Prop :=
  exists own pre burst, source_ok w own frame pre burst.

(** The references of the rest of the program once the source has taken over
    the buffer it was handed. *)
Definition taken (refbuf : option ptr) (frame : ptr -> nat) : ptr -> nat :=
  match refbuf with Some p => fupd p 0%nat frame | None => frame end.

Lemma queue_empty w own frame pre burst :
  queue_ok w own frame pre burst -> q_data (s_queue (w_src w)) = None -> pre = [] /\ burst = [].
Proof.
  intros Hq E. pose proof (qo_chain _ _ _ _ _ Hq) as C. rewrite E in C.
  inversion C as [E'|]. by destruct pre, burst.
Qed.

Lemma queue_head w own frame pre burst :
  queue_ok w own frame pre burst -> q_data (s_queue (w_src w)) = hd_error (pre ++ burst).
Proof. intros Hq. pose proof (qo_chain _ _ _ _ _ Hq) as C. by inversion C. Qed.

Lemma burst_nonempty w own frame pre burst x :
  queue_ok w own frame pre burst -> x ∈ pre ++ burst -> burst <> [].
Proof.
  intros Hq I E. rewrite E, (qo_nonempty _ _ _ _ _ Hq E) in I. by apply not_elem_of_nil in I.
Qed.

(** The append of a buffer. *)
Lemma append_buffer_ok w own frame pre burst rest p :
  loop_ok frame pre burst w own rest -> delivered w frame p ->
  exists w' own' pre' burst', append_buffer p w = Some w' /\
    loop_ok (fupd p 0%nat frame) pre' burst' w' own' rest /\
    pre' ++ burst' = (pre ++ burst) ++ [p] /\ ends_same (w_src w) (w_src w') /\
    (forall r, w_heap w !! p = Some r ->
       q_size (s_queue (w_src w')) = u32 (q_size (s_queue (w_src w)) + rb_len r)) /\
    (q_burst_offset (s_queue (w_src w')) <= burst_size (s_settings (w_src w')) \/ exists x, burst' = [x]).
Proof.
  intros L D. destruct (link_buffer_ok _ _ _ _ _ _ _ L D) as (w1 & E1 & L1 & S1 & Z1).
  unfold append_buffer. rewrite E1. run_bind.
  pose proof (chain_suffix _ _ _ _ (qo_chain _ _ _ _ _ (lo_queue _ _ _ _ _ _ L1))) as C.
  destruct (trim_burst_ok (walk_fuel (w_heap w1)) _ _ _ _ _ _ L1)
    as (w2 & own2 & pre2 & burst2 & E2 & L2 & EQ & _ & S2 & Z2 & B2).
  { by destruct burst. }
  { apply Nat.lt_le_incl. by eapply chain_fuel. }
  exists w2, own2, pre2, burst2. split_and!; try done.
  - by rewrite EQ, <- app_assoc.
  - unfold ends_same in *. intuition congruence.
  - intros r Hr. by rewrite Z2, (Z1 r Hr).
Qed.
Lemma crefs_none m p :
  (forall i c, m !! i = Some c -> cl_refbuf c <> Some p) -> crefs m p = 0%nat.
Proof.
  intros N. unfold crefs. apply sum_list_with_0. intros [i c] I.
  apply elem_of_map_to_list in I. by apply ref_of_ne, (N i).
Qed.

Lemma loop_ok_frame w w' own frame pre burst rest :
  loop_ok frame pre burst w own rest -> w_heap w' = w_heap w -> w_conns w' = w_conns w ->
  s_queue (w_src w') = s_queue (w_src w) -> s_clients (w_src w') = s_clients (w_src w) ->
  n_listeners (s_counts (w_src w')) = n_listeners (s_counts (w_src w)) ->
  loop_ok frame pre burst w' own rest.
Proof.
  intros [Hq HC HR HD HO HN] Eh Ec Eq El En. apply Build_loop_ok; rewrite ?El, ?En, ?Ec; try done.
  - by eapply queue_ok_frame.
  - by eapply (clients_ok_frame _ _ _ _ _ _ _ _ HC).
  - by eapply (clients_ok_frame _ _ _ _ _ _ _ _ HR).
Qed.

Lemma update_counts_ok w :
  let w' := update_counts w in
  w_heap w' = w_heap w /\ w_conns w' = w_conns w /\ s_queue (w_src w') = s_queue (w_src w) /\
  s_clients (w_src w') = s_clients (w_src w) /\ s_pending (w_src w') = s_pending (w_src w) /\
  n_listeners (s_counts (w_src w')) = n_listeners (s_counts (w_src w)) /\
  s_settings (w_src w') = s_settings (w_src w) /\
  (s_running (w_src w) = true -> s_running (w_src w') = false ->
     s_on_demand (w_src w) = true /\ n_listeners (s_counts (w_src w)) = 0) /\
  (s_running (w_src w) = false -> s_running (w_src w') = false).
Proof.
  unfold update_counts. destruct (_ =? n_prev _); [split_and!; try done; congruence|].
  destruct (n_peak _ <? _); cbn; destruct (Z.eqb_spec (n_listeners (s_counts (w_src w))) 0) as [E|];
    cbn; try destruct (s_on_demand (w_src w)); cbn; split_and!; done || congruence.
Qed.

(** The pass over the listeners and the admission of the pending clients. *)
Lemma passes_ok remove ios w own frame pre burst :
  source_ok w own frame pre burst ->
  exists w2 w3 own3, serve_listeners remove ios (listeners_of w) w = Some w2 /\
    admit_clients (pending_of w2) w2 = Some w3 /\
    s_pending (w_src w2) = s_pending (w_src w) /\
    loop_ok frame pre burst w3 own3 [] /\ pass_same (w_src w) (w_src w3) /\
    (forall M, max_listeners (s_settings (w_src w)) = M -> 0 <= M < 2 ^ 64 ->
       Z.of_nat (length (listeners_of w)) <= M -> Z.of_nat (length (listeners_of w3)) <= M) /\
    (remove = true -> forall x, q_data (s_queue (w_src w)) = Some x -> crefs (w_conns w3) x = 0%nat).
Proof.
  intros L. destruct (serve_listeners_ok frame pre burst remove ios (listeners_of w) _ w own L)
    as (w2 & own2 & E2 & L2 & P2 & H2); [apply avl_NoDup|done|].
  pose proof (ps_pending _ _ _ P2) as Ep. rewrite <- Ep in L2.
  destruct (admit_clients_ok frame pre burst (pending_of w2) w2 own2 L2 (avl_NoDup _))
    as (w3 & own3 & E3 & L3 & P3 & K3 & M3 & I3 & F3).
  exists w2, w3, own3. split_and!; try done.
  - eapply pass_same_trans; [apply P2|done].
  - intros M EM HM Hl. apply M3; [|done|].
    + by destruct (ps_same _ _ _ P2) as (_ & -> & _).
    + etrans; [|exact Hl]. apply inj_le, submseteq_length, NoDup_submseteq; [apply avl_NoDup|].
      apply P2.
  - intros Hr x Hx. apply crefs_none. intros i c Hc Ec.
    assert (x ∈ pre ++ burst) as Ix.
    { rewrite (queue_head _ _ _ _ _ (lo_queue _ _ _ _ _ _ L)) in Hx. by apply hd_error_in. }
    destruct (decide (i ∈ listeners_of w3)) as [I|I]; [|by apply (lo_outside _ _ _ _ _ _ L3 i c x)].
    destruct (decide (i ∈ pending_of w2)) as [Ip|Ip]; [by apply (F3 i c Ip I Hc x)|].
    destruct (I3 i I) as [?|Il]; [done|].
    destruct (lo_clients _ _ _ _ _ _ L2 i Il) as (d & Hd & _).
    rewrite (K3 i Ip) in Hc by eauto.
    assert (i ∈ listeners_of w) as Iw by by apply (ps_in _ _ _ P2).
    destruct (H2 Hr i Iw Il c Hc) as [N|N]; [|congruence].
    destruct (ps_same _ _ _ P2) as (Eq & _). rewrite Eq, Hx in N. congruence.
Qed.

(** One turn of the loop. *)
Record turn_ok (refbuf : option ptr) w frame w' : Prop := {
  tn_sound : exists own' pre' burst', source_ok w' own' (taken refbuf frame) pre' burst' /\
    forall x l, pre' = x :: l -> (1 <= crefs (w_conns w') x)%nat;
  tn_pending : pending_of w' = [];
  tn_settings : s_settings (w_src w') = s_settings (w_src w);
  tn_listeners : forall M, max_listeners (s_settings (w_src w)) = M -> 0 <= M < 2 ^ 64 ->
    Z.of_nat (length (listeners_of w)) <= M -> Z.of_nat (length (listeners_of w')) <= M;
  tn_burst : is_Some refbuf ->
    q_burst_offset (s_queue (w_src w')) <= burst_size (s_settings (w_src w)) \/
    q_burst (s_queue (w_src w')) = q_tail (s_queue (w_src w'));
  tn_slow : forall x, q_data (s_queue (w_src w)) = Some x ->
    queue_size_limit (s_settings (w_src w)) <
      u32 (q_size (s_queue (w_src w)) +
        match refbuf with
        | Some p => match w_heap w !! p with Some r => rb_len r | None => 0 end
        | None => 0
        end) ->
    q_data (s_queue (w_src w')) = Some x -> q_burst (s_queue (w_src w')) = Some x;
  tn_running : s_running (w_src w) = true -> s_running (w_src w') = false ->
    s_on_demand (w_src w) = true /\ n_listeners (s_counts (w_src w')) = 0;
  tn_stopped : s_running (w_src w) = false -> s_running (w_src w') = false
}.
(** The turn from the passes on. *)
Lemma rest_of_turn_ok remove ios w own frame pre burst :
  source_ok w own frame pre burst ->
  exists w', 
    (w2 ← serve_listeners remove ios (listeners_of w) w;
     w3 ← admit_clients (pending_of w2) w2;
     let w4 := update_counts (clear_pending w3) in
     match q_data (s_queue (w_src w4)) with
     | Some _ => trim_queue (walk_fuel (w_heap w4)) w4
     | None => Some (false, w4)
     end) = Some (false, w') /\
    (exists own' gone pre', source_ok w' own' frame pre' burst /\ pre = gone ++ pre' /\
       (forall x l, pre' = x :: l -> (1 <= crefs (w_conns w') x)%nat) /\
       (remove = true -> forall x, q_data (s_queue (w_src w)) = Some x ->
          crefs (w_conns w') x = 0%nat)) /\
    pending_of w' = [] /\ s_settings (w_src w') = s_settings (w_src w) /\
    (forall M, max_listeners (s_settings (w_src w)) = M -> 0 <= M < 2 ^ 64 ->
       Z.of_nat (length (listeners_of w)) <= M -> Z.of_nat (length (listeners_of w')) <= M) /\
    (q_burst_offset (s_queue (w_src w')) = q_burst_offset (s_queue (w_src w))) /\
    (s_running (w_src w) = true -> s_running (w_src w') = false ->
       s_on_demand (w_src w) = true /\ n_listeners (s_counts (w_src w')) = 0) /\
    (s_running (w_src w) = false -> s_running (w_src w') = false).
Proof.
  intros L. destruct (passes_ok remove ios w own frame pre burst L)
    as (w2 & w3 & own3 & E2 & E3 & _ & L3 & P3 & M3 & H3).
  rewrite E2. run_bind. rewrite E3. run_bind. set (w4 := update_counts (clear_pending w3)).
  destruct (update_counts_ok (clear_pending w3)) as (Uh & Uc & Uq & Ul & Up & Un & Us & Ur & Ut).
  fold w4 in Uh, Uc, Uq, Ul, Up, Un, Us, Ur, Ut. cbn in Uh, Uc, Uq, Ul, Up, Un, Us, Ur, Ut.
  destruct P3 as (Pq & Ps & Pd & Pr & _).
  assert (loop_ok frame pre burst w4 own3 []) as L4 by by eapply loop_ok_frame.
  assert (pending_of w4 = []) as Ep by (rewrite Up; by apply delete_all).
  pose proof (lo_queue _ _ _ _ _ _ L4) as Hq4.
  assert (exists w5 own5 gone pre5,
    match q_data (s_queue (w_src w4)) with
    | Some _ => trim_queue (walk_fuel (w_heap w4)) w4
    | None => Some (false, w4)
    end = Some (false, w5) /\ loop_ok frame pre5 burst w5 own5 [] /\ pre = gone ++ pre5 /\
    ends_same (w_src w4) (w_src w5) /\ w_conns w5 = w_conns w4 /\
    q_burst_offset (s_queue (w_src w5)) = q_burst_offset (s_queue (w_src w4)) /\
    (forall x l, pre5 = x :: l -> (1 <= crefs (w_conns w5) x)%nat))
    as (w5 & own5 & gone & pre5 & -> & L5 & EQ & Es5 & Ec5 & Eo5 & H5).
  { destruct (q_data (s_queue (w_src w4))) as [x|] eqn:Ed.
    - eapply trim_queue_ok; [done| |].
      + rewrite (queue_head _ _ _ _ _ Hq4) in Ed. by eapply burst_nonempty, hd_error_in.
      + pose proof (chain_fuel w4 _ _ (qo_chain _ _ _ _ _ Hq4)) as Cl. rewrite length_app in Cl. lia.
    - destruct (queue_empty _ _ _ _ _ Hq4 Ed) as [-> ->].
      exists w4, own3, [], []. split_and!; done. }
  destruct Es5 as (Ss & Sc & Sl & Sp & Sr & Sd & _).
  exists w5. split; [done|]. split_and!.
  - exists own5, gone, pre5. split_and!; try done.
    + unfold source_ok. by rewrite Sp, Ep.
    + intros Hr x Hx. rewrite Ec5, Uc. by apply H3.
  - by rewrite Sp.
  - by rewrite Ss, Us.
  - intros M. rewrite Sl, Ul. apply M3.
  - by rewrite Eo5, Uq, Pq.
  - rewrite Sr, Sc, Un. intros Hr Hr'. rewrite <- Pd. apply Ur; [by rewrite Pr|done].
  - rewrite Sr. intros Hr. apply Ut. by rewrite Pr.
Qed.
(** What the append leaves for the rest of the turn. *)
Lemma append_optional_ok refbuf w own frame pre burst :
  source_ok w own frame pre burst -> (forall p, refbuf = Some p -> delivered w frame p) ->
  exists w' own' pre' burst',
    (match refbuf with Some p => append_buffer p w | None => Some w end) = Some w' /\
    source_ok w' own' (taken refbuf frame) pre' burst' /\ ends_same (w_src w) (w_src w') /\
    (forall x, q_data (s_queue (w_src w)) = Some x -> q_data (s_queue (w_src w')) = Some x) /\
    q_size (s_queue (w_src w')) = u32 (q_size (s_queue (w_src w)) +
      match refbuf with
      | Some p => match w_heap w !! p with Some r => rb_len r | None => 0 end
      | None => 0
      end) /\
    (is_Some refbuf ->
       q_burst_offset (s_queue (w_src w')) <= burst_size (s_settings (w_src w)) \/ exists x, burst' = [x]).
Proof.
  intros L D. destruct refbuf as [p|].
  - pose proof (D p eq_refl) as Dp. destruct (dl_live _ _ _ Dp) as (r & Hr & _).
    destruct (append_buffer_ok _ _ _ _ _ _ _ L Dp) as (w1 & own1 & pre1 & burst1 & E & L1 & EQ & S & Z1 & B).
    pose proof S as (Ss & _ & _ & Sp & _).
    exists w1, own1, pre1, burst1. split_and!; try done.
    + unfold source_ok. by rewrite Sp.
    + intros x. rewrite (queue_head _ _ _ _ _ (lo_queue _ _ _ _ _ _ L)).
      rewrite (queue_head _ _ _ _ _ (lo_queue _ _ _ _ _ _ L1)), EQ.
      by destruct (pre ++ burst).
    + by rewrite Hr, (Z1 r Hr).
    + intros _. by rewrite <- Ss.
  - exists w, own, pre, burst. split_and!; try done.
    rewrite Z.add_0_r, (qo_size _ _ _ _ _ (lo_queue _ _ _ _ _ _ L)).
    unfold u32, wrap. by rewrite Zmod_mod.
Qed.

Lemma source_iteration_ok refbuf ios w own frame pre burst :
  source_ok w own frame pre burst -> (forall p, refbuf = Some p -> delivered w frame p) ->
  exists w', source_iteration refbuf ios w = Some (false, w') /\ turn_ok refbuf w frame w'.
Proof.
  intros L D. set (w0 := w_upd_src (src_set_short_delay false) w).
  assert (source_ok w0 own frame pre burst) as L0 by by eapply loop_ok_frame.
  destruct (append_optional_ok refbuf w0 own frame pre burst L0) as
    (w1 & own1 & pre1 & burst1 & E1 & L1 & S1 & Hd1 & Z1 & B1).
  { intros p Ep. destruct (D p Ep) as [Dl Df]. by split. }
  destruct S1 as (Ss & Sc & Sl & Sp & Sr & Sd & _).
  set (remove := queue_size_limit (s_settings (w_src w1)) <? q_size (s_queue (w_src w1))).
  destruct (rest_of_turn_ok remove ios w1 own1 _ pre1 burst1 L1)
    as (w2 & E2 & (own2 & gone & pre2 & L2 & EQ & H2 & HR) & Ep2 & Es2 & M2 & O2 & R2 & T2).
  exists w2. split.
  { unfold source_iteration. fold w0. rewrite E1. exact E2. }
  pose proof (lo_queue _ _ _ _ _ _ L2) as Hq2. split.
  - exists own2, pre2, burst1. done.
  - done.
  - by rewrite Es2, Ss.
  - intros M EM HM Hl. apply M2; [by rewrite Ss|done|by rewrite Sl].
  - intros Hr. rewrite O2. destruct (B1 Hr) as [B| [x ->]]; [by left|right].
    rewrite (qo_burst _ _ _ _ _ Hq2), (qo_tail _ _ _ _ _ Hq2). by rewrite last_snoc.
  - intros x Hx Hlim Hx2. rewrite (qo_burst _ _ _ _ _ Hq2).
    rewrite (queue_head _ _ _ _ _ Hq2) in Hx2. destruct pre2 as [|y k]; [done|].
    cbn in Hx2. injection Hx2 as ->. pose proof (H2 x k eq_refl) as Hc.
    rewrite (HR) in Hc; [lia| |by apply Hd1]. unfold remove. rewrite Ss, Z1. by apply Z.ltb_lt.
  - intros Hr Hr'. cbn in Sd, Sr. rewrite <- Sd. apply R2; [by rewrite Sr|done].
  - intros Hr. apply T2. cbn in Sr. by rewrite Sr.
Qed.
(** Clearing leaves an empty queue and no clients. *)
Lemma source_clear_source_ok w own frame pre burst :
  source_ok w own frame pre burst ->
  exists w' own', source_clear_source w = Some w' /\ source_ok w' own' frame [] [] /\
    listeners_of w' = [] /\ pending_of w' = [] /\
    (forall p, p ∈ pre ++ burst -> w_heap w' !! p = None).
Proof.
  intros [Hq HC HR HD HO HN].
  destruct (free_clients_ok frame pre burst (listeners_of w) (pending_of w) w own Hq (avl_NoDup _) HC HR HD)
    as (w1 & own1 & E1 & Hq1 & HR1 & S1 & HO1).
  { intros i c p N _. by apply HO. }
  unfold source_clear_source. rewrite E1. run_bind. set (active := existsb _ _).
  set (w2 := if active then _ else w1).
  assert (w_heap w2 = w_heap w1 /\ w_conns w2 = w_conns w1 /\ w_src w2 = w_src w1) as (Eh2 & Ec2 & Es2).
  { unfold w2. by destruct active. }
  assert (s_pending (w_src w1) = s_pending (w_src w)) as Ep1 by apply S1.
  rewrite Es2, Ep1.
  destruct (free_clients_ok frame pre burst (pending_of w) [] w2 own1)
    as (w3 & own3 & E3 & Hq3 & _ & S3 & HO3).
  { eapply queue_ok_frame; [exact Hq1|done..|by rewrite Es2]. }
  { apply avl_NoDup. }
  { by eapply (clients_ok_frame _ _ _ _ _ _ _ _ HR1). }
  { by intros i ?%not_elem_of_nil. }
  { by intros i _ ?%not_elem_of_nil. }
  { intros i c p N _. rewrite Ec2. by apply HO1. }
  rewrite E3. run_bind. set (w4 := w_upd_src _ w3).
  assert (forall x, x ∈ pre ++ burst -> crefs (w_conns w3) x = 0%nat) as HC3.
  { intros x Ix. apply crefs_none. intros i c Hc Ec. apply (HO3 i c x); [|done|done|done].
    apply not_elem_of_nil. }
  destruct (clear_queue_ok (pre ++ burst) (walk_fuel (w_heap w4)) w4 own3
    (ext_of pre burst (w_conns w3) frame)) as (w5 & own5 & E5 & R5 & W5 & Ec5 & Q5).
  { apply Hq3. }
  { eapply chain_fuel. apply Hq3. }
  { apply Hq3. }
  { intros x Ix. apply (qo_free _ _ _ _ _ Hq3 x Ix). }
  rewrite E5. run_bind. unfold queue_only in Q5.
  assert (forall t : T, avl_elements (clear_tree t) = []) as Clear by (intros t; by apply delete_all).
  assert (s_clients (w_src w5) = s_clients (w_src w4) /\ s_pending (w_src w5) = s_pending (w_src w4))
    as [El5 Ep5] by by rewrite <- Q5.
  assert (avl_elements (s_clients (w_src w5)) = [] /\ avl_elements (s_pending (w_src w5)) = []) as [El Ep].
  { rewrite El5, Ep5. split; apply Clear. }
  eexists _, own5. split; [done|]. split_and!; [|done|done|].
  - unfold source_ok. cbn. rewrite Ep. apply Build_loop_ok; cbn; rewrite ?El; try done;
      try (by intros i ?%not_elem_of_nil).
    + split; cbn; try done; [|constructor|by intros p ?%not_elem_of_nil|by intros p r ?%not_elem_of_nil].
      eapply refs_ok_ext; [done| |exact R5]. intros x. rewrite Ec5. unfold ext_of. cbn.
      case_decide as Ix.
      * rewrite HC3 by done. destruct (qo_free _ _ _ _ _ Hq3 x Ix) as [_ ->]. done.
      * rewrite !occ_not_in; [done| |done]. intros I. apply Ix, elem_of_app. by right.
    + intros i c p _ _ _. apply not_elem_of_nil.
  - intros p Ip. destruct (w_heap w5 !! p) as [r|] eqn:Hr; [|done]. exfalso.
    destruct (ro_live _ _ _ R5 p r Hr) as [Lc Lp]. rewrite decide_True in Lc by done.
    specialize (W5 p). destruct (qo_free _ _ _ _ _ Hq3 p Ip) as [Op _].
    cbn in W5. rewrite Op in W5. lia.
Qed.
End spec.
