(* ===== verification/SourceRun.v ===== *)
(** Runs of a source: listeners connect, buffers are delivered, the loop
    turns, the settings change and the source is cleared, in any order.  No
    reachable state makes an operation fail. *)

From S2P Require Import Prelude Refbuf AvlTree Source SourceInv SourceClient SourceLoop SourceSpec.
Local Open Scope Z_scope.

(** ** Events *)

Section run.
Context {T : Type} `{AvlTreeOk T}.
Implicit Types w : world T.
Abbreviation listeners_of w := (avl_elements (s_clients (w_src w))).
Abbreviation pending_of w := (avl_elements (s_pending (w_src w))).

(** A turn comes with the length of the buffer the format plugin read, and
    whether it is a sync point, when there is one. *)
Inductive event :=
| Connect (id : Z)
| Turn (buffer : option (Z * bool)) (ios : Z -> nat -> io)
| Configure (s : settings)
| Clear.

(** The buffer of a turn, as a format plugin allocates it. *)
Definition deliver (buffer : option (Z * bool)) w : option ptr * world T :=
  match buffer with
  | None => (None, w)
  | Some (len, sync) =>
      let p := fresh (dom (w_heap w)) in
      (Some p, w_set_heap (<[p := Refbuf len 1 None None sync]> (w_heap w)) w)
  end.

Definition exec (e : event) w : option (world T) :=
  match e with
  | Connect id => add_listener id (client_create id w)
  | Turn buffer ios =>
      let '(p, w) := deliver buffer w in
      '(unexpected, w) ← source_iteration p ios w;
      if (unexpected : bool) then None else Some w
  | Configure s =>
      let src := w_src w in
      Some (w_set_src (Source (s_mount src) s (s_queue src) (s_counts src) (s_clients src)
        (s_pending src) (s_running src) (s_on_demand src) (s_on_demand_req src) (s_client src)
        (s_con src) (s_format src) (s_short_delay src) (s_last_read src) (s_stats_update src)
        (s_intro src) (s_sent_bytes src)) w)
  | Clear => source_clear_source w
  end.

(** Connection ids are not used twice, lengths are unsigned integers. *)
Definition legal (e : event) w : Prop :=
  match e with
  | Connect id => w_conns w !! id = None
  | Turn (Some (len, _)) _ => 0 <= len < 2 ^ 32
  | _ => True
  end.

(** A source as [source_reserve] makes it, with nothing in its queue. *)
Definition idle w : Prop :=
  w_heap w = ∅ /\ w_conns w = ∅ /\ s_queue (w_src w) = Queue None None None 0 0 /\
  s_clients (w_src w) = avl_new /\ s_pending (w_src w) = avl_new /\
  n_listeners (s_counts (w_src w)) = 0.

Inductive reachable : world T -> Prop :=
| reach_idle w : idle w -> reachable w
| reach_exec w e w' : reachable w -> legal e w -> exec e w = Some w' -> reachable w'.

(** ** The invariant of runs *)

Definition none (_ : ptr) : nat := 0%nat.

Lemma queue_ok_frame_ext w own frame frame' pre burst :
  (forall p, frame p = frame' p) -> queue_ok w own frame pre burst -> queue_ok w own frame' pre burst.
Proof.
  intros E [R C B Tl N F S O L]. split; try done.
  - eapply refs_ok_ext; [done| |exact R]. intros p. unfold ext_of. by rewrite E.
  - intros p I. rewrite <- E. by apply F.
Qed.

Lemma loop_ok_frame_ext w own frame frame' pre burst rest :
  (forall p, frame p = frame' p) -> loop_ok frame pre burst w own rest -> loop_ok frame' pre burst w own rest.
Proof.
  intros E [Hq HC HR HD HO HN].
  assert (forall ids, clients_ok w own frame (pre ++ burst) ids ->
                      clients_ok w own frame' (pre ++ burst) ids) as K.
  { intros ids C i I. destruct (C i I) as (c & Hc & [A B]). exists c. split; [done|]. split; [|done].
    destruct (cl_refbuf c) as [p|]; [|done]. destruct A as [A1 A2]. split; [done|].
    destruct (cl_check c); try done; destruct A2 as (? & ? & ? & ?); repeat split; try done; congruence. }
  apply Build_loop_ok; auto. by eapply queue_ok_frame_ext.
Qed.

Lemma idle_sound w : idle w -> sound w none.
Proof.
  intros (Eh & Ec & Eq & El & Ep & En). exists (fun _ => []), [], []. unfold source_ok.
  rewrite Ep, avl_elements_new. apply Build_loop_ok.
  - split; rewrite ?Eh, ?Ec, ?Eq; try done; try constructor;
      try apply refs_ok_empty; by intros p ?%not_elem_of_nil.
  - intros i. rewrite El, avl_elements_new. by intros ?%not_elem_of_nil.
  - by intros i ?%not_elem_of_nil.
  - intros i _. apply not_elem_of_nil.
  - intros i c p _. by rewrite Ec, lookup_empty.
  - by rewrite En, El, avl_elements_new.
Qed.

(** A new connection gets a buffer of its own. *)
Lemma client_create_ok id w own frame pre burst rest :
  loop_ok frame pre burst w own rest -> w_conns w !! id = None ->
  exists own' c p r, loop_ok frame pre burst (client_create id w) own' rest /\
    w_conns (client_create id w) !! id = Some c /\ cl_refbuf c = Some p /\
    w_heap (client_create id w) !! p = Some r /\
    private (client_create id w) own' frame (pre ++ burst) p /\
    cl_check c = format_check_http_buffer_fn /\ cl_pos c = 0 /\ cl_respcode c = 0 /\
    (id ∉ listeners_of w) /\ (id ∉ rest).
Proof.
  intros [Hq HC HR HD HO HN] Hid.
  assert ((id ∉ listeners_of w) /\ (id ∉ rest)) as [NI NR].
  { split; intros I; [destruct (HC id I) as (? & ? & _)|destruct (HR id I) as (? & ? & _)]; congruence. }
  set (f := fun p (_ : client) => Client (Some p) 0 0 format_check_http_buffer_fn 0 false 0).
  set (c0 := Client None 0 0 format_check_file_buffer_fn 1 false 0).
  set (w0 := w_set_conns (<[id := c0]> (w_conns w)) w).
  assert (forall p, crefs (w_conns w0) p = crefs (w_conns w) p) as E0.
  { intros p. cbn. by rewrite crefs_new, ref_of_ne by done. }
  assert (queue_ok w0 own frame pre burst) as Hq0.
  { destruct Hq. split; try done. eapply refs_ok_ext; [done| |done]. intros p. unfold ext_of. by rewrite E0. }
  destruct (client_new_buffer_ok frame pre burst id f w0 own c0 0 Hq0)
    as (p & h & own1 & E & Eu & S1 & P1 & Hp); [apply lookup_insert_eq|done|done|].
  unfold client_create. cbn in E. rewrite E. cbn in S1, P1. rewrite insert_insert_eq in S1, P1.
  assert (forall ids, id ∉ ids -> clients_ok w own frame (pre ++ burst) ids ->
    clients_ok w0 own frame (pre ++ burst) ids) as K0.
  { intros ids N C i I. destruct (C i I) as (c & Hc & Hok). exists c.
    split; [cbn; rewrite lookup_insert_ne; [done|congruence]|].
    eapply client_ok_same; [| | | | | |exact Hok]; done. }
  eexists own1, (f p c0), p, _. split_and!; try done; [|cbn; apply lookup_insert_eq].
  apply Build_loop_ok; try done.
  - exact (cs_queue _ _ _ _ _ _ _ _ S1).
  - eapply clients_ok_step; [exact S1|done|by apply K0].
  - eapply clients_ok_step; [exact S1|done|by apply K0].
  - intros i c q N. cbn. destruct (decide (i = id)) as [->|Ni].
    + rewrite lookup_insert_eq. intros [= <-] [= <-]. apply P1.
    + rewrite lookup_insert_ne by done. by apply HO.
Qed.
Lemma connect_ok id w frame :
  sound w frame -> w_conns w !! id = None ->
  exists w', exec (Connect id) w = Some w' /\ sound w' frame.
Proof.
  intros (own & pre & burst & L) Hid. unfold source_ok in L.
  destruct (client_create_ok id w own frame pre burst _ L Hid)
    as (own1 & c & p & r & L1 & Hc & Ec & Hr & P & Ek & Epos & Er & NI & NP).
  cbn [exec]. unfold add_listener. set (w1 := client_create id w) in *.
  assert (w_src w1 = w_src w) as Es1 by (unfold w1, client_create; by destruct (refbuf_new _ _)).
  pose proof L1 as [Hq1 HC1 HR1 HD1 HO1 HN1].
  destruct (upd_client_ok frame pre burst id (cl_set_check format_check_http_buffer_fn) w1 own1 c Hq1 Hc)
    as (w2 & -> & S2 & Hc2 & Eh2 & Es2 & Ecr2); [done|].
  run_bind. rewrite Hc2. cbn [mbind option_bind cl_refbuf cl_set_check]. rewrite Ec. run_bind.
  destruct (client_set_len_ok frame pre burst id PER_CLIENT_REFBUF_SIZE w2 own1 _ p r
    (cs_queue _ _ _ _ _ _ _ _ S2) Hc2 Ec) as (w3 & -> & S3 & Ec3 & Hr3 & Es3 & P3).
  { eapply private_same; [exact Eh2|exact Ecr2|done]. }
  { by rewrite Eh2. }
  run_bind. eexists. split; [done|]. rewrite Es3, Es2, Es1.
  pose proof (cstep_trans _ _ _ _ _ _ _ _ _ _ S2 S3) as S.
  set (c2 := cl_set_check _ c) in *.
  assert (client_ok w3 own1 frame (pre ++ burst) c2) as Hok.
  { eapply (private_ok _ _ _ w3 own1 c2 p); cbn; try done. rewrite Epos. by cbn. }
  exists own1, pre, burst. unfold source_ok.
  set (w4 := w_set_src _ w3).
  assert (w_heap w4 = w_heap w3 /\ w_conns w4 = w_conns w3 /\ s_queue (w_src w4) = s_queue (w_src w) /\
    s_clients (w_src w4) = s_clients (w_src w) /\ s_counts (w_src w4) = s_counts (w_src w) /\
    s_pending (w_src w4) = avl_insert id (s_pending (w_src w))) as (Fh & Fc & Fq & Fl & Fn & Fp).
  { unfold w4. cbn. by case_match. }
  rewrite Es1 in HC1, HD1, HO1, HN1.
  assert (forall ids, id ∉ ids -> clients_ok w1 own1 frame (pre ++ burst) ids ->
    clients_ok w4 own1 frame (pre ++ burst) ids) as K.
  { intros ids N C. eapply (clients_ok_frame _ _ _ w3); [|done|done|done].
    by eapply clients_ok_step. }
  rewrite Fp. apply Build_loop_ok; rewrite ?Fl, ?Fn; try done.
  - eapply (queue_ok_frame _ _ _ w3); [by eapply cs_queue|done|done|]. by rewrite Fq, Es3, Es2, Es1.
  - by apply K.
  - intros i Ii%elem_of_avl_insert. destruct (decide (i = id)) as [->|Ni].
    + exists c2. rewrite Fc, Ec3. split; [done|]. eapply client_ok_same; [| | | | | |exact Hok]; try done.
    + destruct Ii as [?|Ii]; [done|]. by apply (K _ NP HR1).
  - intros i Ii. rewrite elem_of_avl_insert. intros [->|Ip]; [done|]. by apply (HD1 i).
  - intros i d q N. rewrite Fc. destruct (decide (i = id)) as [->|Ni].
    + rewrite Ec3, Hc2. intros [= <-]. cbn. rewrite Ec. intros [= <-]. apply P.
    + intros Hd. destruct (cs_dom _ _ _ _ _ _ _ _ S i ltac:(eauto)) as [d0 Hd0].
      destruct (cs_others _ _ _ _ _ _ _ _ S i d0 Ni Hd0) as [Hd1 _].
      rewrite Hd in Hd1. injection Hd1 as ->. by apply (HO1 i d0).
Qed.

(** A delivered buffer is referenced by the loop of the source only. *)
Lemma deliver_ok buffer ios w :
  legal (Turn buffer ios) w -> sound w none ->
  exists p w1 frame, deliver buffer w = (p, w1) /\ sound w1 frame /\
    (forall q, p = Some q -> delivered w1 frame q) /\ (forall q, taken p frame q = none q) /\
    w_src w1 = w_src w.
Proof.
  intros Hl (own & pre & burst & L). destruct buffer as [[len sync]|].
  2: { exists None, w, none. split_and!; try done. by exists own, pre, burst. }
  pose proof (lo_queue _ _ _ _ _ _ L) as Hq. pose proof Hq as [R C B Tl N F S O Ln].
  cbn [deliver]. set (p := fresh (dom (w_heap w))). set (r := Refbuf len 1 None None sync).
  assert (w_heap w !! p = None) as Hp by apply fresh_dead.
  destruct (ro_dead _ _ _ R p Hp) as [Dp _]. unfold ext_of in Dp.
  assert (p ∉ pre ++ burst) as NQ by (intros I%occ_in; lia).
  set (own1 := fupd p [] own). set (frame := fupd p 1%nat none).
  exists (Some p), (w_set_heap (<[p := r]> (w_heap w)) w), frame.
  assert (forall x, owned (<[p := r]> (w_heap w)) own1 x = owned (w_heap w) own x) as Eo.
  { intros x. unfold owned, own1. rewrite sum_dom_insert, fupd_eq by done. by apply owned_fupd_dead. }
  split_and!; try done.
  - exists own1, pre, burst. eapply loop_ok_transport; [exact L| | |done|done].
    + assert (forall x s, x ∈ pre ++ burst -> <[p := r]> (w_heap w) !! x = Some s ->
        w_heap w !! x = Some s) as K.
      { intros x s I. rewrite lookup_insert_ne; [done|congruence]. }
      assert (forall l, (forall x, x ∈ l -> x ∈ pre ++ burst) ->
        sum_len (<[p := r]> (w_heap w)) l = sum_len (w_heap w) l) as KS.
      { intros l Sl. apply sum_len_ext. intros x I.
        destruct (refs_ok_alive _ _ _ x R (ext_of_queue _ _ _ _ x (Sl x I))) as [s Hs].
        exists s, s. split_and!; try done. rewrite lookup_insert_ne; [done|]. intros <-. by apply NQ, Sl. }
      split; cbn; try done.
      * eapply refs_ok_ext; [done| |eapply (refs_ok_new _ own (ext_of pre burst (w_conns w) none) p [])];
          cbn; try done; [|eapply refs_ok_ext; [done| |exact R]; intros q; cbn; lia|constructor|
            by intros x ?%not_elem_of_nil].
        intros x. unfold ext_add, frame, fupd, ext_of, none.
        apply not_elem_of_app in NQ as [N1 N2]. case_decide; subst; lia.
      * eapply chain_ext; [|exact C]. intros x s I Hs. rewrite lookup_insert_ne by congruence. eauto.
      * intros x I. rewrite Eo. unfold frame, fupd. rewrite decide_False by congruence. by apply F.
      * by rewrite KS.
      * rewrite KS; [done|]. intros x I. apply elem_of_app. by right.
      * intros x s I Hs. by eapply Ln, K.
    + split; cbn; try done.
      * intros x s Hx _ Hs. rewrite lookup_insert_ne by congruence. eauto.
      * intros x _. by rewrite Eo.
      * intros x Hx _. unfold frame, fupd. rewrite decide_False; [done|]. intros ->. lia.
  - intros q [= <-]. split; [|by unfold frame; rewrite fupd_eq]. exists r. cbn.
    rewrite lookup_insert_eq. done.
  - intros q. cbn. unfold frame, fupd, none. by repeat case_decide.
Qed.

Lemma exec_ok e w : sound w none -> legal e w -> exists w', exec e w = Some w' /\ sound w' none.
Proof.
  intros Hs Hl. destruct e as [id|buffer ios|s|].
  - by apply connect_ok.
  - destruct (deliver_ok buffer ios w Hl Hs) as (p & w1 & frame & E & (own & pre & burst & L) & D & Ef & _).
    destruct (source_iteration_ok p ios w1 own frame pre burst L D) as (w2 & E2 & [(own2 & pre2 & burst2 & L2 & _) _ _ _ _ _ _ _]).
    cbn [exec]. rewrite E. rewrite E2. run_bind. exists w2. split; [done|].
    exists own2, pre2, burst2. by eapply loop_ok_frame_ext.
  - destruct Hs as (own & pre & burst & L). eexists. split; [done|].
    exists own, pre, burst. by eapply loop_ok_frame.
  - destruct Hs as (own & pre & burst & L).
    destruct (source_clear_source_ok w own none pre burst L) as (w2 & own2 & E & L2 & _).
    exists w2. split; [done|]. by exists own2, [], [].
Qed.

Lemma reachable_sound w : reachable w -> sound w none.
Proof.
  induction 1 as [w Hi|w e w' Hr IH Hl E]; [by apply idle_sound|].
  destruct (exec_ok e w IH Hl) as (w2 & E2 & S2). rewrite E in E2. by injection E2 as <-.
Qed.
(** The facts about one turn of a reachable state. *)
Lemma turn_facts buffer ios w w' :
  reachable w -> legal (Turn buffer ios) w -> exec (Turn buffer ios) w = Some w' ->
  exists p w1 frame, deliver buffer w = (p, w1) /\ w_src w1 = w_src w /\ turn_ok p w1 frame w'.
Proof.
  intros Hr Hl E. apply reachable_sound in Hr.
  destruct (deliver_ok buffer ios w Hl Hr) as (p & w1 & frame & Ed & (own & pre & burst & L) & D & _ & Es).
  destruct (source_iteration_ok p ios w1 own frame pre burst L D) as (w2 & E2 & K).
  exists p, w1, frame. split; [done|]. split; [done|].
  cbn [exec] in E. rewrite Ed, E2 in E. cbn in E. by injection E as <-.
Qed.

Definition buffer_len (buffer : option (Z * bool)) : Z :=
  match buffer with Some (len, _) => len | None => 0 end.

Lemma deliver_len buffer w p w1 :
  deliver buffer w = (p, w1) ->
  match p with
  | Some p => match w_heap w1 !! p with Some r => rb_len r | None => 0 end
  | None => 0
  end = buffer_len buffer.
Proof.
  destruct buffer as [[len sync]|]; cbn; intros [= <- <-]; [|done]. cbn. by rewrite lookup_insert_eq.
Qed.

Lemma occ_NoDup l p : NoDup l -> occ p l = if decide (p ∈ l) then 1%nat else 0%nat.
Proof.
  intros ND. case_decide as I.
  - pose proof (occ_in _ _ I). apply Nat.le_antisymm; [|done]. clear -ND.
    induction ND as [|x l Nx NDl IH]; [cbn; lia|]. rewrite occ_cons. case_decide; [subst|lia].
    rewrite occ_not_in by done. lia.
  - by apply occ_not_in.
Qed.

Lemma crefs_find m p :
  (1 <= crefs m p)%nat -> exists i c, m !! i = Some c /\ cl_refbuf c = Some p.
Proof.
  unfold crefs. intros Hs.
  assert (exists i c, (i, c) ∈ map_to_list m /\ cl_refbuf c = Some p) as (i & c & I & Ec).
  { induction (map_to_list m) as [|[i c] l IH]; cbn in Hs; [lia|].
    unfold ref_of in Hs at 1. case_decide as Ec; [exists i, c; split; [left|done]|].
    destruct (IH Hs) as (j & d & I & Ed). exists j, d. split; [by right|done]. }
  exists i, c. split; [by apply elem_of_map_to_list|done].
Qed.

(** ** Theorems *)


(** C4: In every reachable state the queue is one chain from its head to its
    tail with the burst as its end; the sizes, the counts of the buffers and
    the number of listeners are exact. *)
Theorem source_accounting w :
  reachable w ->
  exists pre burst, let q := s_queue (w_src w) in
    chain (w_heap w) (q_data q) (pre ++ burst) /\
    q_tail q = last (pre ++ burst) /\ q_burst q = hd_error burst /\
    q_size q = u32 (sum_len (w_heap w) (pre ++ burst)) /\
    q_burst_offset q = u32 (sum_len (w_heap w) burst) /\
    (forall p, p ∈ pre ++ burst -> exists r, w_heap w !! p = Some r /\
       rb_count r = 1 + (if decide (p ∈ burst) then 1 else 0) + Z.of_nat (crefs (w_conns w) p)) /\
    n_listeners (s_counts (w_src w)) = u64 (Z.of_nat (length (listeners_of w))).
Proof.
  intros Hr%reachable_sound. destruct Hr as (own & pre & burst & [Hq _ _ _ _ HN]).
  pose proof Hq as [R C B Tl N F S O Ln]. exists pre, burst. split_and!; try done.
  intros p Ip. destruct (queue_alive none pre burst w own p Hq Ip) as [r Hr].
  exists r. split; [done|]. destruct (ro_live _ _ _ R p r Hr) as [-> _].
  destruct (F p Ip) as [-> _]. pose proof (chain_NoDup _ _ _ C) as ND.
  unfold ext_of, none. rewrite (occ_NoDup _ _ ND), decide_True by done.
  rewrite (occ_NoDup burst) by by apply NoDup_app in ND as (_ & _ & ?). case_decide; lia.
Qed.

(** When the queue is longer than its limit, the turn gets rid of its head,
    with the listeners that still read from it, unless the head is the start
    of the burst. *)
Theorem slow_listeners_removed buffer ios w w' x :
  reachable w -> legal (Turn buffer ios) w -> exec (Turn buffer ios) w = Some w' ->
  queue_size_limit (s_settings (w_src w)) < u32 (q_size (s_queue (w_src w)) + buffer_len buffer) ->
  q_data (s_queue (w_src w)) = Some x ->
  q_data (s_queue (w_src w')) <> Some x \/ q_burst (s_queue (w_src w')) = Some x.
Proof.
  intros Hr Hl E Hlim Hx.
  destruct (decide (q_data (s_queue (w_src w')) = Some x)) as [Hx'|]; [right|by left].
  revert Hx'. destruct (turn_facts _ _ _ _ Hr Hl E) as (p & w1 & frame & Ed & Es & K).
  apply (tn_slow _ _ _ _ K); [by rewrite Es|]. by rewrite Es, (deliver_len _ _ _ _ Ed).
Qed.

(** A buffer stays at the head of the queue only while the burst starts there
    or a listener reads from it. *)
Theorem queue_minimal buffer ios w w' x :
  reachable w -> legal (Turn buffer ios) w -> exec (Turn buffer ios) w = Some w' ->
  q_data (s_queue (w_src w')) = Some x ->
  q_burst (s_queue (w_src w')) = Some x \/
  exists id c, w_conns w' !! id = Some c /\ cl_refbuf c = Some x.
Proof.
  intros Hr Hl E Hx. destruct (turn_facts _ _ _ _ Hr Hl E) as (p & w1 & frame & _ & _ & K).
  destruct (tn_sound _ _ _ _ K) as (own & pre & burst & L & Hh).
  pose proof (lo_queue _ _ _ _ _ _ L) as Hq.
  rewrite (queue_head _ _ _ _ _ Hq) in Hx. rewrite (qo_burst _ _ _ _ _ Hq).
  destruct pre as [|y k]; [by left|right]. cbn in Hx. injection Hx as ->.
  specialize (Hh x k eq_refl).
  by apply crefs_find.
Qed.

(** The burst ends up within its size, or is the last buffer alone. *)
Theorem burst_bounded len sync ios w w' :
  reachable w -> legal (Turn (Some (len, sync)) ios) w ->
  exec (Turn (Some (len, sync)) ios) w = Some w' ->
  q_burst_offset (s_queue (w_src w')) <= burst_size (s_settings (w_src w)) \/
  q_burst (s_queue (w_src w')) = q_tail (s_queue (w_src w')).
Proof.
  intros Hr Hl E. destruct (turn_facts _ _ _ _ Hr Hl E) as (p & w1 & frame & Ed & Es & K).
  rewrite <- Es. apply (tn_burst _ _ _ _ K). cbn in Ed. injection Ed as <- _. eauto.
Qed.

(** A turn leaves no client pending and never admits a listener beyond
    [max_listeners]; it only stops the source when an on-demand mount has no
    listeners. *)
Theorem listeners_bounded buffer ios w w' M :
  reachable w -> legal (Turn buffer ios) w -> exec (Turn buffer ios) w = Some w' ->
  max_listeners (s_settings (w_src w)) = M -> 0 <= M < 2 ^ 64 ->
  Z.of_nat (length (listeners_of w)) <= M ->
  Z.of_nat (length (listeners_of w')) <= M /\ pending_of w' = [] /\
  (s_running (w_src w) = true -> s_running (w_src w') = false ->
     s_on_demand (w_src w) = true /\ n_listeners (s_counts (w_src w')) = 0).
Proof.
  intros Hr Hl E EM HM Hlen. destruct (turn_facts _ _ _ _ Hr Hl E) as (p & w1 & frame & Ed & Es & K).
  split_and!.
  - by apply (tn_listeners _ _ _ _ K); rewrite ?Es.
  - apply K.
  - rewrite <- Es. apply K.
Qed.

(** Clearing the source frees every buffer of its queue and leaves it
    without queue, listeners and pending clients. *)
Theorem clear_frees_queue w w' l :
  reachable w -> chain (w_heap w) (q_data (s_queue (w_src w))) l -> exec Clear w = Some w' ->
  (forall p, p ∈ l -> w_heap w' !! p = None) /\ listeners_of w' = [] /\ pending_of w' = [] /\
  s_queue (w_src w') = Queue None None None 0 0.
Proof.
  intros Hr%reachable_sound C E. destruct Hr as (own & pre & burst & L).
  pose proof (qo_chain _ _ _ _ _ (lo_queue _ _ _ _ _ _ L)) as C'.
  rewrite (chain_unique _ _ _ _ C C').
  destruct (source_clear_source_ok w own none pre burst L) as (w2 & own2 & E2 & L2 & El & Ep & D).
  cbn [exec] in E. assert (s_queue (w_src w') = Queue None None None 0 0) as Eq.
  { revert E. unfold source_clear_source.
    repeat match goal with |- context [mbind _ ?o = Some _] => destruct o; [run_bind|discriminate] end.
    by intros [= <-]. }
  rewrite E2 in E. injection E as ->. done.
Qed.
(** The state after an event, for the concrete runs. *)
Definition force (e : event) w : world T :=
  match exec e w with Some w' => w' | None => w end.

Lemma force_exec e w : reachable w -> legal e w -> exec e w = Some (force e w).
Proof.
  intros Hr Hl. unfold force.
  by destruct (exec_ok e w (reachable_sound w Hr) Hl) as (w' & -> & _).
Qed.

Lemma force_reachable e w : reachable w -> legal e w -> reachable (force e w).
Proof. intros Hr Hl. eapply reach_exec; [done|done|by apply force_exec]. Qed.
End run.

(** ** A concrete run *)

(** A mount for one listener, with a burst of 100 bytes and a queue limit of
    250. *)
Definition example_start : world sorted_list :=
  World ∅ ∅ (Source "/live" (Settings 100 250 10 1) (Queue None None None 0 0)
    (Counts 0 (2 ^ 64 - 1) 0) avl_new avl_new true false false true true
    (Some FORMAT_TYPE_GENERIC) false 0 0 None 0) [] [].

(** The listener takes its headers and the first buffer it is sent, and then
    nothing any more. *)
Definition example_ios (fast : bool) : Z -> nat -> io :=
  fun _ _ => Io 0 (Some 50%nat) (if fast then 1000 else 0) false.

Definition example_buffer : event := Turn (Some (100, true)) (example_ios true).
Definition example_stall : event := Turn (Some (100, true)) (example_ios false).

(** Two listeners connect, one is admitted and stops reading. *)
Definition example_full : world sorted_list :=
  force example_stall (force example_stall (force example_buffer
    (force example_buffer (force (Connect 8) (force (Connect 7) example_start))))).

Example example_full_state :
  (avl_elements (s_clients (w_src example_full)), q_size (s_queue (w_src example_full)),
   q_burst_offset (s_queue (w_src example_full)), w_answers example_full)
  = ([7], 200, 100, [(8, 36)]).
Proof. vm_compute. reflexivity. Qed.

(** The buffer it holds up is dropped with the next one, and so is it. *)
Example example_removed_state :
  (avl_elements (s_clients (w_src (force example_stall example_full))),
   q_size (s_queue (w_src (force example_stall example_full))),
   w_stats (force example_stall example_full) !! 6%nat)
  = ([], 100, Some (Some "/live", "slow_listeners", StatInc)).
Proof. vm_compute. reflexivity. Qed.

Lemma example_start_idle : idle example_start.
Proof. by repeat split. Qed.

Lemma example_legal fast (w : world sorted_list) : legal (Turn (Some (100, true)) (example_ios fast)) w.
Proof. cbn. lia. Qed.

Lemma example_full_reachable : reachable example_full.
Proof.
  repeat (apply force_reachable; [|apply example_legal]).
  apply force_reachable; [|vm_compute; reflexivity].
  apply force_reachable; [|vm_compute; reflexivity].
  apply reach_idle, example_start_idle.
Qed.


Lemma source_accounting_witness :
  reachable example_full /\
  exists pre burst, chain (w_heap example_full) (q_data (s_queue (w_src example_full))) (pre ++ burst).
Proof.
  split; [apply example_full_reachable|].
  destruct (source_accounting example_full example_full_reachable) as (pre & burst & C & _).
  exists pre, burst. exact C.
Defined.

Lemma slow_listeners_removed_witness :
  q_data (s_queue (w_src example_full)) = Some 5%positive /\
  (q_data (s_queue (w_src (force example_stall example_full))) <> Some 5%positive \/
   q_burst (s_queue (w_src (force example_stall example_full))) = Some 5%positive).
Proof.
  split; [vm_compute; reflexivity|].
  eapply (slow_listeners_removed (Some (100, true)) (example_ios false) example_full).
  - apply example_full_reachable.
  - apply example_legal.
  - apply force_exec; [apply example_full_reachable|apply example_legal].
  - vm_compute. reflexivity.
  - vm_compute. reflexivity.
Defined.

Lemma queue_minimal_witness :
  q_data (s_queue (w_src (force example_stall example_full))) = Some 7%positive /\
  (q_burst (s_queue (w_src (force example_stall example_full))) = Some 7%positive \/
   exists id c, w_conns (force example_stall example_full) !! id = Some c /\
     cl_refbuf c = Some 7%positive).
Proof.
  split; [vm_compute; reflexivity|].
  apply (queue_minimal (Some (100, true)) (example_ios false) example_full).
  - apply example_full_reachable.
  - apply example_legal.
  - apply force_exec; [apply example_full_reachable|apply example_legal].
  - vm_compute. reflexivity.
Defined.

Lemma burst_bounded_witness :
  q_burst_offset (s_queue (w_src (force example_stall example_full))) <= 100 \/
  q_burst (s_queue (w_src (force example_stall example_full))) =
    q_tail (s_queue (w_src (force example_stall example_full))).
Proof.
  apply (burst_bounded 100 true (example_ios false) example_full).
  - apply example_full_reachable.
  - apply example_legal.
  - apply force_exec; [apply example_full_reachable|apply example_legal].
Defined.

Lemma listeners_bounded_witness :
  Z.of_nat (length (avl_elements (s_clients (w_src (force example_stall example_full))))) <= 1 /\
  avl_elements (s_pending (w_src (force example_stall example_full))) = [] /\
  (s_running (w_src example_full) = true ->
   s_running (w_src (force example_stall example_full)) = false ->
   s_on_demand (w_src example_full) = true /\
   n_listeners (s_counts (w_src (force example_stall example_full))) = 0).
Proof.
  apply (listeners_bounded (Some (100, true)) (example_ios false) example_full).
  - apply example_full_reachable.
  - apply example_legal.
  - apply force_exec; [apply example_full_reachable|apply example_legal].
  - vm_compute. reflexivity.
  - lia.
  - vm_compute. discriminate.
Defined.

Lemma clear_frees_queue_witness :
  chain (w_heap example_full) (q_data (s_queue (w_src example_full))) [5%positive; 6%positive] /\
  (forall p, p ∈ [5%positive; 6%positive] -> w_heap (force Clear example_full) !! p = None) /\
  avl_elements (s_clients (w_src (force Clear example_full))) = [] /\
  avl_elements (s_pending (w_src (force Clear example_full))) = [] /\
  s_queue (w_src (force Clear example_full)) = Queue None None None 0 0.
Proof.
  assert (chain (w_heap example_full) (q_data (s_queue (w_src example_full)))
    [5%positive; 6%positive]) as C.
  { assert (q_data (s_queue (w_src example_full)) = Some 5%positive) as -> by (vm_compute; reflexivity).
    eapply chain_cons; [vm_compute; reflexivity| |].
    - cbn. eapply chain_cons; [vm_compute; reflexivity|constructor|by apply not_elem_of_nil].
    - intros [?|?%not_elem_of_nil]%elem_of_cons; discriminate || done. }
  split; [exact C|].
  apply (clear_frees_queue example_full); [apply example_full_reachable|exact C|].
  apply force_exec; [apply example_full_reachable|done].
Defined.
