(* ===== verification/SourceRead.v ===== *)
(** The reading of a source, [get_next_buffer] of [source.c], and the main loop
    of [source_main] with it.

    What the socket, the clock and the format plugin do in a turn is a script;
    the streaming part of the loop is that of [Source.v]. *)

From S2P Require Import Prelude Refbuf AvlTree Source SourceInv SourceClient SourceLoop SourceSpec SourceRun.
Local Open Scope Z_scope.

(** A turn of the loop that waits for data: whether the server runs, the time,
    what the wait for the socket answers for the time it is given, whether an
    error of it passes, the bytes read so far, and, where there is something to
    read, the buffer of the plugin (its length, and whether it is a sync point),
    whether the connection has failed, and how far TLS is closed. *)
Record wait_turn := WaitTurn {
  rt_running : bool;
  rt_now : Z;
  rt_fds : Z -> Z;
  rt_recoverable : bool;
  rt_read_bytes : Z;
  rt_buffer : option (Z * bool);
  rt_error : bool;
  rt_tls_shutdown : Z
}.

Section read.
Context {T : Type} `{AvlTreeOk T}.
Implicit Types w : world T.

Definition set_last_read (t : Z) w : world T := w_upd_src (fun s => src_set_times t (s_stats_update s) s) w.

(** The numbers of bytes, told every five seconds. *)
Definition tell_bytes (t : wait_turn) w : world T :=
  let s := w_src w in
  if s_stats_update s <=? rt_now t then
    w_upd_src (fun s => src_set_times (s_last_read s) (rt_now t + 5) s)
      (stats_event (Some (s_mount s)) "total_bytes_sent" (StatSet (s_sent_bytes s))
        (stats_event (Some (s_mount s)) "total_bytes_read" (StatSet (rt_read_bytes t)) w))
  else w.

Definition stop w : world T := w_upd_src (src_set_running false) w.

Definition connection_failed (t : wait_turn) : bool := rt_error t || (1 <? rt_tls_shutdown t).

(** [get_next_buffer]: the buffer, if there is one; [None] where the turns are
    over before it returns. *)
Fixpoint get_next_buffer (delay : Z) (ts : list wait_turn) (refbuf : option (Z * bool)) w
    : option (option (Z * bool) * world T) :=
  match ts with
  | [] => if s_running (w_src w) then None else Some (refbuf, w)
  | t :: r =>
      if negb (rt_running t && s_running (w_src w)) then Some (refbuf, w)
      else
        let fds := if s_client (w_src w) then rt_fds t delay else 0 in
        let w := if s_client (w_src w) then w else set_last_read (rt_now t) w in
        let w := tell_bytes t w in
        if fds <? 0 then Some (refbuf, if rt_recoverable t then w else stop w)
        else if fds =? 0 then
          Some (refbuf, if s_last_read (w_src w) + timeout (s_settings (w_src w)) <? rt_now t then stop w else w)
        else
          let w := set_last_read (rt_now t) w in
          if connection_failed t then get_next_buffer delay r (rt_buffer t) (stop w)
          else match rt_buffer t with
               | Some b => Some (Some b, w)
               | None => get_next_buffer delay r None w
               end
  end.

(** One turn of [source_main]: the reading, and what is done with it. *)
Definition source_turn (ts : list wait_turn) (ios : Z -> nat -> io) w : option (world T) :=
  '(buffer, w) ← get_next_buffer (if s_short_delay (w_src w) then 0 else 250) ts None w;
  exec (Turn buffer ios) w.

(** The loop of [source_main]; each turn begins with a look at the server. *)
Record main_turn := MainTurn { mt_running : bool; mt_reads : list wait_turn; mt_ios : Z -> nat -> io }.
Fixpoint source_main_loop (ms : list main_turn) w : option (world T) :=
  match ms with
  | [] => Some w
  | m :: r =>
      if mt_running m && s_running (w_src w) then w ← source_turn (mt_reads m) (mt_ios m) w; source_main_loop r w
      else Some w
  end.

(** ** One reading *)

(** What a reading leaves as it is. *)
Definition same_stream w w' : Prop :=
  w_heap w' = w_heap w /\ w_conns w' = w_conns w /\ w_answers w' = w_answers w /\
  w_src w' = src_set_running (s_running (w_src w')) (src_set_times (s_last_read (w_src w')) (s_stats_update (w_src w')) (w_src w)).

Lemma same_stream_refl w : same_stream w w.
Proof. split_and!; try done; by destruct w as [? ? []]. Qed.
Lemma same_stream_trans w1 w2 w3 : same_stream w1 w2 -> same_stream w2 w3 -> same_stream w1 w3.
Proof.
  intros (A1 & A2 & A3 & A4) (B1 & B2 & B3 & B4). split_and!; try congruence. rewrite B4, A4. done.
Qed.
Lemma same_stream_read t w : same_stream w (set_last_read t w).
Proof. split_and!; try done; by destruct w as [? ? []]. Qed.
Lemma same_stream_tell t w : same_stream w (tell_bytes t w).
Proof. unfold tell_bytes. destruct (_ <=? _); [|apply same_stream_refl]. split_and!; try done; by destruct w as [? ? []]. Qed.
Lemma same_stream_stop w : same_stream w (stop w).
Proof. split_and!; try done; by destruct w as [? ? []]. Qed.

Lemma same_stream_fields w w' : same_stream w w' ->
  s_client (w_src w') = s_client (w_src w) /\ s_settings (w_src w') = s_settings (w_src w) /\
  s_queue (w_src w') = s_queue (w_src w) /\ s_clients (w_src w') = s_clients (w_src w) /\
  s_pending (w_src w') = s_pending (w_src w) /\ s_counts (w_src w') = s_counts (w_src w).
Proof. intros (_ & _ & _ & ->). done. Qed.

Lemma get_next_buffer_same delay ts : forall refbuf w b w',
  get_next_buffer delay ts refbuf w = Some (b, w') -> same_stream w w'.
Proof.
  induction ts as [|t r IH]; intros refbuf w b w'; cbn [get_next_buffer].
  { destruct (s_running _); [done|]. intros [= <- <-]. apply same_stream_refl. }
  destruct (negb _); [intros [= <- <-]; apply same_stream_refl|].
  set (w1 := if s_client (w_src w) then w else _).
  assert (same_stream w (tell_bytes t w1)) as S.
  { eapply same_stream_trans; [|apply same_stream_tell]. unfold w1. destruct (s_client _); [apply same_stream_refl|apply same_stream_read]. }
  destruct (_ <? 0).
  { intros [= <- <-]. destruct (rt_recoverable t); [done|]. eapply same_stream_trans; [exact S|apply same_stream_stop]. }
  destruct (_ =? 0).
  { intros [= <- <-]. destruct (_ <? rt_now t); [|done]. eapply same_stream_trans; [exact S|apply same_stream_stop]. }
  pose proof (same_stream_trans _ _ _ S (same_stream_read (rt_now t) _)) as S2.
  destruct (connection_failed t).
  { intros E. apply IH in E. eapply same_stream_trans; [|exact E]. eapply same_stream_trans; [exact S2|apply same_stream_stop]. }
  destruct (rt_buffer t) as [b0|]; [by intros [= <- <-]|]. intros E. apply IH in E. by eapply same_stream_trans.
Qed.

(** A turn after which there is nothing to wait for any more. *)
Definition decides (delay : Z) (client : bool) (t : wait_turn) : bool :=
  negb (rt_running t) || negb client || (rt_fds t delay <=? 0) || connection_failed t || bool_decide (is_Some (rt_buffer t)).

Lemma get_next_buffer_ends delay ts : forall refbuf w,
  existsb (decides delay (s_client (w_src w))) ts = true -> is_Some (get_next_buffer delay ts refbuf w).
Proof.
  induction ts as [|t r IH]; intros refbuf w E; cbn [existsb get_next_buffer] in *; [done|].
  destruct (rt_running t && s_running (w_src w)) eqn:R; cbn [negb]; [|by eexists]. apply andb_true_iff in R as [R R'].
  unfold decides in E at 1. rewrite R in E. cbn [negb orb] in E.
  set (w1 := if s_client (w_src w) then w else _) in *.
  pose proof (same_stream_fields _ _ (same_stream_tell t w1)) as (C1 & _).
  assert (s_client (w_src (tell_bytes t w1)) = s_client (w_src w)) as C by (rewrite C1; subst w1; by case_match).
  destruct (s_client (w_src w)) eqn:Cl; cbn [negb orb] in E; [|by eexists].
  destruct (Z.ltb_spec (rt_fds t delay) 0); [by eexists|]. destruct (Z.eqb_spec (rt_fds t delay) 0); [by eexists|].
  destruct (Z.leb_spec (rt_fds t delay) 0); [lia|]. cbn [orb] in E.
  destruct (connection_failed t).
  - destruct r as [|t' r]; cbn [get_next_buffer]; [by eexists|]. cbn. rewrite andb_false_r. by eexists.
  - cbn [orb] in E. destruct (rt_buffer t) as [b|]; [by eexists|]. apply IH. cbn in *. by rewrite C.
Qed.

Lemma last_shift {A} (a d : A) l : List.last (a :: l) d = List.last l a.
Proof. revert a d. induction l as [|x l IH]; intros a d; [done|]. change (List.last (x :: l) d = List.last (x :: l) a). by rewrite !IH. Qed.

(** What a call answers, with the last time data was read. *)
Definition answer_of (delay last_read : Z) (limit : Z) (t : wait_turn) : option (Z * bool) * bool :=
  if negb (rt_running t) then (None, true)
  else if rt_fds t delay <? 0 then (None, rt_recoverable t)
  else if rt_fds t delay =? 0 then (None, negb (last_read + limit <? rt_now t))
  else (rt_buffer t, negb (connection_failed t)).

(** A turn with something to read that is not a whole buffer yet. *)
Definition partial (delay : Z) (t : wait_turn) : bool :=
  rt_running t && (0 <? rt_fds t delay) && negb (connection_failed t) && bool_decide (rt_buffer t = None).

(** the reading of a source.  A call for the next buffer goes on for as
    long as there is something to read that makes no buffer, and the first turn
    that is different decides it: with a buffer, which it returns even where the
    connection fails behind it, with a failure, with the end of the server, or
    with silence.  The source is stopped by a failure of the socket or the
    connection and by silence exactly when nothing was read for longer than its
    timeout; the streaming state stays as it is. *)
Theorem source_reads delay ts w b w' :
  s_running (w_src w) = true -> s_client (w_src w) = true ->
  get_next_buffer delay ts None w = Some (b, w') ->
  same_stream w w' /\
  exists pre t post, ts = pre ++ t :: post /\ forallb (partial delay) pre = true /\ partial delay t = false /\
    (b, s_running (w_src w')) =
      answer_of delay (List.last (map rt_now pre) (s_last_read (w_src w))) (timeout (s_settings (w_src w))) t.
Proof.
  intros R C E. split; [by eapply get_next_buffer_same|]. revert w R C E.
  induction ts as [|t r IH]; intros w R C; cbn [get_next_buffer]; rewrite R, ?C; [done|]. rewrite andb_true_r.
  pose proof (same_stream_tell t w) as S. pose proof (same_stream_fields _ _ S) as (C1 & S1 & _).
  assert (s_running (w_src (tell_bytes t w)) = true /\ s_last_read (w_src (tell_bytes t w)) = s_last_read (w_src w)) as [R1 L1]
    by (unfold tell_bytes; by destruct (_ <=? _)).
  assert (forall b w', partial delay t = false -> (b, s_running (w_src w')) = answer_of delay (s_last_read (w_src w)) (timeout (s_settings (w_src w))) t ->
    exists pre t0 post, t :: r = pre ++ t0 :: post /\ forallb (partial delay) pre = true /\ partial delay t0 = false /\
    (b, s_running (w_src w')) = answer_of delay (List.last (map rt_now pre) (s_last_read (w_src w))) (timeout (s_settings (w_src w))) t0) as Here.
  { intros b0 w0 P A. exists [], t, r. by split_and!. }
  unfold partial, answer_of in Here. destruct (rt_running t) eqn:Rt; cbn [negb andb] in *; [|intros [= <- <-]; apply Here; [done|by rewrite R]].
  destruct (Z.ltb_spec (rt_fds t delay) 0).
  { destruct (Z.ltb_spec 0 (rt_fds t delay)); [lia|]. cbn [andb] in Here. intros [= <- <-]. apply Here; [done|].
    destruct (rt_recoverable t); [by rewrite R1|done]. }
  destruct (Z.eqb_spec (rt_fds t delay) 0).
  { destruct (Z.ltb_spec 0 (rt_fds t delay)); [lia|]. cbn [andb] in Here. intros [= <- <-]. apply Here; [done|].
    rewrite L1, S1. destruct (s_last_read (w_src w) + timeout (s_settings (w_src w)) <? rt_now t); [done|by rewrite R1]. }
  destruct (Z.ltb_spec 0 (rt_fds t delay)); [|lia]. cbn [andb] in Here. destruct (connection_failed t) eqn:F; cbn [negb andb] in Here.
  { intros E. apply Here; [done|]. assert (b = rt_buffer t /\ s_running (w_src w') = false) as [-> ->]; [|done].
    destruct r as [|t' r]; cbn in E; rewrite ?andb_false_r in E; cbn in E; by injection E as <- <-. }
  destruct (rt_buffer t) as [b0|] eqn:B.
  { intros [= <- <-]. apply Here; [done|]. f_equal. exact R1. }
  intros E. apply IH in E as (pre & t0 & post & -> & Pp & P0 & A); [|exact R1|by rewrite <- C, <- C1].
  exists (t :: pre), t0, post. split_and!; [done| |done|].
  - cbn [forallb]. rewrite Pp. unfold partial. rewrite Rt, F, B. destruct (Z.ltb_spec 0 (rt_fds t delay)); [done|lia].
  - rewrite A. cbn [map]. rewrite last_shift. cbn. by rewrite S1.
Qed.

(** ** The main loop *)

Lemma sound_same w w' : same_stream w w' -> sound w none -> sound w' none.
Proof.
  intros S (own & pre & burst & L). pose proof (same_stream_fields _ _ S) as (_ & _ & Q & Cl & P & N). destruct S as (Hh & Hc & _).
  exists own, pre, burst. unfold source_ok in *. rewrite P. eapply (loop_ok_frame w); try done. by rewrite N.
Qed.

Definition legal_read (t : wait_turn) : Prop := match rt_buffer t with Some (len, _) => 0 <= len < 2 ^ 32 | None => True end.

Lemma get_next_buffer_legal delay ts : forall refbuf w b w' ios,
  get_next_buffer delay ts refbuf w = Some (b, w') -> Forall legal_read ts -> legal (Turn refbuf ios) w -> legal (Turn b ios) w'.
Proof.
  induction ts as [|t r IH]; intros refbuf w b w' ios E F L; cbn [get_next_buffer] in E.
  { destruct (s_running _); [done|]. injection E as <- <-. exact L. }
  apply Forall_cons in F as [Ft F]. destruct (negb _); [injection E as <- <-; exact L|].
  destruct (_ <? 0); [injection E as <- <-; exact L|]. destruct (_ =? 0); [injection E as <- <-; exact L|].
  destruct (connection_failed t); [eapply IH; [exact E|exact F|exact Ft]|].
  destruct (rt_buffer t) as [b0|] eqn:B; [|eapply IH; [exact E|exact F|exact I]].
  injection E as <- <-. unfold legal_read in Ft. rewrite B in Ft. exact Ft.
Qed.

(** Every wait of a turn comes to an end, and the plugin's buffers have the
    length of a buffer. *)
Definition turn_ends (m : main_turn) : Prop :=
  (forall delay, existsb (decides delay true) (mt_reads m) = true) /\ Forall legal_read (mt_reads m).

Lemma decides_any delay client ts : existsb (decides delay true) ts = true -> existsb (decides delay client) ts = true.
Proof.
  destruct client; [done|]. destruct ts as [|t r]; [done|]. intros _. cbn [existsb]. unfold decides at 1. cbn [negb].
  by rewrite orb_true_r.
Qed.

Lemma source_turn_ok m w :
  sound w none -> turn_ends m -> exists w', source_turn (mt_reads m) (mt_ios m) w = Some w' /\ sound w' none.
Proof.
  intros S (E0 & F). unfold source_turn.
  destruct (get_next_buffer_ends (if s_short_delay (w_src w) then 0 else 250) (mt_reads m) None w) as [[b w1] E]; [by apply decides_any|].
  rewrite E. run_bind. apply exec_ok; [by eapply sound_same; [eapply get_next_buffer_same|]|]. by eapply get_next_buffer_legal.
Qed.

(** A source that is stopped stays so. *)
Lemma turn_stopped buffer ios w w' :
  sound w none -> legal (Turn buffer ios) w -> exec (Turn buffer ios) w = Some w' ->
  s_running (w_src w) = false -> s_running (w_src w') = false.
Proof.
  intros S Hl E R. destruct (deliver_ok buffer ios w Hl S) as (p & w1 & frame & Ed & (own & pre & burst & L) & D & _ & Es).
  destruct (source_iteration_ok p ios w1 own frame pre burst L D) as (w2 & E2 & K).
  cbn [exec] in E. rewrite Ed, E2 in E. cbn in E. injection E as <-. apply (tn_stopped _ _ _ _ K). by rewrite Es.
Qed.

Lemma source_main_sound ms w :
  sound w none -> Forall turn_ends ms -> exists w', source_main_loop ms w = Some w' /\ sound w' none.
Proof.
  revert w. induction ms as [|m r IH]; intros w S F; cbn [source_main_loop]; [by exists w|]. apply Forall_cons in F as [Fm F].
  destruct (_ && _); [|by exists w]. destruct (source_turn_ok m w S Fm) as (w1 & -> & S1). run_bind. by apply IH.
Qed.

(** A turn that finds the source silent for longer than its timeout. *)
Definition silent (t : wait_turn) w : Prop :=
  rt_running t = true /\ (forall delay, rt_fds t delay = 0) /\ s_last_read (w_src w) + timeout (s_settings (w_src w)) < rt_now t.

End read.

(** ** A run *)

(** A source that reads, whose listener is served, and that falls silent. *)
Definition demo_read (now fds : Z) (buffer : option (Z * bool)) : wait_turn :=
  WaitTurn true now (fun _ => fds) true 4096 buffer false 0.
Definition demo_main : list main_turn :=
  [MainTurn true [demo_read 100 0 None] (example_ios true)].
Definition demo_main_long : list main_turn :=
  [MainTurn true [demo_read 1 1 None; demo_read 2 1 (Some (100, true))] (example_ios true);
   MainTurn true [demo_read 5 0 None] (example_ios true);
   MainTurn true [demo_read 13 0 None] (example_ios true);
   MainTurn true [] (example_ios true)].

Lemma demo_reachable : reachable (force (Connect 7) example_start).
Proof. apply force_reachable; [|vm_compute; reflexivity]. apply reach_idle, example_start_idle. Qed.


(** The whole of it: one buffer in the queue, the reading last at 2, the end
    at 13. *)
Example demo_main_long_run :
  (fun w => (s_last_read (w_src w), s_running (w_src w), q_size (s_queue (w_src w)))) <$>
    source_main_loop demo_main_long (force (Connect 7) example_start) = Some (2, false, 100).
Proof. vm_compute. reflexivity. Qed.

Lemma source_reads_witness :
  exists b w', get_next_buffer 250 [demo_read 1 1 None; demo_read 2 1 (Some (100, true))] None example_start = Some (b, w') /\
    b = Some (100, true) /\ same_stream example_start w'.
Proof.
  destruct (get_next_buffer 250 [demo_read 1 1 None; demo_read 2 1 (Some (100, true))] None example_start) as [[b w']|] eqn:E.
  - destruct (source_reads 250 [demo_read 1 1 None; demo_read 2 1 (Some (100, true))] example_start b w' eq_refl eq_refl E) as [S _].
    exists b, w'. split; [reflexivity|]. split; [|exact S]. vm_compute in E. by injection E as <- _.
  - exfalso. vm_compute in E. discriminate E.
Defined.
