(* ===== verification/Main.v ===== *)
(** The start and the end of the process, [main.c], with the handlers of
    signals.

    The calls of the system are parameters: their answers are arbitrary, but
    for the changes of identity, which do what they say where they succeed.
    What the process does is a list of steps, each with the identity it has
    then. *)

From S2P Require Import Prelude Convert.
Local Open Scope Z_scope.

(** ** The process *)

Inductive subsystem :=
| S_log | S_thread | S_sock | S_resolver | S_config | S_tls | S_connection | S_global | S_refbuf | S_xslt | S_curl
| S_stats | S_fserve | S_signals | S_yp | S_slave | S_auth | S_event.

#[export] Instance subsystem_eq_dec : EqDecision subsystem.
Proof. solve_decision. Defined.

(** Who the process is: user, group, the user whose supplementary groups it
    has, and the directory that is its root. *)
Record identity := Identity { id_uid : Z; id_gid : Z; id_groups : option string; id_root : option string }.

Inductive step :=
| Initialize (s : subsystem)
| Shutdown (s : subsystem)
| ParseConfig (filename : string)
| SetupSockets
| Listen
| WritePidfile (name : string)
| RemovePidfile (name : string)
| OpenLog (name : string)
| StopLogging
| Say (text : string)
| Emit (trigger : string)
| Serve                            (** [connection_accept_loop] *)
| CloseSockets
| CloseStandard.                   (** the standard streams *)

(** The settings the start looks at. *)
Record main_config := MainConfig {
  mc_chuid : bool;
  mc_user : option string;
  mc_group : option string;
  mc_chroot : bool;
  mc_base_dir : string;
  mc_pidfile : option string;
  mc_log_dir : string;
  mc_error_log : string;
  mc_access_log : string;
  mc_playlist_log : option string;
  mc_sane_hostname : bool
}.

(** The system: what its calls answer. *)
Record system := System {
  sys_fork : Z;
  sys_config : string -> main_config + Z;     (** the settings of a file, or the error *)
  sys_sockets : Z;                            (** how many could be bound *)
  sys_listen : bool;
  sys_log_stderr : Z;
  sys_log_open : string -> Z;
  sys_getpwnam : string -> option Z;
  sys_getgrnam : string -> option Z;
  sys_chroot : bool;
  sys_chdir : bool;
  sys_setgid : bool;
  sys_initgroups : bool;
  sys_setuid : bool;
  sys_hostname : option string;
  sys_uname : option string
}.

(** The state of a run: the identity, and the steps with the identity they were
    taken with. *)
Record run := Run { r_identity : identity; r_steps : list (step * identity) }.

(** A part of the program: it goes on with a result, or the process ends with a
    code. *)
Definition prog (A : Type) : Type := run -> (A + Z) * run.
Definition ret {A} (a : A) : prog A := fun r => (inl a, r).
Definition exit {A} (code : Z) : prog A := fun r => (inr code, r).
Definition bind {A B} (p : prog A) (f : A -> prog B) : prog B :=
  fun r => match p r with (inl a, r) => f a r | (inr code, r) => (inr code, r) end.
Definition do_ (s : step) : prog unit := fun r => (inl tt, Run (r_identity r) (r_steps r ++ [(s, r_identity r)])).
Definition become (f : identity -> identity) : prog unit := fun r => (inl tt, Run (f (r_identity r)) (r_steps r)).
Definition who : prog identity := fun r => (inl (r_identity r), r).

Declare Scope prog_scope.
Delimit Scope prog_scope with prog.
Notation "x <- p ;; q" := (bind p (fun x => q%prog)) (at level 100, p at next level, right associativity, only parsing) : prog_scope.
Notation "p ;; q" := (bind p (fun _ => q%prog)) (at level 100, right associativity, only parsing) : prog_scope.
Local Open Scope prog_scope.

Fixpoint each {A} (f : A -> prog unit) (l : list A) : prog unit :=
  match l with [] => ret tt | x :: r => f x ;; each f r end.

(** ** Parts *)

Definition initialize_subsystems : prog unit :=
  each (fun s => do_ (Initialize s)) [S_log; S_thread; S_sock; S_resolver; S_config; S_tls; S_connection; S_global; S_refbuf; S_xslt; S_curl].

Definition shutdown_subsystems : prog unit :=
  each (fun s => do_ (Shutdown s))
    [S_event; S_fserve; S_refbuf; S_slave; S_auth; S_yp; S_stats; S_global; S_connection; S_tls; S_config; S_resolver; S_sock; S_thread; S_curl] ;;
  do_ StopLogging ;; do_ (Shutdown S_log) ;; do_ (Shutdown S_xslt).

(** [_parse_config_opts]: the file name, if there is one, and whether to run in
    the background. *)
Fixpoint parse_opts (y : system) (argv : list string) (filename : option string) (background : bool) : prog (option string * bool) :=
  match argv with
  | [] => ret (filename, background)
  | a :: r =>
      background <- (if streq a "-b" then
                       do_ (Say "Starting icecast2") ;;
                       (if 0 <? sys_fork y then exit 0
                        else if sys_fork y <? 0 then do_ (Say "FATAL: Unable to fork child!") ;; exit 1
                        else ret true)
                     else ret background) ;;
      (if streq a "-v" || streq a "--version" then do_ (Say "Icecast") ;; exit 0
       else
         if streq a "-c" then
           match r with
           | [] => ret (None, background)
           | f :: _ => parse_opts y r (Some (string_take 511 f)) background
           end
         else parse_opts y r filename background)
  end.

(** [_start_logging]: whether the logs for errors and for accesses are open.
    The log for errors is that of the standard error where it is [-]. *)
Definition log_path (c : main_config) (name : string) : string := string_take 4095 (mc_log_dir c +:+ "/" +:+ name)%string.
Definition open_log (y : system) (c : main_config) (name : string) : prog Z :=
  do_ (OpenLog (log_path c name)) ;; ret (sys_log_open y (log_path c name)).
Definition start_logging (y : system) (c : main_config) : prog bool :=
  errorlog <- (if streq (mc_error_log c) "-" then ret (sys_log_stderr y) else open_log y c (mc_error_log c)) ;;
  (if errorlog <? 0 then do_ (Say "FATAL: could not open error logging") else ret tt) ;;
  accesslog <- (if streq (mc_access_log c) "-" then ret (sys_log_stderr y) else open_log y c (mc_access_log c)) ;;
  (if accesslog <? 0 then do_ (Say "FATAL: could not open access logging") else ret tt) ;;
  (match mc_playlist_log c with
   | Some p =>
       playlistlog <- open_log y c p ;;
       (if playlistlog <? 0 then do_ (Say "FATAL: could not open playlist logging") else ret tt)
   | None => ret tt
   end) ;;
  ret ((0 <=? errorlog) && (0 <=? accesslog)).

(** [_server_proc_init]. *)
Definition server_proc_init (y : system) (c : main_config) : prog bool :=
  do_ SetupSockets ;;
  (if sys_sockets y <? 1 then ret false
   else
     do_ Listen ;;
     (if negb (sys_listen y) then do_ (Say "Failed trying to listen on server socket") ;; ret false
      else
        (match mc_pidfile c with Some p => do_ (WritePidfile p) | None => ret tt end) ;;
        ret true)).

(** [_server_proc]. *)
Definition server_proc (background : bool) : prog unit :=
  (if background then do_ CloseStandard else ret tt) ;;
  do_ Serve ;; do_ CloseSockets.

(** [_ch_root_uid_setup]. *)
Definition change_root (y : system) (c : main_config) : prog bool :=
  if mc_chroot c then
    me <- who ;;
    (if negb (id_uid me =? 0) then do_ (Say "WARNING: Cannot change server root unless running as root.") else ret tt) ;;
    (if sys_chroot y then
       become (fun i => Identity (id_uid i) (id_gid i) (id_groups i) (Some (mc_base_dir c))) ;;
       (if sys_chdir y then do_ (Say "Changed root successfully") ;; ret true
        else do_ (Say "WARNING: Couldn't change server root") ;; ret false)
     else do_ (Say "WARNING: Couldn't change server root") ;; ret false)
  else ret true.

Definition lookup_id (find : string -> option Z) (text : string) (name : option string) : prog Z :=
  match name with
  | Some n => match find n with Some k => ret k | None => do_ (Say (text +:+ n)%string) ;; ret (-1) end
  | None => ret (-1)
  end.

Definition change_owner (y : system) (c : main_config) (uid gid : Z) : prog unit :=
  me <- who ;;
  (if negb (id_uid me =? 0) then do_ (Say "WARNING: Can't change user id unless you are root.")
   else if negb (uid =? -1) && negb (gid =? -1) then
     (if sys_setgid y then become (fun i => Identity (id_uid i) gid (id_groups i) (id_root i)) ;; do_ (Say "Changed groupid")
      else do_ (Say "Error changing groupid")) ;;
     (if sys_initgroups y then become (fun i => Identity (id_uid i) (id_gid i) (mc_user c) (id_root i)) ;; do_ (Say "Changed supplementary groups")
      else do_ (Say "Error changing supplementary groups")) ;;
     (if sys_setuid y then become (fun i => Identity uid (id_gid i) (id_groups i) (id_root i)) ;; do_ (Say "Changed userid")
      else do_ (Say "Error changing userid"))
   else ret tt).

Definition ch_root_uid_setup (y : system) (c : main_config) : prog unit :=
  uid <- (if mc_chuid c then lookup_id (sys_getpwnam y) "Couldn't find user " (mc_user c) else ret (-1)) ;;
  gid <- (if mc_chuid c then lookup_id (sys_getgrnam y) "Couldn't find group " (mc_group c) else ret (-1)) ;;
  ok <- change_root y c ;;
  (if negb ok then ret tt else if mc_chuid c then change_owner y c uid gid else ret tt).

(** [__log_system_name]: the hint about the name. *)
Definition log_system_name (y : system) (c : main_config) : prog unit :=
  let hostname := match sys_hostname y with Some h => Some h | None => sys_uname y end in
  match hostname with
  | Some h =>
      if negb (mc_sane_hostname c) && match util_hostcheck (Some h) with HOSTCHECK_SANE => true | _ => false end
      then do_ (Say ("Hostname is not set to anything useful in <hostname>, Consider setting it to the system's name " +:+ h)%string)
      else ret tt
  | None => ret tt
  end.

(** A failure of the start. *)
Definition fatal {A} (text : string) : prog A := do_ (Say text) ;; shutdown_subsystems ;; exit 1.

(** The text for an error of the configuration. *)
Definition config_error (code : Z) : string :=
  if code =? -1 then "filename was null or blank" else if code =? -2 then "no root element found"
  else if code =? -3 then "root element is not <icecast>" else "XML config parsing error".

(** [main], from the handlers of signals on. *)
Definition serve_clients (y : system) (c : main_config) (background : bool) : prog unit :=
  do_ (Initialize S_signals) ;;
  logging <- start_logging y c ;;
  (if negb logging then fatal "FATAL: Could not start logging" else ret tt) ;;
  log_system_name y c ;;
  each (fun s => do_ (Initialize s)) [S_yp; S_slave; S_auth; S_event] ;;
  do_ (Emit "icecast-start") ;;
  server_proc background ;;
  do_ (Emit "icecast-stop") ;;
  shutdown_subsystems ;;
  match mc_pidfile c with Some p => do_ (RemovePidfile p) | None => ret tt end.

(** [main]. *)
Definition main (y : system) (argv : list string) : prog unit :=
  opts <- (match argv with [] => ret (None, false) | _ => parse_opts y argv None false end) ;;
  match fst opts with
  | None => do_ (Say "usage: icecast [-b] -c <file>") ;; exit 1
  | Some filename =>
      initialize_subsystems ;;
      (if sys_log_stderr y <? 0 then fatal "FATAL: Could not start logging on stderr." else ret tt) ;;
      do_ (ParseConfig filename) ;;
      match sys_config y filename with
      | inr code => do_ (Say "FATAL: error parsing config file") ;; fatal (config_error code)
      | inl c =>
          up <- server_proc_init y c ;;
          (if negb up then fatal "Server startup failed. Exiting" else ret tt) ;;
          ch_root_uid_setup y c ;;
          do_ (Initialize S_stats) ;; do_ (Initialize S_fserve) ;;
          me <- who ;;
          (if id_uid me =? 0 then fatal "ERROR: You should not run icecast2 as root" else ret tt) ;;
          serve_clients y c (snd opts)
      end
  end.

(** ** The signals *)

(** What matters of [global] to them. *)
Record signalled := Signalled { g_running : bool; g_schedule_config_reread : bool }.
Definition sig_hup (g : signalled) : signalled := Signalled (g_running g) true.
Definition sig_die (g : signalled) : signalled := Signalled false (g_schedule_config_reread g).

(** ** Reasoning about runs *)

(** What of a run concerns the subsystems and the service. *)
Definition relevant (s : step) : bool := match s with Initialize _ | Shutdown _ | Serve => true | _ => false end.
Definition trace (r : run) : list step := List.filter relevant (map fst (r_steps r)).
(** Who has served. *)
Definition served (r : run) : list identity := omap (fun p => match p.1 with Serve => Some p.2 | _ => None end) (r_steps r).

Definition triple {A} (P : run -> Prop) (p : prog A) (Q : A -> run -> Prop) (E : Z -> run -> Prop) : Prop :=
  forall r, P r -> match p r with (inl a, r') => Q a r' | (inr code, r') => E code r' end.

Section rules.
Context {A B : Type} (E : Z -> run -> Prop).

Lemma triple_ret (P : run -> Prop) (a : A) (Q : A -> run -> Prop) : (forall r, P r -> Q a r) -> triple P (ret a) Q E.
Proof. intros H r. apply H. Qed.
Lemma triple_exit (P : run -> Prop) code (Q : A -> run -> Prop) : (forall r, P r -> E code r) -> triple P (exit code) Q E.
Proof. intros H r. apply H. Qed.
Lemma triple_bind (P : run -> Prop) (p : prog A) (f : A -> prog B) (M : A -> run -> Prop) (Q : B -> run -> Prop) :
  triple P p M E -> (forall a, triple (M a) (f a) Q E) -> triple P (bind p f) Q E.
Proof.
  intros H K r Pr. specialize (H r Pr). unfold bind. destruct (p r) as [[a|code] r']; [by apply K|done].
Qed.
Lemma triple_weaken (P P' : run -> Prop) (p : prog A) (Q Q' : A -> run -> Prop) :
  (forall r, P' r -> P r) -> (forall a r, Q a r -> Q' a r) -> triple P p Q E -> triple P' p Q' E.
Proof.
  intros HP HQ H r Pr. specialize (H r (HP r Pr)). destruct (p r) as [[a|code] r']; [by apply HQ|done].
Qed.
End rules.

(** A part that leaves the trace and those that have served, and, where it is
    [still], who the process is. *)
Definition quiet {A} (still : bool) (p : prog A) : Prop :=
  forall r, match p r with (res, r') =>
    trace r' = trace r /\ served r' = served r /\ (still = true -> r_identity r' = r_identity r) /\ exists a, res = inl a end.

Lemma trace_do s r : trace (snd (do_ s r)) = trace r ++ (if relevant s then [s] else []).
Proof.
  unfold trace. cbn. rewrite map_app. cbn. rewrite List.filter_app. cbn. by destruct (relevant s).
Qed.
Lemma served_do s r : served (snd (do_ s r)) = served r ++ match s with Serve => [r_identity r] | _ => [] end.
Proof. unfold served. cbn [do_ snd r_steps]. rewrite omap_app. by destruct s. Qed.

Lemma quiet_ret {A} b (a : A) : quiet b (ret a).
Proof. intros r. split_and!; [done|done|done|by exists a]. Qed.
Lemma quiet_bind {A B} b (p : prog A) (f : A -> prog B) : quiet b p -> (forall a, quiet b (f a)) -> quiet b (bind p f).
Proof.
  intros H K r. unfold bind. specialize (H r). destruct (p r) as [res r']. destruct H as (H1 & H2 & H3 & a & ->).
  specialize (K a r'). destruct (f a r') as [res' r'']. destruct K as (K1 & K2 & K3 & K4).
  split_and!; [congruence|congruence|intros Hb; by rewrite K3, H3|done].
Qed.
Lemma quiet_do b s : relevant s = false -> quiet b (do_ s).
Proof.
  intros R r. pose proof (trace_do s r) as T. pose proof (served_do s r) as S. rewrite R in T. rewrite app_nil_r in T.
  assert (served (snd (do_ s r)) = served r) as S' by (rewrite S; destruct s; try done; by rewrite app_nil_r).
  change (trace (snd (do_ s r)) = trace r /\ served (snd (do_ s r)) = served r /\ (b = true -> r_identity r = r_identity r) /\ exists a, @inl unit Z tt = inl a).
  split_and!; [done|done|done|by exists tt].
Qed.
Lemma quiet_become f : quiet false (become f).
Proof. intros r. split_and!; [done|done|done|by exists tt]. Qed.
Lemma quiet_who b : quiet b who.
Proof. intros r. split_and!; [done|done|done|by eexists]. Qed.

(** The parts are quiet step by step. *)
Ltac quiet_parts :=
  repeat first [ apply quiet_bind; intros | apply quiet_ret | apply quiet_become | apply quiet_who
               | (apply quiet_do; reflexivity)
               | match goal with |- quiet _ (if ?b then _ else _) => destruct b end
               | match goal with |- quiet _ (match ?o with Some _ => _ | None => _ end) => destruct o end ].

Lemma quiet_ch_root_uid_setup y c : quiet false (ch_root_uid_setup y c).
Proof. unfold ch_root_uid_setup, change_root, change_owner, lookup_id. quiet_parts. Qed.
Lemma quiet_server_proc_init b y c : quiet b (server_proc_init y c).
Proof. unfold server_proc_init. quiet_parts. Qed.
Lemma quiet_start_logging b y c : quiet b (start_logging y c).
Proof. unfold start_logging, open_log. quiet_parts. Qed.
Lemma quiet_log_system_name b y c : quiet b (log_system_name y c).
Proof. unfold log_system_name. quiet_parts. Qed.

(** ** What a run of the server does *)

Definition early : list subsystem := [S_log; S_thread; S_sock; S_resolver; S_config; S_tls; S_connection; S_global; S_refbuf; S_xslt; S_curl].
Definition late : list subsystem := [S_yp; S_slave; S_auth; S_event].
Definition downs : list subsystem :=
  [S_event; S_fserve; S_refbuf; S_slave; S_auth; S_yp; S_stats; S_global; S_connection; S_tls; S_config; S_resolver; S_sock; S_thread; S_curl; S_log; S_xslt].

Definition at_trace (t : list step) (sv : list identity) (J : identity -> Prop) (r : run) : Prop :=
  trace r = t /\ served r = sv /\ J (r_identity r).
Definition anyone (_ : identity) : Prop := True.

Lemma triple_still {A} (p : prog A) t sv J E : quiet true p -> triple (at_trace t sv J) p (fun _ => at_trace t sv J) E.
Proof.
  intros H r (T & S & Jr). specialize (H r). destruct (p r) as [res r']. destruct H as (H1 & H2 & H3 & a & ->).
  split_and!; [congruence|congruence|by rewrite H3].
Qed.
Lemma triple_quiet {A} (p : prog A) t sv J E : quiet false p -> triple (at_trace t sv J) p (fun _ => at_trace t sv anyone) E.
Proof.
  intros H r (T & S & Jr). specialize (H r). destruct (p r) as [res r']. destruct H as (H1 & H2 & _ & a & ->).
  split_and!; [congruence|congruence|done].
Qed.

Lemma triple_do s t sv J E : match s with Serve => False | _ => True end ->
  triple (at_trace t sv J) (do_ s) (fun _ => at_trace (t ++ if relevant s then [s] else []) sv J) E.
Proof.
  intros N r (T & S & Jr). change (at_trace (t ++ if relevant s then [s] else []) sv J (snd (do_ s r))).
  split_and!; [by rewrite trace_do, T| |done]. rewrite served_do, S. destruct s; try done; by rewrite app_nil_r.
Qed.

Lemma triple_each (f : subsystem -> step) l : (forall s, relevant (f s) = true /\ f s <> Serve) ->
  forall t sv J E, triple (at_trace t sv J) (each (fun s => do_ (f s)) l) (fun _ => at_trace (t ++ map f l) sv J) E.
Proof.
  intros R. induction l as [|s l IH]; intros t sv J E; cbn [each map].
  - apply triple_ret. intros r. by rewrite app_nil_r.
  - destruct (R s) as [R1 R2]. eapply triple_bind; [apply triple_do; by destruct (f s)|]. intros []. rewrite R1.
    eapply triple_weaken; [done| |apply IH]. intros a r. by rewrite <- app_assoc.
Qed.

Definition inits (l : list subsystem) : list step := map Initialize l.
Definition shuts : list step := map Shutdown downs.

(** The ends a run can come to before it serves: with its code and what it has
    done. *)
Definition refused (code : Z) (r : run) : Prop :=
  served r = [] /\
  (trace r = [] /\ (code = 0 \/ code = 1) \/
   code = 1 /\ (trace r = inits early ++ shuts \/ trace r = inits (early ++ [S_stats; S_fserve]) ++ shuts \/
                trace r = inits (early ++ [S_stats; S_fserve; S_signals]) ++ shuts)).

(** One more step that does not count. *)
Ltac quietly := eapply triple_bind; [apply triple_still, quiet_do; reflexivity|]; intros [].

Lemma triple_shutdown t sv J E : triple (at_trace t sv J) shutdown_subsystems (fun _ => at_trace (t ++ shuts) sv J) E.
Proof.
  unfold shutdown_subsystems. eapply triple_bind; [apply (triple_each Shutdown); intros s; by split|]. intros []. quietly.
  eapply triple_bind; [apply triple_do; exact I|]. intros [].
  eapply triple_weaken; [done| |apply triple_do; exact I]. intros [] r. cbn [relevant]. by rewrite <- !app_assoc.
Qed.

Lemma triple_fatal {A} text t J (Q : A -> run -> Prop) :
  (forall r, at_trace (t ++ shuts) [] J r -> refused 1 r) -> triple (at_trace t [] J) (fatal text) Q refused.
Proof.
  intros H. unfold fatal. quietly. eapply triple_bind; [apply triple_shutdown|]. intros []. by apply triple_exit.
Qed.

(** A check, with what is fatal where it fails. *)
Lemma triple_check (b : bool) text t J :
  (forall r, at_trace (t ++ shuts) [] J r -> refused 1 r) ->
  triple (at_trace t [] J) (if b then fatal text else ret tt) (fun _ => at_trace t [] J) refused.
Proof. intros H. destruct b; [by apply triple_fatal|by apply triple_ret]. Qed.

Lemma triple_parse y J argv : forall filename background,
  triple (at_trace [] [] J) (parse_opts y argv filename background) (fun _ => at_trace [] [] J) refused.
Proof.
  assert (forall code r, code = 0 \/ code = 1 -> at_trace [] [] J r -> refused code r) as X.
  { intros code r C (T & S & _). split; [done|]. left. by split. }
  induction argv as [|a r IH]; intros filename background; cbn [parse_opts]; [by apply triple_ret|].
  eapply (triple_bind _ _ _ _ (fun _ => at_trace [] [] J)).
  - destruct (streq a "-b"); [|by apply triple_ret]. quietly.
    destruct (0 <? sys_fork y); [apply triple_exit; intros; apply X; auto|]. destruct (sys_fork y <? 0); [|by apply triple_ret].
    quietly. apply triple_exit. intros. apply X; auto.
  - intros bg. destruct (_ || _); [quietly; apply triple_exit; intros; apply X; auto|].
    destruct (streq a "-c"); [|apply IH]. destruct r; [by apply triple_ret|apply IH].
Qed.

(** The run that serves, from the first step to the last. *)
Definition full : list step :=
  inits (early ++ [S_stats; S_fserve; S_signals] ++ late) ++ [Serve] ++ shuts.

Lemma refused_at l J r :
  l = early \/ l = early ++ [S_stats; S_fserve] \/ l = early ++ [S_stats; S_fserve; S_signals] ->
  at_trace (inits l ++ shuts) [] J r -> refused 1 r.
Proof. intros H (T & S & _). split; [done|]. right. split; [done|]. destruct H as [->|[->| ->]]; auto. Qed.


Lemma triple_serve t J E : triple (at_trace t [] J) (do_ Serve) (fun _ r => exists j, J j /\ at_trace (t ++ [Serve]) [j] J r) E.
Proof.
  intros r (T & S & Jr). change (exists j, J j /\ at_trace (t ++ [Serve]) [j] J (snd (do_ Serve r))). exists (r_identity r).
  split; [done|]. split_and!; [by rewrite trace_do, T|by rewrite served_do, S|done].
Qed.

(** From the handlers of signals on, one who was let through serves. *)
Lemma triple_serve_clients y c b J :
  let t := inits (early ++ [S_stats; S_fserve]) in
  triple (at_trace t [] J) (serve_clients y c b) (fun _ r => trace r = full /\ exists j, served r = [j] /\ J j) refused.
Proof.
  intros t. unfold serve_clients. eapply triple_bind; [apply triple_do; exact I|]. intros []. cbn [relevant].
  change (t ++ [Initialize S_signals]) with (inits (early ++ [S_stats; S_fserve; S_signals])). set (t1 := inits _).
  eapply triple_bind; [apply triple_still, quiet_start_logging|]. intros logging.
  eapply triple_bind; [apply triple_check; intros r; apply refused_at; auto|]. intros [].
  eapply triple_bind; [apply triple_still, quiet_log_system_name|]. intros [].
  eapply triple_bind; [apply (triple_each Initialize); intros s; by split|]. intros []. quietly.
  unfold server_proc. eapply triple_bind.
  { eapply triple_bind; [apply triple_still; quiet_parts|]. intros []. eapply triple_bind; [apply triple_serve|]. intros [].
    apply (triple_weaken _ _ _ _ (fun _ r => exists j, J j /\ at_trace ((t1 ++ map Initialize late) ++ [Serve]) [j] J r) _ (fun r H => H) (fun _ _ H => H)).
    intros r (j & Jj & P). pose proof (triple_still _ _ [j] J refused (quiet_do true CloseSockets eq_refl) r P) as K.
    destruct (do_ CloseSockets r) as [[[]|code] r']; [by exists j|done]. }
  intros []. intros r (j & Jj & P). revert r P.
  assert (triple (at_trace ((t1 ++ map Initialize late) ++ [Serve]) [j] J)
    (do_ (Emit "icecast-stop") ;; shutdown_subsystems ;; match mc_pidfile c with Some p => do_ (RemovePidfile p) | None => ret tt end)
    (fun _ r => trace r = full /\ exists j, served r = [j] /\ J j) refused) as K; [|exact K].
  quietly. eapply triple_bind; [apply triple_shutdown|]. intros [].
  eapply (triple_weaken _ _ _ _ (fun _ => at_trace full [j] J)); [done| |].
  - intros [] r (T & S & _). split; [done|]. by exists j.
  - destruct (mc_pidfile c); [by apply triple_still, quiet_do|by apply triple_ret].
Qed.

(** C35: the run of the process.  Whatever its arguments, its configuration and
    the answers of the system are, a run either is refused, with a code, having
    done nothing or having shut down all of what it had started, or it starts
    every part, serves once, by then as a user that is not root, and shuts all
    of it down. *)
Theorem main_runs (y : system) (argv : list string) (i : identity) :
  match main y argv (Run i []) with
  | (inl _, r) => trace r = full /\ exists j, served r = [j] /\ id_uid j <> 0
  | (inr code, r) => refused code r
  end.
Proof.
  assert (triple (at_trace [] [] anyone) (main y argv) (fun _ r => trace r = full /\ exists j, served r = [j] /\ id_uid j <> 0) refused) as T;
    [|pose proof (T (Run i []) (conj eq_refl (conj eq_refl I))) as K; by destruct (main y argv (Run i [])) as [[[]|code] r]].
  unfold main. eapply triple_bind.
  { apply (triple_weaken _ (at_trace [] [] anyone) _ _ (fun _ => at_trace [] [] anyone) _ (fun r H => H) (fun _ _ H => H)).
    destruct argv; [by apply triple_ret|apply triple_parse]. }
  intros [[filename|] bg]; cbn [fst].
  2: { quietly. apply triple_exit. intros r (T & S & _). split; [done|]. left. auto. }
  eapply triple_bind; [apply (triple_each Initialize); intros s; by split|]. intros [].
  change ([] ++ map Initialize _) with (inits early).
  eapply triple_bind; [apply triple_check; intros r; apply refused_at; auto|]. intros []. quietly.
  destruct (sys_config y filename) as [c|code].
  2: { quietly. apply triple_fatal. intros r. apply refused_at; auto. }
  eapply triple_bind; [apply triple_still, quiet_server_proc_init|]. intros up.
  eapply triple_bind; [apply triple_check; intros r; apply refused_at; auto|]. intros [].
  eapply triple_bind; [apply triple_quiet, quiet_ch_root_uid_setup|]. intros [].
  eapply triple_bind; [apply triple_do; exact I|]. intros [].
  eapply triple_bind; [apply triple_do; exact I|]. intros []. cbn [relevant].
  change ((inits early ++ _) ++ _) with (inits (early ++ [S_stats; S_fserve])).
  eapply (triple_bind _ _ _ _ (fun me => at_trace (inits (early ++ [S_stats; S_fserve])) [] (fun k => k = me)));
    [intros r (T & S & _); by split_and!|].
  intros me. set (t := inits (early ++ [S_stats; S_fserve])).
  apply (triple_bind _ _ _ _ (fun _ => at_trace t [] (fun j => id_uid j <> 0))); [|intros []; apply (triple_serve_clients y c bg (fun j => id_uid j <> 0))].
  destruct (id_uid me =? 0) eqn:R; [apply triple_fatal; intros r; apply refused_at; auto|].
  apply triple_ret. apply Z.eqb_neq in R. intros r (T & S & J). cbn in J. split_and!; [done|done|]. by rewrite J.
Qed.

(** Where the user and the group are known and every call succeeds, the process
    ends up as exactly them, whatever root and groups it started with. *)
Lemma change_owner_done y c uid gid r :
  sys_setgid y = true -> sys_initgroups y = true -> sys_setuid y = true ->
  id_uid (r_identity r) = 0 -> uid <> -1 -> gid <> -1 ->
  r_identity (snd (change_owner y c uid gid r)) = Identity uid gid (mc_user c) (id_root (r_identity r)).
Proof.
  intros G I U R Nu Ng. unfold change_owner, bind, who. cbn. rewrite R. cbn.
  assert ((uid =? -1) = false) as -> by by apply Z.eqb_neq. assert ((gid =? -1) = false) as -> by by apply Z.eqb_neq.
  cbn. rewrite G. cbn. rewrite I. cbn. rewrite U. done.
Qed.

(** A system where everything works, and a configuration for it. *)
Definition able : system :=
  System 0 (fun _ => inl (MainConfig true (Some "icecast") (Some "icecast") false "/usr/share/icecast" (Some "/run/icecast.pid")
    "/var/log" "error.log" "access.log" None false)) 1 true 0 (fun _ => 1) (fun _ => Some 100) (fun _ => Some 101) true true true true true
    (Some "radio.example.org") None.
Definition root_user : identity := Identity 0 0 None None.

Example main_able : match main able ["-c"; "icecast.xml"] (Run root_user []) with
  | (inl _, r) => served r = [Identity 100 101 (Some "icecast") None] | _ => False end.
Proof. vm_compute. reflexivity. Qed.

(** The change of the group can fail, and the server goes on with the group of
    root. *)
Example main_root_group : match main (System 0 (sys_config able) 1 true 0 (fun _ => 1) (fun _ => Some 100) (fun _ => Some 101) true true
    false false true None None) ["-c"; "icecast.xml"] (Run root_user []) with
  | (inl _, r) => served r = [Identity 100 0 None None] | _ => False end.
Proof. vm_compute. reflexivity. Qed.

(** Without a group the user is not changed, and the run is refused. *)
Example main_no_group : match main (System 0 (sys_config able) 1 true 0 (fun _ => 1) (fun _ => Some 100) (fun _ => None) true true
    true true true None None) ["-c"; "icecast.xml"] (Run root_user []) with
  | (inr code, r) => code = 1 /\ served r = [] | _ => False end.
Proof. vm_compute. split; reflexivity. Qed.

(** A configuration called like an option is looked at as that option. *)
Example main_option_name : fst (parse_opts able ["-c"; "-v"] None false (Run root_user [])) = inr 0.
Proof. vm_compute. reflexivity. Qed.
