(* ===== verification/Counted.v ===== *)
(** Objects with counts of references.

    Authenticators, their stacks, access control lists and the contexts and
    the connections of TLS are counted alike: an object starts with one
    reference, is freed with the last, and holds references to other objects
    itself.  Here is what is common to them: maps from addresses to objects,
    the two operations on a count, and when the counts are right. *)

From S2P Require Import Prelude.
Local Open Scope Z_scope.

Abbreviation addr := positive.

(** ** Definitions *)

(** An object with a count. *)
Class Counted (V : Type) := {
  count : V -> Z;
  with_count : Z -> V -> V;
  count_with : forall n v, count (with_count n v) = n
}.

Section counted.
Context {V : Type} `{Counted V}.
Implicit Types m : gmap addr V.

(** One more reference to an object, where it is still there. *)
Definition addref (p : addr) m : option (gmap addr V) :=
  match m !! p with Some v => Some (<[p := with_count (count v + 1) v]> m) | None => None end.

(** One less: the object is freed, and given back, with its last reference. *)
Definition unref (p : addr) m : option (option V * gmap addr V) :=
  match m !! p with
  | None => None
  | Some v =>
      let v := with_count (count v - 1) v in
      if count v =? 0 then Some (Some v, delete p m) else Some (None, <[p := v]> m)
  end.

(** The counts are right: they are the numbers of references, and what has none
    is gone. *)
Definition right_counts m (refs : addr -> nat) : Prop :=
  forall p, match m !! p with
            | Some v => count v = Z.of_nat (refs p) /\ (0 < refs p)%nat
            | None => refs p = 0%nat
            end.

End counted.

(** A step that succeeds. *)
Lemma bind_some {A B} (x : A) (f : A -> option B) : (Some x ≫= f) = f x.
Proof. reflexivity. Qed.

(** ** Numbers of references *)

Section numbers.
Context {K : Type} `{EqDecision K}.

(** How many objects of a map refer to [x]. *)
Definition pointing {W : Type} (f : W -> option K) (m : gmap addr W) (x : K) : nat :=
  size (filter (fun kv => f kv.2 = Some x) m).

(** One reference more, and one less. *)
Definition one (p : K) (x : K) : nat := if decide (x = p) then 1 else 0.
Definition more (p : K) (e : K -> nat) (x : K) : nat := (one p x + e x)%nat.
Definition less (p : K) (e : K -> nat) (x : K) : nat := (e x - one p x)%nat.

(** References that may be null. *)
Definition ones (o : option K) (x : K) : nat := match o with Some p => one p x | None => 0 end.

Lemma one_same p : one p p = 1%nat.
Proof. unfold one. by rewrite decide_True. Qed.
Lemma one_ne p x : x <> p -> one p x = 0%nat.
Proof. intros N. unfold one. by rewrite decide_False. Qed.
Lemma more_less p e x : (0 < e p)%nat -> more p (less p e) x = e x.
Proof. unfold more, less, one. case_decide; subst; lia. Qed.
End numbers.

Section pointing.
Context {K : Type} `{EqDecision K} {W : Type} (f : W -> option K).
Implicit Types m : gmap addr W.

Lemma pointing_pos m x : (0 < pointing f m x)%nat -> exists p v, m !! p = Some v /\ f v = Some x.
Proof.
  unfold pointing. intros L. destruct (map_choose (filter (fun kv => f kv.2 = Some x) m)) as (p & v & E).
  { intros Z0. rewrite Z0, map_size_empty in L. lia. }
  apply map_lookup_filter_Some in E as [E F]. by exists p, v.
Qed.

Lemma size_delete m p v : m !! p = Some v -> size m = S (size (delete p m)).
Proof. intros E. rewrite <- (insert_delete_id m p v E) at 1. by rewrite map_size_insert_None by apply lookup_delete_eq. Qed.

Lemma pointing_empty x : pointing f ∅ x = 0%nat.
Proof. unfold pointing. by rewrite map_filter_empty, map_size_empty. Qed.

Lemma pointing_insert_new m p v x : m !! p = None -> pointing f (<[p := v]> m) x = (ones (f v) x + pointing f m x)%nat.
Proof.
  intros N. unfold pointing. destruct (decide (f v = Some x)) as [E|E].
  - rewrite map_filter_insert_True by done. rewrite map_size_insert_None by (apply map_lookup_filter_None; by left).
    rewrite E. cbn. by rewrite one_same.
  - rewrite map_filter_insert_False by done. rewrite delete_id by done.
    destruct (f v) as [q|]; cbn; [|done]. rewrite one_ne; [done|congruence].
Qed.

Lemma pointing_delete m p v x : m !! p = Some v -> pointing f m x = (ones (f v) x + pointing f (delete p m) x)%nat.
Proof.
  intros E. rewrite <- (insert_delete_id m p v E) at 1. apply pointing_insert_new, lookup_delete_eq.
Qed.

Lemma pointing_update m p v v' x : m !! p = Some v ->
  (pointing f (<[p := v']> m) x + ones (f v) x = ones (f v') x + pointing f m x)%nat.
Proof.
  intros E. rewrite (pointing_delete m p v x E), <- insert_delete_eq, pointing_insert_new by apply lookup_delete_eq. lia.
Qed.

Lemma pointing_keep m p v v' x : m !! p = Some v -> f v' = f v -> pointing f (<[p := v']> m) x = pointing f m x.
Proof. intros E F. pose proof (pointing_update m p v v' x E) as U. rewrite F in U. lia. Qed.

Lemma pointing_lookup m p v x : m !! p = Some v -> f v = Some x -> (0 < pointing f m x)%nat.
Proof. intros E F. rewrite (pointing_delete m p v x E), F. cbn. rewrite one_same. lia. Qed.
End pointing.

(** ** Right counts *)

Section right.
Context {V : Type} `{Counted V}.
Implicit Types m : gmap addr V.

Lemma right_counts_ext m r r' : (forall p, r' p = r p) -> right_counts m r -> right_counts m r'.
Proof. intros E R p. specialize (R p). rewrite E. by destruct (m !! p). Qed.

Lemma right_counts_empty : right_counts (∅ : gmap addr V) (fun _ => 0%nat).
Proof. intros p. by rewrite lookup_empty. Qed.

Lemma right_counts_live m r p : right_counts m r -> (0 < r p)%nat -> exists v, m !! p = Some v.
Proof. intros R L. specialize (R p). destruct (m !! p); [by eexists|lia]. Qed.

Lemma addref_right m r p : right_counts m r -> (0 < r p)%nat ->
  exists v, m !! p = Some v /\ addref p m = Some (<[p := with_count (count v + 1) v]> m) /\
    right_counts (<[p := with_count (count v + 1) v]> m) (more p r).
Proof.
  intros R L. destruct (right_counts_live m r p R L) as [v E]. exists v. unfold addref. rewrite E.
  split_and!; [done|done|]. intros q. destruct (decide (q = p)) as [->|N].
  - rewrite lookup_insert_eq, count_with. unfold more. rewrite one_same. pose proof (R p) as Rp. rewrite E in Rp. lia.
  - rewrite lookup_insert_ne by done. unfold more. rewrite one_ne by done. apply R.
Qed.

(** What is left of a count with one reference less: either the object, or
    nothing. *)
Lemma unref_right m r p : right_counts m (more p r) ->
  exists v, m !! p = Some v /\ count v = Z.of_nat (1 + r p) /\
    (r p = 0%nat /\ unref p m = Some (Some (with_count (count v - 1) v), delete p m) /\ right_counts (delete p m) r \/
     (0 < r p)%nat /\ unref p m = Some (None, <[p := with_count (count v - 1) v]> m) /\
     right_counts (<[p := with_count (count v - 1) v]> m) r).
Proof.
  intros R. destruct (right_counts_live m _ p R) as [v E]; [unfold more; rewrite one_same; lia|].
  pose proof (R p) as Rp. rewrite E in Rp. unfold more in Rp. rewrite one_same in Rp.
  exists v. split_and!; [done|lia|]. unfold unref. rewrite E, !count_with.
  assert (forall q, q <> p -> more p r q = r q) as O by (intros q N; unfold more; by rewrite one_ne).
  destruct (decide (r p = 0%nat)) as [Z0|Z0].
  - left. assert ((count v - 1 =? 0) = true) as -> by lia. split_and!; [done|done|]. intros q. destruct (decide (q = p)) as [->|N].
    + by rewrite lookup_delete_eq.
    + rewrite lookup_delete_ne by done. specialize (R q). by rewrite O in R by done.
  - right. assert ((count v - 1 =? 0) = false) as -> by lia. split_and!; [lia|done|]. intros q. destruct (decide (q = p)) as [->|N].
    + rewrite lookup_insert_eq, count_with. lia.
    + rewrite lookup_insert_ne by done. specialize (R q). by rewrite O in R by done.
Qed.

Lemma right_counts_new m r p v : right_counts m r -> m !! p = None -> count v = 1 ->
  right_counts (<[p := v]> m) (more p r).
Proof.
  intros R N C q. pose proof (R p) as Rp. rewrite N in Rp. unfold more. destruct (decide (q = p)) as [->|D].
  - rewrite lookup_insert_eq, one_same. lia.
  - rewrite lookup_insert_ne, one_ne by done. apply R.
Qed.

(** A change that leaves the count. *)
Lemma right_counts_keep m r p v v' : right_counts m r -> m !! p = Some v -> count v' = count v ->
  right_counts (<[p := v']> m) r.
Proof.
  intros R E C q. destruct (decide (q = p)) as [->|D].
  - rewrite lookup_insert_eq. specialize (R p). rewrite E in R. by rewrite C.
  - rewrite lookup_insert_ne by done. apply R.
Qed.

(** Without references there is nothing. *)
Lemma no_objects m (r : addr -> nat) : right_counts m r -> (forall x, r x = 0%nat) -> m = ∅.
Proof.
  intros R Z0. apply map_empty. intros p. specialize (R p). destruct (m !! p); [|done]. specialize (Z0 p). lia.
Qed.
End right.
