(* ===== verification/AuthStack.v ===== *)
(** Stacks of authenticators in memory, [auth.c] and [acl.c].

    [Auth.v] has a stack as the list of its authenticators.  Here are the cells
    with their counts, the authenticators and the access control lists they
    refer to, and the operations as the code has them, down to the references
    that are taken on the way; [None] is an address followed after its object
    was freed, or a thread that waits for itself.  The theorems: no sequence of
    operations leads there and nothing is lost, and a stack behaves as the
    list. *)

From S2P Require Import Prelude Counted Acl Auth.
Local Open Scope Z_scope.

(** ** Memory *)

(** [acl_t], but for what it says. *)
Record acl_obj := AclObj { lo_refcount : Z }.
(** [auth_t]: its description, its access control list, and whether it has a
    thread. *)
Record auth_obj := AuthObj { ao_refcount : Z; ao_auth : auth; ao_acl : addr; ao_running : bool }.
(** [auth_stack_t]. *)
Record cell := Cell { sc_refcount : Z; sc_auth : addr; sc_next : option addr }.

#[export] Instance acl_obj_counted : Counted acl_obj :=
  { count := lo_refcount; with_count n o := AclObj n; count_with _ _ := eq_refl }.
#[export] Instance auth_obj_counted : Counted auth_obj :=
  { count := ao_refcount; with_count n o := AuthObj n (ao_auth o) (ao_acl o) (ao_running o); count_with _ _ := eq_refl }.
#[export] Instance cell_counted : Counted cell :=
  { count := sc_refcount; with_count n c := Cell n (sc_auth c) (sc_next c); count_with _ _ := eq_refl }.

Record store := Store { st_acls : gmap addr acl_obj; st_auths : gmap addr auth_obj; st_stacks : gmap addr cell }.
Definition set_acls (m : gmap addr acl_obj) (s : store) : store := Store m (st_auths s) (st_stacks s).
Definition set_auths (m : gmap addr auth_obj) (s : store) : store := Store (st_acls s) m (st_stacks s).
Definition set_stacks (m : gmap addr cell) (s : store) : store := Store (st_acls s) (st_auths s) m.

(** ** Operations *)

Definition acl_addref (o : option addr) (s : store) : option store :=
  match o with None => Some s | Some p => m ← addref p (st_acls s); Some (set_acls m s) end.
Definition acl_release (o : option addr) (s : store) : option store :=
  match o with None => Some s | Some p => '(_, m) ← unref p (st_acls s); Some (set_acls m s) end.

Definition auth_addref (o : option addr) (s : store) : option store :=
  match o with None => Some s | Some p => m ← addref p (st_auths s); Some (set_auths m s) end.

(** [auth_release], called by the thread of the authenticator [me], or by
    another one: with the last reference the thread of the authenticator is
    joined. *)
Definition auth_release (me : option addr) (o : option addr) (s : store) : option store :=
  match o with
  | None => Some s
  | Some p =>
      '(freed, m) ← unref p (st_auths s);
      match freed with
      | None => Some (set_auths m s)
      | Some a =>
          if ao_running a && bool_decide (me = Some p) then None
          else acl_release (Some (ao_acl a)) (set_auths m s)
      end
  end.

Definition auth_stack_addref (o : option addr) (s : store) : option store :=
  match o with None => Some s | Some p => m ← addref p (st_stacks s); Some (set_stacks m s) end.

Section stacks.
Variable me : option addr.

Fixpoint auth_stack_release_fuel (fuel : nat) (o : option addr) (s : store) : option store :=
  match o, fuel with
  | None, _ => Some s
  | Some _, O => None
  | Some p, S fuel' =>
      c ← st_stacks s !! p;
      let c := with_count (count c - 1) c in
      let s := set_stacks (<[p := c]> (st_stacks s)) s in
      if negb (count c =? 0) then Some s
      else
        s ← auth_release me (Some (sc_auth c)) s;
        s ← auth_stack_release_fuel fuel' (sc_next c) s;
        Some (set_stacks (delete p (st_stacks s)) s)
  end.

(** A chain of distinct cells is no longer than the memory. *)
Definition chain_fuel (s : store) : nat := S (size (st_stacks s)).

Definition auth_stack_release (o : option addr) (s : store) : option store := auth_stack_release_fuel (chain_fuel s) o s.

(** The result, the stack after it, and the memory. *)
Definition auth_stack_next (o : option addr) (s : store) : option (Z * option addr * store) :=
  match o with
  | None => Some (-1, None, s)
  | Some p =>
      c ← st_stacks s !! p;
      let next := sc_next c in
      s ← auth_stack_addref next s;
      s ← auth_stack_release (Some p) s;
      Some (if next is Some _ then 0 else 1, next, s)
  end.

(** The way to the last cell, each held while the way goes over it. *)
Fixpoint last_cell (fuel : nat) (cur : addr) (s : store) : option (addr * store) :=
  match fuel with
  | O => None
  | S fuel' =>
      c ← st_stacks s !! cur;
      match sc_next c with
      | None => Some (cur, s)
      | Some next =>
          s ← auth_stack_addref (Some next) s;
          s ← auth_stack_release (Some cur) s;
          last_cell fuel' next s
      end
  end.

Definition link (cur : addr) (tail : option addr) (s : store) : option store :=
  c ← st_stacks s !! cur;
  auth_stack_addref tail (set_stacks (<[cur := Cell (sc_refcount c) (sc_auth c) tail]> (st_stacks s)) s).

Definition auth_stack_append (stack tail : option addr) (s : store) : option (Z * store) :=
  match stack with
  | None => Some (-1, s)
  | Some p =>
      s ← auth_stack_addref (Some p) s;
      '(cur, s) ← last_cell (chain_fuel s) p s;
      s ← link cur tail s;
      s ← auth_stack_release (Some cur) s;
      Some (0, s)
  end.

Definition auth_stack_push (stack : option addr) (auth : option addr) (s : store) : option (Z * option addr * store) :=
  match auth with
  | None => Some (-1, stack, s)
  | Some a =>
      let next := fresh (dom (st_stacks s)) in
      let s := set_stacks (<[next := Cell 1 a None]> (st_stacks s)) s in
      s ← auth_addref (Some a) s;
      match stack with
      | Some p =>
          '(_, s) ← auth_stack_append (Some p) (Some next) s;
          s ← auth_stack_release (Some next) s;
          Some (0, Some p, s)
      | None => Some (0, Some next, s)
      end
  end.

Definition auth_stack_get (stack : option addr) (s : store) : option (option addr * store) :=
  match stack with
  | None => Some (None, s)
  | Some p =>
      c ← st_stacks s !! p;
      s ← auth_addref (Some (sc_auth c)) s;
      Some (Some (sc_auth c), s)
  end.

Section look_for.
(** What is looked for, and what is done with it. *)
Context {A : Type} (found : auth -> bool) (take : addr -> auth_obj -> store -> option (A * store)).

Fixpoint look_fuel (fuel : nat) (stack : option addr) (s : store) : option (option A * store) :=
  match stack, fuel with
  | None, _ => Some (None, s)
  | Some _, O => None
  | Some p, S fuel' =>
      '(auth, s) ← auth_stack_get (Some p) s;
      a ← auth;
      o ← st_auths s !! a;
      if found (ao_auth o) then
        '(r, s) ← take a o s;
        s ← auth_stack_release (Some p) s;
        Some (Some r, s)
      else
        s ← auth_release me (Some a) s;
        '(_, next, s) ← auth_stack_next (Some p) s;
        look_fuel fuel' next s
  end.
Definition look (stack : option addr) (s : store) : option (option A * store) :=
  s ← auth_stack_addref stack s;
  look_fuel (chain_fuel s) stack s.
End look_for.

(** [auth_stack_getbyid]: the authenticator, with a reference to it. *)
Definition auth_stack_getbyid (stack : option addr) (id : Z) (s : store) : option (option addr * store) :=
  look (fun a => a_id a =? id) (fun a _ s => Some (a, s)) stack s.

(** [auth_stack_get_anonymous_acl]: the list, with a reference to it. *)
Definition auth_stack_get_anonymous_acl (httpp_req_unknown : Z) (stack : option addr) (method : Z) (s : store) :
    option (option addr * store) :=
  if (method <? 0) || (httpp_req_unknown <? method) then Some (None, s)
  else look (fun a => takes_method a method && streq (a_type a) "anonymous")
         (fun a o s =>
            s ← acl_addref (Some (ao_acl o)) s;
            s ← auth_release me (Some a) s;
            Some (ao_acl o, s)) stack s.
End stacks.

(** ** Right counts *)

(** The references the program holds. *)
Record refs := Refs { e_acls : addr -> nat; e_auths : addr -> nat; e_stacks : addr -> nat }.
Definition hold_acl (p : addr) (e : refs) : refs := Refs (more p (e_acls e)) (e_auths e) (e_stacks e).
Definition hold_auth (p : addr) (e : refs) : refs := Refs (e_acls e) (more p (e_auths e)) (e_stacks e).
Definition hold_stack (o : option addr) (e : refs) : refs :=
  match o with Some p => Refs (e_acls e) (e_auths e) (more p (e_stacks e)) | None => e end.
Definition drop_acl (p : addr) (e : refs) : refs := Refs (less p (e_acls e)) (e_auths e) (e_stacks e).
Definition drop_auth (p : addr) (e : refs) : refs := Refs (e_acls e) (less p (e_auths e)) (e_stacks e).
Definition drop_stack (o : option addr) (e : refs) : refs :=
  match o with Some p => Refs (e_acls e) (e_auths e) (less p (e_stacks e)) | None => e end.

Record store_ok (s : store) (e : refs) : Prop := {
  so_acls : right_counts (st_acls s) (fun x => e_acls e x + pointing (fun o => Some (ao_acl o)) (st_auths s) x)%nat;
  so_auths : right_counts (st_auths s) (fun x => e_auths e x + pointing (fun c => Some (sc_auth c)) (st_stacks s) x)%nat;
  so_stacks : right_counts (st_stacks s) (fun x => e_stacks e x + pointing sc_next (st_stacks s) x)%nat
}.

Lemma acl_release_ok s e p : store_ok s (hold_acl p e) ->
  exists m, acl_release (Some p) s = Some (set_acls m s) /\ store_ok (set_acls m s) e.
Proof.
  intros [A B C]. destruct (unref_right (st_acls s) (fun x => e_acls e x + pointing (fun o => Some (ao_acl o)) (st_auths s) x)%nat p) as (v & E & _ & K).
  { eapply right_counts_ext; [|exact A]. intros x. cbn. unfold more. lia. }
  unfold acl_release. destruct K as [(_ & -> & R)|(_ & -> & R)]; eexists; (split; [reflexivity|]); split; done.
Qed.

Lemma acl_addref_ok s e p : store_ok s e -> (0 < e_acls e p + pointing (fun o => Some (ao_acl o)) (st_auths s) p)%nat ->
  exists m, acl_addref (Some p) s = Some (set_acls m s) /\ store_ok (set_acls m s) (hold_acl p e).
Proof.
  intros [A B C] L. destruct (addref_right (st_acls s) _ p A L) as (v & E & Ea & R).
  unfold acl_addref. rewrite Ea. eexists. split; [reflexivity|]. split; [|done|done].
  eapply right_counts_ext; [|exact R]. intros x. cbn. unfold more. lia.
Qed.

(** What the program can see of the authenticators that are there: all but the
    counts. *)
Definition auths_within (s' s : store) : Prop := forall q o, st_auths s' !! q = Some o ->
  exists o', st_auths s !! q = Some o' /\ ao_auth o' = ao_auth o /\ ao_acl o' = ao_acl o.

Lemma auths_within_refl s : auths_within s s.
Proof. intros q o E. by exists o. Qed.
Lemma auths_within_trans s1 s2 s3 : auths_within s1 s2 -> auths_within s2 s3 -> auths_within s1 s3.
Proof. intros H K q o E. destruct (H q o E) as (o' & E' & F & G). destruct (K q o' E') as (o2 & E2 & F2 & G2). exists o2. split_and!; congruence. Qed.
Lemma auths_within_update s p o o' : st_auths s !! p = Some o -> ao_auth o' = ao_auth o -> ao_acl o' = ao_acl o ->
  auths_within (set_auths (<[p := o']> (st_auths s)) s) s.
Proof.
  intros E F G q x. cbn. destruct (decide (q = p)) as [->|N].
  - rewrite lookup_insert_eq. intros [= <-]. by exists o.
  - rewrite lookup_insert_ne by done. intros K. by exists x.
Qed.
Lemma auths_within_delete s p : auths_within (set_auths (delete p (st_auths s)) s) s.
Proof. intros q x. cbn. intros [_ K]%lookup_delete_Some. by exists x. Qed.

Lemma auth_addref_ok s e p : store_ok s e -> (0 < e_auths e p + pointing (fun c => Some (sc_auth c)) (st_stacks s) p)%nat ->
  exists m, auth_addref (Some p) s = Some (set_auths m s) /\ store_ok (set_auths m s) (hold_auth p e) /\ auths_within (set_auths m s) s.
Proof.
  intros [A B C] L. destruct (addref_right (st_auths s) _ p B L) as (v & E & Ea & R).
  unfold auth_addref. rewrite Ea. eexists. split; [reflexivity|]. split; [split; [|eapply right_counts_ext; [|exact R]|done]|].
  - eapply right_counts_ext; [|exact A]. intros x. cbn. by rewrite (pointing_keep _ _ _ v).
  - intros x. cbn. unfold more. lia.
  - by apply (auths_within_update s p v).
Qed.

Lemma auth_release_ok s e p : store_ok s (hold_auth p e) ->
  exists a b, auth_release None (Some p) s = Some (Store a b (st_stacks s)) /\ store_ok (Store a b (st_stacks s)) e /\
    auths_within (Store a b (st_stacks s)) s.
Proof.
  intros [A B C]. destruct (unref_right (st_auths s) (fun x => e_auths e x + pointing (fun c => Some (sc_auth c)) (st_stacks s) x)%nat p) as (v & E & _ & K).
  { eapply right_counts_ext; [|exact B]. intros x. cbn. unfold more. lia. }
  unfold auth_release. destruct K as [(Z0 & -> & R)|(_ & -> & R)]; cbn.
  - rewrite andb_false_r.
    destruct (acl_release_ok (set_auths (delete p (st_auths s)) s) e (ao_acl v)) as (m & Em & Om).
    { split; [|done|done]. eapply right_counts_ext; [|exact A]. intros x. cbn. unfold more.
      rewrite (pointing_delete _ (st_auths s) p v x E). cbn. lia. }
    unfold acl_release in Em. cbn in Em |- *. exists m, (delete p (st_auths s)).
    destruct (unref (ao_acl v) (st_acls s)) as [[? m']|]; [|done]. cbn in Em |- *. injection Em as ->.
    split_and!; [done|done|apply auths_within_delete].
  - eexists _, _. split; [reflexivity|]. split; [split; [|done|done]|by apply (auths_within_update s p v)].
    eapply right_counts_ext; [|exact A]. intros x. cbn. by rewrite (pointing_keep _ _ _ v).
Qed.

(** The cells that are there are the ones that were, but for the counts. *)
Definition cells_within (s' s : store) : Prop := forall q c, st_stacks s' !! q = Some c ->
  exists c', st_stacks s !! q = Some c' /\ sc_auth c' = sc_auth c /\ sc_next c' = sc_next c.

Lemma cells_within_refl s : cells_within s s.
Proof. intros q c E. by exists c. Qed.
Lemma cells_within_trans s1 s2 s3 : cells_within s1 s2 -> cells_within s2 s3 -> cells_within s1 s3.
Proof. intros H K q c E. destruct (H q c E) as (c' & E' & F & G). destruct (K q c' E') as (c2 & E2 & F2 & G2). exists c2. split_and!; congruence. Qed.
Lemma cells_within_update s p c c' : st_stacks s !! p = Some c -> sc_auth c' = sc_auth c -> sc_next c' = sc_next c ->
  cells_within (set_stacks (<[p := c']> (st_stacks s)) s) s.
Proof.
  intros E F G q x. cbn. destruct (decide (q = p)) as [->|N].
  - rewrite lookup_insert_eq. intros [= <-]. by exists c.
  - rewrite lookup_insert_ne by done. intros K. by exists x.
Qed.

(** A cell that is being freed is not looked at. *)
Definition put_cell (p : addr) (c : cell) (s : store) : store := set_stacks (<[p := c]> (st_stacks s)) s.

Lemma auth_release_frame me o s k : auth_release me o (set_stacks k s) = set_stacks k <$> auth_release me o s.
Proof.
  destruct o as [p|]; [|by destruct s]. unfold auth_release. cbn. destruct (unref p (st_auths s)) as [[[a|] m]|]; [|done|done]. cbn.
  destruct (_ && _); [done|]. by destruct (unref (ao_acl a) (st_acls s)) as [[? ?]|].
Qed.

Lemma auth_release_stacks me o s s' : auth_release me o s = Some s' -> st_stacks s' = st_stacks s.
Proof.
  destruct o as [p|]; [|by intros [= <-]]. unfold auth_release. destruct (unref p (st_auths s)) as [[[a|] m]|]; [|by intros [= <-]|done]. cbn.
  destruct (_ && _); [done|]. destruct (unref (ao_acl a) (st_acls s)) as [[? ?]|]; [|done]. by intros [= <-].
Qed.

Lemma release_frame me fuel : forall o s s' p c, auth_stack_release_fuel me fuel o s = Some s' -> st_stacks s !! p = None ->
  auth_stack_release_fuel me fuel o (put_cell p c s) = Some (put_cell p c s') /\ st_stacks s' !! p = None.
Proof.
  induction fuel as [|n IH]; intros [q|] s s' p c; cbn -[auth_release]; try (intros [= <-] N; by split).
  intros R N. destruct (st_stacks s !! q) as [d|] eqn:E; [|done]. cbn -[auth_release] in R.
  assert (p <> q) as D by congruence. rewrite lookup_insert_ne, E by done. cbn -[auth_release].
  rewrite (insert_insert_ne _ q p) by done. destruct (negb _).
  - injection R as <-. cbn. rewrite lookup_insert_ne by done. done.
  - set (m := <[q := _]> (st_stacks s)) in *.
    change (set_stacks (<[p := c]> m) (put_cell p c s)) with (set_stacks (<[p := c]> m) s).
    change (set_stacks m s) with (set_stacks m s) in R. rewrite auth_release_frame in R |- *.
    destruct (auth_release me (Some (sc_auth d)) s) as [t|]; [|done]. cbn -[auth_release] in R |- *.
    destruct (auth_stack_release_fuel me n (sc_next d) (set_stacks m t)) as [u|] eqn:U; [|done]. injection R as <-.
    apply (IH _ _ _ p c) in U as [U N']; [|cbn; subst m; by rewrite lookup_insert_ne].
    change (set_stacks (<[p := c]> m) t) with (put_cell p c (set_stacks m t)). rewrite U. cbn.
    rewrite delete_insert_ne, lookup_delete_ne by done. done.
Qed.

Lemma auth_stack_release_fuel_ok n : forall s e o, (size (st_stacks s) < n)%nat -> store_ok s (hold_stack o e) ->
  exists s', auth_stack_release_fuel None n o s = Some s' /\ store_ok s' e /\ auths_within s' s /\ cells_within s' s.
Proof.
  induction n as [|n IH]; [lia|]. intros s e [p|] L O; [|exists s; split_and!; [done|done|apply auths_within_refl|apply cells_within_refl]].
  destruct O as [A B C]. destruct (unref_right (st_stacks s) (fun x => e_stacks e x + pointing sc_next (st_stacks s) x)%nat p) as (c & E & _ & K).
  { eapply right_counts_ext; [|exact C]. intros x. cbn. unfold more. lia. }
  cbn -[auth_release]. rewrite E. cbn -[auth_release]. unfold unref in K. rewrite E in K. rewrite !count_with in K. cbn in K.
  destruct K as [(Z0 & K & R)|(Z0 & K & R)]; destruct (sc_refcount c - 1 =? 0) eqn:Zc; try (exfalso; congruence); cbn -[auth_release].
  - clear K. set (c0 := Cell _ _ _). set (s1 := set_stacks (delete p (st_stacks s)) s).
    destruct (auth_release_ok s1 (hold_stack (sc_next c) e) (sc_auth c)) as (a & b & Er & O2 & W2).
    { split; cbn.
      - destruct (sc_next c); exact A.
      - eapply right_counts_ext; [|exact B]. intros x. cbn. unfold more. rewrite (pointing_delete _ (st_stacks s) p c x E). cbn.
        destruct (sc_next c); cbn; lia.
      - eapply right_counts_ext; [|exact R]. intros x. cbn. rewrite (pointing_delete _ (st_stacks s) p c x E).
        destruct (sc_next c); cbn; unfold more; lia. }
    destruct (IH (Store a b (st_stacks s1)) e (sc_next c)) as (s2 & E2 & O3 & W3 & X3); [|exact O2|].
    { cbn. pose proof (size_delete (st_stacks s) p c E). lia. }
    apply (release_frame None n _ _ _ p c0) in E2 as [E2 N2]; [|cbn; apply lookup_delete_eq].
    assert (auth_release None (Some (sc_auth c)) (set_stacks (<[p := c0]> (st_stacks s)) s) =
      Some (put_cell p c0 (Store a b (st_stacks s1)))) as ->.
    { rewrite auth_release_frame. change s1 with (set_stacks (delete p (st_stacks s)) s) in Er. rewrite auth_release_frame in Er.
      destruct (auth_release None _ s) as [t|]; [|done]. cbn in Er |- *. injection Er as <- <-. unfold put_cell, set_stacks. cbn.
      by rewrite insert_delete_eq. }
    rewrite bind_some, E2, bind_some. exists s2. split_and!.
    + unfold put_cell, set_stacks. cbn. rewrite delete_insert_id by done. by destruct s2.
    + done.
    + eapply auths_within_trans; [exact W3|]. exact W2.
    + eapply cells_within_trans; [exact X3|]. intros q x. cbn. intros [_ Q]%lookup_delete_Some. by exists x.
  - eexists. split; [reflexivity|]. split_and!; [split; cbn|exact (auths_within_refl s)|by apply (cells_within_update s p c)].
    + exact A.
    + eapply right_counts_ext; [|exact B]. intros x. cbn. by rewrite (pointing_keep _ _ _ c).
    + eapply right_counts_ext; [|exact R]. intros x. cbn. by rewrite (pointing_keep _ _ _ c).
Qed.

Lemma auth_stack_release_ok s e o : store_ok s (hold_stack o e) ->
  exists s', auth_stack_release None o s = Some s' /\ store_ok s' e /\ auths_within s' s /\ cells_within s' s.
Proof. apply auth_stack_release_fuel_ok. unfold chain_fuel. lia. Qed.

Lemma auth_stack_addref_ok s e o : store_ok s e ->
  match o with Some p => (0 < e_stacks e p + pointing sc_next (st_stacks s) p)%nat | None => True end ->
  exists s', auth_stack_addref o s = Some s' /\ store_ok s' (hold_stack o e) /\ auths_within s' s /\ cells_within s' s /\ st_auths s' = st_auths s.
Proof.
  destruct o as [p|]; intros [A B C] L; [|exists s; split_and!; [done|done|apply auths_within_refl|apply cells_within_refl|done]].
  destruct (addref_right (st_stacks s) _ p C L) as (c & E & Ea & R). unfold auth_stack_addref. rewrite Ea. eexists. split; [reflexivity|].
  split_and!; [split; [done| |]|exact (auths_within_refl s)|by apply (cells_within_update s p c)|done].
  - eapply right_counts_ext; [|exact B]. intros x. cbn. by rewrite (pointing_keep _ _ _ c).
  - eapply right_counts_ext; [|exact R]. intros x. cbn. unfold more. rewrite (pointing_keep _ _ _ c) by done. lia.
Qed.

(** ** Stacks as lists *)

(** The cells of a stack, and what they hold, first to last. *)
Inductive holds (s : store) : option addr -> list addr -> list auth -> Prop :=
| holds_nil : holds s None [] []
| holds_cons p c o l k : st_stacks s !! p = Some c -> st_auths s !! sc_auth c = Some o ->
    holds s (sc_next c) l k -> holds s (Some p) (p :: l) (ao_auth o :: k).

(** The references that keep an object. *)
Definition kept (s : store) (e : refs) (o : option addr) : Prop :=
  match o with Some p => (0 < e_stacks e p + pointing sc_next (st_stacks s) p)%nat | None => True end.

(** The memory is in order: the counts are right and every stack ends. *)
Record well (s : store) (e : refs) : Prop := {
  w_counts : store_ok s e;
  w_end : forall p c, st_stacks s !! p = Some c -> exists l k, holds s (Some p) l k
}.

Lemma store_ok_ext s e e' : (forall x, e_acls e' x = e_acls e x) -> (forall x, e_auths e' x = e_auths e x) ->
  (forall x, e_stacks e' x = e_stacks e x) -> store_ok s e -> store_ok s e'.
Proof.
  intros A B C [O1 O2 O3]. split; (eapply right_counts_ext; [|eassumption]); intros x; cbn; by rewrite ?A, ?B, ?C.
Qed.

Lemma kept_live s e p : store_ok s e -> kept s e (Some p) -> exists c, st_stacks s !! p = Some c.
Proof. intros O K. exact (right_counts_live _ _ p (so_stacks s e O) K). Qed.

Lemma auth_live s e p c : store_ok s e -> st_stacks s !! p = Some c -> exists o, st_auths s !! sc_auth c = Some o.
Proof.
  intros O E. apply (right_counts_live _ _ (sc_auth c) (so_auths s e O)). cbn.
  pose proof (pointing_lookup (fun c => Some (sc_auth c)) _ p c _ E eq_refl). lia.
Qed.

Lemma next_kept s e p c : st_stacks s !! p = Some c -> kept s e (sc_next c).
Proof. intros E. destruct (sc_next c) as [q|] eqn:F; [|done]. cbn. pose proof (pointing_lookup sc_next _ p c q E F). lia. Qed.

Lemma well_holds s e o : well s e -> kept s e o -> exists l k, holds s o l k.
Proof.
  intros W K. destruct o as [p|]; [|exists [], []; constructor]. destruct (kept_live s e p (w_counts s e W) K) as [c E].
  exact (w_end s e W p c E).
Qed.

Lemma holds_unique s o l k : holds s o l k -> forall l' k', holds s o l' k' -> l' = l /\ k' = k.
Proof.
  induction 1 as [|p c o l k E F H IH]; intros l' k' H'; inversion H' as [|p' c' o' l2 k2 E' F' H2]; subst; [done|].
  replace c' with c in * by congruence. replace o' with o in * by congruence. destruct (IH _ _ H2) as [-> ->]. done.
Qed.

(** A stack is still what it was where it is kept, whatever was freed. *)
Lemma holds_within s s' e o l k : store_ok s' e -> cells_within s' s -> auths_within s' s -> kept s' e o ->
  holds s o l k -> holds s' o l k.
Proof.
  intros O C A K H. induction H as [|p c o l k E F H IH]; [constructor|].
  destruct (kept_live s' e p O K) as [c' E']. destruct (C p c' E') as (c1 & E1 & F1 & G1). replace c1 with c in * by congruence.
  destruct (auth_live s' e p c' O E') as [o' Eo]. destruct (A _ o' Eo) as (o1 & Eo1 & H1 & _).
  replace (ao_auth o) with (ao_auth o') by congruence. apply (holds_cons _ p c'); [done|done|].
  rewrite <- G1. apply IH. rewrite G1. by apply (next_kept s' e p).
Qed.

Lemma well_within s s' e e' : well s e -> store_ok s' e' -> cells_within s' s -> auths_within s' s -> well s' e'.
Proof.
  intros W O C A. split; [done|]. intros p c E. destruct (C p c E) as (c1 & E1 & F1 & G1). destruct (w_end s e W p c1 E1) as (l & k & H).
  exists l, k. eapply holds_within; [done|done|done| |exact H]. pose proof (so_stacks _ _ O p) as R. rewrite E in R. cbn in R |- *. lia.
Qed.

(** *** Distinct cells *)

Lemma holds_suffix s o l k p : holds s o l k -> p ∈ l -> exists l1 l2 k2, l = l1 ++ l2 /\ holds s (Some p) l2 k2.
Proof.
  induction 1 as [|q c o l k E F H IH]; intros P; [by apply elem_of_nil in P|]. apply elem_of_cons in P as [->|P].
  - exists [], (q :: l), (ao_auth o :: k). split; [done|]. by apply (holds_cons s q c).
  - destruct (IH P) as (l1 & l2 & k2 & -> & H2). by exists (q :: l1), l2, k2.
Qed.

Lemma holds_NoDup s o l k : holds s o l k -> NoDup l.
Proof.
  induction 1 as [|q c o l k E F H IH]; constructor; [|done]. intros P. destruct (holds_suffix s _ _ _ q H P) as (l1 & l2 & k2 & -> & H2).
  assert (holds s (Some q) (q :: l1 ++ l2) (ao_auth o :: k)) as H3 by (by apply (holds_cons s q c)).
  destruct (holds_unique _ _ _ _ H3 _ _ H2) as [E2 _]. apply (f_equal length) in E2. cbn in E2. rewrite length_app in E2. lia.
Qed.

Lemma stack_length s o l k : holds s o l k -> (length l <= size (st_stacks s))%nat.
Proof.
  intros H. rewrite <- size_dom. rewrite <- (size_list_to_set (C := gset addr) l) by by eapply holds_NoDup.
  apply subseteq_size. intros p P. apply elem_of_list_to_set in P. apply elem_of_dom.
  destruct (holds_suffix s _ _ _ p H P) as (l1 & l2 & k2 & _ & H2). inversion H2. by eexists.
Qed.

(** *** The operations *)

(** A handle of the program. *)
Definition held (e : refs) (o : option addr) : Prop := match o with Some p => (0 < e_stacks e p)%nat | None => True end.

Ltac same_refs := intros ?; cbn; unfold more; lia.

Lemma auth_stack_next_ok s e p l k : well s (hold_stack (Some p) e) -> holds s (Some p) l k ->
  exists r next s', auth_stack_next None (Some p) s = Some (r, next, s') /\ well s' (hold_stack next e) /\ holds s' next (drop 1 l) (drop 1 k) /\
    cells_within s' s /\ auths_within s' s.
Proof.
  intros W H. inversion H as [|p' c o l' k' E F H']; subst. cbn -[auth_stack_release]. rewrite E. cbn -[auth_stack_release].
  destruct (auth_stack_addref_ok s (hold_stack (Some p) e) (sc_next c)) as (s1 & E1 & O1 & A1 & C1 & _);
    [exact (w_counts _ _ W)|by apply (next_kept s _ p)|].
  rewrite E1. cbn -[auth_stack_release].
  destruct (auth_stack_release_ok s1 (hold_stack (sc_next c) e) (Some p)) as (s2 & E2 & O2 & A2 & C2).
  { eapply store_ok_ext; [| | |exact O1]; destruct (sc_next c); same_refs. }
  rewrite E2. cbn. assert (cells_within s2 s) as C by by eapply cells_within_trans. assert (auths_within s2 s) as A by by eapply auths_within_trans.
  eexists _, _, s2. split_and!; [reflexivity|by eapply well_within| |done|done].
  eapply holds_within; [exact O2|done|done| |exact H']. destruct (sc_next c); [|done]. cbn. unfold more. rewrite one_same. lia.
Qed.

Lemma auth_stack_get_ok s e p c : store_ok s e -> st_stacks s !! p = Some c ->
  exists s', auth_stack_get (Some p) s = Some (Some (sc_auth c), s') /\ store_ok s' (hold_auth (sc_auth c) e) /\ auths_within s' s /\
    st_stacks s' = st_stacks s.
Proof.
  intros O E. destruct (auth_addref_ok s e (sc_auth c) O) as (m & Em & Om & Am).
  { pose proof (pointing_lookup (fun c => Some (sc_auth c)) _ p c _ E eq_refl). lia. }
  unfold auth_stack_get. rewrite E. cbn -[auth_addref]. rewrite Em. cbn. eexists. by split_and!.
Qed.

(** The way to the last cell. *)
Lemma last_cell_ok fuel : forall s e p l k, well s (hold_stack (Some p) e) -> holds s (Some p) l k -> (length l <= fuel)%nat ->
  exists q c s', last_cell None fuel p s = Some (q, s') /\ well s' (hold_stack (Some q) e) /\ last l = Some q /\
    st_stacks s' !! q = Some c /\ sc_next c = None /\ cells_within s' s /\ auths_within s' s.
Proof.
  induction fuel as [|n IH]; intros s e p l k W H L; inversion H as [|p' c o l' k' E F H']; subst; cbn in L; [lia|].
  cbn -[auth_stack_release auth_stack_addref]. rewrite E. cbn -[auth_stack_release auth_stack_addref]. destruct (sc_next c) as [q|] eqn:N.
  - destruct (auth_stack_next_ok s e p _ _ W H) as (r & next & s1 & E1 & W1 & H1 & C1 & A1).
    unfold auth_stack_next in E1. rewrite E in E1. cbn -[auth_stack_release auth_stack_addref] in E1. rewrite N in E1.
    destruct (auth_stack_addref (Some q) s) as [t|]; [|done]. cbn -[auth_stack_release] in E1 |- *.
    destruct (auth_stack_release None (Some p) t) as [t'|]; [|done]. cbn in E1 |- *. injection E1 as <- <- <-. cbn in H1. rewrite drop_0 in H1.
    destruct (IH t' e q l' _ W1 H1) as (q' & c' & s2 & E2 & W2 & L2 & Q2 & N2 & C2 & A2); [lia|].
    exists q', c', s2. split_and!; [done|done| |done|done|by eapply cells_within_trans|by eapply auths_within_trans].
    inversion H'; subst. done.
  - inversion H'; subst. exists p, c, s. split_and!; [done|done|done|done|done|apply cells_within_refl|apply auths_within_refl].
Qed.

(** The link from the last cell of a stack to another stack. *)
Record linked (q : addr) (tail : option addr) (s s' : store) : Prop := {
  lk_auths : st_auths s' = st_auths s;
  lk_cells : forall x c', st_stacks s' !! x = Some c' -> exists c, st_stacks s !! x = Some c;
  lk_cell : forall x c, st_stacks s !! x = Some c -> exists c', st_stacks s' !! x = Some c' /\ sc_auth c' = sc_auth c /\
    sc_next c' = if decide (x = q) then tail else sc_next c
}.

Lemma link_ok s e q c tail : store_ok s e -> st_stacks s !! q = Some c -> sc_next c = None -> kept s e tail ->
  tail <> Some q -> exists s', link q tail s = Some s' /\ store_ok s' e /\ linked q tail s s'.
Proof.
  intros O E N K D. unfold link. rewrite E. cbn -[auth_stack_addref]. set (c0 := Cell (sc_refcount c) (sc_auth c) tail).
  destruct tail as [t|]; cbn.
  - pose proof (right_counts_keep _ _ q c c0 (so_stacks _ _ O) E eq_refl) as R. cbn in K.
    destruct (addref_right _ _ t R) as (d & Ed & Ea & Rd); [cbn; lia|]. rewrite Ea. cbn. rewrite lookup_insert_ne in Ed by congruence.
    eexists. split; [reflexivity|]. split; [split; cbn|split; cbn].
    + apply (so_acls _ _ O).
    + eapply right_counts_ext; [|apply (so_auths _ _ O)]. intros x. cbn.
      rewrite (pointing_keep _ _ t d) by (done || by rewrite lookup_insert_ne by congruence). by rewrite (pointing_keep _ _ q c).
    + eapply right_counts_ext; [|exact Rd]. intros x. cbn. unfold more.
      rewrite (pointing_keep _ _ t d) by (done || by rewrite lookup_insert_ne by congruence).
      pose proof (pointing_update sc_next _ q c c0 x E) as U. rewrite N in U. cbn in U. lia.
    + done.
    + intros x c'. destruct (decide (x = t)) as [->|X]; [by eexists|]. rewrite lookup_insert_ne by done.
      destruct (decide (x = q)) as [->|Y]; [by eexists|]. rewrite lookup_insert_ne by done. by eexists.
    + intros x cx Ex. destruct (decide (x = t)) as [->|X].
      * rewrite lookup_insert_eq. eexists. split; [reflexivity|]. rewrite decide_False by congruence. cbn. by replace cx with d by congruence.
      * rewrite lookup_insert_ne by done. destruct (decide (x = q)) as [->|Y].
        -- rewrite lookup_insert_eq. eexists. split; [reflexivity|]. by replace cx with c by congruence.
        -- rewrite lookup_insert_ne by done. by eexists.
  - assert (c0 = c) as -> by (subst c0; destruct c; cbn in *; by subst). rewrite insert_id by done. exists (set_stacks (st_stacks s) s).
    split; [done|]. split; [by destruct s|]. split; cbn; [done|intros; by eexists|].
    intros x cx Ex. eexists. split_and!; [exact Ex|done|]. destruct (decide (x = q)) as [->|Y]; [|done]. by replace cx with c by congruence.
Qed.

(** A stack with the linked cell is longer, any other is what it was. *)
Lemma holds_linked s s' q tail l2 k2 : linked q tail s s' -> holds s' tail l2 k2 ->
  (forall c, st_stacks s !! q = Some c -> sc_next c = None) ->
  forall o l k, holds s o l k -> holds s' o (if decide (q ∈ l) then l ++ l2 else l) (if decide (q ∈ l) then k ++ k2 else k).
Proof.
  intros L T N o l k H. induction H as [|p c o l k E F H IH]; [rewrite !decide_False by apply not_elem_of_nil; constructor|].
  destruct (lk_cell _ _ _ _ L p c E) as (c' & E' & F' & N'). rewrite <- (lk_auths _ _ _ _ L), <- F' in F.
  destruct (decide (p = q)) as [->|D].
  - rewrite !decide_True by apply list_elem_of_here. assert (l = [] /\ k = []) as [-> ->].
    { rewrite (N c E) in H. by inversion H. }
    cbn. apply (holds_cons s' q c'); [done|done|]. by rewrite N'.
  - assert (holds s' (Some p) (p :: if decide (q ∈ l) then l ++ l2 else l) (ao_auth o :: if decide (q ∈ l) then k ++ k2 else k)) as G.
    { apply (holds_cons s' p c'); [done|done|]. by rewrite N'. }
    destruct (decide (q ∈ l)) as [Q|Q].
    + rewrite !decide_True by (by apply list_elem_of_further). done.
    + rewrite !decide_False by (intros [?|?]%elem_of_cons; [congruence|done]). done.
Qed.

Lemma holds_other s s' q tail : linked q tail s s' -> forall o l k, holds s o l k -> q ∉ l -> holds s' o l k.
Proof.
  intros L o l k H. induction H as [|p c o l k E F H IH]; intros Q; [constructor|]. apply not_elem_of_cons in Q as [D Q].
  destruct (lk_cell _ _ _ _ L p c E) as (c' & E' & F' & N'). rewrite <- (lk_auths _ _ _ _ L), <- F' in F.
  apply (holds_cons s' p c'); [done|done|]. rewrite N', decide_False by done. by apply IH.
Qed.

(** Appending, with what becomes of the stacks that are kept: the ones that end
    in the same cell are longer too. *)
Lemma auth_stack_append_ok s e p tail l k l2 k2 : well s e -> held e (Some p) ->
  held e tail ->
  holds s (Some p) l k -> holds s tail l2 k2 -> l ## l2 ->
  exists q s', last l = Some q /\ auth_stack_append None (Some p) tail s = Some (0, s') /\ well s' e /\
    forall o l3 k3, held e o -> holds s o l3 k3 ->
      holds s' o (if decide (q ∈ l3) then l3 ++ l2 else l3) (if decide (q ∈ l3) then k3 ++ k2 else k3).
Proof.
  intros W P T H H2 D. unfold auth_stack_append.
  destruct (auth_stack_addref_ok s e (Some p) (w_counts _ _ W)) as (s1 & E1 & O1 & A1 & C1 & _); [cbn in *; lia|]. rewrite E1.
  assert (well s1 (hold_stack (Some p) e)) as W1 by by eapply well_within.
  assert (forall o, held e o -> kept s1 (hold_stack (Some p) e) o) as K1.
  { intros [x|] X; [|done]. cbn in *. unfold more. lia. }
  assert (holds s1 (Some p) l k) as H1 by (eapply holds_within; [exact O1|exact C1|exact A1|by apply K1|done]).
  rewrite bind_some. destruct (last_cell_ok (chain_fuel s1) s1 e p l k W1 H1) as (q & c & s2 & E2 & W2 & L2 & Q2 & N2 & C2 & A2).
  { unfold chain_fuel. pose proof (stack_length _ _ _ _ H1). lia. }
  rewrite E2, bind_some. assert (cells_within s2 s) as C by by eapply cells_within_trans. assert (auths_within s2 s) as A by by eapply auths_within_trans.
  assert (forall o l3 k3, held e o -> holds s o l3 k3 -> holds s2 o l3 k3) as X.
  { intros o l3 k3 Ho. eapply holds_within; [exact (w_counts _ _ W2)|done|done|]. destruct o as [x|]; [|done]. cbn in *. unfold more. lia. }
  assert (q ∈ l) as Ql by (apply last_Some_elem_of in L2; done). assert (q ∉ l2) as Q2' by (intros ?; by apply (D q)).
  destruct (link_ok s2 _ q c tail (w_counts _ _ W2) Q2 N2) as (s3 & E3 & O3 & L3).
  { destruct tail as [t|]; [|done]. cbn in *. unfold more. lia. }
  { intros ->. apply Q2'. apply X in H2; [|done]. inversion H2. left. }
  rewrite E3, bind_some. pose proof (holds_other _ _ _ _ L3 _ _ _ (X _ _ _ T H2) Q2') as T3.
  assert (forall d, st_stacks s2 !! q = Some d -> sc_next d = None) as N by (intros d Ed; congruence).
  assert (well s3 (hold_stack (Some q) e)) as W3.
  { split; [done|]. intros x d Ed. destruct (lk_cells _ _ _ _ L3 x d Ed) as [d' Ed']. destruct (w_end _ _ W2 x d' Ed') as (lx & kx & Hx).
    eexists _, _. exact (holds_linked _ _ _ _ _ _ L3 T3 N _ _ _ Hx). }
  destruct (auth_stack_release_ok s3 e (Some q) O3) as (s4 & E4 & O4 & A4 & C4). rewrite E4, bind_some.
  exists q, s4. split_and!; [done|done|by eapply well_within|]. intros o l3 k3 Ho H3.
  eapply holds_within; [exact O4|done|done| |exact (holds_linked _ _ _ _ _ _ L3 T3 N _ _ _ (X _ _ _ Ho H3))].
  destruct o as [x|]; [|done]. cbn in *. lia.
Qed.

(** Pushing an authenticator that is there. *)
Lemma auth_stack_push_ok s e stack a o l k : well s e -> held e stack ->
  (0 < e_auths e a)%nat -> st_auths s !! a = Some o -> holds s stack l k ->
  exists p q s', auth_stack_push None stack (Some a) s = Some (0, Some p, s') /\ well s' (if stack is Some _ then e else hold_stack (Some p) e) /\
    holds s' (Some p) (l ++ [q]) (k ++ [ao_auth o]) /\ (if stack is Some x then p = x else True) /\
    forall h l3 k3, held e h -> holds s h l3 k3 ->
      exists l4, holds s' h l4 (if decide (last l ∈ Some <$> l3) then k3 ++ [ao_auth o] else k3).
Proof.
  intros W P Ha Ea H. unfold auth_stack_push. set (n := fresh (dom (st_stacks s))). set (s1 := set_stacks _ s).
  assert (st_stacks s !! n = None) as Nn by (apply not_elem_of_dom, is_fresh).
  assert (e_stacks e n + pointing sc_next (st_stacks s) n = 0)%nat as Zn.
  { pose proof (so_stacks _ _ (w_counts _ _ W) n) as R. by rewrite Nn in R. }
  assert (exists m, auth_addref (Some a) s1 = Some (set_auths m s1) /\ store_ok (set_auths m s1) (hold_stack (Some n) e) /\
    auths_within (set_auths m s1) s1 /\ auths_within s1 (set_auths m s1)) as (m & Em & Om & Am & Am').
  { destruct (w_counts _ _ W) as [A B C]. destruct (addref_right (st_auths s) _ a B) as (v & E & Ea' & R); [cbn; lia|].
    unfold auth_addref. cbn. rewrite Ea'. eexists. split; [reflexivity|]. split_and!.
    - split; cbn.
      + eapply right_counts_ext; [|exact A]. intros x. cbn. by rewrite (pointing_keep _ _ _ v).
      + eapply right_counts_ext; [|exact R]. intros x. cbn. rewrite pointing_insert_new by done. cbn. unfold more. lia.
      + eapply right_counts_ext; [|by apply (right_counts_new _ _ n (Cell 1 a None) C)]. intros x. cbn. rewrite pointing_insert_new by done. cbn. unfold more. lia.
    - by apply (auths_within_update s1 a v).
    - intros x y Ey. cbn in *. destruct (decide (x = a)) as [->|Dx].
      + rewrite lookup_insert_eq. eexists. split; [reflexivity|]. by replace y with v by congruence.
      + rewrite lookup_insert_ne by done. by eexists. }
  set (s2 := set_auths m s1) in *. rewrite Em, bind_some.
  assert (forall h l3 k3, holds s h l3 k3 -> holds s2 h l3 k3 /\ n ∉ l3) as X.
  { intros h l3 k3 H3. induction H3 as [|x c y l3 k3 Ex Fx H3 IH]; [split; [constructor|apply not_elem_of_nil]|]. destruct IH as [IH N3].
    assert (n <> x) as D by congruence. split; [|by apply not_elem_of_cons].
    destruct (Am' _ _ Fx) as (y' & Fy & <- & _). apply (holds_cons s2 x c); [cbn; by rewrite lookup_insert_ne|done|done]. }
  assert (holds s2 (Some n) [n] [ao_auth o]) as Hn.
  { destruct (Am' _ _ Ea) as (y' & Fy & <- & _). apply (holds_cons s2 n (Cell 1 a None)); [cbn; by rewrite lookup_insert_eq|done|constructor]. }
  assert (well s2 (hold_stack (Some n) e)) as W2.
  { split; [done|]. intros x c Ex. destruct (decide (x = n)) as [->|D]; [eexists _, _; exact Hn|]. cbn in Ex. rewrite lookup_insert_ne in Ex by done.
    destruct (w_end _ _ W x c Ex) as (lx & kx & Hx). exists lx, kx. by apply X. }
  destruct stack as [p|].
  - destruct (auth_stack_append_ok s2 (hold_stack (Some n) e) p (Some n) l k [n] [ao_auth o] W2) as (q & s3 & L3 & E3 & W3 & F3).
    { cbn in *. unfold more. lia. } { cbn. unfold more. rewrite one_same. lia. } { by apply X. } { done. }
    { intros x Hx ->%list_elem_of_singleton. by apply (X _ _ _ H). }
    rewrite E3, bind_some. destruct (auth_stack_release_ok s3 e (Some n) (w_counts _ _ W3)) as (s4 & E4 & O4 & A4 & C4). rewrite E4, bind_some.
    assert (forall h l3 k3, held e h -> holds s h l3 k3 ->
      holds s4 h (if decide (q ∈ l3) then l3 ++ [n] else l3) (if decide (q ∈ l3) then k3 ++ [ao_auth o] else k3)) as Y.
    { intros h l3 k3 Hh H3. eapply holds_within; [exact O4|done|done| |apply F3; [|by apply X]]; destruct h; try done; cbn in *; unfold more; lia. }
    exists p, n, s4. split_and!; [done|by eapply well_within| |done|].
    + pose proof (Y _ _ _ P H) as G. rewrite !decide_True in G by (by apply last_Some_elem_of in L3). done.
    + intros h l3 k3 Hh H3. rewrite L3. pose proof (Y _ _ _ Hh H3) as G.
      destruct (decide (q ∈ l3)) as [I|I]; eexists; [rewrite decide_True; [exact G|by apply list_elem_of_fmap_2]|].
      rewrite decide_False; [exact G|]. intros (y & [= <-] & ?)%list_elem_of_fmap. done.
  - inversion H; subst. exists n, n, s2. split_and!; [done|done|done|done|]. intros h l3 k3 Hh H3. exists l3. cbn.
    rewrite decide_False; [by apply X|]. intros (y & [=] & _)%list_elem_of_fmap.
Qed.

(** Looking for an authenticator: the first of the list that is one. *)
Section look_ok.
Context (found : auth -> bool) (take : addr -> auth_obj -> store -> option (addr * store)).
Context (pick : addr -> addr -> addr) (give : addr -> addr -> refs -> refs).
Hypothesis give_stack : forall a b p e x, e_acls (give a b (hold_stack p e)) x = e_acls (hold_stack p (give a b e)) x /\
  e_auths (give a b (hold_stack p e)) x = e_auths (hold_stack p (give a b e)) x /\
  e_stacks (give a b (hold_stack p e)) x = e_stacks (hold_stack p (give a b e)) x.
Hypothesis take_ok : forall s e a o, store_ok s (hold_auth a e) -> st_auths s !! a = Some o ->
  exists s', take a o s = Some (pick a (ao_acl o), s') /\ store_ok s' (give a (ao_acl o) e) /\ cells_within s' s /\ auths_within s' s.

Lemma look_fuel_ok fuel : forall s e stack l k, well s (hold_stack stack e) -> holds s stack l k -> (length l <= fuel)%nat ->
  exists res s', look_fuel None found take fuel stack s = Some (res, s') /\ cells_within s' s /\ auths_within s' s /\
    match List.find found k with
    | None => res = None /\ well s' e
    | Some A => exists a o, st_auths s !! a = Some o /\ ao_auth o = A /\ res = Some (pick a (ao_acl o)) /\ well s' (give a (ao_acl o) e)
    end.
Proof.
  induction fuel as [|n IH]; intros s e stack l k W H L; inversion H as [|p c o l' k' E F H']; subst; cbn in L; try lia.
  1, 2: exists None, s; split_and!; [done|apply cells_within_refl|apply auths_within_refl|by split].
  destruct (auth_stack_get_ok s _ p c (w_counts _ _ W) E) as (s1 & E1 & O1 & A1 & S1).
  assert (cells_within s1 s) as C1 by (intros x y; rewrite S1; intros; by exists y).
  destruct (auth_live s1 _ p c O1) as [o1 F1]; [by rewrite S1|].
  assert (ao_auth o1 = ao_auth o /\ ao_acl o1 = ao_acl o) as [Eo Lo] by (destruct (A1 _ _ F1) as (o' & ? & ? & ?); split; congruence).
  cbn -[auth_stack_get auth_stack_next auth_release auth_stack_release]. rewrite E1, bind_some. cbn -[auth_stack_next auth_release auth_stack_release].
  rewrite F1, bind_some, Eo. destruct (found (ao_auth o)).
  - destruct (take_ok s1 (hold_stack (Some p) e) _ o1 O1 F1) as (s2 & E2 & O2 & C2 & A2). rewrite E2, bind_some.
    destruct (auth_stack_release_ok s2 (give (sc_auth c) (ao_acl o1) e) (Some p)) as (s3 & E3 & O3 & A3 & C3).
    { eapply store_ok_ext; [| | |exact O2]; intros x; destruct (give_stack (sc_auth c) (ao_acl o1) (Some p) e x) as (G1 & G2 & G3); congruence. }
    rewrite E3, bind_some. assert (cells_within s3 s) as C by (eapply cells_within_trans; [exact C3|by eapply cells_within_trans]).
    assert (auths_within s3 s) as A by (eapply auths_within_trans; [exact A3|by eapply auths_within_trans]).
    exists (Some (pick (sc_auth c) (ao_acl o1))), s3. split_and!; [done|done|done|]. exists (sc_auth c), o. rewrite <- Lo. split_and!; [done|done|done|by eapply well_within].
  - destruct (auth_release_ok s1 (hold_stack (Some p) e) (sc_auth c) O1) as (x & y & E2 & O2 & A2). set (s2 := Store x y _) in *.
    rewrite E2, bind_some. assert (cells_within s2 s) as C2 by exact C1. assert (auths_within s2 s) as A2' by by eapply auths_within_trans.
    assert (well s2 (hold_stack (Some p) e)) as W2 by by eapply well_within.
    destruct (auth_stack_next_ok s2 e p (p :: l') (ao_auth o :: k') W2) as (r & next & s3 & E3 & W3 & H3 & C3 & A3).
    { eapply holds_within; [exact O2|done|done| |exact H]. cbn. unfold more. rewrite one_same. lia. }
    rewrite E3, bind_some. cbn in H3. rewrite !drop_0 in H3. destruct (IH s3 e next l' k' W3 H3) as (res & s4 & E4 & C4 & A4 & R4); [lia|].
    assert (auths_within s3 s) as A by by eapply auths_within_trans.
    exists res, s4. split_and!; [done|eapply cells_within_trans; [exact C4|by eapply cells_within_trans]|by eapply auths_within_trans|].
    destruct (List.find found k') as [B|]; [|done]. destruct R4 as (a & o' & Fa & Ba & R & W4). destruct (A _ _ Fa) as (o2 & F2 & B2 & L2).
    exists a, o2. rewrite L2. split_and!; [done|congruence|done|done].
Qed.

Lemma look_ok s e stack l k : well s e -> held e stack -> holds s stack l k ->
  exists res s', look None found take stack s = Some (res, s') /\ cells_within s' s /\ auths_within s' s /\
    match List.find found k with
    | None => res = None /\ well s' e
    | Some A => exists a o, st_auths s !! a = Some o /\ ao_auth o = A /\ res = Some (pick a (ao_acl o)) /\ well s' (give a (ao_acl o) e)
    end.
Proof.
  intros W K H. destruct (auth_stack_addref_ok s e stack (w_counts _ _ W)) as (s1 & E1 & O1 & A1 & C1 & F1); [destruct stack; cbn in *; [lia|done]|].
  unfold look. rewrite E1, bind_some. assert (well s1 (hold_stack stack e)) as W1 by by eapply well_within.
  assert (holds s1 stack l k) as H1.
  { eapply holds_within; [exact O1|done|done| |done]. destruct stack; [|done]. cbn in *. unfold more. lia. }
  destruct (look_fuel_ok (chain_fuel s1) s1 e stack l k W1 H1) as (res & s2 & E2 & C2 & A2 & R2).
  { unfold chain_fuel. pose proof (stack_length _ _ _ _ H1). lia. }
  exists res, s2. split_and!; [done|by eapply cells_within_trans|by eapply auths_within_trans|]. by rewrite <- F1.
Qed.
End look_ok.

Lemma auth_stack_getbyid_ok s e stack id l k : well s e -> held e stack -> holds s stack l k ->
  exists res s', auth_stack_getbyid None stack id s = Some (res, s') /\ cells_within s' s /\ auths_within s' s /\
    match List.find (fun a => a_id a =? id) k with
    | None => res = None /\ well s' e
    | Some A => exists a o, st_auths s !! a = Some o /\ ao_auth o = A /\ res = Some a /\ well s' (hold_auth a e)
    end.
Proof.
  apply (look_ok _ _ (fun a _ => a) (fun a _ e => hold_auth a e)); [by intros ? ? [] ? ?|].
  intros t f a o O F. exists t. split_and!; [done|done|apply cells_within_refl|apply auths_within_refl].
Qed.

Lemma auth_stack_get_anonymous_acl_ok unknown s e stack method l k : well s e -> held e stack -> holds s stack l k ->
  0 <= method <= unknown ->
  exists res s', auth_stack_get_anonymous_acl None unknown stack method s = Some (res, s') /\ cells_within s' s /\ auths_within s' s /\
    match List.find (fun a => takes_method a method && streq (a_type a) "anonymous") k with
    | None => res = None /\ well s' e
    | Some A => exists a o, st_auths s !! a = Some o /\ ao_auth o = A /\ res = Some (ao_acl o) /\ well s' (hold_acl (ao_acl o) e)
    end.
Proof.
  intros W K H M. unfold auth_stack_get_anonymous_acl. destruct (_ || _) eqn:B; [lia|].
  apply (look_ok _ _ (fun _ b => b) (fun _ b e => hold_acl b e)) with (l := l); [by intros ? ? [] ? ?| |done|done|done].
  intros t f a o O F. destruct (acl_addref_ok t _ (ao_acl o) O) as (m & E1 & O1).
  { pose proof (pointing_lookup (fun o => Some (ao_acl o)) _ a o _ F eq_refl). lia. }
  rewrite E1, bind_some. destruct (auth_release_ok (set_acls m t) (hold_acl (ao_acl o) f) a) as (x & y & E2 & O2 & A2); [exact O1|].
  rewrite E2, bind_some. eexists. split_and!; [reflexivity|done|exact (cells_within_refl t)|exact A2].
Qed.

(** ** Runs *)

(** What is done with stacks: authenticators are made from their settings, with
    a list each, and the rest is on what is held. *)
Inductive stack_op :=
| OpNew (A : auth) (running : bool)
| OpAuthAddref (a : addr)
| OpAuthRelease (a : addr)
| OpAclRelease (l : addr)
| OpPush (stack : option addr) (a : addr)
| OpAppend (p : addr) (tail : option addr)
| OpNext (p : addr)
| OpAddref (stack : option addr)
| OpRelease (stack : option addr)
| OpGet (p : addr)
| OpGetById (stack : option addr) (id : Z)
| OpAnonymous (stack : option addr) (method : Z).

Section runs.
Variable httpp_req_unknown : Z.

Definition exec_stack_op (op : stack_op) (s : store) (e : refs) : option (store * refs) :=
  match op with
  | OpNew A running =>
      let l := fresh (dom (st_acls s)) in
      let a := fresh (dom (st_auths s)) in
      Some (Store (<[l := AclObj 1]> (st_acls s)) (<[a := AuthObj 1 A l running]> (st_auths s)) (st_stacks s), hold_auth a e)
  | OpAuthAddref a => s ← auth_addref (Some a) s; Some (s, hold_auth a e)
  | OpAuthRelease a => s ← auth_release None (Some a) s; Some (s, drop_auth a e)
  | OpAclRelease l => s ← acl_release (Some l) s; Some (s, drop_acl l e)
  | OpPush stack a =>
      '(_, p, s) ← auth_stack_push None stack (Some a) s;
      Some (s, if stack is Some _ then e else hold_stack p e)
  | OpAppend p tail => '(_, s) ← auth_stack_append None (Some p) tail s; Some (s, e)
  | OpNext p => '(_, next, s) ← auth_stack_next None (Some p) s; Some (s, hold_stack next (drop_stack (Some p) e))
  | OpAddref stack => s ← auth_stack_addref stack s; Some (s, hold_stack stack e)
  | OpRelease stack => s ← auth_stack_release None stack s; Some (s, drop_stack stack e)
  | OpGet p => '(a, s) ← auth_stack_get (Some p) s; a ← a; Some (s, hold_auth a e)
  | OpGetById stack id =>
      '(a, s) ← auth_stack_getbyid None stack id s;
      Some (s, match a with Some a => hold_auth a e | None => e end)
  | OpAnonymous stack method =>
      '(l, s) ← auth_stack_get_anonymous_acl None httpp_req_unknown stack method s;
      Some (s, match l with Some l => hold_acl l e | None => e end)
  end.

(** What the program may do: use what it holds, and append a stack to another
    that has no cell of it. *)
Definition permitted (op : stack_op) (s : store) (e : refs) : Prop :=
  match op with
  | OpNew _ _ => True
  | OpAuthAddref a | OpAuthRelease a => (0 < e_auths e a)%nat
  | OpAclRelease l => (0 < e_acls e l)%nat
  | OpPush stack a => held e stack /\ (0 < e_auths e a)%nat
  | OpAppend p tail => held e (Some p) /\ held e tail /\
      forall l k l2 k2, holds s (Some p) l k -> holds s tail l2 k2 -> l ## l2
  | OpNext p | OpGet p => held e (Some p)
  | OpAddref stack | OpRelease stack | OpGetById stack _ => held e stack
  | OpAnonymous stack method => held e stack /\ 0 <= method <= httpp_req_unknown
  end.

Definition no_refs : refs := Refs (fun _ => 0%nat) (fun _ => 0%nat) (fun _ => 0%nat).
Definition no_store : store := Store ∅ ∅ ∅.

Inductive stack_run : list stack_op -> store -> refs -> Prop :=
| run_nil : stack_run [] no_store no_refs
| run_snoc ops op s e s' e' : stack_run ops s e -> permitted op s e -> exec_stack_op op s e = Some (s', e') ->
    stack_run (ops ++ [op]) s' e'.

Lemma well_ext s e e' : (forall x, e_acls e' x = e_acls e x) -> (forall x, e_auths e' x = e_auths e x) ->
  (forall x, e_stacks e' x = e_stacks e x) -> well s e -> well s e'.
Proof. intros A B C [O W]. split; [by apply (store_ok_ext s e)|done]. Qed.

Lemma undrop_stack s e stack : held e stack -> well s e -> well s (hold_stack stack (drop_stack stack e)).
Proof. intros H. destruct stack as [p|]; [|done]. apply well_ext; [done|done|]. intros x. cbn. by apply more_less. Qed.

Lemma well_new s e A running : well s e -> exists s' e', exec_stack_op (OpNew A running) s e = Some (s', e') /\ well s' e'.
Proof.
  intros W. cbn. set (l := fresh (dom (st_acls s))). set (a := fresh (dom (st_auths s))).
  assert (st_acls s !! l = None) as Nl by (apply not_elem_of_dom, is_fresh). assert (st_auths s !! a = None) as Na by (apply not_elem_of_dom, is_fresh).
  eexists _, _. split; [reflexivity|]. destruct (w_counts _ _ W) as [R1 R2 R3]. set (s' := Store _ _ _).
  assert (store_ok s' (hold_auth a e)) as O.
  { split; cbn; [|eapply right_counts_ext; [|by apply (right_counts_new _ _ a (AuthObj 1 A l running) R2)]; intros x; cbn; unfold more; lia|done].
    eapply right_counts_ext; [|by apply (right_counts_new _ _ l (AclObj 1) R1)]. intros x. cbn. rewrite pointing_insert_new by done. cbn. unfold more. lia. }
  split; [done|]. intros p c E. destruct (w_end _ _ W p c E) as (lp & kp & H). exists lp, kp. clear - H Na.
  induction H as [|q d o lq kq Eq Fq H IH]; [constructor|]. apply (holds_cons s' q d); [done| |done]. cbn.
  rewrite lookup_insert_ne; [done|]. congruence.
Qed.

(** Whatever is permitted can be done, and keeps the memory in order. *)
Lemma exec_stack_op_ok op s e : well s e -> permitted op s e -> exists s' e', exec_stack_op op s e = Some (s', e') /\ well s' e'.
Proof.
  intros W P. destruct op as [A running|a|a|l|stack a|p tail|p|stack|stack|p|stack id|stack method]; cbn in P; [by apply well_new|..]; cbn [exec_stack_op].
  - destruct (auth_addref_ok s e a (w_counts _ _ W)) as (m & -> & O & A); [lia|]. eexists _, _. split; [reflexivity|].
    eapply well_within; [done|done|exact (cells_within_refl s)|done].
  - destruct (auth_release_ok s (drop_auth a e) a) as (x & y & -> & O & A).
    { eapply store_ok_ext; [| | |exact (w_counts _ _ W)]; try done. intros x. cbn. by apply more_less. }
    eexists _, _. split; [reflexivity|]. eapply well_within; [done|done|exact (cells_within_refl s)|done].
  - destruct (acl_release_ok s (drop_acl l e) l) as (m & -> & O).
    { eapply store_ok_ext; [| | |exact (w_counts _ _ W)]; try done. intros x. cbn. by apply more_less. }
    eexists _, _. split; [reflexivity|]. eapply well_within; [done|done|exact (cells_within_refl s)|exact (auths_within_refl s)].
  - destruct P as [P Pa]. destruct (well_holds s e stack W) as (l & k & H); [destruct stack; cbn in *; [lia|done]|].
    destruct (right_counts_live _ _ a (so_auths _ _ (w_counts _ _ W))) as [o Eo]; [cbn; lia|].
    destruct (auth_stack_push_ok s e stack a o l k W P Pa Eo H) as (p & q & s' & -> & W' & _). eexists _, _. split; [reflexivity|]. by destruct stack.
  - destruct P as (P & T & D). destruct (well_holds s e (Some p) W) as (l & k & H); [cbn in *; lia|].
    destruct (well_holds s e tail W) as (l2 & k2 & H2); [destruct tail; cbn in *; [lia|done]|].
    destruct (auth_stack_append_ok s e p tail l k l2 k2 W P T H H2 (D _ _ _ _ H H2)) as (q & s' & _ & -> & W' & _). by eexists _, _.
  - destruct (well_holds s e (Some p) W) as (l & k & H); [cbn in *; lia|].
    destruct (auth_stack_next_ok s (drop_stack (Some p) e) p l k (undrop_stack _ _ (Some p) P W) H) as (r & next & s' & -> & W' & _). by eexists _, _.
  - destruct (auth_stack_addref_ok s e stack (w_counts _ _ W)) as (s' & -> & O & A & C & _); [destruct stack; cbn in *; [lia|done]|].
    eexists _, _. split; [reflexivity|]. by eapply well_within.
  - destruct (auth_stack_release_ok s (drop_stack stack e) stack (w_counts _ _ (undrop_stack _ _ _ P W))) as (s' & -> & O & A & C).
    eexists _, _. split; [reflexivity|]. by eapply well_within.
  - destruct (kept_live s e p (w_counts _ _ W)) as [c E]; [cbn in *; lia|].
    destruct (auth_stack_get_ok s e p c (w_counts _ _ W) E) as (s' & -> & O & A & S). eexists _, _. split; [reflexivity|].
    eapply well_within; [done|done| |done]. intros x y. rewrite S. by exists y.
  - destruct (well_holds s e stack W) as (l & k & H); [destruct stack; cbn in *; [lia|done]|].
    destruct (auth_stack_getbyid_ok s e stack id l k W P H) as (res & s' & -> & _ & _ & R). eexists _, _. split; [reflexivity|].
    destruct (List.find _ k); [by destruct R as (x & y & _ & _ & -> & R)|by destruct R as [-> R]].
  - destruct P as [P M]. destruct (well_holds s e stack W) as (l & k & H); [destruct stack; cbn in *; [lia|done]|].
    destruct (auth_stack_get_anonymous_acl_ok httpp_req_unknown s e stack method l k W P H M) as (res & s' & -> & _ & _ & R). eexists _, _. split; [reflexivity|].
    destruct (List.find _ k); [by destruct R as (x & y & _ & _ & -> & R)|by destruct R as [-> R]].
Qed.

Lemma well_empty : well no_store no_refs.
Proof. split; [split; exact right_counts_empty|]. intros p c. cbn. by rewrite lookup_empty. Qed.

Lemma stack_run_well ops s e : stack_run ops s e -> well s e.
Proof.
  induction 1 as [|ops op s e s' e' R IH P X]; [apply well_empty|]. destruct (exec_stack_op_ok op s e IH P) as (s2 & e2 & E & W).
  rewrite X in E. by injection E as -> ->.
Qed.
End runs.

(** ** What is left *)

(** Without references from outside a cell would need one before it, and so
    on. *)
Lemma no_stacks s e : well s e -> (forall x, e_stacks e x = 0%nat) -> st_stacks s = ∅.
Proof.
  intros W Z0. destruct (map_eq_dec_empty (st_stacks s)) as [E|E]; [done|]. exfalso. apply map_choose in E as (p & c & E).
  assert (forall n, exists q l k, holds s (Some q) l k /\ (n < length l)%nat) as G.
  { induction n as [|n (q & l & k & H & L)].
    - destruct (w_end _ _ W p c E) as (l & k & H). exists p, l, k. split; [done|]. inversion H. cbn. lia.
    - inversion H as [|q' d o l' k' Eq Fq Hq]; subst. pose proof (so_stacks _ _ (w_counts _ _ W) q) as R. rewrite Eq, Z0 in R.
      destruct (pointing_pos sc_next (st_stacks s) q) as (r & b & Er & Fr); [lia|]. destruct (auth_live s e r b (w_counts _ _ W) Er) as [o2 Eo].
      exists r, (r :: q :: l'), (ao_auth o2 :: ao_auth o :: k'). split; [|cbn in *; lia]. apply (holds_cons s r b); [done|done|]. by rewrite Fr. }
  destruct (G (size (st_stacks s))) as (q & l & k & H & L). pose proof (stack_length _ _ _ _ H). lia.
Qed.

Lemma nothing_left s e : well s e -> (forall x, e_acls e x = 0%nat) -> (forall x, e_auths e x = 0%nat) ->
  (forall x, e_stacks e x = 0%nat) -> s = no_store.
Proof.
  intros W A B C. pose proof (no_stacks s e W C) as S. destruct (w_counts _ _ W) as [R1 R2 _].
  assert (st_auths s = ∅) as T by (apply (no_objects _ _ R2); intros x; by rewrite B, S, pointing_empty).
  assert (st_acls s = ∅) as U by (apply (no_objects _ _ R1); intros x; by rewrite A, T, pointing_empty).
  destruct s as [x y z]. cbn in *. by subst.
Qed.

(** ** Theorems *)


Lemma getbyid_find k id : Auth.auth_stack_getbyid k id = List.find (fun a => a_id a =? id) k.
Proof. induction k as [|a k IH]; cbn; [done|]. by destruct (a_id a =? id). Qed.

Lemma anonymous_find unknown k method : 0 <= method <= unknown ->
  Auth.auth_stack_get_anonymous_acl unknown k method = a_acl <$> List.find (fun a => takes_method a method && streq (a_type a) "anonymous") k.
Proof.
  intros M. induction k as [|a k IH]; cbn; [done|]. destruct (_ || _) eqn:B; [lia|]. by destruct (_ && _).
Qed.

(** C37: stacks are lists.  Where a program holds a stack whose cells hold [k],
    the operations in memory do what those of [Auth.v] do to [k]: pushing adds
    an authenticator at its end, appending the other stack's, the next one is
    without the first, which is what is got, and the one with an id and the
    list of the first anonymous one are those of the list. *)
Theorem auth_stack_refines unknown ops s e stack l k : stack_run unknown ops s e -> held e stack -> holds s stack l k ->
  (forall a o, (0 < e_auths e a)%nat -> st_auths s !! a = Some o ->
     exists p s' l', auth_stack_push None stack (Some a) s = Some (0, Some p, s') /\ holds s' (Some p) l' (Auth.auth_stack_push k (ao_auth o))) /\
  (forall p tail l2 k2, stack = Some p -> held e tail -> holds s tail l2 k2 -> l ## l2 ->
     exists s', auth_stack_append None stack tail s = Some (0, s') /\ holds s' stack (l ++ l2) (Auth.auth_stack_append k k2)) /\
  (forall p, stack = Some p -> exists r next s', auth_stack_next None stack s = Some (r, next, s') /\
     holds s' next (drop 1 l) (Auth.auth_stack_next k) /\ (r = 1 <-> length k = 1%nat)) /\
  (exists res s', auth_stack_get stack s = Some (res, s') /\
     (res ≫= fun a => ao_auth <$> st_auths s !! a) = Auth.auth_stack_get k) /\
  (forall id, exists res s', auth_stack_getbyid None stack id s = Some (res, s') /\
     (res ≫= fun a => ao_auth <$> st_auths s !! a) = Auth.auth_stack_getbyid k id) /\
  (forall method, 0 <= method <= unknown -> exists res s', auth_stack_get_anonymous_acl None unknown stack method s = Some (res, s') /\
     match Auth.auth_stack_get_anonymous_acl unknown k method with
     | None => res = None
     | Some A => exists a o, st_auths s !! a = Some o /\ a_acl (ao_auth o) = A /\ res = Some (ao_acl o)
     end).
Proof.
  intros R K H. pose proof (stack_run_well unknown ops s e R) as W. split_and!.
  - intros a o Ha Eo. destruct (auth_stack_push_ok s e stack a o l k W K Ha Eo H) as (p & q & s' & E & _ & H' & _). by exists p, s', (l ++ [q]).
  - intros p tail l2 k2 -> T H2 D. destruct (auth_stack_append_ok s e p tail l k l2 k2 W K T H H2 D) as (q & s' & L & E & _ & F).
    exists s'. split; [done|]. specialize (F (Some p) l k K H). rewrite !decide_True in F by by apply last_Some_elem_of. done.
  - intros p ->. destruct (auth_stack_next_ok s (drop_stack (Some p) e) p l k (undrop_stack _ _ (Some p) K W) H) as (r & next & s' & E & _ & H' & _).
    exists r, next, s'. split_and!; [done|done|]. unfold auth_stack_next in E. inversion H as [|p' c o l' k' Ep Fp Hp]; subst. rewrite Ep, bind_some in E.
    destruct (auth_stack_addref _ s); [|done]. rewrite bind_some in E. destruct (auth_stack_release None _ _); [|done]. rewrite bind_some in E.
    injection E as <- <- <-. inversion Hp; cbn; split; congruence || lia.
  - destruct stack as [p|]; [|inversion H; by exists None, s]. inversion H as [|p' c o l' k' Ep Fp Hp]; subst.
    destruct (auth_stack_get_ok s e p c (w_counts _ _ W) Ep) as (s' & E & _). exists (Some (sc_auth c)), s'. split; [done|]. cbn. by rewrite Fp.
  - intros id. destruct (auth_stack_getbyid_ok s e stack id l k W K H) as (res & s' & E & _ & _ & F). exists res, s'. split; [done|].
    rewrite getbyid_find. destruct (List.find _ k); [|by destruct F as [-> _]]. destruct F as (x & o & Fx & <- & -> & _). cbn. by rewrite Fx.
  - intros method M. destruct (auth_stack_get_anonymous_acl_ok unknown s e stack method l k W K H M) as (res & s' & E & _ & _ & F).
    exists res, s'. split; [done|]. rewrite anonymous_find by done.
    destruct (List.find _ k); [|by destruct F as [-> _]]. destruct F as (x & o & Fx & Ox & -> & _). cbn. exists x, o. by rewrite Ox.
Qed.

(** ** Examples *)

Definition example_acl : acl := Acl 1 [] [] ACL_POLICY_DENY ACL_POLICY_DENY 0 0.
Definition example_static : auth := Auth 1 "static" None [true; true] example_acl (BackendStatic (Some "dj") "secret").
Definition example_anonymous : auth := Auth 2 "anonymous" None [true; true] example_acl BackendAnonymous.
Definition example_url : auth := Auth 3 "url" None [true; true] example_acl BackendAnonymous.

(** A stack of two, each held by the stack alone. *)
Definition example_ops : list stack_op :=
  [OpNew example_static false; OpNew example_anonymous false; OpPush None 1; OpPush (Some 1%positive) 2; OpAuthRelease 1; OpAuthRelease 2].

Fixpoint exec_all (ops : list stack_op) (s : store) (e : refs) : option (store * refs) :=
  match ops with
  | [] => Some (s, e)
  | op :: ops => '(s, e) ← exec_stack_op 1 op s e; exec_all ops s e
  end.

Definition example_end : store * refs := default (no_store, no_refs) (exec_all example_ops no_store no_refs).

Lemma run_all ops ops' s e : stack_run 1 ops' s e ->
  (fix may ops s e := match ops with
     | [] => True
     | op :: ops => permitted 1 op s e /\ match exec_stack_op 1 op s e with Some (s, e) => may ops s e | None => False end
     end) ops s e ->
  match exec_all ops s e with Some (s', e') => stack_run 1 (ops' ++ ops) s' e' | None => False end.
Proof.
  revert ops' s e. induction ops as [|op ops IH]; intros ops' s e R M; cbn [exec_all]; [by rewrite app_nil_r|].
  destruct M as [P M]. destruct (exec_stack_op 1 op s e) as [[s' e']|] eqn:E; [|done]. rewrite bind_some.
  specialize (IH (ops' ++ [op]) s' e' (run_snoc _ _ _ _ _ _ _ R P E) M). by rewrite <- app_assoc in IH.
Qed.

Lemma stack_example_run : stack_run 1 example_ops (fst example_end) (snd example_end).
Proof.
  pose proof (run_all example_ops [] no_store no_refs (run_nil 1)) as R. unfold example_end.
  destruct (exec_all example_ops no_store no_refs) as [[s e]|] eqn:E; [apply R|by vm_compute in E].
  vm_compute. repeat split; lia.
Qed.


Lemma auth_stack_refines_witness :
  exists l, holds (fst example_end) (Some 1%positive) l [example_static; example_anonymous] /\
  exists res s', auth_stack_getbyid None (Some 1%positive) 2 (fst example_end) = Some (res, s') /\
    (res ≫= fun a => ao_auth <$> st_auths (fst example_end) !! a) = Some example_anonymous.
Proof.
  assert (holds (fst example_end) (Some 1%positive) [1%positive; 2%positive] [example_static; example_anonymous]) as H.
  { eapply (holds_cons _ 1%positive (Cell 1 1 (Some 2%positive)) (AuthObj 1 example_static 1 false)); [vm_compute; reflexivity..|].
    eapply (holds_cons _ 2%positive (Cell 1 2 None) (AuthObj 1 example_anonymous 2 false)); [vm_compute; reflexivity..|]. constructor. }
  exists [1%positive; 2%positive]. split; [exact H|].
  apply (auth_stack_refines 1 example_ops _ (snd example_end) (Some 1%positive) [1%positive; 2%positive] [example_static; example_anonymous] stack_example_run).
  - vm_compute. lia.
  - exact H.
Defined.

(** A stack with the authenticator [A] alone, whose references are [c] to the
    stack and [a] to the authenticator. *)
Definition alone (A : auth) (running : bool) (c a : Z) : store :=
  Store {[1%positive := AclObj 1]} {[1%positive := AuthObj a A 1 running]} {[1%positive := Cell c 1 None]}.

(** [auth_stack_release] in two: the count is changed with the lock, and looked
    at after it was given back. *)
Definition release_count (p : addr) (s : store) : option store :=
  c ← st_stacks s !! p; Some (set_stacks (<[p := with_count (count c - 1) c]> (st_stacks s)) s).
Definition release_rest (me : option addr) (p : addr) (s : store) : option store :=
  c ← st_stacks s !! p;
  if negb (count c =? 0) then Some s
  else
    s ← auth_release me (Some (sc_auth c)) s;
    s ← auth_stack_release_fuel me (size (st_stacks s)) (sc_next c) s;
    Some (set_stacks (delete p (st_stacks s)) s).

Lemma auth_stack_release_parts me p s : auth_stack_release me (Some p) s = (s ← release_count p s; release_rest me p s).
Proof.
  unfold auth_stack_release, chain_fuel, release_count, release_rest. cbn -[auth_release].
  destruct (st_stacks s !! p) as [c|] eqn:E; [|done]. cbn -[auth_release]. rewrite lookup_insert_eq. cbn -[auth_release].
  destruct (negb _); [done|]. destruct (auth_release me (Some (sc_auth c)) _) as [t|] eqn:F; [|done]. rewrite !bind_some.
  apply auth_release_stacks in F. rewrite F. cbn. by rewrite map_size_insert_Some by by eexists.
Qed.

(** Two threads that release the last two references at once both find the
    count at zero: the second one frees what is freed. *)
Example release_race :
  (s ← release_count 1 (alone example_static false 2 1); s ← release_count 1 s; s ← release_rest None 1 s; release_rest None 1 s) = None /\
  (s ← auth_stack_release None (Some 1%positive) (alone example_static false 2 1); auth_stack_release None (Some 1%positive) s) = Some no_store.
Proof. split; vm_compute; reflexivity. Qed.

(** The thread of an authenticator that is no longer on any stack releases it
    with the last client, and waits for itself to end; another thread would
    not. *)
Example release_joins_itself :
  auth_release (Some 1%positive) (Some 1%positive) (Store {[1%positive := AclObj 1]} {[1%positive := AuthObj 1 example_url 1 true]} ∅) = None /\
  auth_release None (Some 1%positive) (Store {[1%positive := AclObj 1]} {[1%positive := AuthObj 1 example_url 1 true]} ∅) = Some no_store.
Proof. split; vm_compute; reflexivity. Qed.

(** Pushing to a stack that another one goes on with makes both longer. *)
Example push_shared :
  let s := Store {[1%positive := AclObj 1]} {[1%positive := AuthObj 3 example_static 1 false]}
             {[1%positive := Cell 1 1 (Some 2%positive); 2%positive := Cell 2 1 None]} in
  exists s', auth_stack_push None (Some 2%positive) (Some 1%positive) s = Some (0, Some 2%positive, s') /\
    holds s' (Some 1%positive) [1; 2; 3]%positive [example_static; example_static; example_static].
Proof.
  eexists. split; [vm_compute; reflexivity|].
  eapply (holds_cons _ _ (Cell 1 1 (Some 2%positive)) (AuthObj 4 example_static 1 false)); [vm_compute; reflexivity..|].
  eapply (holds_cons _ _ (Cell 2 1 (Some 3%positive)) (AuthObj 4 example_static 1 false)); [vm_compute; reflexivity..|].
  eapply (holds_cons _ _ (Cell 1 1 None) (AuthObj 4 example_static 1 false)); [vm_compute; reflexivity..|]. constructor.
Qed.
