(* ===== verification/Tls.v ===== *)
(** TLS: the contexts and sessions of [tls.c] with their counts, and what is read
    and sent through a connection ([connection.c]).

    OpenSSL is a parameter: what its calls answer. *)

From S2P Require Import Prelude Counted.
Local Open Scope Z_scope.

(** ** Memory *)

(** [tls_ctx_t] and [tls_t]. *)
Record tls_ctx := TlsCtx { x_refc : Z }.
Record tls := Tls { t_refc : Z; t_ctx : addr }.

#[export] Instance tls_ctx_counted : Counted tls_ctx :=
  { count := x_refc; with_count n _ := TlsCtx n; count_with _ _ := eq_refl }.
#[export] Instance tls_counted : Counted tls :=
  { count := t_refc; with_count n t := Tls n (t_ctx t); count_with _ _ := eq_refl }.

Record tls_mem := TlsMem { m_ctxs : gmap addr tls_ctx; m_tls : gmap addr tls }.

(** What OpenSSL makes of the files. *)
Record ssl_files := SslFiles {
  certificate_ok : string -> bool;
  private_key_ok : string -> bool;
  keys_match : string -> string -> bool
}.

(** ** Operations *)

Definition tls_ctx_ref (ctx : option addr) (m : tls_mem) : option tls_mem :=
  match ctx with None => Some m | Some p => x ← addref p (m_ctxs m); Some (TlsMem x (m_tls m)) end.

Definition tls_ctx_unref (ctx : option addr) (m : tls_mem) : option tls_mem :=
  match ctx with None => Some m | Some p => '(_, x) ← unref p (m_ctxs m); Some (TlsMem x (m_tls m)) end.

(** [tls_ctx_new]: a list of ciphers that is not known is only said. *)
Definition tls_ctx_new (lib : ssl_files) (cert_file key_file cipher_list : option string) (m : tls_mem) :
    option (option addr * tls_mem) :=
  match cert_file, key_file, cipher_list with
  | Some cert, Some key, Some _ =>
      let p := fresh (dom (m_ctxs m)) in
      let m := TlsMem (<[p := TlsCtx 1]> (m_ctxs m)) (m_tls m) in
      if certificate_ok lib cert && private_key_ok lib key && keys_match lib cert key then Some (Some p, m)
      else m ← tls_ctx_unref (Some p) m; Some (None, m)
  | _, _, _ => Some (None, m)
  end.

(** [tls_new], where OpenSSL has a session or not. *)
Definition tls_new (session : bool) (ctx : option addr) (m : tls_mem) : option (option addr * tls_mem) :=
  match ctx with
  | None => Some (None, m)
  | Some p =>
      _ ← m_ctxs m !! p;
      if negb session then Some (None, m)
      else
        m ← tls_ctx_ref (Some p) m;
        let t := fresh (dom (m_tls m)) in
        Some (Some t, TlsMem (m_ctxs m) (<[t := Tls 1 p]> (m_tls m)))
  end.

Definition tls_ref (t : option addr) (m : tls_mem) : option tls_mem :=
  match t with None => Some m | Some p => x ← addref p (m_tls m); Some (TlsMem (m_ctxs m) x) end.

(** With the last reference the session is shut down and freed. *)
Definition tls_unref (t : option addr) (m : tls_mem) : option tls_mem :=
  match t with
  | None => Some m
  | Some p =>
      '(freed, x) ← unref p (m_tls m);
      let m := TlsMem (m_ctxs m) x in
      match freed with None => Some m | Some t => tls_ctx_unref (Some (t_ctx t)) m end
  end.

(** *** Reading and sending *)

Inductive ssl_want := SSL_WRITING | SSL_READING | SSL_NOTHING | SSL_OTHER.

Definition tls_want_io (t : option addr) (what : ssl_want) : Z :=
  match t with
  | None => -1
  | Some _ => match what with SSL_WRITING | SSL_READING => 1 | _ => 0 end
  end.

Definition tls_got_shutdown (t : option addr) (received : bool) : Z :=
  match t with None => -1 | Some _ => if received then 1 else 0 end.

(** [tls_read] and [tls_write], with what OpenSSL answers. *)
Definition tls_io (t : option addr) (answer : Z) : Z := match t with None => -1 | Some _ => answer end.

(** What reading and sending change of a connection. *)
Record traffic := Traffic { tr_error : bool; tr_sent_bytes : Z }.

(** [connection_read_tls] and [connection_send_tls]: the result, and the
    connection. *)
Definition connection_read_tls (t : option addr) (answer : Z) (what : ssl_want) (c : traffic) : Z * traffic :=
  let bytes := tls_io t answer in
  if bytes <? 0 then
    if 0 <? tls_want_io t what then (-1, c) else (bytes, Traffic true (tr_sent_bytes c))
  else (bytes, c).

Definition connection_send_tls (t : option addr) (answer : Z) (what : ssl_want) (c : traffic) : Z * traffic :=
  let bytes := tls_io t answer in
  if bytes <? 0 then
    if 0 <? tls_want_io t what then (-1, c) else (bytes, Traffic true (tr_sent_bytes c))
  else (bytes, Traffic (tr_error c) (tr_sent_bytes c + bytes)).

(** [connection_read] and [connection_send], with what the socket answers and
    whether its error can go away. *)
Definition connection_read (answer : Z) (recoverable : bool) (c : traffic) : Z * traffic :=
  (answer, if (answer =? 0) || ((answer =? -1) && negb recoverable) then Traffic true (tr_sent_bytes c) else c).

Definition connection_send (answer : Z) (recoverable : bool) (c : traffic) : Z * traffic :=
  (answer, if answer <? 0 then (if negb recoverable then Traffic true (tr_sent_bytes c) else c)
           else Traffic (tr_error c) (tr_sent_bytes c + answer)).

(** ** Right counts *)

(** [ectx] and [etls] are the references from outside. *)
Record tls_ok (m : tls_mem) (ectx etls : addr -> nat) : Prop := {
  to_ctxs : right_counts (m_ctxs m) (fun x => ectx x + pointing (fun t => Some (t_ctx t)) (m_tls m) x)%nat;
  to_tls : right_counts (m_tls m) etls
}.

Lemma tls_ok_ext m e e' f f' : (forall x, e' x = e x) -> (forall x, f' x = f x) -> tls_ok m e f -> tls_ok m e' f'.
Proof. intros E F [A B]. split; (eapply right_counts_ext; [|eassumption]); intros x; cbn; by rewrite ?E, ?F. Qed.

Lemma tls_ctx_unref_ok m e f p : tls_ok m (more p e) f -> exists m', tls_ctx_unref (Some p) m = Some m' /\ tls_ok m' e f.
Proof.
  intros [A B]. destruct (unref_right (m_ctxs m) (fun x => e x + pointing (fun t => Some (t_ctx t)) (m_tls m) x)%nat p) as (v & E & _ & K).
  { eapply right_counts_ext; [|exact A]. intros x. cbn. unfold more. lia. }
  unfold tls_ctx_unref. destruct K as [(_ & -> & R)|(_ & -> & R)]; eexists; (split; [reflexivity|]); by split.
Qed.

(** The same where there may be none. *)
Lemma tls_ctx_unref_option m e f ctx : tls_ok m (fun x => ones ctx x + e x)%nat f -> exists m', tls_ctx_unref ctx m = Some m' /\ tls_ok m' e f.
Proof. destruct ctx as [p|]; [apply tls_ctx_unref_ok|]. intros O. by exists m. Qed.

Lemma tls_ctx_ref_ok m e f p : tls_ok m e f -> (0 < e p)%nat -> exists x, tls_ctx_ref (Some p) m = Some (TlsMem x (m_tls m)) /\
  tls_ok (TlsMem x (m_tls m)) (more p e) f.
Proof.
  intros [A B] L. destruct (addref_right (m_ctxs m) _ p A) as (v & E & Ea & R); [cbn; lia|].
  unfold tls_ctx_ref. rewrite Ea. eexists. split; [reflexivity|]. split; [|done].
  eapply right_counts_ext; [|exact R]. intros x. cbn. unfold more. lia.
Qed.

Lemma tls_ctx_new_ok lib cert key ciphers m e f : tls_ok m e f ->
  exists ctx m', tls_ctx_new lib cert key ciphers m = Some (ctx, m') /\ tls_ok m' (fun x => ones ctx x + e x)%nat f /\
    (ctx <> None <-> exists c k, cert = Some c /\ key = Some k /\ ciphers <> None /\
       certificate_ok lib c = true /\ private_key_ok lib k = true /\ keys_match lib c k = true).
Proof.
  intros O. destruct cert as [c|], key as [k|], ciphers as [l|]; cbn [tls_ctx_new];
    try (exists None, m; split_and!; [done|exact O|split; [done|intros (? & ? & ? & ? & ? & ?); congruence]]).
  set (p := fresh (dom (m_ctxs m))). assert (m_ctxs m !! p = None) as N by (apply not_elem_of_dom, is_fresh).
  assert (tls_ok (TlsMem (<[p := TlsCtx 1]> (m_ctxs m)) (m_tls m)) (more p e) f) as O1.
  { destruct O as [A B]. split; [|done]. eapply right_counts_ext; [|by apply (right_counts_new _ _ p (TlsCtx 1) A)].
    intros x. cbn. unfold more. lia. }
  destruct (certificate_ok lib c && private_key_ok lib k && keys_match lib c k) eqn:G.
  - eexists _, _. split; [reflexivity|]. split; [exact O1|]. apply andb_true_iff in G as [[G1 G2]%andb_true_iff G3].
    split; [|done]. intros _. by exists c, k.
  - destruct (tls_ctx_unref_ok _ e f p O1) as (m' & -> & O2). exists None, m'. split_and!; [done|done|]. split; [done|].
    intros (c' & k' & [= <-] & [= <-] & _ & G1 & G2 & G3). by rewrite G1, G2, G3 in G.
Qed.

Lemma tls_new_ok session ctx m e f : tls_ok m e f -> match ctx with Some p => (0 < e p)%nat | None => True end ->
  exists t m', tls_new session ctx m = Some (t, m') /\ tls_ok m' e (fun x => ones t x + f x)%nat.
Proof.
  intros O L. destruct ctx as [p|]; cbn [tls_new]; [|by exists None, m].
  destruct (right_counts_live (m_ctxs m) _ p (to_ctxs _ _ _ O)) as [v E]; [cbn; lia|]. rewrite E, bind_some.
  destruct session; cbn [negb]; [|by exists None, m].
  destruct (tls_ctx_ref_ok m e f p O L) as (x & -> & O1). rewrite bind_some. cbn [m_tls m_ctxs].
  set (t := fresh (dom (m_tls m))). assert (m_tls m !! t = None) as N by (apply not_elem_of_dom, is_fresh).
  exists (Some t). eexists. split; [reflexivity|]. destruct O1 as [A B]. split; cbn in *.
  - eapply right_counts_ext; [|exact A]. intros y. cbn. rewrite pointing_insert_new by done. cbn. unfold more. lia.
  - by apply (right_counts_new _ _ t (Tls 1 p) B).
Qed.

Lemma tls_unref_ok m e f t : tls_ok m e (fun x => ones t x + f x)%nat -> exists m', tls_unref t m = Some m' /\ tls_ok m' e f.
Proof.
  destruct t as [p|]; intros [A B]; [|by exists m]. cbn in A, B.
  destruct (unref_right (m_tls m) f p B) as (v & E & _ & K). unfold tls_unref. destruct K as [(_ & -> & R)|(_ & -> & R)]; rewrite bind_some.
  - destruct (tls_ctx_unref_ok (TlsMem (m_ctxs m) (delete p (m_tls m))) e f (t_ctx (with_count (count v - 1) v))) as (m' & -> & O); [|by exists m'].
    split; [|done]. eapply right_counts_ext; [|exact A]. intros x. cbn. unfold more. rewrite (pointing_delete _ (m_tls m) p v x E). cbn. lia.
  - eexists. split; [reflexivity|]. split; [|done]. eapply right_counts_ext; [|exact A]. intros x. cbn. by rewrite (pointing_keep _ _ p v).
Qed.

(** A connection for TLS that has no session sends and reads nothing, and is
    closed. *)
Lemma tls_fails_closed answer what c :
  connection_send_tls None answer what c = (-1, Traffic true (tr_sent_bytes c)) /\
  connection_read_tls None answer what c = (-1, Traffic true (tr_sent_bytes c)).
Proof. done. Qed.
