(* ===== verification/Sockets.v ===== *)
(** The sockets of the process: those it listens on, those of connections, and
    the sessions of TLS that go with them ([connection.c], [client.c],
    [cfgfile.c]).

    The kernel is a parameter: which number a new socket has, whether a call
    succeeds, and what [poll] reports. *)

From S2P Require Import Prelude Counted Matchfile Connection Tls.
Local Open Scope Z_scope.

Definition SOCK_ERROR : Z := -1.

(** ** State *)

(** [connection_t] in memory: [c_handlers] tells whether its functions for
    reading and sending are those of TLS. *)
Record con := Con {
  c_sock : Z;
  c_serversock : Z;
  c_ip : string;
  c_tlsmode : tlsmode_t;
  c_handlers : bool;
  c_tls : option addr
}.

(** [global.serversock] with [global.server_sockets], the listeners of the
    configuration, the connections, the lists of addresses, and TLS. *)
Record net := Net {
  n_open : gset Z;
  n_serversock : option (list Z);
  n_server_sockets : nat;
  n_listen_sock : list listener_t;
  n_cons : gmap addr con;
  n_banned_ip : option matchfile;
  n_allowed_ip : option matchfile;
  n_tls : tls_mem;
  n_tls_ctx : option addr;
  n_tls_ok : bool
}.

Definition set_open (x : gset Z) (n : net) : net :=
  Net x (n_serversock n) (n_server_sockets n) (n_listen_sock n) (n_cons n) (n_banned_ip n) (n_allowed_ip n) (n_tls n) (n_tls_ctx n) (n_tls_ok n).
Definition set_serversock (a : option (list Z)) (k : nat) (n : net) : net :=
  Net (n_open n) a k (n_listen_sock n) (n_cons n) (n_banned_ip n) (n_allowed_ip n) (n_tls n) (n_tls_ctx n) (n_tls_ok n).
Definition set_listeners (l : list listener_t) (n : net) : net :=
  Net (n_open n) (n_serversock n) (n_server_sockets n) l (n_cons n) (n_banned_ip n) (n_allowed_ip n) (n_tls n) (n_tls_ctx n) (n_tls_ok n).
Definition set_cons (c : gmap addr con) (n : net) : net :=
  Net (n_open n) (n_serversock n) (n_server_sockets n) (n_listen_sock n) c (n_banned_ip n) (n_allowed_ip n) (n_tls n) (n_tls_ctx n) (n_tls_ok n).
Definition set_lists (b a : option matchfile) (n : net) : net :=
  Net (n_open n) (n_serversock n) (n_server_sockets n) (n_listen_sock n) (n_cons n) b a (n_tls n) (n_tls_ctx n) (n_tls_ok n).
Definition set_tls (m : tls_mem) (ctx : option addr) (ok : bool) (n : net) : net :=
  Net (n_open n) (n_serversock n) (n_server_sockets n) (n_listen_sock n) (n_cons n) (n_banned_ip n) (n_allowed_ip n) m ctx ok.

(** What the settings say for [connection_setup_sockets]. *)
Record sockets_config := SocketsConfig {
  sc_listen_sock_count : nat;
  sc_listen_sock : list listener_t;
  sc_banfile : option string;
  sc_allowfile : option string
}.

(** The outcome of opening the socket of a listener. *)
Inductive bind_result := NoSocket | NotListening | Listening.

(** What [poll] reports of a socket that is open; of one that is not it
    reports that it is invalid. *)
Record revents := Revents { r_in : bool; r_hup : bool }.

Section sockets.
(** The number of a new socket. *)
Variable fresh_fd : gset Z -> Z.

(** ** Listening sockets *)

(** [sock_close]: closing what is not open is an error of the program, but for
    [SOCK_ERROR]. *)
Definition sock_close (s : Z) (x : gset Z) : option (gset Z) :=
  if s =? SOCK_ERROR then Some x else if decide (s ∈ x) then Some (x ∖ {[s]}) else None.

Fixpoint close_each (l : list Z) (x : gset Z) : option (gset Z) :=
  match l with [] => Some x | s :: l => x ← sock_close s x; close_each l x end.

(** The loop over the listeners: those that could be opened, and their sockets,
    of which there is [room] for so many. *)
Fixpoint open_listeners (bind : nat -> bind_result) (i room : nat) (ls : list listener_t) (x : gset Z) :
    option (list listener_t * list Z * gset Z) :=
  match ls with
  | [] => Some ([], [], x)
  | l :: ls =>
      match bind i with
      | NoSocket => open_listeners bind (S i) room ls x
      | NotListening =>
          let s := fresh_fd x in
          x ← sock_close s ({[s]} ∪ x);
          open_listeners bind (S i) room ls x
      | Listening =>
          let s := fresh_fd x in
          match room with
          | O => None
          | S room =>
              '(ls, socks, x) ← open_listeners bind (S i) room ls ({[s]} ∪ x);
              Some (l :: ls, s :: socks, x)
          end
      end
  end.

(** [connection_setup_sockets]: how many sockets there are. *)
Definition connection_setup_sockets (now : Z) (disk : string -> option text_file) (bind : nat -> bind_result)
    (config : option sockets_config) (n : net) : option (nat * net) :=
  n ← match n_serversock n with
      | Some a => x ← close_each (take (n_server_sockets n) a) (n_open n); Some (set_serversock None (n_server_sockets n) (set_open x n))
      | None => Some n
      end;
  match config with
  | None => Some (0%nat, n)
  | Some c =>
      let banned := match sc_banfile c with Some f => matchfile_new now (Some f) (disk f) | None => n_banned_ip n end in
      let allowed := match sc_allowfile c with Some f => matchfile_new now (Some f) (disk f) | None => n_allowed_ip n end in
      '(ls, socks, x) ← open_listeners bind 0 (sc_listen_sock_count c) (sc_listen_sock c) (n_open n);
      Some (length socks,
            set_lists banned allowed (set_listeners ls
              (set_serversock (Some (socks ++ replicate (sc_listen_sock_count c - length socks) 0)) (length socks) (set_open x n))))
  end.

(** The loop over what [poll] reports, up to the first socket with a connection
    waiting: that socket, the sockets after it, and what is open. *)
Fixpoint check_serversocks (ev : Z -> revents) (l : list Z) (x : gset Z) : option (option Z * list Z * gset Z) :=
  match l with
  | [] => Some (None, [], x)
  | s :: l =>
      if s <? 0 then '(r, l, x) ← check_serversocks ev l x; Some (r, s :: l, x)
      else if decide (s ∈ x) then
        if r_in (ev s) then Some (Some s, s :: l, x)
        else if r_hup (ev s) then
          x ← sock_close s x;
          '(r, l, x) ← check_serversocks ev l x; Some (r, SOCK_ERROR :: l, x)
        else '(r, l, x) ← check_serversocks ev l x; Some (r, s :: l, x)
      else '(r, l, x) ← check_serversocks ev l x; Some (r, SOCK_ERROR :: l, x)
  end.

(** [wait_for_serversock], with the result of [poll]. *)
Definition wait_for_serversock (ret : Z) (ev : Z -> revents) (n : net) : option (Z * net) :=
  match n_serversock n with
  | None => if decide (n_server_sockets n = 0%nat) then Some (SOCK_ERROR, n) else None
  | Some a =>
      if ret <=? 0 then Some (SOCK_ERROR, n)
      else
        '(r, l, x) ← check_serversocks ev (take (n_server_sockets n) a) (n_open n);
        let n := set_open x n in
        let a := l ++ drop (n_server_sockets n) a in
        match r with
        | Some s => Some (s, set_serversock (Some a) (n_server_sockets n) n)
        | None =>
            let kept := List.filter (fun s => negb (s =? SOCK_ERROR)) l in
            Some (SOCK_ERROR, set_serversock (Some (kept ++ drop (length kept) a)) (length kept) n)
        end
  end.

(** ** Connections *)

(** [connection_create], where there is memory for it. *)
Definition new_con (sock serversock : Z) (ip : string) (n : net) : addr * net :=
  let p := fresh (dom (n_cons n)) in
  (p, set_cons (<[p := Con sock serversock ip TLSMODE_AUTO false None]> (n_cons n)) n).

(** [_accept_connection]: what [sock_accept] gives is the address of the other
    side; [memory] is whether there is some for the connection. *)
Definition accept_connection (now : Z) (da dd : option text_file) (ret : Z) (ev : Z -> revents) (accepted : option string) (memory : bool)
    (n : net) : option (option addr * net) :=
  '(s, n) ← wait_for_serversock ret ev n;
  if s =? SOCK_ERROR then Some (None, n)
  else
    match accepted with
    | None => Some (None, n)
    | Some ip =>
        let sock := fresh_fd (n_open n) in
        let n := set_open ({[sock]} ∪ n_open n) n in
        let ip := plain_address ip in
        let '(pass, allowed, banned) := matchfile_match_allow_deny now da dd (n_allowed_ip n) (n_banned_ip n) (Some ip) in
        let n := set_lists banned allowed n in
        if pass && memory then let '(p, n) := new_con sock s ip n in Some (Some p, n)
        else x ← sock_close sock (n_open n); Some (None, set_open x n)
    end.

(** [connection_accept_loop]: how long the next turn waits at most. *)
Definition next_duration (accepted : option addr) (req_queue_empty : bool) (duration : Z) : Z :=
  match accepted with
  | Some _ => 5
  | None => if req_queue_empty then 300 else duration
  end.

(** [connection_uses_tls]. *)
Definition uses_tls (session : bool) (p : addr) (n : net) : option net :=
  c ← n_cons n !! p;
  match c_tls c with
  | Some _ => Some n
  | None =>
      '(t, m) ← tls_new session (n_tls_ctx n) (n_tls n);
      Some (set_cons (<[p := Con (c_sock c) (c_serversock c) (c_ip c) TLSMODE_RFC2818 true t]> (n_cons n)) (set_tls m (n_tls_ctx n) (n_tls_ok n) n))
  end.

(** [connection_close]. *)
Definition connection_close (p : addr) (n : net) : option net :=
  c ← n_cons n !! p;
  m ← tls_unref (c_tls c) (n_tls n);
  x ← sock_close (c_sock c) (n_open n);
  Some (set_cons (delete p (n_cons n)) (set_tls m (n_tls_ctx n) (n_tls_ok n) (set_open x n))).

(** [client_reuseconnection]: the socket and the session move to a new
    connection, the old one is closed with its client, and the new one is
    queued. *)
Definition client_reuseconnection (upgrade session : bool) (p : addr) (n : net) : option (addr * net) :=
  c ← n_cons n !! p;
  let '(q, n) := new_con (c_sock c) (c_serversock c) (c_ip c) n in
  let n := match c_tls c with
           | Some t =>
               set_cons (<[p := Con SOCK_ERROR (c_serversock c) (c_ip c) (c_tlsmode c) false None]>
                 (<[q := Con (c_sock c) (c_serversock c) (c_ip c) TLSMODE_AUTO (c_handlers c) (Some t)]> (n_cons n))) n
           | None =>
               set_cons (<[p := Con SOCK_ERROR (c_serversock c) (c_ip c) (c_tlsmode c) (c_handlers c) None]> (n_cons n)) n
           end in
  n ← connection_close p n;
  n ← (if upgrade then uses_tls session q n else Some n);
  Some (q, n).

(** ** The context of TLS *)

(** [get_tls_certificate]: the key is in the certificate's file where none is
    given. *)
Definition get_tls_certificate (lib : ssl_files) (cert_file key_file cipher_list : option string) (n : net) : option net :=
  let keyfile := match key_file with Some _ => key_file | None => cert_file end in
  m ← tls_ctx_unref (n_tls_ctx n) (n_tls n);
  '(ctx, m) ← tls_ctx_new lib cert_file keyfile cipher_list m;
  Some (set_tls m ctx (match ctx with Some _ => true | None => false end) n).

(** [connection_shutdown], once it was initialized; what is left of the address of
    the context is not used again. *)
Definition connection_shutdown (n : net) : option net :=
  m ← tls_ctx_unref (n_tls_ctx n) (n_tls n);
  Some (set_lists (snd (matchfile_release (n_banned_ip n))) (snd (matchfile_release (n_allowed_ip n))) (set_tls m None (n_tls_ok n) n)).

(** ** Who holds a socket *)

Definition sock_of (s : Z) : option Z := if s =? SOCK_ERROR then None else Some s.

Fixpoint times (l : list Z) (x : Z) : nat := match l with [] => 0 | s :: l => ones (sock_of s) x + times l x end.

(** The sockets the process listens on. *)
Definition listening (n : net) : list Z := match n_serversock n with Some a => take (n_server_sockets n) a | None => [] end.

(** A socket is open just when it has a holder, and it has one. *)
Definition owned (x : gset Z) (h : Z -> nat) : Prop := forall s, h s = if decide (s ∈ x) then 1%nat else 0%nat.

Definition con_sock (c : con) : option Z := sock_of (c_sock c).

Record net_ok (n : net) : Prop := {
  no_open : owned (n_open n) (fun s => times (listening n) s + pointing con_sock (n_cons n) s)%nat;
  no_valid : forall s, s ∈ n_open n -> 0 <= s;
  no_count : match n_serversock n with Some a => (n_server_sockets n <= length a)%nat | None => True end;
  no_tls : tls_ok (n_tls n) (ones (n_tls_ctx n)) (pointing c_tls (n_cons n))
}.

Lemma listening_cons c n : listening (set_cons c n) = listening n.
Proof. reflexivity. Qed.

Lemma holders_ext x h h' : (forall s, h' s = h s) -> owned x h -> owned x h'.
Proof. intros E O s. rewrite E. apply O. Qed.

Lemma sock_close_ok x h s : owned x (fun y => ones (sock_of s) y + h y)%nat -> exists x', sock_close s x = Some x' /\ owned x' h /\ x' ⊆ x.
Proof.
  intros O. unfold sock_close, sock_of in *. destruct (s =? SOCK_ERROR); [by exists x|]. cbn in O.
  assert (s ∈ x) as S by (specialize (O s); cbn in O; rewrite one_same in O; by case_decide).
  rewrite decide_True by done. eexists. split_and!; [done| |set_solver]. intros y. specialize (O y). cbn in O. destruct (decide (y = s)) as [->|D].
  - rewrite one_same in O. rewrite decide_True in O by done. rewrite decide_False by set_solver. lia.
  - rewrite one_ne in O by done. destruct (decide (y ∈ x)); [rewrite decide_True by set_solver|rewrite decide_False by set_solver]; lia.
Qed.

Lemma close_each_ok l h : forall x, owned x (fun y => times l y + h y)%nat -> exists x', close_each l x = Some x' /\ owned x' h /\ x' ⊆ x.
Proof.
  induction l as [|s l IH]; intros x O; cbn [close_each]; [by exists x|].
  destruct (sock_close_ok x (fun y => times l y + h y)%nat s) as (x1 & -> & O1 & L1); [eapply holders_ext; [|exact O]; intros y; cbn; lia|].
  destruct (IH x1 O1) as (x2 & E2 & O2 & L2). exists x2. rewrite bind_some. split_and!; [done|done|set_solver].
Qed.

Section kernel.
Hypothesis fresh_fd_new : forall x, (fresh_fd x ∉ x) /\ 0 <= fresh_fd x.

Lemma sock_open_ok x h : owned x h -> owned ({[fresh_fd x]} ∪ x) (fun y => one (fresh_fd x) y + h y)%nat.
Proof.
  intros O y. destruct (fresh_fd_new x) as [N _]. destruct (decide (y = fresh_fd x)) as [->|D].
  - rewrite one_same, O. rewrite decide_False by done. by rewrite decide_True by set_solver.
  - rewrite one_ne, O by done. cbn. destruct (decide (y ∈ x)); [rewrite decide_True by set_solver|rewrite decide_False by set_solver]; done.
Qed.

Lemma sock_of_fresh x : sock_of (fresh_fd x) = Some (fresh_fd x).
Proof. destruct (fresh_fd_new x) as [_ N]. unfold sock_of, SOCK_ERROR. destruct (_ =? _) eqn:E; [lia|done]. Qed.

Lemma valid_fresh (x : gset Z) : (forall s, s ∈ x -> 0 <= s) -> forall s, s ∈ ({[fresh_fd x]} ∪ x : gset Z) -> 0 <= s.
Proof. intros V s [->%elem_of_singleton|S]%elem_of_union; [apply fresh_fd_new|by apply V]. Qed.

Lemma open_listeners_ok bind ls h : forall i room x, (length ls <= room)%nat -> owned x h -> (forall s, s ∈ x -> 0 <= s) ->
  exists ls' socks x', open_listeners bind i room ls x = Some (ls', socks, x') /\ owned x' (fun y => times socks y + h y)%nat /\
    (forall s, s ∈ x' -> 0 <= s) /\ length ls' = length socks /\ (length socks <= length ls)%nat /\ sublist ls' ls.
Proof.
  revert h. induction ls as [|l ls IH]; intros h i room x L O V; cbn [open_listeners]; [by exists [], [], x|]. cbn in L.
  destruct (bind i).
  - destruct (IH h (S i) room x) as (a & b & c & E & R1 & R2 & R3 & R4 & R5); [lia|done|done|]. exists a, b, c. split_and!; try done; [cbn; lia|by constructor].
  - destruct (sock_close_ok ({[fresh_fd x]} ∪ x) h (fresh_fd x)) as (x1 & -> & O1 & L1).
    { rewrite sock_of_fresh. by apply sock_open_ok. }
    rewrite bind_some. destruct (IH h (S i) room x1) as (a & b & c & E & R1 & R2 & R3 & R4 & R5); [lia|done|intros s S1; by eapply valid_fresh, L1|].
    exists a, b, c. split_and!; try done; [cbn; lia|by constructor].
  - destruct room as [|room]; [lia|].
    destruct (IH (fun y => one (fresh_fd x) y + h y)%nat (S i) room ({[fresh_fd x]} ∪ x)) as (a & b & c & -> & R1 & R2 & R3 & R4 & R5);
      [lia|by apply sock_open_ok|by apply valid_fresh|].
    rewrite bind_some. exists (l :: a), (fresh_fd x :: b), c. split_and!; [done| |done|cbn; lia|cbn; lia|by constructor].
    eapply holders_ext; [|exact R1]. intros y. cbn. rewrite sock_of_fresh. cbn. lia.
Qed.

Lemma check_serversocks_ok ev l h : forall x, owned x (fun y => times l y + h y)%nat -> (forall s, s ∈ x -> 0 <= s) ->
  exists r l' x', check_serversocks ev l x = Some (r, l', x') /\ owned x' (fun y => times l' y + h y)%nat /\ x' ⊆ x /\ length l' = length l /\
    match r with Some s => s ∈ x' /\ s ∈ l' | None => True end.
Proof.
  revert h. induction l as [|s l IH]; intros h x O V; cbn [check_serversocks]; [by exists None, [], x|].
  assert (owned x (fun y => times l y + (ones (sock_of s) y + h y))%nat) as O1 by (eapply holders_ext; [|exact O]; intros y; cbn; lia).
  assert (forall l' x', owned x' (fun y => times l' y + (ones (sock_of s) y + h y))%nat -> owned x' (fun y => times (s :: l') y + h y)%nat) as Back.
  { intros l' x' O'. eapply holders_ext; [|exact O']. intros y. cbn. lia. }
  destruct (s <? 0) eqn:Neg; [|destruct (decide (s ∈ x)) as [S|S]].
  - destruct (IH _ x O1 V) as (r & l' & x' & -> & R1 & R2 & R3 & R4). rewrite bind_some. exists r, (s :: l'), x'.
    split_and!; [done|by apply Back|done|cbn; lia|]. destruct r; [|done]. destruct R4. split; [done|by right].
  - destruct (r_in (ev s)); [exists (Some s), (s :: l), x; split_and!; [done|done|done|done|done|by left]|]. destruct (r_hup (ev s)).
    + destruct (sock_close_ok x (fun y => times l y + h y)%nat s) as (x1 & -> & C1 & L1); [eapply holders_ext; [|exact O]; intros y; cbn; lia|].
      rewrite bind_some. destruct (IH h x1 C1) as (r & l' & x' & -> & R1 & R2 & R3 & R4); [intros y Y; by apply V, L1|]. rewrite bind_some.
      exists r, (SOCK_ERROR :: l'), x'. split_and!; [done|done|set_solver|cbn; lia|]. destruct r; [|done]. destruct R4. split; [done|by right].
    + destruct (IH _ x O1 V) as (r & l' & x' & -> & R1 & R2 & R3 & R4). rewrite bind_some. exists r, (s :: l'), x'.
      split_and!; [done|by apply Back|done|cbn; lia|]. destruct r; [|done]. destruct R4. split; [done|by right].
  - exfalso. apply S. specialize (O s). cbn in O. unfold sock_of, SOCK_ERROR in O. destruct (s =? -1) eqn:E; [lia|]. cbn in O. rewrite one_same in O. by case_decide.
Qed.

Lemma times_filter l y : times (List.filter (fun s => negb (s =? SOCK_ERROR)) l) y = times l y.
Proof.
  induction l as [|s l IH]; cbn; [done|]. unfold sock_of. destruct (s =? SOCK_ERROR) eqn:E; cbn; [done|]. unfold sock_of. by rewrite E, IH.
Qed.

(** ** The operations *)

Lemma setup_ok now disk bind config n : net_ok n ->
  match config with Some c => (length (sc_listen_sock c) <= sc_listen_sock_count c)%nat | None => True end ->
  exists k n', connection_setup_sockets now disk bind config n = Some (k, n') /\ net_ok n' /\ n_cons n' = n_cons n /\
    match config with
    | None => n_serversock n' = None
    | Some c => n_serversock n' <> None /\ length (n_listen_sock n') = length (listening n') /\ length (listening n') = k /\
        n_server_sockets n' = k /\ sublist (n_listen_sock n') (sc_listen_sock c)
    end.
Proof.
  intros [O V C T] L. unfold connection_setup_sockets.
  assert (exists x, match n_serversock n with
      | Some a => x ← close_each (take (n_server_sockets n) a) (n_open n); Some (set_serversock None (n_server_sockets n) (set_open x n))
      | None => Some n end = Some (set_serversock None (n_server_sockets n) (set_open x n)) /\
    owned x (pointing con_sock (n_cons n)) /\ x ⊆ n_open n) as (x & -> & Ox & Lx).
  { destruct n as [op [a|] k ls cs b al tm tc tok]; cbn in *.
    - destruct (close_each_ok (take k a) (pointing con_sock cs) op O) as (x & -> & Ox & Lx). by exists x.
    - exists op. split_and!; [done|done|done]. }
  rewrite bind_some. assert (forall s, s ∈ x -> 0 <= s) as Vx by (intros s S; by apply V, Lx).
  destruct config as [c|]; [|by eexists _, _].
  destruct (open_listeners_ok bind (sc_listen_sock c) (pointing con_sock (n_cons n)) 0 (sc_listen_sock_count c) x L Ox Vx)
    as (ls & socks & x' & E & R1 & R2 & R3 & R4 & R5).
  cbn [n_open set_serversock set_open]. rewrite E, bind_some. eexists _, _. split; [reflexivity|].
  assert (forall b, take (length socks) (socks ++ b) = socks) as Tk by (intros b; by rewrite take_app_length).
  split_and!; [|done|done| | |done|done]; cbn; rewrite ?Tk; [|done|done]. split; cbn; rewrite ?Tk; [exact R1|exact R2|rewrite length_app; lia|exact T].
Qed.

Lemma wait_ok ret ev n : net_ok n -> n_serversock n <> None \/ n_server_sockets n = 0%nat ->
  exists s n', wait_for_serversock ret ev n = Some (s, n') /\ net_ok n' /\ n_cons n' = n_cons n /\
    (n_serversock n <> None -> n_serversock n' <> None) /\ (s <> SOCK_ERROR -> s ∈ listening n').
Proof.
  intros K P. pose proof K as [O V C T]. unfold wait_for_serversock.
  destruct (n_serversock n) as [a|] eqn:E.
  2: { destruct P as [P|P]; [done|]. rewrite decide_True by done. eexists _, _. by split_and!. }
  destruct (ret <=? 0); [eexists _, _; split_and!; try done; congruence|]. unfold listening in O. rewrite E in O.
  destruct (check_serversocks_ok ev (take (n_server_sockets n) a) _ (n_open n) O V) as (r & l & x & -> & R1 & R2 & R3 & R4).
  rewrite bind_some. rewrite length_take in R3. assert (length l = n_server_sockets n) as R3' by lia.
  assert (forall y, y ∈ x -> 0 <= y) as Vx by (intros y Y; by apply V, R2).
  destruct r as [s|].
  - assert (take (n_server_sockets n) (l ++ drop (n_server_sockets n) a) = l) as Tk by (by rewrite take_app_length').
    eexists _, _. split; [reflexivity|]. split_and!; [|done|done|].
    + split; cbn; rewrite ?Tk; [exact R1|exact Vx|rewrite length_app, length_drop; lia|exact T].
    + intros NS. cbn. rewrite Tk. by destruct R4.
  - set (kept := List.filter _ l). assert (length kept <= length l)%nat as Lk by apply List.filter_length_le.
    assert (forall b, take (length kept) (kept ++ b) = kept) as Tk by (intros b; by rewrite take_app_length).
    eexists _, _. split; [reflexivity|]. split_and!; [|done|done|done].
    split; cbn; rewrite ?Tk; [|exact Vx|rewrite length_app; lia|exact T].
    eapply holders_ext; [|exact R1]. intros y. cbn. subst kept. by rewrite times_filter.
Qed.

Lemma close_ok n p c : net_ok n -> n_cons n !! p = Some c ->
  exists n', connection_close p n = Some n' /\ net_ok n' /\ n_cons n' = delete p (n_cons n) /\
    n_serversock n' = n_serversock n /\ n_server_sockets n' = n_server_sockets n.
Proof.
  intros [O V C T] E. unfold connection_close. rewrite E, bind_some.
  destruct (tls_unref_ok (n_tls n) (ones (n_tls_ctx n)) (pointing c_tls (delete p (n_cons n))) (c_tls c)) as (m & -> & T').
  { eapply tls_ok_ext; [|intros x|exact T]; [done|]. cbn. by rewrite (pointing_delete c_tls (n_cons n) p c x E). }
  rewrite bind_some.
  destruct (sock_close_ok (n_open n) (fun s => times (listening n) s + pointing con_sock (delete p (n_cons n)) s)%nat (c_sock c)) as (x & -> & Ox & Lx).
  { eapply holders_ext; [|exact O]. intros s. cbn. rewrite (pointing_delete con_sock (n_cons n) p c s E). change (con_sock c) with (sock_of (c_sock c)). lia. }
  rewrite bind_some. eexists. split; [reflexivity|]. split_and!; try done. split; [exact Ox|intros s S; by apply V, Lx|exact C|exact T'].
Qed.

Lemma uses_tls_ok session n p c : net_ok n -> n_cons n !! p = Some c ->
  exists n', uses_tls session p n = Some n' /\ net_ok n' /\ n_serversock n' = n_serversock n /\ n_server_sockets n' = n_server_sockets n /\
    (c_tls c = None -> exists d, n_cons n' !! p = Some d /\ c_handlers d = true /\ c_sock d = c_sock c).
Proof.
  intros K E. pose proof K as [O V C T]. unfold uses_tls. rewrite E, bind_some.
  destruct (c_tls c) as [t|] eqn:Et; [by exists n|].
  destruct (tls_new_ok session (n_tls_ctx n) (n_tls n) _ _ T) as (t & m & -> & T'); [destruct (n_tls_ctx n); [cbn; rewrite one_same; lia|done]|].
  rewrite bind_some. eexists. split; [reflexivity|]. split_and!; [|done|done|].
  - split; cbn; [|exact V|exact C|].
    + eapply holders_ext; [|exact O]. intros s. cbn. by rewrite (pointing_keep con_sock _ p c).
    + eapply tls_ok_ext; [|intros x|exact T']; [done|]. cbn. pose proof (pointing_update c_tls (n_cons n) p c (Con (c_sock c) (c_serversock c) (c_ip c) TLSMODE_RFC2818 true t) x E) as U.
      rewrite Et in U. cbn in U. lia.
  - intros _. eexists. cbn. rewrite lookup_insert_eq. by split_and!.
Qed.

Lemma fresh_con n : n_cons n !! fresh (dom (n_cons n)) = None.
Proof. apply not_elem_of_dom, is_fresh. Qed.

(** A connection for a socket that has no holder yet. *)
Lemma new_con_ok sock serversock ip n :
  owned (n_open n) (fun s => ones (sock_of sock) s + (times (listening n) s + pointing con_sock (n_cons n) s))%nat ->
  (forall s, s ∈ n_open n -> 0 <= s) ->
  match n_serversock n with Some a => (n_server_sockets n <= length a)%nat | None => True end ->
  tls_ok (n_tls n) (ones (n_tls_ctx n)) (pointing c_tls (n_cons n)) -> net_ok (snd (new_con sock serversock ip n)).
Proof.
  intros O V C T. split; cbn; [|exact V|exact C|].
  - eapply holders_ext; [|exact O]. intros s. cbn. rewrite pointing_insert_new by apply fresh_con. rewrite listening_cons. change (con_sock _) with (sock_of sock). lia.
  - eapply tls_ok_ext; [|intros x|exact T]; [done|]. cbn. by rewrite pointing_insert_new by apply fresh_con.
Qed.

Lemma accept_ok now da dd ret ev accepted memory n : net_ok n -> n_serversock n <> None \/ n_server_sockets n = 0%nat ->
  exists p n', accept_connection now da dd ret ev accepted memory n = Some (p, n') /\ net_ok n' /\
    (n_serversock n <> None -> n_serversock n' <> None) /\
    match p with
    | Some p => exists c, n_cons n' !! p = Some c /\ c_sock c ∈ n_open n' /\ c_serversock c ∈ listening n'
    | None => n_cons n' = n_cons n
    end.
Proof.
  intros K P. unfold accept_connection. destruct (wait_ok ret ev n K P) as (s & n1 & -> & K1 & Cs & NS & Ls). rewrite bind_some.
  destruct (s =? SOCK_ERROR) eqn:Es; [eexists None, _; by split_and!|]. destruct accepted as [ip|]; [|eexists None, _; by split_and!].
  set (sock := fresh_fd (n_open n1)). pose proof K1 as [O V C T].
  pose proof (sock_open_ok (n_open n1) _ O) as O2. fold sock in O2.
  destruct (matchfile_match_allow_deny _ _ _ _ _ _) as [[pass allowed] banned]. destruct (pass && memory).
  - eexists (Some _), _. split; [reflexivity|].
    split_and!; [|done|].
    + apply (new_con_ok sock s (plain_address ip) (set_lists banned allowed (set_open ({[sock]} ∪ n_open n1) n1))).
      * eapply holders_ext; [|exact O2]. intros y. unfold sock. rewrite sock_of_fresh. cbn. done.
      * by apply valid_fresh.
      * exact C.
      * exact T.
    + eexists. cbn. rewrite lookup_insert_eq. split; [reflexivity|]. cbn. split_and!; [set_solver|apply Ls; lia].
  - destruct (sock_close_ok ({[sock]} ∪ n_open n1) (fun y => times (listening n1) y + pointing con_sock (n_cons n1) y)%nat sock) as (x & E & Ox & Lx).
    { unfold sock. rewrite sock_of_fresh. exact O2. }
    cbn [n_open set_open set_lists] in E |- *. rewrite E, bind_some. eexists None, _. split_and!; [reflexivity| |done|done].
    split; [exact Ox|intros y Y; apply Lx in Y; by eapply valid_fresh|exact C|exact T].
Qed.

Lemma reuse_ok upgrade session n p c : net_ok n -> n_cons n !! p = Some c ->
  exists q n', client_reuseconnection upgrade session p n = Some (q, n') /\ net_ok n' /\
    n_serversock n' = n_serversock n /\ n_server_sockets n' = n_server_sockets n /\
    n_cons n' !! p = None /\ exists d, n_cons n' !! q = Some d /\ c_sock d = c_sock c /\ c_serversock d = c_serversock c /\
      (c_tls c <> None -> c_tls d = c_tls c).
Proof.
  intros K E. pose proof K as [O V C T]. unfold client_reuseconnection. rewrite E, bind_some. unfold new_con.
  set (q := fresh (dom (n_cons n))). assert (n_cons n !! q = None) as Nq by apply fresh_con. assert (p <> q) as D by congruence.
  set (old := Con SOCK_ERROR (c_serversock c) (c_ip c) (c_tlsmode c) (match c_tls c with Some _ => false | None => c_handlers c end) None).
  set (new := Con (c_sock c) (c_serversock c) (c_ip c) TLSMODE_AUTO (match c_tls c with Some _ => c_handlers c | None => false end) (c_tls c)).
  set (n1 := set_cons (<[p := old]> (<[q := new]> (n_cons n))) n).
  assert (match c_tls c with
    | Some t => set_cons (<[p := Con SOCK_ERROR (c_serversock c) (c_ip c) (c_tlsmode c) false None]>
        (<[q := Con (c_sock c) (c_serversock c) (c_ip c) TLSMODE_AUTO (c_handlers c) (Some t)]>
           (n_cons (set_cons (<[q := Con (c_sock c) (c_serversock c) (c_ip c) TLSMODE_AUTO false None]> (n_cons n)) n))))
        (set_cons (<[q := Con (c_sock c) (c_serversock c) (c_ip c) TLSMODE_AUTO false None]> (n_cons n)) n)
    | None => set_cons (<[p := Con SOCK_ERROR (c_serversock c) (c_ip c) (c_tlsmode c) (c_handlers c) None]>
        (n_cons (set_cons (<[q := Con (c_sock c) (c_serversock c) (c_ip c) TLSMODE_AUTO false None]> (n_cons n)) n)))
        (set_cons (<[q := Con (c_sock c) (c_serversock c) (c_ip c) TLSMODE_AUTO false None]> (n_cons n)) n)
    end = n1) as ->.
  { subst n1 old new. cbn. destruct (c_tls c); unfold set_cons; cbn; [by rewrite insert_insert_eq|done]. }
  assert (<[q := new]> (n_cons n) !! p = Some c) as Ep by (by rewrite lookup_insert_ne).
  assert (net_ok n1) as K1.
  { split; cbn; [|exact V|exact C|].
    - eapply holders_ext; [|exact O]. intros s. cbn. pose proof (pointing_update con_sock _ p c old s Ep) as U.
      rewrite (pointing_insert_new con_sock _ q new s Nq) in U. change (con_sock c) with (con_sock new) in U. change (con_sock old) with (@None Z) in U. cbn in U. change (listening n1) with (listening n). lia.
    - eapply tls_ok_ext; [|intros x|exact T]; [done|]. cbn. pose proof (pointing_update c_tls _ p c old x Ep) as U.
      rewrite (pointing_insert_new c_tls _ q new x Nq) in U. cbn in U. lia. }
  destruct (close_ok n1 p old K1) as (n2 & -> & K2 & Cs & S1 & S2); [cbn; by rewrite lookup_insert_eq|]. rewrite bind_some.
  assert (n_cons n2 !! q = Some new) as Eq.
  { rewrite Cs. cbn. by rewrite lookup_delete_ne, lookup_insert_ne, lookup_insert_eq by done. }
  assert (n_cons n2 !! p = None) as Np by (rewrite Cs; apply lookup_delete_eq).
  destruct upgrade; [|rewrite bind_some; exists q, n2; split_and!; try done; by exists new].
  destruct (uses_tls_ok session n2 q new K2 Eq) as (n3 & E3 & K3 & S3 & S4 & H3). rewrite E3, bind_some. exists q, n3.
  split_and!; [done|done|by rewrite S3, S1|by rewrite S4, S2| |].
  - unfold uses_tls in E3. rewrite Eq, bind_some in E3. destruct (c_tls new); [by injection E3 as <-|].
    destruct (tls_new _ _ _) as [[t m]|]; [|done]. rewrite bind_some in E3. injection E3 as <-. cbn. by rewrite lookup_insert_ne.
  - unfold uses_tls in E3. rewrite Eq, bind_some in E3. destruct (c_tls new) eqn:Tn; [injection E3 as <-; by exists new|].
    destruct (tls_new _ _ _) as [[t m]|]; [|done]. rewrite bind_some in E3. injection E3 as <-. cbn. rewrite lookup_insert_eq.
    eexists. split_and!; [reflexivity|done|done|]. cbn in Tn. congruence.
Qed.

Lemma certificate_ok_net lib cert key ciphers n : net_ok n -> exists n', get_tls_certificate lib cert key ciphers n = Some n' /\ net_ok n' /\
  n_serversock n' = n_serversock n /\ n_server_sockets n' = n_server_sockets n /\ n_cons n' = n_cons n.
Proof.
  intros [O V C T]. unfold get_tls_certificate.
  destruct (tls_ctx_unref_option (n_tls n) (fun _ => 0%nat) (pointing c_tls (n_cons n)) (n_tls_ctx n)) as (m & -> & T1).
  { eapply tls_ok_ext; [| |exact T]; intros x; cbn; [lia|done]. }
  rewrite bind_some. destruct (tls_ctx_new_ok lib cert (match key with Some _ => key | None => cert end) ciphers m _ _ T1) as (ctx & m2 & -> & T2 & _).
  rewrite bind_some. eexists. split; [reflexivity|]. split_and!; [|done|done|done]. split; [exact O|exact V|exact C|].
  eapply tls_ok_ext; [| |exact T2]; intros x; cbn; [lia|done].
Qed.

(** ** Runs *)

(** What is done with sockets: the sockets to listen on are set up, or given up;
    a turn of the accept loop; the start of TLS on a connection, its end, and its
    reuse; a new certificate. *)
Inductive net_op :=
| OpSetup (now : Z) (disk : string -> option text_file) (bind : nat -> bind_result) (config : option sockets_config)
| OpAccept (now : Z) (da dd : option text_file) (ret : Z) (ev : Z -> revents) (accepted : option string) (memory : bool)
| OpTls (session : bool) (p : addr)
| OpClose (p : addr)
| OpReuse (upgrade session : bool) (p : addr)
| OpCertificate (lib : ssl_files) (cert key ciphers : option string).

Definition exec_net (op : net_op) (n : net) : option net :=
  match op with
  | OpSetup now disk bind config => '(_, n) ← connection_setup_sockets now disk bind config n; Some n
  | OpAccept now da dd ret ev accepted memory => '(_, n) ← accept_connection now da dd ret ev accepted memory n; Some n
  | OpTls session p => uses_tls session p n
  | OpClose p => connection_close p n
  | OpReuse upgrade session p => '(_, n) ← client_reuseconnection upgrade session p n; Some n
  | OpCertificate lib cert key ciphers => get_tls_certificate lib cert key ciphers n
  end.

(** The configuration counts its listeners; the accept loop is not entered
    again once the sockets were given up; a connection is used while it is
    there. *)
Definition net_permitted (op : net_op) (n : net) : Prop :=
  match op with
  | OpSetup _ _ _ (Some c) => (length (sc_listen_sock c) <= sc_listen_sock_count c)%nat
  | OpSetup _ _ _ None | OpCertificate _ _ _ _ => True
  | OpAccept _ _ _ _ _ _ _ => n_serversock n <> None \/ n_server_sockets n = 0%nat
  | OpTls _ p | OpClose p | OpReuse _ _ p => is_Some (n_cons n !! p)
  end.

Definition net_start : net := Net ∅ None 0 [] ∅ None None (TlsMem ∅ ∅) None false.

Inductive net_run : net -> Prop :=
| net_run_start : net_run net_start
| net_run_step n op n' : net_run n -> net_permitted op n -> exec_net op n = Some n' -> net_run n'.

Lemma net_start_ok : net_ok net_start.
Proof.
  split; cbn; [|intros s S; set_solver|done|].
  - intros s. cbn. by rewrite pointing_empty, decide_False by set_solver.
  - split; cbn; [eapply right_counts_ext; [|apply right_counts_empty]; intros x; cbn; by rewrite pointing_empty|].
    eapply right_counts_ext; [|apply right_counts_empty]. intros x. by rewrite pointing_empty.
Qed.

Lemma exec_net_ok op n : net_ok n -> net_permitted op n -> exists n', exec_net op n = Some n' /\ net_ok n'.
Proof.
  intros K P. destruct op as [now disk bind config|now da dd ret ev accepted memory|session p|p|upgrade session p|lib cert key ciphers]; cbn in P; cbn [exec_net].
  - destruct (setup_ok now disk bind config n K) as (k & n' & -> & K' & _); [by destruct config|]. by exists n'.
  - destruct (accept_ok now da dd ret ev accepted memory n K P) as (p & n' & -> & K' & _). by exists n'.
  - destruct P as [c E]. destruct (uses_tls_ok session n p c K E) as (n' & -> & K' & _). by exists n'.
  - destruct P as [c E]. destruct (close_ok n p c K E) as (n' & -> & K' & _). by exists n'.
  - destruct P as [c E]. destruct (reuse_ok upgrade session n p c K E) as (q & n' & -> & K' & _). by exists n'.
  - destruct (certificate_ok_net lib cert key ciphers n K) as (n' & -> & K' & _). by exists n'.
Qed.

Lemma net_run_ok n : net_run n -> net_ok n.
Proof.
  induction 1 as [|n op n' R K P E]; [apply net_start_ok|]. destruct (exec_net_ok op n K P) as (n2 & E2 & K2). rewrite E in E2. by injection E2 as ->.
Qed.

(** C38: the sockets of the process.  Whatever is set up, accepted, upgraded to
    TLS, reused and closed, in any order and whatever the kernel answers, no
    socket is closed that is not open and no session or context of TLS is used
    after it was freed; each open socket is listened on once or belongs to one
    connection, and nothing else is open; and once the sockets to listen on are
    given up and the connections closed, none is, and the shutdown frees the
    rest of TLS. *)
Theorem sockets_accounted n : net_run n ->
  (forall op, net_permitted op n -> exec_net op n <> None) /\
  (forall s, s ∈ n_open n <-> (times (listening n) s + pointing con_sock (n_cons n) s = 1)%nat) /\
  (forall p q c d, n_cons n !! p = Some c -> n_cons n !! q = Some d -> c_sock c = c_sock d -> c_sock c <> SOCK_ERROR -> p = q) /\
  (n_serversock n = None -> n_cons n = ∅ ->
     n_open n = ∅ /\ exists n', connection_shutdown n = Some n' /\ n_tls n' = TlsMem ∅ ∅).
Proof.
  intros R. pose proof (net_run_ok n R) as K. pose proof K as [O V C T]. split_and!.
  - intros op P. by destruct (exec_net_ok op n K P) as (n' & -> & _).
  - intros s. rewrite (O s). by case_decide.
  - intros p q c d Ep Eq S N. destruct (decide (p = q)) as [|D]; [done|]. exfalso. specialize (O (c_sock c)). cbn in O.
    rewrite (pointing_delete con_sock _ p c _ Ep) in O.
    assert (delete p (n_cons n) !! q = Some d) as Eq' by (by rewrite lookup_delete_ne).
    assert (sock_of (c_sock c) = Some (c_sock c)) as S1 by (unfold sock_of; destruct (_ =? _) eqn:Z0; [lia|done]).
    pose proof (pointing_lookup con_sock _ q d (c_sock c) Eq') as L. change (con_sock c) with (sock_of (c_sock c)) in O.
    change (con_sock d) with (sock_of (c_sock d)) in L. rewrite <- S, S1 in L. rewrite S1 in O. cbn in O. rewrite one_same in O.
    specialize (L eq_refl). case_decide; lia.
  - intros Es Ec. split.
    + apply elem_of_equiv_empty_L. intros s S. specialize (O s). cbn in O. unfold listening in O.
      rewrite Es, Ec, pointing_empty, decide_True in O by done. done.
    + unfold connection_shutdown. destruct (tls_ctx_unref_option (n_tls n) (fun _ => 0%nat) (pointing c_tls (n_cons n)) (n_tls_ctx n)) as (m & -> & T1).
      { eapply tls_ok_ext; [| |exact T]; intros x; cbn; [lia|done]. }
      rewrite bind_some. eexists. split; [reflexivity|]. cbn. destruct T1 as [A B].
      assert (m_tls m = ∅) as Z1 by (apply (no_objects _ _ B); intros x; by rewrite Ec, pointing_empty).
      assert (m_ctxs m = ∅) as Z2 by (apply (no_objects _ _ A); intros x; by rewrite Z1, pointing_empty).
      destruct m. cbn in *. by subst.
Qed.

(** ** Which listener a connection came in on *)

Lemma times_in l s : s ∈ l -> s <> SOCK_ERROR -> (0 < times l s)%nat.
Proof.
  intros S N. induction l as [|x l IH]; [by apply elem_of_nil in S|]. cbn. apply elem_of_cons in S as [->|S]; [|specialize (IH S); lia].
  unfold sock_of. destruct (x =? SOCK_ERROR) eqn:E; [lia|]. cbn. rewrite one_same. lia.
Qed.

(** The [i]th socket is that of the [i]th listener. *)
Lemma listen_sock_nth ls socks i l s : (forall y, y <> SOCK_ERROR -> (times socks y <= 1)%nat) ->
  ls !! i = Some l -> socks !! i = Some s -> s <> SOCK_ERROR -> listen_sock ls socks s = Some l.
Proof.
  revert ls socks. induction i as [|i IH]; intros [|a ls] [|b socks] U L S N; try done; cbn in L, S |- *.
  - injection L as ->. injection S as ->. by rewrite Z.eqb_refl.
  - destruct (b =? s) eqn:E.
    + exfalso. assert (b = s) as -> by lia. specialize (U s N). cbn in U. unfold sock_of in U. destruct (s =? SOCK_ERROR) eqn:E2; [lia|]. cbn in U.
      rewrite one_same in U. pose proof (times_in socks s (list_elem_of_lookup_2 _ _ _ S) N). lia.
    + apply IH; [|done|done|done]. intros y Y. specialize (U y Y). cbn in U. lia.
Qed.

(** After the sockets are set up, a connection on the socket of a listener is
    found to have come in on it. *)
Lemma setup_listeners now disk bind c n k n' i l s : net_ok n -> (length (sc_listen_sock c) <= sc_listen_sock_count c)%nat ->
  connection_setup_sockets now disk bind (Some c) n = Some (k, n') ->
  n_listen_sock n' !! i = Some l -> listening n' !! i = Some s -> s <> SOCK_ERROR -> listen_sock (n_listen_sock n') (listening n') s = Some l.
Proof.
  intros K L E Li Ls N. destruct (setup_ok now disk bind (Some c) n K L) as (k' & n2 & E2 & K2 & _). rewrite E in E2. injection E2 as -> ->.
  apply (listen_sock_nth _ _ i); try done. intros y _. pose proof (no_open _ K2 y) as O. cbn in O. case_decide; lia.
Qed.
End kernel.
End sockets.

(** ** Examples *)

(** The least number that is not in use, from 3 on. *)
Definition next_fd (x : gset Z) : Z := 1 + foldr Z.max 2 (elements x).

Lemma next_fd_new x : (next_fd x ∉ x) /\ 0 <= next_fd x.
Proof.
  unfold next_fd. assert (forall l, 2 <= foldr Z.max 2 l /\ forall y, y ∈ l -> y <= foldr Z.max 2 l) as G.
  { induction l as [|a l [IH1 IH2]]; cbn; [split; [lia|intros y Y; by apply elem_of_nil in Y]|]. split; [lia|].
    intros y [->|Y]%elem_of_cons; [lia|]. specialize (IH2 y Y). lia. }
  destruct (G (elements x)) as [G1 G2]. split; [|lia]. intros S. apply elem_of_elements in S. specialize (G2 _ S). lia.
Qed.

Definition plain_listener : listener_t := Listener_t 8000 None false None TLSMODE_AUTO 0.
Definition tls_listener : listener_t := Listener_t 8443 None false None TLSMODE_RFC2818 0.
Definition admin_listener : listener_t := Listener_t 8001 (Some "127.0.0.1") false None TLSMODE_AUTO 0.
Definition example_sockets : sockets_config := SocketsConfig 3 [plain_listener; tls_listener; admin_listener] None None.

(** A run: three sockets to listen on, a connection on the first, which is reused
    for TLS and closed, and the end. *)
Definition example_net_ops : list net_op :=
  [OpSetup 0 (fun _ => None) (fun _ => Listening) (Some example_sockets);
   OpCertificate (SslFiles (fun _ => true) (fun _ => true) (fun _ _ => true)) (Some "icecast.pem"%string) None (Some "HIGH"%string);
   OpAccept 0 None None 1 (fun _ => Revents true false) (Some "::ffff:10.0.0.1"%string) true;
   OpReuse true true 1; OpClose 2; OpSetup 0 (fun _ => None) (fun _ => Listening) None].

Fixpoint exec_nets (ops : list net_op) (n : net) : option net :=
  match ops with [] => Some n | op :: ops => n ← exec_net next_fd op n; exec_nets ops n end.

Lemma exec_nets_run ops : forall n, net_run next_fd n ->
  (fix may ops n := match ops with
     | [] => True
     | op :: ops => net_permitted op n /\ match exec_net next_fd op n with Some n => may ops n | None => False end
     end) ops n ->
  match exec_nets ops n with Some n' => net_run next_fd n' | None => False end.
Proof.
  induction ops as [|op ops IH]; intros n R M; cbn [exec_nets]; [done|]. destruct M as [P M].
  destruct (exec_net next_fd op n) as [n'|] eqn:E; [|done]. rewrite bind_some. apply IH; [|done]. by apply (net_run_step next_fd n op).
Qed.

Definition example_net : net := default net_start (exec_nets example_net_ops net_start).

Lemma example_net_run : net_run next_fd example_net.
Proof.
  pose proof (exec_nets_run example_net_ops net_start (net_run_start next_fd)) as R. unfold example_net.
  destruct (exec_nets example_net_ops net_start) as [n|] eqn:E; [apply R|by vm_compute in E].
  vm_compute. split; [lia|]. split; [exact I|]. split; [left; discriminate|]. split; [eexists; reflexivity|]. split; [eexists; reflexivity|].
  split; exact I.
Qed.

Lemma sockets_accounted_witness : net_run next_fd example_net /\ n_open example_net = ∅.
Proof.
  split; [exact example_net_run|].
  apply (sockets_accounted next_fd next_fd_new example_net example_net_run); vm_compute; reflexivity.
Defined.

(** When the first of three sockets is lost, the others move down the list of
    sockets but not the listeners: connections on the third are taken for ones
    on the second, for which TLS is on. *)
Example listener_shifted :
  match exec_nets [OpSetup 0 (fun _ => None) (fun _ => Listening) (Some example_sockets);
                   OpAccept 0 None None 1 (fun s => Revents false (s =? 3)) None true] net_start with
  | Some n => listening n = [4; 5] /\ listen_sock (n_listen_sock n) (listening n) 5 = Some tls_listener
  | None => False
  end.
Proof. vm_compute. split; reflexivity. Qed.
