(* ===== verification/FserveThread.v ===== *)
(** The thread that serves files, [fserve.c]: how clients are handed to it, when
    it is started and when it ends.

    A step is what a thread does between two places where another can come in.
    Clients are numbers; what is sent to them is in [Fserve.v].  [realloc] of no
    bytes gives a null pointer, as that of glibc does. *)

From S2P Require Import Prelude.
Local Open Scope Z_scope.

(** ** State *)

(** Where the thread is: at the test of [run_fserv] and at that of
    [pending_list] in [wait_for_fds], before the pending clients are taken,
    before [fserve_client_waiting], before it stops, and in the loop over the
    clients with those that are ready. *)
Inductive pc := AtLoop | AtPending | AtTake | AtWait | AtStop | AtPass (ready : list Z).

(** [f_ufds] is how many entries are allocated, [f_done] are the clients that
    were let go, and [f_added] all that were ever added. *)
Record fstate := Fstate {
  f_pending : list Z;
  f_active : list Z;
  f_run : bool;
  f_clients : nat;
  f_changed : bool;
  f_ufds : option nat;
  f_threads : list pc;
  f_done : list Z;
  f_added : list Z
}.

(** [fserve_initialize]. *)
Definition fserve_start : fstate := Fstate [] [] false 0 false None [] [] [].

(** ** Steps *)

(** [fserve_add_pending]. *)
Definition fserve_add_pending (c : Z) (s : fstate) : fstate :=
  Fstate (c :: f_pending s) (f_active s) true (f_clients s) (f_changed s) (f_ufds s)
    (if f_run s then f_threads s else f_threads s ++ [AtLoop]) (f_done s) (c :: f_added s).

(** The loop that moves the pending clients to the active ones. *)
Fixpoint move_pending (pending active : list Z) (clients : nat) (changed : bool) : list Z * nat * bool :=
  match pending with
  | [] => (active, clients, changed)
  | c :: pending => move_pending pending (c :: active) (S clients) true
  end.

(** The rebuilding of [ufds], where there is memory or not. *)
Definition rebuild_ufds (memory : bool) (s : fstate) : bool * option nat :=
  if f_changed s then
    if memory || bool_decide (f_clients s = 0%nat) then
      (false, if decide (f_clients s = 0%nat) then None else Some (f_clients s))
    else (true, f_ufds s)
  else (false, f_ufds s).

(** [fserve_client_waiting], with what [poll] reports of each entry: where the
    thread goes on.  [None] is an access outside of [ufds] or past the end of
    the list. *)
Definition fserve_client_waiting (memory : bool) (polled : Z -> bool) (s : fstate) : option (pc * bool * option nat) :=
  let '(changed, ufds) := rebuild_ufds memory s in
  match ufds with
  | None => Some (AtStop, changed, ufds)
  | Some k =>
      if decide (k < f_clients s \/ length (f_active s) < f_clients s)%nat then None
      else
        let ready := List.filter polled (take (f_clients s) (f_active s)) in
        Some (match ready with [] => AtLoop | _ => AtPass ready end, changed, ufds)
  end.

(** A client that is ready is let go when its data is sent or its connection is
    lost. *)
Definition lets_go (ready : list Z) (finished : Z -> bool) (c : Z) : bool := bool_decide (c ∈ ready) && finished c.

(** One step of a thread: what it changes, and where it is then, unless it has
    ended. *)
Definition thread_turn (memory : bool) (polled finished : Z -> bool) (p : pc) (s : fstate) : option (option pc * fstate) :=
  match p with
  | AtLoop => Some (if f_run s then Some AtPending else None, s)
  | AtPending => Some (Some (match f_pending s with [] => AtWait | _ => AtTake end), s)
  | AtTake =>
      let '(active, clients, changed) := move_pending (f_pending s) (f_active s) (f_clients s) (f_changed s) in
      Some (Some AtWait, Fstate [] active (f_run s) clients changed (f_ufds s) (f_threads s) (f_done s) (f_added s))
  | AtWait =>
      match fserve_client_waiting memory polled s with
      | None => None
      | Some (p, changed, ufds) =>
          Some (Some p, Fstate (f_pending s) (f_active s) (f_run s) (f_clients s) changed ufds (f_threads s) (f_done s) (f_added s))
      end
  | AtStop =>
      Some (None, Fstate (f_pending s) (f_active s) false (f_clients s) (f_changed s) (f_ufds s) (f_threads s) (f_done s) (f_added s))
  | AtPass ready =>
      let gone := List.filter (lets_go ready finished) (f_active s) in
      Some (Some AtLoop,
            Fstate (f_pending s) (List.filter (fun c => negb (lets_go ready finished c)) (f_active s)) (f_run s)
              (f_clients s - length gone) (f_changed s || negb (bool_decide (gone = []))) (f_ufds s) (f_threads s)
              (f_done s ++ gone) (f_added s))
  end.

(** What happens: a client is added, or the [i]th thread takes a step. *)
Inductive fevent :=
| EvAdd (c : Z)
| EvTurn (i : nat) (memory : bool) (polled finished : Z -> bool).

Definition set_threads (l : list pc) (s : fstate) : fstate :=
  Fstate (f_pending s) (f_active s) (f_run s) (f_clients s) (f_changed s) (f_ufds s) l (f_done s) (f_added s).

Definition fserve_event (e : fevent) (s : fstate) : option fstate :=
  match e with
  | EvAdd c => Some (fserve_add_pending c s)
  | EvTurn i memory polled finished =>
      match f_threads s !! i with
      | None => Some s
      | Some p =>
          match thread_turn memory polled finished p s with
          | None => None
          | Some (Some q, s') => Some (set_threads (<[i := q]> (f_threads s')) s')
          | Some (None, s') => Some (set_threads (delete i (f_threads s')) s')
          end
      end
  end.

Fixpoint fserve_events (es : list fevent) (s : fstate) : option fstate :=
  match es with [] => Some s | e :: es => match fserve_event e s with Some s => fserve_events es s | None => None end end.

(** ** The invariant *)

(** There is memory. *)
Definition has_memory (e : fevent) : Prop := match e with EvTurn _ memory _ _ => memory = true | EvAdd _ => True end.

Record fserve_ok (s : fstate) : Prop := {
  fo_clients : f_clients s = length (f_active s);
  fo_kept : f_added s ≡ₚ f_pending s ++ f_active s ++ f_done s;
  fo_thread : if f_run s then exists p, f_threads s = [p] else f_threads s = [];
  fo_ufds : f_changed s = false -> f_ufds s = if decide (f_active s = []) then None else Some (length (f_active s))
}.

Lemma move_pending_spec pending : forall active clients changed, move_pending pending active clients changed =
  (rev pending ++ active, (length pending + clients)%nat, changed || negb (bool_decide (pending = []))).
Proof.
  induction pending as [|c l IH]; intros a n b; cbn [move_pending]; [by rewrite orb_false_r|]. rewrite IH. cbn [rev].
  rewrite <- app_assoc. cbn. by rewrite orb_true_r, Nat.add_succ_r.
Qed.

Lemma filter_split (f : Z -> bool) l : l ≡ₚ List.filter f l ++ List.filter (fun x => negb (f x)) l.
Proof.
  induction l as [|x l IH]; cbn; [done|]. destruct (f x); cbn; [by constructor|]. rewrite IH at 1. apply Permutation_middle.
Qed.

Lemma filter_nil (f : Z -> bool) l : List.filter f l = [] -> List.filter (fun x => negb (f x)) l = l.
Proof. induction l as [|x l IH]; cbn; [done|]. destruct (f x); [done|]. cbn. intros E. by rewrite IH. Qed.

(** A step of the thread is made, and keeps everything in order. *)
Lemma thread_turn_ok polled finished p s : fserve_ok s ->
  exists q s', thread_turn true polled finished p s = Some (q, s') /\ f_clients s' = length (f_active s') /\
    f_added s' ≡ₚ f_pending s' ++ f_active s' ++ f_done s' /\ f_threads s' = f_threads s /\
    (f_changed s' = false -> f_ufds s' = if decide (f_active s' = []) then None else Some (length (f_active s'))) /\
    (f_run s = true -> f_run s' = match q with Some _ => true | None => false end).
Proof.
  intros [C K T U]. destruct p as [| | | | |ready]; cbn [thread_turn].
  - eexists _, s. split; [reflexivity|]. split_and!; try done. by intros ->.
  - eexists _, s. split; [reflexivity|]. by split_and!.
  - rewrite move_pending_spec. eexists _, _. split; [reflexivity|]. cbn. split_and!; try done.
    + rewrite length_app, length_rev. lia.
    + by rewrite K, <- (Permutation_rev (f_pending s)), app_assoc.
    + intros [E B]%orb_false_iff. apply negb_false_iff, bool_decide_eq_true in B. rewrite B. cbn. by apply U.
  - unfold fserve_client_waiting, rebuild_ufds. cbn [orb].
    assert (exists u, (if f_changed s then (false, if decide (f_clients s = 0%nat) then None else Some (f_clients s)) else (false, f_ufds s)) = (false, u) /\
      u = if decide (f_active s = []) then None else Some (length (f_active s))) as (u & -> & Hu).
    { assert ((if decide (f_clients s = 0%nat) then None else Some (f_clients s)) =
        (if decide (f_active s = []) then None else Some (length (f_active s)))) as G.
      { rewrite C. destruct (f_active s); [done|]. by rewrite !decide_False. }
      destruct (f_changed s); eexists; (split; [reflexivity|]); [exact G|by apply U]. }
    destruct u as [k|].
    + assert (k = length (f_active s)) as -> by (destruct (decide (f_active s = [])); congruence).
      rewrite decide_False by lia. eexists _, _. split; [reflexivity|]. by split_and!.
    + eexists _, _. split; [reflexivity|]. by split_and!.
  - eexists _, _. split; [reflexivity|]. by split_and!.
  - eexists _, _. split; [reflexivity|]. cbn. pose proof (filter_split (lets_go ready finished) (f_active s)) as P. split_and!; try done.
    + pose proof (Permutation_length P) as L. rewrite length_app in L. lia.
    + rewrite K, (P) at 1. rewrite <- !app_assoc. apply Permutation_app_head.
      rewrite (Permutation_app_comm (List.filter (lets_go ready finished) (f_active s))), <- !app_assoc. done.
    + intros [E B]%orb_false_iff. apply negb_false_iff, bool_decide_eq_true in B. rewrite (filter_nil _ _ B). by apply U.
Qed.

Lemma fserve_event_ok e s : has_memory e -> fserve_ok s -> exists s', fserve_event e s = Some s' /\ fserve_ok s'.
Proof.
  intros M K. destruct e as [c|i memory polled finished]; cbn [fserve_event].
  - eexists. split; [reflexivity|]. destruct K as [C P T U]. split; cbn; [done|by rewrite P| |done].
    destruct (f_run s); [done|]. rewrite T. by exists AtLoop.
  - destruct (f_threads s !! i) as [p|] eqn:E; [|by exists s]. cbn in M. subst memory.
    destruct (thread_turn_ok polled finished p s K) as (q & s' & -> & C & P & T & U & R). pose proof (fo_thread s K) as Th.
    destruct (f_run s) eqn:Run; [|by rewrite Th in E]. destruct Th as [p' Th]. rewrite Th in E. destruct i as [|i]; [|done].
    specialize (R eq_refl). destruct q as [q|]; eexists; (split; [reflexivity|]); split; cbn; try done; rewrite R, T, Th; [by exists q|done].
Qed.

(** ** Theorems *)

Lemma fserve_start_ok : fserve_ok fserve_start.
Proof. split; done. Qed.

Lemma fserve_events_ok es : Forall has_memory es -> forall s, fserve_ok s -> exists s', fserve_events es s = Some s' /\ fserve_ok s'.
Proof.
  induction 1 as [|e es M _ IH]; intros s K; cbn [fserve_events]; [by exists s|].
  destruct (fserve_event_ok e s M K) as (s1 & -> & K1). by apply IH.
Qed.

(** C39: the clients of the thread that serves files.  However the adding of
    clients and the steps of the thread come one after the other, and whatever
    [poll] reports, as long as there is memory nothing outside of the list of
    descriptors is looked at, each client that was added is either pending,
    served, or was let go, once, and there is one thread just while
    [run_fserv] is set. *)
Theorem fserve_clients_kept es : Forall has_memory es ->
  exists s, fserve_events es fserve_start = Some s /\ f_added s ≡ₚ f_pending s ++ f_active s ++ f_done s /\
    f_clients s = length (f_active s) /\ length (f_threads s) = if f_run s then 1%nat else 0%nat.
Proof.
  intros M. destruct (fserve_events_ok es M fserve_start fserve_start_ok) as (s & E & [C K T _]). exists s. split_and!; [done|done|done|].
  destruct (f_run s); [by destruct T as [p ->]|by rewrite T].
Qed.

(** A step where every client is ready and is let go. *)
Definition full_turn : fevent := EvTurn 0 true (fun _ => true) (fun _ => true).

Lemma filter_true {A} (f : A -> bool) l : (forall x, x ∈ l -> f x = true) -> List.filter f l = l.
Proof.
  induction l as [|x l IH]; intros H; cbn; [done|]. rewrite H by left. f_equal. apply IH. intros y Y. apply H. by right.
Qed.

Lemma full_turn_spec s p : fserve_ok s -> f_threads s = [p] ->
  exists s', fserve_event full_turn s = Some s' /\ fserve_ok s' /\
    match p with
    | AtLoop => f_threads s' = [AtPending] /\ f_pending s' = f_pending s /\ f_active s' = f_active s
    | AtPending => f_threads s' = [match f_pending s with [] => AtWait | _ => AtTake end] /\ f_pending s' = f_pending s /\ f_active s' = f_active s
    | AtTake => f_threads s' = [AtWait] /\ f_pending s' = []
    | AtWait => f_threads s' = [match f_active s with [] => AtStop | _ => AtPass (f_active s) end] /\ f_pending s' = f_pending s /\ f_active s' = f_active s
    | AtStop => f_threads s' = [] /\ f_pending s' = f_pending s /\ f_active s' = f_active s
    | AtPass ready => f_threads s' = [AtLoop] /\ f_pending s' = f_pending s /\ (ready = f_active s -> f_active s' = [])
    end.
Proof.
  intros K T. destruct (fserve_event_ok full_turn s eq_refl K) as (s' & E & K'). exists s'. split_and!; [done|done|].
  pose proof K as [C P Th U]. destruct (f_run s) eqn:Run; [|congruence]. cbn [full_turn fserve_event] in E. rewrite T in E. cbn in E.
  destruct p as [| | | | |ready]; cbn [thread_turn] in E.
  - rewrite Run, T in E. injection E as <-. done.
  - rewrite T in E. injection E as <-. done.
  - rewrite move_pending_spec in E. cbn in E. rewrite T in E. injection E as <-. done.
  - destruct (fserve_client_waiting true (fun _ => true) s) as [[[q b] u]|] eqn:W; [|done]. cbn in E. rewrite T in E. injection E as <-. cbn.
    split_and!; [|done|done]. f_equal. unfold fserve_client_waiting, rebuild_ufds in W. cbn [orb] in W.
    destruct (f_active s) as [|c l] eqn:A; cbn in C.
    + destruct (f_changed s); [rewrite decide_True in W by done; congruence|]. rewrite (U eq_refl), decide_True in W by done. congruence.
    + assert ((if f_changed s then (false, if decide (f_clients s = 0%nat) then None else Some (f_clients s)) else (false, f_ufds s)) =
        (false, Some (f_clients s))) as V.
      { destruct (f_changed s); [by rewrite decide_False by lia|]. by rewrite (U eq_refl), C. }
      rewrite V, C in W. rewrite decide_False in W by (cbn; lia). cbn [take List.filter] in W.
      rewrite (filter_true (fun _ => true)) in W by done. rewrite take_ge in W by done. congruence.
  - cbn in E. rewrite T in E. injection E as <-. done.
  - cbn in E. rewrite T in E. injection E as <-. cbn. split_and!; [done|done|]. intros ->.
    pose proof (filter_split (lets_go (f_active s) (fun _ => true)) (f_active s)) as S.
    rewrite filter_true in S. 2: { intros x X. unfold lets_go. by rewrite bool_decide_eq_true_2. }
    apply Permutation_length in S. rewrite length_app in S. destruct (List.filter _ _); [done|cbn in S; lia].
Qed.

Definition full_turns (n : nat) (s : fstate) : option fstate := fserve_events (replicate n full_turn) s.

(** Everything was served, and the thread has ended. *)
Definition drained (s : fstate) : Prop := f_threads s = [] /\ f_pending s = [] /\ f_active s = [].

Lemma full_turns_ended n s : drained s -> exists s', full_turns n s = Some s' /\ drained s' /\ s' = s.
Proof.
  intros D. exists s. split_and!; [|done|done]. induction n as [|n IH]; [done|]. unfold full_turns in *. cbn. destruct D as (-> & _). cbn. done.
Qed.

Lemma full_turns_step n s s' : fserve_event full_turn s = Some s' -> (exists t, full_turns n s' = Some t /\ drained t /\ fserve_ok t) ->
  exists t, full_turns (S n) s = Some t /\ drained t /\ fserve_ok t.
Proof. intros E H. unfold full_turns. cbn [replicate fserve_events]. by rewrite E. Qed.

Lemma drain_wait n s : fserve_ok s -> f_threads s = [AtWait] -> f_pending s = [] -> (6 <= n)%nat ->
  exists t, full_turns n s = Some t /\ drained t /\ fserve_ok t.
Proof.
  intros K T P N. destruct (full_turn_spec s _ K T) as (s1 & E1 & K1 & T1 & P1 & A1). destruct n as [|n]; [lia|].
  apply (full_turns_step n s s1 E1). destruct (f_active s) as [|c l] eqn:A.
  - destruct (full_turn_spec s1 _ K1 T1) as (s2 & E2 & K2 & T2 & P2 & A2). destruct n as [|n]; [lia|].
    apply (full_turns_step n s1 s2 E2). destruct (full_turns_ended n s2) as (t & F & D & ->); [split_and!; congruence|]. by exists s2.
  - destruct (full_turn_spec s1 _ K1 T1) as (s2 & E2 & K2 & T2 & P2 & A2). specialize (A2 (eq_sym A1)).
    destruct (full_turn_spec s2 _ K2 T2) as (s3 & E3 & K3 & T3 & P3 & A3).
    destruct (full_turn_spec s3 _ K3 T3) as (s4 & E4 & K4 & T4 & P4 & A4). rewrite P3, P2, P1, P in T4.
    destruct (full_turn_spec s4 _ K4 T4) as (s5 & E5 & K5 & T5 & P5 & A5). rewrite A4, A3, A2 in T5.
    destruct (full_turn_spec s5 _ K5 T5) as (s6 & E6 & K6 & T6 & P6 & A6).
    destruct n as [|[|[|[|[|n]]]]]; [lia..|].
    apply (full_turns_step _ s1 s2 E2), (full_turns_step _ s2 s3 E3), (full_turns_step _ s3 s4 E4), (full_turns_step _ s4 s5 E5), (full_turns_step _ s5 s6 E6).
    destruct (full_turns_ended n s6) as (t & F & D & ->); [split_and!; congruence|]. by exists s6.
Qed.

Lemma drain_take n s : fserve_ok s -> f_threads s = [AtTake] -> (7 <= n)%nat -> exists t, full_turns n s = Some t /\ drained t /\ fserve_ok t.
Proof.
  intros K T N. destruct (full_turn_spec s _ K T) as (s1 & E1 & K1 & T1 & P1). destruct n as [|n]; [lia|].
  apply (full_turns_step n s s1 E1), drain_wait; done || lia.
Qed.

Lemma drain_pending n s : fserve_ok s -> f_threads s = [AtPending] -> (8 <= n)%nat -> exists t, full_turns n s = Some t /\ drained t /\ fserve_ok t.
Proof.
  intros K T N. destruct (full_turn_spec s _ K T) as (s1 & E1 & K1 & T1 & P1 & A1). destruct n as [|n]; [lia|].
  apply (full_turns_step n s s1 E1). destruct (f_pending s) eqn:P; [apply drain_wait; done || lia|apply drain_take; done || lia].
Qed.

Lemma drain_loop n s : fserve_ok s -> f_threads s = [AtLoop] -> (9 <= n)%nat -> exists t, full_turns n s = Some t /\ drained t /\ fserve_ok t.
Proof.
  intros K T N. destruct (full_turn_spec s _ K T) as (s1 & E1 & K1 & T1 & _). destruct n as [|n]; [lia|].
  apply (full_turns_step n s s1 E1), drain_pending; done || lia.
Qed.

(** C40: the thread that serves files ends its work.  From any state that can be
    reached while it is not about to stop, that is neither stopping nor waiting
    without a client after it has looked for pending ones, once every client
    is ready and is let go, eleven of its steps serve all clients that were ever
    added, and it ends. *)
Theorem fserve_thread_drains es s p : Forall has_memory es -> fserve_events es fserve_start = Some s -> f_threads s = [p] ->
  p <> AtStop -> (p = AtWait -> f_active s <> [] \/ f_pending s = []) ->
  exists t, full_turns 11 s = Some t /\ f_threads t = [] /\ f_done t ≡ₚ f_added t.
Proof.
  intros M R T N W. destruct (fserve_events_ok es M fserve_start fserve_start_ok) as (s0 & E0 & K). rewrite R in E0. injection E0 as <-.
  assert (exists t, full_turns 11 s = Some t /\ drained t /\ fserve_ok t) as (t & E & (D1 & D2 & D3) & K').
  { destruct p as [| | | | |ready]; [apply drain_loop; done || lia|apply drain_pending; done || lia|apply drain_take; done || lia| |done|].
    - destruct (W eq_refl) as [A|P]; [|apply drain_wait; done || lia].
      destruct (full_turn_spec s _ K T) as (s1 & E1 & K1 & T1 & P1 & A1). apply (full_turns_step _ s s1 E1).
      destruct (f_active s) as [|c l]; [done|]. destruct (full_turn_spec s1 _ K1 T1) as (s2 & E2 & K2 & T2 & _).
      apply (full_turns_step _ s1 s2 E2), drain_loop; done || lia.
    - destruct (full_turn_spec s _ K T) as (s1 & E1 & K1 & T1 & _). apply (full_turns_step _ s s1 E1), drain_loop; done || lia. }
  exists t. split_and!; [done|done|]. rewrite (fo_kept t K'), D2, D3. done.
Qed.

Lemma fserve_clients_kept_witness : Forall has_memory [EvAdd 1; full_turn; full_turn; full_turn; EvAdd 2; full_turn] /\
  exists s, fserve_events [EvAdd 1; full_turn; full_turn; full_turn; EvAdd 2; full_turn] fserve_start = Some s /\ length (f_threads s) = 1%nat.
Proof.
  assert (Forall has_memory [EvAdd 1; full_turn; full_turn; full_turn; EvAdd 2; full_turn]) as M by (repeat constructor).
  split; [exact M|]. destruct (fserve_clients_kept _ M) as (s & E & _ & _ & L). exists s. split; [exact E|]. rewrite L.
  vm_compute in E. injection E as <-. reflexivity.
Defined.

Lemma fserve_thread_drains_witness : exists s, fserve_events [EvAdd 1; full_turn; full_turn; full_turn; EvAdd 2] fserve_start = Some s /\
  exists t, full_turns 11 s = Some t /\ f_threads t = [] /\ f_done t ≡ₚ f_added t.
Proof.
  eexists. split; [reflexivity|]. apply (fserve_thread_drains [EvAdd 1; full_turn; full_turn; full_turn; EvAdd 2] _ AtWait).
  - repeat constructor.
  - reflexivity.
  - reflexivity.
  - discriminate.
  - intros _. left. discriminate.
Defined.

(** A client that is added after the thread has found none pending, and before
    it stops, starts no thread and is served by none. *)
Example fserve_lost_wakeup :
  match fserve_events ([EvAdd 1] ++ replicate 8 full_turn ++ [EvAdd 2] ++ replicate 20 full_turn) fserve_start with
  | Some s => f_pending s = [2] /\ f_threads s = [] /\ f_run s = false
  | None => False
  end.
Proof. vm_compute. split_and!; reflexivity. Qed.

(** Where [ufds] cannot be made longer, [poll] is called with the old one and
    the new number of clients. *)
Example fserve_poll_overrun :
  fserve_events ([EvAdd 1] ++ replicate 4 full_turn ++ [EvAdd 2; EvTurn 0 true (fun _ => false) (fun _ => false)] ++
                 replicate 4 (EvTurn 0 false (fun _ => false) (fun _ => false))) fserve_start = None.
Proof. vm_compute. reflexivity. Qed.
