(* ===== verification/Logging.v ===== *)
(** What is written to the logs, [logging.c].

    The writing itself, with its escapes, is that of the submodule common/log;
    the escapes are parameters.  The time as a text is a parameter too, but for
    the zone, which the code works out itself where [strftime] cannot. *)

From S2P Require Import Prelude.
Local Open Scope Z_scope.

(** ** The zone *)

(** What is used of [struct tm]. *)
Record tm := Tm { tm_yday : Z; tm_hour : Z; tm_min : Z }.

(** The difference in minutes, as [get_clf_time] works it out. *)
Definition time_tz (t gmt : tm) : Z :=
  let time_days := tm_yday t - tm_yday gmt in
  let tempnum1 := if time_days <? -1 then 24 else 1 in
  let tempnum2 := if tempnum1 <? time_days then -24 else time_days * 24 in
  let time_hours := tempnum2 + tm_hour t - tm_hour gmt in
  time_hours * 60 + tm_min t - tm_min gmt.

(** [%.2d] *)
Definition two_digits (z : Z) : string := if z <? 10 then ("0" +:+ dec z)%string else dec z.

(** [timezone_string], of seven bytes. *)
Definition timezone_string (t gmt : tm) : string :=
  let tz := time_tz t gmt in
  let '(sign, tz) := if tz <? 0 then ("-"%string, - tz) else ("+"%string, tz) in
  string_take 6 (" " +:+ sign +:+ two_digits (tz / 60) +:+ two_digits (tz mod 60))%string.

(** [get_clf_time], with the rest of the time as a text. *)
Definition get_clf_time (date : string) (t : tm) (gmt : option tm) : Z * string :=
  match gmt with
  | None => (0, "<<BAD TIMESTAMP>>"%string)
  | Some gmt => (1, (date +:+ timezone_string t gmt)%string)
  end.

(** ** The lines *)

Definition quote : string := String (chr 34) EmptyString.

(** What [logging_access] looks at of a client. *)
Record accessed := Accessed {
  lg_ip : string;
  lg_username : option string;
  lg_req_type : string;
  lg_uri : string;
  lg_protocol : string;
  lg_version : string;
  lg_respcode : Z;
  lg_sent_bytes : Z;
  lg_referer : option string;
  lg_user_agent : option string;
  lg_con_time : Z
}.

Section lines.
(** [%H] and [% H] of the log library. *)
Variables (escape escape_space : string -> string).

Definition logging_access (now : Z) (datebuf : string) (c : accessed) : string :=
  let stayed := now - lg_con_time c in
  (lg_ip c +:+ " - " +:+ escape (default "-" (lg_username c)) +:+ " [" +:+ datebuf +:+ "] " +:+ quote +:+
   escape (lg_req_type c) +:+ " " +:+ escape (lg_uri c) +:+ " " +:+ escape (lg_protocol c) +:+ "/" +:+ escape (lg_version c) +:+ quote +:+
   " " +:+ dec (lg_respcode c) +:+ " " +:+ dec (lg_sent_bytes c) +:+
   " " +:+ quote +:+ escape_space (default "-" (lg_referer c)) +:+ quote +:+
   " " +:+ quote +:+ escape_space (default "-" (lg_user_agent c)) +:+ quote +:+ " " +:+ dec stayed)%string.
End lines.

(** [logging_playlist], where there is such a log. *)
Definition logging_playlist (playlistlog : Z) (datebuf mount : string) (listeners : Z) (metadata : string) : option string :=
  if playlistlog =? -1 then None
  else Some (datebuf +:+ "|" +:+ mount +:+ "|" +:+ dec listeners +:+ "|" +:+ metadata)%string.

(** A text up to its last newline, where it has one. *)
Fixpoint before_last (c : ascii) (s : string) : option string :=
  match s with
  | EmptyString => None
  | String d r => match before_last c r with Some p => Some (String d p) | None => if Ascii.eqb d c then Some EmptyString else None end
  end.

(** [log_parse_failure]: the message in a buffer of 200 bytes. *)
Definition log_parse_failure (message : string) : string :=
  let line := string_take 199 message in default line (before_last (chr 10) line).

(** ** Opening the logs again *)

Inductive log_action :=
| SetFilename (log : Z) (name : string)
| SetLevel (log : Z) (level : Z)
| SetTrigger (log : Z) (size : Z)
| SetArchiveTimestamp (log : Z) (archive : Z)
| Reopen (log : Z).

Record log_config := LogConfig {
  lc_log_dir : string;
  lc_error_log : string;
  lc_access_log : string;
  lc_playlist_log : option string;
  lc_loglevel : Z;
  lc_logsize : Z;
  lc_logarchive : Z
}.

Definition restart_logging (errorlog accesslog playlistlog : Z) (c : log_config) : list log_action :=
  let file (name : string) := string_take 4095 (lc_log_dir c +:+ "/" +:+ name)%string in
  let reopen (log : Z) := [SetTrigger log (lc_logsize c); SetArchiveTimestamp log (lc_logarchive c); Reopen log] in
  (if streq (lc_error_log c) "-" then [] else SetFilename errorlog (file (lc_error_log c)) :: SetLevel errorlog (lc_loglevel c) :: reopen errorlog) ++
  (if streq (lc_access_log c) "-" then [] else SetFilename accesslog (file (lc_access_log c)) :: reopen accesslog) ++
  match lc_playlist_log c with Some name => SetFilename playlistlog (file name) :: reopen playlistlog | None => [] end.

(** ** Theorems *)

(** A moment in Greenwich and the same one in a place that is [offset] minutes
    ahead of it, less than a day: in the year [gmt] is in, that has [days], or
    the one before or after it. *)
Definition minutes (t : tm) : Z := (tm_yday t * 24 + tm_hour t) * 60 + tm_min t.
Definition of_day (days : Z) (t : tm) : Prop := 0 <= tm_yday t < days /\ 0 <= tm_hour t < 24 /\ 0 <= tm_min t < 60.

(** the zone in the time of the log.  It is the difference to Greenwich on
    every day on which both places have the same year, and where Greenwich is
    in the new year first; where it is not, as it is every New Year's Eve in the
    east, the code takes the days of the year for the days between them, and the
    zone is not the one of any place. *)
Theorem clf_zone (days offset : Z) (t gmt : tm) : 365 <= days <= 366 -> -1440 < offset < 1440 -> of_day days t -> of_day days gmt ->
  (minutes t = minutes gmt + offset -> time_tz t gmt = offset) /\
  (minutes t = minutes gmt + offset + days * 1440 -> time_tz t gmt = offset) /\
  (minutes t = minutes gmt + offset - days * 1440 -> time_tz t gmt = offset - days * 1440 /\ time_tz t gmt < -1440).
Proof.
  unfold of_day, minutes, time_tz. intros D O (Y & H & M) (Yg & Hg & Mg).
  split_and!; intros E; destruct (tm_yday t - tm_yday gmt <? -1) eqn:B1;
    [destruct (24 <? _) eqn:B2|destruct (1 <? _) eqn:B2|destruct (24 <? _) eqn:B2|destruct (1 <? _) eqn:B2|destruct (24 <? _) eqn:B2|destruct (1 <? _) eqn:B2]; lia.
Qed.

Lemma clf_zone_witness : of_day 365 (Tm 0 0 30) /\ time_tz (Tm 0 0 30) (Tm 364 23 30) = 60 - 365 * 1440.
Proof.
  split; [repeat split; cbn; lia|].
  apply (clf_zone 365 60 (Tm 0 0 30) (Tm 364 23 30)); repeat split; cbn; lia.
Defined.

Example clf_zone_summer : timezone_string (Tm 180 1 15) (Tm 179 23 15) = " +0200"%string.
Proof. vm_compute. reflexivity. Qed.

Example clf_zone_new_year : timezone_string (Tm 0 0 30) (Tm 364 23 30) = " -8759"%string.
Proof. vm_compute. reflexivity. Qed.

(** A line of the log for accesses. *)
Example access_line :
  logging_access (fun s => s) (fun s => s) 1100 "01/Jan/2024:00:00:00 +0000"
    (Accessed "10.0.0.1" None "GET" "/live.ogg" "HTTP" "1.1" 200 4096 None (Some "VLC"%string) 1000) =
  ("10.0.0.1 - - [01/Jan/2024:00:00:00 +0000] " +:+ quote +:+ "GET /live.ogg HTTP/1.1" +:+ quote +:+ " 200 4096 " +:+ quote +:+ "-" +:+ quote +:+
   " " +:+ quote +:+ "VLC" +:+ quote +:+ " 100")%string.
Proof. vm_compute. reflexivity. Qed.
